(* ===== verification/_CoqProject ===== *)
-Q . S2P
Prelude.v
GoStrings.v
GoRegexp.v
Encodings.v
Gorm.v
PromptRules.v
CommandExtractor.v
CommandParser.v
Detector.v
Blacklist.v
Models.v
InputFilter.v
WebTerminal.v
Menu.v
HostSession.v
Database.v
Repositories.v
Permissions.v
Selector.v
Proxies.v
Router.v
Sessions.v
Accounts.v
Auth.v
TwoFactor.v
Expiration.v
Gateway.v
Approvals.v
SshAuth.v
RedisLock.v
HostMonitor.v
Files.v
GoChan.v
Recorder.v
AuditTrail.v
Settings.v
Notifications.v
Routes.v
AuthApi.v
Serving.v
AccessApi.v
Hosts.v
HostsApi.v
SessionsApi.v
AgentApi.v
AssetSync.v
AgentTerminal.v
Protocols.v
HostKeys.v
SshWire.v
CustomSsh.v
SshChannels.v
