(* ===== verification/Prelude.v ===== *)
(** * ZJump bastion host: a verification library

    ZJump lets users reach hosts through a bastion: over SSH (a terminal with
    menus) or from the web (a gateway that opens the session itself or hands it
    to a proxy agent).  On the way it signs the user in, decides which account of
    which host a user may use, by which route, intercepts the commands a
    blacklist forbids, and keeps an audit trail.  This library translates the Go
    code that takes these decisions and proves what each part promises.

    ** Reading order

    This file holds what the others share: [result] (a Go function that returns
    [(T, error)]), [outcome] (a run that may panic), generic lemmas, tactics and hint
    databases.  Then, from the bottom up:

    Language and libraries.  [GoStrings] (runes, UTF-8, package strings; the
    Unicode tables above ASCII are the interface [Unicode]), [GoRegexp] (package
    regexp: declarative matching, a leftmost-first matcher proved sound and
    complete for it, and a reader of the patterns as written), [Encodings]
    (base64 and hex), [Gorm] (what a handler relies on of a table: class [Store]
    with its laws, and an instance).

    Commands (src/internal/bastion/parser, src/internal/bastion/blacklist).
    [PromptRules] and [CommandExtractor]: the commands read back from the
    terminal output, byte by byte.  [CommandParser]: the older parser of the same
    file.  [Detector]: the nine stages of advanced_detector.go.  [Blacklist]:
    manager.go with its refreshes, and the API that edits the rules.

    Terminals (src/internal/sshserver/terminal, src/internal/api/handler).
    [InputFilter] and [WebTerminal]: the two input loops that stop a command
    before it reaches the host.  [Menu]: menu_v2.go.  [HostSession]: handler.go
    from the choice of the account to the audit of the connection.

    Tables (src/internal/model, src/internal/repository).  [Models]: the rows.
    [Database]: the tables, the monad of the statements, failing statements,
    transactions, and a weakest-precondition calculus for invariants of the
    tables.  [Repositories]: the lookups.  [Permissions]: the five functions that
    answer who may use what, and the writes of rules and memberships.

    Access.  [Selector] (selector.go): what a user is offered.  [Proxies]
    (registry.go, proxy_handler.go, proxy_monitor.go): agents that register, beat,
    die.  [Router] (connection_router.go): direct or through an agent.
    [Sessions] (session_service.go): session tokens and session rows.
    [Accounts] and [Auth] (auth_service.go, middleware/auth.go): users, signing
    in, tokens.  [TwoFactor] (twofactor_handler.go, pkg/twofactor).
    [Expiration] (expiration_service.go).  [Gateway] (connection_handler.go): the
    composition of the tokens, the permissions and the router in one request.
    Signing in and deciding.  [SshAuth] (sshserver/auth, sshserver/server): the
    authenticators and callbacks of the SSH server.  [Approvals] (approval_handler.go,
    approval_callback_handler.go, internal/approval): the life of a request for
    access, each handler that writes being the sequence of its statements, which
    interleave with those of the others.

    Background work.  [RedisLock] (pkg/distributed) and [HostMonitor]
    (host_monitor_service.go): the lock over a class of the commands of Redis, and
    the checks of several instances that share it.  [GoChan]: Go channels, shared
    by the parts with goroutines.  [Recorder] (bastion/recorder,
    sshserver/recorder): the recording of a session and its export.
    [AuditTrail] (internal/audit, bastion/storage): the auditor, its adapters and
    the storage with its queues.  [Files] (file_handler.go): transfers and the
    shell commands they run.  [Settings] and [Notifications]
    (setting_handler.go, internal/notification): what the settings set off, and
    the alerts.

    The HTTP API (src/internal/api).  [Routes] (router.go): the table of the
    routes with their middlewares.  [Serving]: the class of an API, a type of
    requests with the handler of each, and what it is to serve one through the
    table.  Its instances are [AccessApi] (user groups, accounts, rules),
    [HostsApi] over [Hosts] (hosts and host groups), [SessionsApi] (sessions and
    dashboard) and [AgentApi] (proxy_handler.go: what the agents report);
    [AuthApi] (auth_handler.go) has a table of its own requests.  [AssetSync]
    (asset_sync_service.go) is another: the hosts that a Prometheus server or an
    inventory brings, synchronised while other requests are served.

    The agent (src/internal/bastion).  [AgentTerminal] (websocket/handler.go,
    pkg/sshclient): the client, the terminal of an agent and the sessions it
    knows.  [Protocols] (bastion/protocol, websocket/protocol_handler.go): the
    factory, the handlers of SSH and RDP and a connection through them.
    [HostKeys] (pkg/sshkey, sshserver/server): the key the gateway shows, shared
    by instances that start together.

    The custom SSH server (src/internal/sshserver/protocol).  [SshWire]: messages.
    [CustomSsh]: handshake, sign-in and the table of sessions.  [SshChannels]:
    the channels of a session with the goroutines of their shells.
    A definition bears the name of the Go function it translates where there is
    one; PROJECT.json gives the file and the lines of each.

    ** How effects are modelled

    State is passed explicitly.  A function that runs SQL is a computation [Eff E
    A] of [Database]: it takes the tables and a list of faults, one for each
    statement to come (an exhausted list means success), and returns an outcome,
    the tables and the faults left.  A theorem that takes any list of faults holds
    whichever statements fail; one that takes the empty list is about a database
    that answers.  An HTTP handler is such a computation
    whose error is the status and the message of the answer.  Concurrent parts
    (the manager and its refresh goroutine; agents, monitor and administrator;
    operations on the users, on the second factor, on the session tokens) are
    step relations, a step being what a lock or a statement makes atomic, and
    their invariants are proved by induction on [rtc].  A run of a terminal is a
    fold over the events it reads.  Panics are values ([outcome], or a
    constructor of a result), and so are errors.

    ** What the theorems show

    Interception: no blacklisted command typed key by key is ever submitted, in
    either terminal, and what evades the web one; a rule of the table blocks what
    it says; the two functions that block and explain refine one specification;
    quoting does not hide a dangerous word, an encoded payload is found.
    Extraction: buffers and cursor stay in bounds, feeding is a homomorphism on
    input free of cut escape sequences, a command echoed after a prompt is
    reported.
    Access: every connection, from the terminal or from the web, uses an account
    the tables grant to that user on that host; the functions that compute
    permissions agree; writes of rules grant exactly what they list.
    Routing: a decision is consistent with the mode of the host and with the
    agents online; registration converges and keeps one row per agent.
    Identity: the tables of users and second factors stay well formed under every
    operation; a token is only issued to who can prove who they are; session
    tokens implement a history; expired accounts are disabled and only they; and
    the cases where the code promises more than it does ([token_outlives_account],
    [renewal_reactivates], and the findings listed with the development).
    The API: what is served with which token is read off the table of the routes,
    so each theorem on an API holds for any request, any token and, where it says
    so, any failing statement.  Only administrators change groups of users,
    accounts and rules, and read the audit; every user may add hosts to a group
    and so extend its rules ([anyone_extends_access]); a member who leaves a group loses what its rules gave and
    nothing else; a rule that is created and deleted leaves no trace in what is
    granted; users are shown, page by page, the hosts that a rule in force
    reaches through its groups; addresses of hosts stay
    distinct while requests are served one after the other.
    Reports: a batch of sessions may be repeated, a batch of commands doubles the
    log.
    Decisions: statement by statement, an approval that was decided is only
    written again by a request that had read it while it was pending.
    Background work: that no periodic check begins while the lock of the last one
    lives, how reloads end, that what a queue of the storage takes is done once
    and in order, and which submission panics when the storage closes
    ([send_after_close]), that a recording of any length reads back as what was
    recorded, that no file name escapes from its quotes.
    Synchronisation: what a run stores is what the samples say, a second run
    changes nothing, and no address is doubled by it; two runs at once double one.
    The agent: what is recorded is what passed, but for what a goroutine has
    still to record or could not write whole; a blocked command stays on the line; no session connects, for want
    of credentials.  Instances that race for the host key never show two.
    The custom server: messages are read back as sent, signing in takes a
    password and the second factor, and a terminal takes what the client sent to
    its channel, by the client's own account, in order and whole.
    ** Fuel and bounds

    Loops over input use structural recursion on the input.  [feed_loop] takes
    fuel computed from the length of what is left to read, proved enough
    ([feed_loop_fuel]); so does the search for all matches of a pattern, each of
    which consumes a rune or advances by one.  The menus
    take fuel; [menu_fuel_enough] gives the amount for every input that ends the
    menu, and the theorem on the client that disconnects shows that no amount is
    enough for it, because the code spins.  Lengths are [nat]; ids, times and
    counters are [Z] where no operation of the code can reach 2^63.

    ** Assumptions

    The database compares text as Go does (the tables use a binary collation in
    the comparisons modelled).  A [SELECT] without [ORDER BY] answers in table
    order, except where a theorem quantifies over the order.  A function that
    reads the clock several times within one operation reads one time.
    [AddDate] adds days of 24 hours.  Cryptography, JSON, HTTP, SSH and the SQL
    functions on JSON are not part of the repository: they are parameters, with
    the documented laws used as the fields of a class ([UnicodeLaws],
    [StoreLaws], [CryptoLaws]) or named hypotheses, each with an instance.

    ** Not modelled

    Byte pumps between sockets, the SSH transport and its cryptography, the binding
    of JSON, calls to chat platforms and identity providers, mail, logging,
    metrics, configuration, start-up, the web front end and generated code: they
    are input and output, or library calls, without a decision of their own.  Of
    the modelled parts, the text of the screens and the interleaving of the
    goroutines of one session with its terminal are left out.  PROJECT.json lists every part with its state. *)

From stdpp Require Import base list strings gmap sorting.
From Stdlib Require Import ZArith Lia.

(** ** Results of fallible Go functions

    A Go function that returns [(T, error)] is a function into [result E T]:
    [Ok] is the nil error, [Err e] carries what the component says of the
    failure.  [x ← m; k] is the early return [if err != nil { return }]. *)

Inductive result (E A : Type) : Type :=
  | Ok (a : A)
  | Err (e : E).
Arguments Ok {E A} _.
Arguments Err {E A} _.

#[global] Instance result_ret {E} : MRet (result E) := λ A, Ok.
#[global] Instance result_bind {E} : MBind (result E) := λ A B f m,
  match m with Ok a => f a | Err e => Err e end.
#[global] Instance result_fmap {E} : FMap (result E) := λ A B f m,
  match m with Ok a => Ok (f a) | Err e => Err e end.

Definition is_ok {E A} (m : result E A) : bool :=
  match m with Ok _ => true | Err _ => false end.

Definition map_err {E F A} (f : E → F) (m : result E A) : result F A :=
  match m with Ok a => Ok a | Err e => Err (f e) end.

Lemma result_bind_Ok {E A B} (m : result E A) (f : A → result E B) b :
  (m ≫= f) = Ok b ↔ ∃ a, m = Ok a ∧ f a = Ok b.
Proof. destruct m; naive_solver. Qed.

Lemma map_err_Ok {E F A} (f : E → F) (m : result E A) a :
  map_err f m = Ok a ↔ m = Ok a.
Proof. destruct m; naive_solver. Qed.

(** ** Executions that can panic

    [Panic] is a Go run-time panic (a nil dereference, a slice out of range). *)

Inductive outcome (A : Type) : Type :=
  | Ret (a : A)
  | Panic.
Arguments Ret {A} _.
Arguments Panic {A}.

(** ** Early returns

    [a <|> b]: the value of [a] if it returned one, else that of [b]; a chain
    of [if x, ok := f(); ok { return x }]. [first_some] is the same in a loop. *)

Declare Scope zjump_scope.
Delimit Scope zjump_scope with zjump.
Notation "a <|> b" := (match a with Some x => Some x | None => b end)
  (at level 51, right associativity) : zjump_scope.
Open Scope zjump_scope.

Fixpoint first_some {A B} (f : A → option B) (l : list A) : option B :=
  match l with
  | [] => None
  | x :: l => f x <|> first_some f l
  end.

Lemma or_else_None {A} (a b : option A) : (a <|> b) = None ↔ a = None ∧ b = None.
Proof. destruct a; naive_solver. Qed.

Lemma or_else_is_Some {A} (a b : option A) : is_Some (a <|> b) ↔ is_Some a ∨ is_Some b.
Proof. destruct a; split; rewrite ?is_Some_alt; naive_solver. Qed.

Lemma first_some_None {A B} (f : A → option B) l :
  first_some f l = None ↔ ∀ x, x ∈ l → f x = None.
Proof.
  induction l as [|x l IH]; simpl; [set_solver|].
  rewrite or_else_None, IH. setoid_rewrite elem_of_cons. naive_solver.
Qed.

Lemma first_some_Some {A B} (f : A → option B) l y :
  first_some f l = Some y →
  ∃ l1 x l2, l = l1 ++ x :: l2 ∧ f x = Some y ∧ (∀ z, z ∈ l1 → f z = None).
Proof.
  induction l as [|x l IH]; simpl; [done|].
  destruct (f x) eqn:E.
  - intros [= ->]. exists [], x, l. set_solver.
  - intros (l1 & z & l2 & -> & Hz & Hl1)%IH. exists (x :: l1), z, l2.
    split_and!; [done..|]. intros w [->|Hw]%elem_of_cons; eauto.
Qed.

Lemma first_some_elem {A B} (f : A → option B) l x :
  x ∈ l → is_Some (f x) → is_Some (first_some f l).
Proof.
  intros Hx Hf. destruct (first_some f l) eqn:E; [done|].
  rewrite first_some_None in E. rewrite (E x Hx) in Hf. by destruct Hf.
Qed.

(** ** Tactics *)

(** Case analysis on the innermost scrutinee of the goal or of a hypothesis,
    keeping the equation; used to follow the branches of a handler. *)
Ltac split_match :=
  match goal with
  | |- context [match ?x with _ => _ end] =>
      lazymatch x with
      | context [match _ with _ => _ end] => fail
      | _ => let H := fresh "Hm" in destruct x eqn:H
      end
  | _ : context [match ?x with _ => _ end] |- _ =>
      lazymatch x with
      | context [match _ with _ => _ end] => fail
      | _ => let H := fresh "Hm" in destruct x eqn:H
      end
  end.

Ltac split_matches := repeat (split_match; simplify_eq/=).

(** Turn the boolean tests of the code into propositions. *)
Ltac prop_bools :=
  repeat match goal with
  | H : andb _ _ = true |- _ => apply andb_prop in H as [? ?]
  | H : orb _ _ = false |- _ => apply orb_false_elim in H as [? ?]
  | H : negb _ = true |- _ => apply negb_true_iff in H
  | H : negb _ = false |- _ => apply negb_false_iff in H
  | H : bool_decide _ = true |- _ => apply bool_decide_eq_true in H
  | H : bool_decide _ = false |- _ => apply bool_decide_eq_false in H
  | H : Z.leb _ _ = true |- _ => apply Z.leb_le in H
  | H : Z.leb _ _ = false |- _ => apply Z.leb_gt in H
  | H : Z.ltb _ _ = true |- _ => apply Z.ltb_lt in H
  | H : Z.ltb _ _ = false |- _ => apply Z.ltb_ge in H
  | H : Z.eqb _ _ = true |- _ => apply Z.eqb_eq in H
  | H : Z.eqb _ _ = false |- _ => apply Z.eqb_neq in H
  end.

(** ** Lists *)

Section list_lemmas.
Context {A : Type}.
Implicit Types (l k : list A) (f g : A → bool).

(** Boolean filtering, [List.filter], written [keep] so that it does not
    clash with stdpp's [filter]. *)
Fixpoint keep f l : list A :=
  match l with
  | [] => []
  | x :: l => if f x then x :: keep f l else keep f l
  end.

(** The longest prefix on which [f] holds, and what follows it. *)
Fixpoint drop_while f l : list A :=
  match l with
  | [] => []
  | x :: l' => if f x then drop_while f l' else l
  end.

Fixpoint take_while f l : list A :=
  match l with
  | [] => []
  | x :: l' => if f x then x :: take_while f l' else []
  end.

Lemma keep_app f l k : keep f (l ++ k) = keep f l ++ keep f k.
Proof. induction l as [|x l IH]; simpl; [done|]. destruct (f x); simpl; by rewrite IH. Qed.

Lemma elem_of_keep f l x : x ∈ keep f l ↔ x ∈ l ∧ f x = true.
Proof.
  induction l as [|y l IH]; simpl; [set_solver|].
  destruct (f y) eqn:Hy; rewrite ?elem_of_cons, IH; naive_solver congruence.
Qed.

Lemma keep_ext f g l : (∀ x, f x = g x) → keep f l = keep g l.
Proof. intros Hfg. induction l as [|x l IH]; [done|]. simpl. by rewrite Hfg, IH. Qed.

Lemma keep_id f l : Forall (λ x, f x = true) l → keep f l = l.
Proof. induction 1 as [|x l Hx _ IH]; simpl; [done|]. by rewrite Hx, IH. Qed.

Lemma keep_Forall f l : Forall (λ x, f x = true) (keep f l).
Proof. apply Forall_forall. intros x Hx. by apply elem_of_keep in Hx as [_ ?]. Qed.

Lemma length_keep f l : length (keep f l) ≤ length l.
Proof. induction l as [|x l IH]; simpl; [done|]. destruct (f x); simpl; lia. Qed.

Lemma drop_while_suffix f l : ∃ k, l = k ++ drop_while f l ∧ Forall (λ x, f x = true) k.
Proof.
  induction l as [|x l (k & Hk & HF)]; simpl; [by exists []|].
  destruct (f x) eqn:Hx; [|by exists []].
  exists (x :: k). simpl. split; [congruence|by constructor].
Qed.

Lemma drop_while_head f l x k : drop_while f l = x :: k → f x = false.
Proof. induction l as [|y l IH]; simpl; [done|]. destruct (f y) eqn:?; naive_solver. Qed.

Lemma drop_while_length f l : length (drop_while f l) ≤ length l.
Proof. induction l as [|x l IH]; simpl; [done|]. destruct (f x); simpl; lia. Qed.

Lemma drop_while_all f l : Forall (λ x, f x = true) l → drop_while f l = [].
Proof. induction 1 as [|x l Hx _ IH]; simpl; [done|]. by rewrite Hx. Qed.

Lemma drop_while_none f l :
  (∀ x, head l = Some x → f x = false) → drop_while f l = l.
Proof. destruct l as [|x l]; simpl; [done|]. intros H. by rewrite (H x). Qed.

Lemma drop_while_app f l k :
  Forall (λ x, f x = true) l → drop_while f (l ++ k) = drop_while f k.
Proof. induction 1 as [|x l Hx _ IH]; simpl; [done|]. by rewrite Hx. Qed.

Lemma drop_while_nil_Forall f l : drop_while f l = [] → Forall (λ x, f x = true) l.
Proof. induction l as [|x l IH]; simpl; [done|]. destruct (f x) eqn:?; [|done]. auto. Qed.
End list_lemmas.

Lemma existsb_elem {A} (p : A → bool) l : existsb p l = true ↔ ∃ x, x ∈ l ∧ p x = true.
Proof. rewrite existsb_exists. by setoid_rewrite <- list_elem_of_In. Qed.

Lemma existsb_none {A} (p : A → bool) l : existsb p l = false ↔ ∀ x, x ∈ l → p x = false.
Proof.
  split.
  - intros H x Hx. destruct (p x) eqn:E; [|done]. rewrite <- H. symmetry. apply existsb_elem. eauto.
  - intros H. apply not_true_iff_false. intros (x & Hx & E)%existsb_elem. by rewrite H in E.
Qed.

Lemma keep_none {A} (p : A → bool) l : (∀ y, y ∈ l → p y = false) → keep p l = [].
Proof.
  induction l as [|x l IH]; intros Hl; [done|]. simpl. rewrite (Hl x) by left.
  apply IH. intros y Hy. apply Hl. by right.
Qed.

Lemma keep_last {A} (p : A → bool) l x : (∀ y, y ∈ l → p y = false) → p x = true →
  keep p (l ++ [x]) = [x].
Proof. intros Hl Hx. rewrite keep_app, keep_none by done. simpl. by rewrite Hx. Qed.

(** A row found by [keep] is one of the list that passes the test. *)
Lemma keep_head {A} (p : A → bool) l x k : keep p l = x :: k → x ∈ l ∧ p x = true.
Proof. intros E. apply elem_of_keep. rewrite E. left. Qed.

Lemma NoDup_keep {A B} (key : A → B) p l : NoDup (key <$> l) → NoDup (key <$> keep p l).
Proof.
  intros HN. induction l as [|x l IH]; [constructor|]. simpl. apply NoDup_cons in HN as [Hx HN].
  destruct (p x); [|by apply IH]. apply NoDup_cons. split; [|by apply IH].
  intros (y & E & [Hin _]%elem_of_keep)%list_elem_of_fmap. apply Hx, list_elem_of_fmap. eauto.
Qed.

Create HintDb zjump.
#[export] Hint Resolve keep_Forall length_keep drop_while_length : zjump.
