(* ===== verification/GoStrings.v ===== *)
(** * Go strings, runes and the functions of package [strings]

    The text-processing code of the bastion (command parser, blacklist, menu)
    works on runes: [[]rune(s)], [for _, ch := range s], [regexp], [strings].
    A text is the list of its runes, a rune the [Z] of its code point; the
    byte view ([len(s)], [s[:10]]) is recovered with [utf8_encode].  The
    Unicode tables above ASCII are an interface, [Unicode]: every theorem holds
    for every table that satisfies the laws of [UnicodeLaws]. *)

From stdpp Require Import base list strings sets gmap.
From Stdlib Require Import ZArith Lia Ascii.
From S2P Require Import Prelude.
Local Open Scope Z_scope.

Notation rune := Z (only parsing).
Notation text := (list Z) (only parsing).
Notation bytes := (list Z) (only parsing).

(** ** UTF-8, as [utf8.DecodeRune] and [utf8.EncodeRune] *)

Definition rune_error : rune := 65533.

Definition rune_valid (r : rune) : bool :=
  (0 <=? r) && (r <? 55296) || (57344 <=? r) && (r <=? 1114111).

Definition encode_rune (r : rune) : bytes :=
  let r := if rune_valid r then r else rune_error in
  if r <? 128 then [r]
  else if r <? 2048 then [192 + r / 64; 128 + r mod 64]
  else if r <? 65536 then [224 + r / 4096; 128 + (r / 64) mod 64; 128 + r mod 64]
  else [240 + r / 262144; 128 + (r / 4096) mod 64; 128 + (r / 64) mod 64; 128 + r mod 64].

Definition utf8_encode (s : text) : bytes := mjoin (encode_rune <$> s).

Definition in_range (lo hi b : Z) : bool := (lo <=? b) && (b <=? hi).
Definition is_cont (b : Z) : bool := in_range 128 191 b.

(** Ranges of the second byte, by first byte: they exclude overlong forms,
    surrogates and code points above U+10FFFF. *)
Definition second_lo (b0 : Z) : Z := if b0 =? 224 then 160 else if b0 =? 240 then 144 else 128.
Definition second_hi (b0 : Z) : Z := if b0 =? 237 then 159 else if b0 =? 244 then 143 else 191.

(** [[]rune(string(bs))]: an invalid byte yields U+FFFD and is skipped alone. *)
Fixpoint utf8_decode (bs : bytes) : text :=
  match bs with
  | [] => []
  | b0 :: t0 =>
      let bad _ := rune_error :: utf8_decode t0 in
      if b0 <? 128 then b0 :: utf8_decode t0
      else if in_range 194 223 b0 then
        match t0 with
        | b1 :: t1 =>
            if is_cont b1 then ((b0 - 192) * 64 + (b1 - 128)) :: utf8_decode t1 else bad tt
        | _ => bad tt
        end
      else if in_range 224 239 b0 then
        match t0 with
        | b1 :: b2 :: t2 =>
            if in_range (second_lo b0) (second_hi b0) b1 && is_cont b2
            then ((b0 - 224) * 4096 + (b1 - 128) * 64 + (b2 - 128)) :: utf8_decode t2
            else bad tt
        | _ => bad tt
        end
      else if in_range 240 244 b0 then
        match t0 with
        | b1 :: b2 :: b3 :: t3 =>
            if in_range (second_lo b0) (second_hi b0) b1 && is_cont b2 && is_cont b3
            then ((b0 - 240) * 262144 + (b1 - 128) * 4096 + (b2 - 128) * 64 + (b3 - 128))
                   :: utf8_decode t3
            else bad tt
        | _ => bad tt
        end
      else bad tt
  end.

(** String literals: the runes of a Go literal. *)
Fixpoint bytes_of_string (s : string) : bytes :=
  match s with
  | EmptyString => []
  | String c s => Z.of_nat (nat_of_ascii c) :: bytes_of_string s
  end.

Definition txt (s : string) : text := utf8_decode (bytes_of_string s).

(** A literal with carets for its double quotes. *)
Definition quoted (s : string) : text := (λ c, if c =? 94 then 34 else c) <$> txt s.

(** [len(s)]. *)
Definition blen (s : text) : Z := Z.of_nat (length (utf8_encode s)).

(** ** Unicode tables *)

(** What package [unicode] says of the runes above U+007F. *)
Class Unicode := {
  lower_hi : rune → rune;      (* unicode.ToLower *)
  print_hi : rune → bool;      (* unicode.IsPrint *)
  fold_hi : rune → rune → bool (* same orbit of unicode.SimpleFold *)
}.

(** [unicode.IsSpace]. *)
Definition is_space (r : rune) : bool :=
  in_range 9 13 r || (r =? 32) || (r =? 133) || (r =? 160) || (r =? 5760)
  || in_range 8192 8202 r || (r =? 8232) || (r =? 8233) || (r =? 8239)
  || (r =? 8287) || (r =? 12288).

Definition is_upper_ascii (r : rune) : bool := in_range 65 90 r.
Definition is_lower_ascii (r : rune) : bool := in_range 97 122 r.
Definition is_digit (r : rune) : bool := in_range 48 57 r.

Definition lower_ascii (r : rune) : rune := if is_upper_ascii r then r + 32 else r.

Definition to_lower_rune `{Unicode} (r : rune) : rune :=
  if r <? 128 then lower_ascii r else lower_hi r.

Definition to_lower `{Unicode} (s : text) : text := to_lower_rune <$> s.

Definition is_print `{Unicode} (r : rune) : bool :=
  if r <? 128 then in_range 32 126 r else print_hi r.

(** The laws of the tables the theorems use. *)
Class UnicodeLaws `(U : Unicode) : Prop := {
  lower_hi_idemp r : 128 <= r → to_lower_rune (lower_hi r) = lower_hi r;
  lower_hi_space r : 128 <= r → is_space (lower_hi r) = is_space r
}.

(** The tables of a text that has no letter case above ASCII. *)
#[export] Instance plain_unicode : Unicode :=
  {| lower_hi r := r; print_hi r := negb (is_space r); fold_hi _ _ := false |}.

#[export] Instance plain_unicode_laws : UnicodeLaws plain_unicode.
Proof.
  split; [|done]. intros r Hr. unfold to_lower_rune. simpl.
  destruct (Z.ltb_spec r 128); [lia|done].
Qed.

(** ** Package [strings] *)

Fixpoint strip_prefix (s p : text) {struct p} : option text :=
  match p, s with
  | [], _ => Some s
  | x :: p, y :: s => if x =? y then strip_prefix s p else None
  | _ :: _, [] => None
  end.

(** [strings.HasPrefix] and [strings.HasSuffix]. *)
Definition has_prefix (s p : text) : bool :=
  match strip_prefix s p with Some _ => true | None => false end.

Definition has_suffix (s p : text) : bool := has_prefix (rev s) (rev p).

(** [strings.Index] and [strings.LastIndex], in runes. *)
Fixpoint index (s sub : text) : option nat :=
  if has_prefix s sub then Some 0%nat
  else match s with
       | [] => None
       | _ :: s => S <$> index s sub
       end.

Fixpoint last_index (s sub : text) : option nat :=
  match (match s with [] => None | _ :: s => S <$> last_index s sub end) with
  | Some i => Some i
  | None => if has_prefix s sub then Some 0%nat else None
  end.

Definition contains (s sub : text) : bool :=
  match index s sub with Some _ => true | None => false end.

(** [strings.Contains] and [strings.Count] for a one-rune string. *)
Definition contains_rune (r : rune) (s : text) : bool := existsb (Z.eqb r) s.
Definition count_rune (r : rune) (s : text) : Z := Z.of_nat (length (keep (Z.eqb r) s)).

(** [strings.ReplaceAll(s, r, "")]. *)
Definition remove_rune (r : rune) (s : text) : text := keep (λ x, negb (x =? r)) s.

(** [strings.Split(s, sep)] for a one-rune separator. *)
Fixpoint split_on (sep : rune) (s : text) : list text :=
  match s with
  | [] => [[]]
  | r :: s =>
      if r =? sep then [] :: split_on sep s
      else match split_on sep s with
           | w :: ws => (r :: w) :: ws
           | [] => [[r]]
           end
  end.

(** [strings.TrimLeftFunc], [strings.TrimSpace], [strings.TrimLeft]. *)
Definition trim_right_func (f : rune → bool) (s : text) : text := rev (drop_while f (rev s)).
Definition trim_space (s : text) : text := trim_right_func is_space (drop_while is_space s).
Definition trim_left (cutset s : text) : text :=
  drop_while (λ r, contains_rune r cutset) s.

(** [strings.Fields]. *)
Fixpoint fields (s : text) : list text :=
  match s with
  | [] => []
  | r :: s' =>
      if is_space r then fields s'
      else match s' with
           | [] => [[r]]
           | r' :: _ =>
               if is_space r' then [r] :: fields s'
               else match fields s' with
                    | w :: ws => (r :: w) :: ws
                    | [] => [[r]]
                    end
           end
  end.

(** [strings.EqualFold]. *)
Definition fold_eq `{Unicode} (a b : rune) : bool :=
  (a =? b) || (if (a <? 128) && (b <? 128) then lower_ascii a =? lower_ascii b
               else fold_hi a b).

Fixpoint equal_fold `{Unicode} (s t : text) : bool :=
  match s, t with
  | [], [] => true
  | a :: s, b :: t => fold_eq a b && equal_fold s t
  | _, _ => false
  end.

(** [s == t]. *)
Definition text_eqb (s t : text) : bool := bool_decide (s = t).

Definition is_empty {A} (s : list A) : bool := match s with [] => true | _ => false end.

(** ** Numbers *)

(** The digits of [strconv.Atoi], most significant first. *)
Fixpoint digits_value (acc : Z) (s : text) : option Z :=
  match s with
  | [] => Some acc
  | r :: s => if is_digit r then digits_value (10 * acc + (r - 48)) s else None
  end.

Definition int64_ok (z : Z) : bool := (-9223372036854775808 <=? z) && (z <=? 9223372036854775807).

(** [strconv.Atoi]: an optional sign and digits, within 64 bits. *)
Definition atoi (s : text) : option Z :=
  let '(neg, ds) := match s with
                    | 45 :: ds => (true, ds)
                    | 43 :: ds => (false, ds)
                    | _ => (false, s)
                    end in
  if is_empty ds then None
  else z ← digits_value 0 ds;
       let z := if neg : bool then - z else z in
       if int64_ok z then Some z else None.

(** A machine integer of 64 bits. *)
Definition wrap64 (z : Z) : Z := (z + 2 ^ 63) mod 2 ^ 64 - 2 ^ 63.

(** ** Lemmas: equality of texts *)

Lemma text_eqb_true s t : text_eqb s t = true ↔ s = t.
Proof. apply bool_decide_eq_true. Qed.
Lemma text_eqb_false a b : a ≠ b → text_eqb a b = false.
Proof. apply bool_decide_eq_false_2. Qed.

Lemma text_eqb_refl s : text_eqb s s = true.
Proof. by apply text_eqb_true. Qed.

(** The only row with a key. *)
Lemma keep_key_other {A} (key : A → text) k l :
  k ∉ key <$> l → keep (λ x, text_eqb (key x) k) l = [].
Proof.
  intros Hk. destruct (keep _ l) as [|y r] eqn:E; [done|]. destruct Hk.
  apply keep_head in E as [Hy He%text_eqb_true]. apply list_elem_of_fmap. eauto.
Qed.

Lemma keep_key {A} (key : A → text) k l x :
  NoDup (key <$> l) → x ∈ l → key x = k → keep (λ x, text_eqb (key x) k) l = [x].
Proof.
  intros HN Hx <-. induction l as [|y l IH]; [by apply not_elem_of_nil in Hx|].
  apply NoDup_cons in HN as [Hy HN]. simpl. apply elem_of_cons in Hx as [->|Hx].
  - rewrite text_eqb_refl. by rewrite keep_key_other.
  - destruct (text_eqb (key y) (key x)) eqn:E; [|by apply IH].
    apply text_eqb_true in E. destruct Hy. rewrite E. by apply list_elem_of_fmap_2.
Qed.

(** ** Lemmas: UTF-8 *)

Lemma rune_error_valid : rune_valid rune_error = true.
Proof. reflexivity. Qed.

Lemma rune_valid_spec r :
  rune_valid r = true ↔ (0 <= r < 55296 ∨ 57344 <= r <= 1114111).
Proof.
  unfold rune_valid.
  rewrite orb_true_iff, !andb_true_iff, !Z.leb_le, Z.ltb_lt. lia.
Qed.

Lemma in_range_spec lo hi b : in_range lo hi b = true ↔ lo <= b <= hi.
Proof. unfold in_range. rewrite andb_true_iff, !Z.leb_le. lia. Qed.

Lemma in_range_true lo hi b : lo <= b <= hi → in_range lo hi b = true.
Proof. apply in_range_spec. Qed.

Lemma in_range_false lo hi b : b < lo ∨ hi < b → in_range lo hi b = false.
Proof.
  intros H. destruct (in_range lo hi b) eqn:E; [|done].
  apply in_range_spec in E. lia.
Qed.

Lemma div_split r m : 0 < m → r = m * (r / m) + r mod m ∧ 0 <= r mod m < m.
Proof. intros. split; [apply Z.div_mod; lia|apply Z.mod_pos_bound; lia]. Qed.

Ltac decide_ranges :=
  repeat first
    [ rewrite in_range_true by lia
    | rewrite in_range_false by lia
    | match goal with
      | |- context [?a <? ?b] => first
          [ rewrite (proj2 (Z.ltb_lt a b)) by lia
          | rewrite (proj2 (Z.ltb_ge a b)) by lia ]
      | |- context [?a =? ?b] => first
          [ rewrite (proj2 (Z.eqb_eq a b)) by lia
          | rewrite (proj2 (Z.eqb_neq a b)) by lia ]
      end ];
  cbn [andb orb negb].

Lemma decode_encode_rune_2 r bs :
  128 <= r < 2048 → utf8_decode ([192 + r / 64; 128 + r mod 64] ++ bs) = r :: utf8_decode bs.
Proof.
  intros Hr. destruct (div_split r 64) as [Hd Hm]; [lia|].
  cbn [app utf8_decode]. unfold is_cont. decide_ranges. f_equal. lia.
Qed.

Lemma decode_encode_rune_3 r bs :
  2048 <= r < 65536 → ¬ (55296 <= r < 57344) →
  utf8_decode ([224 + r / 4096; 128 + (r / 64) mod 64; 128 + r mod 64] ++ bs)
  = r :: utf8_decode bs.
Proof.
  intros Hr Hs. destruct (div_split r 64) as [Hd Hm]; [lia|].
  destruct (div_split (r / 64) 64) as [Hd2 Hm2]; [lia|].
  assert (r / 4096 = r / 64 / 64) as Hq by (rewrite Z.div_div; [done|lia|lia]).
  rewrite Hq. set (q := r / 64 / 64) in *. set (m := (r / 64) mod 64) in *.
  cbn [app utf8_decode]. unfold is_cont.
  assert (second_lo (224 + q) <= 128 + m <= second_hi (224 + q)) as Hsec.
  { unfold second_lo, second_hi.
    destruct (Z.eqb_spec (224 + q) 224); [|destruct (Z.eqb_spec (224 + q) 240); [lia|]];
    destruct (Z.eqb_spec (224 + q) 237); try lia;
    destruct (Z.eqb_spec (224 + q) 244); lia. }
  decide_ranges. f_equal. lia.
Qed.

Lemma decode_encode_rune_4 r bs :
  65536 <= r <= 1114111 →
  utf8_decode ([240 + r / 262144; 128 + (r / 4096) mod 64; 128 + (r / 64) mod 64;
                128 + r mod 64] ++ bs) = r :: utf8_decode bs.
Proof.
  intros Hr. destruct (div_split r 64) as [Hd Hm]; [lia|].
  destruct (div_split (r / 64) 64) as [Hd2 Hm2]; [lia|].
  destruct (div_split (r / 64 / 64) 64) as [Hd3 Hm3]; [lia|].
  assert (r / 4096 = r / 64 / 64) as Hq by (rewrite Z.div_div; [done|lia|lia]).
  assert (r / 262144 = r / 64 / 64 / 64) as Hq2 by (rewrite !Z.div_div; [done|lia..]).
  rewrite Hq, Hq2. set (q := r / 64 / 64 / 64) in *. set (m := (r / 64 / 64) mod 64) in *.
  cbn [app utf8_decode]. unfold is_cont.
  assert (second_lo (240 + q) <= 128 + m <= second_hi (240 + q)) as Hsec.
  { unfold second_lo, second_hi.
    destruct (Z.eqb_spec (240 + q) 224); [lia|];
    destruct (Z.eqb_spec (240 + q) 240); destruct (Z.eqb_spec (240 + q) 237); try lia;
    destruct (Z.eqb_spec (240 + q) 244); lia. }
  decide_ranges. f_equal. lia.
Qed.

Lemma decode_encode_rune r bs :
  utf8_decode (encode_rune r ++ bs)
  = (if rune_valid r then r else rune_error) :: utf8_decode bs.
Proof.
  unfold encode_rune. set (r' := if rune_valid r then r else rune_error).
  assert (rune_valid r' = true) as Hv by (unfold r'; by destruct (rune_valid r) eqn:?).
  clearbody r'. apply rune_valid_spec in Hv.
  destruct (Z.ltb_spec r' 128); [cbn [app utf8_decode]; by decide_ranges|].
  destruct (Z.ltb_spec r' 2048); [apply decode_encode_rune_2; lia|].
  destruct (Z.ltb_spec r' 65536); [apply decode_encode_rune_3; lia|].
  apply decode_encode_rune_4; lia.
Qed.

(** [[]rune(string(rs))] replaces invalid code points and nothing else. *)
Lemma decode_encode s :
  utf8_decode (utf8_encode s) = (λ r, if rune_valid r then r else rune_error) <$> s.
Proof.
  induction s as [|r s IH]; [done|].
  unfold utf8_encode. cbn [fmap list_fmap mjoin list_join].
  rewrite decode_encode_rune. f_equal. apply IH.
Qed.

Lemma decode_encode_valid s :
  Forall (λ r, rune_valid r = true) s → utf8_decode (utf8_encode s) = s.
Proof.
  intros HF. rewrite decode_encode. induction HF as [|r s Hr _ IH]; [done|].
  cbn [fmap list_fmap]. rewrite Hr. f_equal. apply IH.
Qed.

(** Decoding ASCII is the identity, so literals denote their characters. *)
Lemma decode_ascii bs : Forall (λ b, b < 128) bs → utf8_decode bs = bs.
Proof.
  induction 1 as [|b bs Hb _ IH]; [done|].
  cbn [utf8_decode]. rewrite (proj2 (Z.ltb_lt b 128)) by lia. by rewrite IH.
Qed.

(** ** Lemmas: prefixes and substrings *)

Lemma strip_prefix_Some s p r : strip_prefix s p = Some r ↔ s = p ++ r.
Proof.
  revert s. induction p as [|x p IH]; intros s; simpl; [split; congruence|].
  destruct s as [|y s]; [done|].
  destruct (Z.eqb_spec x y) as [->|]; [rewrite IH|]; split; congruence.
Qed.

Lemma has_prefix_spec s p : has_prefix s p = true ↔ ∃ r, s = p ++ r.
Proof.
  unfold has_prefix. destruct (strip_prefix s p) as [r|] eqn:E.
  - apply strip_prefix_Some in E. naive_solver.
  - split; [done|]. intros [r Hr]. apply strip_prefix_Some in Hr. congruence.
Qed.

Lemma has_prefix_app s t p : has_prefix s p = true → has_prefix (s ++ t) p = true.
Proof.
  rewrite !has_prefix_spec. intros [r ->]. exists (r ++ t). by rewrite app_assoc.
Qed.

Lemma has_prefix_refl_app p r : has_prefix (p ++ r) p = true.
Proof. apply has_prefix_spec. eauto. Qed.

Lemma has_suffix_spec s p : has_suffix s p = true ↔ ∃ r, s = r ++ p.
Proof.
  unfold has_suffix. rewrite has_prefix_spec. split.
  - intros [r Hr]. exists (rev r). rewrite <- (rev_involutive s), Hr, rev_app_distr.
    by rewrite rev_involutive.
  - intros [r ->]. exists (rev r). apply rev_app_distr.
Qed.

Lemma index_Some s sub i :
  index s sub = Some i →
  ∃ a b, s = a ++ sub ++ b ∧ length a = i ∧
         ∀ a' b', s = a' ++ sub ++ b' → (i ≤ length a')%nat.
Proof.
  revert i. induction s as [|r s IH]; intros i; cbn [index].
  - destruct (has_prefix [] sub) eqn:E; [|done]. intros [= <-].
    apply has_prefix_spec in E as [b Hb]. exists [], b. repeat split; [done|lia].
  - destruct (has_prefix (r :: s) sub) eqn:E.
    + intros [= <-]. apply has_prefix_spec in E as [b Hb].
      exists [], b. repeat split; [done|lia].
    + destruct (index s sub) as [j|] eqn:Ej; [|done]. intros [= <-].
      destruct (IH j eq_refl) as (a & b & -> & <- & Hmin).
      exists (r :: a), b. repeat split. intros [|r' a'] b' Hs; simpl in *.
      * exfalso. assert (has_prefix (r :: a ++ sub ++ b) sub = true) as Hp; [|congruence].
        apply has_prefix_spec. eauto.
      * simplify_eq. apply Hmin in H0. lia.
Qed.

Lemma index_None s sub : index s sub = None ↔ ∀ a b, s ≠ a ++ sub ++ b.
Proof.
  split.
  - induction s as [|r s IH]; cbn [index]; intros Hi a b Hs.
    + destruct (has_prefix [] sub) eqn:E; [done|].
      destruct a; [|done]. simpl in Hs.
      assert (has_prefix [] sub = true); [apply has_prefix_spec; eauto|congruence].
    + destruct (has_prefix (r :: s) sub) eqn:E; [done|].
      destruct (index s sub) eqn:Ej; [done|].
      destruct a as [|r' a]; simpl in Hs.
      * assert (has_prefix (r :: s) sub = true); [apply has_prefix_spec; eauto|congruence].
      * simplify_eq. by eapply IH.
  - intros H. destruct (index s sub) as [i|] eqn:E; [|done].
    apply index_Some in E as (a & b & Hs & _). by destruct (H a b).
Qed.

Lemma contains_spec s sub : contains s sub = true ↔ ∃ a b, s = a ++ sub ++ b.
Proof.
  unfold contains. destruct (index s sub) as [i|] eqn:E.
  - apply index_Some in E as (a & b & ? & _). naive_solver.
  - split; [done|]. intros (a & b & ?). by eapply index_None in E.
Qed.

Lemma contains_false s sub : contains s sub = false ↔ ∀ a b, s ≠ a ++ sub ++ b.
Proof.
  rewrite <- index_None. unfold contains. destruct (index s sub); naive_solver.
Qed.

Lemma contains_app_r a s sub : contains s sub = true → contains (a ++ s) sub = true.
Proof.
  rewrite !contains_spec. intros (x & y & ->). exists (a ++ x), y. by rewrite app_assoc.
Qed.

Lemma contains_app_l s b sub : contains s sub = true → contains (s ++ b) sub = true.
Proof.
  rewrite !contains_spec. intros (x & y & ->). exists x, (y ++ b). by rewrite <- !app_assoc.
Qed.

Lemma contains_rune_spec r s : contains_rune r s = true ↔ r ∈ s.
Proof.
  unfold contains_rune. rewrite existsb_exists. split.
  - intros (x & Hx & ->%Z.eqb_eq). by apply list_elem_of_In.
  - intros Hx. exists r. rewrite Z.eqb_refl. split; [by apply list_elem_of_In|done].
Qed.

(** A substring with a rune that the text lacks does not occur. *)
Lemma not_contains_rune s sub r : r ∈ sub → r ∉ s → contains s sub = false.
Proof. intros Hr Hs. apply contains_false. intros a b ->. set_solver. Qed.

Lemma contains_singleton s r : contains s [r] = contains_rune r s.
Proof.
  apply eq_true_iff_eq. rewrite contains_spec, contains_rune_spec. split.
  - intros (a & b & ->). set_solver.
  - intros (a & b & ->)%list_elem_of_split. by exists a, b.
Qed.

Lemma index_cons_ne s r x sub : r ≠ x → index (r :: s) (x :: sub) = S <$> index s (x :: sub).
Proof.
  intros Hne. cbn [index]. unfold has_prefix. cbn [strip_prefix].
  by rewrite (proj2 (Z.eqb_neq x r)) by congruence.
Qed.

(** The first occurrence of a substring whose first rune does not occur before. *)
Lemma index_skip a s x sub :
  x ∉ a → index (a ++ s) (x :: sub) = (λ i, length a + i)%nat <$> index s (x :: sub).
Proof.
  induction a as [|r a IH]; intros Ha.
  - simpl. by destruct (index s (x :: sub)).
  - cbn [app]. rewrite index_cons_ne by set_solver. rewrite IH by set_solver.
    by destruct (index s (x :: sub)).
Qed.

Lemma index_hit s sub : index (sub ++ s) sub = Some 0%nat.
Proof.
  pose proof (has_prefix_refl_app sub s) as Hp.
  destruct (sub ++ s); cbn [index]; by rewrite Hp.
Qed.

(** ** Lemmas: [remove_rune], [split_on] *)

Lemma split_on_nonempty sep s : split_on sep s ≠ [].
Proof. destruct s as [|r s]; simpl; [done|]. repeat case_match; done. Qed.

Lemma split_on_no_sep sep s : sep ∉ s → split_on sep s = [s].
Proof.
  induction s as [|r s IH]; intros Hs; [done|]. simpl.
  rewrite (proj2 (Z.eqb_neq r sep)) by set_solver. by rewrite IH by set_solver.
Qed.

Lemma split_on_app sep a s :
  sep ∉ a → split_on sep (a ++ sep :: s) = a :: split_on sep s.
Proof.
  induction a as [|r a IH]; intros Ha; simpl; [by rewrite Z.eqb_refl|].
  rewrite (proj2 (Z.eqb_neq r sep)) by set_solver. by rewrite IH by set_solver.
Qed.

(** [strings.Join] of the pieces with the separator gives the text back. *)
Fixpoint join_with (sep : rune) (l : list text) : text :=
  match l with
  | [] => []
  | [w] => w
  | w :: ws => w ++ sep :: join_with sep ws
  end.

Lemma join_split sep s : join_with sep (split_on sep s) = s.
Proof.
  induction s as [|r s IH]; [done|]. simpl.
  destruct (Z.eqb_spec r sep) as [->|].
  - pose proof (split_on_nonempty sep s).
    destruct (split_on sep s) eqn:E; [done|]. by rewrite <- IH.
  - pose proof (split_on_nonempty sep s).
    destruct (split_on sep s) as [|w [|w' ws]] eqn:E; [done|by rewrite <- IH..].
Qed.

Lemma split_on_pieces sep s w : w ∈ split_on sep s → sep ∉ w.
Proof.
  revert w. induction s as [|r s IH]; intros w; simpl.
  { intros ->%list_elem_of_singleton. apply not_elem_of_nil. }
  destruct (Z.eqb_spec r sep) as [->|].
  - rewrite elem_of_cons. intros [->|?]; [apply not_elem_of_nil|auto].
  - destruct (split_on sep s) as [|v vs] eqn:E; [by apply split_on_nonempty in E|].
    rewrite elem_of_cons. intros [->|Hw].
    + apply not_elem_of_cons. split; [done|]. apply IH. left.
    + apply IH. by right.
Qed.

Lemma split_join sep ls : ls ≠ [] → Forall (λ w, sep ∉ w) ls →
  split_on sep (join_with sep ls) = ls.
Proof.
  intros Hne HF. induction HF as [|w ls Hw HF IH]; [done|].
  destruct ls as [|v ls]; [by apply split_on_no_sep|].
  change (join_with sep (w :: v :: ls)) with (w ++ sep :: join_with sep (v :: ls)).
  rewrite split_on_app by done. by rewrite IH.
Qed.

Lemma last_default_snoc {A} (l : list A) x d : List.last (l ++ [x]) d = x.
Proof. induction l as [|y l IH]; [done|]. simpl. rewrite IH. by destruct l. Qed.

(** Pieces that each end with the separator. *)
Lemma split_ended sep (fs : list text) : Forall (λ f, sep ∉ f) fs →
  split_on sep (mjoin ((λ f, f ++ [sep]) <$> fs)) = fs ++ [[]].
Proof.
  induction 1 as [|f fs Hf _ IH]; [done|]. cbn [fmap list_fmap mjoin list_join].
  rewrite <- app_assoc. cbn [app]. rewrite split_on_app by done. cbn [app]. f_equal. exact IH.
Qed.

(** ** Lemmas: trimming *)

Notation all_space := (Forall (λ r, is_space r = true)).
Notation no_space := (Forall (λ r, is_space r = false)).

(** A text [strings.TrimSpace] leaves alone. *)
Definition trimmed (s : text) : Prop :=
  (∀ x, head s = Some x → is_space x = false) ∧
  (∀ x, head (rev s) = Some x → is_space x = false).

(** [trimmed] as a test. *)
Definition trimmedb (s : text) : bool :=
  match head s with Some x => negb (is_space x) | None => true end &&
  match head (rev s) with Some x => negb (is_space x) | None => true end.

Lemma trimmedb_spec s : trimmedb s = true → trimmed s.
Proof.
  unfold trimmedb, trimmed. intros [H1 H2]%andb_prop. split; intros x Hx.
  - rewrite Hx in H1. by apply negb_true_iff.
  - rewrite Hx in H2. by apply negb_true_iff.
Qed.

Lemma Forall_rev_iff {A} (P : A → Prop) l : Forall P (rev l) ↔ Forall P l.
Proof.
  rewrite !Forall_forall. split; intros H x Hx; apply H;
    apply list_elem_of_In; apply list_elem_of_In in Hx; by apply in_rev in Hx || apply in_rev.
Qed.

Lemma trim_right_split f s :
  ∃ b, s = trim_right_func f s ++ b ∧ Forall (λ x, f x = true) b.
Proof.
  destruct (drop_while_suffix f (rev s)) as (k & Hk & HF).
  exists (rev k). unfold trim_right_func. split; [|by apply Forall_rev_iff].
  by rewrite <- rev_app_distr, <- Hk, rev_involutive.
Qed.

Lemma trim_space_split s :
  ∃ a b, s = a ++ trim_space s ++ b ∧ all_space a ∧ all_space b.
Proof.
  destruct (drop_while_suffix is_space s) as (a & Ha & HFa).
  destruct (trim_right_split is_space (drop_while is_space s)) as (b & Hb & HFb).
  exists a, b. unfold trim_space. by rewrite <- Hb, <- Ha.
Qed.

Lemma trim_space_trimmed s : trimmed (trim_space s).
Proof.
  split.
  - destruct (trim_right_split is_space (drop_while is_space s)) as (b & Hb & _).
    unfold trim_space. intros x Hx. destruct (trim_right_func _ _) as [|y k] eqn:E; [done|].
    simpl in *. simplify_eq. by eapply drop_while_head.
  - unfold trim_space, trim_right_func. rewrite rev_involutive. intros x Hx.
    destruct (drop_while is_space (rev (drop_while is_space s))) eqn:E; [done|].
    simpl in *. simplify_eq. by eapply drop_while_head.
Qed.

Lemma trimmed_id s : trimmed s → trim_space s = s.
Proof.
  intros [Hh Hl]. unfold trim_space, trim_right_func.
  rewrite (drop_while_none _ s), (drop_while_none _ (rev s)) by done.
  apply rev_involutive.
Qed.

Lemma trim_space_idemp s : trim_space (trim_space s) = trim_space s.
Proof. apply trimmed_id, trim_space_trimmed. Qed.

Lemma trim_space_nil : trim_space [] = [].
Proof. reflexivity. Qed.

Lemma trim_space_all a : all_space a → trim_space a = [].
Proof.
  intros Ha. unfold trim_space. by rewrite (drop_while_all _ a) by done.
Qed.

Lemma trim_right_app f s b :
  Forall (λ x, f x = true) b → trim_right_func f (s ++ b) = trim_right_func f s.
Proof.
  intros Hb. unfold trim_right_func. rewrite rev_app_distr.
  rewrite drop_while_app; [done|]. by apply Forall_rev_iff.
Qed.

Lemma trim_space_app_l a s : all_space a → trim_space (a ++ s) = trim_space s.
Proof. intros Ha. unfold trim_space. by rewrite drop_while_app. Qed.

Lemma trim_space_app_r s b : all_space b → trim_space (s ++ b) = trim_space s.
Proof.
  intros Hb. destruct (decide (all_space s)) as [Hs|Hs].
  - rewrite !trim_space_all; [done|done|]. by apply Forall_app.
  - unfold trim_space.
    enough (drop_while is_space (s ++ b) = drop_while is_space s ++ b) as ->
      by by apply trim_right_app.
    clear Hb. induction s as [|x s IH]; simpl; [by destruct Hs|].
    destruct (is_space x) eqn:Hx; [|done]. apply IH. intros HF. apply Hs. by constructor.
Qed.

Lemma trim_space_subset s x : x ∈ trim_space s → x ∈ s.
Proof.
  destruct (trim_space_split s) as (a & b & Hs & _). intros Hx. rewrite Hs. set_solver.
Qed.

Lemma trim_space_eq_nil s : trim_space s = [] ↔ all_space s.
Proof.
  split; [|apply trim_space_all]. intros H.
  destruct (trim_space_split s) as (a & b & Hs & Ha & Hb).
  rewrite Hs, H. by apply Forall_app.
Qed.

(** ** Lemmas: words *)

Lemma fields_cons_ne x s : is_space x = false → fields (x :: s) ≠ [].
Proof. intros Hx. cbn [fields]. rewrite Hx. repeat case_match; done. Qed.

Lemma fields_app_space a c b :
  is_space c = true → fields (a ++ c :: b) = fields a ++ fields b.
Proof.
  intros Hc. induction a as [|x a IH]; cbn [app]; [simpl; by rewrite Hc|].
  destruct a as [|y a]; cbn [app] in *.
  - simpl. rewrite Hc. by destruct (is_space x).
  - change (fields (x :: y :: a ++ c :: b)) with
      (if is_space x then fields (y :: a ++ c :: b)
       else if is_space y then [x] :: fields (y :: a ++ c :: b)
       else match fields (y :: a ++ c :: b) with w :: ws => (x :: w) :: ws | [] => [[x]] end).
    change (fields (x :: y :: a)) with
      (if is_space x then fields (y :: a)
       else if is_space y then [x] :: fields (y :: a)
       else match fields (y :: a) with w :: ws => (x :: w) :: ws | [] => [[x]] end).
    rewrite IH. destruct (is_space x); [done|]. destruct (is_space y) eqn:Hy; [done|].
    pose proof (fields_cons_ne y a Hy). by destruct (fields (y :: a)).
Qed.

Lemma fields_word w : w ≠ [] → no_space w → fields w = [w].
Proof.
  intros Hne HF. induction HF as [|x w Hx HF IH]; [done|]. cbn [fields]. rewrite Hx.
  destruct HF as [|y w Hy HF]; [done|]. rewrite Hy, IH by done. done.
Qed.

Lemma split_word s : ∃ w r, s = w ++ r ∧ no_space w ∧
  (r = [] ∨ ∃ c b, r = c :: b ∧ is_space c = true).
Proof.
  induction s as [|x s (w & r & -> & HF & Hr)]; [exists [], []; naive_solver|].
  destruct (is_space x) eqn:Hx.
  - exists [], (x :: w ++ r). naive_solver.
  - exists (x :: w), r. naive_solver.
Qed.

(** [strings.Fields] returns the maximal runs of non-space runes. *)
Lemma elem_of_fields s w :
  w ∈ fields s ↔ ∃ a b, s = a ++ w ++ b ∧ w ≠ [] ∧ no_space w ∧
    (a = [] ∨ ∃ a' c, a = a' ++ [c] ∧ is_space c = true) ∧
    (b = [] ∨ ∃ c b', b = c :: b' ∧ is_space c = true).
Proof.
  split.
  - remember (length s) as n eqn:Hn. revert s Hn.
    induction (lt_wf n) as [n _ IH]. intros s -> Hw.
    destruct (split_word s) as (v & r & -> & HF & [->|(c & b & -> & Hc)]).
    + rewrite app_nil_r in Hw. destruct v as [|x v]; [by apply not_elem_of_nil in Hw|].
      rewrite fields_word in Hw by done. apply list_elem_of_singleton in Hw as ->.
      exists [], []. naive_solver.
    + rewrite fields_app_space in Hw by done. apply elem_of_app in Hw as [Hw|Hw].
      * destruct v as [|x v]; [by apply not_elem_of_nil in Hw|].
        rewrite fields_word in Hw by done. apply list_elem_of_singleton in Hw as ->.
        exists [], (c :: b). naive_solver.
      * edestruct IH as (a & b' & Hb & Hne & Hns & Ha & Hb'); [|done|exact Hw|].
        { rewrite length_app. simpl. lia. }
        exists (v ++ c :: a), b'. rewrite Hb, <- app_assoc. repeat split; try done.
        right. destruct Ha as [->|(a' & c' & -> & ?)]; [by exists v, c|].
        exists (v ++ c :: a'), c'. by rewrite <- app_assoc.
  - intros (a & b & -> & Hne & HF & Ha & Hb).
    assert (fields (w ++ b) = w :: fields b) as Hwb.
    { destruct Hb as [->|(c & b' & -> & Hc)].
      - rewrite app_nil_r. by apply fields_word.
      - rewrite fields_app_space, fields_word by done. simpl. by rewrite Hc. }
    destruct Ha as [->|(a' & c & -> & Hc)].
    + cbn [app]. rewrite Hwb. left.
    + rewrite <- app_assoc. cbn [app]. rewrite fields_app_space, Hwb by done.
      apply elem_of_app. right. left.
Qed.

Lemma fields_word_nonempty s w : w ∈ fields s → w ≠ [] ∧ no_space w.
Proof. intros (a & b & _ & ? & ? & _)%elem_of_fields. done. Qed.

(** Deleting non-space runes that a word does not contain keeps the word. *)
Lemma fields_keep f s w :
  (∀ r, is_space r = true → f r = true) →
  Forall (λ r, f r = true) w → w ∈ fields s → w ∈ fields (keep f s).
Proof.
  intros Hf Hw (a & b & -> & Hne & HF & Ha & Hb)%elem_of_fields.
  apply elem_of_fields. exists (keep f a), (keep f b).
  rewrite !keep_app, (keep_id f w) by done. repeat split; try done.
  - destruct Ha as [->|(a' & c & -> & Hc)]; [by left|]. right.
    exists (keep f a'), c. rewrite keep_app. simpl. by rewrite (Hf c).
  - destruct Hb as [->|(c & b' & -> & Hc)]; [by left|]. right.
    exists c, (keep f b'). simpl. by rewrite (Hf c).
Qed.

(** ** Lemmas: letter case *)

Section letter_case.
Context `{UL : UnicodeLaws}.

Lemma is_upper_spec r : is_upper_ascii r = true ↔ 65 <= r <= 90.
Proof. apply in_range_spec. Qed.

Lemma lower_ascii_idemp r : lower_ascii (lower_ascii r) = lower_ascii r.
Proof.
  unfold lower_ascii at 2 3. destruct (is_upper_ascii r) eqn:E.
  - apply is_upper_spec in E. unfold lower_ascii, is_upper_ascii.
    by rewrite in_range_false by lia.
  - unfold lower_ascii. by rewrite E.
Qed.

Lemma lower_ascii_lt r : r < 128 → lower_ascii r < 128.
Proof.
  intros Hr. unfold lower_ascii. destruct (is_upper_ascii r) eqn:E; [|done].
  apply is_upper_spec in E. lia.
Qed.

Lemma to_lower_rune_idemp r : to_lower_rune (to_lower_rune r) = to_lower_rune r.
Proof.
  unfold to_lower_rune at 2 3. destruct (Z.ltb_spec r 128) as [Hr|Hr].
  - unfold to_lower_rune. rewrite (proj2 (Z.ltb_lt _ _)) by by apply lower_ascii_lt.
    apply lower_ascii_idemp.
  - by apply lower_hi_idemp.
Qed.

Lemma to_lower_idemp s : to_lower (to_lower s) = to_lower s.
Proof.
  unfold to_lower. rewrite <- list_fmap_compose. apply list_fmap_ext.
  intros _ r _. apply to_lower_rune_idemp.
Qed.

Lemma lower_ascii_space r : is_space (lower_ascii r) = is_space r.
Proof.
  unfold lower_ascii. destruct (is_upper_ascii r) eqn:E; [|done].
  apply is_upper_spec in E. unfold is_space. by decide_ranges.
Qed.

Lemma to_lower_rune_space r : is_space (to_lower_rune r) = is_space r.
Proof.
  unfold to_lower_rune. destruct (Z.ltb_spec r 128);
    [apply lower_ascii_space|by apply lower_hi_space].
Qed.

Lemma fields_to_lower s : fields (to_lower s) = to_lower <$> fields s.
Proof.
  induction s as [|r s IH]; [done|]. destruct s as [|r' s].
  - unfold to_lower. cbn [fmap list_fmap fields]. rewrite to_lower_rune_space.
    by destruct (is_space r).
  - change (to_lower (r :: r' :: s)) with (to_lower_rune r :: to_lower_rune r' :: to_lower s).
    change (to_lower (r' :: s)) with (to_lower_rune r' :: to_lower s) in IH.
    remember (to_lower_rune r' :: to_lower s) as t eqn:Ht.
    remember (r' :: s) as u eqn:Hu. cbn [fields]. rewrite IH, to_lower_rune_space.
    destruct (is_space r); [done|]. rewrite Ht, Hu, to_lower_rune_space.
    destruct (is_space r'); [done|]. by destruct (fields (r' :: s)).
Qed.

Lemma to_lower_app s t : to_lower (s ++ t) = to_lower s ++ to_lower t.
Proof. apply fmap_app. Qed.

Lemma all_space_to_lower s : all_space (to_lower s) ↔ all_space s.
Proof.
  unfold to_lower. rewrite Forall_fmap. apply Forall_iff. intros r. simpl.
  by rewrite to_lower_rune_space.
Qed.

Lemma drop_while_to_lower s :
  drop_while is_space (to_lower s) = to_lower (drop_while is_space s).
Proof.
  induction s as [|r s IH]; [done|]. cbn [to_lower fmap list_fmap drop_while] in *.
  rewrite to_lower_rune_space. by destruct (is_space r).
Qed.

Lemma rev_to_lower s : rev (to_lower s) = to_lower (rev s).
Proof. unfold to_lower. symmetry. apply map_rev. Qed.

Lemma trim_space_to_lower s : trim_space (to_lower s) = to_lower (trim_space s).
Proof.
  unfold trim_space, trim_right_func.
  by rewrite drop_while_to_lower, rev_to_lower, drop_while_to_lower, rev_to_lower.
Qed.

(** A text of lower-case ASCII letters is its own lower case. *)
Definition lower_word (s : text) : bool := forallb is_lower_ascii s.

Lemma lower_word_to_lower s : lower_word s = true → to_lower s = s.
Proof.
  unfold lower_word. induction s as [|r s IH]; simpl; [done|].
  intros [Hr Hs]%andb_prop. cbn [to_lower fmap list_fmap]. f_equal; [|by apply IH].
  apply in_range_spec in Hr. unfold to_lower_rune, lower_ascii, is_upper_ascii.
  rewrite (proj2 (Z.ltb_lt _ _)) by lia. by rewrite in_range_false by lia.
Qed.

Lemma equal_fold_refl s : equal_fold s s = true.
Proof. induction s as [|r s IH]; simpl; [done|]. unfold fold_eq. by rewrite Z.eqb_refl. Qed.
End letter_case.

#[export] Hint Resolve trim_space_trimmed keep_Forall : zjump.

Example txt_ascii : txt "rm -rf /" = [114; 109; 32; 45; 114; 102; 32; 47].
Proof. reflexivity. Qed.

Example txt_utf8 : txt "é漢" = [233; 28450].
Proof. reflexivity. Qed.

Example fields_ex : fields (txt "  ls   -la ") = [txt "ls"; txt "-la"].
Proof. reflexivity. Qed.

Example trim_ex : trim_space (txt "  ls -la ") = txt "ls -la".
Proof. reflexivity. Qed.
