(* ===== verification/GoRegexp.v ===== *)
(** * Package [regexp]

    The regular expressions of the bastion, in three layers: the syntax tree
    [re] with its declarative semantics [mt] (which texts a pattern matches, in
    which context), the leftmost-first backtracking matcher [bt] (the match
    [regexp] documents: the one a Perl-style search finds first) with its
    soundness and completeness for [mt], and [compile], which reads the
    patterns exactly as the sources write them.  [MatchString], [FindAll...],
    [ReplaceAllString] and [Split] are built on [bt]. *)

From stdpp Require Import base list strings sets gmap.
From Stdlib Require Import ZArith Lia Ascii.
From S2P Require Import Prelude GoStrings.
Local Open Scope Z_scope.

(** ** Syntax *)

Inductive re : Type :=
  | Eps
  | Cls (neg : bool) (ranges : list (Z * Z))  (* one rune of a class *)
  | Cat (a b : re)
  | Alt (a b : re)                            (* the left branch first *)
  | Star (greedy : bool) (a : re)
  | Grp (a : re)                              (* capturing group *)
  | Bot                                       (* ^ *)
  | Eot                                       (* $ *)
  | Wb.                                       (* \b *)

Definition cls_match (neg : bool) (ranges : list (Z * Z)) (x : rune) : bool :=
  xorb neg (existsb (λ p, in_range p.1 p.2 x) ranges).

Definition Lit (x : rune) : re := Cls false [(x, x)].
Definition AnyNotNL : re := Cls true [(10, 10)].

Definition Opt (greedy : bool) (a : re) : re := if greedy then Alt a Eps else Alt Eps a.
Definition Plus (greedy : bool) (a : re) : re := Cat a (Star greedy a).

Fixpoint Rep (n : nat) (a : re) : re :=
  match n with O => Eps | S n => Cat a (Rep n a) end.

Definition RepFrom (n : nat) (greedy : bool) (a : re) : re := Cat (Rep n a) (Star greedy a).

Definition is_word_rune (r : rune) : bool :=
  is_digit r || is_upper_ascii r || is_lower_ascii r || (r =? 95).

Definition word_at (o : option rune) : bool :=
  match o with Some r => is_word_rune r | None => false end.

(** ** Declarative semantics

    A position is the rune before it (none at the start of the text) and the
    text after it. *)

Notation pos := (option Z * list Z)%type.

Inductive mt : re → pos → pos → Prop :=
  | mt_eps q : mt Eps q q
  | mt_cls neg rs p x s :
      cls_match neg rs x = true → mt (Cls neg rs) (p, x :: s) (Some x, s)
  | mt_cat a b q1 q2 q3 : mt a q1 q2 → mt b q2 q3 → mt (Cat a b) q1 q3
  | mt_alt_l a b q1 q2 : mt a q1 q2 → mt (Alt a b) q1 q2
  | mt_alt_r a b q1 q2 : mt b q1 q2 → mt (Alt a b) q1 q2
  | mt_star_nil g a q : mt (Star g a) q q
  | mt_star_step g a q1 q2 q3 :
      mt a q1 q2 → mt (Star g a) q2 q3 → mt (Star g a) q1 q3
  | mt_grp a q1 q2 : mt a q1 q2 → mt (Grp a) q1 q2
  | mt_bot s : mt Bot (None, s) (None, s)
  | mt_eot p : mt Eot (p, []) (p, [])
  | mt_wb p s : xorb (word_at p) (word_at (head s)) = true → mt Wb (p, s) (p, s).

(** The position after reading [w]. *)
Definition prev_after (p : option rune) (w : text) : option rune :=
  match rev w with x :: _ => Some x | [] => p end.

(** [r] matches somewhere in [s]. *)
Definition matches_in (r : re) (s : text) : Prop :=
  ∃ a b q, s = a ++ b ∧ mt r (prev_after None a, b) q.

(** ** The backtracking matcher *)

Section matcher.
Context {A : Type}.

(** The iterations of a star whose body is [body]: greedy or not, and none
    that reads nothing; [n] bounds their number. *)
Fixpoint star_loop (g : bool)
    (body : option rune → text → option text →
            (option rune → text → option text → option A) → option A)
    (k : option rune → text → option text → option A)
    (n : nat) (p : option rune) (s : text) (c : option text) : option A :=
  match n with
  | O => k p s c
  | S n =>
      let more _ := body p s c (λ p' s' c',
        if (length s' <? length s)%nat then star_loop g body k n p' s' c' else None) in
      if g
      then match more tt with Some v => Some v | None => k p s c end
      else match k p s c with Some v => Some v | None => more tt end
  end.

(** [bt r p s c k]: match [r] from position [(p, s)], with [c] the text last
    captured, then run [k]; alternatives are tried in order, a star stops
    when its body reads nothing. *)
Fixpoint bt (r : re) (p : option rune) (s : text) (c : option text)
    (k : option rune → text → option text → option A) : option A :=
  match r with
  | Eps => k p s c
  | Cls neg rs =>
      match s with
      | x :: s => if cls_match neg rs x then k (Some x) s c else None
      | [] => None
      end
  | Cat a b => bt a p s c (λ p s c, bt b p s c k)
  | Alt a b => match bt a p s c k with Some v => Some v | None => bt b p s c k end
  | Star g a => star_loop g (bt a) k (length s) p s c
  | Grp a => bt a p s c (λ p' s' c', k p' s' (Some (take (length s - length s') s)))
  | Bot => match p with None => k p s c | Some _ => None end
  | Eot => match s with [] => k p s c | _ => None end
  | Wb => if xorb (word_at p) (word_at (head s)) then k p s c else None
  end.
End matcher.

(** [regexp.MatchString]. *)
Fixpoint match_from (r : re) (p : option rune) (s : text) : bool :=
  match bt r p s None (λ _ _ _, Some tt) with
  | Some _ => true
  | None => match s with [] => false | x :: s => match_from r (Some x) s end
  end.

Definition match_string (r : re) (s : text) : bool := match_from r None s.

(** The leftmost match: the text before it, the match, the text after it and
    the group captured. *)
Record found := Found {
  f_before : text; f_match : text; f_after : text; f_group : option text }.

Fixpoint find_from (r : re) (p : option rune) (s : text) : option found :=
  match bt r p s None (λ _ s' c, Some (s', c)) with
  | Some (s', c) => Some (Found [] (take (length s - length s') s) s' c)
  | None =>
      match s with
      | [] => None
      | x :: s =>
          (λ f, Found (x :: f_before f) (f_match f) (f_after f) (f_group f))
          <$> find_from r (Some x) s
      end
  end.

(** The successive non-overlapping matches.  The sources only iterate over
    patterns that read at least one rune ([min_len] below), so the rules of
    [regexp] for empty matches are not needed; an empty match ends the list. *)
Fixpoint find_all_from (n : nat) (r : re) (p : option rune) (s : text) : list found :=
  match n with
  | O => []
  | S n =>
      match find_from r p s with
      | None => []
      | Some f =>
          if is_empty (f_match f) then []
          else f :: find_all_from n r (prev_after p (f_before f ++ f_match f)) (f_after f)
      end
  end.

Definition find_all (r : re) (s : text) : list found := find_all_from (S (length s)) r None s.

(** [FindAllString] and the first group of [FindAllStringSubmatch]. *)
Definition find_all_string (r : re) (s : text) : list text := f_match <$> find_all r s.
Definition find_all_group (r : re) (s : text) : list text :=
  (λ f, default [] (f_group f)) <$> find_all r s.

(** The text after the last match. *)
Definition after_last (s : text) (l : list found) : text :=
  match last l with Some f => f_after f | None => s end.

(** [ReplaceAllString] with a replacement without [$], and [Split(s, -1)]. *)
Definition replace_all (r : re) (repl s : text) : text :=
  let l := find_all r s in
  mjoin ((λ f, f_before f ++ repl) <$> l) ++ after_last s l.

Definition split_re (r : re) (s : text) : list text :=
  let l := find_all r s in (f_before <$> l) ++ [after_last s l].

(** The least number of runes a match reads. *)
Fixpoint min_len (r : re) : nat :=
  match r with
  | Cls _ _ => 1
  | Cat a b => min_len a + min_len b
  | Alt a b => Nat.min (min_len a) (min_len b)
  | Grp a => min_len a
  | Eps | Star _ _ | Bot | Eot | Wb => 0
  end.

(** ** Facts of the declarative semantics *)

Lemma prev_after_nil p : prev_after p [] = p.
Proof. done. Qed.

Lemma prev_after_cons p x w : prev_after p (x :: w) = prev_after (Some x) w.
Proof. unfold prev_after. simpl. by destruct (rev w). Qed.

Lemma prev_after_app p v w : prev_after p (v ++ w) = prev_after (prev_after p v) w.
Proof.
  revert p. induction v as [|x v IH]; intros p; [done|].
  cbn [app]. by rewrite !prev_after_cons.
Qed.

(** A match reads a prefix of the text and nothing else. *)
Lemma mt_reads r q q' :
  mt r q q' → ∃ w, q.2 = w ++ q'.2 ∧ q'.1 = prev_after q.1 w.
Proof.
  induction 1; simpl;
    try (match goal with
         | IH1 : ∃ w, _, IH2 : ∃ w, _ |- _ =>
             destruct IH1 as (w1 & -> & E1), IH2 as (w2 & Hw2 & E2);
             exists (w1 ++ w2); rewrite Hw2, prev_after_app, E2, E1; by rewrite app_assoc
         end);
    try done; try (by exists []).
  by exists [x].
Qed.

Lemma mt_length r q q' : mt r q q' → (length q'.2 ≤ length q.2)%nat.
Proof. intros (w & -> & _)%mt_reads. rewrite length_app. lia. Qed.

Lemma mt_same r q q' : mt r q q' → length q'.2 = length q.2 → q' = q.
Proof.
  intros (w & Hw & Hp)%mt_reads Hl. destruct q as [p s], q' as [p' s']. simpl in *.
  subst s. rewrite length_app in Hl. destruct w; simpl in *; [by subst|lia].
Qed.

Lemma mt_min_len r q q' :
  mt r q q' → (length q'.2 + min_len r ≤ length q.2)%nat.
Proof.
  induction 1; simpl in *; try lia;
  try (match goal with H : mt (Star _ _) _ _ |- _ => apply mt_length in H end; lia).
Qed.

(** ** The matcher finds exactly the matches *)

Section matcher_spec.
Context {A : Type}.
Implicit Types (k : option rune → text → option text → option A).

Lemma star_loop_sound g a body k n p s c v :
  (∀ p s c k v, body p s c k = Some v →
    ∃ p' s' c', mt a (p, s) (p', s') ∧ k p' s' c' = Some v) →
  star_loop g body k n p s c = Some v →
  ∃ p' s' c', mt (Star g a) (p, s) (p', s') ∧ k p' s' c' = Some v.
Proof.
  intros Hbody. revert p s c v. induction n as [|n IHn]; intros p s c v; cbn [star_loop];
    [eauto 10 using mt|].
  set (more := body p s c _).
  assert (∀ w, more = Some w →
    ∃ p' s' c', mt (Star g a) (p, s) (p', s') ∧ k p' s' c' = Some w) as Hmore.
  { intros w (p1 & s1 & c1 & H1 & H2)%Hbody. destruct (_ <? _)%nat; [|done].
    apply IHn in H2 as (? & ? & ? & ? & ?). eauto 10 using mt. }
  destruct g.
  - destruct more as [w|]; [|eauto 10 using mt]. intros [= <-]. by apply Hmore.
  - destruct (k p s c) as [w|] eqn:E; [|by apply Hmore].
    intros [= <-]. eauto 10 using mt.
Qed.

Lemma bt_sound r p s c k v :
  bt r p s c k = Some v → ∃ p' s' c', mt r (p, s) (p', s') ∧ k p' s' c' = Some v.
Proof.
  revert p s c k v. induction r as [|neg rs|a IHa b IHb|a IHa b IHb|g a IHa|a IHa| | |];
    intros p s c k v; cbn [bt].
  - eauto 10 using mt.
  - destruct s as [|x s]; [done|]. destruct (cls_match _ _ _) eqn:?; [|done].
    eauto 10 using mt.
  - intros (p1 & s1 & c1 & H1 & (p2 & s2 & c2 & H2 & ?)%IHb)%IHa. eauto 10 using mt.
  - destruct (bt a p s c k) as [w|] eqn:E.
    + intros [= <-]. apply IHa in E as (? & ? & ? & ? & ?). eauto 10 using mt.
    + intros (? & ? & ? & ? & ?)%IHb. eauto 10 using mt.
  - by apply star_loop_sound.
  - intros (? & ? & ? & ? & ?)%IHa. eauto 10 using mt.
  - destruct p; [done|]. eauto 10 using mt.
  - destruct s; [|done]. eauto 10 using mt.
  - destruct (xorb _ _) eqn:?; [|done]. eauto 10 using mt.
Qed.

(** A continuation that succeeds at [q], whatever was captured. *)
Definition succeeds k (q : pos) : Prop := ∀ c, is_Some (k q.1 q.2 c).

Lemma star_loop_complete g a body k q q' n :
  (∀ q1 q2 k', mt a q1 q2 → succeeds k' q2 → ∀ c, is_Some (body q1.1 q1.2 c k')) →
  mt (Star g a) q q' → succeeds k q' → (length q.2 ≤ n)%nat →
  ∀ c, is_Some (star_loop g body k n q.1 q.2 c).
Proof.
  intros Hbody Hmt Hk. revert n. remember (Star g a) as r eqn:Hr.
  induction Hmt as [| | | | |g' a' q|g' a' q1 q2 q3 H1 _ H2 IH2| | | |]; simplify_eq;
    intros n Hn c.
  - destruct n as [|n]; cbn [star_loop]; [apply Hk|].
    destruct (Hk c) as [v Hv]. destruct g; [|by rewrite Hv].
    destruct (body _ _ _ _); [done|by rewrite Hv].
  - specialize (IH2 eq_refl Hk). pose proof (mt_length _ _ _ H1).
    destruct (decide (length q2.2 = length q1.2)) as [E|E].
    { pose proof (mt_same _ _ _ H1 E) as ->. by apply IH2. }
    destruct n as [|n]; [lia|]. cbn [star_loop].
    set (more := body _ _ _ _).
    assert (is_Some more) as [v Hv].
    { apply (Hbody q1 q2); [done|]. intros c'.
      rewrite (proj2 (Nat.ltb_lt _ _)) by lia. apply IH2. lia. }
    rewrite Hv. destruct g; [done|]. by destruct (k q1.1 q1.2 c).
Qed.

Lemma bt_complete r q q' k :
  mt r q q' → succeeds k q' → ∀ c, is_Some (bt r q.1 q.2 c k).
Proof.
  revert q q' k. induction r as [|neg rs|a IHa b IHb|a IHa b IHb|g a IHa|a IHa| | |];
    intros q q' k Hmt Hk c; cbn [bt].
  - inversion Hmt; subst. apply Hk.
  - inversion Hmt as [|? ? ? ? ? Hx| | | | | | | | |]; subst. simpl in *.
    rewrite Hx. apply Hk.
  - inversion Hmt; subst. eapply IHa; [done|]. intros c'. by eapply IHb.
  - inversion Hmt as [| | |? ? ? ? Ha|? ? ? ? Hb| | | | | |]; subst.
    + destruct (IHa q q' k Ha Hk c) as [v ->]; eauto.
    + destruct (bt a _ _ _ _); [by eauto|]. by eapply IHb.
  - eapply star_loop_complete; [|done..|lia].
    intros q1 q2 k' H1 Hk' c'. by eapply IHa.
  - inversion Hmt; subst. eapply IHa; [done|]. intros c'. apply Hk.
  - inversion Hmt; subst. apply Hk.
  - inversion Hmt; subst. apply Hk.
  - inversion Hmt as [| | | | | | | | | |? ? Hx]; subst. simpl in *. rewrite Hx. apply Hk.
Qed.
End matcher_spec.

Lemma bt_matches {A} r p s (f : option rune → text → option text → A) :
  is_Some (bt r p s None (λ p s c, Some (f p s c))) ↔ ∃ q, mt r (p, s) q.
Proof.
  split.
  - intros [v (p' & s' & c' & H & _)%bt_sound]. eauto.
  - intros [q H]. apply (bt_complete r (p, s) q); [done|]. intros c. eauto.
Qed.

Lemma match_from_spec r p s :
  match_from r p s = true ↔ ∃ a b q, s = a ++ b ∧ mt r (prev_after p a, b) q.
Proof.
  revert p. induction s as [|x s IH]; intros p; cbn [match_from].
  - pose proof (bt_matches r p [] (λ _ _ _, tt)) as Hbt.
    destruct (bt r p [] None _) as [u|]; split.
    + intros _. destruct (proj1 Hbt) as [q Hq]; [done|]. by exists [], [], q.
    + done.
    + done.
    + intros (a & b & q & Hab & Hq). symmetry in Hab. apply app_nil in Hab as [-> ->].
      destruct (proj2 Hbt) as [? ?]; [by exists q|done].
  - pose proof (bt_matches r p (x :: s) (λ _ _ _, tt)) as Hbt.
    destruct (bt r p (x :: s) None _) as [u|]; [split; [intros _|done]|rewrite IH; split].
    + destruct (proj1 Hbt) as [q Hq]; [done|]. by exists [], (x :: s), q.
    + intros (a & b & q & -> & Hq). exists (x :: a), b, q. by rewrite prev_after_cons.
    + intros ([|y a] & b & q & Hab & Hq); simpl in Hab; simplify_eq.
      * destruct (proj2 Hbt) as [? ?]; [by exists q|done].
      * exists a, b, q. by rewrite <- prev_after_cons with (p := p).
Qed.

(** [MatchString] answers true exactly when the pattern matches somewhere. *)
Lemma match_string_spec r s : match_string r s = true ↔ matches_in r s.
Proof. apply match_from_spec. Qed.

Lemma match_string_false r s : match_string r s = false ↔ ¬ matches_in r s.
Proof. rewrite <- match_string_spec. by destruct (match_string r s). Qed.

(** ** What [find_from] and [find_all] return *)

Lemma find_from_Some r p s f :
  find_from r p s = Some f →
  s = f_before f ++ f_match f ++ f_after f ∧
  mt r (prev_after p (f_before f), f_match f ++ f_after f)
       (prev_after p (f_before f ++ f_match f), f_after f).
Proof.
  revert p f. induction s as [|x s IH]; intros p f; cbn [find_from].
  - destruct (bt r p [] None _) as [[s' c]|] eqn:E; [|done]. intros [= <-]. simpl.
    apply bt_sound in E as (p1 & s1 & c1 & Hmt & [= <- <-]).
    destruct (mt_reads _ _ _ Hmt) as (w & Hw & Hp). simpl in *.
    symmetry in Hw. apply app_nil in Hw as [-> ->]. simpl in *. by subst p1.
  - destruct (bt r p (x :: s) None _) as [[s' c]|] eqn:E.
    + intros [= <-]. simpl. apply bt_sound in E as (p1 & s1 & c1 & Hmt & [= <- <-]).
      destruct (mt_reads _ _ _ Hmt) as (w & Hw & Hp). simpl in *. rewrite Hw.
      assert (take (length (w ++ s1) - length s1) (w ++ s1) = w) as Ht.
      { rewrite length_app. replace (length w + length s1 - length s1)%nat with (length w) by lia.
        apply take_app_length. }
      change (S (length s)) with (length (x :: s)). rewrite Hw, Ht. split; [done|].
      rewrite <- Hp. by rewrite Hw in Hmt.
    + destruct (find_from r (Some x) s) as [f'|] eqn:Ef; [|done]. intros [= <-]. simpl.
      apply IH in Ef as [Hs Hmt]. split; [by rewrite <- Hs|].
      by rewrite !prev_after_cons.
Qed.

Lemma bt_agree {A B} r p s (f : option rune → text → option text → A)
    (g : option rune → text → option text → B) :
  bt r p s None (λ p s c, Some (f p s c)) = None ↔
  bt r p s None (λ p s c, Some (g p s c)) = None.
Proof.
  rewrite !eq_None_not_Some, !bt_matches. done.
Qed.

Lemma find_from_None r p s : find_from r p s = None ↔ match_from r p s = false.
Proof.
  revert p. induction s as [|x s IH]; intros p; cbn [find_from match_from].
  - pose proof (bt_agree r p [] (λ _ s' c, (s', c)) (λ _ _ _, tt)) as [H1 H2].
    destruct (bt r p [] None (λ _ s' c, Some (s', c))) as [[? ?]|];
      destruct (bt r p [] None (λ _ _ _, Some tt)) as [u|]; split; intros; try done.
    + by discriminate H2.
    + by discriminate H1.
  - pose proof (bt_agree r p (x :: s) (λ _ s' c, (s', c)) (λ _ _ _, tt)) as [H1 H2].
    destruct (bt r p (x :: s) None (λ _ s' c, Some (s', c))) as [[? ?]|];
      destruct (bt r p (x :: s) None (λ _ _ _, Some tt)) as [u|];
      [split; done|by discriminate H2|by discriminate H1|].
    rewrite <- IH. by destruct (find_from r (Some x) s).
Qed.

Lemma find_all_from_text n r p s :
  s = mjoin ((λ f, f_before f ++ f_match f) <$> find_all_from n r p s)
      ++ after_last s (find_all_from n r p s).
Proof.
  revert p s. induction n as [|n IH]; intros p s; [done|]. cbn [find_all_from].
  destruct (find_from r p s) as [f|] eqn:E; [|done].
  apply find_from_Some in E as [Hs _].
  destruct (is_empty (f_match f)); [done|]. cbn [fmap list_fmap mjoin list_join].
  specialize (IH (prev_after p (f_before f ++ f_match f)) (f_after f)).
  set (l := find_all_from n r _ _) in *. unfold after_last in *.
  rewrite last_cons. destruct (last l) as [g|] eqn:El.
  - rewrite Hs at 1. rewrite IH at 1. by rewrite <- !app_assoc.
  - apply last_None in El. rewrite El in *. simpl. by rewrite app_nil_r, <- app_assoc.
Qed.

(** Every match of [FindAll] reads at least [min_len] runes and is a match of
    the pattern in the text. *)
Lemma find_all_from_elem n r p s f :
  f ∈ find_all_from n r p s →
  ∃ a q', s = a ++ f_match f ++ f_after f ∧
          mt r (prev_after p a, f_match f ++ f_after f) (q', f_after f).
Proof.
  revert p s. induction n as [|n IH]; intros p s; [by intros ?%not_elem_of_nil|].
  cbn [find_all_from]. destruct (find_from r p s) as [g|] eqn:E; [|by intros ?%not_elem_of_nil].
  destruct (is_empty (f_match g)); [by intros ?%not_elem_of_nil|].
  apply find_from_Some in E as [Hs Hmt]. intros [->|Hf]%elem_of_cons.
  - exists (f_before g). eauto.
  - apply IH in Hf as (a & q' & Ha & Hq').
    exists ((f_before g ++ f_match g) ++ a), q'. split.
    + rewrite Hs, Ha. by rewrite <- !app_assoc.
    + by rewrite prev_after_app.
Qed.

(** Without a match, [ReplaceAllString] and [Split] return the text. *)
Lemma find_all_no_match r s : match_string r s = false → find_all r s = [].
Proof.
  intros H. unfold find_all. cbn [find_all_from].
  by rewrite (proj2 (find_from_None r None s)).
Qed.

Lemma replace_all_no_match r repl s : match_string r s = false → replace_all r repl s = s.
Proof. intros H. unfold replace_all. by rewrite find_all_no_match. Qed.

Lemma split_re_no_match r s : match_string r s = false → split_re r s = [s].
Proof. intros H. unfold split_re. by rewrite find_all_no_match. Qed.

(** Deleting matches only removes runes. *)
Lemma replace_all_delete_subset r s x : x ∈ replace_all r [] s → x ∈ s.
Proof.
  unfold replace_all, find_all. intros Hx.
  rewrite (find_all_from_text (S (length s)) r None s).
  apply elem_of_app in Hx as [Hx|Hx]; [|by apply elem_of_app; right].
  apply elem_of_app. left. revert Hx.
  induction (find_all_from _ _ _ _) as [|f l IH]; [done|].
  cbn [fmap list_fmap mjoin list_join]. rewrite app_nil_r, !elem_of_app. tauto.
Qed.

(** A pattern that needs a rune the text lacks does not match. *)
Lemma no_match_first r s :
  (∀ p b q, mt r (p, b) q → ∃ x b', b = x :: b' ∧ x ∉ s) → match_string r s = false.
Proof.
  intros H. apply match_string_false. intros (a & b & q & -> & Hmt).
  apply H in Hmt as (x & b' & -> & Hx). set_solver.
Qed.

(** ** Computing with particular patterns

    A greedy star of a class reads the longest run of the class when what
    follows then matches; a search skips the runes no match can start with. *)

Lemma bt_cat {A} a b p s c (k : option rune → text → option text → option A) :
  bt (Cat a b) p s c k = bt a p s c (λ p s c, bt b p s c k).
Proof. done. Qed.

Lemma bt_grp {A} a p s c (k : option rune → text → option text → option A) :
  bt (Grp a) p s c k =
  bt a p s c (λ p' s' c', k p' s' (Some (take (length s - length s') s))).
Proof. done. Qed.

Lemma bt_cls {A} neg rs p x s c (k : option rune → text → option text → option A) :
  cls_match neg rs x = true → bt (Cls neg rs) p (x :: s) c k = k (Some x) s c.
Proof. cbn [bt]. by intros ->. Qed.

Lemma bt_star_run {A} neg rs p w s c k (v : A) :
  Forall (λ x, cls_match neg rs x = true) w →
  (∀ x s', s = x :: s' → cls_match neg rs x = false) →
  k (prev_after p w) s c = Some v →
  bt (Star true (Cls neg rs)) p (w ++ s) c k = Some v.
Proof.
  intros HF Hs Hk. cbn [bt].
  assert (length w ≤ length (w ++ s))%nat as Hn by (rewrite length_app; lia).
  revert p Hk Hn. generalize (length (w ++ s)) as n. intros n. revert n.
  induction HF as [|x w Hx _ IH]; intros n p Hk Hn.
  - destruct n as [|n]; [done|]. cbn [star_loop app bt]. rewrite prev_after_nil in Hk.
    destruct s as [|y s]; [done|]. by rewrite (Hs y s).
  - destruct n as [|n]; [simpl in Hn; lia|]. cbn [star_loop app bt]. rewrite Hx.
    rewrite (proj2 (Nat.ltb_lt _ _)) by (simpl; lia).
    rewrite prev_after_cons in Hk. rewrite (IH n (Some x)); [done|done|simpl in Hn; lia].
Qed.

Lemma bt_rep_run {A} neg rs n p w s c (k : option rune → text → option text → option A) :
  Forall (λ x, cls_match neg rs x = true) w → length w = n →
  bt (Rep n (Cls neg rs)) p (w ++ s) c k = k (prev_after p w) s c.
Proof.
  intros HF <-. revert p. induction HF as [|x w Hx _ IH]; intros p; [done|].
  cbn [length Rep app bt]. by rewrite Hx, IH, prev_after_cons.
Qed.

Lemma find_from_here r p s s' c :
  bt r p s None (λ _ s' c, Some (s', c)) = Some (s', c) →
  find_from r p s = Some (Found [] (take (length s - length s') s) s' c).
Proof. destruct s; cbn [find_from]; by intros ->. Qed.

Definition found_after (a : text) (f : found) : found :=
  Found (a ++ f_before f) (f_match f) (f_after f) (f_group f).

Lemma find_from_skip neg rs r p a s :
  Forall (λ x, cls_match neg rs x = false) a →
  find_from (Cat (Cls neg rs) r) p (a ++ s) =
  found_after a <$> find_from (Cat (Cls neg rs) r) (prev_after p a) s.
Proof.
  intros HF. revert p. induction HF as [|x a Hx _ IH]; intros p.
  - rewrite prev_after_nil. cbn [app]. by destruct (find_from _ p s) as [[]|].
  - cbn [app find_from bt]. rewrite Hx, IH, prev_after_cons.
    by destruct (find_from _ _ s) as [[]|].
Qed.

Lemma find_all_head r s f :
  find_from r None s = Some f → f_match f ≠ [] → ∃ l, find_all r s = f :: l.
Proof.
  intros Hf Hne. unfold find_all. cbn [find_all_from]. rewrite Hf.
  destruct (f_match f); [done|]. cbn [is_empty]. eauto.
Qed.

Lemma take_before {A} (w s : list A) : take (length (w ++ s) - length s) (w ++ s) = w.
Proof.
  rewrite length_app. replace (length w + length s - length s)%nat with (length w) by lia.
  apply take_app_length.
Qed.

(** ** [regexp.MustCompile]

    A reader for the syntax the sources use: literals, [.], [^], [$],
    [\b \s \S \w \d \xHH] and escaped punctuation, classes, groups, [|], and the
    quantifiers [* + ? *? +? ?? {n} {n,}].  [n] bounds the depth. *)

Definition perl_class (x : rune) : option (list (Z * Z)) :=
  if x =? 115 then Some [(9, 10); (12, 13); (32, 32)]              (* \s *)
  else if x =? 119 then Some [(48, 57); (65, 90); (95, 95); (97, 122)] (* \w *)
  else if x =? 100 then Some [(48, 57)]                            (* \d *)
  else None.

Definition hex_digit (x : rune) : option Z :=
  if in_range 48 57 x then Some (x - 48)
  else if in_range 97 102 x then Some (x - 87)
  else if in_range 65 70 x then Some (x - 55)
  else None.

(** What follows a backslash: a rune or a class. *)
Definition p_escape (s : text) : option ((rune + list (Z * Z)) * text) :=
  match s with
  | [] => None
  | x :: s =>
      match perl_class x with
      | Some rs => Some (inr rs, s)
      | None =>
          if x =? 120 then
            match s with
            | a :: b :: s => a ← hex_digit a; b ← hex_digit b; Some (inl (16 * a + b), s)
            | _ => None
            end
          else if is_word_rune x then None else Some (inl x, s)
      end
  end.

Definition p_class_item (s : text) : option ((rune + list (Z * Z)) * text) :=
  match s with
  | [] => None
  | x :: s => if x =? 92 then p_escape s else Some (inl x, s)
  end.

(** The items of a class up to its closing bracket. *)
Fixpoint p_class (n : nat) (s : text) : option (list (Z * Z) * text) :=
  match n with
  | O => None
  | S n =>
      match s with
      | 93 :: s => Some ([], s)
      | _ =>
          '(it, s) ← p_class_item s;
          match it with
          | inr rs => '(rs', s) ← p_class n s; Some (rs ++ rs', s)
          | inl lo =>
              match s with
              | 45 :: ((y :: _) as s') =>
                  if y =? 93 then '(rs, s) ← p_class n s; Some ((lo, lo) :: rs, s)
                  else '(it, s) ← p_class_item s';
                       match it with
                       | inl hi => '(rs, s) ← p_class n s; Some ((lo, hi) :: rs, s)
                       | inr _ => None
                       end
              | _ => '(rs, s) ← p_class n s; Some ((lo, lo) :: rs, s)
              end
          end
      end
  end.

Fixpoint p_number (acc : nat) (s : text) : nat * text :=
  match s with
  | x :: s' => if is_digit x then p_number (10 * acc + Z.to_nat (x - 48)) s' else (acc, s)
  | [] => (acc, [])
  end.

Definition p_lazy (s : text) : bool * text :=
  match s with 63 :: s => (false, s) | _ => (true, s) end.

Definition p_quant (a : re) (s : text) : option (re * text) :=
  match s with
  | 42 :: s => let '(g, s) := p_lazy s in Some (Star g a, s)
  | 43 :: s => let '(g, s) := p_lazy s in Some (Plus g a, s)
  | 63 :: s => let '(g, s) := p_lazy s in Some (Opt g a, s)
  | 123 :: s =>
      let '(n, s) := p_number 0 s in
      match s with
      | 125 :: s => Some (Rep n a, s)
      | 44 :: 125 :: s => Some (RepFrom n true a, s)
      | _ => None
      end
  | _ => Some (a, s)
  end.

Fixpoint p_alt (n : nat) (s : text) : option (re * text) :=
  match n with
  | O => None
  | S n =>
      '(a, s) ← p_cat n s;
      match s with
      | 124 :: s => '(b, s) ← p_alt n s; Some (Alt a b, s)
      | _ => Some (a, s)
      end
  end
with p_cat (n : nat) (s : text) : option (re * text) :=
  match n with
  | O => None
  | S n =>
      match s with
      | [] => Some (Eps, [])
      | 41 :: _ | 124 :: _ => Some (Eps, s)
      | _ =>
          '(a, s) ← p_atom n s;
          '(a, s) ← p_quant a s;
          '(b, s) ← p_cat n s;
          Some (match b with Eps => a | _ => Cat a b end, s)
      end
  end
with p_atom (n : nat) (s : text) : option (re * text) :=
  match n with
  | O => None
  | S n =>
      match s with
      | [] => None
      | 40 :: s =>
          '(a, s) ← p_alt n s;
          match s with 41 :: s => Some (Grp a, s) | _ => None end
      | 91 :: 94 :: s => '(rs, s) ← p_class n s; Some (Cls true rs, s)
      | 91 :: s => '(rs, s) ← p_class n s; Some (Cls false rs, s)
      | 46 :: s => Some (AnyNotNL, s)
      | 94 :: s => Some (Bot, s)
      | 36 :: s => Some (Eot, s)
      | 92 :: 98 :: s => Some (Wb, s)
      | 92 :: 83 :: s => Some (Cls true [(9, 10); (12, 13); (32, 32)], s)   (* \S *)
      | 92 :: s =>
          '(it, s) ← p_escape s;
          Some (match it with inl x => Lit x | inr rs => Cls false rs end, s)
      | x :: s =>
          if existsb (Z.eqb x) [42; 43; 63; 123] then None else Some (Lit x, s)
      end
  end.

(** [regexp.Compile]; [None] is a syntax error. *)
Definition compile (pattern : text) : option re :=
  match p_alt (4 * length pattern + 4) pattern with
  | Some (r, []) => Some r
  | _ => None
  end.

(** A pattern that does not compile makes [MustCompile] panic; the lemmas of
    the client modules show that none of the sources' patterns does. *)
Definition must_compile (pattern : text) : re := default Bot (compile pattern).

(** A double quote, which the literals below cannot spell. *)
Definition dquote : text := [34].

Example re_ansi : compile (txt "\x1b\[[0-9;]*[a-zA-Z]") =
  Some (Cat (Lit 27) (Cat (Lit 91) (Cat (Star true (Cls false [(48, 57); (59, 59)]))
       (Cls false [(97, 122); (65, 90)])))).
Proof. vm_compute. reflexivity. Qed.

Example re_match_ex :
  match_string (must_compile (txt "\b(shutdown|reboot)\b")) (txt "sudo reboot now") = true ∧
  match_string (must_compile (txt "\b(shutdown|reboot)\b")) (txt "rebooted") = false.
Proof. vm_compute. done. Qed.

Example re_find_ex :
  find_all_group (must_compile (txt "\$\(([^)]+)\)")) (txt "a $(b c) $(d)") = [txt "b c"; txt "d"].
Proof. vm_compute. done. Qed.

Example re_replace_ex :
  replace_all (must_compile (txt "\x1b\[[0-9;]*[a-zA-Z]")) [] (27 :: txt "[31mred") = txt "red".
Proof. vm_compute. done. Qed.

Example re_split_ex : split_re (must_compile (txt "[|;&&]+")) (txt "a && b|c") =
  [txt "a "; txt " b"; txt "c"].
Proof. vm_compute. done. Qed.
