(* ===== verification/Encodings.v ===== *)
(** * Packages [encoding/base64] and [encoding/hex]

    The decoders the detector calls, with the standard alphabet and padding.
    Text to be decoded holds no line break where the sources decode it.  The
    encoder is the reference for the round trip. *)

From stdpp Require Import base list strings.
From Stdlib Require Import ZArith Lia Ascii.
From S2P Require Import Prelude GoStrings GoRegexp.
Local Open Scope Z_scope.

(** ** Base64 *)

Definition b64_char (v : Z) : rune :=
  if v <? 26 then 65 + v else if v <? 52 then 71 + v
  else if v <? 62 then v - 4 else if v =? 62 then 43 else 47.

Definition b64_val (r : rune) : option Z :=
  if in_range 65 90 r then Some (r - 65)
  else if in_range 97 122 r then Some (r - 71)
  else if in_range 48 57 r then Some (r + 4)
  else if r =? 43 then Some 62
  else if r =? 47 then Some 63
  else None.

Definition b64_pad : rune := 61.

(** [base64.StdEncoding.DecodeString]: groups of four, padding only at the very
    end, unused bits ignored. *)
Fixpoint b64_decode (s : text) : option bytes :=
  match s with
  | [] => Some []
  | a :: b :: c :: d :: s =>
      a ← b64_val a;
      b ← b64_val b;
      if c =? b64_pad then
        if (d =? b64_pad) && is_empty s then Some [4 * a + b / 16] else None
      else
        c ← b64_val c;
        if d =? b64_pad then
          if is_empty s then Some [4 * a + b / 16; 16 * (b mod 16) + c / 4] else None
        else
          d ← b64_val d;
          s ← b64_decode s;
          Some (4 * a + b / 16 :: 16 * (b mod 16) + c / 4 :: 64 * (c mod 4) + d :: s)
  | _ => None
  end.

(** [base64.StdEncoding.EncodeToString]. *)
Fixpoint b64_encode (bs : bytes) : text :=
  match bs with
  | [] => []
  | [a] => [b64_char (a / 4); b64_char (16 * (a mod 4)); b64_pad; b64_pad]
  | [a; b] => [b64_char (a / 4); b64_char (16 * (a mod 4) + b / 16);
               b64_char (4 * (b mod 16)); b64_pad]
  | a :: b :: c :: bs =>
      b64_char (a / 4) :: b64_char (16 * (a mod 4) + b / 16)
      :: b64_char (4 * (b mod 16) + c / 64) :: b64_char (c mod 64) :: b64_encode bs
  end.

Definition is_byte (b : Z) : bool := in_range 0 255 b.

(** The runes of [[A-Za-z0-9+/=]]. *)
Definition b64_rune (r : rune) : bool := bool_decide (is_Some (b64_val r)) || (r =? b64_pad).

Lemma in_table (P : Z → bool) lo hi v :
  forallb P (Z.of_nat <$> seq lo (hi - lo)) = true →
  Z.of_nat lo <= v < Z.of_nat hi → P v = true.
Proof.
  rewrite forallb_forall. intros HP Hv. apply HP. apply list_elem_of_In, list_elem_of_fmap.
  exists (Z.to_nat v). split; [lia|]. apply elem_of_seq. lia.
Qed.

Lemma b64_val_char v : 0 <= v < 64 → b64_val (b64_char v) = Some v.
Proof.
  intros Hv.
  pose proof (in_table (λ v, bool_decide (b64_val (b64_char v) = Some v)) 0 64 v) as H.
  apply (bool_decide_eq_true_1 _), H; [by vm_compute|lia].
Qed.

Lemma b64_char_not_pad v : 0 <= v < 64 → (b64_char v =? b64_pad) = false.
Proof.
  intros Hv. apply negb_true_iff.
  apply (in_table (λ v, negb (b64_char v =? b64_pad)) 0 64); [by vm_compute|lia].
Qed.

Lemma sextets a b c : 0 <= a < 256 → 0 <= b < 256 → 0 <= c < 256 →
  (0 <= a / 4 < 64 ∧ 0 <= 16 * (a mod 4) + b / 16 < 64 ∧
   0 <= 4 * (b mod 16) + c / 64 < 64 ∧ 0 <= c mod 64 < 64) ∧
  4 * (a / 4) + (16 * (a mod 4) + b / 16) / 16 = a ∧
  16 * ((16 * (a mod 4) + b / 16) mod 16) + (4 * (b mod 16) + c / 64) / 4 = b ∧
  64 * ((4 * (b mod 16) + c / 64) mod 4) + c mod 64 = c.
Proof. intros. split_and!; Z.to_euclidean_division_equations; lia. Qed.

Lemma triple_ind {A} (P : list A → Prop) :
  P [] → (∀ a, P [a]) → (∀ a b, P [a; b]) →
  (∀ a b c l, P l → P (a :: b :: c :: l)) → ∀ l, P l.
Proof.
  intros H0 H1 H2 H3. refine (fix f l := _).
  destruct l as [|a [|b [|c l]]]; [exact H0|apply H1|apply H2|apply H3, f].
Qed.

Ltac bytes_of H :=
  repeat match type of H with
  | Forall _ (_ :: _) =>
      let Hb := fresh "Hb" in apply Forall_cons in H as [Hb H]; apply in_range_spec in Hb
  end.

(** Decoding inverts encoding. *)
Lemma b64_decode_encode bs :
  Forall (λ b, is_byte b = true) bs → b64_decode (b64_encode bs) = Some bs.
Proof.
  induction bs as [|a|a b|a b c bs IH] using triple_ind; intros HF; [done|..]; bytes_of HF.
  - destruct (sextets a 0 0) as ((? & ? & _) & E & _); [lia..|]. change (0 / 16) with 0 in *.
    rewrite !Z.add_0_r in *. cbn [b64_encode b64_decode].
    rewrite !b64_val_char by lia. simpl. by rewrite E.
  - destruct (sextets a b 0) as ((? & ? & ? & _) & E1 & E2 & _); [lia..|].
    change (0 / 64) with 0 in *. rewrite !Z.add_0_r in *. cbn [b64_encode b64_decode].
    rewrite !b64_val_char by lia. cbn [mbind option_bind].
    rewrite b64_char_not_pad by lia. simpl. by rewrite E1, E2.
  - destruct (sextets a b c) as ((? & ? & ? & ?) & E1 & E2 & E3); [lia..|].
    cbn [b64_encode b64_decode]. rewrite !b64_val_char by lia. cbn [mbind option_bind].
    rewrite !b64_char_not_pad, IH by done. simpl. by rewrite E1, E2, E3.
Qed.

Lemma b64_char_rune v : 0 <= v < 64 → b64_rune (b64_char v) = true.
Proof.
  intros Hv. apply (in_table (λ v, b64_rune (b64_char v)) 0 64); [by vm_compute|lia].
Qed.

(** The encoding is made of base64 runes and has four for each three bytes. *)
Lemma b64_encode_runes bs :
  Forall (λ b, is_byte b = true) bs → Forall (λ r, b64_rune r = true) (b64_encode bs).
Proof.
  induction bs as [|a|a b|a b c bs IH] using triple_ind; intros HF; [done|..]; bytes_of HF.
  - destruct (sextets a 0 0) as ((? & ? & _) & _); [lia..|]. change (0 / 16) with 0 in *.
    rewrite !Z.add_0_r in *. cbn [b64_encode].
    repeat constructor; by apply b64_char_rune || done.
  - destruct (sextets a b 0) as ((? & ? & ? & _) & _); [lia..|].
    change (0 / 64) with 0 in *. rewrite !Z.add_0_r in *. cbn [b64_encode].
    repeat constructor; by apply b64_char_rune || done.
  - destruct (sextets a b c) as ((? & ? & ? & ?) & _); [lia..|].
    cbn [b64_encode]. do 4 (constructor; [by apply b64_char_rune|]). by apply IH.
Qed.

Lemma b64_encode_length bs : (4 * length bs <= 3 * length (b64_encode bs))%nat.
Proof.
  induction bs as [|a|a b|a b c bs IH] using triple_ind; cbn [b64_encode length]; lia.
Qed.

(** ** Hexadecimal *)

(** [hex.DecodeString] of an even number of digits. *)
Fixpoint hex_decode (s : text) : option bytes :=
  match s with
  | [] => Some []
  | a :: b :: s =>
      a ← hex_digit a; b ← hex_digit b; s ← hex_decode s; Some (16 * a + b :: s)
  | _ => None
  end.

Example b64_ex : b64_encode (txt "rm -rf /") = txt "cm0gLXJmIC8=" ∧
  b64_decode (txt "cm0gLXJmIC8=") = Some (txt "rm -rf /").
Proof. vm_compute. done. Qed.
