(* ===== verification/Gorm.v ===== *)
(** * The database interface

    The sources reach their tables through [gorm.io/gorm], which is not part of
    the repository: a table is an instance of the class [Store], whose
    operations the handlers call and whose laws ([StoreLaws]) are what gorm
    documents: [Find] returns the rows of the [WHERE] clause in some order,
    [First] one of them or [ErrRecordNotFound], [Create] adds a row with a new
    primary key, [Updates] and [Delete] act on the rows of the clause, and every
    call may fail and then changes nothing.  [mem_store] is an instance kept in
    memory. *)

From stdpp Require Import base list strings.
From S2P Require Import Prelude GoStrings.

Inductive db_error : Type :=
  | RecordNotFound
  | DuplicatedKey
  | DBFailure.

#[global] Instance db_error_eq_dec : EqDecision db_error.
Proof. solve_decision. Defined.

Class Store (Row Key : Type) := {
  store : Type;
  row_key : Row → Key;
  db_rows : store → list Row;
  db_find : store → (Row → bool) → result db_error (list Row);
  db_first : store → (Row → bool) → result db_error Row;
  db_create : store → Row → result db_error store;
  db_update : store → (Row → bool) → (Row → Row) → result db_error store;
  db_delete : store → (Row → bool) → result db_error store
}.
Arguments store {Row Key} S : rename.

(** What an [UPDATE] makes of a row. *)
Definition updated {Row} (p : Row → bool) (f : Row → Row) (r : Row) : Row :=
  if p r then f r else r.

Class StoreLaws {Row Key} (S : Store Row Key) : Prop := {
  find_rows (s : store S) p l : db_find s p = Ok l → l ≡ₚ keep p (db_rows s);
  first_row (s : store S) p r : db_first s p = Ok r → r ∈ db_rows s ∧ p r = true;
  first_none (s : store S) p : db_first s p = Err RecordNotFound → ∀ r, r ∈ db_rows s → p r = false;
  create_rows (s s' : store S) r : db_create s r = Ok s' → db_rows s' ≡ₚ r :: db_rows s;
  create_key (s s' : store S) r : db_create s r = Ok s' → row_key r ∉ row_key <$> db_rows s;
  update_rows (s s' : store S) p f :
    db_update s p f = Ok s' → db_rows s' ≡ₚ updated p f <$> db_rows s;
  delete_rows (s s' : store S) p :
    db_delete s p = Ok s' → db_rows s' ≡ₚ keep (λ r, negb (p r)) (db_rows s)
}.

(** ** Consequences *)

Lemma elem_of_keep_perm {A} (p : A → bool) (l l' : list A) x :
  l ≡ₚ keep p l' → x ∈ l ↔ x ∈ l' ∧ p x = true.
Proof. intros ->. rewrite elem_of_keep. tauto. Qed.

Lemma updated_last {A} (p : A → bool) g l x :
  (∀ y, y ∈ l → p y = false) → p x = true → updated p g <$> (l ++ [x]) = l ++ [g x].
Proof.
  intros Hl Hx. rewrite fmap_app. f_equal; [|simpl; unfold updated; by rewrite Hx].
  rewrite <- (list_fmap_id l) at 2. apply list_fmap_ext. intros i y Hy%list_elem_of_lookup_2.
  unfold updated. by rewrite Hl.
Qed.

Section store_facts.
Context {Row Key : Type} {S : Store Row Key} {SL : StoreLaws S}.

Lemma find_elem (s : store S) p l r : db_find s p = Ok l → r ∈ l ↔ r ∈ db_rows s ∧ p r = true.
Proof. intros Hl%find_rows. by apply elem_of_keep_perm. Qed.

Lemma create_elem (s s' : store S) r x : db_create s r = Ok s' → x ∈ db_rows s' ↔ x = r ∨ x ∈ db_rows s.
Proof. intros ->%create_rows. apply elem_of_cons. Qed.

Lemma update_elem (s s' : store S) p f x :
  db_update s p f = Ok s' → x ∈ db_rows s' ↔ ∃ r, r ∈ db_rows s ∧ x = updated p f r.
Proof. intros ->%update_rows. rewrite list_elem_of_fmap. naive_solver. Qed.

Lemma delete_elem (s s' : store S) p x :
  db_delete s p = Ok s' → x ∈ db_rows s' ↔ x ∈ db_rows s ∧ p x = false.
Proof.
  intros Hs%delete_rows. rewrite (elem_of_keep_perm _ _ _ _ Hs), negb_true_iff. tauto.
Qed.
End store_facts.

(** ** A table in memory *)

Section mem_store.
Context {Row Key : Type} `{EqDecision Key} (key : Row → Key).

Definition mem_store : Store Row Key :=
  {| store := list Row;
     row_key := key;
     db_rows s := s;
     db_find s p := Ok (keep p s);
     db_first s p := match keep p s with r :: _ => Ok r | [] => Err RecordNotFound end;
     db_create s r := if bool_decide (key r ∈ key <$> s) then Err DuplicatedKey
                      else Ok (r :: s);
     db_update s p f := Ok (updated p f <$> s);
     db_delete s p := Ok (keep (λ r, negb (p r)) s) |}.

Lemma mem_store_laws : StoreLaws mem_store.
Proof.
  split; simpl.
  - by intros s p l [= <-].
  - intros s p r Hr. destruct (keep p s) as [|x l] eqn:E; simplify_eq/=.
    assert (r ∈ keep p s) as Hin by (rewrite E; left). apply elem_of_keep in Hin. tauto.
  - intros s p Hn r Hr. destruct (keep p s) as [|x l] eqn:E; simplify_eq/=.
    destruct (p r) eqn:Ep; [|done].
    assert (r ∈ keep p s) as Hin by (by apply elem_of_keep). rewrite E in Hin.
    by apply not_elem_of_nil in Hin.
  - intros s s' r Hs. by case_bool_decide; simplify_eq.
  - intros s s' r Hs. by case_bool_decide; simplify_eq.
  - by intros s s' p f [= <-].
  - by intros s s' p [= <-].
Qed.
End mem_store.
