(* ===== verification/PromptRules.v ===== *)
(** * Prompt and command heuristics of the terminal parser

    The line-level functions of [internal/bastion/parser/command_parser.go]
    that the command extractor consults: removal of terminal escape sequences,
    recognition of shell prompts, extraction of the command that follows a
    prompt, and the tests that separate commands from output.  Patterns are
    the literals of the source, read by [GoRegexp.compile]. *)

From stdpp Require Import base list strings sets gmap.
From Stdlib Require Import ZArith Lia Ascii.
From S2P Require Import Prelude GoStrings GoRegexp.
Local Open Scope Z_scope.

(** ** Escape sequences *)

Definition ansi_simple_re : re := Eval vm_compute in
  must_compile (txt "\x1b\[[0-9;?]*[a-zA-Z]").
Definition osc_re : re := Eval vm_compute in must_compile (txt "\x1b\][^\x07]*\x07").
Definition esc_re : re := Eval vm_compute in must_compile (txt "\x1b[^[]").

Section heuristics.
Context `{Unicode}.

(** The runes the cleaning keeps: printable, space, tab. *)
Definition clean_rune (r : rune) : bool := is_print r || (r =? 32) || (r =? 9).

Definition stripANSISimple (s : text) : text :=
  let s := replace_all ansi_simple_re [] s in
  let s := replace_all osc_re [] s in
  let s := replace_all esc_re [] s in
  keep clean_rune s.

(** ** Prompts *)

Definition promptPatternSources : list text :=
  [ txt "^[a-zA-Z0-9_-]+@[a-zA-Z0-9_.-]+:[^$#]*[$#]\s*$";
    txt "^[a-zA-Z0-9_-]+@[a-zA-Z0-9_.-]+:~?/?[^$#]*[$#]\s*$";
    txt "^\[[^\]]+@[^\]]+\s+[^\]]+\][$#]\s*$";
    txt "^[a-zA-Z0-9_-]+@[a-zA-Z0-9_:.-]+:\s*$";
    txt "^[a-zA-Z0-9_-]+@[a-zA-Z0-9_.-]+:~\s*$";
    txt "^[a-zA-Z0-9_-]+@[a-zA-Z0-9_.-]+:(/[a-zA-Z0-9_/.-]*)?~?\s*$" ].

Definition simplePromptPatterns : list re := Eval vm_compute in
  (must_compile <$> promptPatternSources).

Definition isPromptPattern (line : text) : bool :=
  if negb (contains line (txt "@")) then false
  else existsb (λ pattern, match_string pattern line) simplePromptPatterns.

Definition containsPromptMarker (line : text) : bool :=
  if negb (contains line (txt "@")) then false
  else
    contains line (txt "$ ") || contains line (txt "# ")
    || contains line (txt "]$ ") || contains line (txt "]# ")
    || has_suffix line (txt "$") || has_suffix line (txt "#")
    || has_suffix line (txt "]$") || has_suffix line (txt "]#").

(** ** The command after the prompt *)

(** Is the marker at [pos] the end of a prompt: an [@] before it, and at most
    one space from the last such [@]. *)
Definition prompt_before (line : text) (pos : nat) : bool :=
  let beforeMarker := take pos line in
  if contains beforeMarker (txt "@") then
    match last_index beforeMarker (txt "@") with
    | Some atPos => count_rune 32 (drop atPos beforeMarker) <=? 1
    | None => false
    end
  else false.

(** The inner loop of [extractCommandFromLine]: the successive occurrences of
    the marker [m] from [idx] on; the last that ends a prompt replaces [acc].
    Each round moves [idx] forward, so [length line + 1] rounds suffice. *)
Fixpoint scan_marker (n : nat) (line m : text) (idx : nat) (acc : option (nat * text))
    : option (nat * text) :=
  match n with
  | O => acc
  | S n =>
      match index (drop idx line) m with
      | None => acc
      | Some off =>
          let pos := (off + idx)%nat in
          scan_marker n line m (pos + length m)
            (if prompt_before line pos then Some (pos, m) else acc)
      end
  end.

Definition markersWithSpace : list text := [txt "]# "; txt "]$ "; txt "# "; txt "$ "].

Definition last_marker (line : text) : option (nat * text) :=
  foldl (λ acc m, scan_marker (S (length line)) line m 0 acc) None markersWithSpace.

(** The tail of the function (markers without a space at the end of the line)
    returns the empty command on every path. *)
Definition extractCommandFromLine (line : text) : text :=
  match last_marker line with
  | Some (lastMarkerPos, lastMarker) =>
      let cmdStart := (lastMarkerPos + length lastMarker)%nat in
      if (length line <=? cmdStart)%nat then []
      else
        let cmd := trim_space (drop cmdStart line) in
        if contains cmd (txt "@") && contains cmd (txt ":") && isPromptPattern cmd then []
        else cmd
  | None => []
  end.

(** ** Output or command *)

Definition outputPrefixes : list text :=
  [ txt "bash:"; txt "sh:"; txt "-bash:"; txt "-sh:"; txt "command not found";
    txt "No such file or directory"; txt "Permission denied" ].

(** The permission column of [ls -l], looked for in the first ten bytes. *)
Definition permission_string (line : text) : bool :=
  match utf8_encode line with
  | b :: _ =>
      ((b =? 100) || (b =? 45) || (b =? 108)) && (10 <? blen line) &&
      (let ten := take 10 (utf8_encode line) in
       3 <=? count_rune 114 ten + count_rune 119 ten + count_rune 120 ten)
  | [] => false
  end.

Definition looksLikeOutput (line : text) : bool :=
  if has_prefix line (txt " ") || has_prefix line [9] then true
  else if has_prefix line (txt "total ") then true
  else if permission_string line then true
  else if has_prefix line (txt "/") && negb (contains line (txt " ")) then true
  else if contains line (txt "@") && has_suffix line (txt ":") then true
  else if existsb (contains line) outputPrefixes then true
  else 200 <? blen line.

Definition commonCommands : list text := txt <$>
  [ "ls"; "cd"; "pwd"; "cat"; "echo"; "grep"; "find"; "ps"; "top"; "df"; "du";
    "mkdir"; "rm"; "cp"; "mv"; "touch"; "chmod"; "chown"; "tar"; "gzip"; "zip";
    "ssh"; "scp"; "curl"; "wget"; "ping"; "netstat"; "ifconfig"; "ip"; "route";
    "systemctl"; "service"; "docker"; "kubectl"; "git"; "npm"; "yarn"; "python";
    "java"; "go"; "make"; "gcc"; "vim"; "nano"; "less"; "more"; "head"; "tail";
    "awk"; "sed"; "sort"; "uniq"; "wc"; "diff"; "vi"; "su"; "sudo" ]%string.

Definition firstWord (line : text) : text :=
  match index line (txt " ") with
  | Some idx => if (0 <? idx)%nat then take idx line else line
  | None => line
  end.

Definition valid_command_rune (ch : rune) : bool :=
  is_lower_ascii ch || is_upper_ascii ch || is_digit ch
  || (ch =? 45) || (ch =? 95) || (ch =? 46) || (ch =? 47) || (ch =? 32).

(** A prompt fragment: [@] and [:] present and nothing but a path after the
    last colon. *)
Definition prompt_fragment (line : text) : bool :=
  contains line (txt "@") && contains line (txt ":") &&
  match last_index line (txt ":") with
  | Some colonIdx =>
      negb (contains (drop (colonIdx + 1) line) (txt " ")) &&
      (negb (contains line (txt " ")) || isPromptPattern line)
  | None => false
  end.

(** [float64(validChars)/float64(len(line)) > 0.8] is, for a length below 100,
    the comparison of the fractions: two distinct ones differ by more than the
    rounding error, and 4/5 itself rounds to the constant. *)
Definition mostly_valid (line : text) : bool :=
  4 * blen line <? 5 * Z.of_nat (length (keep valid_command_rune line)).

Definition looksLikeCommand (line : text) : bool :=
  let line := trim_space line in
  if is_empty line then false
  else if has_prefix line (txt "/") && negb (contains line (txt " ")) then false
  else if prompt_fragment line then false
  else if existsb (text_eqb (firstWord line)) commonCommands then true
  else (blen line <? 100) && negb (looksLikeOutput line) && mostly_valid line.

Definition simpleIgnoreList : list text :=
  txt <$> ["exit"; "logout"; "clear"; "reset"]%string.

Definition shouldIgnoreSimple (cmd : text) : bool :=
  let cmd := trim_space (to_lower cmd) in
  if is_empty cmd then true
  else if contains cmd (txt "^C") || contains cmd (txt "^c") then true
  else if isPromptPattern cmd then true
  else if contains cmd (txt "@") && contains cmd (txt ":") && negb (contains cmd (txt " "))
  then true
  else existsb (text_eqb cmd) simpleIgnoreList.
End heuristics.

(** ** The patterns compile *)

Lemma prompt_patterns_compile :
  forallb (λ p, bool_decide (is_Some (compile p))) promptPatternSources = true.
Proof. vm_compute. reflexivity. Qed.

(** ** The cases of the source's tests *)

Example isPromptPattern_tests :
  (isPromptPattern <$> (txt <$>
    ["root@6eefe58e10e0:"; "root@container123:~"; "root@abc123def456:/root#"; "user@hostname:~$";
     "admin@server:/home/admin#"; "[root@localhost ~]#"; "root@localhost:$"]%string))
  = replicate 7 true ∧
  (isPromptPattern <$> (txt <$>
    ["ls -la"; "cd /home/user"; "pwd"; "whoami"; "echo test@example.com"; "echo hello:"]%string))
  = replicate 6 false.
Proof. vm_compute. done. Qed.

Example looksLikeCommand_tests :
  (looksLikeCommand <$> (txt <$>
    ["ls -la"; "cd /home"; "grep pattern file.txt"; "./my-script.sh"]%string)) = replicate 4 true ∧
  (looksLikeCommand <$> (txt <$>
    ["root@6eefe58e10e0:"; "root@container123:~"; "root@abc123def456:/root#"; "user@hostname:~$";
     ""; "/home/user"; "root@host: "]%string)) = replicate 7 false.
Proof. vm_compute. done. Qed.

Example shouldIgnoreSimple_tests :
  (shouldIgnoreSimple <$> (txt <$>
    ["exit"; "clear"; "reset"; ""; "root@6eefe58e10e0:"; "user@host:~$"; "^C"]%string))
  = replicate 7 true ∧
  (shouldIgnoreSimple <$> (txt <$>
    ["ls -la"; "rm -rf /tmp/test"; "cat /etc/passwd"; "./important-script.sh"]%string))
  = replicate 4 false.
Proof. vm_compute. done. Qed.

Example extractCommandFromLine_tests :
  (extractCommandFromLine <$> (txt <$>
    ["root@host:~# ls -la"; "user@server:/home$ pwd"; "[root@localhost ~]# whoami"; "root@host:~#";
     "user@server:~$"; "root@6eefe58e10e0:#"; "root@host:~# "]%string))
  = (txt <$> ["ls -la"; "pwd"; "whoami"; ""; ""; ""; ""]%string).
Proof. vm_compute. done. Qed.

(** ** Facts the extractor relies on *)

Section heuristics_facts.
Context `{Unicode}.

Lemma stripANSISimple_clean s : Forall (λ r, clean_rune r = true) (stripANSISimple s).
Proof. apply keep_Forall. Qed.

Lemma stripANSISimple_subset s x : x ∈ stripANSISimple s → x ∈ s.
Proof.
  unfold stripANSISimple. intros [Hx _]%elem_of_keep.
  by apply replace_all_delete_subset, replace_all_delete_subset, replace_all_delete_subset in Hx.
Qed.

(** A line without an escape character is only filtered. *)
Lemma esc_needed r s :
  r ∈ [ansi_simple_re; osc_re; esc_re] → 27 ∉ s → match_string r s = false.
Proof.
  intros Hr Hs. apply no_match_first. intros p b q Hmt. exists 27.
  assert (∃ r', r = Cat (Lit 27) r') as [r' ->].
  { rewrite !elem_of_cons, elem_of_nil in Hr.
    destruct Hr as [->|[->|[->|[]]]]; by eexists. }
  inversion Hmt as [| |? ? ? ? ? H1 H2| | | | | | | |]; subst.
  inversion H1 as [|? ? ? x ? Hx| | | | | | | | |]; subst.
  unfold cls_match in Hx. simpl in Hx. rewrite orb_false_r in Hx.
  apply in_range_spec in Hx. assert (x = 27) as -> by lia. eauto.
Qed.

Lemma stripANSISimple_plain s : 27 ∉ s → stripANSISimple s = keep clean_rune s.
Proof.
  intros Hs. unfold stripANSISimple.
  rewrite (replace_all_no_match ansi_simple_re) by (apply esc_needed; [set_solver|done]).
  rewrite (replace_all_no_match osc_re) by (apply esc_needed; [set_solver|done]).
  by rewrite (replace_all_no_match esc_re) by (apply esc_needed; [set_solver|done]).
Qed.

(** Cleaning is idempotent: no escape character survives it. *)
Lemma stripANSISimple_idemp s :
  stripANSISimple (stripANSISimple s) = stripANSISimple s.
Proof.
  rewrite stripANSISimple_plain; [apply keep_id, stripANSISimple_clean|].
  intros Hin. pose proof (stripANSISimple_clean s) as HF.
  rewrite Forall_forall in HF. by apply HF in Hin.
Qed.

Lemma extractCommandFromLine_trimmed line : trimmed (extractCommandFromLine line).
Proof.
  unfold extractCommandFromLine.
  assert (trimmed []) as Hnil by done.
  destruct (last_marker line) as [[i m]|]; [|done].
  repeat case_match; auto using trim_space_trimmed.
Qed.

Lemma extractCommandFromLine_subset line x : x ∈ extractCommandFromLine line → x ∈ line.
Proof.
  unfold extractCommandFromLine.
  destruct (last_marker line) as [[i m]|]; [|by intros ?%not_elem_of_nil].
  repeat case_match; try (by intros ?%not_elem_of_nil).
  intros Hx%trim_space_subset. by apply (subseteq_drop (i + length m)) in Hx.
Qed.

Lemma shouldIgnoreSimple_nil : shouldIgnoreSimple [] = true.
Proof. done. Qed.
End heuristics_facts.

(** ** A prompt followed by a command *)

Section prompt_line.
(** [pre @ mid m cmd], the shape of [user@host:path# cmd] and
    [[user@host path]$ cmd]: the marker [m] does not occur elsewhere, and at
    most one space separates the [@] from it. *)
Context (pre mid cmd : text) (m : rune).
Hypothesis Hm : m = 35 ∨ m = 36.
Hypothesis Hpre : 35 ∉ pre ∧ 36 ∉ pre.
Hypothesis Hmid : 35 ∉ mid ∧ 36 ∉ mid ∧ 64 ∉ mid.
Hypothesis Hcmd : 35 ∉ cmd ∧ 36 ∉ cmd ∧ 64 ∉ cmd.
Hypothesis Hspaces : count_rune 32 mid <= 1.

Definition prompt_line : text := (pre ++ 64 :: mid) ++ [m; 32] ++ cmd.

Notation head_len := (length (pre ++ 64 :: mid)).

Lemma take_head : take head_len prompt_line = pre ++ 64 :: mid.
Proof. unfold prompt_line. by rewrite take_app_length. Qed.

Lemma drop_head : drop (head_len + 2) prompt_line = cmd.
Proof.
  unfold prompt_line. rewrite <- drop_drop, drop_app_length. done.
Qed.

Lemma last_index_last (a b : text) x : x ∉ b → last_index (a ++ x :: b) [x] = Some (length a).
Proof.
  intros Hb. induction a as [|y a IH]; cbn [app last_index length].
  - assert (last_index b [x] = None) as ->.
    { clear -Hb. induction b as [|y b IH]; [done|]. cbn [last_index].
      rewrite IH by set_solver. unfold has_prefix. cbn [strip_prefix].
      rewrite (proj2 (Z.eqb_neq x y)); [done|]. intros ->. set_solver. }
    unfold has_prefix. cbn [fmap option_fmap option_map strip_prefix].
    by rewrite Z.eqb_refl.
  - by rewrite IH.
Qed.

Lemma prompt_before_head : prompt_before prompt_line head_len = true.
Proof.
  unfold prompt_before. rewrite take_head.
  change (txt "@") with [64].
  rewrite contains_singleton, (proj2 (contains_rune_spec _ _)) by set_solver.
  rewrite last_index_last, drop_app_length by apply Hmid.
  unfold count_rune in *. cbn [keep].
  by apply Z.leb_le.
Qed.

Lemma scan_marker_absent n line mk x acc :
  x ∈ mk → x ∉ line → scan_marker n line mk 0 acc = acc.
Proof.
  intros Hx Hl. destruct n as [|n]; [done|]. cbn [scan_marker]. rewrite drop_0.
  pose proof (not_contains_rune line mk x Hx Hl) as Hc. unfold contains in Hc.
  by destruct (index line mk).
Qed.

Lemma scan_marker_head n acc :
  scan_marker (S (S n)) prompt_line [m; 32] 0 acc = Some (head_len, [m; 32]).
Proof.
  cbn [scan_marker]. rewrite drop_0.
  assert (index prompt_line [m; 32] = Some head_len) as ->.
  { unfold prompt_line. rewrite index_skip by (destruct Hm as [-> | ->]; set_solver).
    rewrite index_hit. simpl. by rewrite Nat.add_0_r. }
  rewrite Nat.add_0_r, prompt_before_head. change (length [m; 32]) with 2%nat.
  rewrite drop_head.
  assert (index cmd [m; 32] = None) as ->; [|done].
  apply index_None. intros a b Hab. destruct Hm; subst m; rewrite Hab in Hcmd; set_solver.
Qed.

Lemma other_marker_absent :
  (71 - m) ∉ prompt_line.
Proof.
  unfold prompt_line. destruct Hm; subst m; simpl; set_solver by lia.
Qed.

Lemma last_marker_prompt_line : last_marker prompt_line = Some (head_len, [m; 32]).
Proof.
  unfold last_marker, markersWithSpace. cbn [foldl].
  change (txt "]# ") with [93; 35; 32]. change (txt "]$ ") with [93; 36; 32].
  change (txt "# ") with [35; 32]. change (txt "$ ") with [36; 32].
  assert (∃ n, length prompt_line = S n) as [n ->].
  { unfold prompt_line. rewrite !length_app. simpl. eexists. by rewrite <- plus_n_Sm. }
  pose proof other_marker_absent as Ho. destruct Hm as [E|E].
  - rewrite (scan_marker_absent _ prompt_line [36; 32] 36) by (first [set_solver | rewrite E in Ho; exact Ho]).
    rewrite <- E. apply scan_marker_head.
  - rewrite (scan_marker_absent _ prompt_line [35; 32] 35) by (first [set_solver | rewrite E in Ho; exact Ho]).
    rewrite <- E. apply scan_marker_head.
Qed.

(** The command is found, whatever precedes it on the line. *)
Lemma extract_prompt_line `{Unicode} : extractCommandFromLine prompt_line = trim_space cmd.
Proof.
  unfold extractCommandFromLine. rewrite last_marker_prompt_line.
  change (length [m; 32]) with 2%nat. rewrite drop_head.
  assert (contains (trim_space cmd) (txt "@") = false) as ->.
  { change (txt "@") with [64]. apply (not_contains_rune _ _ 64); [set_solver|].
    intros Hin%trim_space_subset. set_solver. }
  cbn [andb]. case_match eqn:E; [|done]. apply Nat.leb_le in E.
  assert (cmd = []) as ->; [|done].
  unfold prompt_line in E. rewrite !length_app in E. simpl in E.
  destruct cmd; [done|]. simpl in E. lia.
Qed.

Lemma marker_prompt_line : containsPromptMarker prompt_line = true.
Proof.
  unfold containsPromptMarker. change (txt "@") with [64].
  rewrite contains_singleton, (proj2 (contains_rune_spec _ _)).
  - cbn [negb]. assert (contains prompt_line [m; 32] = true) as Hc.
    { apply contains_spec. unfold prompt_line. eauto. }
    change (txt "$ ") with [36; 32]. change (txt "# ") with [35; 32].
    destruct Hm as [E|E]; rewrite E in Hc; rewrite Hc, ?orb_true_r; done.
  - unfold prompt_line. set_solver.
Qed.
End prompt_line.
