(* ===== verification/CommandExtractor.v ===== *)
(** * The command extractor

    [parser.CommandExtractor] of [internal/bastion/parser/command_parser.go]:
    it reads the output stream of a terminal and reports the commands the user
    ran.  [feed_step] is one round of the loop of [Feed], [processLine] the
    handling of a completed line; the commands given to the callback are
    returned in order next to the new state. *)

From stdpp Require Import base list strings sets gmap.
From Stdlib Require Import ZArith Lia Ascii.
From S2P Require Import Prelude GoStrings GoRegexp PromptRules.
Local Open Scope Z_scope.

(** ** State *)

Record CommandExtractor := {
  lines : list text;          (* collected output lines *)
  lineBuffer : text;          (* the current line *)
  onCommandFunc : bool;       (* a callback is set *)
  waitingForCommand : bool    (* a bare prompt was seen *)
}.

Definition NewCommandExtractor (onCommand : bool) : CommandExtractor :=
  {| lines := []; lineBuffer := []; onCommandFunc := onCommand; waitingForCommand := false |}.

Definition set_buffer (e : CommandExtractor) (b : text) : CommandExtractor :=
  {| lines := lines e; lineBuffer := b; onCommandFunc := onCommandFunc e;
     waitingForCommand := waitingForCommand e |}.

Definition set_waiting (e : CommandExtractor) (w : bool) : CommandExtractor :=
  {| lines := lines e; lineBuffer := lineBuffer e; onCommandFunc := onCommandFunc e;
     waitingForCommand := w |}.

Definition set_lines (e : CommandExtractor) (l : list text) : CommandExtractor :=
  {| lines := l; lineBuffer := lineBuffer e; onCommandFunc := onCommandFunc e;
     waitingForCommand := waitingForCommand e |}.

(** Writing runes to the buffer replaces the invalid ones. *)
Definition writable (r : rune) : rune := if rune_valid r then r else rune_error.

(** The most recent 20 lines are kept. *)
Definition save_line (e : CommandExtractor) (line : text) : CommandExtractor :=
  let ls := lines e ++ [line] in
  set_lines e (if (20 <? length ls)%nat then drop (length ls - 20) ls else ls).

Definition notify (e : CommandExtractor) (cmd : text) : list text :=
  if onCommandFunc e then [cmd] else [].

(** ** Skipping escape sequences *)

Definition is_letter (r : rune) : bool := is_upper_ascii r || is_lower_ascii r.

(** After [ESC [], up to and including the closing letter. *)
Definition skip_csi (rs : text) : text := tail (drop_while (λ r, negb (is_letter r)) rs).

(** After [ESC ]], up to BEL (included) or the end of the line (excluded). *)
Definition skip_osc (rs : text) : text :=
  match drop_while (λ r, negb ((r =? 7) || (r =? 13) || (r =? 10))) rs with
  | 7 :: rs => rs
  | rs => rs
  end.

(** What follows an ESC. *)
Definition skip_escape (rs : text) : text :=
  match rs with
  | [] => []
  | 91 :: rs => skip_csi rs
  | 93 :: rs => skip_osc rs
  | _ :: rs => rs
  end.

(** After a backspace: an escape sequence that follows is skipped with it. *)
Definition skip_after_backspace (rs : text) : text :=
  match rs with
  | 27 :: 91 :: rs => skip_csi rs
  | 27 :: rs => rs
  | _ => rs
  end.

(** ** Lines *)

Section extractor.
Context `{Unicode}.

(** The decision on a cleaned, non-empty line: the new waiting flag and the
    command to report. *)
Definition classify_line (waiting : bool) (cleanLine : text) : bool * option text :=
  if containsPromptMarker cleanLine then
    let cmd := extractCommandFromLine cleanLine in
    if negb (is_empty cmd) && negb (shouldIgnoreSimple cmd) then (false, Some cmd)
    else if negb (is_empty cmd) && shouldIgnoreSimple cmd then (false, None)
    else (true, None)
  else if waiting then
    let isOutput := looksLikeOutput cleanLine in
    let isIgnored := shouldIgnoreSimple cleanLine in
    let isCommand := looksLikeCommand cleanLine in
    if isOutput then (false, None)
    else if isIgnored then (false, None)
    else if isCommand then (false, Some cleanLine)
    else (false, None)
  else (waiting, None).

Definition processLine (e : CommandExtractor) : CommandExtractor * list text :=
  let line := lineBuffer e in
  let e := set_buffer e [] in
  if is_empty line then (e, [])
  else
    let cleanLine := trim_space (stripANSISimple line) in
    if is_empty cleanLine then (e, [])
    else
      let '(waiting, cmd) := classify_line (waitingForCommand e) cleanLine in
      (save_line (set_waiting e waiting) cleanLine,
       match cmd with Some c => notify e c | None => [] end).

(** ** The loop of [Feed]

    One round on a non-empty input: the new state and the commands reported
    ([feed_step]), and the input left ([feed_rest]). *)
Definition feed_step (e : CommandExtractor) (ch : rune) : CommandExtractor * list text :=
  if ch =? 13 then (e, [])
  else if ch =? 10 then processLine e
  else if (ch =? 8) || (ch =? 127) then (set_buffer e (removelast (lineBuffer e)), [])
  else if ch =? 27 then (e, [])
  else if ch =? 3 then (set_buffer e [], [])
  else (set_buffer e (lineBuffer e ++ [writable ch]), []).

Definition feed_rest (ch : rune) (rs : text) : text :=
  if (ch =? 8) || (ch =? 127) then skip_after_backspace rs
  else if ch =? 27 then skip_escape rs
  else rs.

Fixpoint feed_loop (n : nat) (e : CommandExtractor) (rs : text) : CommandExtractor * list text :=
  match n, rs with
  | S n, ch :: rs =>
      let '(e, out) := feed_step e ch in
      let '(e, out') := feed_loop n e (feed_rest ch rs) in
      (e, out ++ out')
  | _, _ => (e, [])
  end.

(** [Feed]: every round reads at least one rune, so as many rounds as there are
    runes are enough ([Feed_cons] below). *)
Definition Feed (e : CommandExtractor) (data : text) : CommandExtractor * list text :=
  feed_loop (length data) e data.

End extractor.

(** ** The session of the source's tests *)

Definition crlf : text := [13; 10].

Example feed_session :
  snd (Feed (NewCommandExtractor true)
    (txt "root@host:~# ls -la" ++ crlf ++ txt "total 8" ++ crlf ++ txt "root@host:~# pwd" ++ crlf
     ++ txt "/root" ++ crlf ++ txt "root@host:~# ")) = [txt "ls -la"; txt "pwd"].
Proof. vm_compute. reflexivity. Qed.

Example feed_clear_screen :
  snd (Feed (NewCommandExtractor true)
    (txt "root@6eefe58e10e0:# ls" ++ crlf ++ txt "file1 file2" ++ crlf
     ++ txt "root@6eefe58e10e0:# " ++ 27 :: txt "[H" ++ 27 :: txt "[2J"
     ++ txt "root@6eefe58e10e0:# pwd" ++ crlf ++ txt "/root" ++ crlf)) = [txt "ls"; txt "pwd"].
Proof. vm_compute. reflexivity. Qed.

Example feed_only_prompts :
  snd (Feed (NewCommandExtractor true)
    (txt "root@host:~# " ++ crlf ++ txt "root@host:~# " ++ crlf)) = [].
Proof. vm_compute. reflexivity. Qed.

(** ** The loop terminates and reads everything *)

Section extractor_facts.
Context `{Unicode}.
Implicit Types (e : CommandExtractor) (rs : text).

Lemma length_tail_le (l : text) : (length (tail l) ≤ length l)%nat.
Proof. destruct l; simpl; lia. Qed.

Lemma skip_csi_length rs : (length (skip_csi rs) ≤ length rs)%nat.
Proof.
  unfold skip_csi. pose proof (length_tail_le (drop_while (λ r, negb (is_letter r)) rs)).
  pose proof (drop_while_length (λ r, negb (is_letter r)) rs). lia.
Qed.

Lemma skip_osc_length rs : (length (skip_osc rs) ≤ length rs)%nat.
Proof.
  unfold skip_osc.
  pose proof (drop_while_length (λ r, negb ((r =? 7) || (r =? 13) || (r =? 10))) rs) as Hl.
  repeat case_match; simpl in *; lia.
Qed.

Lemma skip_escape_length rs : (length (skip_escape rs) ≤ length rs)%nat.
Proof.
  unfold skip_escape. destruct rs as [|x rs]; [done|].
  pose proof (skip_csi_length rs). pose proof (skip_osc_length rs).
  repeat case_match; simpl; lia.
Qed.

Lemma skip_after_backspace_length rs : (length (skip_after_backspace rs) ≤ length rs)%nat.
Proof.
  unfold skip_after_backspace. destruct rs as [|x [|y rs]]; [done| |].
  - repeat case_match; simpl; lia.
  - pose proof (skip_csi_length rs). repeat case_match; simpl; lia.
Qed.

Lemma feed_rest_length ch rs : (length (feed_rest ch rs) ≤ length rs)%nat.
Proof.
  unfold feed_rest.
  repeat case_match; auto using skip_escape_length, skip_after_backspace_length.
Qed.

Lemma feed_loop_fuel n e rs : (length rs ≤ n)%nat → feed_loop n e rs = Feed e rs.
Proof.
  unfold Feed. remember (length rs) as m eqn:Hm. revert n e rs Hm.
  induction (lt_wf m) as [m _ IH]. intros n e rs -> Hn.
  destruct rs as [|ch rs]; [by destruct n|]. destruct n as [|n]; simpl in *; [lia|].
  destruct (feed_step e ch) as [e1 out]. pose proof (feed_rest_length ch rs).
  rewrite (IH (length (feed_rest ch rs))) by lia.
  by rewrite (IH (length (feed_rest ch rs)) ltac:(lia) (length rs)) by lia.
Qed.

(** [Feed] without its bound: the first rune, then the rest. *)
Lemma Feed_cons e ch rs :
  Feed e (ch :: rs) =
    (let '(e1, out) := feed_step e ch in
     let '(e2, out') := Feed e1 (feed_rest ch rs) in (e2, out ++ out')).
Proof.
  unfold Feed at 1. cbn [length feed_loop]. destruct (feed_step e ch) as [e1 out].
  rewrite feed_loop_fuel; [done|]. apply feed_rest_length.
Qed.

(** Induction on the rounds of [Feed]. *)
Lemma feed_ind (P : text → Prop) :
  P [] → (∀ ch rs, P (feed_rest ch rs) → P (ch :: rs)) → ∀ rs, P rs.
Proof.
  intros Hnil Hcons rs. remember (length rs) as n eqn:Hn. revert rs Hn.
  induction (lt_wf n) as [n _ IH]. intros [|ch rs] ->; [done|]. apply Hcons.
  eapply IH; [|done]. pose proof (feed_rest_length ch rs). simpl. lia.
Qed.

(** ** Invariants of the state *)

(** At most 20 lines are remembered, and the buffer holds valid runes. *)
Definition extractor_ok e : Prop :=
  (length (lines e) ≤ 20)%nat ∧ Forall (λ r, rune_valid r = true) (lineBuffer e).

Lemma save_line_ok e line :
  extractor_ok e → extractor_ok (save_line e line).
Proof.
  intros [Hl Hb]. split; [|done]. unfold save_line. cbn [lines set_lines].
  case_match eqn:E; [rewrite length_drop; lia|]. apply Nat.ltb_ge in E. lia.
Qed.

Lemma set_buffer_ok e b :
  extractor_ok e → Forall (λ r, rune_valid r = true) b → extractor_ok (set_buffer e b).
Proof. by intros [? _]. Qed.

Lemma set_waiting_ok e w : extractor_ok e → extractor_ok (set_waiting e w).
Proof. by intros [? ?]. Qed.

Lemma processLine_ok e : extractor_ok e → extractor_ok (fst (processLine e)).
Proof.
  intros He. unfold processLine. repeat case_match; simpl;
    auto using save_line_ok, set_waiting_ok, set_buffer_ok.
Qed.

Lemma writable_valid r : rune_valid (writable r) = true.
Proof. unfold writable. by destruct (rune_valid r) eqn:?. Qed.

Lemma Forall_removelast {A} (P : A → Prop) l : Forall P l → Forall P (removelast l).
Proof. induction 1 as [|x l Hx HF IH]; [done|]. destruct l; [done|]. by constructor. Qed.

Lemma feed_step_ok e ch : extractor_ok e → extractor_ok (fst (feed_step e ch)).
Proof.
  intros He. unfold feed_step. repeat case_match; simpl; auto using processLine_ok, set_buffer_ok.
  - apply set_buffer_ok; [done|]. apply Forall_removelast, He.
  - apply set_buffer_ok; [done|]. apply Forall_app. split; [apply He|].
    constructor; [apply writable_valid|done].
Qed.

(** [Feed] preserves the invariant of the extractor on every input: the
    debug window never exceeds 20 lines and the line buffer is valid UTF-8. *)
Theorem Feed_preserves_ok e rs : extractor_ok e → extractor_ok (fst (Feed e rs)).
Proof.
  revert e. induction rs as [|ch rs IH] using feed_ind; intros e He; [done|].
  rewrite Feed_cons. pose proof (feed_step_ok e ch He).
  destruct (feed_step e ch) as [e1 out]. specialize (IH e1).
  destruct (Feed e1 _) as [e2 out']. auto.
Qed.

(** ** What is reported *)

(** A command worth an audit record: not blank, no space around it, not one of
    the ignored commands, no prompt, printable. *)
Definition reportable (c : text) : Prop :=
  c ≠ [] ∧ trimmed c ∧ shouldIgnoreSimple c = false ∧ Forall (λ r, clean_rune r = true) c.

Lemma classify_line_reportable w line w' c :
  line ≠ [] → trimmed line → Forall (λ r, clean_rune r = true) line →
  classify_line w line = (w', Some c) → reportable c.
Proof.
  intros Hne Ht HF. unfold classify_line.
  destruct (containsPromptMarker line).
  - destruct (negb (is_empty _) && negb _) eqn:E1; 
      [|destruct (negb _ && shouldIgnoreSimple _); congruence].
    intros [= _ <-]. prop_bools. split; [by intros Hnil; rewrite Hnil in *|].
    split; [apply extractCommandFromLine_trimmed|]. split; [done|].
    apply Forall_forall. intros x Hx%extractCommandFromLine_subset.
    rewrite Forall_forall in HF. by apply HF.
  - destruct w; [|congruence]. destruct (looksLikeOutput line); [congruence|].
    destruct (shouldIgnoreSimple line) eqn:Hi; [congruence|].
    destruct (looksLikeCommand line); [|congruence].
    intros [= _ <-]. by split_and!.
Qed.

Lemma processLine_reportable e : Forall reportable (snd (processLine e)).
Proof.
  unfold processLine. case_match; [constructor|]. case_match eqn:Hcl; [constructor|].
  set (cl := trim_space (stripANSISimple (lineBuffer e))) in *.
  destruct (classify_line _ cl) as [w' [c|]] eqn:E; simpl; [|constructor].
  unfold notify. case_match; [|constructor]. constructor; [|constructor].
  eapply classify_line_reportable; [|apply trim_space_trimmed| |exact E].
  - intros Hnil. unfold cl in Hcl. by rewrite Hnil in Hcl.
  - apply Forall_forall. intros x Hx%trim_space_subset.
    pose proof (stripANSISimple_clean (lineBuffer e)) as HF.
    rewrite Forall_forall in HF. by apply HF.
Qed.

Lemma feed_step_reportable e ch : Forall reportable (snd (feed_step e ch)).
Proof.
  unfold feed_step. repeat case_match; simpl; auto using processLine_reportable.
Qed.

(** Whatever the terminal prints, every command [Feed] gives to the audit
    callback is non-blank, trimmed, printable (all escape sequences removed),
    and is neither a prompt nor one of the ignored commands. *)
Theorem Feed_reports_reportable e rs : Forall reportable (snd (Feed e rs)).
Proof.
  revert e. induction rs as [|ch rs IH] using feed_ind; intros e; [constructor|].
  rewrite Feed_cons. pose proof (feed_step_reportable e ch).
  destruct (feed_step e ch) as [e1 out]. specialize (IH e1).
  destruct (Feed e1 _) as [e2 out']. by apply Forall_app.
Qed.

Lemma processLine_one e : (length (snd (processLine e)) ≤ 1)%nat.
Proof. unfold processLine, notify. repeat case_match; simpl; lia. Qed.

Definition newlines (rs : text) : nat := length (keep (Z.eqb 10) rs).

Lemma drop_while_newlines f rs : (newlines (drop_while f rs) ≤ newlines rs)%nat.
Proof.
  destruct (drop_while_suffix f rs) as (k & Hk & _). unfold newlines. rewrite Hk at 2.
  rewrite keep_app, length_app. lia.
Qed.

Lemma newlines_cons x rs : (newlines rs ≤ newlines (x :: rs))%nat.
Proof. unfold newlines. cbn [keep]. case_match; simpl; lia. Qed.

Lemma skip_newlines rs :
  (newlines (skip_csi rs) ≤ newlines rs)%nat ∧ (newlines (skip_osc rs) ≤ newlines rs)%nat.
Proof.
  split.
  - unfold skip_csi. pose proof (drop_while_newlines (λ r, negb (is_letter r)) rs) as Hd.
    destruct (drop_while _ rs) as [|x l]; [done|]. simpl.
    pose proof (newlines_cons x l). lia.
  - unfold skip_osc.
    pose proof (drop_while_newlines (λ r, negb ((r =? 7) || (r =? 13) || (r =? 10))) rs) as Hd.
    destruct (drop_while _ rs) as [|x l]; [done|]. pose proof (newlines_cons x l).
    repeat case_match; lia.
Qed.

Lemma feed_rest_newlines ch rs : (newlines (feed_rest ch rs) ≤ newlines rs)%nat.
Proof.
  unfold feed_rest, skip_after_backspace, skip_escape.
  destruct rs as [|x rs]; [by repeat case_match|]. pose proof (newlines_cons x rs).
  pose proof (skip_newlines rs) as [? ?].
  destruct rs as [|y rs]; [repeat case_match; lia|]. pose proof (newlines_cons y rs).
  pose proof (skip_newlines rs) as [? ?]. repeat case_match; lia.
Qed.

(** At most one command is reported per line feed of the terminal output;
    in particular nothing is reported before the line is complete. *)
Theorem Feed_reports_bounded e rs : (length (snd (Feed e rs)) ≤ newlines rs)%nat.
Proof.
  revert e. induction rs as [|ch rs IH] using feed_ind; intros e; [done|].
  rewrite Feed_cons. destruct (feed_step e ch) as [e1 out] eqn:E. specialize (IH e1).
  pose proof (feed_rest_newlines ch rs).
  assert (length out + newlines rs ≤ newlines (ch :: rs))%nat.
  { unfold newlines. cbn [keep]. unfold feed_step in E.
    pose proof (processLine_one e). destruct (Z.eqb_spec 10 ch) as [<-|Hne].
    - simpl in E. rewrite E in *. simpl in *. lia.
    - rewrite (proj2 (Z.eqb_neq ch 10)) in E by done.
      repeat case_match; simplify_eq/=; lia. }
  destruct (Feed e1 _) as [e2 out']. simpl in *. rewrite length_app. lia.
Qed.

(** ** A command typed at a prompt is reported *)

(** A rune [Feed] simply appends to the line. *)
Definition plain (r : rune) : bool :=
  negb ((r =? 13) || (r =? 10) || (r =? 8) || (r =? 127) || (r =? 27) || (r =? 3))
  && rune_valid r.

Lemma plain_step e ch rs :
  plain ch = true →
  feed_step e ch = (set_buffer e (lineBuffer e ++ [ch]), []) ∧ feed_rest ch rs = rs.
Proof.
  unfold plain, feed_step, feed_rest, writable. intros [Hc ->]%andb_prop.
  apply negb_true_iff in Hc.
  repeat match type of Hc with
  | _ || _ = false => apply orb_false_elim in Hc as [Hc ->]
  end.
  by rewrite Hc.
Qed.

Lemma Feed_plain e s rs :
  Forall (λ r, plain r = true) s →
  Feed e (s ++ rs) = Feed (set_buffer e (lineBuffer e ++ s)) rs.
Proof.
  intros HF. revert e. induction HF as [|ch s Hch _ IH]; intros e; cbn [app].
  - rewrite app_nil_r. by destruct e.
  - rewrite Feed_cons. destruct (plain_step e ch (s ++ rs) Hch) as [-> ->].
    rewrite IH. destruct e. unfold set_buffer. simpl. rewrite <- app_assoc. simpl.
    by destruct (Feed _ rs).
Qed.

Lemma Feed_crlf e rs :
  Feed e (crlf ++ rs) =
    (let '(e1, out) := processLine e in let '(e2, out') := Feed e1 rs in (e2, out ++ out')).
Proof.
  unfold crlf. cbn [app]. rewrite Feed_cons. cbn [feed_step Z.eqb Pos.eqb].
  change (feed_rest 13 (10 :: rs)) with (10 :: rs). rewrite Feed_cons.
  change (feed_step e 10) with (processLine e). change (feed_rest 10 rs) with rs.
  destruct (processLine e) as [e1 out]. by destruct (Feed e1 rs).
Qed.

Lemma Feed_nil e : Feed e [] = (e, []).
Proof. done. Qed.

(** A line [pre @ mid # cmd] or [pre @ mid $ cmd] (the shapes
    [user@host:path# cmd] and [[user@host path]$ cmd]) fed to an extractor at
    the start of a line is reported to the callback as exactly [cmd], once, when
    the line ends, unless the command is one of the ignored ones; the extractor
    is then ready for the next line. *)
Theorem Feed_prompt_line e pre mid cmd m :
  m = 35 ∨ m = 36 →
  35 ∉ pre ∧ 36 ∉ pre → 35 ∉ mid ∧ 36 ∉ mid ∧ 64 ∉ mid → 35 ∉ cmd ∧ 36 ∉ cmd ∧ 64 ∉ cmd →
  count_rune 32 mid <= 1 →
  (∀ x, head pre = Some x → is_space x = false) →
  Forall (λ r, plain r = true ∧ clean_rune r = true) (prompt_line pre mid cmd m) →
  trimmed cmd → cmd ≠ [] → shouldIgnoreSimple cmd = false →
  lineBuffer e = [] → onCommandFunc e = true →
  ∃ e', Feed e (prompt_line pre mid cmd m ++ crlf) = (e', [cmd]) ∧
        lineBuffer e' = [] ∧ waitingForCommand e' = false.
Proof.
  intros Hm Hpre Hmid Hcmd Hsp Hhead HF Htr Hne Hig Hbuf Hcb.
  set (line := prompt_line pre mid cmd m) in *.
  assert (Forall (λ r, plain r = true) line) as HFp by (eapply Forall_impl; [exact HF|]; by intros ? [? ?]).
  rewrite <- (app_nil_r crlf), Feed_plain, Feed_crlf, Hbuf by done. cbn [app].
  assert (trim_space (stripANSISimple line) = line) as Hclean.
  { rewrite stripANSISimple_plain, keep_id.
    - apply trimmed_id. split.
      + unfold line, prompt_line. intros x. destruct pre; simpl; [by intros [= <-]|apply Hhead].
      + unfold line, prompt_line. rewrite !rev_app_distr. intros x Hx. apply Htr.
        destruct (rev cmd) eqn:E; [|done]. exfalso. apply Hne.
        by rewrite <- (rev_involutive cmd), E.
    - eapply Forall_impl; [exact HF|]. by intros ? [? ?].
    - rewrite Forall_forall in HFp. intros Hin. by apply HFp in Hin. }
  assert (line ≠ []) as Hl by (unfold line, prompt_line; by destruct pre).
  assert (∀ x : text, x ≠ [] → is_empty x = false) as Hemp by by intros [|].
  unfold processLine. cbn [lineBuffer set_buffer]. rewrite Hclean, Hemp by done.
  unfold classify_line, line. rewrite marker_prompt_line by done.
  rewrite extract_prompt_line, trimmed_id by done. fold line.
  rewrite Hemp, Hig by done. cbn [negb andb].
  rewrite Feed_nil, app_nil_r. eexists. split.
  - unfold notify. cbn [onCommandFunc set_buffer]. by rewrite Hcb.
  - done.
Qed.

(** ** Line editing *)

(** A rune typed and erased leaves no trace: feeding it followed by a
    backspace (not glued to an escape sequence) is the same as feeding neither. *)
Theorem Feed_backspace_undo e r b rs :
  plain r = true → b = 8 ∨ b = 127 → head rs ≠ Some 27 →
  Feed e (r :: b :: rs) = Feed e rs.
Proof.
  intros Hr Hb Hrs.
  rewrite Feed_cons. destruct (plain_step e r (b :: rs) Hr) as [-> ->].
  rewrite Feed_cons.
  assert (feed_step (set_buffer e (lineBuffer e ++ [r])) b
          = (set_buffer e (lineBuffer e), []) ∧ feed_rest b rs = rs) as [-> ->].
  { assert (skip_after_backspace rs = rs) as Hskip.
    { destruct rs as [|x rs]; [done|]. unfold skip_after_backspace.
      repeat case_match; simplify_eq; try done; by destruct Hrs. }
    unfold feed_step, feed_rest. rewrite Hskip.
    destruct Hb as [-> | ->]; cbn [lineBuffer set_buffer Z.eqb Pos.eqb orb];
      by rewrite removelast_last. }
  destruct e as [ls b' cb w]. unfold set_buffer. simpl. by destruct (Feed _ rs).
Qed.

(** Ctrl-C discards the line: what was typed before it is never reported. *)
Theorem Feed_ctrl_c e s rs :
  Forall (λ r, plain r = true) s → lineBuffer e = [] →
  Feed e (s ++ 3 :: rs) = Feed e rs.
Proof.
  intros HF Hb. rewrite Feed_plain, Feed_cons by done.
  change (feed_rest 3 rs) with rs. cbn -[set_buffer Feed].
  destruct e as [ls b cb w]. simpl in *. subst b. unfold set_buffer. simpl.
  by destruct (Feed _ rs).
Qed.

(** ** Chunks

    [Feed] is called once per read of the connection.  A chunk is [complete]
    when no escape sequence (and no backspace, whose escape sequence may follow)
    is open at its end. *)

Definition csi_closed (rs : text) : bool := existsb is_letter rs.
Definition osc_closed (rs : text) : bool :=
  existsb (λ r, (r =? 7) || (r =? 13) || (r =? 10)) rs.

Definition escape_closed (rs : text) : bool :=
  match rs with
  | [] => false
  | 91 :: rs => csi_closed rs
  | 93 :: rs => osc_closed rs
  | _ :: _ => true
  end.

Definition backspace_closed (rs : text) : bool :=
  match rs with
  | [] => false
  | [27] => false
  | 27 :: 91 :: rs => csi_closed rs
  | _ => true
  end.

Definition rest_closed (ch : rune) (rs : text) : bool :=
  if (ch =? 8) || (ch =? 127) then backspace_closed rs
  else if ch =? 27 then escape_closed rs
  else true.

Fixpoint complete_loop (n : nat) (rs : text) : bool :=
  match n, rs with
  | S n, ch :: rs => rest_closed ch rs && complete_loop n (feed_rest ch rs)
  | _, _ => true
  end.

Definition complete (rs : text) : bool := complete_loop (length rs) rs.

Lemma drop_while_closed f (rs b : text) :
  existsb (λ r, negb (f r)) rs = true →
  drop_while f (rs ++ b) = drop_while f rs ++ b ∧ drop_while f rs ≠ [].
Proof.
  induction rs as [|x rs IH]; simpl; [done|]. destruct (f x) eqn:E; simpl; [apply IH|done].
Qed.

Lemma existsb_negb f (rs : text) : existsb (λ r, negb (negb (f r))) rs = existsb f rs.
Proof. induction rs as [|x rs IH]; simpl; [done|]. by rewrite negb_involutive, IH. Qed.

Lemma skip_csi_app rs b : csi_closed rs = true → skip_csi (rs ++ b) = skip_csi rs ++ b.
Proof.
  unfold csi_closed, skip_csi. intros Hc. rewrite <- existsb_negb in Hc.
  destruct (drop_while_closed _ _ b Hc) as [-> Hne].
  by destruct (drop_while _ rs).
Qed.

Lemma skip_osc_app rs b : osc_closed rs = true → skip_osc (rs ++ b) = skip_osc rs ++ b.
Proof.
  unfold osc_closed, skip_osc. intros Hc. rewrite <- existsb_negb in Hc.
  destruct (drop_while_closed _ _ b Hc) as [-> Hne].
  destruct (drop_while _ rs) as [|x l]; [done|]. cbn [app]. by repeat case_match.
Qed.

Lemma feed_rest_app ch rs b :
  rest_closed ch rs = true → feed_rest ch (rs ++ b) = feed_rest ch rs ++ b.
Proof.
  unfold rest_closed, feed_rest. destruct (_ || _).
  - unfold backspace_closed, skip_after_backspace. destruct rs as [|x [|y rs]]; [done| |].
    + intros Hc. cbn [app]. repeat case_match; simplify_eq; done.
    + intros Hc. cbn [app]. repeat case_match; simplify_eq; try done; by apply skip_csi_app.
  - destruct (ch =? 27); [|done]. unfold escape_closed, skip_escape.
    destruct rs as [|x rs]; [done|]. intros Hc. cbn [app].
    repeat case_match; simplify_eq; auto using skip_csi_app, skip_osc_app.
Qed.

Lemma complete_loop_fuel n rs : (length rs ≤ n)%nat → complete_loop n rs = complete rs.
Proof.
  unfold complete. remember (length rs) as m eqn:Hm. revert n rs Hm.
  induction (lt_wf m) as [m _ IH]. intros n rs -> Hn.
  destruct rs as [|ch rs]; [by destruct n|]. destruct n as [|n]; simpl in *; [lia|].
  pose proof (feed_rest_length ch rs). f_equal.
  rewrite (IH (length (feed_rest ch rs))) by lia.
  by rewrite (IH (length (feed_rest ch rs)) ltac:(lia) (length rs)) by lia.
Qed.

Lemma complete_cons ch rs :
  complete (ch :: rs) = rest_closed ch rs && complete (feed_rest ch rs).
Proof.
  unfold complete at 1. cbn [length complete_loop].
  rewrite complete_loop_fuel; [done|]. apply feed_rest_length.
Qed.

(** Cutting the output stream at the end of a complete chunk changes
    nothing: feeding the two parts in turn leaves the extractor in the same
    state and reports the same commands as feeding them at once. *)
Theorem Feed_app e a b :
  complete a = true →
  Feed e (a ++ b) =
    (let '(e1, out1) := Feed e a in let '(e2, out2) := Feed e1 b in (e2, out1 ++ out2)).
Proof.
  revert e. induction a as [|ch a IH] using feed_ind; intros e Hc.
  - rewrite Feed_nil. cbn [app]. by destruct (Feed e b).
  - rewrite complete_cons in Hc. apply andb_prop in Hc as [Hr Hc].
    cbn [app]. rewrite !Feed_cons, feed_rest_app by done.
    destruct (feed_step e ch) as [e1 out]. rewrite IH by done.
    destruct (Feed e1 (feed_rest ch a)) as [e2 out2]. destruct (Feed e2 b) as [e3 out3].
    by rewrite app_assoc.
Qed.

End extractor_facts.

(** ** The theorems at concrete sessions *)

Lemma Feed_preserves_ok_witness :
  extractor_ok (NewCommandExtractor true) ∧
  extractor_ok (fst (Feed (NewCommandExtractor true) (txt "root@h:~# ls" ++ crlf ++ txt "out"))).
Proof.
  assert (extractor_ok (NewCommandExtractor true)) as H0.
  { split; [vm_compute; lia|constructor]. }
  split; [exact H0|].
  exact (Feed_preserves_ok (NewCommandExtractor true) (txt "root@h:~# ls" ++ crlf ++ txt "out") H0).
Defined.

Lemma Feed_prompt_line_witness :
  ∃ e', Feed (NewCommandExtractor true)
          (prompt_line (txt "[root") (txt "db1 ~]") (txt "rm -rf /tmp/x") 35 ++ crlf)
        = (e', [txt "rm -rf /tmp/x"]) ∧ lineBuffer e' = [] ∧ waitingForCommand e' = false.
Proof.
  apply (Feed_prompt_line (NewCommandExtractor true) (txt "[root") (txt "db1 ~]")
           (txt "rm -rf /tmp/x") 35).
  - by left.
  - split; apply (bool_decide_unpack _); vm_compute; exact I.
  - split_and!; apply (bool_decide_unpack _); vm_compute; exact I.
  - split_and!; apply (bool_decide_unpack _); vm_compute; exact I.
  - vm_compute. discriminate.
  - vm_compute. by intros x [= <-].
  - apply (bool_decide_unpack _). vm_compute. exact I.
  - split; vm_compute; by intros x [= <-].
  - discriminate.
  - reflexivity.
  - reflexivity.
  - reflexivity.
Defined.

Lemma Feed_backspace_undo_witness :
  Feed (NewCommandExtractor true) (txt "x" ++ 127 :: txt "ls") = Feed (NewCommandExtractor true) (txt "ls").
Proof.
  apply (Feed_backspace_undo (NewCommandExtractor true) 120 127 (txt "ls")).
  - reflexivity.
  - by right.
  - discriminate.
Defined.

Lemma Feed_ctrl_c_witness :
  Feed (NewCommandExtractor true) (txt "root@h:~# rm x" ++ 3 :: crlf) = Feed (NewCommandExtractor true) crlf.
Proof.
  apply (Feed_ctrl_c (NewCommandExtractor true) (txt "root@h:~# rm x") crlf).
  - apply (bool_decide_unpack _). vm_compute. exact I.
  - reflexivity.
Defined.

Lemma Feed_app_witness :
  Feed (NewCommandExtractor true) ((27 :: txt "[0mroot@h:~# l") ++ txt "s" ++ crlf) =
    (let '(e1, out1) := Feed (NewCommandExtractor true) (27 :: txt "[0mroot@h:~# l") in
     let '(e2, out2) := Feed e1 (txt "s" ++ crlf) in (e2, out1 ++ out2)).
Proof.
  apply (Feed_app (NewCommandExtractor true) (27 :: txt "[0mroot@h:~# l") (txt "s" ++ crlf)).
  vm_compute. reflexivity.
Defined.

(** The hypothesis of [Feed_app] is needed: a read that ends inside an
    escape sequence leaves the rest of the sequence in the line, and the command
    that is recorded is not the one that was run. *)
Theorem Feed_split_sequence :
  snd (Feed (NewCommandExtractor true) (txt "root@h:~# l" ++ 27 :: txt "[Ks" ++ crlf)) = [txt "ls"] ∧
  (let '(e1, out1) := Feed (NewCommandExtractor true) (txt "root@h:~# l" ++ [27]) in
   out1 ++ snd (Feed e1 (txt "[Ks" ++ crlf))) = [txt "l[Ks"].
Proof. vm_compute. done. Qed.
