(* ===== verification/CommandParser.v ===== *)
(** * The first command parser

    [parser.CommandParser] of [internal/bastion/parser/command_parser.go], the
    rune-by-rune line editor that the extractor superseded.  The record has the
    fields of the Go struct (the callback is the list of commands returned);
    the model of a slice expression out of range is ruled out by the invariant
    [parser_ok]. *)

From stdpp Require Import base list strings sets gmap.
From Stdlib Require Import ZArith Lia Ascii.
From S2P Require Import Prelude GoStrings GoRegexp PromptRules.
Local Open Scope Z_scope.

Record CommandParser := {
  buffer : text;            (* the current line *)
  commandBuffer : text;
  inCommand : bool;
  promptDetected : bool;
  cursorPos : nat;
  savedCursorPos : nat;
  lastPromptIndex : nat
}.

Definition NewCommandParser : CommandParser :=
  {| buffer := []; commandBuffer := []; inCommand := false; promptDetected := false;
     cursorPos := 0; savedCursorPos := 0; lastPromptIndex := 0 |}.

(** Assignment to a field. *)
Definition set_buffer (p : CommandParser) (b : text) : CommandParser :=
  {| buffer := b; commandBuffer := commandBuffer p; inCommand := inCommand p;
     promptDetected := promptDetected p; cursorPos := cursorPos p;
     savedCursorPos := savedCursorPos p; lastPromptIndex := lastPromptIndex p |}.
Definition set_command (p : CommandParser) (b : text) : CommandParser :=
  {| buffer := buffer p; commandBuffer := b; inCommand := inCommand p;
     promptDetected := promptDetected p; cursorPos := cursorPos p;
     savedCursorPos := savedCursorPos p; lastPromptIndex := lastPromptIndex p |}.
Definition set_prompt (p : CommandParser) (d : bool) : CommandParser :=
  {| buffer := buffer p; commandBuffer := commandBuffer p; inCommand := inCommand p;
     promptDetected := d; cursorPos := cursorPos p;
     savedCursorPos := savedCursorPos p; lastPromptIndex := lastPromptIndex p |}.
Definition set_cursor (p : CommandParser) (c : nat) : CommandParser :=
  {| buffer := buffer p; commandBuffer := commandBuffer p; inCommand := inCommand p;
     promptDetected := promptDetected p; cursorPos := c;
     savedCursorPos := savedCursorPos p; lastPromptIndex := lastPromptIndex p |}.
Definition set_last_prompt (p : CommandParser) (n : nat) : CommandParser :=
  {| buffer := buffer p; commandBuffer := commandBuffer p; inCommand := inCommand p;
     promptDetected := promptDetected p; cursorPos := cursorPos p;
     savedCursorPos := savedCursorPos p; lastPromptIndex := n |}.

(** The shapes of prompt: [$] or [#], [[user@host dir]$], [user@host:dir$],
    [>], [user@hostname:/path$], [root@...], [[root@...]#], [bash-4.2$],
    [sh-4.2$]. *)
Definition promptSources : list text :=
  [ txt "[\$#]\s*$";
    txt "\[.*?@.*?\s+.*?\][\$#]\s*$";
    txt ".*?@.*?:.*?[\$#]\s*$";
    txt ".*?>\s*$";
    txt "\w+@[\w\-]+:\S+[\$#]\s*$";
    txt "^root@.*?[\$#]\s*$";
    txt "^\[root@.*?\]#\s*$";
    txt "^bash-[\d.]+[\$#]\s*$";
    txt "^sh-[\d.]+[\$#]\s*$" ].

Definition promptPatterns : list re := Eval vm_compute in (must_compile <$> promptSources).

Lemma prompt_sources_compile :
  forallb (λ p, bool_decide (is_Some (compile p))) promptSources = true.
Proof. vm_compute. reflexivity. Qed.

Definition ansi_re : re := Eval vm_compute in must_compile (txt "\x1b\[[0-9;]*[a-zA-Z]").

Definition ignoreList : list text := txt <$>
  ["exit"; "logout"; "clear"; "reset"; "history"; "pwd"; ""]%string.

Section parser.
Context `{Unicode}.

Definition isPrompt (line : text) : bool :=
  let line := trim_space line in
  if is_empty line then false
  else existsb (λ pattern, match_string pattern line) promptPatterns.

Definition stripANSI (s : text) : text := keep clean_rune (replace_all ansi_re [] s).

Definition shouldIgnoreCommand (cmd : text) : bool :=
  let cmd := trim_space cmd in
  existsb (text_eqb cmd) ignoreList || is_empty (trim_space cmd).

(** [append(b[:i], append([]rune{ch}, b[i:]...)...)], or [append(b, ch)] at the
    end of the slice. *)
Definition insert_at (i : nat) (ch : rune) (b : text) : text :=
  if (length b <=? i)%nat then b ++ [ch] else take i b ++ ch :: drop i b.

(** [append(b[:i-1], b[i:]...)]. *)
Definition delete_before (i : nat) (b : text) : text := take (i - 1) b ++ drop i b.

Definition handleNewLine (p : CommandParser) : CommandParser * list text :=
  let line := buffer p in
  let run := promptDetected p && negb (is_empty (commandBuffer p)) in
  let command := trim_space (commandBuffer p) in
  let out := if run && negb (is_empty command) && negb (shouldIgnoreCommand command)
             then [command] else [] in
  let p := if run then set_prompt (set_command p []) false else p in
  let p := if isPrompt (stripANSI line)
           then set_command (set_last_prompt (set_prompt p true) (length (buffer p))) []
           else p in
  (set_cursor (set_buffer p []) 0, out).

Definition handleBackspace (p : CommandParser) : CommandParser :=
  let p :=
    if promptDetected p && (0 <? cursorPos p)%nat
    then let p := if (cursorPos p <=? length (commandBuffer p))%nat
                  then set_command p (delete_before (cursorPos p) (commandBuffer p))
                  else p in
         set_cursor p (cursorPos p - 1)
    else p in
  if (0 <? cursorPos p)%nat && (cursorPos p <=? length (buffer p))%nat
  then set_buffer p (delete_before (cursorPos p) (buffer p))
  else p.

(** [handleEscapeSequence] does nothing. *)
Definition handleEscapeSequence (p : CommandParser) : CommandParser := p.

Definition handlePrintable (p : CommandParser) (ch : rune) : CommandParser :=
  let p :=
    if promptDetected p
    then let p := set_command p (insert_at (cursorPos p) ch (commandBuffer p)) in
         set_cursor p (S (cursorPos p))
    else p in
  set_buffer p (insert_at (cursorPos p) ch (buffer p)).

Definition processChar (p : CommandParser) (ch : rune) : CommandParser * list text :=
  if (ch =? 13) || (ch =? 10) then handleNewLine p
  else if (ch =? 127) || (ch =? 8) then (handleBackspace p, [])
  else if ch =? 27 then (handleEscapeSequence p, [])
  else if ch =? 9 then (p, [])
  else if is_print ch || (ch =? 32) then (handlePrintable p ch, [])
  else (p, []).

Fixpoint Feed (p : CommandParser) (data : text) : CommandParser * list text :=
  match data with
  | [] => (p, [])
  | ch :: data =>
      let '(p, out) := processChar p ch in
      let '(p, out') := Feed p data in
      (p, out ++ out')
  end.

Definition Reset (p : CommandParser) : CommandParser :=
  {| buffer := []; commandBuffer := []; inCommand := false; promptDetected := false;
     cursorPos := 0; savedCursorPos := savedCursorPos p; lastPromptIndex := 0 |}.

(** ** The cursor invariant

    The cursor is always at the end of the command buffer, and at the start of
    the line while no prompt is known: the slice expressions of the code stay
    in range and the insertion in the middle of the command buffer is dead. *)
Definition parser_ok (p : CommandParser) : Prop :=
  cursorPos p = length (commandBuffer p) ∧
  (promptDetected p = false → commandBuffer p = []).

Lemma delete_before_end (b : text) :
  (0 < length b)%nat → length (delete_before (length b) b) = (length b - 1)%nat.
Proof.
  intros Hb. unfold delete_before. rewrite drop_all, app_nil_r, length_take. lia.
Qed.

Lemma insert_at_end ch (b : text) : insert_at (length b) ch b = b ++ [ch].
Proof. unfold insert_at. by rewrite Nat.leb_refl. Qed.

Lemma handleNewLine_ok p : parser_ok p → parser_ok (fst (handleNewLine p)).
Proof.
  intros [Hc Hd]. unfold handleNewLine, parser_ok. cbn [fst].
  destruct (isPrompt _); [done|].
  destruct (promptDetected p && negb (is_empty (commandBuffer p))) eqn:E; [done|].
  assert (commandBuffer p = []) as Hnil; [|simpl; by rewrite Hnil].
  destruct (promptDetected p); [|by apply Hd].
  simpl in E. by destruct (commandBuffer p).
Qed.

Lemma handleBackspace_ok p : parser_ok p → parser_ok (handleBackspace p).
Proof.
  intros [Hc Hd]. unfold handleBackspace.
  set (p1 := if promptDetected p && (0 <? cursorPos p)%nat then _ else p).
  assert (parser_ok p1) as Hp1.
  { unfold p1. destruct (promptDetected p && (0 <? cursorPos p)%nat) eqn:E; [|by split].
    apply andb_prop in E as [E1 E2%Nat.ltb_lt]. rewrite Hc, Nat.leb_refl. rewrite Hc in E2.
    split; cbn -[delete_before]; [|congruence].
    rewrite ?Hc, delete_before_end by lia. done. }
  clearbody p1. destruct ((0 <? cursorPos p1)%nat && _); exact Hp1.
Qed.

Lemma handlePrintable_ok p ch : parser_ok p → parser_ok (handlePrintable p ch).
Proof.
  intros [Hc Hd]. unfold handlePrintable. destruct (promptDetected p) eqn:E.
  - split; cbn -[insert_at]; [|congruence]. rewrite Hc, insert_at_end, length_app. simpl. lia.
  - split; cbn -[insert_at]; [done|]. intros _. by apply Hd.
Qed.

Lemma processChar_ok p ch : parser_ok p → parser_ok (fst (processChar p ch)).
Proof.
  intros Hp. unfold processChar.
  destruct (_ || _); [by apply handleNewLine_ok|].
  destruct (_ || _); [by apply handleBackspace_ok|].
  destruct (ch =? 27); [done|]. destruct (ch =? 9); [done|].
  destruct (_ || _); [by apply handlePrintable_ok|done].
Qed.

(** Every input keeps the cursor of [CommandParser] at the end of its
    command buffer (and at 0 while no prompt is known), so no slice expression
    of [processChar] or [handleBackspace] is ever out of range. *)
Theorem CommandParser_cursor_ok p data : parser_ok p → parser_ok (fst (Feed p data)).
Proof.
  revert p. induction data as [|ch data IH]; intros p Hp; [done|]. cbn [Feed].
  pose proof (processChar_ok p ch Hp) as H1.
  destruct (processChar p ch) as [p1 out]. specialize (IH p1 H1).
  by destruct (Feed p1 data).
Qed.

(** ** The line is collected backwards *)

Definition printable (r : rune) : bool :=
  (is_print r || (r =? 32)) && negb ((r =? 127) || (r =? 8) || (r =? 9) || (r =? 10)
                                     || (r =? 13) || (r =? 27)).

Lemma processChar_printable p ch :
  printable ch = true → processChar p ch = (handlePrintable p ch, []).
Proof.
  unfold printable, processChar. intros [-> Hc]%andb_prop. apply negb_true_iff in Hc.
  repeat match type of Hc with
  | _ || _ = false => apply orb_false_elim in Hc as [Hc ?]
  end.
  repeat match goal with E : _ =? _ = false |- _ => rewrite E; clear E end. done.
Qed.

Lemma insert_at_0 ch (b : text) : insert_at 0 ch b = ch :: b.
Proof. by destruct b. Qed.

(** While no prompt is known the cursor stays at 0, so every rune is
    inserted at the front of the line buffer: the line [handleNewLine] tests for
    a prompt is the terminal's line in reverse. *)
Theorem CommandParser_reverses_line p data :
  promptDetected p = false → cursorPos p = 0%nat →
  Forall (λ r, printable r = true) data →
  buffer (fst (Feed p data)) = rev data ++ buffer p ∧ snd (Feed p data) = [].
Proof.
  intros Hp Hc HF. revert p Hp Hc. induction HF as [|ch data Hch _ IH]; intros p Hp Hc; [done|].
  cbn [Feed]. rewrite processChar_printable by done.
  destruct (IH (handlePrintable p ch)) as [IH1 IH2].
  { unfold handlePrintable. by rewrite Hp. }
  { unfold handlePrintable. by rewrite Hp. }
  destruct (Feed (handlePrintable p ch) data) as [p' out]. simpl in *. subst out.
  split; [|done]. rewrite IH1. unfold handlePrintable. rewrite Hp. simpl.
  rewrite Hc, insert_at_0. by rewrite <- app_assoc.
Qed.
End parser.

Lemma CommandParser_cursor_ok_witness :
  parser_ok (fst (Feed NewCommandParser (txt ">" ++ 10 :: txt "ls" ++ [127]))).
Proof. apply CommandParser_cursor_ok. by split. Defined.

Lemma CommandParser_reverses_line_witness :
  buffer (fst (Feed NewCommandParser (txt "user@host:~$"))) = rev (txt "user@host:~$") ++ [] ∧
  snd (Feed NewCommandParser (txt "user@host:~$")) = [].
Proof.
  apply (CommandParser_reverses_line NewCommandParser (txt "user@host:~$")).
  - reflexivity.
  - reflexivity.
  - apply (bool_decide_unpack _). vm_compute. exact I.
Defined.

(** A session in which a user runs a command at an ordinary prompt reports
    nothing: the prompt is a prompt for [isPrompt], but the parser tests its
    reverse, and after a prompt it does recognise, the backspace handler deletes
    the wrong rune of the line. *)
Theorem CommandParser_misses_command :
  isPrompt (txt "root@host:~#") = true ∧
  snd (Feed NewCommandParser (txt "root@host:~#" ++ 10 :: txt "rm -rf /" ++ [10])) = [] ∧
  (let p := fst (Feed NewCommandParser (txt ">" ++ 10 :: txt "ab" ++ [127])) in
   commandBuffer p = txt "a" ∧ buffer p = txt "b").
Proof. vm_compute. done. Qed.
