(* ===== verification/Detector.v ===== *)
(** * The anti-bypass detector

    [AdvancedDetector] of [internal/bastion/blacklist/advanced_detector.go].
    A method that returns [(bool, string)] is a function into [option text]:
    [Some reason] is [(true, reason)] and [None] is [(false, "")].  The decoded
    payloads that reasons quote are read as UTF-8. *)

From stdpp Require Import base list strings sets.
From Stdlib Require Import ZArith Lia Ascii.
From S2P Require Import Prelude GoStrings GoRegexp Encodings.
Local Open Scope Z_scope.

Record AdvancedDetector := {
  dangerousPatterns : list re;
  dangerousKeywords : list text
}.

Definition dangerousSources : list text :=
  [ txt "\brm\s+(-[rf]+\s+)?/";
    txt "\bdd\s+.*of=/dev/(sd|hd|nvme)";
    txt "\bmkfs\.";
    txt "\b(shutdown|reboot|halt|poweroff)\b";
    txt ">\s*/dev/(sd|hd|nvme)";
    txt "\bchmod\s+777";
    txt "\bchmod\s+.*\s+/";
    txt "\buserdel\s+root";
    txt "\bmv\s+.*\s+/dev/null";
    txt ":\(\)\{\s*:\|:&\s*\};:";
    txt "\bcurl\s+.*\|\s*(bash|sh)";
    txt "\bwget\s+.*\|\s*(bash|sh)" ].

(** A pattern that does not compile is dropped. *)
Definition compileDangerousPatterns : list re := omap compile dangerousSources.

Definition NewAdvancedDetector : AdvancedDetector :=
  {| dangerousPatterns := compileDangerousPatterns;
     dangerousKeywords := txt <$>
       ["rm"; "dd"; "mkfs"; "fdisk"; "parted";
        "reboot"; "shutdown"; "halt"; "poweroff";
        "iptables"; "firewall"; "ufw";
        "userdel"; "usermod"; "passwd";
        "chmod"; "chown"; "chgrp";
        "kill"; "pkill"; "killall"]%string |}.

Definition quoted_b64_re : re :=
  Eval vm_compute in must_compile (txt "[" ++ dquote ++ txt "']([A-Za-z0-9+/=]{10,})["
                                   ++ dquote ++ txt "']").
Definition hex_re : re := Eval vm_compute in must_compile (txt "\\x[0-9a-fA-F]{2}").
Definition var_re : re :=
  Eval vm_compute in must_compile (txt "\$\{?[A-Za-z_][A-Za-z0-9_]*\}?").
Definition dollar_paren_re : re := Eval vm_compute in must_compile (txt "\$\(([^)]+)\)").
Definition backtick_re : re := Eval vm_compute in must_compile (txt "`([^`]+)`").
Definition qmark_re : re := Eval vm_compute in must_compile (txt "\?").
Definition bracket_re : re := Eval vm_compute in must_compile (txt "\[[^\]]+\]").
Definition star_re : re := Eval vm_compute in must_compile (txt "\*").
Definition separator_re : re := Eval vm_compute in must_compile (txt "[|;&&]+").
Definition scriptPatterns : list re := Eval vm_compute in must_compile <$>
  [txt "echo.*>.*\.sh"; txt "cat.*>.*\.sh"; txt "printf.*>.*\.sh"; txt "tee.*\.sh"].

Lemma detector_patterns_compile :
  length compileDangerousPatterns = length dangerousSources ∧
  forallb (λ r, negb (Nat.eqb (min_len r) 0))
    [quoted_b64_re; hex_re; var_re; dollar_paren_re; backtick_re; qmark_re; bracket_re;
     star_re; separator_re] = true.
Proof. vm_compute. done. Qed.

Section detector.
Context `{Unicode} (d : AdvancedDetector).

Definition containsDangerousKeyword (command : text) : bool :=
  existsb (λ word,
    let word := trim_left (txt "./") word in
    existsb (λ keyword, text_eqb word keyword || has_prefix word (keyword ++ txt " "))
      (dangerousKeywords d))
    (fields (to_lower command)).

Definition detectBase64Bypass (command : text) : option text :=
  let lowerCmd := to_lower command in
  if contains lowerCmd (txt "base64") && contains lowerCmd (txt "-d") then
    first_some (λ m,
      match b64_decode m with
      | Some decoded =>
          let decodedCmd := utf8_decode decoded in
          if containsDangerousKeyword decodedCmd
          then Some (txt "检测到Base64编码的危险命令: " ++ decodedCmd) else None
      | None => None
      end) (find_all_group quoted_b64_re command)
    <|> (if contains lowerCmd (txt "bash") || contains lowerCmd (txt "sh")
         then Some (txt "检测到可疑的Base64解码+执行组合") else None)
  else None.

Definition detectHexBypass (command : text) : option text :=
  if match_string hex_re command then
    let decoded := mjoin ((λ hexStr,
      match hex_decode (default hexStr (strip_prefix hexStr (txt "\x"))) with
      | Some (b :: _) => [b]
      | _ => []
      end) <$> find_all_string hex_re command) in
    let decodedCmd := utf8_decode decoded in
    let lowerCmd := to_lower command in
    if negb (is_empty decoded) && containsDangerousKeyword decodedCmd
    then Some (txt "检测到十六进制编码的危险命令: " ++ decodedCmd)
    else if contains lowerCmd (txt "printf") || contains lowerCmd (txt "echo")
    then Some (txt "检测到可疑的十六进制编码命令")
    else None
  else None.

(** [strings.ReplaceAll] of the backslash, the quotes and the back quote. *)
Definition unquoted (command : text) : text :=
  let cleaned := remove_rune 92 command in
  let cleaned := remove_rune 39 cleaned in
  let cleaned := remove_rune 34 cleaned in
  remove_rune 96 cleaned.

Definition detectEscapeBypass (command : text) : option text :=
  let cleaned := to_lower (unquoted command) in
  if containsDangerousKeyword cleaned
  then Some (txt "检测到使用转义字符绕过的危险命令") else None.

Definition detectVariableBypass (command : text) : option text :=
  let lowerCmd := to_lower command in
  if match_string var_re command then
    first_some (λ keyword,
      if contains lowerCmd (txt "'" ++ keyword ++ txt "'") ||
         contains lowerCmd (dquote ++ keyword ++ dquote) ||
         contains lowerCmd (txt "=" ++ keyword)
      then Some (txt "检测到使用变量赋值绕过的危险命令: " ++ keyword) else None)
      (dangerousKeywords d)
  else None.

Definition detectCommandSubstitution (command : text) : option text :=
  let lowerCmd := to_lower command in
  if contains command (txt "$(") || contains command (txt "`") then
    first_some (λ pattern,
      first_some (λ m,
        if containsDangerousKeyword (to_lower m)
        then Some (txt "检测到命令替换中的危险命令: " ++ m) else None)
        (find_all_group pattern command))
      [dollar_paren_re; backtick_re]
    <|> (if contains lowerCmd (txt "echo")
         then first_some (λ keyword,
                if contains lowerCmd keyword
                then Some (txt "检测到可疑的命令替换绕过") else None) (dangerousKeywords d)
         else None)
  else None.

Definition unglobbed (command : text) : text :=
  replace_all star_re [] (replace_all bracket_re (txt "m") (replace_all qmark_re [] command)).

Definition detectWildcardBypass (command : text) : option text :=
  let cleaned := to_lower (unglobbed command) in
  if containsDangerousKeyword cleaned
  then Some (txt "检测到使用通配符绕过的危险命令") else None.

Definition detectScriptBypass (command : text) : option text :=
  let lowerCmd := to_lower command in
  first_some (λ pattern,
    if match_string pattern lowerCmd then
      if contains lowerCmd (txt "bash") || contains lowerCmd (txt "sh ")
         || contains lowerCmd (txt "./")
      then if containsDangerousKeyword command
           then Some (txt "检测到将危险命令写入脚本并执行") else None
      else None
    else None) scriptPatterns.

Definition detectPipelineBypass (command : text) : option text :=
  first_some (λ part,
    let cleaned := trim_space (to_lower part) in
    if containsDangerousKeyword cleaned
    then Some (txt "检测到管道或命令链中的危险命令") else None)
    (split_re separator_re command).

Definition detectStandardPatterns (command : text) : option text :=
  let lowerCmd := to_lower command in
  first_some (λ pattern,
    if match_string pattern lowerCmd then Some (txt "命令匹配危险模式") else None)
    (dangerousPatterns d).

Definition IsCommandDangerous (command : text) : option text :=
  let command := trim_space command in
  if is_empty command then None
  else detectBase64Bypass command
    <|> detectHexBypass command
    <|> detectEscapeBypass command
    <|> detectVariableBypass command
    <|> detectCommandSubstitution command
    <|> detectWildcardBypass command
    <|> detectScriptBypass command
    <|> detectPipelineBypass command
    <|> detectStandardPatterns command.
End detector.

Definition D0 : AdvancedDetector := NewAdvancedDetector.

Example detector_commands :
  IsCommandDangerous D0 (txt "ls -la /home") = None ∧
  IsCommandDangerous D0 (txt "r\m -rf /") = Some (txt "检测到使用转义字符绕过的危险命令") ∧
  IsCommandDangerous D0 (txt "echo " ++ dquote ++ txt "cm0gLXJmIC8=" ++ dquote
                         ++ txt " | base64 -d | bash")
    = Some (txt "检测到Base64编码的危险命令: rm -rf /") ∧
  IsCommandDangerous D0 (txt "$(printf '\x72\x6d') x")
    = Some (txt "检测到十六进制编码的危险命令: rm") ∧
  IsCommandDangerous D0 (txt "RM='rm'; $RM -rf /home")
    = Some (txt "检测到使用变量赋值绕过的危险命令: rm") ∧
  IsCommandDangerous D0 (txt "$(echo rm) -rf x")
    = Some (txt "检测到命令替换中的危险命令: echo rm") ∧
  IsCommandDangerous D0 (txt "r[m] -rf x") = Some (txt "检测到使用通配符绕过的危险命令") ∧
  IsCommandDangerous D0 (txt "ls;rm -rf x") = Some (txt "检测到管道或命令链中的危险命令") ∧
  IsCommandDangerous D0 (txt "cat x >/dev/sda") = Some (txt "命令匹配危险模式").
Proof. vm_compute. done. Qed.

(** ** What a keyword is *)

(** The runes the escape check deletes: the backslash and the quotes. *)
Definition is_quoting (r : rune) : bool := existsb (Z.eqb r) [92; 39; 34; 96].

Lemma keep_keep {A} (f g : A → bool) l : keep f (keep g l) = keep (λ x, g x && f x) l.
Proof.
  induction l as [|x l IH]; [done|]. simpl. destruct (g x); simpl; [|done].
  destruct (f x); by rewrite IH.
Qed.

Lemma unquoted_keep s : unquoted s = keep (λ r, negb (is_quoting r)) s.
Proof.
  unfold unquoted, remove_rune. rewrite !keep_keep. apply keep_ext. intros r.
  unfold is_quoting. simpl. rewrite !negb_orb. simpl. by rewrite andb_true_r, !andb_assoc.
Qed.

Lemma is_quoting_spec r : is_quoting r = true ↔ r ∈ [92; 39; 34; 96].
Proof.
  unfold is_quoting. rewrite existsb_exists. setoid_rewrite <- list_elem_of_In.
  split; [intros (x & Hx & ->%Z.eqb_eq); done|]. intros Hr. exists r. by rewrite Z.eqb_refl.
Qed.

Lemma quoting_not_space r : is_space r = true → negb (is_quoting r) = true.
Proof.
  intros Hr. apply negb_true_iff. destruct (is_quoting r) eqn:E; [|done].
  apply is_quoting_spec in E. rewrite !elem_of_cons, elem_of_nil in E.
  by destruct E as [->|[->|[->|[->|[]]]]].
Qed.

(** Outer spaces do not change the words. *)
Lemma fields_pad a s b : all_space a → all_space b → fields (a ++ s ++ b) = fields s.
Proof.
  intros Ha Hb. induction Ha as [|x a Hx _ IH].
  - cbn [app]. destruct Hb as [|y b Hy Hb]; [by rewrite app_nil_r|].
    rewrite fields_app_space by done.
    assert (fields b = []) as ->; [|by rewrite app_nil_r].
    induction Hb as [|z b Hz _ IH]; [done|]. cbn [fields]. by rewrite Hz.
  - cbn [app]. rewrite <- (app_nil_l (x :: _)), fields_app_space by done. exact IH.
Qed.

Lemma fields_keep_trim f s :
  (∀ r, is_space r = true → f r = true) → fields (keep f (trim_space s)) = fields (keep f s).
Proof.
  intros Hf. destruct (trim_space_split s) as (a & b & Hs & Ha & Hb).
  rewrite Hs at 2. rewrite !keep_app.
  rewrite (keep_id f a), (keep_id f b), fields_pad; [done|done|done|..].
  - eapply Forall_impl; [exact Hb|]. intros r Hr. by apply Hf.
  - eapply Forall_impl; [exact Ha|]. intros r Hr. by apply Hf.
Qed.

Section detector_facts.
Context `{UL : UnicodeLaws}.
Implicit Types d : AdvancedDetector.

(** A word names a dangerous program: its lower case, without leading dots and
    slashes, is one of the keywords. *)
Definition dangerous_word d (w : text) : Prop :=
  trim_left (txt "./") (to_lower w) ∈ dangerousKeywords d.

Lemma trim_left_suffix cut s : ∃ a, s = a ++ trim_left cut s ∧ Forall (λ r, r ∈ cut) a.
Proof.
  unfold trim_left. induction s as [|x s (a & Hs & Ha)]; [by exists []|]. simpl.
  destruct (contains_rune x cut) eqn:E; [|by exists []].
  exists (x :: a). split; [by simpl; rewrite <- Hs|]. constructor; [|done].
  by apply contains_rune_spec.
Qed.

Lemma containsDangerousKeyword_spec d c :
  containsDangerousKeyword d c = true ↔ ∃ w, w ∈ fields c ∧ dangerous_word d w.
Proof.
  unfold containsDangerousKeyword. rewrite fields_to_lower, existsb_exists.
  setoid_rewrite <- list_elem_of_In. split.
  - intros (w & (v & -> & Hv)%list_elem_of_fmap & Hk). exists v. split; [done|].
    apply existsb_exists in Hk as (k & Hk%list_elem_of_In & E).
    apply orb_prop in E as [E|E].
    + apply bool_decide_eq_true in E. unfold dangerous_word. by rewrite E.
    + exfalso. apply has_prefix_spec in E as [r Hr].
      apply fields_word_nonempty in Hv as [_ Hns].
      destruct (trim_left_suffix (txt "./") (to_lower v)) as (a & Ha & _).
      rewrite Hr in Ha.
      assert (32 ∈ to_lower v) as H32.
      { rewrite Ha. apply elem_of_app; right. apply elem_of_app; left.
        apply elem_of_app; right. change (txt " ") with [32]. left. }
      apply list_elem_of_fmap in H32 as (x & Hx & Hin).
      rewrite Forall_forall in Hns. specialize (Hns x Hin). cbn beta in Hns.
      rewrite <- to_lower_rune_space, <- Hx in Hns. discriminate Hns.
  - intros (w & Hw & Hk). exists (to_lower w). split; [apply list_elem_of_fmap; eauto|].
    apply existsb_exists. exists (trim_left (txt "./") (to_lower w)).
    split; [by apply list_elem_of_In|]. unfold text_eqb.
    by rewrite bool_decide_eq_true_2.
Qed.

Lemma containsDangerousKeyword_lower d c :
  containsDangerousKeyword d (to_lower c) = containsDangerousKeyword d c.
Proof. unfold containsDangerousKeyword. by rewrite to_lower_idemp. Qed.

Lemma detectEscapeBypass_spec d c :
  is_Some (detectEscapeBypass d c) ↔ ∃ w, w ∈ fields (unquoted c) ∧ dangerous_word d w.
Proof.
  unfold detectEscapeBypass. rewrite containsDangerousKeyword_lower,
    <- containsDangerousKeyword_spec.
  destruct (containsDangerousKeyword d (unquoted c)); rewrite is_Some_alt; done.
Qed.

(** The answer of the cascade is that of its first stage that answers. *)
Lemma IsCommandDangerous_stages d c :
  IsCommandDangerous d c = None →
  trim_space c = [] ∨
  (detectBase64Bypass d (trim_space c) = None ∧ detectHexBypass d (trim_space c) = None ∧
   detectEscapeBypass d (trim_space c) = None ∧ detectVariableBypass d (trim_space c) = None ∧
   detectCommandSubstitution d (trim_space c) = None ∧
   detectWildcardBypass d (trim_space c) = None ∧ detectScriptBypass d (trim_space c) = None ∧
   detectPipelineBypass d (trim_space c) = None ∧
   detectStandardPatterns d (trim_space c) = None).
Proof.
  unfold IsCommandDangerous. destruct (trim_space c) as [|x s]; [by left|].
  cbn [is_empty]. rewrite !or_else_None. tauto.
Qed.

Lemma escape_dangerous d c :
  (∃ w, w ∈ fields (unquoted c) ∧ dangerous_word d w) → is_Some (IsCommandDangerous d c).
Proof.
  intros (w & Hw & Hk). destruct (IsCommandDangerous d c) eqn:E; [eauto|exfalso].
  assert (fields (unquoted (trim_space c)) = fields (unquoted c)) as Ht.
  { rewrite !unquoted_keep. apply fields_keep_trim, quoting_not_space. }
  apply IsCommandDangerous_stages in E as [E|(_ & _ & E & _)].
  - rewrite E in Ht. rewrite <- Ht in Hw. by apply not_elem_of_nil in Hw.
  - rewrite eq_None_not_Some, detectEscapeBypass_spec, Ht in E. eauto.
Qed.

(** ** Evasion by quoting *)

(** [t] is [s] with backslashes, quotes and back quotes inserted. *)
Inductive obfuscated : text → text → Prop :=
  | ob_nil : obfuscated [] []
  | ob_keep x s t : obfuscated s t → obfuscated (x :: s) (x :: t)
  | ob_insert x s t : is_quoting x = true → obfuscated s t → obfuscated s (x :: t).

Lemma obfuscated_unquoted s t : obfuscated s t → unquoted t = unquoted s.
Proof.
  rewrite !unquoted_keep. induction 1 as [|x s t _ IH|x s t Hx _ IH]; simpl; [done| |].
  - by rewrite IH.
  - by rewrite Hx.
Qed.

Lemma keyword_word_plain w k :
  Forall (λ r, is_quoting r = false) k →
  trim_left (txt "./") (to_lower w) = k → Forall (λ r, negb (is_quoting r) = true) w.
Proof.
  intros Hk <-. apply Forall_forall. intros x Hx. apply negb_true_iff.
  destruct (is_quoting x) eqn:E; [|done].
  destruct (trim_left_suffix (txt "./") (to_lower w)) as (a & Hw & Ha).
  assert (to_lower_rune x = x) as Hlow.
  { apply is_quoting_spec in E. rewrite !elem_of_cons, elem_of_nil in E.
    by destruct E as [->|[->|[->|[->|[]]]]]. }
  assert (x ∈ to_lower w) as Hin by (apply list_elem_of_fmap; eauto).
  rewrite Hw in Hin. apply elem_of_app in Hin as [Hin|Hin].
  - rewrite Forall_forall in Ha. apply Ha in Hin. change (txt "./") with [46; 47] in Hin.
    apply is_quoting_spec in E. set_solver.
  - rewrite Forall_forall in Hk. apply Hk in Hin. congruence.
Qed.

Lemma keywords_plain :
  Forall (Forall (λ r, is_quoting r = false)) (dangerousKeywords NewAdvancedDetector).
Proof. apply (bool_decide_unpack _). vm_compute. exact I. Qed.

Lemma dangerous_word_plain w :
  dangerous_word NewAdvancedDetector w → Forall (λ r, negb (is_quoting r) = true) w.
Proof.
  intros Hw. eapply keyword_word_plain; [|done].
  pose proof keywords_plain as Hp. rewrite Forall_forall in Hp. by apply Hp.
Qed.

Lemma unquoted_word s w :
  w ∈ fields s → dangerous_word NewAdvancedDetector w → w ∈ fields (unquoted s).
Proof.
  intros Hw Hk. rewrite unquoted_keep. apply fields_keep; [apply quoting_not_space| |done].
  by apply dangerous_word_plain.
Qed.

(** C30: A command one of whose words names a dangerous program (in any case,
    with leading dots and slashes) is reported dangerous, however many
    backslashes, quotes and back quotes are inserted into it, anywhere. *)
Theorem quoting_never_evades s t w :
  w ∈ fields s → dangerous_word NewAdvancedDetector w → obfuscated s t →
  is_Some (IsCommandDangerous NewAdvancedDetector t).
Proof.
  intros Hw Hk Hob. apply escape_dangerous. exists w.
  rewrite (obfuscated_unquoted _ _ Hob). split; [|done]. by apply unquoted_word.
Qed.

(** The script stage of the cascade is dead: whenever it would report a
    command, the escape stage, which runs earlier, already has. *)
Theorem script_stage_dead c :
  is_Some (detectScriptBypass NewAdvancedDetector c) →
  is_Some (detectEscapeBypass NewAdvancedDetector c).
Proof.
  intros [r Hr]. apply detectEscapeBypass_spec.
  apply first_some_Some in Hr as (l1 & p & l2 & _ & Hp & _).
  destruct (match_string _ _); [|done]. destruct (_ || _); [|done].
  destruct (containsDangerousKeyword _ c) eqn:E; [|done].
  apply containsDangerousKeyword_spec in E as (w & Hw & Hk).
  exists w. split; [by apply unquoted_word|done].
Qed.

(** ** What an accepted command is free of *)

Lemma detectStandardPatterns_None d c :
  detectStandardPatterns d c = None →
  ∀ p, p ∈ dangerousPatterns d → ¬ matches_in p (to_lower c).
Proof.
  unfold detectStandardPatterns. rewrite first_some_None. intros HN p Hp.
  apply match_string_false. specialize (HN p Hp). by destruct (match_string _ _).
Qed.

Lemma detectPipelineBypass_None d c part w :
  detectPipelineBypass d c = None → part ∈ split_re separator_re c → w ∈ fields part →
  ¬ dangerous_word d w.
Proof.
  unfold detectPipelineBypass. rewrite first_some_None. intros HN Hp Hw Hk.
  specialize (HN part Hp). cbn zeta in HN.
  rewrite trim_space_to_lower, containsDangerousKeyword_lower in HN.
  assert (containsDangerousKeyword d (trim_space part) = true) as E; [|by rewrite E in HN].
  apply containsDangerousKeyword_spec. exists w. split; [|done].
  destruct (trim_space_split part) as (a & b & Hs & Ha & Hb).
  rewrite Hs in Hw. by rewrite fields_pad in Hw.
Qed.

Lemma detectCommandSubstitution_None d c p m w :
  contains c (txt "$(") || contains c (txt "`") = true →
  detectCommandSubstitution d c = None → p ∈ [dollar_paren_re; backtick_re] →
  m ∈ find_all_group p c → w ∈ fields m → ¬ dangerous_word d w.
Proof.
  unfold detectCommandSubstitution. intros ->. rewrite or_else_None. intros [HN _] Hp Hm Hw Hk.
  rewrite first_some_None in HN. specialize (HN p Hp). rewrite first_some_None in HN.
  specialize (HN m Hm). rewrite containsDangerousKeyword_lower in HN.
  assert (containsDangerousKeyword d m = true) as E; [|by rewrite E in HN].
  apply containsDangerousKeyword_spec. eauto.
Qed.

(** A match of the substitution patterns starts with [$(] or a back quote. *)
Lemma substitution_match p c m :
  p ∈ [dollar_paren_re; backtick_re] → m ∈ find_all_group p c →
  contains c (txt "$(") || contains c (txt "`") = true.
Proof.
  intros Hp (f & -> & Hf)%list_elem_of_fmap.
  apply find_all_from_elem in Hf as (a & q & -> & Hmt). apply orb_true_iff.
  revert Hmt. generalize (f_match f ++ f_after f). intros u Hmt.
  rewrite !elem_of_cons, elem_of_nil in Hp. destruct Hp as [->|[->|[]]].
  - left. apply contains_spec. exists a.
    inversion Hmt as [| |? ? ? ? ? H1 H2| | | | | | | |]; subst.
    inversion H1 as [|? ? ? x s Hx| | | | | | | | |]; subst.
    inversion H2 as [| |? ? ? ? ? H3 _| | | | | | | |]; subst.
    inversion H3 as [|? ? ? y s' Hy| | | | | | | | |]; subst.
    exists s'. f_equal. unfold cls_match, in_range in Hx, Hy.
    simpl in Hx, Hy. rewrite orb_false_r in Hx, Hy. prop_bools.
    replace x with 36 in * by lia. replace y with 40 in * by lia. reflexivity.
  - right. apply contains_spec. exists a.
    inversion Hmt as [| |? ? ? ? ? H1 H2| | | | | | | |]; subst.
    inversion H1 as [|? ? ? x s Hx| | | | | | | | |]; subst.
    exists s. f_equal. unfold cls_match, in_range in Hx.
    simpl in Hx. rewrite orb_false_r in Hx. prop_bools.
    replace x with 96 in * by lia. reflexivity.
Qed.

(** What the detector guarantees of a command it accepts: without its
    backslashes and quotes no word names a dangerous program, no part of a
    pipeline or chain and no command substitution contains such a word, and no
    dangerous pattern matches anywhere in its lower case. *)
Theorem IsCommandDangerous_accepts d c :
  IsCommandDangerous d c = None →
  (∀ w, w ∈ fields (unquoted c) → ¬ dangerous_word d w) ∧
  (∀ part w, part ∈ split_re separator_re (trim_space c) → w ∈ fields part →
     ¬ dangerous_word d w) ∧
  (∀ p m w, p ∈ [dollar_paren_re; backtick_re] → m ∈ find_all_group p (trim_space c) →
     w ∈ fields m → ¬ dangerous_word d w) ∧
  (trim_space c ≠ [] → ∀ p, p ∈ dangerousPatterns d → ¬ matches_in p (to_lower (trim_space c))).
Proof.
  intros HN. split.
  { intros w Hw Hk. assert (is_Some (IsCommandDangerous d c)) as Hs.
    { apply escape_dangerous. eauto. }
    rewrite HN in Hs. by destruct Hs. }
  apply IsCommandDangerous_stages in HN as [->|(_ & _ & _ & _ & H5 & _ & _ & H8 & H9)].
  - split_and!; [|..|done].
    + intros part w Hp Hw. change (split_re separator_re []) with [[]: text] in Hp.
      apply list_elem_of_singleton in Hp as ->. by apply not_elem_of_nil in Hw.
    + intros p m w Hp Hm. pose proof (substitution_match p [] m Hp Hm) as Hc. discriminate Hc.
  - split_and!.
    + intros part w Hp Hw. by eapply detectPipelineBypass_None.
    + intros p m w Hp Hm Hw. eapply detectCommandSubstitution_None; try done.
      by eapply substitution_match.
    + intros _. by apply detectStandardPatterns_None.
Qed.

(** ** Encoded and substituted payloads *)

Definition is_b64_quote (r : rune) : bool := (r =? 34) || (r =? 39).
Definition b64_cls : list (Z * Z) :=
  Eval vm_compute in [(65, 90); (97, 122); (48, 57); (43, 43); (47, 47); (61, 61)].
Definition quote_cls : list (Z * Z) := Eval vm_compute in [(34, 34); (39, 39)].

Lemma quoted_b64_shape :
  quoted_b64_re = Cat (Cls false quote_cls)
    (Cat (Grp (RepFrom 10 true (Cls false b64_cls))) (Cls false quote_cls)).
Proof. reflexivity. Qed.

Lemma b64_rune_cls r : b64_rune r = true → cls_match false b64_cls r = true.
Proof.
  intros Hr. assert (0 <= r < 128) as Hb.
  { unfold b64_rune, b64_val, b64_pad in Hr. revert Hr.
    repeat (case_match; [unfold in_range in *; prop_bools; lia|]).
    rewrite orb_true_iff. intros [E|?%Z.eqb_eq]; [by apply bool_decide_eq_true, is_Some_None in E|lia]. }
  pose proof (in_table (λ r, implb (b64_rune r) (cls_match false b64_cls r)) 0 128 r) as H.
  cbn beta in H. rewrite Hr in H. apply H; [by vm_compute|lia].
Qed.

Lemma quote_cls_spec q : cls_match false quote_cls q = is_b64_quote q.
Proof.
  unfold cls_match, is_b64_quote, in_range. simpl.
  destruct (Z.eqb_spec q 34) as [->|]; [done|]. destruct (Z.eqb_spec q 39) as [->|]; [done|].
  apply orb_false_iff. split; [|apply orb_false_iff; split; [|done]]; apply andb_false_iff; lia.
Qed.

Lemma find_quoted_b64 pre q enc q' post :
  Forall (λ r, is_b64_quote r = false) pre → is_b64_quote q = true → is_b64_quote q' = true →
  Forall (λ r, b64_rune r = true) enc → (10 <= length enc)%nat →
  ∃ l, find_all_group quoted_b64_re (pre ++ q :: enc ++ q' :: post) = enc :: l.
Proof.
  intros Hpre Hq Hq' Henc Hlen.
  assert (Forall (λ x, cls_match false b64_cls x = true) enc) as Hcls.
  { eapply Forall_impl; [exact Henc|]. apply b64_rune_cls. }
  set (body := q :: enc ++ q' :: post).
  edestruct (find_all_head quoted_b64_re (pre ++ body)) as [l Hl]; [|shelve..|].
  { rewrite quoted_b64_shape, find_from_skip.
    - rewrite (find_from_here _ _ body post (Some enc)); [reflexivity|].
      unfold body, RepFrom. rewrite bt_cat, bt_cls by (by rewrite quote_cls_spec).
      rewrite bt_cat, bt_grp, bt_cat. rewrite <- (take_drop 10 enc) at 1. rewrite <- app_assoc.
      rewrite (bt_rep_run false b64_cls 10 (Some q) (take 10 enc));
        [|by apply Forall_take|rewrite length_take; lia].
      apply bt_star_run; [by apply Forall_drop| |].
      + intros x s' [= <- <-]. unfold is_b64_quote in Hq'. apply orb_true_iff in Hq'.
        by destruct Hq' as [->%Z.eqb_eq| ->%Z.eqb_eq].
      + rewrite bt_cls by (by rewrite quote_cls_spec).
        by rewrite take_before.
    - eapply Forall_impl; [exact Hpre|]. intros r Hr. by rewrite quote_cls_spec. }
  Unshelve.
  - exists ((λ f, default [] (f_group f)) <$> l). 
    exact (f_equal (fmap (λ f, default [] (f_group f))) Hl).
  - cbn [f_match found_after]. unfold body. simpl.
    destruct (S (length (enc ++ q' :: post)) - length post)%nat eqn:E; [|done].
    rewrite length_app in E. simpl in E. lia.
Qed.

(** A base64 payload of at least seven bytes, in quotes, of a command that
    mentions [base64] and [-d], is decoded: if the decoded text holds a
    dangerous word the command is reported with the decoded text. *)
Theorem encoded_payload_detected d pre q bs q' post :
  let c := pre ++ q :: b64_encode bs ++ q' :: post in
  trimmed c →
  Forall (λ r, is_b64_quote r = false) pre → is_b64_quote q = true → is_b64_quote q' = true →
  Forall (λ b, is_byte b = true) bs → (7 <= length bs)%nat →
  contains (to_lower c) (txt "base64") = true → contains (to_lower c) (txt "-d") = true →
  containsDangerousKeyword d (utf8_decode bs) = true →
  IsCommandDangerous d c = Some (txt "检测到Base64编码的危险命令: " ++ utf8_decode bs).
Proof.
  intros c Ht Hpre Hq Hq' Hbs Hlen H1 H2 Hk. unfold IsCommandDangerous.
  rewrite (trimmed_id _ Ht).
  destruct (find_quoted_b64 pre q (b64_encode bs) q' post) as [l Hl]; try done.
  { by apply b64_encode_runes. }
  { pose proof (b64_encode_length bs). lia. }
  assert (detectBase64Bypass d c = Some (txt "检测到Base64编码的危险命令: " ++ utf8_decode bs))
    as ->.
  { unfold detectBase64Bypass. rewrite H1, H2. cbn [andb].
    unfold c at 1. rewrite Hl. cbn [first_some].
    by rewrite b64_decode_encode, Hk by done. }
  unfold c. by destruct pre.
Qed.

Lemma find_dollar_paren pre body post :
  36 ∉ pre → 41 ∉ body → body ≠ [] →
  ∃ l, find_all_group dollar_paren_re (pre ++ txt "$(" ++ body ++ txt ")" ++ post) = body :: l.
Proof.
  intros Hpre Hbody Hne. set (s := txt "$(" ++ body ++ txt ")" ++ post).
  assert (Forall (λ x, cls_match true [(41, 41)] x = true) body) as Hcls.
  { apply Forall_forall. intros x Hx. unfold cls_match, in_range. simpl.
    rewrite orb_false_r. apply negb_true_iff, andb_false_iff.
    assert (x ≠ 41) by (intros ->; done). lia. }
  edestruct (find_all_head dollar_paren_re (pre ++ s)) as [l Hl]; [|shelve..|].
  { change dollar_paren_re with
      (Cat (Cls false [(36, 36)]) (Cat (Cls false [(40, 40)])
        (Cat (Grp (Cat (Cls true [(41, 41)]) (Star true (Cls true [(41, 41)]))))
             (Cls false [(41, 41)])))).
    rewrite find_from_skip.
    - rewrite (find_from_here _ _ s post (Some body)); [reflexivity|].
      unfold s. change (txt "$(") with [36; 40]. change (txt ")") with [41]. cbn [app].
      rewrite bt_cat, bt_cls, bt_cat, bt_cls, bt_cat, bt_grp, bt_cat by done.
      destruct body as [|x body]; [done|]. apply Forall_cons in Hcls as [Hx Hcls].
      cbn [app]. rewrite bt_cls by done. apply bt_star_run; [done| |].
      + by intros y s' [= <- <-].
      + rewrite bt_cls by done. change (x :: body ++ 41 :: post) with ((x :: body) ++ 41 :: post).
        rewrite take_before. done.
    - apply Forall_forall. intros x Hx. unfold cls_match, in_range. simpl.
      rewrite orb_false_r. apply andb_false_iff.
      assert (x ≠ 36) by (intros ->; done). lia. }
  Unshelve.
  - exists ((λ f, default [] (f_group f)) <$> l). 
    exact (f_equal (fmap (λ f, default [] (f_group f))) Hl).
  - cbn [f_match found_after]. unfold s. rewrite !length_app. simpl.
    destruct (S (S (length body + S (length post))) - length post)%nat eqn:E; [lia|done].
Qed.

(** A command substitution [$(...)] whose body holds a dangerous word makes
    the command dangerous, wherever it stands. *)
Theorem substitution_detected d pre body post :
  let c := pre ++ txt "$(" ++ body ++ txt ")" ++ post in
  trimmed c → 36 ∉ pre → 41 ∉ body → containsDangerousKeyword d body = true →
  is_Some (IsCommandDangerous d c).
Proof.
  intros c Ht Hpre Hbody (w & Hw & Hk)%containsDangerousKeyword_spec.
  destruct (IsCommandDangerous d c) eqn:E; [eauto|exfalso].
  assert (body ≠ []) as Hne by (intros ->; by apply not_elem_of_nil in Hw).
  destruct (find_dollar_paren pre body post) as [l Hl]; [done..|]. fold c in Hl.
  assert (dollar_paren_re ∈ [dollar_paren_re; backtick_re]) as Hp by left.
  assert (body ∈ find_all_group dollar_paren_re c) as Hm by (rewrite Hl; left).
  apply IsCommandDangerous_stages in E. rewrite (trimmed_id _ Ht) in E.
  destruct E as [E|(_ & _ & _ & _ & E & _)].
  - unfold c in E. by destruct pre.
  - eapply (detectCommandSubstitution_None d c); try done.
    by eapply substitution_match.
Qed.
End detector_facts.

(** ** Witnesses *)

Lemma quoting_never_evades_witness :
  is_Some (IsCommandDangerous NewAdvancedDetector (txt "r\m x")).
Proof.
  apply (quoting_never_evades (txt "rm x") (txt "r\m x") (txt "rm")).
  - apply (bool_decide_unpack _). vm_compute. exact I.
  - unfold dangerous_word. apply (bool_decide_unpack _). vm_compute. exact I.
  - change (txt "rm x") with [114; 109; 32; 120].
    change (txt "r\m x") with [114; 92; 109; 32; 120].
    apply ob_keep, ob_insert; [reflexivity|]. repeat constructor.
Defined.

Lemma script_stage_dead_witness :
  is_Some (detectEscapeBypass NewAdvancedDetector (txt "echo rm > a.sh && bash a.sh")).
Proof. apply script_stage_dead. vm_compute. eexists. reflexivity. Defined.

Lemma IsCommandDangerous_accepts_witness :
  IsCommandDangerous NewAdvancedDetector (txt "ls -la") = None ∧
  (∀ w, w ∈ fields (unquoted (txt "ls -la")) → ¬ dangerous_word NewAdvancedDetector w).
Proof.
  assert (IsCommandDangerous NewAdvancedDetector (txt "ls -la") = None) as H
    by (vm_compute; reflexivity).
  split; [exact H|].
  exact (proj1 (IsCommandDangerous_accepts NewAdvancedDetector (txt "ls -la") H)).
Defined.

Lemma encoded_payload_detected_witness :
  IsCommandDangerous NewAdvancedDetector
    (txt "echo " ++ 39 :: b64_encode (txt "rm -rf /") ++ 39 :: txt " | base64 -d")
  = Some (txt "检测到Base64编码的危险命令: " ++ utf8_decode (txt "rm -rf /")).
Proof.
  apply (encoded_payload_detected NewAdvancedDetector (txt "echo ") 39 (txt "rm -rf /") 39
           (txt " | base64 -d")).
  - apply trimmedb_spec. vm_compute. reflexivity.
  - apply (bool_decide_unpack _). vm_compute. exact I.
  - reflexivity.
  - reflexivity.
  - apply (bool_decide_unpack _). vm_compute. exact I.
  - vm_compute. lia.
  - vm_compute. reflexivity.
  - vm_compute. reflexivity.
  - vm_compute. reflexivity.
Defined.

Lemma substitution_detected_witness :
  is_Some (IsCommandDangerous NewAdvancedDetector (txt "" ++ txt "$(" ++ txt "echo rm" ++ txt ")" ++ txt " x")).
Proof.
  apply (substitution_detected NewAdvancedDetector (txt "") (txt "echo rm") (txt " x")).
  - apply trimmedb_spec. vm_compute. reflexivity.
  - apply (bool_decide_unpack _). vm_compute. exact I.
  - apply (bool_decide_unpack _). vm_compute. exact I.
  - vm_compute. reflexivity.
Defined.

(** ** What still evades *)

(** Naming the program by its absolute path evades the detector: only
    leading dots and slashes are stripped from a word, so [/bin/rm] becomes
    [bin/rm], which is no keyword, while [rm] alone is reported. *)
Theorem absolute_path_evades :
  IsCommandDangerous NewAdvancedDetector (txt "/bin/rm -rf home") = None ∧
  IsCommandDangerous NewAdvancedDetector (txt "/sbin/mkfs /dev/sda") = None ∧
  is_Some (IsCommandDangerous NewAdvancedDetector (txt "rm -rf home")).
Proof. vm_compute. split_and!; [done|done|by eexists]. Qed.
