(* ===== verification/Blacklist.v ===== *)
(** * The blacklist manager

    [blacklist.Manager] of [internal/bastion/blacklist/manager.go]: which
    commands of which users are blocked, and why; the rules come from the
    database ([NewManagerFromDB]) or from the API ([NewManager]), with a default
    list when neither answers.  The read-write lock makes each query and each
    refresh one step ([manager_step]).  The administration endpoints of
    [internal/api/handler/blacklist_handler.go] write the table the manager
    reads. *)

From stdpp Require Import base list strings relations sets.
From Stdlib Require Import ZArith Lia Ascii.
From S2P Require Import Prelude GoStrings GoRegexp Encodings Gorm Detector.
Local Open Scope Z_scope.

(** [types.BlacklistRule]; the timestamps are not read. *)
Record BlacklistRule := {
  ID : text;
  Command : text;
  Pattern : text;
  Description : text;
  Scope : text;
  Users : list text;
  Enabled : bool
}.

(** [model.BlacklistRule], the row of [blacklist_rules]. *)
Record BlacklistRow := {
  row_ID : text;
  row_Command : text;
  row_Pattern : text;
  row_Description : text;
  row_Scope : text;
  row_Users : list text;
  row_Enabled : bool;
  row_CreatedAt : Z;
  row_UpdatedAt : Z
}.

Record Manager := {
  globalRules : list BlacklistRule;
  userRules : list BlacklistRule;
  advancedDetector : option AdvancedDetector;
  notificationMgr : bool          (* a notifier is set *)
}.

Definition set_rules (m : Manager) (g u : list BlacklistRule) : Manager :=
  {| globalRules := g; userRules := u; advancedDetector := advancedDetector m;
     notificationMgr := notificationMgr m |}.

Definition scope_global : text := txt "global".
Definition scope_user : text := txt "user".

(** ** Matching *)

(** The loop of [matchPattern] over the parts between the stars; [s] is
    [str[pos:]]. *)
Fixpoint match_parts (s : text) (parts : list text) : bool :=
  match parts with
  | [] => true
  | part :: parts =>
      if is_empty part then match_parts s parts
      else match index s part with
           | None => false
           | Some idx => match_parts (drop (idx + length part) s) parts
           end
  end.

Definition star : rune := 42.

Definition matchPattern (str pattern : text) : bool :=
  let parts := split_on star pattern in
  let parts := match parts with [] :: parts => parts | _ => parts end in
  match_parts str parts.

Definition matchCommand (command pattern : text) : bool :=
  if text_eqb command pattern then true
  else if contains pattern [star] then matchPattern command pattern
  else match fields command with
       | part :: _ => has_prefix part pattern
       | [] => false
       end.

Section manager.
Context `{Unicode}.

Definition containsUser (users : list text) (username : text) : bool :=
  existsb (λ u, equal_fold u username) users.

Definition rule_matches (lowerCommand : text) (rule : BlacklistRule) : bool :=
  matchCommand lowerCommand (to_lower (Pattern rule)).

(** [checkBlocked]: the detector, then the global rules, then the user's. *)
Definition checkBlocked (m : Manager) (command username : text) : bool * text :=
  let command := trim_space command in
  if is_empty command then (false, [])
  else
    let detected := d ← advancedDetector m; IsCommandDangerous d command in
    let lowerCommand := to_lower command in
    let blocked := detected
      <|> first_some (λ rule,
            if rule_matches lowerCommand rule
            then Some (if is_empty (Description rule)
                       then txt "匹配全局黑名单规则: " ++ Command rule else Description rule)
            else None) (globalRules m)
      <|> (if negb (is_empty username) then
             first_some (λ rule,
               if containsUser (Users rule) username then
                 if rule_matches lowerCommand rule
                 then Some (if is_empty (Description rule)
                            then txt "匹配用户级黑名单规则: " ++ Command rule else Description rule)
                 else None
               else None) (userRules m)
           else None) in
    match blocked with Some reason => (true, reason) | None => (false, []) end.

Definition IsBlocked (m : Manager) (command username : text) : bool :=
  (checkBlocked m command username).1.

(** The alert [SendDangerousCommandAlert] is sent with. *)
Record alert := {
  alert_username : text; alert_host : text; alert_command : text; alert_reason : text }.

Definition IsBlockedWithNotify (m : Manager) (command username hostIP : text)
    : bool * option alert :=
  let '(blocked, reason) := checkBlocked m command username in
  (blocked,
   if blocked && notificationMgr m
   then Some {| alert_username := username; alert_host := hostIP; alert_command := command;
                alert_reason := reason |}
   else None).

Definition GetBlockReason (m : Manager) (command username : text) : text :=
  let command := trim_space command in
  let lowerCommand := to_lower command in
  let reason :=
    match advancedDetector m with
    | Some d =>
        match IsCommandDangerous d command with
        | Some reason => Some (txt "高级安全检测: " ++ reason)
        | None => None
        end
    | None => None
    end
    <|> first_some (λ rule,
          if rule_matches lowerCommand rule
          then Some (if is_empty (Description rule)
                     then txt "命令 '" ++ Command rule ++ txt "' 被全局安全策略禁止"
                     else txt "全局安全策略: " ++ Description rule)
          else None) (globalRules m)
    <|> (if negb (is_empty username) then
           first_some (λ rule,
             if containsUser (Users rule) username then
               if rule_matches lowerCommand rule
               then Some (if is_empty (Description rule)
                          then txt "命令 '" ++ Command rule ++ txt "' 对用户 '" ++ username
                               ++ txt "' 被禁止"
                          else txt "用户安全策略: " ++ Description rule)
               else None
             else None) (userRules m)
         else None) in
  default (txt "命令被安全策略阻止") reason.

Definition SetNotificationManager (m : Manager) (b : bool) : Manager :=
  {| globalRules := globalRules m; userRules := userRules m;
     advancedDetector := advancedDetector m; notificationMgr := b |}.
End manager.

(** [GetStats]: global, user and total rules. *)
Definition GetStats (m : Manager) : nat * nat * nat :=
  (length (globalRules m), length (userRules m),
   (length (globalRules m) + length (userRules m))%nat).

(** ** Loading the rules *)

Definition to_rule (rule : BlacklistRow) : BlacklistRule :=
  {| ID := row_ID rule; Command := row_Command rule; Pattern := row_Pattern rule;
     Description := row_Description rule; Scope := row_Scope rule;
     Users := row_Users rule; Enabled := row_Enabled rule |}.

(** The loop that sorts the rules by scope; any other scope is dropped. *)
Fixpoint classify (rules g u : list BlacklistRule) : list BlacklistRule * list BlacklistRule :=
  match rules with
  | [] => (g, u)
  | rule :: rules =>
      if text_eqb (Scope rule) scope_global then classify rules (g ++ [rule]) u
      else if text_eqb (Scope rule) scope_user then classify rules g (u ++ [rule])
      else classify rules g u
  end.

(** [ApiClient.FetchBlacklist]: the HTTP status and, when the body decodes, the
    code and the rules of the response. *)
Inductive fetch_error := SendFailed | BadStatus | DecodeFailed | ApiFailed.

Definition FetchBlacklist (response : option (Z * option (Z * list BlacklistRule)))
    : result fetch_error (list BlacklistRule) :=
  match response with
  | None => Err SendFailed
  | Some (status, body) =>
      if negb (status =? 200) then Err BadStatus
      else match body with
           | None => Err DecodeFailed
           | Some (code, rules) => if negb (code =? 0) then Err ApiFailed else Ok rules
           end
  end.

Definition refresh (m : Manager)
    (response : option (Z * option (Z * list BlacklistRule))) : result fetch_error Manager :=
  rules ← FetchBlacklist response;
  let '(g, u) := classify rules [] [] in
  Ok (set_rules m g u).

Definition default_rule (id command pattern description : text) : BlacklistRule :=
  {| ID := id; Command := command; Pattern := pattern; Description := description;
     Scope := scope_global; Users := []; Enabled := true |}.

Definition defaultBlacklist : list BlacklistRule :=
  [ default_rule (txt "default-1") (txt "rm") (txt "rm") (txt "删除文件");
    default_rule (txt "default-2") (txt "rm -rf") (txt "rm -rf *") (txt "递归强制删除");
    default_rule (txt "default-3") (txt "dd") (txt "dd") (txt "磁盘操作");
    default_rule (txt "default-4") (txt "mkfs") (txt "mkfs") (txt "格式化磁盘");
    default_rule (txt "default-5") (txt "reboot") (txt "reboot") (txt "重启系统");
    default_rule (txt "default-6") (txt "shutdown") (txt "shutdown") (txt "关机");
    default_rule (txt "default-7") (txt "halt") (txt "halt") (txt "停机") ].

Definition setDefaultBlacklist (m : Manager) : Manager := set_rules m defaultBlacklist [].

Definition emptyManager : Manager :=
  {| globalRules := []; userRules := []; advancedDetector := Some NewAdvancedDetector;
     notificationMgr := false |}.

(** [NewManager]: a manager fed by the API. *)
Definition NewManager (response : option (Z * option (Z * list BlacklistRule))) : Manager :=
  match refresh emptyManager response with
  | Ok m => m
  | Err _ => setDefaultBlacklist emptyManager
  end.

Section rules_table.
Context `{S : Store BlacklistRow text}.

(** [refreshFromDB]; no database is an error, and an error leaves the rules. *)
Definition refreshFromDB (m : Manager) (db : option (store S)) : result db_error Manager :=
  match db with
  | None => Err DBFailure
  | Some db =>
      dbRules ← db_find db row_Enabled;
      let '(g, u) := classify (to_rule <$> dbRules) [] [] in
      Ok (set_rules m g u)
  end.

Definition NewManagerFromDB (db : store S) : Manager :=
  match refreshFromDB emptyManager (Some db) with
  | Ok m => m
  | Err _ => setDefaultBlacklist emptyManager
  end.

(** One turn of [startRefreshLoopFromDB]: an error is logged. *)
Definition refresh_tick (m : Manager) (db : store S) : Manager :=
  match refreshFromDB m (Some db) with Ok m => m | Err _ => m end.

(** The manager between two critical sections: the refresh goroutine reads
    whatever the table holds at that moment. *)
Inductive manager_step : Manager → Manager → Prop :=
  | step_tick m db : manager_step m (refresh_tick m db)
  | step_notifier m b : manager_step m (SetNotificationManager m b).

(** ** The administration of the table *)

Definition GetCommands (db : store S) : result db_error (list BlacklistRow) :=
  db_find db (λ _, true).

Definition GetActiveCommands (db : store S) : result db_error (list BlacklistRow) :=
  db_find db row_Enabled.

(** [CreateCommand], after [ShouldBindJSON]: the id and the time are fresh. *)
Definition CreateCommand (db : store S) (req : BlacklistRow) (id : text) (now : Z)
    : result db_error (store S) :=
  db_create db
    {| row_ID := id; row_Command := row_Command req; row_Pattern := row_Pattern req;
       row_Description := row_Description req; row_Scope := row_Scope req;
       row_Users := row_Users req; row_Enabled := true;
       row_CreatedAt := now; row_UpdatedAt := now |}.

(** [Updates] with a struct assigns the fields of [req] gorm chooses. *)
Definition UpdateCommand (assign : BlacklistRow → BlacklistRow → BlacklistRow)
    (db : store S) (id : text) (req : BlacklistRow) (now : Z) : result db_error (store S) :=
  let req := {| row_ID := row_ID req; row_Command := row_Command req;
                row_Pattern := row_Pattern req; row_Description := row_Description req;
                row_Scope := row_Scope req; row_Users := row_Users req;
                row_Enabled := row_Enabled req; row_CreatedAt := row_CreatedAt req;
                row_UpdatedAt := now |} in
  db_update db (λ r, text_eqb (row_ID r) id) (assign req).

Definition DeleteCommand (db : store S) (id : text) : result db_error (store S) :=
  db_delete db (λ r, text_eqb (row_ID r) id).
End rules_table.

(** ** Wildcards *)

(** [parts] occur in [s] in this order without overlapping. *)
Inductive in_order : text → list text → Prop :=
  | io_nil s : in_order s []
  | io_cons a p s ps : in_order s ps → in_order (a ++ p ++ s) (p :: ps).

Definition nonempty_parts (ps : list text) : list text := keep (λ p, negb (is_empty p)) ps.

Lemma in_order_app a s ps : in_order s ps → in_order (a ++ s) ps.
Proof.
  intros Hs. destruct Hs as [|b p s ps Hs]; [constructor|].
  rewrite app_assoc. by constructor.
Qed.

(** The first occurrence is as good as any other. *)
Lemma in_order_first s p ps i :
  index s p = Some i → in_order s (p :: ps) → in_order (drop (i + length p) s) ps.
Proof.
  intros Hi Hs. inversion Hs as [|a p' s' ps' Hs']; subst.
  apply index_Some in Hi as (_ & _ & _ & _ & Hmin). specialize (Hmin a s' eq_refl).
  rewrite app_assoc, drop_app_le by (rewrite length_app; lia). by apply in_order_app.
Qed.

Lemma match_parts_spec s ps : match_parts s ps = true ↔ in_order s (nonempty_parts ps).
Proof.
  revert s. induction ps as [|p ps IH]; intros s; cbn [match_parts].
  - split; [constructor|done].
  - destruct (is_empty p) eqn:Ep; unfold nonempty_parts; cbn [keep]; rewrite Ep; simpl.
    { apply IH. }
    fold (nonempty_parts ps). destruct (index s p) as [i|] eqn:Ei.
    + rewrite IH. split; [|by apply in_order_first].
      apply index_Some in Ei as (a & b & -> & <- & _). intros Hs.
      rewrite app_assoc, <- length_app, drop_app_length in Hs. by constructor.
    + split; [done|]. intros Hs. inversion Hs; subst.
      by destruct (proj1 (index_None _ _) Ei a s0).
Qed.

(** [matchPattern] matches exactly when the non-empty parts between the
    stars of the pattern occur in the text in order and without overlap: taking
    the first occurrence of each part never misses a match. *)
Theorem matchPattern_spec str pattern :
  matchPattern str pattern = true ↔ in_order str (nonempty_parts (split_on star pattern)).
Proof.
  unfold matchPattern. rewrite match_parts_spec.
  destruct (split_on star pattern) as [|[|x w] ps]; done.
Qed.

(** What a pattern with stars usually means: the whole text, each star any run
    of runes. *)
Inductive glob : text → text → Prop :=
  | glob_nil : glob [] []
  | glob_star p a s : glob p s → glob (star :: p) (a ++ s)
  | glob_lit x p s : x ≠ star → glob p s → glob (x :: p) (x :: s).

Lemma in_order_word w s ps :
  in_order s (nonempty_parts ps) → in_order (w ++ s) (nonempty_parts (w :: ps)).
Proof.
  intros Hs. destruct w as [|y w]; [done|].
  exact (io_cons [] (y :: w) s (nonempty_parts ps) Hs).
Qed.

Lemma glob_parts pattern str :
  glob pattern str → ∃ w ps s, split_on star pattern = w :: ps ∧ str = w ++ s ∧
    in_order s (nonempty_parts ps).
Proof.
  induction 1 as [|p a s _ (w & ps & s' & Hsp & -> & Hio)|x p s Hx _ (w & ps & s' & Hsp & -> & Hio)].
  - exists [], [], []. split_and!; [done..|constructor].
  - exists [], (w :: ps), (a ++ w ++ s'). split_and!; [|done|].
    + cbn [split_on]. by rewrite Z.eqb_refl, Hsp.
    + by apply in_order_app, in_order_word.
  - exists (x :: w), ps, s'. split_and!; [|done|done].
    cbn [split_on]. rewrite (proj2 (Z.eqb_neq _ _)) by done. by rewrite Hsp.
Qed.

(** A text the pattern describes as a whole (each star standing for any run
    of runes) is matched: a rule with wildcards never misses a command it
    describes. *)
Theorem matchPattern_complete pattern str : glob pattern str → matchPattern str pattern = true.
Proof.
  intros (w & ps & s & Hsp & -> & Hio)%glob_parts. rewrite matchPattern_spec, Hsp.
  by apply in_order_word.
Qed.

(** The converse fails: patterns are not anchored, so [rm -rf *] also
    blocks a command that only contains [rm -rf ], and a pattern without stars
    is a prefix of the first word, so the default rule [rm] blocks [rmdir] and
    a rule with an empty pattern blocks everything. *)
Theorem patterns_unanchored :
  matchCommand (txt "farm -rf x") (txt "rm -rf *") = true ∧
  ¬ glob (txt "rm -rf *") (txt "farm -rf x") ∧
  matchCommand (txt "rmdir x") (txt "rm") = true ∧
  (∀ c, fields c ≠ [] → matchCommand c [] = true).
Proof.
  split_and!; [reflexivity| |reflexivity|].
  - intros (w & ps & s & Hsp & Hs & _)%glob_parts. vm_compute in Hsp.
    injection Hsp as <- _. discriminate Hs.
  - intros c Hc. unfold matchCommand. destruct (text_eqb c []); [done|].
    change (contains [] [star]) with false. cbn iota.
    by destruct (fields c).
Qed.

(** ** Who is blocked, and why

    The specification: the first cause in the order detector, global rules,
    rules that list the user. *)

Inductive block_cause :=
  | ByDetector (reason : text)
  | ByGlobal (rule : BlacklistRule)
  | ByUser (rule : BlacklistRule).

Definition find_first {A} (p : A → bool) (l : list A) : option A :=
  first_some (λ x, if p x then Some x else None) l.

Section blocking.
Context `{UL : UnicodeLaws}.

Definition block_cause_of (m : Manager) (command username : text) : option block_cause :=
  let lowerCommand := to_lower command in
  (ByDetector <$> (d ← advancedDetector m; IsCommandDangerous d command))
  <|> (ByGlobal <$> find_first (rule_matches lowerCommand) (globalRules m))
  <|> (if negb (is_empty username)
       then ByUser <$> find_first (λ rule, containsUser (Users rule) username
                                           && rule_matches lowerCommand rule) (userRules m)
       else None).

(** The reason [checkBlocked] gives, and the sentence of [GetBlockReason]. *)
Definition short_reason (c : block_cause) : text :=
  match c with
  | ByDetector r => r
  | ByGlobal rule => if is_empty (Description rule)
                     then txt "匹配全局黑名单规则: " ++ Command rule else Description rule
  | ByUser rule => if is_empty (Description rule)
                   then txt "匹配用户级黑名单规则: " ++ Command rule else Description rule
  end.

Definition long_reason (username : text) (c : block_cause) : text :=
  match c with
  | ByDetector r => txt "高级安全检测: " ++ r
  | ByGlobal rule => if is_empty (Description rule)
                     then txt "命令 '" ++ Command rule ++ txt "' 被全局安全策略禁止"
                     else txt "全局安全策略: " ++ Description rule
  | ByUser rule => if is_empty (Description rule)
                   then txt "命令 '" ++ Command rule ++ txt "' 对用户 '" ++ username ++ txt "' 被禁止"
                   else txt "用户安全策略: " ++ Description rule
  end.

Lemma first_some_find {A B} (p : A → bool) (f : A → B) l :
  first_some (λ x, if p x then Some (f x) else None) l = f <$> find_first p l.
Proof. induction l as [|x l IH]; [done|]. cbn. destruct (p x); [done|exact IH]. Qed.

Lemma first_some_ext {A B} (f g : A → option B) l :
  (∀ x, f x = g x) → first_some f l = first_some g l.
Proof. intros Hfg. induction l as [|x l IH]; [done|]. simpl. by rewrite Hfg, IH. Qed.

Lemma find_first_Some {A} (p : A → bool) l x : find_first p l = Some x → x ∈ l ∧ p x = true.
Proof.
  intros (l1 & y & l2 & -> & Hy & _)%first_some_Some. destruct (p y) eqn:E; simplify_eq.
  split; [|done]. apply elem_of_app. right. left.
Qed.

Lemma find_first_None {A} (p : A → bool) l :
  find_first p l = None ↔ ∀ x, x ∈ l → p x = false.
Proof.
  unfold find_first. rewrite first_some_None. split; intros Hl x Hx; specialize (Hl x Hx);
    by destruct (p x).
Qed.

Lemma user_rules_loop {B} (f : BlacklistRule → B) m u c :
  first_some (λ rule, if containsUser (Users rule) u then
                        if rule_matches c rule then Some (f rule) else None
                      else None) (userRules m) =
  f <$> find_first (λ rule, containsUser (Users rule) u && rule_matches c rule) (userRules m).
Proof.
  rewrite <- first_some_find. apply first_some_ext. intros r.
  by destruct (containsUser _ _).
Qed.

Ltac cause :=
  cbn [fmap option_fmap option_map from_option id long_reason short_reason].

Lemma checkBlocked_cause m c u :
  trim_space c ≠ [] →
  checkBlocked m c u =
    match block_cause_of m (trim_space c) u with
    | Some cause => (true, short_reason cause)
    | None => (false, [])
    end.
Proof.
  intros Hc. unfold checkBlocked, block_cause_of.
  destruct (is_empty (trim_space c)) eqn:E; [by destruct (trim_space c)|].
  rewrite !first_some_find, !user_rules_loop.
  destruct (d ← advancedDetector m; IsCommandDangerous d (trim_space c)); [reflexivity|].
  destruct (find_first _ (globalRules m)); [reflexivity|].
  destruct (negb (is_empty u)); [|reflexivity].
  destruct (find_first _ (userRules m)); reflexivity.
Qed.

Lemma GetBlockReason_cause m c u :
  GetBlockReason m c u =
    match block_cause_of m (trim_space c) u with
    | Some cause => long_reason u cause
    | None => txt "命令被安全策略阻止"
    end.
Proof.
  unfold GetBlockReason, block_cause_of. rewrite !first_some_find, !user_rules_loop.
  destruct (advancedDetector m) as [d|]; cbn [mbind option_bind];
    [destruct (IsCommandDangerous d (trim_space c)); cause; [reflexivity|]|cause];
    (destruct (find_first _ (globalRules m)); cause; [reflexivity|]);
    (destruct (negb (is_empty u)); cause; [|reflexivity]);
    destruct (find_first _ (userRules m)); cause; reflexivity.
Qed.

Lemma IsBlocked_cause m c u :
  IsBlocked m c u = true ↔ trim_space c ≠ [] ∧ is_Some (block_cause_of m (trim_space c) u).
Proof.
  unfold IsBlocked. destruct (decide (trim_space c = [])) as [E|E].
  - unfold checkBlocked. rewrite E. naive_solver.
  - rewrite checkBlocked_cause by done.
    rewrite is_Some_alt. destruct (block_cause_of _ _ _); naive_solver.
Qed.
(** C7: [checkBlocked] and [GetBlockReason] implement one specification: a
    command is blocked exactly when it has a cause, the reason reported is that
    of the first cause (detector, then global rules, then the user's), and
    [GetBlockReason] words the same cause. *)
Theorem checkBlocked_refines m c u :
  trim_space c ≠ [] →
  checkBlocked m c u =
    match block_cause_of m (trim_space c) u with
    | Some cause => (true, short_reason cause)
    | None => (false, [])
    end ∧
  GetBlockReason m c u =
    match block_cause_of m (trim_space c) u with
    | Some cause => long_reason u cause
    | None => txt "命令被安全策略阻止"
    end.
Proof. intros Hc. split; [by apply checkBlocked_cause|apply GetBlockReason_cause]. Qed.

End blocking.

(** ** Which rules are enforced *)

Definition is_global (rule : BlacklistRule) : bool := text_eqb (Scope rule) scope_global.
Definition is_user (rule : BlacklistRule) : bool := text_eqb (Scope rule) scope_user.

Lemma classify_keep rules g u :
  classify rules g u = (g ++ keep is_global rules, u ++ keep is_user rules).
Proof.
  revert g u. induction rules as [|r rules IH]; intros g u; cbn [classify keep].
  - by rewrite !app_nil_r.
  - fold (is_global r) (is_user r). destruct (is_global r) eqn:Eg.
    + assert (is_user r = false) as ->.
      { unfold is_global, is_user in *. apply bool_decide_eq_true in Eg.
        apply bool_decide_eq_false. rewrite Eg. by vm_compute. }
      by rewrite IH, <- app_assoc.
    + destruct (is_user r); by rewrite IH, <- ?app_assoc.
Qed.

Section enforcement.
Context `{UL : UnicodeLaws}.

Lemma global_rule_blocks m c u rule :
  rule ∈ globalRules m → trim_space c ≠ [] →
  rule_matches (to_lower (trim_space c)) rule = true → IsBlocked m c u = true.
Proof.
  intros Hr Hc Hm. apply IsBlocked_cause. split; [done|]. unfold block_cause_of.
  apply or_else_is_Some. right. apply or_else_is_Some. left. apply fmap_is_Some.
  destruct (find_first _ _) eqn:E; [done|]. rewrite find_first_None in E.
  specialize (E rule Hr). congruence.
Qed.

Lemma user_rule_blocks m c u rule :
  rule ∈ userRules m → u ≠ [] → containsUser (Users rule) u = true → trim_space c ≠ [] →
  rule_matches (to_lower (trim_space c)) rule = true → IsBlocked m c u = true.
Proof.
  intros Hr Hu Hin Hc Hm. apply IsBlocked_cause. split; [done|]. unfold block_cause_of.
  apply or_else_is_Some. right. apply or_else_is_Some. right.
  destruct u as [|x u]; [done|]. cbn [is_empty negb]. apply fmap_is_Some.
  destruct (find_first _ _) eqn:E; [done|]. rewrite find_first_None in E.
  specialize (E rule Hr). cbn beta in E. rewrite Hin in E. simpl in E. congruence.
Qed.

(** A user-level rule only affects the users it lists: for anyone else the
    answer is the one for no user at all. *)
Theorem user_rules_isolated m c u :
  (∀ rule, rule ∈ userRules m → containsUser (Users rule) u = false) →
  IsBlocked m c u = IsBlocked m c [].
Proof.
  intros Hu. apply eq_true_iff_eq. rewrite !IsBlocked_cause. unfold block_cause_of.
  cbn [is_empty negb]. destruct (negb (is_empty u)); [|done].
  replace (find_first _ (userRules m)) with (@None BlacklistRule); [done|].
  symmetry. apply find_first_None. intros r Hr. by rewrite (Hu r Hr).
Qed.

Lemma matchCommand_prefix c pattern w ws :
  star ∉ pattern → fields c = w :: ws → has_prefix w pattern = true →
  matchCommand c pattern = true.
Proof.
  intros Hs Hc Hp. unfold matchCommand. destruct (text_eqb c pattern); [done|].
  assert (contains pattern [star] = false) as ->; [|by rewrite Hc].
  rewrite contains_singleton. apply not_true_iff_false. by rewrite contains_rune_spec.
Qed.

Context {S : Store BlacklistRow text} {SL : StoreLaws S}.

Lemma refreshFromDB_Ok m (db : store S) m' :
  refreshFromDB m (Some db) = Ok m' →
  advancedDetector m' = advancedDetector m ∧ notificationMgr m' = notificationMgr m ∧
  (∀ r, r ∈ globalRules m' ↔
    ∃ row, row ∈ db_rows db ∧ row_Enabled row = true ∧ r = to_rule row ∧ is_global r = true) ∧
  (∀ r, r ∈ userRules m' ↔
    ∃ row, row ∈ db_rows db ∧ row_Enabled row = true ∧ r = to_rule row ∧ is_user r = true).
Proof.
  unfold refreshFromDB. rewrite result_bind_Ok. intros (l & Hl & Hm).
  rewrite classify_keep in Hm. injection Hm as <-. cbn [set_rules globalRules userRules app].
  split_and!; [done..| |]; intros r; rewrite elem_of_keep, list_elem_of_fmap;
    (setoid_rewrite (λ x, find_elem db row_Enabled l x Hl)); naive_solver.
Qed.

(** From the table to the answer: after a refresh, an enabled global row
    whose pattern has no star blocks, for every user, each command whose first
    word (in lower case) starts with the pattern. *)
Theorem enabled_rule_enforced m (db : store S) m' row c u w ws :
  refreshFromDB m (Some db) = Ok m' →
  row ∈ db_rows db → row_Enabled row = true → row_Scope row = scope_global →
  star ∉ to_lower (row_Pattern row) →
  fields (to_lower (trim_space c)) = w :: ws →
  has_prefix w (to_lower (row_Pattern row)) = true →
  IsBlocked m' c u = true.
Proof.
  intros (_ & _ & Hg & _)%refreshFromDB_Ok Hin Hen Hsc Hs Hf Hp.
  apply (global_rule_blocks m' c u (to_rule row)).
  - apply Hg. exists row. split_and!; try done. by apply bool_decide_eq_true.
  - intros E. rewrite E in Hf. discriminate.
  - by eapply matchCommand_prefix.
Qed.

(** The rules a manager enforces come from enabled rows of the right scope. *)
Definition rules_ok (m : Manager) : Prop :=
  Forall (λ r, Enabled r = true ∧ Scope r = scope_global) (globalRules m) ∧
  Forall (λ r, Enabled r = true ∧ Scope r = scope_user) (userRules m).

Lemma refreshFromDB_rules_ok m (db : store S) m' :
  refreshFromDB m (Some db) = Ok m' → rules_ok m'.
Proof.
  intros (_ & _ & Hg & Hu)%refreshFromDB_Ok. split; apply Forall_forall; intros r Hr.
  - apply Hg in Hr as (row & _ & Hen & -> & Hsc). split; [done|].
    by apply bool_decide_eq_true in Hsc.
  - apply Hu in Hr as (row & _ & Hen & -> & Hsc). split; [done|].
    by apply bool_decide_eq_true in Hsc.
Qed.

Lemma default_rules_ok : rules_ok (setDefaultBlacklist emptyManager).
Proof. split; repeat constructor. Qed.

Lemma manager_step_ok m m' : rules_ok m → manager_step m m' → rules_ok m'.
Proof.
  intros Hm Hstep. destruct Hstep as [m db|m b]; [|done]. unfold refresh_tick.
  destruct (refreshFromDB m (Some db)) eqn:E; [|done]. by eapply refreshFromDB_rules_ok.
Qed.

(** In every state a database-backed manager can reach, whatever the table
    held at each refresh and whichever refreshes failed, each rule it enforces
    is enabled and sits in the list of its scope, and the detector is on. *)
Theorem manager_reachable (db0 : store S) m :
  rtc manager_step (NewManagerFromDB db0) m →
  rules_ok m ∧ advancedDetector m = Some NewAdvancedDetector.
Proof.
  assert (rules_ok (NewManagerFromDB db0) ∧
          advancedDetector (NewManagerFromDB db0) = Some NewAdvancedDetector) as H0.
  { unfold NewManagerFromDB. destruct (refreshFromDB _ _) eqn:E.
    - split; [by eapply refreshFromDB_rules_ok|]. by apply refreshFromDB_Ok in E as [-> _].
    - split; [apply default_rules_ok|done]. }
  intros Hr. revert m Hr. apply rtc_ind_r; [done|]. intros m1 m2 _ H12 [H1 H2]. split.
  - by eapply manager_step_ok.
  - destruct H12 as [m db|m b]; [|done]. unfold refresh_tick.
    destruct (refreshFromDB m (Some db)) eqn:E; [|done].
    apply refreshFromDB_Ok in E as [-> _]. done.
Qed.

(** ** Administration *)

(** A rule is always created enabled, and an update that asks to disable a
    rule leaves every row as enabled as it was (gorm's [Updates] with a struct
    skips zero fields): once created, a rule stays enforced until it is deleted. *)
Theorem rules_never_disabled assign (db db' : store S) id req now :
  (∀ rq r, row_Enabled rq = false → row_Enabled (assign rq r) = row_Enabled r) →
  (CreateCommand db req id now = Ok db' →
     ∃ r, r ∈ db_rows db' ∧ row_ID r = id ∧ row_Enabled r = true) ∧
  (UpdateCommand assign db id req now = Ok db' → row_Enabled req = false →
     row_Enabled <$> db_rows db' ≡ₚ row_Enabled <$> db_rows db).
Proof.
  intros Ha. split.
  - intros Hc. unfold CreateCommand in Hc. eexists. split.
    + apply (create_elem _ _ _ _ Hc). by left.
    + done.
  - intros Hu Hreq. apply update_rows in Hu as ->. rewrite <- list_fmap_compose.
    assert (∀ (l : list BlacklistRow) f, (∀ r, row_Enabled (f r) = row_Enabled r) →
      (row_Enabled ∘ f) <$> l = row_Enabled <$> l) as Hmap.
    { intros l f Hf. apply list_fmap_ext. intros _ r _. apply Hf. }
    rewrite Hmap; [done|]. intros r. unfold updated.
    destruct (text_eqb _ _); [|done]. by rewrite Ha.
Qed.
End enforcement.

(** ** Witnesses *)

Definition sample_row (pattern scope : text) (users : list text) : BlacklistRow :=
  {| row_ID := txt "r1"; row_Command := pattern; row_Pattern := pattern;
     row_Description := []; row_Scope := scope; row_Users := users; row_Enabled := true;
     row_CreatedAt := 0; row_UpdatedAt := 0 |}.

Definition mem_rules : Store BlacklistRow text := mem_store row_ID.
#[local] Instance mem_rules_laws : StoreLaws mem_rules := mem_store_laws row_ID.

Lemma matchPattern_complete_witness : matchPattern (txt "rm -rf /tmp") (txt "rm *") = true.
Proof.
  apply matchPattern_complete.
  change (txt "rm *") with [114; 109; 32; star].
  change (txt "rm -rf /tmp") with (114 :: 109 :: 32 :: (txt "-rf /tmp" ++ [])).
  do 3 (apply glob_lit; [discriminate|]). apply glob_star, glob_nil.
Defined.

Lemma checkBlocked_refines_witness :
  checkBlocked (setDefaultBlacklist emptyManager) (txt "mkfs.ext4") (txt "bob")
  = (true, txt "命令匹配危险模式").
Proof.
  destruct (checkBlocked_refines (setDefaultBlacklist emptyManager) (txt "mkfs.ext4") (txt "bob"))
    as [E _]; [vm_compute; discriminate|].
  rewrite E. vm_compute. reflexivity.
Defined.

Lemma user_rules_isolated_witness :
  let m := set_rules emptyManager []
    [to_rule (sample_row (txt "vi") scope_user [txt "bob"])] in
  IsBlocked m (txt "vi x") (txt "alice") = IsBlocked m (txt "vi x") [] ∧
  IsBlocked m (txt "vi x") (txt "Bob") = true.
Proof.
  split; [|vm_compute; reflexivity].
  apply user_rules_isolated. intros r [->|[]%not_elem_of_nil]%elem_of_cons.
  vm_compute. reflexivity.
Defined.

Lemma enabled_rule_enforced_witness :
  let db : store mem_rules := [sample_row (txt "vi") scope_global []] in
  ∃ m', refreshFromDB emptyManager (Some db) = Ok m' ∧ IsBlocked m' (txt "vim x") (txt "u") = true.
Proof.
  eexists. split; [reflexivity|].
  eapply (enabled_rule_enforced (S := mem_rules) emptyManager
            [sample_row (txt "vi") scope_global []] _ (sample_row (txt "vi") scope_global [])
            (txt "vim x") (txt "u") (txt "vim") [txt "x"]).
  - reflexivity.
  - left.
  - reflexivity.
  - reflexivity.
  - apply (bool_decide_unpack _). vm_compute. exact I.
  - vm_compute. reflexivity.
  - vm_compute. reflexivity.
Defined.

Lemma manager_reachable_witness :
  rules_ok (NewManagerFromDB (S := mem_rules) [sample_row (txt "vi") scope_global []]) ∧
  advancedDetector (NewManagerFromDB (S := mem_rules) [sample_row (txt "vi") scope_global []])
  = Some NewAdvancedDetector.
Proof.
  apply (manager_reachable (S := mem_rules) [sample_row (txt "vi") scope_global []]).
  apply rtc_refl.
Defined.

(** [Updates] with a struct, as gorm documents it. *)
Definition assign_nonzero (req r : BlacklistRow) : BlacklistRow :=
  let pick (new old : text) := if is_empty new then old else new in
  {| row_ID := pick (row_ID req) (row_ID r); row_Command := pick (row_Command req) (row_Command r);
     row_Pattern := pick (row_Pattern req) (row_Pattern r);
     row_Description := pick (row_Description req) (row_Description r);
     row_Scope := pick (row_Scope req) (row_Scope r);
     row_Users := if is_empty (row_Users req) then row_Users r else row_Users req;
     row_Enabled := row_Enabled req || row_Enabled r;
     row_CreatedAt := if row_CreatedAt req =? 0 then row_CreatedAt r else row_CreatedAt req;
     row_UpdatedAt := row_UpdatedAt req |}.

Lemma rules_never_disabled_witness :
  ∃ db' : store mem_rules,
    UpdateCommand (S := mem_rules) assign_nonzero [sample_row (txt "vi") scope_global []] (txt "r1")
      {| row_ID := []; row_Command := []; row_Pattern := txt "vi"; row_Description := [];
         row_Scope := []; row_Users := []; row_Enabled := false; row_CreatedAt := 0;
         row_UpdatedAt := 0 |} 7 = Ok db' ∧
    row_Enabled <$> db_rows db' ≡ₚ [true].
Proof.
  eexists. split; [reflexivity|].
  eapply (rules_never_disabled (S := mem_rules) assign_nonzero
           [sample_row (txt "vi") scope_global []] _ (txt "r1") _ 7).
  - intros rq r E. simpl. by rewrite E.
  - reflexivity.
  - reflexivity.
Defined.
