(* ===== verification/Models.v ===== *)
(** * The records of the data model

    The structs of [internal/model] and [internal/sshserver/types] that several
    components exchange.  Times are seconds, a nil pointer is [None], and the
    columns only displayed (creation stamps, descriptions of rules and accounts) are left
    out. *)

From stdpp Require Import base list strings.
From Stdlib Require Import ZArith.
From S2P Require Import Prelude GoStrings.
Local Open Scope Z_scope.

Module SystemUser.
(** An account of a target host. *)
Record t := {
  ID : text; Name : text; Username : text;
  AuthType : text; Password : text; PrivateKey : text; Passphrase : text;
  Protocol : text; Priority : Z; Status : text
}.
End SystemUser.

Module UserGroup.
Record t := { ID : text; Name : text; Priority : Z; Status : text }.
End UserGroup.

Module UserGroupMember.
Record t := { ID : Z; UserGroupID : text; UserID : text; AddedBy : text }.
End UserGroupMember.

Module PermissionRule.
(** [HostGroupID] and [SystemUserID] are the columns kept for old rows. *)
Record t := {
  ID : text; Name : text; UserGroupID : text;
  HostGroupID : option text; HostIDs : text; SystemUserID : option text;
  ValidFrom : option Z; ValidTo : option Z; Enabled : bool; Priority : Z
}.

Definition set_enabled (r : t) (b : bool) : t :=
  {| ID := ID r; Name := Name r; UserGroupID := UserGroupID r; HostGroupID := HostGroupID r;
     HostIDs := HostIDs r; SystemUserID := SystemUserID r; ValidFrom := ValidFrom r;
     ValidTo := ValidTo r; Enabled := b; Priority := Priority r |}.
Definition set_valid_to (r : t) (d : option Z) : t :=
  {| ID := ID r; Name := Name r; UserGroupID := UserGroupID r; HostGroupID := HostGroupID r;
     HostIDs := HostIDs r; SystemUserID := SystemUserID r; ValidFrom := ValidFrom r;
     ValidTo := d; Enabled := Enabled r; Priority := Priority r |}.
End PermissionRule.

Module RuleSystemUser.
Record t := { ID : Z; PermissionRuleID : text; SystemUserID : text }.
End RuleSystemUser.

Module RuleHostGroup.
Record t := { ID : Z; PermissionRuleID : text; HostGroupID : text }.
End RuleHostGroup.

Module HostGroup.
Record t := { ID : text; Name : text; Description : text; Color : text; Icon : text;
              SortOrder : Z; CreatedBy : text; HostCount : Z; OnlineCount : Z }.
End HostGroup.

Module HostGroupMember.
Record t := { ID : Z; GroupID : text; HostID : text; AddedBy : text }.
End HostGroupMember.

Module Host.
Record t := {
  ID : text; Name : text; IP : text; Port : Z; Status : text;
  OS : text; CPU : text; Memory : text; Tags : text;
  Description : text; DeviceType : text;
  ConnectionMode : text; ProxyID : text; NetworkZone : text;
  LastLoginTime : option Z; LoginCount : Z
}.

Definition set_logins (h : t) (last : option Z) (n : Z) : t :=
  {| ID := ID h; Name := Name h; IP := IP h; Port := Port h; Status := Status h;
     OS := OS h; CPU := CPU h; Memory := Memory h;
     Tags := Tags h; Description := Description h; DeviceType := DeviceType h;
     ConnectionMode := ConnectionMode h; ProxyID := ProxyID h;
     NetworkZone := NetworkZone h; LastLoginTime := last; LoginCount := n |}.
Definition count_login (h : t) : t := set_logins h (LastLoginTime h) (LoginCount h + 1).

Definition validTypes : list text := txt <$>
  ["linux"; "windows"; "network"; "vmware"; "docker"; "server"; "switch"; "router";
   "firewall"; "other"]%string.

Definition set_device (h : t) (d : text) : t :=
  {| ID := ID h; Name := Name h; IP := IP h; Port := Port h; Status := Status h;
     OS := OS h; CPU := CPU h; Memory := Memory h;
     Tags := Tags h; Description := Description h; DeviceType := d;
     ConnectionMode := ConnectionMode h; ProxyID := ProxyID h; NetworkZone := NetworkZone h;
     LastLoginTime := LastLoginTime h; LoginCount := LoginCount h |}.

(** [ValidateDeviceType]: an empty type becomes [server]. *)
Definition ValidateDeviceType (h : t) : result text t :=
  if is_empty (DeviceType h) then Ok (set_device h (txt "server"))
  else if existsb (text_eqb (DeviceType h)) validTypes then Ok h
  else Err (txt "invalid device type: " ++ DeviceType h).
End Host.

(** [model.Proxy] and its view [model.ProxyInfo]: one table. *)
Module Proxy.
Record t := {
  ID : text; ProxyID : text; HostName : text; IP : text; Port : Z; Status : text;
  Version : text; NetworkZone : text; StartTime : Z; LastHeartbeat : Z
}.
End Proxy.

Module Setting.
Record t := { ID : Z; Key : text; Value : text; Category : text; Type_ : text }.
End Setting.

(** [model.PlatformLoginRecord]. *)
Module PlatformLogin.
Record t := {
  ID : text; UserID : text; Username : text; LoginIP : text; UserAgent : text;
  LoginTime : Z; Status : text
}.
End PlatformLogin.

(** [model.TwoFactorConfig]. *)
Module TwoFactorConfig.
Record t := { ID : Z; Enabled : bool; Issuer : text }.
End TwoFactorConfig.

(** [model.ExpirationNotificationConfig]. *)
Module ExpirationConfig.
Record t := { Type_ : text; WarningDays : Z; Enabled : bool }.
End ExpirationConfig.

(** [model.UserExpirationLog] and [model.PermissionExpirationLog]: the user or
    rule, its group when it is a rule, the action, the date it is about and the
    new one. *)
Module ExpirationLog.
Record t := {
  Subject : text; Name : text; GroupID : text; GroupName : text; Action : text;
  ExpiresAt : option Z; NewExpiresAt : option Z; Reason : text; PerformedBy : text
}.
End ExpirationLog.

(** [model.LoginRecord]; a duration in seconds. *)
Module LoginRecord.
Record t := {
  ID : text; UserID : text; HostID : text; HostName : text; HostIP : text; Username : text;
  LoginIP : text; LoginTime : Z; LogoutTime : option Z; Duration : option Z; Status : text; SessionID : text
}.

Definition set_status (r : t) (st : text) : t :=
  {| ID := ID r; UserID := UserID r; HostID := HostID r; HostName := HostName r;
     HostIP := HostIP r; Username := Username r; LoginIP := LoginIP r; LoginTime := LoginTime r;
     LogoutTime := LogoutTime r; Duration := Duration r; Status := st; SessionID := SessionID r |}.
Definition set_end (r : t) (now duration : Z) (st : text) : t :=
  {| ID := ID r; UserID := UserID r; HostID := HostID r; HostName := HostName r;
     HostIP := HostIP r; Username := Username r; LoginIP := LoginIP r; LoginTime := LoginTime r;
     LogoutTime := Some now; Duration := Some duration; Status := st; SessionID := SessionID r |}.
Definition set_logout (r : t) (now : Z) (st : text) : t :=
  {| ID := ID r; UserID := UserID r; HostID := HostID r; HostName := HostName r;
     HostIP := HostIP r; Username := Username r; LoginIP := LoginIP r; LoginTime := LoginTime r;
     LogoutTime := Some now; Duration := Duration r; Status := st; SessionID := SessionID r |}.
End LoginRecord.

(** [model.SessionRecording] without the recorded data. *)
Module SessionRecording.
Record t := {
  ID : text; SessionID : text; ConnectionType : text; ProxyID : text; UserID : text;
  HostID : text; HostName : text; HostIP : text; Username : text; StartTime : Z;
  EndTime : option Z; Duration : text; Status : text; Recording : text; CommandCount : Z
}.

Definition set_end (r : t) (now : Z) (duration st recording : text) : t :=
  {| ID := ID r; SessionID := SessionID r; ConnectionType := ConnectionType r;
     ProxyID := ProxyID r; UserID := UserID r; HostID := HostID r; HostName := HostName r;
     HostIP := HostIP r; Username := Username r; StartTime := StartTime r; EndTime := Some now;
     Duration := duration; Status := st; Recording := recording;
     CommandCount := CommandCount r |}.
Definition set_status (r : t) (st : text) : t :=
  {| ID := ID r; SessionID := SessionID r; ConnectionType := ConnectionType r;
     ProxyID := ProxyID r; UserID := UserID r; HostID := HostID r; HostName := HostName r;
     HostIP := HostIP r; Username := Username r; StartTime := StartTime r; EndTime := EndTime r;
     Duration := Duration r; Status := st; Recording := Recording r; CommandCount := CommandCount r |}.
Definition set_count (r : t) (n : Z) : t :=
  {| ID := ID r; SessionID := SessionID r; ConnectionType := ConnectionType r;
     ProxyID := ProxyID r; UserID := UserID r; HostID := HostID r; HostName := HostName r;
     HostIP := HostIP r; Username := Username r; StartTime := StartTime r; EndTime := EndTime r;
     Duration := Duration r; Status := Status r; Recording := Recording r; CommandCount := n |}.
End SessionRecording.

(** [model.FileTransfer]; a duration in seconds. *)
Module FileTransfer.
Record t := {
  ID : text; SessionID : text; UserID : text; Username : text; HostID : text; HostIP : text;
  HostName : text; Direction : text; LocalPath : text; RemotePath : text; FileName : text;
  FileSize : Z; Status : text; Progress : Z; ErrorMessage : text; TransferredAt : Z;
  CompletedAt : option Z; Duration : Z
}.

Definition set_progress (f : t) (p : Z) : t :=
  {| ID := ID f; SessionID := SessionID f; UserID := UserID f; Username := Username f;
     HostID := HostID f; HostIP := HostIP f; HostName := HostName f; Direction := Direction f;
     LocalPath := LocalPath f; RemotePath := RemotePath f; FileName := FileName f;
     FileSize := FileSize f; Status := Status f; Progress := p; ErrorMessage := ErrorMessage f;
     TransferredAt := TransferredAt f; CompletedAt := CompletedAt f; Duration := Duration f |}.
Definition set_end (f : t) (status error : text) (p now d : Z) : t :=
  {| ID := ID f; SessionID := SessionID f; UserID := UserID f; Username := Username f;
     HostID := HostID f; HostIP := HostIP f; HostName := HostName f; Direction := Direction f;
     LocalPath := LocalPath f; RemotePath := RemotePath f; FileName := FileName f;
     FileSize := FileSize f; Status := status; Progress := p; ErrorMessage := error;
     TransferredAt := TransferredAt f; CompletedAt := Some now; Duration := d |}.
End FileTransfer.

(** [model.CommandRecord] and [model.CommandHistory]: one table. *)
Module CommandRecord.
Record t := {
  ID : Z; ProxyID : text; SessionID : text; HostID : text; UserID : text; Username : text;
  HostIP : text; Command : text; Output : text; ExitCode : Z; ExecutedAt : Z; DurationMs : Z
}.
End CommandRecord.

(** [model.SessionHistory], without the size of the terminal. *)
Module SessionHistory.
Record t := {
  ID : Z; ProxyID : text; SessionID : text; HostID : text; UserID : text; Username : text;
  HostIP : text; StartTime : Z; EndTime : option Z; Status : text; Recording : text
}.
End SessionHistory.

(** [model.AssetSyncConfig] and [model.AssetSyncLog]; [Created] is [CreatedAt], zero
    when it is not set. *)
Module AssetSyncConfig.
Record t := {
  ID : text; Name : text; Type_ : text; Enabled : bool; URL : text; AuthType : text;
  Username : text; Password : text; Token : text; SyncInterval : Z;
  LastSyncTime : option Z; LastSyncStatus : text; SyncedCount : Z; ErrorMessage : text;
  Config : text; Created : Z
}.
Definition set_enabled (c : t) (e : bool) : t :=
  {| ID := ID c; Name := Name c; Type_ := Type_ c; Enabled := e; URL := URL c; AuthType := AuthType c;
     Username := Username c; Password := Password c; Token := Token c; SyncInterval := SyncInterval c;
     LastSyncTime := LastSyncTime c; LastSyncStatus := LastSyncStatus c; SyncedCount := SyncedCount c;
     ErrorMessage := ErrorMessage c; Config := Config c; Created := Created c |}.
Definition set_id (c : t) (id : text) : t :=
  {| ID := id; Name := Name c; Type_ := Type_ c; Enabled := Enabled c; URL := URL c; AuthType := AuthType c;
     Username := Username c; Password := Password c; Token := Token c; SyncInterval := SyncInterval c;
     LastSyncTime := LastSyncTime c; LastSyncStatus := LastSyncStatus c; SyncedCount := SyncedCount c;
     ErrorMessage := ErrorMessage c; Config := Config c; Created := Created c |}.
Definition set_created (c : t) (now : Z) : t :=
  {| ID := ID c; Name := Name c; Type_ := Type_ c; Enabled := Enabled c; URL := URL c; AuthType := AuthType c;
     Username := Username c; Password := Password c; Token := Token c; SyncInterval := SyncInterval c;
     LastSyncTime := LastSyncTime c; LastSyncStatus := LastSyncStatus c; SyncedCount := SyncedCount c;
     ErrorMessage := ErrorMessage c; Config := Config c; Created := now |}.
Definition set_outcome (c : t) (now : Z) (status : text) (n : Z) (message : text) : t :=
  {| ID := ID c; Name := Name c; Type_ := Type_ c; Enabled := Enabled c; URL := URL c; AuthType := AuthType c;
     Username := Username c; Password := Password c; Token := Token c; SyncInterval := SyncInterval c;
     LastSyncTime := Some now; LastSyncStatus := status; SyncedCount := n; ErrorMessage := message;
     Config := Config c; Created := Created c |}.
End AssetSyncConfig.
Module AssetSyncLog.
Record t := { ID : text; ConfigID : text; Status : text; SyncedCount : Z; ErrorMessage : text; Duration : Z; Created : Z }.
End AssetSyncLog.

(** [sshkey.SSHHostKey]: without the times. *)
Module SSHHostKey.
Record t := { ID : Z; KeyType : text; KeyName : text; PrivateKey : text; PublicKey : text; Fingerprint : text; KeySize : Z }.
Definition set_id (k : t) (id : Z) : t :=
  {| ID := id; KeyType := KeyType k; KeyName := KeyName k; PrivateKey := PrivateKey k; PublicKey := PublicKey k;
     Fingerprint := Fingerprint k; KeySize := KeySize k |}.
Definition redacted (k : t) : t :=
  {| ID := ID k; KeyType := KeyType k; KeyName := KeyName k; PrivateKey := txt "[REDACTED]"; PublicKey := PublicKey k;
     Fingerprint := Fingerprint k; KeySize := KeySize k |}.
End SSHHostKey.

(** [model.Approval]; the status is one of the constants, the platform and the
    type are whatever the request says. *)
Inductive ApprovalStatus :=
  | ApprovalStatusPending
  | ApprovalStatusApproved
  | ApprovalStatusRejected
  | ApprovalStatusCanceled
  | ApprovalStatusExpired.

#[global] Instance ApprovalStatus_eq_dec : EqDecision ApprovalStatus.
Proof. solve_decision. Defined.

Definition status_text (s : ApprovalStatus) : text :=
  match s with
  | ApprovalStatusPending => txt "pending"
  | ApprovalStatusApproved => txt "approved"
  | ApprovalStatusRejected => txt "rejected"
  | ApprovalStatusCanceled => txt "canceled"
  | ApprovalStatusExpired => txt "expired"
  end.

Module Approval.
Record t := {
  ID : text; Title : text; Description : text; Type_ : text; Status : ApprovalStatus;
  Platform : text; ApplicantID : text; ApplicantName : text; ApproverIDs : list text;
  CurrentApprover : text; ResourceType : text; ResourceIDs : list text; ResourceNames : list text;
  Permissions : list text; Duration : Z; ExpiresAt : option Z;
  Reason : text; ApprovalNote : text; RejectReason : text;
  ExternalID : text; ExternalURL : text;
  CreatedAt : Z; UpdatedAt : Z; ApprovedAt : option Z; RejectedAt : option Z
}.

(** The columns a creation fills in, and those a decision writes. *)
Definition set_created (a : t) (id platform : text) (expires : option Z) (now : Z) : t :=
  {| ID := id; Title := Title a; Description := Description a; Type_ := Type_ a;
     Status := ApprovalStatusPending; Platform := platform; ApplicantID := ApplicantID a;
     ApplicantName := ApplicantName a; ApproverIDs := ApproverIDs a;
     CurrentApprover := CurrentApprover a; ResourceType := ResourceType a;
     ResourceIDs := ResourceIDs a; ResourceNames := ResourceNames a;
     Permissions := Permissions a; Duration := Duration a; ExpiresAt := expires;
     Reason := Reason a; ApprovalNote := ApprovalNote a; RejectReason := RejectReason a;
     ExternalID := ExternalID a; ExternalURL := ExternalURL a; CreatedAt := now;
     UpdatedAt := now; ApprovedAt := ApprovedAt a; RejectedAt := RejectedAt a |}.
Definition set_external (a : t) (id url : text) : t :=
  {| ID := ID a; Title := Title a; Description := Description a; Type_ := Type_ a;
     Status := Status a; Platform := Platform a; ApplicantID := ApplicantID a;
     ApplicantName := ApplicantName a; ApproverIDs := ApproverIDs a;
     CurrentApprover := CurrentApprover a; ResourceType := ResourceType a;
     ResourceIDs := ResourceIDs a; ResourceNames := ResourceNames a;
     Permissions := Permissions a; Duration := Duration a; ExpiresAt := ExpiresAt a;
     Reason := Reason a; ApprovalNote := ApprovalNote a; RejectReason := RejectReason a;
     ExternalID := id; ExternalURL := url; CreatedAt := CreatedAt a;
     UpdatedAt := UpdatedAt a; ApprovedAt := ApprovedAt a; RejectedAt := RejectedAt a |}.
Definition set_approvers (a : t) (ids : list text) : t :=
  {| ID := ID a; Title := Title a; Description := Description a; Type_ := Type_ a;
     Status := Status a; Platform := Platform a; ApplicantID := ApplicantID a;
     ApplicantName := ApplicantName a; ApproverIDs := ids;
     CurrentApprover := CurrentApprover a; ResourceType := ResourceType a;
     ResourceIDs := ResourceIDs a; ResourceNames := ResourceNames a;
     Permissions := Permissions a; Duration := Duration a; ExpiresAt := ExpiresAt a;
     Reason := Reason a; ApprovalNote := ApprovalNote a; RejectReason := RejectReason a;
     ExternalID := ExternalID a; ExternalURL := ExternalURL a; CreatedAt := CreatedAt a;
     UpdatedAt := UpdatedAt a; ApprovedAt := ApprovedAt a; RejectedAt := RejectedAt a |}.
Definition set_status (a : t) (status : ApprovalStatus) (now : Z) : t :=
  {| ID := ID a; Title := Title a; Description := Description a; Type_ := Type_ a;
     Status := status; Platform := Platform a; ApplicantID := ApplicantID a;
     ApplicantName := ApplicantName a; ApproverIDs := ApproverIDs a;
     CurrentApprover := CurrentApprover a; ResourceType := ResourceType a;
     ResourceIDs := ResourceIDs a; ResourceNames := ResourceNames a;
     Permissions := Permissions a; Duration := Duration a; ExpiresAt := ExpiresAt a;
     Reason := Reason a; ApprovalNote := ApprovalNote a; RejectReason := RejectReason a;
     ExternalID := ExternalID a; ExternalURL := ExternalURL a; CreatedAt := CreatedAt a;
     UpdatedAt := now; ApprovedAt := ApprovedAt a; RejectedAt := RejectedAt a |}.
Definition set_approver (a : t) (name : text) : t :=
  {| ID := ID a; Title := Title a; Description := Description a; Type_ := Type_ a;
     Status := Status a; Platform := Platform a; ApplicantID := ApplicantID a;
     ApplicantName := ApplicantName a; ApproverIDs := ApproverIDs a;
     CurrentApprover := name; ResourceType := ResourceType a;
     ResourceIDs := ResourceIDs a; ResourceNames := ResourceNames a;
     Permissions := Permissions a; Duration := Duration a; ExpiresAt := ExpiresAt a;
     Reason := Reason a; ApprovalNote := ApprovalNote a; RejectReason := RejectReason a;
     ExternalID := ExternalID a; ExternalURL := ExternalURL a; CreatedAt := CreatedAt a;
     UpdatedAt := UpdatedAt a; ApprovedAt := ApprovedAt a; RejectedAt := RejectedAt a |}.
Definition set_approved (a : t) (time : Z) (note : text) : t :=
  {| ID := ID a; Title := Title a; Description := Description a; Type_ := Type_ a;
     Status := Status a; Platform := Platform a; ApplicantID := ApplicantID a;
     ApplicantName := ApplicantName a; ApproverIDs := ApproverIDs a;
     CurrentApprover := CurrentApprover a; ResourceType := ResourceType a;
     ResourceIDs := ResourceIDs a; ResourceNames := ResourceNames a;
     Permissions := Permissions a; Duration := Duration a; ExpiresAt := ExpiresAt a;
     Reason := Reason a; ApprovalNote := note; RejectReason := RejectReason a;
     ExternalID := ExternalID a; ExternalURL := ExternalURL a; CreatedAt := CreatedAt a;
     UpdatedAt := UpdatedAt a; ApprovedAt := Some time; RejectedAt := RejectedAt a |}.
Definition set_rejected (a : t) (time : Z) (reason : text) : t :=
  {| ID := ID a; Title := Title a; Description := Description a; Type_ := Type_ a;
     Status := Status a; Platform := Platform a; ApplicantID := ApplicantID a;
     ApplicantName := ApplicantName a; ApproverIDs := ApproverIDs a;
     CurrentApprover := CurrentApprover a; ResourceType := ResourceType a;
     ResourceIDs := ResourceIDs a; ResourceNames := ResourceNames a;
     Permissions := Permissions a; Duration := Duration a; ExpiresAt := ExpiresAt a;
     Reason := Reason a; ApprovalNote := ApprovalNote a; RejectReason := reason;
     ExternalID := ExternalID a; ExternalURL := ExternalURL a; CreatedAt := CreatedAt a;
     UpdatedAt := UpdatedAt a; ApprovedAt := ApprovedAt a; RejectedAt := Some time |}.
End Approval.

(** [model.ApprovalComment]. *)
Module ApprovalComment.
Record t := { ID : text; ApprovalID : text; UserID : text; UserName : text; Action : text;
              Comment : text; CreatedAt : Z }.
End ApprovalComment.

(** [model.ApprovalConfig]. *)
Module ApprovalConfig.
Record t := {
  ID : text; Name : text; Type_ : text; Enabled : bool; AppID : text; AppSecret : text;
  ApprovalCode : text; ProcessCode : text; TemplateID : text; FormFields : text;
  ApproverUserIDs : text; APIBaseURL : text; APIPath : text; APIPathGet : text;
  APIPathCancel : text; CallbackURL : text; CreatedAt : Z; UpdatedAt : Z
}.

Definition set_row (c : t) (id : text) (created updated : Z) : t :=
  {| ID := id; Name := Name c; Type_ := Type_ c; Enabled := Enabled c; AppID := AppID c;
     AppSecret := AppSecret c; ApprovalCode := ApprovalCode c; ProcessCode := ProcessCode c;
     TemplateID := TemplateID c; FormFields := FormFields c;
     ApproverUserIDs := ApproverUserIDs c; APIBaseURL := APIBaseURL c; APIPath := APIPath c;
     APIPathGet := APIPathGet c; APIPathCancel := APIPathCancel c; CallbackURL := CallbackURL c;
     CreatedAt := created; UpdatedAt := updated |}.
End ApprovalConfig.

(** [model.RoutingDecision]. *)
Module RoutingDecision.
Record t := { Mode : text; Direct : bool; ProxyID : text; ProxyURL : text; Reason : text }.
End RoutingDecision.

(** [types.HostInfo] and [types.HostGroupInfo], what the menu shows. *)
Module HostInfo.
Record t := {
  ID : text; Name : text; IP : text; Port : Z; Username : text; Password : text;
  Tags : list text; DeviceType : text; Status : text
}.

Definition set_password (h : t) (p : text) : t :=
  {| ID := ID h; Name := Name h; IP := IP h; Port := Port h; Username := Username h;
     Password := p; Tags := Tags h; DeviceType := DeviceType h; Status := Status h |}.
End HostInfo.

Module HostGroupInfo.
Record t := {
  ID : text; Name : text; Description : text; HostCount : Z; OnlineCount : Z }.
End HostGroupInfo.

(** [types.SessionInfo]. *)
Module SessionInfo.
Record t := {
  SessionID : text; UserID : text; Username : text; ClientIP : text;
  HostID : text; HostName : text; HostIP : text; HostPort : Z; HostUsername : text;
  Status : text; BytesIn : Z; BytesOut : Z
}.

Definition set_host_username (s : t) (u : text) : t :=
  {| SessionID := SessionID s; UserID := UserID s; Username := Username s;
     ClientIP := ClientIP s; HostID := HostID s; HostName := HostName s;
     HostIP := HostIP s; HostPort := HostPort s; HostUsername := u; Status := Status s;
     BytesIn := BytesIn s; BytesOut := BytesOut s |}.

Definition set_status (s : t) (st : text) : t :=
  {| SessionID := SessionID s; UserID := UserID s; Username := Username s;
     ClientIP := ClientIP s; HostID := HostID s; HostName := HostName s;
     HostIP := HostIP s; HostPort := HostPort s; HostUsername := HostUsername s; Status := st;
     BytesIn := BytesIn s; BytesOut := BytesOut s |}.
End SessionInfo.

(** [model.User]. *)
Module User.
Record t := {
  ID : text; Username : text; Password : text;
  SSHPublicKey : text; SSHPrivateKeyEncrypted : text; AuthMethod : text;
  SSHKeyGeneratedAt : option Z; SSHKeyFingerprint : text;
  Email : text; FullName : text; Role : text; Status : text;
  ExpiresAt : option Z; ExpirationWarningSent : bool; AutoDisableOnExpiry : bool;
  LastLoginTime : option Z; LastLoginIP : text;
  TwoFactorEnabled : bool; TwoFactorSecret : text; TwoFactorBackupCodes : text;
  TwoFactorVerifiedAt : option Z
}.

(** The fields the operations write. *)
Definition set_password (x : t) (pw : text) : t :=
  {| ID := ID x; Username := Username x; Password := pw; SSHPublicKey := SSHPublicKey x;
     SSHPrivateKeyEncrypted := SSHPrivateKeyEncrypted x; AuthMethod := AuthMethod x;
     SSHKeyGeneratedAt := SSHKeyGeneratedAt x; SSHKeyFingerprint := SSHKeyFingerprint x;
     Email := Email x; FullName := FullName x; Role := Role x; Status := Status x;
     ExpiresAt := ExpiresAt x; ExpirationWarningSent := ExpirationWarningSent x;
     AutoDisableOnExpiry := AutoDisableOnExpiry x; LastLoginTime := LastLoginTime x;
     LastLoginIP := LastLoginIP x; TwoFactorEnabled := TwoFactorEnabled x;
     TwoFactorSecret := TwoFactorSecret x; TwoFactorBackupCodes := TwoFactorBackupCodes x;
     TwoFactorVerifiedAt := TwoFactorVerifiedAt x |}.
Definition set_role (x : t) (role : text) : t :=
  {| ID := ID x; Username := Username x; Password := Password x; SSHPublicKey := SSHPublicKey x;
     SSHPrivateKeyEncrypted := SSHPrivateKeyEncrypted x; AuthMethod := AuthMethod x;
     SSHKeyGeneratedAt := SSHKeyGeneratedAt x; SSHKeyFingerprint := SSHKeyFingerprint x;
     Email := Email x; FullName := FullName x; Role := role; Status := Status x;
     ExpiresAt := ExpiresAt x; ExpirationWarningSent := ExpirationWarningSent x;
     AutoDisableOnExpiry := AutoDisableOnExpiry x; LastLoginTime := LastLoginTime x;
     LastLoginIP := LastLoginIP x; TwoFactorEnabled := TwoFactorEnabled x;
     TwoFactorSecret := TwoFactorSecret x; TwoFactorBackupCodes := TwoFactorBackupCodes x;
     TwoFactorVerifiedAt := TwoFactorVerifiedAt x |}.
Definition set_status (x : t) (status : text) : t :=
  {| ID := ID x; Username := Username x; Password := Password x; SSHPublicKey := SSHPublicKey x;
     SSHPrivateKeyEncrypted := SSHPrivateKeyEncrypted x; AuthMethod := AuthMethod x;
     SSHKeyGeneratedAt := SSHKeyGeneratedAt x; SSHKeyFingerprint := SSHKeyFingerprint x;
     Email := Email x; FullName := FullName x; Role := Role x; Status := status;
     ExpiresAt := ExpiresAt x; ExpirationWarningSent := ExpirationWarningSent x;
     AutoDisableOnExpiry := AutoDisableOnExpiry x; LastLoginTime := LastLoginTime x;
     LastLoginIP := LastLoginIP x; TwoFactorEnabled := TwoFactorEnabled x;
     TwoFactorSecret := TwoFactorSecret x; TwoFactorBackupCodes := TwoFactorBackupCodes x;
     TwoFactorVerifiedAt := TwoFactorVerifiedAt x |}.
Definition set_info (x : t) (fullName email : text) : t :=
  {| ID := ID x; Username := Username x; Password := Password x; SSHPublicKey := SSHPublicKey x;
     SSHPrivateKeyEncrypted := SSHPrivateKeyEncrypted x; AuthMethod := AuthMethod x;
     SSHKeyGeneratedAt := SSHKeyGeneratedAt x; SSHKeyFingerprint := SSHKeyFingerprint x;
     Email := email; FullName := fullName; Role := Role x; Status := Status x;
     ExpiresAt := ExpiresAt x; ExpirationWarningSent := ExpirationWarningSent x;
     AutoDisableOnExpiry := AutoDisableOnExpiry x; LastLoginTime := LastLoginTime x;
     LastLoginIP := LastLoginIP x; TwoFactorEnabled := TwoFactorEnabled x;
     TwoFactorSecret := TwoFactorSecret x; TwoFactorBackupCodes := TwoFactorBackupCodes x;
     TwoFactorVerifiedAt := TwoFactorVerifiedAt x |}.
Definition set_expiry (x : t) (expires : option Z) (warned : bool) : t :=
  {| ID := ID x; Username := Username x; Password := Password x; SSHPublicKey := SSHPublicKey x;
     SSHPrivateKeyEncrypted := SSHPrivateKeyEncrypted x; AuthMethod := AuthMethod x;
     SSHKeyGeneratedAt := SSHKeyGeneratedAt x; SSHKeyFingerprint := SSHKeyFingerprint x;
     Email := Email x; FullName := FullName x; Role := Role x; Status := Status x;
     ExpiresAt := expires; ExpirationWarningSent := warned;
     AutoDisableOnExpiry := AutoDisableOnExpiry x; LastLoginTime := LastLoginTime x;
     LastLoginIP := LastLoginIP x; TwoFactorEnabled := TwoFactorEnabled x;
     TwoFactorSecret := TwoFactorSecret x; TwoFactorBackupCodes := TwoFactorBackupCodes x;
     TwoFactorVerifiedAt := TwoFactorVerifiedAt x |}.
Definition set_auto_disable (x : t) (auto : bool) : t :=
  {| ID := ID x; Username := Username x; Password := Password x; SSHPublicKey := SSHPublicKey x;
     SSHPrivateKeyEncrypted := SSHPrivateKeyEncrypted x; AuthMethod := AuthMethod x;
     SSHKeyGeneratedAt := SSHKeyGeneratedAt x; SSHKeyFingerprint := SSHKeyFingerprint x;
     Email := Email x; FullName := FullName x; Role := Role x; Status := Status x;
     ExpiresAt := ExpiresAt x; ExpirationWarningSent := ExpirationWarningSent x;
     AutoDisableOnExpiry := auto; LastLoginTime := LastLoginTime x; LastLoginIP := LastLoginIP x;
     TwoFactorEnabled := TwoFactorEnabled x; TwoFactorSecret := TwoFactorSecret x;
     TwoFactorBackupCodes := TwoFactorBackupCodes x;
     TwoFactorVerifiedAt := TwoFactorVerifiedAt x |}.
Definition set_login (x : t) (time : Z) (ip : text) : t :=
  {| ID := ID x; Username := Username x; Password := Password x; SSHPublicKey := SSHPublicKey x;
     SSHPrivateKeyEncrypted := SSHPrivateKeyEncrypted x; AuthMethod := AuthMethod x;
     SSHKeyGeneratedAt := SSHKeyGeneratedAt x; SSHKeyFingerprint := SSHKeyFingerprint x;
     Email := Email x; FullName := FullName x; Role := Role x; Status := Status x;
     ExpiresAt := ExpiresAt x; ExpirationWarningSent := ExpirationWarningSent x;
     AutoDisableOnExpiry := AutoDisableOnExpiry x; LastLoginTime := Some time; LastLoginIP := ip;
     TwoFactorEnabled := TwoFactorEnabled x; TwoFactorSecret := TwoFactorSecret x;
     TwoFactorBackupCodes := TwoFactorBackupCodes x;
     TwoFactorVerifiedAt := TwoFactorVerifiedAt x |}.
Definition set_keys (x : t) (public encrypted fingerprint : text) (generated : option Z) : t :=
  {| ID := ID x; Username := Username x; Password := Password x; SSHPublicKey := public;
     SSHPrivateKeyEncrypted := encrypted; AuthMethod := AuthMethod x;
     SSHKeyGeneratedAt := generated; SSHKeyFingerprint := fingerprint; Email := Email x;
     FullName := FullName x; Role := Role x; Status := Status x; ExpiresAt := ExpiresAt x;
     ExpirationWarningSent := ExpirationWarningSent x;
     AutoDisableOnExpiry := AutoDisableOnExpiry x; LastLoginTime := LastLoginTime x;
     LastLoginIP := LastLoginIP x; TwoFactorEnabled := TwoFactorEnabled x;
     TwoFactorSecret := TwoFactorSecret x; TwoFactorBackupCodes := TwoFactorBackupCodes x;
     TwoFactorVerifiedAt := TwoFactorVerifiedAt x |}.
Definition set_auth (x : t) (method : text) : t :=
  {| ID := ID x; Username := Username x; Password := Password x; SSHPublicKey := SSHPublicKey x;
     SSHPrivateKeyEncrypted := SSHPrivateKeyEncrypted x; AuthMethod := method;
     SSHKeyGeneratedAt := SSHKeyGeneratedAt x; SSHKeyFingerprint := SSHKeyFingerprint x;
     Email := Email x; FullName := FullName x; Role := Role x; Status := Status x;
     ExpiresAt := ExpiresAt x; ExpirationWarningSent := ExpirationWarningSent x;
     AutoDisableOnExpiry := AutoDisableOnExpiry x; LastLoginTime := LastLoginTime x;
     LastLoginIP := LastLoginIP x; TwoFactorEnabled := TwoFactorEnabled x;
     TwoFactorSecret := TwoFactorSecret x; TwoFactorBackupCodes := TwoFactorBackupCodes x;
     TwoFactorVerifiedAt := TwoFactorVerifiedAt x |}.
Definition set_two_factor (x : t) (on : bool) (secret codes : text) (verified : option Z) : t :=
  {| ID := ID x; Username := Username x; Password := Password x; SSHPublicKey := SSHPublicKey x;
     SSHPrivateKeyEncrypted := SSHPrivateKeyEncrypted x; AuthMethod := AuthMethod x;
     SSHKeyGeneratedAt := SSHKeyGeneratedAt x; SSHKeyFingerprint := SSHKeyFingerprint x;
     Email := Email x; FullName := FullName x; Role := Role x; Status := Status x;
     ExpiresAt := ExpiresAt x; ExpirationWarningSent := ExpirationWarningSent x;
     AutoDisableOnExpiry := AutoDisableOnExpiry x; LastLoginTime := LastLoginTime x;
     LastLoginIP := LastLoginIP x; TwoFactorEnabled := on; TwoFactorSecret := secret;
     TwoFactorBackupCodes := codes; TwoFactorVerifiedAt := verified |}.
End User.
