(* ===== verification/InputFilter.v ===== *)
(** * The command interceptor

    The input goroutine of [connectToHostWithSuccessCallback]
    ([internal/sshserver/terminal/handler.go]): every byte the user types is
    read on its own, the line typed so far is collected, and on Enter the line
    is checked against the blacklist before the Enter reaches the host.  A byte
    is an event that carries what the goroutine meets while handling it: the
    manager at the check, the manager when the reason is asked for, and whether
    the write to the host succeeds. *)

From stdpp Require Import base list strings sets.
From Stdlib Require Import ZArith Lia Ascii.
From S2P Require Import Prelude GoStrings GoRegexp Detector Blacklist.
Local Open Scope Z_scope.

Record InputState := { commandBuffer : bytes; BytesIn : Z }.

Definition input_init : InputState := {| commandBuffer := []; BytesIn := 0 |}.

(** What the goroutine does to the outside. *)
Inductive effect :=
  | ToHost (data : bytes)
  | ToClient (msg : text)
  | AuditCommand (cmd : text)
  | RecordData (direction : text) (data : text)
  | AuditData (direction : text) (data : bytes)
  | Alert (a : alert).

Record key_event := {
  key : Z;
  blacklistMgr : option Manager;
  reasonMgr : Manager;
  write_ok : bool
}.

Definition is_newline (ch : Z) : bool := (ch =? 13) || (ch =? 10).
Definition is_backspace (ch : Z) : bool := (ch =? 127) || (ch =? 8).
Definition is_printable (ch : Z) : bool := (32 <=? ch) && (ch <? 127).

Definition esc : text := [27].

Section input.
Context `{Unicode} (username hostIP : text).

(** The test of the Enter branch: a non-empty command, a manager, blocked. *)
Definition intercepts (ev : key_event) (command : text) : bool :=
  negb (is_empty command) &&
  match blacklistMgr ev with
  | Some m => (IsBlockedWithNotify m command username hostIP).1
  | None => false
  end.

Definition alert_of (ev : key_event) (command : text) : list effect :=
  match blacklistMgr ev with
  | Some m => match (IsBlockedWithNotify m command username hostIP).2 with
              | Some a => [Alert a] | None => [] end
  | None => []
  end.

(** The effects of a blocked Enter; the error of the write is ignored. *)
Definition block_effects (ev : key_event) (command : text) : list effect :=
  let reason := GetBlockReason (reasonMgr ev) command username in
  alert_of ev command
  ++ [AuditCommand (txt "[BLOCKED] " ++ command)]
  ++ (if write_ok ev then [ToHost [3]] else [])
  ++ [ToClient ([13; 10] ++ esc ++ txt "[1;31m🛡️  [安全策略阻止] " ++ reason ++ esc
                ++ txt "[0m" ++ [13; 10]);
      RecordData (txt "blocked") (txt "BLOCKED: " ++ command ++ txt " - " ++ reason ++ [10])].

(** The write to the host and, when it succeeds, the accounting of the byte. *)
Definition forward (st : InputState) (ev : key_event) : InputState * list effect * bool :=
  if write_ok ev then
    ({| commandBuffer := commandBuffer st; BytesIn := BytesIn st + 1 |},
     [ToHost [key ev]; RecordData (txt "in") [key ev]; AuditData (txt "in") [key ev]], true)
  else (st, [], false).

(** One round of the loop; the flag tells whether the goroutine goes on. *)
Definition input_key (st : InputState) (ev : key_event) : InputState * list effect * bool :=
  let ch := key ev in
  let with_buffer b := {| commandBuffer := b; BytesIn := BytesIn st |} in
  if is_newline ch then
    let command := trim_space (commandBuffer st) in
    let st := with_buffer [] in
    if intercepts ev command then (st, block_effects ev command, true)
    else forward st ev
  else if ch =? 3 then forward (with_buffer []) ev
  else if is_backspace ch then
    let s := commandBuffer st in
    forward (with_buffer (if is_empty s then s else take (length s - 1) s)) ev
  else if is_printable ch then forward (with_buffer (commandBuffer st ++ [ch])) ev
  else forward st ev.

(** The loop, until the input ends or a write fails. *)
Fixpoint input_loop (st : InputState) (evs : list key_event) : InputState * list effect :=
  match evs with
  | [] => (st, [])
  | ev :: evs =>
      let '(st, out, running) := input_key st ev in
      if running then let '(st, out') := input_loop st evs in (st, out ++ out')
      else (st, out)
  end.
End input.

(** ** What the host receives *)

Definition host_bytes (out : list effect) : bytes :=
  mjoin ((λ e, match e with ToHost b => b | _ => [] end) <$> out).

(** The lines a terminal with ordinary editing submits when it receives these
    bytes: printable bytes are appended, a backspace removes the last, Ctrl-C
    and the kill characters in [kill] discard the line, Enter submits it. *)
Fixpoint submitted (kill : list Z) (cur : bytes) (bs : bytes) : list bytes :=
  match bs with
  | [] => []
  | b :: bs =>
      if is_newline b then cur :: submitted kill [] bs
      else if (b =? 3) || existsb (Z.eqb b) kill then submitted kill [] bs
      else if is_backspace b then submitted kill (removelast cur) bs
      else if is_printable b then submitted kill (cur ++ [b]) bs
      else submitted kill cur bs
  end.

(** ** Facts of a round *)

Section input_facts.
Context `{UL : UnicodeLaws} (username hostIP : text).
Local Notation input_key := (input_key username hostIP).
Local Notation input_loop := (input_loop username hostIP).

Lemma host_bytes_app a b : host_bytes (a ++ b) = host_bytes a ++ host_bytes b.
Proof. unfold host_bytes. by rewrite fmap_app, join_app. Qed.

Lemma IsBlockedWithNotify_fst m c u ip : (IsBlockedWithNotify m c u ip).1 = IsBlocked m c u.
Proof. unfold IsBlockedWithNotify, IsBlocked. by destruct (checkBlocked m c u). Qed.

Lemma host_bytes_block ev c :
  host_bytes (block_effects username hostIP ev c) = if write_ok ev then [3] else [].
Proof.
  unfold block_effects. rewrite !host_bytes_app.
  assert (host_bytes (alert_of username hostIP ev c) = []) as ->.
  { unfold alert_of. destruct (blacklistMgr ev) as [m|]; [|done].
    by destruct (IsBlockedWithNotify m c username hostIP).2. }
  by destruct (write_ok ev).
Qed.

(** The line left in the buffer by a byte that does not end the loop, and what
    the host gets for it. *)
Definition next_line (ch : Z) (l : bytes) : bytes :=
  if is_newline ch then []
  else if ch =? 3 then []
  else if is_backspace ch then removelast l
  else if is_printable ch then l ++ [ch]
  else l.

Lemma take_removelast (s : bytes) : (if is_empty s then s else take (length s - 1) s) = removelast s.
Proof.
  destruct s as [|x s] using rev_ind; [done|].
  rewrite removelast_last, length_app. cbn [length].
  replace (length s + 1 - 1)%nat with (length s) by lia. rewrite take_app_length.
  by destruct s.
Qed.

Lemma input_key_buffer st ev st' out r :
  input_key st ev = (st', out, r) → commandBuffer st' = next_line (key ev) (commandBuffer st).
Proof.
  unfold InputFilter.input_key, next_line, forward. rewrite take_removelast.
  repeat case_match; intros; simplify_eq/=; done.
Qed.

Lemma input_key_host st ev st' out r :
  input_key st ev = (st', out, r) →
  host_bytes out =
    if is_newline (key ev) && intercepts username hostIP ev (trim_space (commandBuffer st))
    then (if write_ok ev then [3] else [])
    else (if write_ok ev then [key ev] else []).
Proof.
  unfold InputFilter.input_key, forward. intros Hk.
  destruct (is_newline (key ev)); simpl; [|repeat case_match; simplify_eq/=; done].
  destruct (intercepts _ _ _ _); simplify_eq/=; [apply host_bytes_block|].
  destruct (write_ok ev); by simplify_eq/=.
Qed.

Lemma input_key_running st ev st' out r :
  input_key st ev = (st', out, r) → write_ok ev = true → r = true.
Proof.
  unfold InputFilter.input_key, forward. intros Hk Hw. rewrite Hw in Hk.
  repeat case_match; simplify_eq/=; done.
Qed.

(** ** A blocked command is not run *)

Definition plain_key (ch : Z) : bool :=
  is_newline ch || (ch =? 3) || is_backspace ch || is_printable ch.

Lemma IsBlocked_trim m c u : IsBlocked m (trim_space c) u = IsBlocked m c u.
Proof. unfold IsBlocked, checkBlocked. by rewrite trim_space_idemp. Qed.

Lemma intercepts_blocked ev m c line :
  blacklistMgr ev = Some m → IsBlocked m c username = true →
  trim_space line = trim_space c → intercepts username hostIP ev (trim_space line) = true.
Proof.
  intros Hm Hb Ht. unfold intercepts. rewrite Hm, IsBlockedWithNotify_fst, Ht, IsBlocked_trim, Hb.
  apply IsBlocked_cause in Hb as [Hc _]. by destruct (trim_space c).
Qed.

(** How the host's line follows the buffer over one byte. *)
Lemma submitted_key kill ch l bs :
  plain_key ch = true → is_newline ch = false → kill = [] →
  submitted kill l (ch :: bs) = submitted kill (next_line ch l) bs.
Proof.
  unfold plain_key, next_line. intros Hp Hn ->. cbn [submitted existsb].
  rewrite orb_false_r. rewrite Hn in *. destruct (ch =? 3); [done|].
  destruct (is_backspace ch); [done|]. simpl in Hp. by rewrite Hp.
Qed.

Lemma input_key_stopped st ev st' out r :
  input_key st ev = (st', out, r) → write_ok ev = false → is_newline (key ev) = false →
  r = false ∧ host_bytes out = [].
Proof.
  unfold InputFilter.input_key, forward. intros Hk Hw Hn. rewrite Hw, Hn in Hk.
  repeat case_match; simplify_eq/=; done.
Qed.


(** ** Everything else passes *)

(** When no Enter is intercepted, the host receives exactly the bytes the
    user typed, in order, and each is counted, recorded and audited. *)
Theorem unblocked_input_transparent evs :
  Forall (λ ev, write_ok ev = true ∧ ∀ command, intercepts username hostIP ev command = false) evs →
  (input_loop input_init evs).2 =
    mjoin ((λ ev, [ToHost [key ev]; RecordData (txt "in") [key ev];
                   AuditData (txt "in") [key ev]]) <$> evs) ∧
  BytesIn (input_loop input_init evs).1 = Z.of_nat (length evs).
Proof.
  intros HF.
  assert (∀ st, (input_loop st evs).2 =
    mjoin ((λ ev, [ToHost [key ev]; RecordData (txt "in") [key ev];
                   AuditData (txt "in") [key ev]]) <$> evs) ∧
    BytesIn (input_loop st evs).1 = BytesIn st + Z.of_nat (length evs)) as Hall.
  { induction HF as [|ev evs [Hw Hi] _ IH]; intros st; [simpl; split; [done|lia]|].
    assert (∃ b, input_key st ev =
      ({| commandBuffer := b; BytesIn := BytesIn st + 1 |},
       [ToHost [key ev]; RecordData (txt "in") [key ev]; AuditData (txt "in") [key ev]], true))
      as [b Eb].
    { unfold InputFilter.input_key, forward. rewrite Hw, Hi.
      destruct (is_newline (key ev)); [by eexists|]. destruct (key ev =? 3); [by eexists|].
      destruct (is_backspace (key ev)); [by eexists|].
      destruct (is_printable (key ev)); by eexists. }
    cbn [InputFilter.input_loop]. rewrite Eb.
    specialize (IH {| commandBuffer := b; BytesIn := BytesIn st + 1 |}) as [IH1 IH2].
    destruct (input_loop _ evs) as [st2 out2]. cbn [fst snd] in *. split.
    - rewrite IH1. done.
    - rewrite IH2. cbn [BytesIn length]. lia. }
  exact (Hall input_init).
Qed.
End input_facts.

(** ** Witnesses *)

Definition strict_manager : Manager := setDefaultBlacklist emptyManager.

Definition press (m : Manager) (ch : Z) : key_event :=
  {| key := ch; blacklistMgr := Some m; reasonMgr := m; write_ok := true |}.


(** The error of the write of the Ctrl-C is ignored: when it fails the line
    stays on the host while the buffer starts afresh, and the next Enter
    submits the blocked command. *)
Theorem lost_interrupt :
  let failing := {| key := 13; blacklistMgr := Some strict_manager; reasonMgr := strict_manager;
                    write_ok := false |} in
  let evs := (press strict_manager <$> txt "reboot") ++ [failing; press strict_manager 13] in
  IsBlocked strict_manager (txt "reboot") (txt "bob") = true ∧
  submitted [] [] (host_bytes (input_loop (txt "bob") (txt "10.0.0.1") input_init evs).2)
  = [txt "reboot"].
Proof. vm_compute. split; reflexivity. Qed.

Definition no_manager (ch : Z) : key_event :=
  {| key := ch; blacklistMgr := None; reasonMgr := emptyManager; write_ok := true |}.

Lemma unblocked_input_transparent_witness :
  host_bytes (input_loop [] [] input_init (no_manager <$> [27; 91; 65; 13])).2 = [27; 91; 65; 13].
Proof.
  destruct (unblocked_input_transparent [] [] (no_manager <$> [27; 91; 65; 13])) as [E _].
  - apply Forall_fmap, Forall_forall. intros ch _. split; [reflexivity|].
    intros command. unfold intercepts. simpl. apply andb_false_r.
  - rewrite E. reflexivity.
Defined.

(** ** Bytes the buffer does not follow *)

(** Line editing the interceptor does not follow evades it: it forwards
    Ctrl-U without touching its buffer, so on a host whose terminal discards the
    line on Ctrl-U the user runs [reboot], which is blocked, while the
    interceptor checked [xreboot]. *)
Theorem line_editing_evades :
  let evs := press strict_manager <$> (txt "x" ++ [21] ++ txt "reboot" ++ [13]) in
  IsBlocked strict_manager (txt "reboot") (txt "bob") = true ∧
  submitted [21] [] (host_bytes (input_loop (txt "bob") (txt "10.0.0.1") input_init evs).2)
  = [txt "reboot"].
Proof. vm_compute. done. Qed.
