(* ===== verification/WebTerminal.v ===== *)
(** * The interceptor of the web terminal

    The input goroutine of [proxySSHConnection]
    ([internal/api/handler/connection_handler.go]).  Unlike the one of the SSH
    gateway ([InputFilter]) it reads WebSocket messages: a message carries any
    text, the buffer takes the text of a message whole, and only a message that
    is Enter alone is checked.  The outcome of [json.Unmarshal] and of the type
    assertions is the shape of the message; the errors of [stdin.Write] are
    ignored by the code. *)

From stdpp Require Import base list strings sets.
From Stdlib Require Import ZArith Lia.
From S2P Require Import Prelude GoStrings GoRegexp Detector Blacklist InputFilter.
Local Open Scope Z_scope.

(** A message: not JSON; without a [type]; [resize]; [input]; another type. *)
Inductive ws_message :=
  | NotJSON (message : bytes)
  | NoType
  | Resize (size : option (Z * Z))
  | Input (data : option text)
  | OtherType.

(** A message and the managers its handling meets: at the check and when the
    reason is asked for. *)
Record ws_event := { msg : ws_message; checkMgr : option Manager; whyMgr : Manager }.

(** What the goroutine does to the outside. *)
Inductive ws_effect :=
  | ToStdin (data : bytes)
  | ToBrowser (msg : text)
  | SaveCommand (command output : text)
  | RecordInput (data : text)
  | WindowChange (rows cols : Z)
  | Notify (a : alert).

Section web.
Context `{Unicode} (username hostIP : text).

(** The test of the Enter branch. *)
Definition web_intercepts (ev : ws_event) (command : text) : bool :=
  negb (is_empty command) &&
  match checkMgr ev with
  | Some m => (IsBlockedWithNotify m command username hostIP).1
  | None => false
  end.

Definition web_alert (ev : ws_event) (command : text) : list ws_effect :=
  match checkMgr ev with
  | Some m => match (IsBlockedWithNotify m command username hostIP).2 with
              | Some a => [Notify a] | None => [] end
  | None => []
  end.

(** A blocked Enter: the line on the host is erased with as many DELs as the
    buffer has bytes, and an Enter asks for a new prompt. *)
Definition web_block (ev : ws_event) (command : text) (commandLen : nat) : list ws_effect :=
  let reason := GetBlockReason (whyMgr ev) command username in
  web_alert ev command
  ++ [SaveCommand command (txt "[BLOCKED] " ++ reason)]
  ++ (ToStdin <$> replicate commandLen [127])
  ++ [ToStdin [13];
      ToBrowser ([13; 10] ++ esc ++ txt "[1;31m🛡️ [安全策略阻止] " ++ reason ++ esc ++ txt "[0m" ++ [13; 10])].

(** One round of the loop on the bytes typed since the last Enter. *)
Definition web_message (buf : bytes) (ev : ws_event) : bytes * list ws_effect :=
  match msg ev with
  | NotJSON message => (buf, [ToStdin message])
  | NoType | OtherType => (buf, [])
  | Resize (Some (cols, rows)) => (buf, [WindowChange rows cols])
  | Resize None => (buf, [])
  | Input None => (buf, [])
  | Input (Some data) =>
      let '(buf, out) :=
        if text_eqb data [13] || text_eqb data [10] then
          let command := trim_space (utf8_decode buf) in
          if web_intercepts ev command then ([], web_block ev command (length buf))
          else ([], [ToStdin (utf8_encode data)])
        else if text_eqb data [3] then ([], [ToStdin (utf8_encode data)])
        else if text_eqb data [127] || text_eqb data [8] then
          (if is_empty buf then buf else take (length buf - 1) buf, [ToStdin (utf8_encode data)])
        else (buf ++ utf8_encode data, [ToStdin (utf8_encode data)]) in
      (buf, RecordInput data :: out)
  end.

(** The loop, until reading a message fails. *)
Fixpoint web_loop (buf : bytes) (evs : list ws_event) : bytes * list ws_effect :=
  match evs with
  | [] => (buf, [])
  | ev :: evs =>
      let '(buf, out) := web_message buf ev in
      let '(buf, out') := web_loop buf evs in
      (buf, out ++ out')
  end.
End web.

(** ** What the host receives *)

Definition stdin_bytes (out : list ws_effect) : bytes :=
  mjoin ((λ e, match e with ToStdin b => b | _ => [] end) <$> out).

Section web_facts.
Context `{UL : UnicodeLaws} (username hostIP : text).
Local Notation web_message := (web_message username hostIP).
Local Notation web_loop := (web_loop username hostIP).

Lemma stdin_bytes_app a b : stdin_bytes (a ++ b) = stdin_bytes a ++ stdin_bytes b.
Proof. unfold stdin_bytes. by rewrite fmap_app, join_app. Qed.

Lemma stdin_block ev c n :
  stdin_bytes (web_block username hostIP ev c n) = replicate n 127 ++ [13].
Proof.
  unfold web_block. rewrite !stdin_bytes_app.
  assert (stdin_bytes (web_alert username hostIP ev c) = []) as ->.
  { unfold web_alert. destruct (checkMgr ev) as [m|]; [|done].
    by destruct (IsBlockedWithNotify m c username hostIP).2. }
  assert (stdin_bytes (ToStdin <$> replicate n [127]) = replicate n 127) as ->; [|done].
  induction n as [|n IH]; [done|].
  change (stdin_bytes (ToStdin <$> replicate (S n) [127]))
    with ([127] ++ stdin_bytes (ToStdin <$> replicate n [127])). by rewrite IH.
Qed.

(** A host that reads a line and as many DELs as it has bytes is left with an
    empty line. *)
Lemma submitted_erase (l : bytes) bs :
  submitted [] l (replicate (length l) 127 ++ bs) = submitted [] [] bs.
Proof.
  induction l as [|x l IH] using rev_ind; [done|].
  rewrite length_app, Nat.add_comm. cbn [length replicate Nat.add app submitted].
  change (is_newline 127) with false. change ((127 =? 3) || existsb (Z.eqb 127) []) with false.
  change (is_backspace 127) with true. cbn iota. by rewrite removelast_last.
Qed.

Lemma web_intercepts_blocked ev m c line :
  checkMgr ev = Some m → IsBlocked m c username = true →
  trim_space line = trim_space c → web_intercepts username hostIP ev (trim_space line) = true.
Proof.
  intros Hm Hb Ht. unfold web_intercepts. rewrite Hm, IsBlockedWithNotify_fst, Ht, IsBlocked_trim, Hb.
  apply IsBlocked_cause in Hb as [Hc _]. by destruct (trim_space c).
Qed.

(** A message that is one key. *)
Definition key_message (ch : Z) (ev : ws_event) : Prop :=
  msg ev = Input (Some [ch]) ∧ plain_key ch = true.

Lemma plain_key_small ch : plain_key ch = true → ch < 128.
Proof.
  unfold plain_key, is_newline, is_backspace, is_printable. intros Hk.
  repeat (apply orb_true_iff in Hk as [Hk|Hk]); prop_bools; lia.
Qed.

Lemma plain_key_encode ch : plain_key ch = true → utf8_encode [ch] = [ch].
Proof.
  intros Hk. assert (0 <= ch < 128) as [? ?].
  { unfold plain_key, is_newline, is_backspace, is_printable in Hk.
    repeat (apply orb_true_iff in Hk as [Hk|Hk]); prop_bools; lia. }
  assert (rune_valid ch = true) as Hv.
  { unfold rune_valid. by rewrite (proj2 (Z.leb_le 0 ch)), (proj2 (Z.ltb_lt ch 55296)) by lia. }
  unfold utf8_encode. simpl. unfold encode_rune. by rewrite Hv, (proj2 (Z.ltb_lt ch 128)).
Qed.

Lemma plain_encode l : Forall (λ b, plain_key b = true) l → utf8_encode l = l.
Proof.
  induction 1 as [|b l Hb _ IH]; [done|].
  change (utf8_encode (b :: l)) with (encode_rune b ++ utf8_encode l). rewrite IH.
  pose proof (plain_key_encode b Hb) as He. unfold utf8_encode in He. simpl in He.
  rewrite app_nil_r in He. by rewrite He.
Qed.

Lemma web_key buf ev ch :
  key_message ch ev → Forall (λ b, b < 128) buf →
  let intercepted := is_newline ch && web_intercepts username hostIP ev (trim_space buf) in
  (web_message buf ev).1 = next_line ch buf ∧
  stdin_bytes (web_message buf ev).2 =
    (if intercepted then replicate (length buf) 127 ++ [13] else [ch]) ∧
  Forall (λ b, b < 128) (next_line ch buf).
Proof.
  intros [Hmsg Hk] Hbuf intercepted. unfold WebTerminal.web_message. rewrite Hmsg.
  pose proof (plain_key_small _ Hk) as Hsmall. pose proof (plain_key_encode _ Hk) as Henc.
  assert (∀ k, text_eqb [ch] [k] = (ch =? k)) as Heq.
  { intros k. unfold text_eqb. destruct (Z.eqb_spec ch k) as [->|Hne]; [by rewrite bool_decide_eq_true_2|].
    apply bool_decide_eq_false_2. congruence. }
  rewrite !Heq, decode_ascii by done. fold (is_newline ch). fold (is_backspace ch).
  assert (Forall (λ b, b < 128) (removelast buf)) as Hrem.
  { destruct buf as [|x buf _] using rev_ind; [done|]. rewrite removelast_last.
    by apply Forall_app in Hbuf as [? _]. }
  unfold next_line, intercepted. destruct (is_newline ch) eqn:En; cbn [andb].
  - destruct (web_intercepts _ _ _ _); cbn [fst snd].
    + split_and!; [done| |done].
      change (stdin_bytes (RecordInput [ch] :: ?x)) with (stdin_bytes x). apply stdin_block.
    + rewrite Henc. done.
  - destruct (ch =? 3) eqn:E3; cbn [fst snd]; [by rewrite Henc|].
    destruct (is_backspace ch) eqn:Eb; cbn [fst snd]; [by rewrite Henc, take_removelast|].
    assert (is_printable ch = true) as Hp.
    { unfold plain_key in Hk. by rewrite En, E3, Eb in Hk. }
    rewrite Hp, Henc. split_and!; [done..|]. apply Forall_app. split; [done|]. by constructor.
Qed.


(** The check does not see what is pasted: a message that holds a line and
    its Enter, and one that is not JSON, go to the host as they are, whatever
    the blacklist says of the line, and nothing is audited as blocked. *)
Theorem web_paste_evades ev c :
  Forall (λ b, is_printable b = true) c → c ≠ [] →
  (msg ev = Input (Some (c ++ [13])) → (web_loop [] [ev]).2 = [RecordInput (c ++ [13]); ToStdin (c ++ [13])]) ∧
  (msg ev = NotJSON (c ++ [13]) → (web_loop [] [ev]).2 = [ToStdin (c ++ [13])]) ∧
  submitted [] [] (c ++ [13]) = [c].
Proof.
  intros Hc Hne. split_and!.
  - intros Hmsg. cbn [WebTerminal.web_loop]. unfold WebTerminal.web_message. rewrite Hmsg.
    assert (∀ k, text_eqb (c ++ [13]) [k] = false) as Heq.
    { intros k. apply bool_decide_eq_false_2. destruct c as [|x [|y c]]; [done| |]; simpl; congruence. }
    rewrite !Heq. cbn [orb app snd]. rewrite plain_encode; [done|].
    apply Forall_app. split; [|by constructor].
    eapply Forall_impl; [exact Hc|]. intros b Hb. unfold plain_key. by rewrite Hb, !orb_true_r.
  - intros Hmsg. cbn [WebTerminal.web_loop]. unfold WebTerminal.web_message. by rewrite Hmsg.
  - assert (∀ cur, submitted [] cur (c ++ [13]) = [cur ++ c]) as Hs; [|by apply Hs].
    clear Hne. induction Hc as [|b c Hb _ IH]; intros cur; [by rewrite app_nil_r|].
    cbn [app submitted]. unfold is_printable, is_newline, is_backspace in *. prop_bools.
    assert ((b =? 13) = false ∧ (b =? 10) = false ∧ (b =? 3) = false ∧ (b =? 127) = false ∧
            (b =? 8) = false ∧ (32 <=? b) = true ∧ (b <? 127) = true)
      as (-> & -> & -> & -> & -> & -> & ->).
    { split_and!; first [apply Z.eqb_neq; lia|apply Z.leb_le; lia|apply Z.ltb_lt; lia]. }
    cbn [orb andb existsb]. rewrite IH. by rewrite <- app_assoc.
Qed.
End web_facts.

(** ** Concrete sessions *)

Definition web_key_press (ch : Z) : ws_event :=
  {| msg := Input (Some [ch]); checkMgr := Some strict_manager; whyMgr := strict_manager |}.

(** Typed key by key, [reboot] is erased and its Enter replaced. *)
Example web_reboot_typed :
  submitted [] [] (stdin_bytes (web_loop (txt "bob") (txt "10.0.0.1") []
    (web_key_press <$> (txt "reboot" ++ [13]))).2) = [[]].
Proof. vm_compute. reflexivity. Qed.


Lemma web_paste_evades_witness :
  let ev := {| msg := Input (Some (txt "reboot" ++ [13])); checkMgr := Some strict_manager;
               whyMgr := strict_manager |} in
  IsBlocked strict_manager (txt "reboot") (txt "bob") = true ∧
  (web_loop (txt "bob") [] [] [ev]).2 =
    [RecordInput (txt "reboot" ++ [13]); ToStdin (txt "reboot" ++ [13])].
Proof.
  split; [vm_compute; reflexivity|]. apply web_paste_evades; [|discriminate|reflexivity].
  apply (bool_decide_unpack _). vm_compute. exact I.
Defined.
