(* ===== verification/Menu.v ===== *)
(** * The terminal menu

    [MenuV2] of [internal/sshserver/terminal/menu_v2.go]: the group and host
    menus a user of the SSH gateway drives one byte at a time.  The input still
    to come is part of the state; when it runs out, reads fail (the client has
    gone).  The answers of the host selector may change from call to call, so
    they are indexed by the number of calls made.  Only what the screens do to
    the control flow is kept of the output: [strings.Repeat] panics on a
    negative count. *)

From stdpp Require Import base list strings sets.
From Stdlib Require Import ZArith Lia Ascii.
From S2P Require Import Prelude GoStrings Models.
Local Open Scope Z_scope.

(** ** Numbers *)

(** The length of [%d]. *)
Fixpoint dec_digits (fuel : nat) (z : Z) : Z :=
  match fuel with
  | O => 1
  | S fuel => if z <? 10 then 1 else 1 + dec_digits fuel (z / 10)
  end.
Definition dec_len (z : Z) : Z := if z <? 0 then 1 + dec_digits 20 (- z) else dec_digits 20 z.

(** ** Layout *)

(** [truncate] cuts the bytes. *)
Definition truncate_len (s : text) (maxLen : Z) : Z := Z.min (blen s) maxLen.

(** [strings.Repeat(" ", n)] does not panic. *)
Definition repeat_ok (n : Z) : bool := 0 <=? n.

Section screens.
Context `{Unicode}.

Definition status_text (status : text) : text :=
  let lower := to_lower status in
  if text_eqb lower (txt "online") then txt "Online"
  else if text_eqb lower (txt "offline") then txt "Offline"
  else status.

(** The screens that do not panic. *)
Definition showGroupList_ok (groups : list HostGroupInfo.t) : bool :=
  forallb (λ group,
    repeat_ok (28 - truncate_len (HostGroupInfo.Name group) 28) &&
    repeat_ok (25 - (dec_len (HostGroupInfo.HostCount group) + blen (txt " Total | ")
                     + dec_len (HostGroupInfo.OnlineCount group) + blen (txt " Online"))))
    groups.

Definition showHostList_ok (group : HostGroupInfo.t) (hosts : list HostInfo.t) : bool :=
  repeat_ok (66 - blen (HostGroupInfo.Name group)) &&
  forallb (λ host,
    repeat_ok (25 - truncate_len (HostInfo.Name host) 25) &&
    repeat_ok (18 - truncate_len (HostInfo.IP host) 18) &&
    repeat_ok (8 - truncate_len (HostInfo.DeviceType host) 8) &&
    repeat_ok (9 - blen (status_text (HostInfo.Status host)))) hosts.
End screens.

(** ** Reading a command *)

(** [readCommand]: the command and the input left; a read error makes it empty. *)
Fixpoint readCommand (inputBuffer : bytes) (input : list Z) : text * list Z :=
  match input with
  | [] => ([], [])
  | ch :: input =>
      if (ch =? 13) || (ch =? 10) then (inputBuffer, input)
      else if (ch =? 127) || (ch =? 8) then readCommand (removelast inputBuffer) input
      else if (ch =? 3) || (ch =? 4) then (txt "q", input)
      else if ch =? 27 then
        match input with
        | [] => ([], [])
        | nx :: input =>
            if nx =? 91 then
              match input with
              | [] => ([], [])
              | _ :: input => readCommand inputBuffer input
              end
            else readCommand inputBuffer input
        end
      else if (32 <=? ch) && (ch <? 127) then readCommand (inputBuffer ++ [ch]) input
      else readCommand inputBuffer input
  end.

(** ** The selector and the state *)

(** The selector behind the menu; [HostSelector] implements every method, any
    other selector only [ListAvailableHosts]. *)
Record Selector := {
  ListAvailableHosts : nat → text → result text (list HostInfo.t);
  supports_groups : bool;
  ListGroups : nat → result text (list HostGroupInfo.t);
  ListGroupsForUser : nat → text → result text (list HostGroupInfo.t);
  ListHostsByGroup : nat → text → Z → Z → result text (list HostInfo.t)
}.

Record MenuV2 := {
  currentGroups : list HostGroupInfo.t;
  currentHosts : list HostInfo.t;
  currentGroup : option HostGroupInfo.t;
  currentPage : Z;
  pageSize : Z;
  input : list Z;
  calls : nat
}.

Definition NewMenuV2 (input : list Z) : MenuV2 :=
  {| currentGroups := []; currentHosts := []; currentGroup := None; currentPage := 1;
     pageSize := 20; input := input; calls := 0 |}.

Definition set_groups (m : MenuV2) (g : list HostGroupInfo.t) : MenuV2 :=
  {| currentGroups := g; currentHosts := currentHosts m; currentGroup := currentGroup m;
     currentPage := currentPage m; pageSize := pageSize m; input := input m; calls := calls m |}.
Definition set_hosts (m : MenuV2) (h : list HostInfo.t) : MenuV2 :=
  {| currentGroups := currentGroups m; currentHosts := h; currentGroup := currentGroup m;
     currentPage := currentPage m; pageSize := pageSize m; input := input m; calls := calls m |}.
Definition set_group (m : MenuV2) (g : HostGroupInfo.t) : MenuV2 :=
  {| currentGroups := currentGroups m; currentHosts := currentHosts m; currentGroup := Some g;
     currentPage := currentPage m; pageSize := pageSize m; input := input m; calls := calls m |}.
Definition set_page (m : MenuV2) (p : Z) : MenuV2 :=
  {| currentGroups := currentGroups m; currentHosts := currentHosts m;
     currentGroup := currentGroup m; currentPage := p; pageSize := pageSize m;
     input := input m; calls := calls m |}.
Definition set_input (m : MenuV2) (i : list Z) : MenuV2 :=
  {| currentGroups := currentGroups m; currentHosts := currentHosts m;
     currentGroup := currentGroup m; currentPage := currentPage m; pageSize := pageSize m;
     input := i; calls := calls m |}.
Definition called (m : MenuV2) : MenuV2 :=
  {| currentGroups := currentGroups m; currentHosts := currentHosts m;
     currentGroup := currentGroup m; currentPage := currentPage m; pageSize := pageSize m;
     input := input m; calls := S (calls m) |}.

(** What a menu loop comes to: a value, a panic, or more rounds than the fuel. *)
Inductive loop_result (A : Type) :=
  | Done (m : MenuV2) (a : A)
  | Panicked
  | OutOfFuel.
Arguments Done {A} m a.
Arguments Panicked {A}.
Arguments OutOfFuel {A}.

(** A screen before the rest. *)
Definition shown {A} (ok : bool) (k : loop_result A) : loop_result A := if ok then k else Panicked.

Section menu.
Context `{Unicode} (sel : Selector).

Definition is_cmd (cmd : text) (names : list string) : bool :=
  existsb (text_eqb cmd) (txt <$> names).

(** The host the command numbers, if it numbers one. *)
Definition numbered {A} (l : list A) (cmd : text) : option A :=
  choice ← atoi cmd;
  if (1 <=? choice) && (choice <=? Z.of_nat (length l)) then l !! Z.to_nat (choice - 1)
  else None.

(** [loadHostsInGroup]: on an error the hosts of the last page stay. *)
Definition loadHostsInGroup (m : MenuV2) (groupID : text) (page : Z) : MenuV2 * bool :=
  if negb (supports_groups sel) then (m, false)
  else match ListHostsByGroup sel (calls m) groupID page (pageSize m) with
       | Err _ => (called m, false)
       | Ok hosts => (set_hosts (called m) hosts, true)
       end.

(** [loadGroupsForUser]: an error of the filtered list falls back to all groups. *)
Definition loadGroupsForUser (m : MenuV2) (userID : text) : MenuV2 * bool :=
  if negb (supports_groups sel) then (m, false)
  else match ListGroupsForUser sel (calls m) userID with
       | Ok groups => (set_groups (called m) groups, true)
       | Err _ =>
           match ListGroups sel (calls (called m)) with
           | Ok groups => (set_groups (called (called m)) groups, true)
           | Err _ => (called (called m), false)
           end
       end.

(** The loop of [handleHostSelection]. *)
Fixpoint host_loop (fuel : nat) (m : MenuV2) (group : HostGroupInfo.t)
    : loop_result (option HostInfo.t) :=
  match fuel with
  | O => OutOfFuel
  | S fuel =>
      let '(command, rest) := readCommand [] (input m) in
      let m := set_input m rest in
      let cmd := to_lower (trim_space command) in
      let screen (m : MenuV2) (k : loop_result (option HostInfo.t)) :=
        shown (showHostList_ok group (currentHosts m)) k in
      if is_cmd cmd ["b"; "back"; "g"; "group"] then Done m None
      else if is_cmd cmd ["q"; "quit"; "exit"] then Done m None
      else if is_cmd cmd ["h"; "help"; "?"] then screen m (host_loop fuel m group)
      else if is_cmd cmd ["r"; "refresh"] then
        let '(m, ok) := loadHostsInGroup m (HostGroupInfo.ID group) (currentPage m) in
        if ok then screen m (host_loop fuel m group) else host_loop fuel m group
      else if is_cmd cmd ["n"; "next"] then
        let m := set_page m (currentPage m + 1) in
        let '(m, ok) := loadHostsInGroup m (HostGroupInfo.ID group) (currentPage m) in
        if negb ok || is_empty (currentHosts m) then
          let m := set_page m (currentPage m - 1) in
          let '(m, ok) := loadHostsInGroup m (HostGroupInfo.ID group) (currentPage m) in
          if ok then screen m (host_loop fuel m group) else host_loop fuel m group
        else screen m (host_loop fuel m group)
      else if is_cmd cmd ["p"; "prev"] then
        let '(m, ok) :=
          if 1 <? currentPage m then
            let m := set_page m (currentPage m - 1) in
            loadHostsInGroup m (HostGroupInfo.ID group) (currentPage m)
          else loadHostsInGroup m (HostGroupInfo.ID group) 1 in
        if ok then screen m (host_loop fuel m group) else host_loop fuel m group
      else if is_cmd cmd [""] then host_loop fuel m group
      else match numbered (currentHosts m) cmd with
           | Some host => Done m (Some host)
           | None => host_loop fuel m group
           end
  end.

Definition handleHostSelection (fuel : nat) (m : MenuV2) (group : HostGroupInfo.t)
    : loop_result (option HostInfo.t) :=
  let m := set_page m 1 in
  let '(m, ok) := loadHostsInGroup m (HostGroupInfo.ID group) (currentPage m) in
  if negb ok then Done m None
  else shown (showHostList_ok group (currentHosts m)) (host_loop fuel m group).

(** The loop of [handleGroupSelection]; its screen is shown before it. *)
Fixpoint group_loop (fuel : nat) (m : MenuV2) : loop_result (option HostInfo.t) :=
  match fuel with
  | O => OutOfFuel
  | S fuel =>
      let '(command, rest) := readCommand [] (input m) in
      let m := set_input m rest in
      let cmd := to_lower (trim_space command) in
      if is_cmd cmd ["b"; "back"] then Done m None
      else match numbered (currentGroups m) cmd with
           | Some selectedGroup =>
               match handleHostSelection fuel (set_group m selectedGroup) selectedGroup with
               | Done m (Some host) => Done m (Some host)
               | Done m None => shown (showGroupList_ok (currentGroups m)) (group_loop fuel m)
               | Panicked => Panicked
               | OutOfFuel => OutOfFuel
               end
           | None => group_loop fuel m
           end
  end.

Definition handleGroupSelection (fuel : nat) (m : MenuV2) : loop_result (option HostInfo.t) :=
  shown (showGroupList_ok (currentGroups m)) (group_loop fuel m).

(** The loop of [fallbackToAllHosts]. *)
Fixpoint fallback_loop (fuel : nat) (m : MenuV2) (hosts : list HostInfo.t)
    : loop_result (option HostInfo.t * bool) :=
  match fuel with
  | O => OutOfFuel
  | S fuel =>
      let '(command, rest) := readCommand [] (input m) in
      let m := set_input m rest in
      let cmd := to_lower (trim_space command) in
      if is_cmd cmd ["q"; "quit"; "exit"] then Done m (None, true)
      else match numbered hosts cmd with
           | Some host => Done m (Some host, false)
           | None => fallback_loop fuel m hosts
           end
  end.

Definition fallbackToAllHosts (fuel : nat) (m : MenuV2) (userID : text)
    : loop_result (option HostInfo.t * bool) :=
  match ListAvailableHosts sel (calls m) userID with
  | Err _ => Done (called m) (None, true)
  | Ok [] => Done (called m) (None, true)
  | Ok hosts => fallback_loop fuel (set_hosts (called m) hosts) hosts
  end.

(** The main loop of [InteractiveMenuV2]; the flag asks to disconnect. *)
Fixpoint main_loop (fuel : nat) (m : MenuV2) : loop_result (option HostInfo.t * bool) :=
  match fuel with
  | O => OutOfFuel
  | S fuel =>
      let '(command, rest) := readCommand [] (input m) in
      let m := set_input m rest in
      let cmd := to_lower (trim_space command) in
      let choose (r : loop_result (option HostInfo.t)) :=
        match r with
        | Done m (Some host) => Done m (Some host, false)
        | Done m None => main_loop fuel m
        | Panicked => Panicked
        | OutOfFuel => OutOfFuel
        end in
      if is_cmd cmd ["q"; "quit"; "exit"] then Done m (None, true)
      else if is_cmd cmd ["g"; "group"] then choose (handleGroupSelection fuel m)
      else if is_cmd cmd ["p"; "page"; "list"] then
        match currentGroups m with
        | defaultGroup :: _ =>
            choose (handleHostSelection fuel (set_group m defaultGroup) defaultGroup)
        | [] => main_loop fuel m
        end
      else if is_cmd cmd ["h"; "help"; "?"] then main_loop fuel m
      else if is_cmd cmd [""] then main_loop fuel m
      else match numbered (currentHosts m) cmd with
           | Some host => Done m (Some host, false)
           | None => main_loop fuel m
           end
  end.

Definition InteractiveMenuV2 (fuel : nat) (m : MenuV2) (userID : text)
    : loop_result (option HostInfo.t * bool) :=
  let '(m, ok) := loadGroupsForUser m userID in
  if negb ok then fallbackToAllHosts fuel m userID
  else if is_empty (currentGroups m) then fallbackToAllHosts fuel m userID
  else main_loop fuel m.
End menu.

Arguments Done {A} m a.
Arguments Panicked {A}.
Arguments OutOfFuel {A}.

(** ** The input always moves forward *)

Lemma readCommand_rest buf inp c rest :
  readCommand buf inp = (c, rest) → (length rest ≤ length inp)%nat ∧ (inp ≠ [] → (length rest < length inp)%nat).
Proof.
  remember (length inp) as n eqn:Hn. revert inp buf Hn.
  induction (lt_wf n) as [n _ IH]. intros [|ch inp] buf -> Hr; simpl in Hr.
  { injection Hr as <- <-. split; [done|done]. }
  assert (∀ b i, (length i < length (ch :: inp))%nat → readCommand b i = (c, rest) →
            (length rest < length (ch :: inp))%nat) as Hrec.
  { intros b i Hi Hri. destruct (IH (length i) Hi i b eq_refl Hri) as [? _]. lia. }
  assert (length rest < length (ch :: inp))%nat as Hlt; [|split; [lia|done]].
  repeat (case_match; simplify_eq/=; try lia; try (by (eapply Hrec; [|done]; simpl; lia))).
Qed.

Section menu_facts.
Context `{UL : UnicodeLaws} (sel : Selector).

(** ** After the client has gone *)

Lemma host_loop_gone fuel m group : input m = [] → host_loop sel fuel m group = OutOfFuel.
Proof.
  revert m. induction fuel as [|fuel IH]; intros m Hm; [done|].
  cbn [host_loop]. rewrite Hm. cbn [readCommand]. by apply IH.
Qed.

Lemma group_loop_gone fuel m : input m = [] → group_loop sel fuel m = OutOfFuel.
Proof.
  revert m. induction fuel as [|fuel IH]; intros m Hm; [done|].
  cbn [group_loop]. rewrite Hm. cbn [readCommand]. by apply IH.
Qed.

Lemma fallback_loop_gone fuel m hosts : input m = [] → fallback_loop fuel m hosts = OutOfFuel.
Proof.
  revert m. induction fuel as [|fuel IH]; intros m Hm; [done|].
  cbn [fallback_loop]. rewrite Hm. cbn [readCommand]. by apply IH.
Qed.

Lemma main_loop_gone fuel m : input m = [] → main_loop sel fuel m = OutOfFuel.
Proof.
  revert m. induction fuel as [|fuel IH]; intros m Hm; [done|].
  cbn [main_loop]. rewrite Hm. cbn [readCommand]. by apply IH.
Qed.

(** Once the client has gone (its input fails), no menu loop ever returns:
    the read error is taken for an empty command, so the goroutine spins. *)
Theorem menu_spins_after_disconnect fuel m group hosts :
  input m = [] →
  main_loop sel fuel m = OutOfFuel ∧ group_loop sel fuel m = OutOfFuel ∧
  host_loop sel fuel m group = OutOfFuel ∧ fallback_loop fuel m hosts = OutOfFuel.
Proof.
  intros Hm. split_and!; [by apply main_loop_gone|by apply group_loop_gone|
    by apply host_loop_gone|by apply fallback_loop_gone].
Qed.

(** ** Enough fuel

    Every round reads at least a byte or finds the client gone, so one more
    round than there are bytes decides what a loop does. *)

Lemma load_input m g page m' ok :
  loadHostsInGroup sel m g page = (m', ok) → input m' = input m.
Proof.
  unfold loadHostsInGroup. repeat case_match; intros; by simplify_eq/=.
Qed.

Lemma load_page_input m p g page m' ok :
  loadHostsInGroup sel (set_page m p) g page = (m', ok) → input m' = input m.
Proof. intros E. apply load_input in E. exact E. Qed.

(** The state after reading a command, and the input it leaves. *)
Ltac read_step m :=
  let c := fresh "c" in let rest := fresh "rest" in let E := fresh "Eread" in
  destruct (readCommand [] (input m)) as [c rest] eqn:E;
  apply readCommand_rest in E as [? ?].

Ltac input_le :=
  repeat match goal with
  | E : loadHostsInGroup _ (set_page _ _) _ _ = _ |- _ => apply load_page_input in E
  | E : loadHostsInGroup _ _ _ _ = _ |- _ => apply load_input in E
  end; simpl in *; lia || (repeat match goal with E : input _ = _ |- _ => rewrite E in * end;
                           simpl in *; lia).

Lemma host_loop_input fuel m group m' h :
  host_loop sel fuel m group = Done m' h → (length (input m') ≤ length (input m))%nat.
Proof.
  revert m. induction fuel as [|fuel IH]; intros m Hd; [done|]. cbn [host_loop] in Hd.
  read_step m. unfold shown in Hd.
  repeat case_match; simplify_eq/=; try lia;
    match goal with H : host_loop _ _ _ _ = Done _ _ |- _ => apply IH in H end; input_le.
Qed.

Lemma host_loop_fuel f1 f2 m group :
  (length (input m) < f1)%nat → (length (input m) < f2)%nat →
  host_loop sel f1 m group = host_loop sel f2 m group.
Proof.
  revert f2 m. induction f1 as [|f1 IH]; intros [|f2] m H1 H2; [lia..|].
  destruct (decide (input m = [])) as [E|E]; [by rewrite !host_loop_gone|].
  cbn [host_loop]. read_step m. specialize (H0 E). unfold shown.
  repeat case_match; try done; apply IH; input_le.
Qed.

Lemma handleHostSelection_fuel f1 f2 m group :
  (length (input m) < f1)%nat → (length (input m) < f2)%nat →
  handleHostSelection sel f1 m group = handleHostSelection sel f2 m group.
Proof.
  intros H1 H2. unfold handleHostSelection, shown.
  repeat case_match; try done. apply host_loop_fuel; input_le.
Qed.

Lemma handleHostSelection_input fuel m group m' h :
  handleHostSelection sel fuel m group = Done m' h → (length (input m') ≤ length (input m))%nat.
Proof.
  unfold handleHostSelection, shown. repeat case_match; intros; simplify_eq/=;
    try match goal with H : host_loop _ _ _ _ = Done _ _ |- _ => apply host_loop_input in H end;
    input_le.
Qed.

Lemma group_loop_input fuel m m' h :
  group_loop sel fuel m = Done m' h → (length (input m') ≤ length (input m))%nat.
Proof.
  revert m. induction fuel as [|fuel IH]; intros m Hd; [done|]. cbn [group_loop] in Hd.
  read_step m. unfold shown in Hd.
  repeat case_match; simplify_eq/=; try lia;
    repeat match goal with
    | H : group_loop _ _ _ = Done _ _ |- _ => apply IH in H
    | H : handleHostSelection _ _ _ _ = Done _ _ |- _ => apply handleHostSelection_input in H
    end; simpl in *; lia.
Qed.

Lemma group_loop_fuel f1 f2 m :
  (length (input m) < f1)%nat → (length (input m) < f2)%nat →
  group_loop sel f1 m = group_loop sel f2 m.
Proof.
  revert f2 m. induction f1 as [|f1 IH]; intros [|f2] m H1 H2; [lia..|].
  destruct (decide (input m = [])) as [E|E]; [by rewrite !group_loop_gone|].
  cbn [group_loop]. read_step m. specialize (H0 E). destruct (is_cmd _ _); [done|].
  destruct (numbered _ _) as [g|]; [|apply IH; simpl in *; lia].
  rewrite (handleHostSelection_fuel f1 f2) by (simpl in *; lia).
  destruct (handleHostSelection _ _ _ _) as [m1 [h|]| |] eqn:Eh; try done.
  apply handleHostSelection_input in Eh. unfold shown. destruct (showGroupList_ok _); [|done].
  apply IH; simpl in *; lia.
Qed.

Lemma main_loop_fuel f1 f2 m :
  (length (input m) < f1)%nat → (length (input m) < f2)%nat →
  main_loop sel f1 m = main_loop sel f2 m.
Proof.
  revert f2 m. induction f1 as [|f1 IH]; intros [|f2] m H1 H2; [lia..|].
  destruct (decide (input m = [])) as [E|E]; [by rewrite !main_loop_gone|].
  cbn [main_loop]. read_step m. specialize (H0 E). destruct (is_cmd _ _); [done|].
  destruct (is_cmd _ _).
  { unfold handleGroupSelection, shown. destruct (showGroupList_ok _); [|done].
    rewrite (group_loop_fuel f1 f2) by (simpl in *; lia).
    destruct (group_loop _ _ _) as [m1 [h|]| |] eqn:Eg; try done.
    apply group_loop_input in Eg. apply IH; simpl in *; lia. }
  destruct (is_cmd _ _).
  { destruct (currentGroups _) as [|g gs]; [apply IH; simpl in *; lia|].
    rewrite (handleHostSelection_fuel f1 f2) by (simpl in *; lia).
    destruct (handleHostSelection _ _ _ _) as [m1 [h|]| |] eqn:Eg; try done.
    apply handleHostSelection_input in Eg. apply IH; simpl in *; lia. }
  destruct (is_cmd _ _); [apply IH; simpl in *; lia|].
  destruct (is_cmd _ _); [apply IH; simpl in *; lia|].
  destruct (numbered _ _); [done|]. apply IH; simpl in *; lia.
Qed.

Lemma fallback_loop_fuel f1 f2 m hosts :
  (length (input m) < f1)%nat → (length (input m) < f2)%nat →
  fallback_loop f1 m hosts = fallback_loop f2 m hosts.
Proof.
  revert f2 m. induction f1 as [|f1 IH]; intros [|f2] m H1 H2; [lia..|].
  destruct (decide (input m = [])) as [E|E]; [by rewrite !fallback_loop_gone|].
  cbn [fallback_loop]. read_step m. specialize (H0 E). destruct (is_cmd _ _); [done|].
  destruct (numbered _ _); [done|]. apply IH; simpl in *; lia.
Qed.

(** The menu decides within one more round than there are bytes of input:
    more fuel never changes the outcome, so running out of it means the menu
    never returns. *)
Theorem menu_fuel_enough fuel m uid :
  (length (input m) < fuel)%nat →
  InteractiveMenuV2 sel fuel m uid = InteractiveMenuV2 sel (S (length (input m))) m uid.
Proof.
  intros Hf. unfold InteractiveMenuV2. destruct (loadGroupsForUser sel m uid) as [m1 ok] eqn:E.
  assert (input m1 = input m) as Hi.
  { unfold loadGroupsForUser in E. repeat case_match; by simplify_eq/=. }
  assert (fallbackToAllHosts sel fuel m1 uid =
          fallbackToAllHosts sel (S (length (input m))) m1 uid) as Hfb.
  { unfold fallbackToAllHosts. repeat case_match; try done.
    apply fallback_loop_fuel; simpl; rewrite Hi; lia. }
  destruct (negb ok); [done|]. destruct (is_empty _); [done|].
  apply main_loop_fuel; rewrite Hi; lia.
Qed.

(** ** The host chosen was offered *)

(** The selector listed the group, or listed the host in such a group. *)
Definition group_listed (g : HostGroupInfo.t) : Prop :=
  ∃ n l, g ∈ l ∧ ((∃ uid, ListGroupsForUser sel n uid = Ok l) ∨ ListGroups sel n = Ok l).

Definition host_listed (h : HostInfo.t) : Prop :=
  (∃ n uid l, ListAvailableHosts sel n uid = Ok l ∧ h ∈ l) ∨
  (∃ n g page l, group_listed g ∧ 1 <= page ∧
     ListHostsByGroup sel n (HostGroupInfo.ID g) page 20 = Ok l ∧ h ∈ l).

Definition menu_inv (m : MenuV2) : Prop :=
  Forall group_listed (currentGroups m) ∧ Forall host_listed (currentHosts m) ∧
  1 <= currentPage m ∧ pageSize m = 20.

Definition sound_host (r : loop_result (option HostInfo.t)) : Prop :=
  match r with
  | Done m h => menu_inv m ∧ (∀ x, h = Some x → host_listed x)
  | _ => True
  end.

Lemma numbered_elem {A} (l : list A) cmd x : numbered l cmd = Some x → x ∈ l.
Proof.
  unfold numbered. destruct (atoi cmd) as [z|]; [|done]. simpl.
  destruct (_ && _); [|done]. apply list_elem_of_lookup_2.
Qed.

Lemma shown_sound ok r : sound_host r → sound_host (shown ok r).
Proof. by destruct ok. Qed.

Lemma inv_input m i : menu_inv m → menu_inv (set_input m i).
Proof. done. Qed.

Lemma load_inv m g page m' ok :
  menu_inv m → group_listed g → 1 <= page →
  loadHostsInGroup sel m (HostGroupInfo.ID g) page = (m', ok) →
  menu_inv m' ∧ currentPage m' = currentPage m.
Proof.
  intros (Hg & Hh & Hp & Hs) Hgl Hpage. unfold loadHostsInGroup.
  destruct (negb _); [by intros [= <- <-]|].
  destruct (ListHostsByGroup _ _ _ _ _) as [l|] eqn:E; intros [= <- <-]; [|done].
  split; [|done]. split_and!; [done| |done|done]. apply Forall_forall. intros h Hin. right.
  rewrite Hs in E. exists (calls m), g, page, l. done.
Qed.

Lemma inv_page m p : menu_inv m → 1 <= p → menu_inv (set_page m p).
Proof. by intros (? & ? & ? & ?) ?. Qed.

Lemma host_loop_sound fuel m group :
  menu_inv m → group_listed group → sound_host (host_loop sel fuel m group).
Proof.
  revert m. induction fuel as [|fuel IH]; intros m Hm Hg; [done|]. cbn [host_loop].
  destruct (readCommand [] (input m)) as [command rest].
  apply (inv_input m rest) in Hm. revert Hm. generalize (set_input m rest). clear m. intros m Hm.
  pose proof Hm as (_ & _ & Hp & _).
  destruct (is_cmd _ _); [done|]. destruct (is_cmd _ _); [done|].
  destruct (is_cmd _ _); [apply shown_sound; by apply IH|].
  destruct (is_cmd _ _).
  { destruct (loadHostsInGroup _ _ _ _) as [m1 ok] eqn:E.
    apply load_inv in E as [Hm1 _]; [|done..].
    destruct ok; [apply shown_sound|]; by apply IH. }
  destruct (is_cmd _ _).
  { destruct (loadHostsInGroup _ _ _ _) as [m1 ok] eqn:E.
    apply load_inv in E as [Hm1 Hp1]; [|apply inv_page; [done|lia]|done|simpl; lia].
    simpl in Hp1. destruct (_ || _); [|apply shown_sound; by apply IH].
    destruct (loadHostsInGroup _ (set_page m1 _) _ _) as [m2 ok2] eqn:E2.
    apply load_inv in E2 as [Hm2 _]; [|apply inv_page; [done|lia]|done|simpl; lia].
    destruct ok2; [apply shown_sound|]; by apply IH. }
  destruct (is_cmd _ _).
  { destruct (1 <? currentPage m) eqn:E1.
    - apply Z.ltb_lt in E1. destruct (loadHostsInGroup _ _ _ _) as [m1 ok] eqn:E.
      apply load_inv in E as [Hm1 _]; [|apply inv_page; [done|lia]|done|simpl; lia].
      destruct ok; [apply shown_sound|]; by apply IH.
    - destruct (loadHostsInGroup _ _ _ _) as [m1 ok] eqn:E.
      apply load_inv in E as [Hm1 _]; [|done|done|lia].
      destruct ok; [apply shown_sound|]; by apply IH. }
  destruct (is_cmd _ _); [by apply IH|].
  destruct (numbered _ _) as [h|] eqn:E; [|by apply IH].
  split; [done|]. intros x [= <-]. apply numbered_elem in E.
  destruct Hm as (_ & Hh & _). by apply (proj1 (Forall_forall _ _) Hh).
Qed.

Lemma handleHostSelection_sound fuel m group :
  menu_inv m → group_listed group → sound_host (handleHostSelection sel fuel m group).
Proof.
  intros Hm Hg. unfold handleHostSelection.
  destruct (loadHostsInGroup _ _ _ _) as [m1 ok] eqn:E.
  apply load_inv in E as [Hm1 _]; [|by apply inv_page|done|simpl; lia].
  destruct (negb ok); [done|]. apply shown_sound. by apply host_loop_sound.
Qed.

Lemma group_loop_sound fuel m : menu_inv m → sound_host (group_loop sel fuel m).
Proof.
  revert m. induction fuel as [|fuel IH]; intros m Hm; [done|]. cbn [group_loop].
  destruct (readCommand [] (input m)) as [command rest].
  apply (inv_input m rest) in Hm. revert Hm. generalize (set_input m rest). clear m. intros m Hm.
  destruct (is_cmd _ _); [done|].
  destruct (numbered (currentGroups m) _) as [g|] eqn:E; [|by apply IH].
  apply numbered_elem in E.
  assert (group_listed g) as Hg.
  { destruct Hm as (Hgs & _). by apply (proj1 (Forall_forall _ _) Hgs). }
  pose proof (handleHostSelection_sound fuel (set_group m g) g Hm Hg) as Hs.
  destruct (handleHostSelection _ _ _ _) as [m1 [h|]| |]; [done| |done|done].
  apply shown_sound, IH. apply Hs.
Qed.

Definition sound_choice (r : loop_result (option HostInfo.t * bool)) : Prop :=
  match r with
  | Done m (h, _) => menu_inv m ∧ (∀ x, h = Some x → host_listed x)
  | _ => True
  end.

Lemma fallback_loop_sound fuel m hosts :
  menu_inv m → Forall host_listed hosts → sound_choice (fallback_loop fuel m hosts).
Proof.
  intros Hm Hh. revert m Hm. induction fuel as [|fuel IH]; intros m Hm; [done|].
  cbn [fallback_loop]. destruct (readCommand [] (input m)) as [command rest].
  destruct (is_cmd _ _); [done|].
  destruct (numbered hosts _) as [h|] eqn:E; [|by apply IH].
  split; [done|]. intros x [= <-]. apply numbered_elem in E.
  by apply (proj1 (Forall_forall _ _) Hh).
Qed.

Lemma fallback_sound fuel m uid : menu_inv m → sound_choice (fallbackToAllHosts sel fuel m uid).
Proof.
  intros Hm. unfold fallbackToAllHosts.
  destruct (ListAvailableHosts sel (calls m) uid) as [[|h l]|] eqn:E; [done| |done].
  assert (Forall host_listed (h :: l)) as Hl.
  { apply Forall_forall. intros x Hx. left. eauto 10. }
  apply fallback_loop_sound; [|done]. destruct Hm as (? & ? & ? & ?). done.
Qed.

Lemma main_loop_sound fuel m : menu_inv m → sound_choice (main_loop sel fuel m).
Proof.
  revert m. induction fuel as [|fuel IH]; intros m Hm; [done|]. cbn [main_loop].
  destruct (readCommand [] (input m)) as [command rest].
  apply (inv_input m rest) in Hm. revert Hm. generalize (set_input m rest). clear m. intros m Hm.
  pose (choose := λ r : loop_result (option HostInfo.t),
    match r with
    | Done m (Some host) => Done m (Some host, false)
    | Done m None => main_loop sel fuel m
    | Panicked => Panicked
    | OutOfFuel => OutOfFuel
    end).
  assert (∀ r, sound_host r → sound_choice (choose r)) as Hchoose.
  { intros r Hr. unfold choose. destruct r as [m1 [h|]| |]; [|apply IH|done|done].
    - destruct Hr as [Hm1 Hh]. split; [done|]. intros x [= <-]. by apply Hh.
    - apply Hr. }
  destruct (is_cmd _ _); [done|].
  destruct (is_cmd _ _); [refine (Hchoose (handleGroupSelection sel fuel m) _); apply shown_sound; by apply group_loop_sound|].
  destruct (is_cmd _ _).
  { destruct (currentGroups m) as [|g gs] eqn:Eg; [by apply IH|].
    refine (Hchoose (handleHostSelection sel fuel (set_group m g) g) _).
    apply handleHostSelection_sound; [done|].
    destruct Hm as (Hgs & _). rewrite Eg in Hgs. by apply Forall_cons in Hgs as [? _]. }
  destruct (is_cmd _ _); [by apply IH|]. destruct (is_cmd _ _); [by apply IH|].
  destruct (numbered _ _) as [h|] eqn:E; [|by apply IH].
  split; [done|]. intros x [= <-]. apply numbered_elem in E.
  destruct Hm as (_ & Hh & _). by apply (proj1 (Forall_forall _ _) Hh).
Qed.

Lemma menu_choice_sound fuel m uid m' h exit :
  menu_inv m → InteractiveMenuV2 sel fuel m uid = Done m' (h, exit) →
  menu_inv m' ∧ (∀ x, h = Some x → host_listed x).
Proof.
  intros Hm Hr.
  assert (sound_choice (InteractiveMenuV2 sel fuel m uid)) as Hs; [|by rewrite Hr in Hs].
  clear Hr. unfold InteractiveMenuV2. destruct (loadGroupsForUser sel m uid) as [m1 ok] eqn:E.
  assert (menu_inv m1) as Hm1.
  { unfold loadGroupsForUser in E. destruct Hm as (Hg & Hh & Hp & Hsz).
    destruct (negb _); [by injection E as <- <-|].
    destruct (ListGroupsForUser _ _ _) as [l|] eqn:El; [injection E as <- <-|].
    - split_and!; [|done..]. apply Forall_forall. intros g Hin. exists (calls m), l. eauto.
    - destruct (ListGroups _ _) as [l|] eqn:El'; injection E as <- <-; [|done].
      split_and!; [|done..]. apply Forall_forall. intros g Hin.
      exists (calls (called m)), l. eauto. }
  destruct (negb ok); [by apply fallback_sound|].
  destruct (is_empty _); [by apply fallback_sound|by apply main_loop_sound].
Qed.

(** Whatever the user types, a host the menu returns is one the selector
    listed, on a page from 1 up of a group it listed, or among the hosts it
    listed for a user; the menu keeps this invariant from one interaction to the
    next. *)
Theorem menu_host_sound fuel m uid m' h exit :
  menu_inv m → InteractiveMenuV2 sel fuel m uid = Done m' (Some h, exit) →
  host_listed h ∧ menu_inv m'.
Proof. intros Hm Hr. destruct (menu_choice_sound _ _ _ _ _ _ Hm Hr) as [? Hh]. eauto. Qed.

(** A group whose name is longer than 66 bytes (23 Chinese characters)
    cannot be opened: drawing its host list panics, and the panic ends the
    user's terminal session. *)
Theorem long_group_name_panics fuel m group hosts :
  supports_groups sel = true →
  ListHostsByGroup sel (calls m) (HostGroupInfo.ID group) 1 (pageSize m) = Ok hosts →
  66 < blen (HostGroupInfo.Name group) →
  handleHostSelection sel fuel m group = Panicked.
Proof.
  intros Hs Hl Hn. unfold handleHostSelection, loadHostsInGroup.
  cbn [set_page currentPage calls pageSize]. rewrite Hs, Hl. cbn [negb].
  unfold showHostList_ok, repeat_ok.
  rewrite (proj2 (Z.leb_gt _ _)) by lia. done.
Qed.
End menu_facts.

(** ** Witnesses *)

Definition sample_host : HostInfo.t :=
  {| HostInfo.ID := txt "h1"; HostInfo.Name := txt "web"; HostInfo.IP := txt "10.0.0.5";
     HostInfo.Port := 22; HostInfo.Username := []; HostInfo.Password := []; HostInfo.Tags := [];
     HostInfo.DeviceType := txt "linux"; HostInfo.Status := txt "online" |}.

Definition sample_group (name : text) : HostGroupInfo.t :=
  {| HostGroupInfo.ID := txt "g1"; HostGroupInfo.Name := name; HostGroupInfo.Description := [];
     HostGroupInfo.HostCount := 1; HostGroupInfo.OnlineCount := 1 |}.

Definition sample_selector (name : text) : Selector :=
  {| ListAvailableHosts _ _ := Ok [sample_host]; supports_groups := true;
     ListGroups _ := Ok [sample_group name]; ListGroupsForUser _ _ := Ok [sample_group name];
     ListHostsByGroup _ _ _ _ := Ok [sample_host] |}.

Lemma menu_spins_after_disconnect_witness :
  main_loop (sample_selector (txt "web")) 1000 (NewMenuV2 []) = OutOfFuel.
Proof.
  apply (menu_spins_after_disconnect (sample_selector (txt "web")) 1000 (NewMenuV2 [])
           (sample_group []) []).
  reflexivity.
Defined.

Lemma menu_fuel_enough_witness :
  InteractiveMenuV2 (sample_selector (txt "web")) 100 (NewMenuV2 (txt "q" ++ [13])) (txt "u")
  = InteractiveMenuV2 (sample_selector (txt "web")) 3 (NewMenuV2 (txt "q" ++ [13])) (txt "u").
Proof.
  apply (menu_fuel_enough (sample_selector (txt "web")) 100 (NewMenuV2 (txt "q" ++ [13]))).
  vm_compute. lia.
Defined.

Lemma menu_host_sound_witness :
  host_listed (sample_selector (txt "web")) sample_host.
Proof.
  refine (proj1 (menu_host_sound (sample_selector (txt "web")) 10
            (NewMenuV2 (txt "g" ++ 13 :: txt "1" ++ 13 :: txt "1" ++ [13])) (txt "u")
            _ sample_host false _ _)).
  - split_and!; [constructor|constructor|reflexivity || discriminate|reflexivity].
  - vm_compute. reflexivity.
Defined.

Lemma long_group_name_panics_witness :
  handleHostSelection (sample_selector (mjoin (replicate 23 (txt "组")))) 10 (NewMenuV2 [])
    (sample_group (mjoin (replicate 23 (txt "组")))) = Panicked.
Proof.
  apply (long_group_name_panics _ 10 (NewMenuV2 []) _ [sample_host]); reflexivity.
Defined.
