(* ===== verification/HostSession.v ===== *)
(** * A host session

    [handleHostConnection], [connectToHostWithSuccessCallback] and
    [HandleTerminal] of [internal/sshserver/terminal/handler.go]: choosing the
    account of the target host, dialling it, and the audit trail of the attempt.
    What the network, the SSH library and the client answer is the record
    [world]; the trail is the list of calls made to the auditor, the recorder
    and the menu.  The connecting function reports through a callback that
    writes to a channel of capacity one, which the handler then reads. *)

From stdpp Require Import base list strings sets pretty.
From Stdlib Require Import ZArith Lia Ascii.
From S2P Require Import Prelude GoStrings Models Menu.
Local Open Scope Z_scope.

(** ** The SSH library *)

Inductive auth_method := PasswordMethod (password : text) | KeyMethod (signer : text).
(** A key is known by what it signs with. [Dial] gets the address, the user and
    the methods of the configuration; its answer is that of the sign-in. *)
Class SshLib := {
  ParsePrivateKey : text → result text text;
  ParsePrivateKeyWithPassphrase : text → text → result text text;
  Dial : text → text → list auth_method → result text unit;
}.
Definition host_port (host : text) (port : Z) : text := host ++ txt ":" ++ txt (pretty port).

(** ** The steps of a connection *)

(** The library, and what the calls on the connection return, in the order they
    are made. *)
Record world := {
  ssh : SshLib;
  new_session : result text unit;
  stdin_pipe : result text unit;
  stdout_pipe : result text unit;
  stderr_pipe : result text unit;
  request_pty : result text unit;
  start_shell : result text unit
}.

(** Calls of [onConnected] (the error, or none) and the error returned; a nil
    system user is dereferenced at once. *)
Definition report (cb : list (option text)) (r : option text)
  : outcome (list (option text) * option text) := Ret (cb, r).

(** The set-up of the remote shell once connected, each error returned. *)
Definition setup_shell (w : world) : result text unit :=
  _ ← map_err (λ e, txt "failed to create target session: " ++ e) (new_session w);
  _ ← map_err (λ e, txt "failed to get stdin pipe: " ++ e) (stdin_pipe w);
  _ ← map_err (λ e, txt "failed to get stdout pipe: " ++ e) (stdout_pipe w);
  _ ← map_err (λ e, txt "failed to get stderr pipe: " ++ e) (stderr_pipe w);
  _ ← map_err (λ e, txt "failed to request pty: " ++ e) (request_pty w);
  map_err (λ e, txt "failed to start shell: " ++ e) (start_shell w).

Definition err_of {A} (r : result text A) : option text :=
  match r with Ok _ => None | Err e => Some e end.

(** The signer of a key account. *)
Definition signer_of `{SshLib} (su : SystemUser.t) : result text text :=
  if negb (is_empty (SystemUser.Passphrase su))
  then ParsePrivateKeyWithPassphrase (SystemUser.PrivateKey su) (SystemUser.Passphrase su)
  else ParsePrivateKey (SystemUser.PrivateKey su).

Definition connectToHost (w : world) (host : HostInfo.t) (systemUser : option SystemUser.t)
    : outcome (list (option text) * option text) :=
  match systemUser with
  | None => Panic
  | Some su =>
      let dial_host method :=
        match @Dial (ssh w) (host_port (HostInfo.IP host) (HostInfo.Port host))
                (SystemUser.Username su) [method] with
        | Err e => report [Some e] (Some (txt "failed to connect to target host: " ++ e))
        | Ok _ => report [None] (err_of (setup_shell w))
        end in
      if text_eqb (SystemUser.AuthType su) (txt "password")
      then dial_host (PasswordMethod (SystemUser.Password su))
      else if text_eqb (SystemUser.AuthType su) (txt "key") then
        match @signer_of (ssh w) su with
        | Err e => report [Some e] (Some (txt "failed to parse private key: " ++ e))
        | Ok signer => dial_host (KeyMethod signer)
        end
      else let e := txt "unsupported auth type: " ++ SystemUser.AuthType su in
           report [Some e] (Some e)
  end.

(** *** Signing in with an account *)

(** What the account has to sign in with: its password, or the key it holds,
    opened with its passphrase when it has one. *)
Inductive account_method (L : SshLib) (su : SystemUser.t) : auth_method → Prop :=
  | by_password :
      SystemUser.AuthType su = txt "password" →
      account_method L su (PasswordMethod (SystemUser.Password su))
  | by_key signer :
      SystemUser.AuthType su = txt "key" → SystemUser.Passphrase su = [] →
      ParsePrivateKey (SystemUser.PrivateKey su) = Ok signer →
      account_method L su (KeyMethod signer)
  | by_locked_key signer :
      SystemUser.AuthType su = txt "key" → SystemUser.Passphrase su ≠ [] →
      ParsePrivateKeyWithPassphrase (SystemUser.PrivateKey su) (SystemUser.Passphrase su) = Ok signer →
      account_method L su (KeyMethod signer).

(** The host takes the account: its user name, with its own method. *)
Definition logs_in (w : world) (host : HostInfo.t) (su : SystemUser.t) : Prop :=
  ∃ m, account_method (ssh w) su m ∧
    @Dial (ssh w) (host_port (HostInfo.IP host) (HostInfo.Port host)) (SystemUser.Username su) [m] = Ok ().

Lemma connectToHost_spec w host su :
  (logs_in w host su ∧ connectToHost w host (Some su) = Ret ([None], err_of (setup_shell w))) ∨
  (¬ logs_in w host su ∧ ∃ e r, connectToHost w host (Some su) = Ret ([Some e], r)).
Proof.
  unfold connectToHost, logs_in, report, signer_of.
  destruct (text_eqb (SystemUser.AuthType su) (txt "password")) eqn:Ep.
  { apply text_eqb_true in Ep. destruct (Dial _ _ _) as [[]|e] eqn:Ed.
    - left. split; [|done]. eexists. split; [by apply by_password|exact Ed].
    - right. split; [|by eauto]. intros (m & Hm & Hd).
      destruct Hm as [_|k Hk|k Hk]; [congruence| |]; rewrite Hk in Ep; discriminate. }
  destruct (text_eqb (SystemUser.AuthType su) (txt "key")) eqn:Ek; last first.
  { right. split; [|by eauto]. intros (m & Hm & _).
    destruct Hm as [Hk|k Hk|k Hk]; rewrite Hk in Ep, Ek; discriminate. }
  apply text_eqb_true in Ek.
  assert (∀ m, account_method (ssh w) su m →
            ∃ signer, m = KeyMethod signer ∧ @signer_of (ssh w) su = Ok signer) as Hsig.
  { intros m [Hk|k _ Hp Hs|k _ Hp Hs]; [rewrite Hk in Ek; discriminate| |];
      exists k; (split; [done|]); unfold signer_of.
    - by rewrite Hp.
    - by destruct (SystemUser.Passphrase su). }
  unfold signer_of in Hsig.
  destruct (if negb _ then _ else _) as [signer|e] eqn:Es; last first.
  { right. split; [|by eauto]. by intros (m & (k & _ & Hk)%Hsig & _). }
  assert (account_method (ssh w) su (KeyMethod signer)) as Hm.
  { destruct (SystemUser.Passphrase su) eqn:Epp; [by apply by_key|].
    apply by_locked_key; [done|by rewrite Epp|by rewrite Epp]. }
  destruct (Dial _ _ _) as [[]|e] eqn:Ed.
  - left. split; [|done]. by exists (KeyMethod signer).
  - right. split; [|by eauto]. intros (m & (k & -> & Hk)%Hsig & Hd). congruence.
Qed.

(** The password put on the host is not what it is dialled with. *)
Lemma logs_in_password w host su b p :
  logs_in w (if b : bool then host else HostInfo.set_password host p) su ↔ logs_in w host su.
Proof. by destruct b. Qed.

(** ** The account *)

(** The value [fmt.Sscanf(s, "%d", &x)] reads: a sign and the digits up to the
    first other rune. *)
Definition sscan_int (s : text) : option Z :=
  let '(neg, ds) := match s with
                    | 45 :: ds => (true, ds) | 43 :: ds => (false, ds) | _ => (false, s)
                    end in
  let ds := take_while is_digit ds in
  if is_empty ds then None
  else z ← digits_value 0 ds;
       let z := if neg : bool then - z else z in
       if int64_ok z then Some z else None.

(** What the audit trail and the screen get. *)
Inductive trail :=
  | ShowConnectionInfo
  | ShowError (msg : text)
  | AuditLoginStart (s : SessionInfo.t)
  | AuditSessionFailed (s : SessionInfo.t) (reason : text)
  | AuditConnectionSuccess (s : SessionInfo.t)
  | RecordStart (s : SessionInfo.t)
  | AuditSessionEnd (id : text)
  | RecordEnd (id : text).

(** [selectSystemUser], the block between the banners of the source: the
    account, or the error; [read] is the bytes of the user's answer. *)
Definition selectSystemUser (repo : option (text → text → result text (list SystemUser.t)))
    (userID hostID : text) (read : option bytes)
    : list trail * result text (option SystemUser.t) :=
  match repo with
  | None => ([], Ok None)
  | Some find =>
      match find userID hostID with
      | Err e => ([], Err (txt "failed to get available system users: " ++ e))
      | Ok [] => ([ShowError (txt "No available system users for this host")],
                  Err (txt "no available system users"))
      | Ok [su] => ([], Ok (Some su))
      | Ok available =>
          match read with
          | None | Some [] => ([], Err (txt "failed to read system user selection"))
          | Some buf =>
              let invalid := ([ShowError (txt "Invalid selection")],
                              Err (txt "invalid system user selection")) in
              match sscan_int (trim_space (utf8_decode buf)) with
              | None => invalid
              | Some selected =>
                  if (selected <? 1) || (Z.of_nat (length available) <? selected) then invalid
                  else match available !! Z.to_nat (selected - 1) with
                       | Some su => ([], Ok (Some su))
                       | None => invalid
                       end
              end
          end
      end
  end.

(** ** The handler *)

(** How the handler ends: a panic, a wait on the channel nothing will write, or
    the error it returns. *)
Inductive ending :=
  | Panicked
  | Deadlocked
  | Returned (t : list trail) (err : option text).

(** The trail the callback leaves. *)
Definition on_connected (s : SessionInfo.t) (e : option text) : list trail :=
  match e with
  | Some e => [AuditSessionFailed (SessionInfo.set_status s (txt "failed")) e]
  | None => [AuditConnectionSuccess s; RecordStart s]
  end.

Definition handleHostConnection (w : world)
    (repo : option (text → text → result text (list SystemUser.t)))
    (session : SessionInfo.t) (host : HostInfo.t) (suffix : text) (read : option bytes) : ending :=
  let hostSession :=
    {| SessionInfo.SessionID := SessionInfo.SessionID session ++ txt "-" ++ suffix;
       SessionInfo.UserID := SessionInfo.UserID session;
       SessionInfo.Username := SessionInfo.Username session;
       SessionInfo.ClientIP := SessionInfo.ClientIP session;
       SessionInfo.HostID := HostInfo.ID host; SessionInfo.HostName := HostInfo.Name host;
       SessionInfo.HostIP := HostInfo.IP host; SessionInfo.HostPort := HostInfo.Port host;
       SessionInfo.HostUsername := HostInfo.Username host;
       SessionInfo.Status := txt "connecting";
       SessionInfo.BytesIn := 0; SessionInfo.BytesOut := 0 |} in
  let '(shown, selected) :=
    selectSystemUser repo (SessionInfo.UserID session) (HostInfo.ID host) read in
  let start := ShowConnectionInfo :: shown in
  match selected with
  | Err e => Returned start (Some e)
  | Ok systemUser =>
      let hostSession := match systemUser with
                         | Some su => SessionInfo.set_host_username hostSession (SystemUser.Username su)
                         | None => hostSession
                         end in
      let host := match systemUser with
                  | Some su => if is_empty (SystemUser.Password su) then host
                               else HostInfo.set_password host (SystemUser.Password su)
                  | None => host
                  end in
      let start := start ++ [AuditLoginStart hostSession] in
      match connectToHost w host systemUser with
      | Panic => Panicked
      | Ret (callbacks, _) =>
          match callbacks with
          | [Some e] => Returned (start ++ on_connected hostSession (Some e)) (Some e)
          | [None] =>
              Returned (start ++ on_connected hostSession None
                        ++ [AuditSessionEnd (SessionInfo.SessionID hostSession);
                            RecordEnd (SessionInfo.SessionID hostSession)]) None
          | _ => Deadlocked   (* an empty channel is read, or a full one written *)
          end
      end
  end.

(** The events of the auditor for a session id. *)
Definition audits (t : list trail) : list trail :=
  keep (λ e, match e with
             | AuditLoginStart _ | AuditSessionFailed _ _ | AuditConnectionSuccess _
             | AuditSessionEnd _ => true
             | _ => false end) t.

Lemma selected_account find uid hid read shown su :
  selectSystemUser (Some find) uid hid read = (shown, Ok (Some su)) →
  ∃ l, find uid hid = Ok l ∧ su ∈ l.
Proof.
  unfold selectSystemUser. destruct (find uid hid) as [l|e]; [|done].
  destruct l as [|s1 [|s2 l]]; [done|intros [= _ <-]; exists [s1]; split; [done|left]|].
  intros Hr. exists (s1 :: s2 :: l). split; [done|]. revert Hr.
  repeat case_match; intros; simplify_eq; by eapply list_elem_of_lookup_2.
Qed.

(** The account a session uses is one of those the permission query
    returned for this user and this host, and the choice is total: a single
    account is taken without asking, and an answer outside 1..n, unreadable or
    not a number is refused. *)
Theorem selected_account_available find uid hid read shown su :
  selectSystemUser (Some find) uid hid read = (shown, Ok (Some su)) →
  ∃ l, find uid hid = Ok l ∧ su ∈ l ∧ shown = [] ∧
       (length l = 1%nat ∨
        ∃ buf n, read = Some buf ∧ sscan_int (trim_space (utf8_decode buf)) = Some n ∧
                 1 <= n <= Z.of_nat (length l) ∧ l !! Z.to_nat (n - 1) = Some su).
Proof.
  unfold selectSystemUser. destruct (find uid hid) as [l|e]; [|done].
  destruct l as [|s1 [|s2 l]]; [done|intros [= <- <-]|].
  - exists [s1]. split_and!; [done|left|done|by left].
  - destruct read as [buf|]; [|done]. destruct buf as [|b buf]; [done|].
    destruct (sscan_int _) as [n|] eqn:En; [|done].
    destruct (_ || _) eqn:Eb; [done|]. prop_bools.
    destruct ((s1 :: s2 :: l) !! Z.to_nat (n - 1)) as [s|] eqn:El; [|done].
    intros [= <- <-]. exists (s1 :: s2 :: l). split_and!; [done| |done|].
    + by eapply list_elem_of_lookup_2.
    + right. exists (b :: buf), n. done.
Qed.

(** A session audited as connected logs in with an account of the list. *)
Lemma connected_account w find session host suffix read t err sess :
  handleHostConnection w (Some find) session host suffix read = Returned t err →
  AuditConnectionSuccess sess ∈ t →
  ∃ su l, find (SessionInfo.UserID session) (HostInfo.ID host) = Ok l ∧ su ∈ l ∧
    logs_in w host su ∧ SessionInfo.HostUsername sess = SystemUser.Username su ∧
    SessionInfo.HostID sess = HostInfo.ID host.
Proof.
  unfold handleHostConnection.
  destruct (selectSystemUser (Some find) _ _ read) as [shown selected] eqn:E.
  assert (∀ x, AuditConnectionSuccess x ∉ shown) as Hs.
  { intros x. revert E. unfold selectSystemUser.
    repeat case_match; intros; simplify_eq; set_solver. }
  destruct selected as [[su|]|e].
  - apply selected_account in E as (l & Hl & Hsu).
    match goal with |- context [connectToHost w ?h (Some su)] =>
      destruct (connectToHost_spec w h su) as [[Hin ->]|[_ (e & r & ->)]] end;
      intros Hr; injection Hr as <- <-; intros Ht.
    + apply logs_in_password in Hin. exists su, l. split_and!; [done..| |];
        cbn [on_connected app] in Ht;
        repeat (rewrite elem_of_cons in Ht || rewrite elem_of_app in Ht);
        rewrite ?elem_of_nil in Ht;
        destruct_or?; simplify_eq; try done; try (by destruct (Hs sess)).
    + exfalso. cbn [on_connected app] in Ht.
      repeat (rewrite elem_of_cons in Ht || rewrite elem_of_app in Ht);
      rewrite ?elem_of_nil in Ht;
      destruct_or?; simplify_eq; try done; try (by destruct (Hs sess)).
  - intros Hr. exfalso. revert E. unfold selectSystemUser. repeat case_match; intros; simplify_eq.
  - intros [= <- <-] [|Hin]%elem_of_cons; [done|]. by destruct (Hs sess).
Qed.

(** The callback fires exactly once on every path of the connection, so the
    handler never waits forever on its channel; the only failure mode is the
    panic of a handler built without the account repository ([NewProxyHandler]),
    which therefore can never connect to any host. *)
Theorem handler_never_deadlocks w repo session host suffix read :
  handleHostConnection w repo session host suffix read ≠ Deadlocked ∧
  (handleHostConnection w repo session host suffix read = Panicked ↔ repo = None).
Proof.
  unfold handleHostConnection. destruct repo as [find|].
  - destruct (selectSystemUser (Some find) _ _ read) as [shown [[su|]|e]] eqn:E.
    + match goal with |- context [connectToHost w ?h (Some su)] =>
        by destruct (connectToHost_spec w h su) as [[_ ->]|[_ (e & r & ->)]] end.
    + exfalso. revert E. unfold selectSystemUser. repeat case_match; intros; simplify_eq.
    + done.
  - done.
Qed.

(** The audit trail of an attempt: either nothing is audited (no account),
    or the login start is followed by exactly a failure with the reason
    returned, or by the success and the end of the same session. *)
Theorem audit_trail_shape w repo session host suffix read t err :
  handleHostConnection w repo session host suffix read = Returned t err →
  (audits t = [] ∧ is_Some err) ∨
  ∃ s, audits t =
    AuditLoginStart s ::
    match err with
    | Some e => [AuditSessionFailed (SessionInfo.set_status s (txt "failed")) e]
    | None => [AuditConnectionSuccess s; AuditSessionEnd (SessionInfo.SessionID s)]
    end.
Proof.
  unfold handleHostConnection.
  destruct (selectSystemUser repo _ _ read) as [shown selected] eqn:E.
  assert (audits shown = []) as Hs.
  { revert E. unfold selectSystemUser. repeat case_match; intros; by simplify_eq. }
  assert (∀ t2, audits (ShowConnectionInfo :: shown ++ t2) = audits t2) as Ha.
  { intros t2. unfold audits in *. cbn [keep]. by rewrite keep_app, Hs. }
  destruct selected as [su|e]; [|intros [= <- <-]; left].
  - destruct (connectToHost _ _ su) as [[cbs r]|]; [|done].
    destruct cbs as [|[e|] [|]]; intros Hr; try discriminate; injection Hr as <- <-;
      right; rewrite <- ?app_assoc; cbn [app]; rewrite ?app_comm_cons, <- ?app_assoc;
      eexists; cbn [app]; rewrite Ha; reflexivity.
  - split; [|by eexists]. rewrite <- (app_nil_r shown). by rewrite Ha.
Qed.

(** The trail in full: what is shown, and then the calls of the attempt, all
    for one session. *)
Definition shows (e : trail) : bool :=
  match e with ShowConnectionInfo | ShowError _ => true | _ => false end.

Lemma trail_shape w repo session host suffix read t err :
  handleHostConnection w repo session host suffix read = Returned t err →
  match (selectSystemUser repo (SessionInfo.UserID session) (HostInfo.ID host) read).2 with
  | Err e => forallb shows t = true ∧ err = Some e
  | Ok None => False
  | Ok (Some su) =>
      ∃ pre s, forallb shows pre = true ∧
        SessionInfo.SessionID s = SessionInfo.SessionID session ++ txt "-" ++ suffix ∧
        SessionInfo.UserID s = SessionInfo.UserID session ∧
        SessionInfo.Username s = SessionInfo.Username session ∧
        SessionInfo.ClientIP s = SessionInfo.ClientIP session ∧
        SessionInfo.HostID s = HostInfo.ID host ∧ SessionInfo.HostIP s = HostInfo.IP host ∧
        SessionInfo.HostName s = HostInfo.Name host ∧
        t = pre ++ AuditLoginStart s ::
          match err with
          | Some e => [AuditSessionFailed (SessionInfo.set_status s (txt "failed")) e]
          | None => [AuditConnectionSuccess s; RecordStart s; AuditSessionEnd (SessionInfo.SessionID s);
                     RecordEnd (SessionInfo.SessionID s)]
          end ∧
        match err with Some _ => ¬ logs_in w host su | None => logs_in w host su end
  end.
Proof.
  unfold handleHostConnection.
  destruct (selectSystemUser repo _ _ read) as [shown selected] eqn:E.
  assert (forallb shows (ShowConnectionInfo :: shown) = true) as Hs.
  { revert E. unfold selectSystemUser. repeat case_match; intros; by simplify_eq. }
  cbn [snd]. destruct selected as [[su|]|e]; [|done|by intros [= <- <-]].
  match goal with |- context [connectToHost w ?h (Some su)] =>
    destruct (connectToHost_spec w h su) as [[Hin ->]|[Hin (e & r & ->)]] end;
    rewrite logs_in_password in Hin; intros [= <- <-];
    match goal with |- context [AuditLoginStart ?s] => exists (ShowConnectionInfo :: shown), s end;
    cbn [app]; rewrite <- ?app_assoc; split_and!; first [exact Hs|exact Hin|reflexivity].
Qed.

(** A connection whose remote shell cannot be started is audited as a
    successful session that ended normally, and the user gets no error. *)
Theorem shell_failure_audited_as_success w find session host suffix read su t err :
  selectSystemUser (Some find) (SessionInfo.UserID session) (HostInfo.ID host) read
    = (t, Ok (Some su)) →
  logs_in w host su → setup_shell w = Err err →
  ∃ t' s, handleHostConnection w (Some find) session host suffix read = Returned t' None ∧
    audits t' = [AuditLoginStart s; AuditConnectionSuccess s;
                 AuditSessionEnd (SessionInfo.SessionID s)].
Proof.
  intros Hsel Hd Hw. unfold handleHostConnection. rewrite Hsel.
  set (host1 := if is_empty (SystemUser.Password su) then host else _).
  destruct (connectToHost_spec w host1 su) as [[_ ->]|[Hn _]];
    [|destruct Hn; by apply logs_in_password].
  assert (t = []) as ->.
  { revert Hsel. unfold selectSystemUser. repeat case_match; intros; by simplify_eq. }
  eexists _, _. split; [reflexivity|]. reflexivity.
Qed.

(** ** The terminal of a user *)

(** What a round of the main loop meets: the answers of the connection and the
    input the session and the prompts leave unread. *)
Record round := {
  r_world : world;
  r_suffix : text;
  r_read : option bytes;
  r_left : list Z
}.

(** [PromptPressToContinue] reads up to the end of the line. *)
Fixpoint PromptPressToContinue (input : list Z) : list Z :=
  match input with
  | [] => []
  | ch :: input => if (ch =? 13) || (ch =? 10) then input else PromptPressToContinue input
  end.

(** How the terminal handler ends; a panic is recovered and ends it too. *)
Inductive terminal_end := Goodbye | Recovered | Waiting | Spinning.

Section terminal.
Context `{Unicode} (sel : Selector)
  (repo : option (text → text → result text (list SystemUser.t))) (session : SessionInfo.t).

(** [HandleTerminal]: the hosts connected to, with how each went. *)
Fixpoint HandleTerminal (m : MenuV2) (rounds : list round)
    : list (HostInfo.t * ending) * terminal_end :=
  match InteractiveMenuV2 sel (S (length (input m))) m (SessionInfo.UserID session) with
  | Menu.Panicked => ([], Recovered)
  | OutOfFuel => ([], Spinning)
  | Done m (selectedHost, shouldExit) =>
      if shouldExit : bool then ([], Goodbye)
      else match rounds with
           | [] => ([], Waiting)
           | r :: rounds =>
               match selectedHost with
               | None => HandleTerminal m rounds
               | Some host =>
                   let e := handleHostConnection (r_world r) repo session host
                              (r_suffix r) (r_read r) in
                   match e with
                   | Panicked => ([(host, e)], Recovered)
                   | Deadlocked => ([(host, e)], Waiting)
                   | Returned _ (Some _) =>
                       let '(visits, fin) :=
                         HandleTerminal (set_input m (PromptPressToContinue (r_left r))) rounds in
                       ((host, e) :: visits, fin)
                   | Returned _ None =>
                       let '(visits, fin) := HandleTerminal (set_input m (r_left r)) rounds in
                       ((host, e) :: visits, fin)
                   end
               end
           end
  end.
End terminal.

(** Every host a terminal connects to, in any number of rounds, is one the
    selector listed for it. *)
Theorem terminal_visits_listed `{UL : UnicodeLaws} sel repo session m rounds visits fin :
  menu_inv sel m → HandleTerminal sel repo session m rounds = (visits, fin) →
  Forall (λ v, host_listed sel v.1) visits.
Proof.
  revert m visits fin. induction rounds as [|r rounds IH]; intros m visits fin Hm;
    cbn [HandleTerminal]; destruct (InteractiveMenuV2 _ _ _ _) as [m1 [h ex]| |] eqn:E;
    try (by intros [= <- <-]).
  - destruct ex; by intros [= <- <-].
  - destruct ex; [by intros [= <- <-]|].
    pose proof (menu_choice_sound sel _ _ _ _ _ _ Hm E) as [Hm1 Hh].
    destruct h as [h|]; [|by apply IH].
    specialize (Hh h eq_refl).
    destruct (handleHostConnection _ _ _ _ _ _) as [| |t [e|]] eqn:Ee;
      [intros [= <- <-]; by apply Forall_singleton..| |];
      destruct (HandleTerminal _ _ _ _ rounds) as [vs fin'] eqn:Et; intros [= <- <-];
      (constructor; [done|]); eapply IH; try exact Et; done.
Qed.

(** ** Witnesses *)

Definition sample_account (name : text) : SystemUser.t :=
  {| SystemUser.ID := name; SystemUser.Name := name; SystemUser.Username := name;
     SystemUser.AuthType := txt "password"; SystemUser.Password := txt "secret";
     SystemUser.PrivateKey := []; SystemUser.Passphrase := []; SystemUser.Protocol := txt "ssh";
     SystemUser.Priority := 0; SystemUser.Status := txt "active" |}.

Definition sample_session : SessionInfo.t :=
  {| SessionInfo.SessionID := txt "s1"; SessionInfo.UserID := txt "u1";
     SessionInfo.Username := txt "bob"; SessionInfo.ClientIP := txt "10.0.0.2";
     SessionInfo.HostID := []; SessionInfo.HostName := []; SessionInfo.HostIP := [];
     SessionInfo.HostPort := 0; SessionInfo.HostUsername := []; SessionInfo.Status := [];
     SessionInfo.BytesIn := 0; SessionInfo.BytesOut := 0 |}.

(** A host that takes any account whose password is [secret]. *)
Definition sample_ssh : SshLib := {|
  ParsePrivateKey _ := Err (txt "no key");
  ParsePrivateKeyWithPassphrase _ _ := Err (txt "no key");
  Dial _ _ methods := match methods with
                      | [PasswordMethod p] => if text_eqb p (txt "secret") then Ok () else Err (txt "unable to authenticate")
                      | _ => Err (txt "unable to authenticate")
                      end |}.

Definition sample_world (shell : result text unit) : world :=
  {| ssh := sample_ssh; new_session := Ok (); stdin_pipe := Ok ();
     stdout_pipe := Ok (); stderr_pipe := Ok (); request_pty := Ok (); start_shell := shell |}.

Definition two_accounts (_ _ : text) : result text (list SystemUser.t) :=
  Ok [sample_account (txt "root"); sample_account (txt "app")].

Lemma selected_account_available_witness :
  ∃ l, two_accounts (txt "u1") (txt "h1") = Ok l ∧ sample_account (txt "app") ∈ l.
Proof.
  destruct (selected_account_available two_accounts (txt "u1") (txt "h1")
    (Some (txt "2" ++ [13])) [] (sample_account (txt "app"))) as (l & Hl & Hin & _).
  - vm_compute. reflexivity.
  - exists l. split; assumption.
Defined.

Lemma audit_trail_shape_witness :
  ∃ t s, handleHostConnection (sample_world (Ok ())) (Some two_accounts) sample_session
           sample_host (txt "ab12") (Some (txt "2" ++ [13])) = Returned t None ∧
    audits t = [AuditLoginStart s; AuditConnectionSuccess s;
                AuditSessionEnd (SessionInfo.SessionID s)].
Proof.
  eexists. 
  destruct (audit_trail_shape (sample_world (Ok ())) (Some two_accounts) sample_session
           sample_host (txt "ab12") (Some (txt "2" ++ [13])) _ None eq_refl) as [[_ []]|[s Hs]];
    [discriminate|].
  exists s. split; [reflexivity|exact Hs].
Defined.

Lemma shell_failure_witness :
  ∃ t' s, handleHostConnection (sample_world (Err (txt "no shell"))) (Some two_accounts)
            sample_session sample_host (txt "ab12") (Some (txt "1" ++ [13])) = Returned t' None ∧
    audits t' = [AuditLoginStart s; AuditConnectionSuccess s;
                 AuditSessionEnd (SessionInfo.SessionID s)].
Proof.
  eapply (shell_failure_audited_as_success _ two_accounts sample_session sample_host _ _
    (sample_account (txt "root"))).
  - vm_compute. reflexivity.
  - exists (PasswordMethod (txt "secret")). split; [|reflexivity].
    exact (by_password sample_ssh (sample_account (txt "root")) eq_refl).
  - reflexivity.
Defined.

Lemma terminal_visits_listed_witness :
  let sel := sample_selector (txt "web") in
  let m := NewMenuV2 (txt "g" ++ 13 :: txt "1" ++ 13 :: txt "1" ++ [13]) in
  let r := {| r_world := sample_world (Ok ()); r_suffix := txt "ab12";
              r_read := Some (txt "1" ++ [13]); r_left := txt "q" ++ [13] |} in
  Forall (λ v, host_listed sel v.1)
    (HandleTerminal sel (Some two_accounts) sample_session m [r]).1.
Proof.
  intros sel m r.
  apply (terminal_visits_listed sel (Some two_accounts) sample_session m [r] _
           (HandleTerminal sel (Some two_accounts) sample_session m [r]).2).
  - split_and!; [constructor|constructor|reflexivity || discriminate|reflexivity].
  - destruct (HandleTerminal _ _ _ _ _); reflexivity.
Defined.
