(* ===== verification/Database.v ===== *)
(** * The tables of the access model

    The state the repositories of [internal/repository] share: one list of rows
    per table, a monad for the functions that run statements on it, and gorm's
    transactions.  A statement may fail (the list of faults says which do); a
    failed statement changes nothing, and a transaction that returns an error
    restores the tables it started from.  Outside a transaction the statements
    already run stay.  The tables have the keys and indexes the structs declare;
    the foreign keys of the dump in sql/ are not among them. *)

From stdpp Require Import base list strings.
From Stdlib Require Import ZArith Lia.
From S2P Require Import Prelude GoStrings Gorm Models.
Local Open Scope Z_scope.

(** The tables of the approvals. *)
Record Workflow := {
  approvals : list Approval.t;
  approval_comments : list ApprovalComment.t;
  approval_configs : list ApprovalConfig.t
}.

(** What the transfers, the sessions and the asset synchronisation leave behind, and
    the keys of the gateway. *)
Record Logs := {
  file_transfers : list FileTransfer.t;
  command_records : list CommandRecord.t;
  session_histories : list SessionHistory.t;
  sync_configs : list AssetSyncConfig.t;
  sync_logs : list AssetSyncLog.t;
  host_keys : list SSHHostKey.t
}.

(** Tables only one or two components use. *)
Record Aux := {
  platform_logins : list PlatformLogin.t;
  two_factor_configs : list TwoFactorConfig.t;
  expiration_configs : list ExpirationConfig.t;
  user_expiration_logs : list ExpirationLog.t;
  rule_expiration_logs : list ExpirationLog.t;
  login_records : list LoginRecord.t;
  session_recordings : list SessionRecording.t;
  workflow : Workflow;
  logs : Logs
}.

Record Db := {
  users : list User.t;
  system_users : list SystemUser.t;
  user_groups : list UserGroup.t;
  user_group_members : list UserGroupMember.t;
  permission_rules : list PermissionRule.t;
  rule_system_users : list RuleSystemUser.t;
  rule_host_groups : list RuleHostGroup.t;
  host_groups : list HostGroup.t;
  host_group_members : list HostGroupMember.t;
  hosts : list Host.t;
  proxies : list Proxy.t;
  settings : list Setting.t;
  aux : Aux
}.

Definition set_rules (db : Db) (r : list PermissionRule.t) : Db :=
  {| users := users db; system_users := system_users db; user_groups := user_groups db;
     user_group_members := user_group_members db; permission_rules := r;
     rule_system_users := rule_system_users db; rule_host_groups := rule_host_groups db;
     host_groups := host_groups db; host_group_members := host_group_members db;
     hosts := hosts db;
     proxies := proxies db; settings := settings db; aux := aux db |}.
Definition set_rule_system_users (db : Db) (r : list RuleSystemUser.t) : Db :=
  {| users := users db; system_users := system_users db; user_groups := user_groups db;
     user_group_members := user_group_members db; permission_rules := permission_rules db;
     rule_system_users := r; rule_host_groups := rule_host_groups db;
     host_groups := host_groups db; host_group_members := host_group_members db;
     hosts := hosts db;
     proxies := proxies db; settings := settings db; aux := aux db |}.
Definition set_rule_host_groups (db : Db) (r : list RuleHostGroup.t) : Db :=
  {| users := users db; system_users := system_users db; user_groups := user_groups db;
     user_group_members := user_group_members db; permission_rules := permission_rules db;
     rule_system_users := rule_system_users db; rule_host_groups := r;
     host_groups := host_groups db; host_group_members := host_group_members db;
     hosts := hosts db;
     proxies := proxies db; settings := settings db; aux := aux db |}.
Definition set_user_groups (db : Db) (g : list UserGroup.t) : Db :=
  {| users := users db; system_users := system_users db; user_groups := g;
     user_group_members := user_group_members db; permission_rules := permission_rules db;
     rule_system_users := rule_system_users db; rule_host_groups := rule_host_groups db;
     host_groups := host_groups db; host_group_members := host_group_members db;
     hosts := hosts db;
     proxies := proxies db; settings := settings db; aux := aux db |}.
Definition set_system_users (db : Db) (s : list SystemUser.t) : Db :=
  {| users := users db; system_users := s; user_groups := user_groups db;
     user_group_members := user_group_members db; permission_rules := permission_rules db;
     rule_system_users := rule_system_users db; rule_host_groups := rule_host_groups db;
     host_groups := host_groups db; host_group_members := host_group_members db;
     hosts := hosts db;
     proxies := proxies db; settings := settings db; aux := aux db |}.
Definition set_host_groups (db : Db) (g : list HostGroup.t) : Db :=
  {| users := users db; system_users := system_users db; user_groups := user_groups db;
     user_group_members := user_group_members db; permission_rules := permission_rules db;
     rule_system_users := rule_system_users db; rule_host_groups := rule_host_groups db;
     host_groups := g; host_group_members := host_group_members db;
     hosts := hosts db;
     proxies := proxies db; settings := settings db; aux := aux db |}.
Definition set_members (db : Db) (m : list UserGroupMember.t) : Db :=
  {| users := users db; system_users := system_users db; user_groups := user_groups db;
     user_group_members := m; permission_rules := permission_rules db;
     rule_system_users := rule_system_users db; rule_host_groups := rule_host_groups db;
     host_groups := host_groups db; host_group_members := host_group_members db;
     hosts := hosts db;
     proxies := proxies db; settings := settings db; aux := aux db |}.
Definition set_host_members (db : Db) (m : list HostGroupMember.t) : Db :=
  {| users := users db; system_users := system_users db; user_groups := user_groups db;
     user_group_members := user_group_members db; permission_rules := permission_rules db;
     rule_system_users := rule_system_users db; rule_host_groups := rule_host_groups db;
     host_groups := host_groups db; host_group_members := m; hosts := hosts db;
     proxies := proxies db; settings := settings db; aux := aux db |}.
Definition set_proxies (db : Db) (p : list Proxy.t) : Db :=
  {| users := users db; system_users := system_users db; user_groups := user_groups db;
     user_group_members := user_group_members db; permission_rules := permission_rules db;
     rule_system_users := rule_system_users db; rule_host_groups := rule_host_groups db;
     host_groups := host_groups db; host_group_members := host_group_members db;
     hosts := hosts db; proxies := p; settings := settings db; aux := aux db |}.
Definition set_settings (db : Db) (l : list Setting.t) : Db :=
  {| users := users db; system_users := system_users db; user_groups := user_groups db;
     user_group_members := user_group_members db; permission_rules := permission_rules db;
     rule_system_users := rule_system_users db; rule_host_groups := rule_host_groups db;
     host_groups := host_groups db; host_group_members := host_group_members db;
     hosts := hosts db; proxies := proxies db; settings := l; aux := aux db |}.
Definition set_hosts (db : Db) (h : list Host.t) : Db :=
  {| users := users db; system_users := system_users db; user_groups := user_groups db;
     user_group_members := user_group_members db; permission_rules := permission_rules db;
     rule_system_users := rule_system_users db; rule_host_groups := rule_host_groups db;
     host_groups := host_groups db; host_group_members := host_group_members db;
     hosts := h; proxies := proxies db; settings := settings db; aux := aux db |}.
Definition set_users (db : Db) (u : list User.t) : Db :=
  {| users := u; system_users := system_users db; user_groups := user_groups db;
     user_group_members := user_group_members db; permission_rules := permission_rules db;
     rule_system_users := rule_system_users db; rule_host_groups := rule_host_groups db;
     host_groups := host_groups db; host_group_members := host_group_members db;
     hosts := hosts db; proxies := proxies db; settings := settings db; aux := aux db |}.

Definition set_aux (db : Db) (x : Aux) : Db :=
  {| users := users db; system_users := system_users db; user_groups := user_groups db;
     user_group_members := user_group_members db; permission_rules := permission_rules db;
     rule_system_users := rule_system_users db; rule_host_groups := rule_host_groups db;
     host_groups := host_groups db; host_group_members := host_group_members db;
     hosts := hosts db; proxies := proxies db; settings := settings db; aux := x |}.
Definition set_platform_logins (db : Db) (l : list PlatformLogin.t) : Db :=
  set_aux db {| platform_logins := l; two_factor_configs := two_factor_configs (aux db);
                expiration_configs := expiration_configs (aux db);
                user_expiration_logs := user_expiration_logs (aux db);
                rule_expiration_logs := rule_expiration_logs (aux db);
                login_records := login_records (aux db);
                session_recordings := session_recordings (aux db);
                workflow := workflow (aux db); logs := logs (aux db) |}.
Definition set_two_factor_configs (db : Db) (l : list TwoFactorConfig.t) : Db :=
  set_aux db {| platform_logins := platform_logins (aux db); two_factor_configs := l;
                expiration_configs := expiration_configs (aux db);
                user_expiration_logs := user_expiration_logs (aux db);
                rule_expiration_logs := rule_expiration_logs (aux db);
                login_records := login_records (aux db);
                session_recordings := session_recordings (aux db);
                workflow := workflow (aux db); logs := logs (aux db) |}.
Definition set_user_logs (db : Db) (l : list ExpirationLog.t) : Db :=
  set_aux db {| platform_logins := platform_logins (aux db);
                two_factor_configs := two_factor_configs (aux db);
                expiration_configs := expiration_configs (aux db); user_expiration_logs := l;
                rule_expiration_logs := rule_expiration_logs (aux db);
                login_records := login_records (aux db);
                session_recordings := session_recordings (aux db);
                workflow := workflow (aux db); logs := logs (aux db) |}.
Definition set_rule_logs (db : Db) (l : list ExpirationLog.t) : Db :=
  set_aux db {| platform_logins := platform_logins (aux db);
                two_factor_configs := two_factor_configs (aux db);
                expiration_configs := expiration_configs (aux db);
                user_expiration_logs := user_expiration_logs (aux db); rule_expiration_logs := l;
                login_records := login_records (aux db);
                session_recordings := session_recordings (aux db);
                workflow := workflow (aux db); logs := logs (aux db) |}.
Definition set_login_records (db : Db) (l : list LoginRecord.t) : Db :=
  set_aux db {| platform_logins := platform_logins (aux db);
                two_factor_configs := two_factor_configs (aux db);
                expiration_configs := expiration_configs (aux db);
                user_expiration_logs := user_expiration_logs (aux db);
                rule_expiration_logs := rule_expiration_logs (aux db); login_records := l;
                session_recordings := session_recordings (aux db);
                workflow := workflow (aux db); logs := logs (aux db) |}.
Definition set_session_recordings (db : Db) (l : list SessionRecording.t) : Db :=
  set_aux db {| platform_logins := platform_logins (aux db);
                two_factor_configs := two_factor_configs (aux db);
                expiration_configs := expiration_configs (aux db);
                user_expiration_logs := user_expiration_logs (aux db);
                rule_expiration_logs := rule_expiration_logs (aux db);
                login_records := login_records (aux db); session_recordings := l;
                workflow := workflow (aux db); logs := logs (aux db) |}.

Definition set_workflow (db : Db) (w : Workflow) : Db :=
  set_aux db {| platform_logins := platform_logins (aux db);
                two_factor_configs := two_factor_configs (aux db);
                expiration_configs := expiration_configs (aux db);
                user_expiration_logs := user_expiration_logs (aux db);
                rule_expiration_logs := rule_expiration_logs (aux db);
                login_records := login_records (aux db);
                session_recordings := session_recordings (aux db); workflow := w;
                logs := logs (aux db) |}.
Definition set_logs (db : Db) (l : Logs) : Db :=
  set_aux db {| platform_logins := platform_logins (aux db);
                two_factor_configs := two_factor_configs (aux db);
                expiration_configs := expiration_configs (aux db);
                user_expiration_logs := user_expiration_logs (aux db);
                rule_expiration_logs := rule_expiration_logs (aux db);
                login_records := login_records (aux db);
                session_recordings := session_recordings (aux db);
                workflow := workflow (aux db); logs := l |}.
Definition set_file_transfers (db : Db) (l : list FileTransfer.t) : Db :=
  set_logs db {| file_transfers := l; command_records := command_records (logs (aux db));
                 session_histories := session_histories (logs (aux db));
                 sync_configs := sync_configs (logs (aux db)); sync_logs := sync_logs (logs (aux db));
                 host_keys := host_keys (logs (aux db)) |}.
Definition set_command_records (db : Db) (l : list CommandRecord.t) : Db :=
  set_logs db {| file_transfers := file_transfers (logs (aux db)); command_records := l;
                 session_histories := session_histories (logs (aux db));
                 sync_configs := sync_configs (logs (aux db)); sync_logs := sync_logs (logs (aux db));
                 host_keys := host_keys (logs (aux db)) |}.
Definition set_session_histories (db : Db) (l : list SessionHistory.t) : Db :=
  set_logs db {| file_transfers := file_transfers (logs (aux db));
                 command_records := command_records (logs (aux db)); session_histories := l;
                 sync_configs := sync_configs (logs (aux db)); sync_logs := sync_logs (logs (aux db));
                 host_keys := host_keys (logs (aux db)) |}.
Definition set_sync_configs (db : Db) (l : list AssetSyncConfig.t) : Db :=
  set_logs db {| file_transfers := file_transfers (logs (aux db));
                 command_records := command_records (logs (aux db));
                 session_histories := session_histories (logs (aux db));
                 sync_configs := l; sync_logs := sync_logs (logs (aux db));
                 host_keys := host_keys (logs (aux db)) |}.
Definition set_sync_logs (db : Db) (l : list AssetSyncLog.t) : Db :=
  set_logs db {| file_transfers := file_transfers (logs (aux db));
                 command_records := command_records (logs (aux db));
                 session_histories := session_histories (logs (aux db));
                 sync_configs := sync_configs (logs (aux db)); sync_logs := l;
                 host_keys := host_keys (logs (aux db)) |}.
Definition set_host_keys (db : Db) (l : list SSHHostKey.t) : Db :=
  set_logs db {| file_transfers := file_transfers (logs (aux db));
                 command_records := command_records (logs (aux db));
                 session_histories := session_histories (logs (aux db));
                 sync_configs := sync_configs (logs (aux db)); sync_logs := sync_logs (logs (aux db));
                 host_keys := l |}.

Definition set_approvals (db : Db) (l : list Approval.t) : Db :=
  set_workflow db {| approvals := l; approval_comments := approval_comments (workflow (aux db));
                     approval_configs := approval_configs (workflow (aux db)) |}.
Definition set_comments (db : Db) (l : list ApprovalComment.t) : Db :=
  set_workflow db {| approvals := approvals (workflow (aux db)); approval_comments := l;
                     approval_configs := approval_configs (workflow (aux db)) |}.
Definition set_configs (db : Db) (l : list ApprovalConfig.t) : Db :=
  set_workflow db {| approvals := approvals (workflow (aux db));
                     approval_comments := approval_comments (workflow (aux db));
                     approval_configs := l |}.

Definition empty_aux : Aux :=
  {| platform_logins := []; two_factor_configs := []; expiration_configs := [];
     user_expiration_logs := []; rule_expiration_logs := []; login_records := [];
     session_recordings := [];
     workflow := {| approvals := []; approval_comments := []; approval_configs := [] |};
     logs := {| file_transfers := []; command_records := []; session_histories := [];
                sync_configs := []; sync_logs := []; host_keys := [] |} |}.

Definition empty_db : Db :=
  {| users := []; system_users := []; user_groups := []; user_group_members := [];
     permission_rules := []; rule_system_users := []; rule_host_groups := []; host_groups := [];
     host_group_members := []; hosts := []; proxies := []; settings := []; aux := empty_aux |}.

(** ** Statements *)

Notation faults := (list (option db_error)).

(** A computation over the tables that may fail with an [E]; the repositories
    fail with an error of the database. *)
Definition Eff (E A : Type) : Type := Db → faults → result E A * Db * faults.
Notation DB := (Eff db_error).

#[global] Instance db_ret {E} : MRet (Eff E) := λ A a db f, (Ok a, db, f).
#[global] Instance db_bind {E} : MBind (Eff E) := λ A B k m db f,
  match m db f with
  | (Ok a, db, f) => k a db f
  | (Err e, db, f) => (Err e, db, f)
  end.

(** An error returned without a statement. *)
Definition raise {E A} (e : E) : Eff E A := λ db f, (Err e, db, f).

(** A query, and a statement that writes; the head of the faults decides. *)
Definition query {A} (q : Db → result db_error A) : DB A := λ db f,
  match f with
  | Some e :: f => (Err e, db, f)
  | _ => (q db, db, tail f)
  end.

(** A statement whose number of affected rows is used. *)
Definition statement {A} (s : Db → result db_error (Db * A)) : DB A := λ db f,
  match f with
  | Some e :: f => (Err e, db, f)
  | _ => match s db with
         | Ok (db', a) => (Ok a, db', tail f)
         | Err e => (Err e, db, tail f)
         end
  end.

Definition execute (s : Db → result db_error Db) : DB unit := λ db f,
  match f with
  | Some e :: f => (Err e, db, f)
  | _ => match s db with
         | Ok db' => (Ok (), db', tail f)
         | Err e => (Err e, db, tail f)
         end
  end.

Definition find {A} (q : Db → list A) : DB (list A) := query (λ db, Ok (q db)).

Definition first {A} (q : Db → list A) : DB A := query (λ db,
  match q db with x :: _ => Ok x | [] => Err RecordNotFound end).

Definition Transaction {E A} (t : Eff E A) : Eff E A := λ db f,
  match t db f with
  | (Ok a, db', f') => (Ok a, db', f')
  | (Err e, _, f') => (Err e, db, f')
  end.

(** The error of a statement ignored: [if err := ...; err == nil]. *)
Definition attempt {E F A} (m : Eff E A) : Eff F (option A) := λ db f,
  match m db f with
  | (Ok a, db, f) => (Ok (Some a), db, f)
  | (Err _, db, f) => (Ok None, db, f)
  end.

(** The error of a statement looked at: [if err == gorm.ErrRecordNotFound]. *)
Definition caught {E F A} (m : Eff E A) : Eff F (result E A) := λ db f,
  match m db f with (r, db, f) => (Ok r, db, f) end.

(** The error wrapped or replaced: [return fmt.Errorf("..: %w", err)]. *)
Definition or_fail {E F A} (w : E → F) (m : Eff E A) : Eff F A := λ db f,
  match m db f with (r, db, f) => (map_err w r, db, f) end.

Fixpoint for_each {E A} (body : A → Eff E unit) (l : list A) : Eff E unit :=
  match l with
  | [] => mret ()
  | x :: l => body x ≫= λ _, for_each body l
  end.

(** The result and the tables of a run. *)
Definition res {E A} (r : result E A * Db * faults) : result E A := r.1.1.
Definition after {E A} (r : result E A * Db * faults) : Db := r.1.2.

(** An auto-increment key. *)
Definition next_id {A} (id : A → Z) (l : list A) : Z := 1 + foldr (λ x m, Z.max (id x) m) 0 l.

(** ** Facts *)

Lemma bind_run {E A B} (m : Eff E A) (k : A → Eff E B) db f :
  (m ≫= k) db f = match m db f with
                  | (Ok a, db, f) => k a db f
                  | (Err e, db, f) => (Err e, db, f)
                  end.
Proof. done. Qed.

Lemma bind_Ok {E A B} (m : Eff E A) (k : A → Eff E B) db f b db' f' :
  (m ≫= k) db f = (Ok b, db', f') ↔
  ∃ a db1 f1, m db f = (Ok a, db1, f1) ∧ k a db1 f1 = (Ok b, db', f').
Proof.
  rewrite bind_run. destruct (m db f) as [[[a|e] db1] f1]; naive_solver.
Qed.

(** A transaction is all or nothing. *)
Lemma Transaction_Err {E A} (t : Eff E A) db f e :
  res (Transaction t db f) = Err e → after (Transaction t db f) = db.
Proof. unfold res, after, Transaction. by destruct (t db f) as [[[a|e'] db'] f']. Qed.

Lemma Transaction_Ok {E A} (t : Eff E A) db f a db' f' :
  Transaction t db f = (Ok a, db', f') ↔ t db f = (Ok a, db', f').
Proof. unfold Transaction. destruct (t db f) as [[[a'|e'] db1] f1]; naive_solver. Qed.

Lemma execute_Ok s db f db' f' :
  execute s db f = (Ok (), db', f') → s db = Ok db'.
Proof.
  unfold execute. destruct f as [|[e|] f]; [|done|];
    destruct (s db); intros; by simplify_eq.
Qed.

Lemma query_Ok {A} (q : Db → result db_error A) db f a db' f' :
  query q db f = (Ok a, db', f') → q db = Ok a ∧ db' = db.
Proof. unfold query. destruct f as [|[e|] f]; intros; by simplify_eq. Qed.

Lemma query_same {A} (q : Db → result db_error A) db f : after (query q db f) = db.
Proof. unfold query, after. by destruct f as [|[e|] f]. Qed.

(** An invariant of the tables kept by each step of a loop. *)
Lemma for_each_inv {E A} (P : Db → Prop) (body : A → Eff E unit) l db f db' f' :
  (∀ x db f db' f', x ∈ l → P db → body x db f = (Ok (), db', f') → P db') →
  P db → for_each body l db f = (Ok (), db', f') → P db'.
Proof.
  intros Hb. revert db f. induction l as [|x l IH]; intros db f Hdb Hr; simpl in Hr.
  - by injection Hr as <- <-.
  - apply bind_Ok in Hr as ([] & db1 & f1 & H1 & H2).
    assert (P db1) as HP1 by (eapply Hb; [left|done|done]).
    eapply IH; [|exact HP1|exact H2]. intros. eapply Hb; [by right|done..].
Qed.

Lemma attempt_Ok {E F A} (m : Eff E A) db f o db' f' :
  attempt (F := F) m db f = (Ok o, db', f') →
  (∃ a, o = Some a ∧ m db f = (Ok a, db', f')) ∨ (∃ e, o = None ∧ m db f = (Err e, db', f')).
Proof.
  unfold attempt. destruct (m db f) as [[[a|e] db1] f1]; intros [= <- <- <-]; eauto.
Qed.

Lemma caught_Ok {E F A} (m : Eff E A) db f r db' f' :
  caught (F := F) m db f = (Ok r, db', f') → m db f = (r, db', f').
Proof. unfold caught. destruct (m db f) as [[r1 db1] f1]. by intros [= <- <- <-]. Qed.

Lemma caught_run {E F A} (m : Eff E A) db f :
  caught (F := F) m db f = match m db f with (r, db, f) => (Ok r, db, f) end.
Proof. done. Qed.

Lemma attempt_execute {E} s db db' :
  s db = Ok db' → attempt (F := E) (execute s) db [] = (Ok (Some ()), db', []).
Proof. intros Hs. unfold attempt, execute. by rewrite Hs. Qed.

Lemma attempt_run {E} (g : Db → Db) db :
  attempt (F := E) (execute (λ db, Ok (g db))) db [] = (Ok (Some ()), g db, []).
Proof. done. Qed.

Lemma or_fail_Ok {E F A} (w : E → F) (m : Eff E A) db f a db' f' :
  or_fail w m db f = (Ok a, db', f') ↔ m db f = (Ok a, db', f').
Proof.
  unfold or_fail. destruct (m db f) as [[[b|e] db1] f1]; simpl; split; intros; by simplify_eq.
Qed.

(** ** What a run does to the tables

    [preserves R m]: whatever fails, the tables after [m] are related to those
    before by [R].  [reads m]: they are the same. *)
Definition preserves {E A} (R : relation Db) (m : Eff E A) : Prop :=
  ∀ db f, R db (after (m db f)).

Notation reads := (preserves (=)).

Lemma preserves_run {E A} R (m : Eff E A) db f r db' f' :
  preserves R m → m db f = (r, db', f') → R db db'.
Proof. intros Hm Em. specialize (Hm db f). by rewrite Em in Hm. Qed.

Lemma reads_run {E A} (m : Eff E A) db f r db' f' : reads m → m db f = (r, db', f') → db' = db.
Proof. intros Hm Em. symmetry. exact (preserves_run _ _ _ _ _ _ _ Hm Em). Qed.

Section preserves.
Context (R : relation Db) `{!PreOrder R}.

Lemma preserves_ret {E A} (a : A) : preserves R (mret a : Eff E A).
Proof. intros db f. reflexivity. Qed.
Lemma preserves_raise {E A} (e : E) : preserves R (raise e : Eff E A).
Proof. intros db f. reflexivity. Qed.
Lemma preserves_query {A} (q : Db → result db_error A) : preserves R (query q).
Proof. intros db f. rewrite query_same. reflexivity. Qed.
Lemma preserves_find {A} (q : Db → list A) : preserves R (find q).
Proof. apply preserves_query. Qed.
Lemma preserves_first {A} (q : Db → list A) : preserves R (first q).
Proof. apply preserves_query. Qed.
Lemma preserves_attempt {E F A} (m : Eff E A) : preserves R m → preserves R (attempt (F := F) m).
Proof.
  intros Hm db f. specialize (Hm db f). unfold attempt, after in *.
  by destruct (m db f) as [[[a|e] db1] f1].
Qed.
Lemma preserves_caught {E F A} (m : Eff E A) : preserves R m → preserves R (caught (F := F) m).
Proof.
  intros Hm db f. specialize (Hm db f). unfold caught, after in *.
  by destruct (m db f) as [[r db1] f1].
Qed.
Lemma preserves_or_fail {E F A} (w : E → F) (m : Eff E A) : preserves R m → preserves R (or_fail w m).
Proof.
  intros Hm db f. specialize (Hm db f). unfold or_fail, after in *.
  by destruct (m db f) as [[r db1] f1].
Qed.
Lemma preserves_bind {E A B} (m : Eff E A) (k : A → Eff E B) :
  preserves R m → (∀ a, preserves R (k a)) → preserves R (m ≫= k).
Proof.
  intros Hm Hk db f. unfold after. rewrite bind_run.
  destruct (m db f) as [[[a|e] db1] f1] eqn:Em; pose proof (preserves_run _ _ _ _ _ _ _ Hm Em) as H1;
    [|done].
  transitivity db1; [done|apply Hk].
Qed.
Lemma preserves_if {E A} (b : bool) (m m' : Eff E A) :
  preserves R m → preserves R m' → preserves R (if b then m else m').
Proof. by destruct b. Qed.
Lemma preserves_for_each {E A} (body : A → Eff E unit) l :
  (∀ x, preserves R (body x)) → preserves R (for_each body l).
Proof.
  intros Hb. induction l as [|x l IH]; simpl; [apply preserves_ret|].
  apply preserves_bind; [apply Hb|done].
Qed.
Lemma preserves_statement {A} (s : Db → result db_error (Db * A)) :
  (∀ db db' a, s db = Ok (db', a) → R db db') → preserves R (statement s).
Proof.
  intros Hs db f. unfold statement, after.
  destruct f as [|[e|] f]; try destruct (s db) as [[db' a]|e'] eqn:Em; simpl; eauto; reflexivity.
Qed.
Lemma preserves_execute (s : Db → result db_error Db) :
  (∀ db db', s db = Ok db' → R db db') → preserves R (execute s).
Proof.
  intros Hs db f. unfold execute, after.
  destruct f as [|[e|] f]; try destruct (s db) as [db'|e'] eqn:Em; simpl; eauto; reflexivity.
Qed.
End preserves.

Create HintDb reads.

Ltac preserves_tac :=
  repeat match goal with
  | |- preserves _ (_ ≫= _) => apply preserves_bind; [apply _| |intros ?]
  | |- preserves _ (if _ then _ else _) => apply preserves_if
  | |- preserves _ (attempt _) => apply preserves_attempt
  | |- preserves _ (or_fail _ _) => apply preserves_or_fail
  | |- preserves _ (caught _) => apply preserves_caught
  | |- preserves _ (match ?x with _ => _ end) => destruct x eqn:?
  | |- preserves _ (for_each _ _) => apply preserves_for_each; [apply _|intros ?]
  | |- preserves _ (mret _) => apply preserves_ret, _
  | |- preserves _ (raise _) => apply preserves_raise, _
  | |- preserves _ (query _) => apply preserves_query, _
  | |- preserves _ (find _) => apply preserves_find, _
  | |- preserves _ (first _) => apply preserves_first, _
  | |- preserves _ _ => solve [auto with reads]
  end.

(** ** Weakest preconditions

    [wp m Q db]: whatever fails, running [m] on the tables [db] ends in a result
    and tables that satisfy [Q]. *)
Definition wp {E A} (m : Eff E A) (Q : result E A → Db → Prop) (db : Db) : Prop :=
  ∀ f r db' f', m db f = (r, db', f') → Q r db'.

Section wp.
Context {E : Type}.

Lemma wp_mono {A} (m : Eff E A) (Q Q' : result E A → Db → Prop) db :
  (∀ r db', Q r db' → Q' r db') → wp m Q db → wp m Q' db.
Proof. intros HQ Hm f r db' f' Hr. eapply HQ, Hm, Hr. Qed.

Lemma wp_ret {A} (a : A) (Q : result E A → Db → Prop) db : Q (Ok a) db → wp (mret a) Q db.
Proof. intros HQ f r db' f' Hr. by injection Hr as <- <- _. Qed.

Lemma wp_raise {A} (e : E) (Q : result E A → Db → Prop) db : Q (Err e) db → wp (raise e) Q db.
Proof. intros HQ f r db' f' Hr. by injection Hr as <- <- _. Qed.

Lemma wp_bind {A B} (m : Eff E A) (k : A → Eff E B) (Q : result E B → Db → Prop) db :
  wp m (λ r db', match r with Ok a => wp (k a) Q db' | Err e => Q (Err e) db' end) db →
  wp (m ≫= k) Q db.
Proof.
  intros Hm f r db' f'. rewrite bind_run. destruct (m db f) as [[[a|e] db1] f1] eqn:Em.
  - apply (Hm _ _ _ _ Em).
  - intros Hr. injection Hr as <- <- _. exact (Hm _ _ _ _ Em).
Qed.

Lemma wp_caught {F A} (m : Eff F A) (Q : result E (result F A) → Db → Prop) db :
  wp m (λ r db', Q (Ok r) db') db → wp (caught m) Q db.
Proof.
  intros Hm f r db' f'. rewrite caught_run. destruct (m db f) as [[r1 db1] f1] eqn:Em.
  intros Hr. injection Hr as <- <- _. exact (Hm _ _ _ _ Em).
Qed.

Lemma wp_attempt {F A} (m : Eff F A) (Q : result E (option A) → Db → Prop) db :
  wp m (λ r db', Q (Ok (match r with Ok a => Some a | Err _ => None end)) db') db →
  wp (attempt m) Q db.
Proof.
  intros Hm f r db' f'. unfold attempt. destruct (m db f) as [[[a|e] db1] f1] eqn:Em;
    intros Hr; injection Hr as <- <- _; exact (Hm _ _ _ _ Em).
Qed.

Lemma wp_or_fail {F A} (w : F → E) (m : Eff F A) (Q : result E A → Db → Prop) db :
  wp m (λ r db', Q (map_err w r) db') db → wp (or_fail w m) Q db.
Proof.
  intros Hm f r db' f'. unfold or_fail. destruct (m db f) as [[r1 db1] f1] eqn:Em;
    intros Hr; injection Hr as <- <- _; exact (Hm _ _ _ _ Em).
Qed.

Lemma wp_for_each {A} (body : A → Eff E unit) l (I : Db → Prop) (Q : result E unit → Db → Prop) db :
  I db → (∀ x db, x ∈ l → I db →
            wp (body x) (λ r db', match r with Ok _ => I db' | Err e => Q (Err e) db' end) db) →
  (∀ db, I db → Q (Ok ()) db) → wp (for_each body l) Q db.
Proof.
  revert db. induction l as [|x l IH]; intros db HI Hb HQ; simpl; [by apply wp_ret, HQ|].
  apply wp_bind. eapply wp_mono; [|apply (Hb x db); [left|done]].
  intros [[]|e] db' Hr; [|done]. apply IH; [done| |done].
  intros y db1 Hy. apply Hb. by right.
Qed.
End wp.

(** A read whose error is ignored. *)
Lemma wp_attempt_read {E F A B} (m : Eff E A) (k : option A → Eff F B) Q db :
  reads m → (∀ o, wp (k o) Q db) → wp (attempt m ≫= k) Q db.
Proof.
  intros Hm Hk. apply wp_bind, wp_attempt. intros f r db' f' Hr.
  rewrite (reads_run _ _ _ _ _ _ Hm Hr). destruct r; apply Hk.
Qed.

Lemma wp_query {A} (q : Db → result db_error A) Q db :
  Q (q db) db → (∀ e, Q (Err e) db) → wp (query q) Q db.
Proof.
  intros HQ He f r db' f'. unfold query.
  destruct f as [|[e|] f]; intros Hr; injection Hr as <- <- _; auto.
Qed.

Lemma wp_find {A} (q : Db → list A) Q db :
  Q (Ok (q db)) db → (∀ e, Q (Err e) db) → wp (find q) Q db.
Proof. intros HQ He. by apply (wp_query (λ db, Ok (q db))). Qed.

Lemma wp_first {A} (p : A → bool) (rows : Db → list A) Q db :
  (∀ a, a ∈ rows db → p a = true → Q (Ok a) db) → (∀ e, Q (Err e) db) →
  wp (first (λ db, keep p (rows db))) Q db.
Proof.
  intros HQ He. apply wp_query; [|done]. destruct (keep p (rows db)) eqn:Ek; [apply He|].
  apply keep_head in Ek as [??]. auto.
Qed.

Lemma wp_execute (s : Db → result db_error Db) Q db :
  (∀ db', s db = Ok db' → Q (Ok ()) db') → (∀ e, Q (Err e) db) → wp (execute s) Q db.
Proof.
  intros HQ He f r db' f'. unfold execute.
  destruct f as [|[e|] f]; try destruct (s db) eqn:Es; intros Hr; injection Hr as <- <- _; auto.
Qed.

Lemma wp_statement {A} (s : Db → result db_error (Db * A)) Q db :
  (∀ db' a, s db = Ok (db', a) → Q (Ok a) db') → (∀ e, Q (Err e) db) → wp (statement s) Q db.
Proof.
  intros HQ He f r db' f'. unfold statement.
  destruct f as [|[e|] f]; try destruct (s db) as [[db1 a]|] eqn:Es;
    intros Hr; injection Hr as <- <- _; auto.
Qed.

(** Steps over the parts of an operation that need no thought. *)
Ltac wp_step :=
  lazymatch goal with
  | |- wp (_ ≫= _) _ _ => apply wp_bind
  | |- wp (mret _) _ _ => apply wp_ret
  | |- wp (raise _) _ _ => apply wp_raise
  | |- wp (caught _) _ _ => apply wp_caught
  | |- wp (attempt _) _ _ => apply wp_attempt
  | |- wp (or_fail _ _) _ _ => apply wp_or_fail
  | |- wp (if ?b then _ else _) _ _ => destruct b eqn:?
  | |- wp (match ?x with _ => _ end) _ _ => destruct x eqn:?
  | |- wp (let _ := _ in _) _ _ => cbv zeta
  end.
Ltac wp_steps := repeat wp_step.
