(* ===== verification/Repositories.v ===== *)
(** * The repositories

    The lookups of [internal/repository] that several components use, as
    queries of the tables.  Rows come in table order (the sources' [ORDER BY]
    only sets the order of display, except where a definition says otherwise);
    [LIKE] of the database is a parameter. *)

From stdpp Require Import base list strings sorting.
From Stdlib Require Import ZArith.
From S2P Require Import Prelude GoStrings Gorm Models Database.
Local Open Scope Z_scope.

(** ** Hosts, users and groups *)

(** [Offset(offset).Limit(pageSize)]; the product may overflow, and a negative
    offset is none. *)
Definition page_of {A} (page pageSize : Z) (l : list A) : list A :=
  take (Z.to_nat pageSize) (drop (Z.to_nat (wrap64 ((page - 1) * pageSize))) l).

Section hosts.
Context (like_host : text → Host.t → bool).

(** [HostRepository.FindAll] without tags: the count and the page. *)
Definition FindAllHosts (page pageSize : Z) (search : text)
    : DB (list Host.t * Z) :=
  let rows db := if is_empty search then hosts db else keep (like_host search) (hosts db) in
  total ← query (λ db, Ok (Z.of_nat (length (rows db))));
  l ← find (λ db, page_of page pageSize (rows db));
  mret (l, total).

(** [FindAllWithPagination]: the search and each tag restrict the rows. *)
Context (like_description has_tag : text → Host.t → bool).

Definition FindAllWithPagination (page pageSize : Z) (search : text) (tags : list text)
    : DB (list Host.t * Z) :=
  let rows db :=
    foldl (λ l tag, keep (has_tag tag) l)
          (if is_empty search then hosts db else keep (like_description search) (hosts db)) tags in
  total ← query (λ db, Ok (Z.of_nat (length (rows db))));
  l ← find (λ db, page_of page pageSize (rows db));
  mret (l, total).
End hosts.

Definition FindHostByID (id : text) : DB Host.t :=
  first (λ db, keep (λ h, text_eqb (Host.ID h) id) (hosts db)).

Definition FindUserByID (id : text) : DB User.t :=
  first (λ db, keep (λ u, text_eqb (User.ID u) id) (users db)).

(** [GetUserHosts]: the old table is no longer read. *)
Definition GetUserHosts (userID : text) : DB (list text) := mret [].

(** The join of hosts with the members of a group. *)
Definition group_hosts (db : Db) (groupID : text) : list Host.t :=
  mjoin ((λ h, (λ _, h) <$> keep (λ m, text_eqb (HostGroupMember.HostID m) (Host.ID h) &&
                                       text_eqb (HostGroupMember.GroupID m) groupID)
                                 (host_group_members db)) <$> hosts db).

Definition GetHostsByGroupIDWithPagination (groupID : text) (page pageSize : Z)
    : DB (list Host.t * Z) :=
  total ← query (λ db, Ok (Z.of_nat (length (group_hosts db groupID))));
  l ← find (λ db, page_of page pageSize (group_hosts db groupID));
  mret (l, total).

Definition set_counts (g : HostGroup.t) (n on : Z) : HostGroup.t :=
  {| HostGroup.ID := HostGroup.ID g; HostGroup.Name := HostGroup.Name g;
     HostGroup.Description := HostGroup.Description g; HostGroup.Color := HostGroup.Color g;
     HostGroup.Icon := HostGroup.Icon g; HostGroup.SortOrder := HostGroup.SortOrder g;
     HostGroup.CreatedBy := HostGroup.CreatedBy g;
     HostGroup.HostCount := n; HostGroup.OnlineCount := on |}.

(** [FindAllWithStats]: the error of a count is ignored and leaves 0. *)
Definition group_stats (g : HostGroup.t) : DB HostGroup.t :=
  n ← attempt (query (λ db, Ok (Z.of_nat (length
        (keep (λ m, text_eqb (HostGroupMember.GroupID m) (HostGroup.ID g)) (host_group_members db))))));
  on ← attempt (query (λ db, Ok (Z.of_nat (length
        (keep (λ h, text_eqb (Host.Status h) (txt "online")) (group_hosts db (HostGroup.ID g)))))));
  mret (set_counts g (default 0 n) (default 0 on)).

Fixpoint with_stats (gs : list HostGroup.t) : DB (list HostGroup.t) :=
  match gs with
  | [] => mret []
  | g :: gs => g ← group_stats g; gs ← with_stats gs; mret (g :: gs)
  end.

Definition FindAllWithStats : DB (list HostGroup.t) := find host_groups ≫= with_stats.

(** ** Accounts, proxies and settings *)

(** [SystemUserRepository.FindByID]. *)
Definition FindSystemUserByID (id : text) : DB SystemUser.t :=
  first (λ db, keep (λ s, text_eqb (SystemUser.ID s) id) (system_users db)).

(** [ProxyRepository.FindProxyInfoByID]. *)
Definition FindProxyInfoByID (proxyID : text) : DB Proxy.t :=
  first (λ db, keep (λ p, text_eqb (Proxy.ProxyID p) proxyID) (proxies db)).

(** [ORDER BY last_heartbeat DESC]. *)
Definition beats_after (a b : Proxy.t) : Prop := Proxy.LastHeartbeat b <= Proxy.LastHeartbeat a.
#[global] Instance beats_after_dec : RelDecision beats_after.
Proof. intros a b. apply Z_le_dec. Defined.

Definition online : text := txt "online".
Definition offline : text := txt "offline".

Definition FindOnlineProxies : DB (list Proxy.t) :=
  find (λ db, merge_sort beats_after (keep (λ p, text_eqb (Proxy.Status p) online) (proxies db))).

Definition FindOnlineProxiesByZone (zone : text) : DB (list Proxy.t) :=
  find (λ db, merge_sort beats_after
    (keep (λ p, text_eqb (Proxy.Status p) online && text_eqb (Proxy.NetworkZone p) zone) (proxies db))).

(** [SettingRepository.GetByKey] and its alias [GetSettingByKey]: a missing key
    is no error. *)
Definition GetSettingByKey (key : text) : DB (option Setting.t) :=
  r ← caught (first (λ db, keep (λ s, text_eqb (Setting.Key s) key) (settings db)));
  match r with
  | Ok s => mret (Some s)
  | Err RecordNotFound => mret None
  | Err e => raise e
  end.

(** [SettingRepository.Get]: the value, empty when there is none. *)
Definition GetSetting (key : text) : DB text :=
  s ← GetSettingByKey key; mret (match s with Some s => Setting.Value s | None => [] end).

(** ** Facts *)

Lemma first_Ok {A} (q : Db → list A) db f a db' f' :
  first q db f = (Ok a, db', f') → a ∈ q db ∧ db' = db.
Proof.
  intros [Hq ->]%query_Ok. split; [|done]. destruct (q db); [done|]. injection Hq as ->. left.
Qed.

Lemma first_keep_Ok {A} (p : A → bool) (rows : Db → list A) db f a db' f' :
  first (λ db, keep p (rows db)) db f = (Ok a, db', f') → a ∈ rows db ∧ p a = true ∧ db' = db.
Proof. intros [Ha ->]%first_Ok. by apply elem_of_keep in Ha as [? ?]. Qed.

Lemma FindProxyInfoByID_Ok id db f p db' f' :
  FindProxyInfoByID id db f = (Ok p, db', f') → p ∈ proxies db ∧ Proxy.ProxyID p = id ∧ db' = db.
Proof. by intros (? & ?%text_eqb_true & ?)%first_keep_Ok. Qed.

Lemma reads_GetSettingByKey key : reads (GetSettingByKey key).
Proof. unfold GetSettingByKey. preserves_tac. Qed.

Lemma reads_FindUserByID id : reads (FindUserByID id).
Proof. unfold FindUserByID. preserves_tac. Qed.

Lemma reads_FindAllHosts like page size search : reads (FindAllHosts like page size search).
Proof. unfold FindAllHosts. preserves_tac. Qed.

#[export] Hint Resolve reads_GetSettingByKey reads_FindUserByID reads_FindAllHosts : reads.
