(* ===== verification/Permissions.v ===== *)
(** * Who may use which account on which host

    The access model of [internal/repository]: user → user group → permission
    rule → (system users, host groups → hosts).  Five functions of three files
    answer the question, each with its own SQL: [GetAvailableSystemUsersForUser],
    [CheckUserHasPermission] and [ValidateHostInRule] of
    [system_user_repository.go], [GetUserHostGroupIDs] of [user_repository.go]
    and [GetAccessibleHostIDsForUser] of [host_repository.go].  A [WHERE] clause
    is a boolean test, a join the existence of the rows joined, each [Where] of
    gorm one conjunct.  The database's [JSON_CONTAINS(host_ids, JSON_QUOTE(id))]
    and [JSON_EXTRACT], and Go's JSON reader, are parameters. *)

From stdpp Require Import base list strings sets sorting.
From Stdlib Require Import ZArith Lia.
From S2P Require Import Prelude GoStrings Gorm Models Database.
Local Open Scope Z_scope.

(** ** The conditions of the queries *)

Definition opt_test {A} (f : A → bool) (o : option A) : bool :=
  match o with None => true | Some x => f x end.

(** [valid_from IS NULL OR valid_from <= now], [valid_to IS NULL OR valid_to >= now]. *)
Definition in_time (now : Z) (r : PermissionRule.t) : bool :=
  opt_test (λ t, t <=? now) (PermissionRule.ValidFrom r) &&
  opt_test (λ t, now <=? t) (PermissionRule.ValidTo r).

Definition active : text := txt "active".

(** A member [uid] of the group [gid]. *)
Definition is_member (db : Db) (uid gid : text) : bool :=
  existsb (λ m, text_eqb (UserGroupMember.UserGroupID m) gid &&
                text_eqb (UserGroupMember.UserID m) uid) (user_group_members db).

(** The join of the rule with its user group and the group's members, with the
    status of the group. *)
Definition rule_reaches_user (db : Db) (r : PermissionRule.t) (uid : text) : bool :=
  existsb (λ g, text_eqb (UserGroup.ID g) (PermissionRule.UserGroupID r) &&
                is_member db uid (UserGroup.ID g) &&
                text_eqb (UserGroup.Status g) active) (user_groups db).

(** The host sits in a host group of the rule. *)
Definition rule_groups_host (db : Db) (r : PermissionRule.t) (hid : text) : bool :=
  existsb (λ rel, text_eqb (RuleHostGroup.PermissionRuleID rel) (PermissionRule.ID r) &&
    existsb (λ m, text_eqb (HostGroupMember.GroupID m) (RuleHostGroup.HostGroupID rel) &&
                  text_eqb (HostGroupMember.HostID m) hid) (host_group_members db))
    (rule_host_groups db).

Definition rule_has_account (db : Db) (r : PermissionRule.t) (sid : text) : bool :=
  existsb (λ rel, text_eqb (RuleSystemUser.PermissionRuleID rel) (PermissionRule.ID r) &&
                  text_eqb (RuleSystemUser.SystemUserID rel) sid) (rule_system_users db).

(** A rule in force for the user. *)
Definition rule_applies (db : Db) (now : Z) (r : PermissionRule.t) (uid : text) : bool :=
  PermissionRule.Enabled r && in_time now r && rule_reaches_user db r uid.

(** [ORDER BY priority DESC]. *)
Definition su_before (a b : SystemUser.t) : Prop := SystemUser.Priority b <= SystemUser.Priority a.
#[global] Instance su_before_dec : RelDecision su_before.
Proof. intros a b. unfold su_before. apply _. Defined.

Section permissions.
Context (JSON_CONTAINS : text → text → bool).

Definition rule_covers_host (db : Db) (r : PermissionRule.t) (hid : text) : bool :=
  rule_groups_host db r hid ||
  (negb (is_empty (PermissionRule.HostIDs r)) && JSON_CONTAINS (PermissionRule.HostIDs r) hid).

(** [GetAvailableSystemUsersForUser]; [now] is [time.Now()]. *)
Definition GetAvailableSystemUsersForUser (now : Z) (userID hostID : text) : DB (list SystemUser.t) :=
  find (λ db, merge_sort su_before (keep (λ su,
    text_eqb (SystemUser.Status su) active &&
    existsb (λ r, rule_has_account db r (SystemUser.ID su) &&
                  rule_applies db now r userID && rule_covers_host db r hostID)
            (permission_rules db)) (system_users db))).

(** [CheckUserHasPermission]: the rows of the join are counted. *)
Definition CheckUserHasPermission (now : Z) (userID hostID systemUserID : text) : DB bool :=
  query (λ db, Ok (existsb (λ r,
    rule_has_account db r systemUserID &&
    rule_applies db now r userID && rule_covers_host db r hostID) (permission_rules db))).

(** [GetUserHostGroupIDs] of the user repository. *)
Definition GetUserGroups (userID : text) : DB (list text) :=
  ms ← find (λ db, keep (λ m, text_eqb (UserGroupMember.UserID m) userID) (user_group_members db));
  mret (UserGroupMember.UserGroupID <$> ms).

Definition GetUserHostGroupIDs (now : Z) (userID : text) : DB (list text) :=
  userGroupIDs ← GetUserGroups userID;
  if is_empty userGroupIDs then mret []
  else
    rules ← find (λ db, keep (λ r,
      existsb (text_eqb (PermissionRule.UserGroupID r)) userGroupIDs &&
      PermissionRule.Enabled r && in_time now r) (permission_rules db));
    if is_empty rules then mret []
    else
      rels ← find (λ db, keep (λ rel,
        existsb (λ r, text_eqb (RuleHostGroup.PermissionRuleID rel) (PermissionRule.ID r)) rules)
        (rule_host_groups db));
      mret (remove_dups (RuleHostGroup.HostGroupID <$> rels)).

(** [GetAccessibleHostIDsForUser] of the host repository; the ids are the keys
    of a map. *)
Definition trim_quotes (s : text) : text :=
  trim_right_func (Z.eqb 34) (drop_while (Z.eqb 34) s).

Definition GetAccessibleHostIDsForUser (JSON_EXTRACT : text → result db_error (list text))
    (now : Z) (userID : text) : DB (list text) :=
  grouped ← find (λ db, HostGroupMember.HostID <$> keep (λ m,
    existsb (λ r, rule_applies db now r userID &&
      existsb (λ rel, text_eqb (RuleHostGroup.PermissionRuleID rel) (PermissionRule.ID r) &&
                      text_eqb (RuleHostGroup.HostGroupID rel) (HostGroupMember.GroupID m))
              (rule_host_groups db)) (permission_rules db)) (host_group_members db));
  rules ← attempt (find (λ db, keep (λ r,
    rule_applies db now r userID && negb (is_empty (PermissionRule.HostIDs r)))
    (permission_rules db)));
  let direct := mjoin ((λ r, match JSON_EXTRACT (PermissionRule.HostIDs r) with
                             | Ok ids => keep (λ i, negb (is_empty i)) (trim_quotes <$> ids)
                             | Err _ => []
                             end) <$> default [] rules) in
  mret (remove_dups (grouped ++ direct)).

(** [ValidateHostInRule] of the rule repository; [json_strings] reads a JSON
    array of strings. *)
Definition ValidateHostInRule (json_strings : text → option (list text))
    (ruleID hostID : text) : DB bool :=
  rule ← first (λ db, keep (λ r, text_eqb (PermissionRule.ID r) ruleID) (permission_rules db));
  let group := default [] (PermissionRule.HostGroupID rule) in
  if is_empty group && is_empty (PermissionRule.HostIDs rule) then mret true
  else
    in_group ←
      (if negb (is_empty group) then
         query (λ db, Ok (existsb (λ m, text_eqb (HostGroupMember.GroupID m) group &&
                                        text_eqb (HostGroupMember.HostID m) hostID)
                                  (host_group_members db)))
       else mret false);
    if in_group : bool then mret true
    else mret (negb (is_empty (PermissionRule.HostIDs rule)) &&
               match json_strings (PermissionRule.HostIDs rule) with
               | Some ids => existsb (λ id, text_eqb id hostID) ids
               | None => false
               end).
End permissions.

(** ** Writing the rules *)

(** [tx.Create(rule)]: a primary key in use is an error, and a zero field with a
    default is created with the default, which for [Enabled] is true. *)
Definition stored (rule : PermissionRule.t) : PermissionRule.t := PermissionRule.set_enabled rule true.
Definition create_rule (rule : PermissionRule.t) : DB unit := execute (λ db,
  if existsb (λ r, text_eqb (PermissionRule.ID r) (PermissionRule.ID rule)) (permission_rules db)
  then Err DuplicatedKey
  else Ok (set_rules db (permission_rules db ++ [stored rule]))).

(** The pair of a relation is unique in both relation tables. *)
Definition create_account_relation (ruleID systemUserID : text) : DB unit := execute (λ db,
  if existsb (λ rel, text_eqb (RuleSystemUser.PermissionRuleID rel) ruleID &&
                     text_eqb (RuleSystemUser.SystemUserID rel) systemUserID) (rule_system_users db)
  then Err DuplicatedKey
  else Ok (set_rule_system_users db (rule_system_users db ++
    [{| RuleSystemUser.ID := next_id RuleSystemUser.ID (rule_system_users db);
        RuleSystemUser.PermissionRuleID := ruleID;
        RuleSystemUser.SystemUserID := systemUserID |}]))).

Definition create_group_relation (ruleID hostGroupID : text) : DB unit := execute (λ db,
  if existsb (λ rel, text_eqb (RuleHostGroup.PermissionRuleID rel) ruleID &&
                     text_eqb (RuleHostGroup.HostGroupID rel) hostGroupID) (rule_host_groups db)
  then Err DuplicatedKey
  else Ok (set_rule_host_groups db (rule_host_groups db ++
    [{| RuleHostGroup.ID := next_id RuleHostGroup.ID (rule_host_groups db);
        RuleHostGroup.PermissionRuleID := ruleID;
        RuleHostGroup.HostGroupID := hostGroupID |}]))).

Definition delete_account_relations (ruleID : text) : DB unit := execute (λ db,
  Ok (set_rule_system_users db (keep (λ rel,
    negb (text_eqb (RuleSystemUser.PermissionRuleID rel) ruleID)) (rule_system_users db)))).

Definition delete_group_relations (ruleID : text) : DB unit := execute (λ db,
  Ok (set_rule_host_groups db (keep (λ rel,
    negb (text_eqb (RuleHostGroup.PermissionRuleID rel) ruleID)) (rule_host_groups db)))).

(** The loops over the ids; an empty id is skipped. *)
Definition relate_accounts (ruleID : text) (ids : list text) : DB unit :=
  for_each (λ id, if is_empty id then mret () else create_account_relation ruleID id) ids.
Definition relate_groups (ruleID : text) (ids : list text) : DB unit :=
  for_each (λ id, if is_empty id then mret () else create_group_relation ruleID id) ids.

Module RuleRepository.

(** [Create]: the old single columns become relations. *)
Definition Create (rule : PermissionRule.t) : DB unit := Transaction (
  create_rule rule ;;
  match PermissionRule.SystemUserID rule with
  | Some id => if is_empty id then mret () else create_account_relation (PermissionRule.ID rule) id
  | None => mret ()
  end ;;
  match PermissionRule.HostGroupID rule with
  | Some id => if is_empty id then mret () else create_group_relation (PermissionRule.ID rule) id
  | None => mret ()
  end).

Definition CreateWithRelations (rule : PermissionRule.t) (systemUserIDs hostGroupIDs : list text)
  : DB unit := Transaction (
  create_rule rule ;;
  relate_accounts (PermissionRule.ID rule) systemUserIDs ;;
  relate_groups (PermissionRule.ID rule) hostGroupIDs).

Section updates.
(** What [Updates(rule)] with a struct, creation columns omitted, makes of the row. *)
Context (assign : PermissionRule.t → PermissionRule.t → PermissionRule.t).

Definition update_rule (rule : PermissionRule.t) : DB unit := execute (λ db,
  Ok (set_rules db (updated (λ r, text_eqb (PermissionRule.ID r) (PermissionRule.ID rule))
                            (assign rule) <$> permission_rules db))).

Definition Update (rule : PermissionRule.t) : DB unit := Transaction (
  update_rule rule ;;
  delete_account_relations (PermissionRule.ID rule) ;;
  match PermissionRule.SystemUserID rule with
  | Some id => if is_empty id then mret () else create_account_relation (PermissionRule.ID rule) id
  | None => mret ()
  end ;;
  delete_group_relations (PermissionRule.ID rule) ;;
  match PermissionRule.HostGroupID rule with
  | Some id => if is_empty id then mret () else create_group_relation (PermissionRule.ID rule) id
  | None => mret ()
  end).

Definition UpdateWithRelations (rule : PermissionRule.t) (systemUserIDs hostGroupIDs : list text)
  : DB unit := Transaction (
  update_rule rule ;;
  delete_account_relations (PermissionRule.ID rule) ;;
  relate_accounts (PermissionRule.ID rule) systemUserIDs ;;
  delete_group_relations (PermissionRule.ID rule) ;;
  relate_groups (PermissionRule.ID rule) hostGroupIDs).
End updates.

Definition Delete (id : text) : DB unit := execute (λ db,
  Ok (set_rules db (keep (λ r, negb (text_eqb (PermissionRule.ID r) id)) (permission_rules db)))).
End RuleRepository.

(** [AssignGroupsToUser]: two statements, no transaction. *)
Fixpoint new_members (uid by_ : text) (id : Z) (groups : list text) : list UserGroupMember.t :=
  match groups with
  | [] => []
  | g :: groups =>
      {| UserGroupMember.ID := id; UserGroupMember.UserGroupID := g;
         UserGroupMember.UserID := uid; UserGroupMember.AddedBy := by_ |}
      :: new_members uid by_ (id + 1) groups
  end.

Definition AssignGroupsToUser (userID : text) (groupIDs : list text) (createdBy : text) : DB unit :=
  execute (λ db, Ok (set_members db (keep (λ m,
    negb (text_eqb (UserGroupMember.UserID m) userID)) (user_group_members db)))) ;;
  if is_empty groupIDs then mret ()
  else execute (λ db, Ok (set_members db (user_group_members db ++
         new_members userID createdBy (next_id UserGroupMember.ID (user_group_members db)) groupIDs))).

(** ** The two tests agree *)

Lemma find_Ok {A} (q : Db → list A) db f l db' f' :
  find q db f = (Ok l, db', f') → l = q db ∧ db' = db.
Proof. intros [[= <-] ?]%query_Ok. done. Qed.

Section permission_facts.
Context (JSON_CONTAINS : text → text → bool).
Local Notation GetAvailable := (GetAvailableSystemUsersForUser JSON_CONTAINS).
Local Notation CheckUser := (CheckUserHasPermission JSON_CONTAINS).
Local Notation covers := (rule_covers_host JSON_CONTAINS).

(** The access relation: a rule in force for the user that has the account and
    covers the host. *)
Definition grants (db : Db) (now : Z) (uid hid sid : text) : Prop :=
  ∃ r, r ∈ permission_rules db ∧ rule_has_account db r sid = true ∧
       rule_applies db now r uid = true ∧ covers db r hid = true.

Lemma grants_test db now uid hid sid :
  existsb (λ r, rule_has_account db r sid && rule_applies db now r uid && covers db r hid)
    (permission_rules db) = true ↔ grants db now uid hid sid.
Proof.
  rewrite existsb_elem. split.
  - intros (r & Hr & [[? ?]%andb_prop ?]%andb_prop). by exists r.
  - intros (r & Hr & H1 & H2 & H3). exists r. by rewrite H1, H2, H3.
Qed.

Lemma available_spec now uid hid db f l db' f' su :
  GetAvailable now uid hid db f = (Ok l, db', f') →
  su ∈ l ↔ su ∈ system_users db ∧ SystemUser.Status su = active ∧
           grants db now uid hid (SystemUser.ID su).
Proof.
  unfold GetAvailableSystemUsersForUser. intros [-> _]%find_Ok.
  rewrite merge_sort_Permutation, elem_of_keep, andb_true_iff,
    text_eqb_true, grants_test. tauto.
Qed.

Lemma check_spec now uid hid sid db f b db' f' :
  CheckUser now uid hid sid db f = (Ok b, db', f') → b = true ↔ grants db now uid hid sid.
Proof.
  unfold CheckUserHasPermission. intros [[= <-] _]%query_Ok.
  apply grants_test.
Qed.

(** C6: The list of accounts and the check of one account implement the same
    access relation: an account is in the list exactly when it exists, is active
    and the check accepts it. *)
Theorem available_iff_checked now uid hid db f f1 l db1 g su b db2 g1 :
  GetAvailable now uid hid db f = (Ok l, db1, f1) →
  CheckUser now uid hid (SystemUser.ID su) db g = (Ok b, db2, g1) →
  su ∈ l ↔ su ∈ system_users db ∧ SystemUser.Status su = active ∧ b = true.
Proof.
  intros Hl Hb. by rewrite (available_spec _ _ _ _ _ _ _ _ su Hl), (check_spec _ _ _ _ _ _ _ _ _ Hb).
Qed.

(** ** The menus show what the rules grant *)

Lemma member_test db uid gid :
  is_member db uid gid = true ↔ ∃ m, m ∈ user_group_members db ∧
    UserGroupMember.UserGroupID m = gid ∧ UserGroupMember.UserID m = uid.
Proof.
  unfold is_member. rewrite existsb_elem. split; intros (m & Hm & H); exists m; (split; [done|]).
  - apply andb_prop in H as [?%text_eqb_true ?%text_eqb_true]. done.
  - destruct H as [-> ->]. by rewrite !text_eqb_refl.
Qed.

Lemma user_groups_spec uid db f l db' f' gid :
  GetUserGroups uid db f = (Ok l, db', f') → db' = db ∧ (gid ∈ l ↔ is_member db uid gid = true).
Proof.
  unfold GetUserGroups. intros (ms & db1 & f1 & [-> ->]%find_Ok & Hr)%bind_Ok.
  injection Hr as <- <- _. split; [done|]. rewrite member_test, list_elem_of_fmap. split.
  - intros (m & -> & [Hm ?%text_eqb_true]%elem_of_keep). by exists m.
  - intros (m & Hm & <- & Hu). exists m. split; [done|]. apply elem_of_keep.
    by rewrite Hu, text_eqb_refl.
Qed.

Lemma rule_in_groups now gs r :
  existsb (text_eqb (PermissionRule.UserGroupID r)) gs && PermissionRule.Enabled r && in_time now r
  = true ↔
  PermissionRule.UserGroupID r ∈ gs ∧ PermissionRule.Enabled r = true ∧ in_time now r = true.
Proof.
  rewrite !andb_true_iff, existsb_elem. split.
  - intros [[(g & Hg & ->%text_eqb_true) ?] ?]. done.
  - intros (Hg & ? & ?). split_and!; [|done..]. exists (PermissionRule.UserGroupID r).
    by rewrite text_eqb_refl.
Qed.

Lemma rel_in_rules rules rel :
  existsb (λ r, text_eqb (RuleHostGroup.PermissionRuleID rel) (PermissionRule.ID r)) rules = true ↔
  ∃ r, r ∈ rules ∧ RuleHostGroup.PermissionRuleID rel = PermissionRule.ID r.
Proof.
  rewrite existsb_elem. split; intros (r & Hr & E); exists r; (split; [done|]);
    by apply text_eqb_true.
Qed.

Lemma host_group_ids_spec now uid db f l db' f' gid :
  GetUserHostGroupIDs now uid db f = (Ok l, db', f') →
  gid ∈ l ↔ ∃ r rel, r ∈ permission_rules db ∧ is_member db uid (PermissionRule.UserGroupID r) = true ∧
    PermissionRule.Enabled r = true ∧ in_time now r = true ∧
    rel ∈ rule_host_groups db ∧ RuleHostGroup.PermissionRuleID rel = PermissionRule.ID r ∧
    RuleHostGroup.HostGroupID rel = gid.
Proof.
  unfold GetUserHostGroupIDs.
  intros (gs & db1 & f1 & Hgs & Hr)%bind_Ok.
  assert (db1 = db) as -> by exact (proj1 (user_groups_spec _ _ _ _ _ _ [] Hgs)).
  assert (∀ g, g ∈ gs ↔ is_member db uid g = true) as Hm.
  { intros g. exact (proj2 (user_groups_spec _ _ _ _ _ _ g Hgs)). }
  destruct (is_empty gs) eqn:Ee.
  { injection Hr as <- _ _. destruct gs; [|done]. split; [by intros []%not_elem_of_nil|].
    intros (r & rel & _ & Hin%Hm & _). by apply not_elem_of_nil in Hin. }
  apply bind_Ok in Hr as (rules & db2 & f2 & [Hrules ->]%find_Ok & Hr).
  assert (∀ r, r ∈ rules ↔ r ∈ permission_rules db ∧ is_member db uid (PermissionRule.UserGroupID r) = true
            ∧ PermissionRule.Enabled r = true ∧ in_time now r = true) as Hin.
  { intros r. rewrite Hrules, elem_of_keep, rule_in_groups, <- Hm. done. }
  destruct (is_empty rules) eqn:Er.
  { injection Hr as <- _ _. destruct rules; [|done]. split; [by intros []%not_elem_of_nil|].
    intros (r & rel & H1 & H2 & H3 & H4 & _).
    assert (r ∈ []) as []%not_elem_of_nil. by apply Hin. }
  apply bind_Ok in Hr as (rels & db3 & f3 & [Hrels ->]%find_Ok & Hr).
  injection Hr as <- _ _. rewrite elem_of_remove_dups, list_elem_of_fmap, Hrels. split.
  - intros (rel & -> & [Hrel Hex]%elem_of_keep).
    apply rel_in_rules in Hex as (r & (H1 & H2 & H3 & H4)%Hin & Hid). by exists r, rel.
  - intros (r & rel & H1 & H2 & H3 & H4 & Hrel & Hid & <-). exists rel. split; [done|].
    apply elem_of_keep. split; [done|]. apply rel_in_rules. exists r. split; [|done].
    apply Hin. done.
Qed.

Lemma applies_member db now r uid :
  rule_applies db now r uid = true →
  PermissionRule.Enabled r = true ∧ in_time now r = true ∧
  is_member db uid (PermissionRule.UserGroupID r) = true.
Proof.
  unfold rule_applies, rule_reaches_user. rewrite !andb_true_iff, existsb_elem.
  intros [[He Ht] (g & _ & Hg)]. rewrite !andb_true_iff, !text_eqb_true in Hg.
  destruct Hg as [[<- ?] _]. done.
Qed.

Lemma groups_host_spec db r hid :
  rule_groups_host db r hid = true ↔ ∃ rel m, rel ∈ rule_host_groups db ∧
    RuleHostGroup.PermissionRuleID rel = PermissionRule.ID r ∧ m ∈ host_group_members db ∧
    HostGroupMember.GroupID m = RuleHostGroup.HostGroupID rel ∧ HostGroupMember.HostID m = hid.
Proof.
  unfold rule_groups_host. rewrite existsb_elem. split.
  - intros (rel & Hrel & [Hid%text_eqb_true (m & Hm & H)%existsb_elem]%andb_prop).
    apply andb_prop in H as [?%text_eqb_true ?%text_eqb_true]. by exists rel, m.
  - intros (rel & m & Hrel & Hid & Hm & Hg & Hh). exists rel. split; [done|].
    rewrite Hid, text_eqb_refl. simpl. apply existsb_elem. exists m. split; [done|].
    by rewrite Hg, Hh, !text_eqb_refl.
Qed.

(** The views agree where they should: when an account is available on a
    host through a host group, the groups listed for the user include one that
    holds the host, and the host is among the user's accessible hosts. *)
Theorem granted_host_is_shown JSON_EXTRACT now uid hid db f f1 l db1 g gids db2 g1 h hids db3 h1 su :
  GetAvailable now uid hid db f = (Ok l, db1, f1) → su ∈ l →
  GetUserHostGroupIDs now uid db g = (Ok gids, db2, g1) →
  GetAccessibleHostIDsForUser JSON_EXTRACT now uid db h = (Ok hids, db3, h1) →
  Forall (λ r, PermissionRule.HostIDs r = []) (permission_rules db) →
  (∃ gid m, gid ∈ gids ∧ m ∈ host_group_members db ∧ HostGroupMember.GroupID m = gid ∧
            HostGroupMember.HostID m = hid) ∧ hid ∈ hids.
Proof.
  intros Hl Hsu Hg Hh HF.
  apply (available_spec _ _ _ _ _ _ _ _ su Hl) in Hsu as (_ & _ & r & Hr & _ & Ha & Hc).
  unfold rule_covers_host in Hc. rewrite Forall_forall in HF. rewrite (HF r Hr) in Hc.
  simpl in Hc. rewrite orb_false_r in Hc.
  apply groups_host_spec in Hc as (rel & m & Hrel & Hid & Hm & Hgid & Hhid).
  pose proof (applies_member _ _ _ _ Ha) as (He & Ht & Hmem). split.
  - exists (RuleHostGroup.HostGroupID rel), m. split_and!; try done.
    apply (host_group_ids_spec _ _ _ _ _ _ _ _ Hg). by exists r, rel.
  - unfold GetAccessibleHostIDsForUser in Hh.
    apply bind_Ok in Hh as (gr & db4 & f4 & [-> ->]%find_Ok & Hh).
    apply bind_Ok in Hh as (o & db5 & f5 & _ & Hh). injection Hh as <- _ _.
    apply elem_of_remove_dups, elem_of_app. left. apply list_elem_of_fmap. exists m.
    split; [done|]. apply elem_of_keep. split; [done|]. apply existsb_elem. exists r.
    split; [done|]. rewrite Ha. simpl. apply existsb_elem. exists rel. split; [done|].
    by rewrite Hid, Hgid, !text_eqb_refl.
Qed.
End permission_facts.

(** ** The hosts the rules reach *)

(** A rule in force at [now] reaches the user: it is enabled, its dates hold, and
    its user group is active and has the user. *)
Definition in_force (db : Db) (now : Z) (uid : text) (r : PermissionRule.t) : Prop :=
  PermissionRule.Enabled r = true ∧
  (∀ t, PermissionRule.ValidFrom r = Some t → t <= now) ∧
  (∀ t, PermissionRule.ValidTo r = Some t → now <= t) ∧
  ∃ g m, g ∈ user_groups db ∧ UserGroup.ID g = PermissionRule.UserGroupID r ∧ UserGroup.Status g = active ∧
    m ∈ user_group_members db ∧ UserGroupMember.UserGroupID m = UserGroup.ID g ∧
    UserGroupMember.UserID m = uid.

(** Such a rule names a host group that has the host, or the query on its own
    list reads the host's id. *)
Definition reaches (JSON_EXTRACT : text → result db_error (list text)) (db : Db) (now : Z) (uid hid : text) : Prop :=
  ∃ r, r ∈ permission_rules db ∧ in_force db now uid r ∧
    ((∃ rel m, rel ∈ rule_host_groups db ∧ RuleHostGroup.PermissionRuleID rel = PermissionRule.ID r ∧
        m ∈ host_group_members db ∧ HostGroupMember.GroupID m = RuleHostGroup.HostGroupID rel ∧
        HostGroupMember.HostID m = hid) ∨
     (PermissionRule.HostIDs r ≠ [] ∧ hid ≠ [] ∧
        ∃ ids i, JSON_EXTRACT (PermissionRule.HostIDs r) = Ok ids ∧ i ∈ ids ∧ trim_quotes i = hid)).

Lemma opt_test_spec {A} (f : A → bool) o : opt_test f o = true ↔ ∀ x, o = Some x → f x = true.
Proof.
  destruct o as [y|]; simpl; [|by split]. split; [by intros Hf x [= <-]|]. intros Hf. by apply Hf.
Qed.

Lemma applies_in_force db now r uid : rule_applies db now r uid = true ↔ in_force db now uid r.
Proof.
  unfold rule_applies, in_time, rule_reaches_user, in_force.
  rewrite !andb_true_iff, !opt_test_spec, existsb_elem. setoid_rewrite Z.leb_le. split.
  - intros ((He & Hf & Ht) & g & Hg & H). apply andb_prop in H as [H Hs%text_eqb_true].
    apply andb_prop in H as [Hid%text_eqb_true (m & Hm & H)%existsb_elem].
    apply andb_prop in H as [? ?]. split_and!; try done. exists g, m.
    split_and!; try done; by apply text_eqb_true.
  - intros (He & Hf & Ht & g & m & Hg & Hid & Hs & Hm & Hmg & Hmu). split; [done|]. exists g. split; [done|].
    rewrite Hid, Hs, !text_eqb_refl, andb_true_r. apply existsb_elem. exists m. split; [done|].
    by rewrite Hmg, Hid, Hmu, !text_eqb_refl.
Qed.

Lemma accessible_spec JSON_EXTRACT now uid db :
  ∃ ids, GetAccessibleHostIDsForUser JSON_EXTRACT now uid db [] = (Ok ids, db, []) ∧
    ∀ hid, hid ∈ ids ↔ reaches JSON_EXTRACT db now uid hid.
Proof.
  unfold GetAccessibleHostIDsForUser, find, query, attempt. eexists. rewrite !bind_run. cbn [tail].
  split; [reflexivity|]. intros hid. cbn [default]. rewrite elem_of_remove_dups, elem_of_app.
  unfold reaches. split.
  - intros [Hm|Hd].
    + apply list_elem_of_fmap in Hm as (m & -> & [Hm (r & Hr & [Ha%applies_in_force Hx]%andb_prop)%existsb_elem]%elem_of_keep).
      apply existsb_elem in Hx as (rel & Hrel & [Hp%text_eqb_true Hg%text_eqb_true]%andb_prop).
      exists r. split; [done|]. split; [done|]. left. by exists rel, m.
    + apply list_elem_of_join in Hd as (l & Hid & Hl).
      apply list_elem_of_fmap in Hl as (r & -> & [Hr [Ha%applies_in_force Hn]%andb_prop]%elem_of_keep).
      exists r. split; [done|]. split; [done|]. right.
      destruct (JSON_EXTRACT (PermissionRule.HostIDs r)) as [ids|e] eqn:Ej; [|by apply not_elem_of_nil in Hid].
      apply elem_of_keep in Hid as [Hi Hne]. apply list_elem_of_fmap in Hi as (i & -> & Hi).
      split; [intros E; by rewrite E in Hn|]. split; [intros E; by rewrite E in Hne|]. by exists ids, i.
  - intros (r & Hr & Ha%applies_in_force & [(rel & m & Hrel & Hp & Hm & Hg & <-)|(Hn & Hne & ids & i & Ej & Hi & <-)]).
    + left. apply list_elem_of_fmap. exists m. split; [done|]. apply elem_of_keep. split; [done|].
      apply existsb_elem. exists r. split; [done|]. rewrite Ha. apply existsb_elem. exists rel. split; [done|].
      by rewrite Hp, Hg, !text_eqb_refl.
    + right. apply list_elem_of_join. eexists. split; [|apply list_elem_of_fmap; exists r; split; [reflexivity|] ].
      * rewrite Ej. apply elem_of_keep. split; [apply list_elem_of_fmap; by exists i|].
        by destruct (trim_quotes i).
      * apply elem_of_keep. split; [done|]. rewrite Ha. by destruct (PermissionRule.HostIDs r).
Qed.

(** ** What a write of a rule grants *)

Definition nonempty (ids : list text) : list text := keep (λ i, negb (is_empty i)) ids.

Lemma set_accounts_id db : set_rule_system_users db (rule_system_users db) = db.
Proof. by destruct db. Qed.
Lemma set_groups_id db : set_rule_host_groups db (rule_host_groups db) = db.
Proof. by destruct db. Qed.

(** The loops append one relation per id given, all of this rule. *)
Lemma relate_accounts_Ok rid ids db f db' f' :
  relate_accounts rid ids db f = (Ok (), db', f') →
  ∃ new, db' = set_rule_system_users db (rule_system_users db ++ new) ∧
    RuleSystemUser.SystemUserID <$> new = nonempty ids ∧
    Forall (λ rel, RuleSystemUser.PermissionRuleID rel = rid) new.
Proof.
  unfold relate_accounts. revert db f. induction ids as [|id ids IH]; intros db f Hr; simpl in Hr.
  - injection Hr as <- _. exists []. by rewrite app_nil_r, set_accounts_id.
  - apply bind_Ok in Hr as ([] & db1 & f1 & H1 & (new & -> & Hn & HF)%IH).
    unfold nonempty. cbn [keep]. destruct (is_empty id) eqn:Ei; simpl.
    + injection H1 as <- <-. exists new. done.
    + apply execute_Ok in H1. destruct (existsb _ _) in H1; [done|]. injection H1 as <-.
      eexists (_ :: new). split_and!.
      * cbn [rule_system_users set_rule_system_users]. by rewrite <- app_assoc.
      * exact (f_equal (cons id) Hn).
      * by constructor.
Qed.

Lemma relate_groups_Ok rid ids db f db' f' :
  relate_groups rid ids db f = (Ok (), db', f') →
  ∃ new, db' = set_rule_host_groups db (rule_host_groups db ++ new) ∧
    RuleHostGroup.HostGroupID <$> new = nonempty ids ∧
    Forall (λ rel, RuleHostGroup.PermissionRuleID rel = rid) new.
Proof.
  unfold relate_groups. revert db f. induction ids as [|id ids IH]; intros db f Hr; simpl in Hr.
  - injection Hr as <- _. exists []. by rewrite app_nil_r, set_groups_id.
  - apply bind_Ok in Hr as ([] & db1 & f1 & H1 & (new & -> & Hn & HF)%IH).
    unfold nonempty. cbn [keep]. destruct (is_empty id) eqn:Ei; simpl.
    + injection H1 as <- <-. exists new. done.
    + apply execute_Ok in H1. destruct (existsb _ _) in H1; [done|]. injection H1 as <-.
      eexists (_ :: new). split_and!.
      * cbn [rule_host_groups set_rule_host_groups]. by rewrite <- app_assoc.
      * exact (f_equal (cons id) Hn).
      * by constructor.
Qed.

Lemma account_test db r sid :
  rule_has_account db r sid = true ↔ ∃ rel, rel ∈ rule_system_users db ∧
    RuleSystemUser.PermissionRuleID rel = PermissionRule.ID r ∧ RuleSystemUser.SystemUserID rel = sid.
Proof.
  unfold rule_has_account. rewrite existsb_elem. split; intros (rel & Hrel & H); exists rel;
    (split; [done|]).
  - apply andb_prop in H as [?%text_eqb_true ?%text_eqb_true]. done.
  - destruct H as [-> ->]. by rewrite !text_eqb_refl.
Qed.

(** The relations of a table after [new] ones of rule [rid] replaced or joined
    the old. *)
Lemma new_accounts db old new ids rid r sid :
  RuleSystemUser.SystemUserID <$> new = nonempty ids →
  Forall (λ rel, RuleSystemUser.PermissionRuleID rel = rid) new →
  rule_has_account (set_rule_system_users db (old ++ new)) r sid = true ↔
  rule_has_account (set_rule_system_users db old) r sid = true ∨
  (PermissionRule.ID r = rid ∧ sid ∈ ids ∧ sid ≠ []).
Proof.
  intros Hn HF. rewrite !account_test. cbn [rule_system_users set_rule_system_users].
  assert (sid ∈ ids ∧ sid ≠ [] ↔ ∃ rel, rel ∈ new ∧ RuleSystemUser.SystemUserID rel = sid) as ->.
  { transitivity (sid ∈ nonempty ids).
    - unfold nonempty. rewrite elem_of_keep, negb_true_iff. destruct sid; naive_solver.
    - rewrite <- Hn, list_elem_of_fmap. naive_solver. }
  rewrite Forall_forall in HF. setoid_rewrite elem_of_app. split.
  - intros (rel & [Hrel|Hrel] & Hp & Hs); [left; eauto|right].
    rewrite <- Hp, (HF rel Hrel). eauto.
  - intros [(rel & Hrel & H)|(<- & rel & Hrel & Hs)]; [eauto|].
    exists rel. split_and!; [by right| |done]. by apply HF.
Qed.

Lemma new_groups db old new ids rid r hid :
  RuleHostGroup.HostGroupID <$> new = nonempty ids →
  Forall (λ rel, RuleHostGroup.PermissionRuleID rel = rid) new →
  rule_groups_host (set_rule_host_groups db (old ++ new)) r hid = true ↔
  rule_groups_host (set_rule_host_groups db old) r hid = true ∨
  (PermissionRule.ID r = rid ∧ ∃ m, m ∈ host_group_members db ∧
     HostGroupMember.GroupID m ∈ ids ∧ HostGroupMember.GroupID m ≠ [] ∧
     HostGroupMember.HostID m = hid).
Proof.
  intros Hn HF. rewrite !groups_host_spec. cbn [rule_host_groups host_group_members set_rule_host_groups].
  assert (∀ g, g ∈ ids ∧ g ≠ [] ↔ ∃ rel, rel ∈ new ∧ RuleHostGroup.HostGroupID rel = g) as Hg.
  { intros g. transitivity (g ∈ nonempty ids).
    - unfold nonempty. rewrite elem_of_keep, negb_true_iff. destruct g; naive_solver.
    - rewrite <- Hn, list_elem_of_fmap. naive_solver. }
  rewrite Forall_forall in HF. setoid_rewrite elem_of_app. split.
  - intros (rel & m & [Hrel|Hrel] & Hp & Hm & Hg' & Hs); [left; eauto 10|right].
    rewrite <- Hp, (HF rel Hrel). split; [done|]. exists m. split; [done|].
    assert (HostGroupMember.GroupID m ∈ ids ∧ HostGroupMember.GroupID m ≠ []) as [? ?];
      [|done]. apply Hg. eauto.
  - intros [(rel & m & Hrel & H)|(<- & m & Hm & Hin & Hne & Hs)]; [eauto 10|].
    destruct (proj1 (Hg _) (conj Hin Hne)) as (rel & Hrel & Hs').
    exists rel, m. split_and!; try done; [by right|]. by apply HF.
Qed.

Lemma execute_bind (s : Db → result db_error Db) (k : unit → DB unit) db f db' f' :
  (execute s ≫= k) db f = (Ok (), db', f') →
  ∃ db1 f1, s db = Ok db1 ∧ k () db1 f1 = (Ok (), db', f').
Proof. intros ([] & db1 & f1 & H1%execute_Ok & H2)%bind_Ok. eauto. Qed.

Section write_facts.
Context (JSON_CONTAINS : text → text → bool).

(** The hosts a set of host groups and a list of host ids cover. *)
Definition listed_host (db : Db) (rule : PermissionRule.t) (groups : list text) (hid : text) : Prop :=
  (∃ m, m ∈ host_group_members db ∧ HostGroupMember.GroupID m ∈ groups ∧
        HostGroupMember.GroupID m ≠ [] ∧ HostGroupMember.HostID m = hid) ∨
  (PermissionRule.HostIDs rule ≠ [] ∧ JSON_CONTAINS (PermissionRule.HostIDs rule) hid = true).

Lemma covers_spec db r hid :
  rule_covers_host JSON_CONTAINS db r hid = true ↔ rule_groups_host db r hid = true ∨
  (PermissionRule.HostIDs r ≠ [] ∧ JSON_CONTAINS (PermissionRule.HostIDs r) hid = true).
Proof.
  unfold rule_covers_host. rewrite orb_true_iff, andb_true_iff, negb_true_iff.
  destruct (PermissionRule.HostIDs r); naive_solver.
Qed.

Lemma no_orphan_account db r rid sid :
  Forall (λ rel, RuleSystemUser.PermissionRuleID rel ≠ rid) (rule_system_users db) →
  PermissionRule.ID r = rid → rule_has_account db r sid ≠ true.
Proof.
  intros HF <- (rel & Hrel & Hp & _)%account_test. rewrite Forall_forall in HF. by apply (HF rel).
Qed.

Lemma no_orphan_group db r rid hid :
  Forall (λ rel, RuleHostGroup.PermissionRuleID rel ≠ rid) (rule_host_groups db) →
  PermissionRule.ID r = rid → rule_groups_host db r hid ≠ true.
Proof.
  intros HF <- (rel & m & Hrel & Hp & _)%groups_host_spec. rewrite Forall_forall in HF.
  by apply (HF rel).
Qed.

(** Creating a rule grants exactly what it says: afterwards an account may be
    used on a host when it could before, or when the new rule is in force for the
    user, names the account, and lists the host or one of its groups; nobody
    else gains or loses anything.  The new rule is enabled, whatever was asked. *)
Theorem create_grants_exactly rule accounts groups db f db' f' now uid hid sid :
  RuleRepository.CreateWithRelations rule accounts groups db f = (Ok (), db', f') →
  Forall (λ rel, RuleSystemUser.PermissionRuleID rel ≠ PermissionRule.ID rule) (rule_system_users db) →
  Forall (λ rel, RuleHostGroup.PermissionRuleID rel ≠ PermissionRule.ID rule) (rule_host_groups db) →
  grants JSON_CONTAINS db' now uid hid sid ↔
  grants JSON_CONTAINS db now uid hid sid ∨
  (rule_applies db now (stored rule) uid = true ∧ sid ∈ accounts ∧ sid ≠ [] ∧ listed_host db rule groups hid).
Proof.
  intros Hc HoA HoG. apply Transaction_Ok, execute_bind in Hc as (db1 & f1 & Hdb1 & Hc).
  destruct (existsb _ _) eqn:Ex in Hdb1; [done|]. injection Hdb1 as <-.
  apply bind_Ok in Hc as ([] & db2 & f2 & (newA & -> & HnA & HFA)%relate_accounts_Ok & Hc).
  apply relate_groups_Ok in Hc as (newG & -> & HnG & HFG).
  assert (∀ r, r ∈ permission_rules db → PermissionRule.ID r ≠ PermissionRule.ID rule) as Hfresh.
  { intros r Hr E. assert (existsb (λ r, text_eqb (PermissionRule.ID r) (PermissionRule.ID rule))
      (permission_rules db) = true); [|congruence].
    apply existsb_elem. exists r. by rewrite E, text_eqb_refl. }
  set (db1 := set_rules db _). set (db2 := set_rule_system_users db1 _).
  pose proof (λ r, new_accounts db1 (rule_system_users db) newA accounts _ r sid HnA HFA) as HA.
  pose proof (λ r, new_groups db2 (rule_host_groups db) newG groups _ r hid HnG HFG) as HG.
  unfold grants. setoid_rewrite covers_spec. split.
  - intros (r & Hr & HA'%HA & Hap & Hcov). apply elem_of_app in Hr as [Hr|Hr].
    + left. exists r. split_and!; try done.
      * destruct HA' as [?|[E _]]; [done|]. by destruct (Hfresh r Hr).
      * destruct Hcov as [[?|[E _]]%HG|?]; [by left|by destruct (Hfresh r Hr)|by right].
    + right. apply list_elem_of_singleton in Hr as ->. destruct HA' as [Hold|(_ & ? & ?)].
      { by destruct (no_orphan_account db (stored rule) _ sid HoA eq_refl). }
      split_and!; try done. destruct Hcov as [[Hold|(_ & ?)]%HG|?]; [|by left|by right].
      by destruct (no_orphan_group db (stored rule) _ hid HoG eq_refl).
  - intros [(r & Hr & HA' & Hap & Hcov)|(Hap & Hin & Hne & Hl)].
    + exists r. split_and!; [apply elem_of_app; by left|apply HA; by left|done|].
      destruct Hcov as [?|?]; [left; apply HG; by left|by right].
    + exists (stored rule). split_and!; [apply elem_of_app; right; left|apply HA; by right|done|].
      destruct Hl as [?|?]; [left; apply HG; by right|by right].
Qed.

End write_facts.

(** Updating a rule replaces its relations by exactly the accounts and host
    groups given, and leaves the relations of every other rule alone. *)
Theorem update_replaces_relations assign rule accounts groups db f db' f' r sid hid :
  RuleRepository.UpdateWithRelations assign rule accounts groups db f = (Ok (), db', f') →
  (PermissionRule.ID r = PermissionRule.ID rule →
    (rule_has_account db' r sid = true ↔ sid ∈ accounts ∧ sid ≠ []) ∧
    (rule_groups_host db' r hid = true ↔ ∃ m, m ∈ host_group_members db ∧
       HostGroupMember.GroupID m ∈ groups ∧ HostGroupMember.GroupID m ≠ [] ∧
       HostGroupMember.HostID m = hid)) ∧
  (PermissionRule.ID r ≠ PermissionRule.ID rule →
    (rule_has_account db' r sid = true ↔ rule_has_account db r sid = true) ∧
    (rule_groups_host db' r hid = true ↔ rule_groups_host db r hid = true)).
Proof.
  intros Hc. apply Transaction_Ok, execute_bind in Hc as (db1 & f1 & [= <-] & Hc).
  apply execute_bind in Hc as (db2 & f2 & [= <-] & Hc).
  apply bind_Ok in Hc as ([] & db3 & f3 & (newA & -> & HnA & HFA)%relate_accounts_Ok & Hc).
  apply execute_bind in Hc as (db4 & f4 & [= <-] & Hc).
  apply relate_groups_Ok in Hc as (newG & -> & HnG & HFG).
  set (oldA := keep _ (rule_system_users _)) in *.
  set (oldG := keep _ (rule_host_groups _)) in *.
  pose proof (new_accounts db oldA newA accounts _ r sid HnA HFA) as HA.
  pose proof (new_groups db oldG newG groups _ r hid HnG HFG) as HG.
  assert (rule_has_account (set_rule_system_users db oldA) r sid = true ↔
    PermissionRule.ID r ≠ PermissionRule.ID rule ∧ rule_has_account db r sid = true) as HoA.
  { rewrite !account_test. cbn [rule_system_users set_rule_system_users]. unfold oldA. split.
    - intros (rel & [Hrel Hne]%elem_of_keep & <- & Hs). split; [|by exists rel].
      intros Eid. by rewrite Eid, text_eqb_refl in Hne.
    - intros (Hne & rel & Hrel & Hp & Hs). exists rel. split_and!; [|done|done].
      apply elem_of_keep. split; [done|]. apply negb_true_iff, bool_decide_eq_false.
      intros Eid. apply Hne. by rewrite <- Hp. }
  assert (rule_groups_host (set_rule_host_groups db oldG) r hid = true ↔
    PermissionRule.ID r ≠ PermissionRule.ID rule ∧ rule_groups_host db r hid = true) as HoG.
  { rewrite !groups_host_spec. cbn [rule_host_groups host_group_members set_rule_host_groups].
    unfold oldG. split.
    - intros (rel & m & [Hrel Hne]%elem_of_keep & <- & Hm). split; [|by exists rel, m].
      intros Eid. by rewrite Eid, text_eqb_refl in Hne.
    - intros (Hne & rel & m & Hrel & Hp & Hm). exists rel, m. split_and!; [|done|apply Hm..].
      apply elem_of_keep. split; [done|]. apply negb_true_iff, bool_decide_eq_false.
      intros Eid. apply Hne. by rewrite <- Hp. }
  split; intros E;
    (split; [etransitivity; [exact HA|]; rewrite HoA|etransitivity; [exact HG|]; rewrite HoG]; tauto).
Qed.

(** An update that asks to disable a rule or to lift its end date does
    neither: gorm's [Updates] with a struct skips the zero fields, so every rule
    stays as enabled as it was and keeps its dates (and the administrator is told
    the update succeeded). *)
Theorem permission_never_disabled assign rule accounts groups db f db' f' :
  (∀ rq r, PermissionRule.Enabled rq = false →
     PermissionRule.Enabled (assign rq r) = PermissionRule.Enabled r) →
  (∀ rq r, PermissionRule.ValidTo rq = None →
     PermissionRule.ValidTo (assign rq r) = PermissionRule.ValidTo r) →
  RuleRepository.UpdateWithRelations assign rule accounts groups db f = (Ok (), db', f') →
  (PermissionRule.Enabled rule = false →
     PermissionRule.Enabled <$> permission_rules db' = PermissionRule.Enabled <$> permission_rules db) ∧
  (PermissionRule.ValidTo rule = None →
     PermissionRule.ValidTo <$> permission_rules db' = PermissionRule.ValidTo <$> permission_rules db).
Proof.
  intros He Hv Hc. apply Transaction_Ok, execute_bind in Hc as (db1 & f1 & [= <-] & Hc).
  apply execute_bind in Hc as (db2 & f2 & [= <-] & Hc).
  apply bind_Ok in Hc as ([] & db3 & f3 & (newA & -> & _)%relate_accounts_Ok & Hc).
  apply execute_bind in Hc as (db4 & f4 & [= <-] & Hc).
  apply relate_groups_Ok in Hc as (newG & -> & _).
  cbn [permission_rules set_rules set_rule_system_users set_rule_host_groups].
  rewrite <- !list_fmap_compose. split; intros E; apply list_fmap_ext; intros _ r _;
    simpl; unfold updated; destruct (text_eqb _ _); auto.
Qed.

(** Assigning groups to a user is not atomic: when the second statement
    fails the error is returned with the old memberships already deleted, so the
    user is left in no group; when both run the user is in exactly the groups
    given. *)
Theorem assign_groups_outcomes uid groups by_ db e :
  groups ≠ [] →
  (res (AssignGroupsToUser uid groups by_ db [None; Some e]) = Err e ∧
   ∀ gid, is_member (after (AssignGroupsToUser uid groups by_ db [None; Some e])) uid gid = false) ∧
  (res (AssignGroupsToUser uid groups by_ db []) = Ok () ∧
   ∀ gid, is_member (after (AssignGroupsToUser uid groups by_ db [])) uid gid = true ↔ gid ∈ groups).
Proof.
  intros Hne. unfold AssignGroupsToUser. destruct (is_empty groups) eqn:E; [by destruct groups|].
  set (rest := keep (λ m, negb (text_eqb (UserGroupMember.UserID m) uid)) (user_group_members db)).
  assert (∀ gid, is_member (set_members db rest) uid gid = false) as Hgone.
  { intros gid. apply not_true_iff_false. rewrite member_test.
    intros (m & [_ Hm]%elem_of_keep & _ & Hu). by rewrite Hu, text_eqb_refl in Hm. }
  split; [split; [done|exact Hgone]|]. split; [done|]. intros gid.
  change (after _) with (set_members db (rest ++ new_members uid by_
    (next_id UserGroupMember.ID rest) groups)).
  assert (∀ id, (∃ m, m ∈ new_members uid by_ id groups ∧ UserGroupMember.UserGroupID m = gid ∧
    UserGroupMember.UserID m = uid) ↔ gid ∈ groups) as Hnew.
  { clear. induction groups as [|g gs IH]; intros id; cbn [new_members].
    - split; [by intros (m & []%not_elem_of_nil & _)|by intros []%not_elem_of_nil].
    - rewrite elem_of_cons, <- (IH (id + 1)). split.
      + intros (m & [->|Hm]%elem_of_cons & Hg & Hu); [left; by symmetry|right; eauto].
      + intros [->|(m & Hm & H)]; [eexists; split; [left|done]|].
        exists m. split; [by right|done]. }
  rewrite member_test. cbn [user_group_members set_members]. rewrite <- (Hnew (next_id UserGroupMember.ID rest)).
  split.
  - intros (m & [Hm|Hm]%elem_of_app & Hg & Hu); [|eauto].
    assert (is_member (set_members db rest) uid gid = true) as Hi; [|by rewrite Hgone in Hi].
    apply member_test. eauto.
  - intros (m & Hm & H). exists m. split; [|done]. apply elem_of_app. by right.
Qed.

(** ** A small database, and where the functions disagree *)

Definition sample_rule : PermissionRule.t :=
  {| PermissionRule.ID := txt "r1"; PermissionRule.Name := txt "ops";
     PermissionRule.UserGroupID := txt "ug1"; PermissionRule.HostGroupID := None;
     PermissionRule.HostIDs := []; PermissionRule.SystemUserID := None;
     PermissionRule.ValidFrom := None; PermissionRule.ValidTo := Some 100;
     PermissionRule.Enabled := true; PermissionRule.Priority := 0 |}.

Definition sample_su (status : text) : SystemUser.t :=
  {| SystemUser.ID := txt "su1"; SystemUser.Name := txt "root"; SystemUser.Username := txt "root";
     SystemUser.AuthType := txt "password"; SystemUser.Password := txt "secret";
     SystemUser.PrivateKey := []; SystemUser.Passphrase := []; SystemUser.Protocol := txt "ssh";
     SystemUser.Priority := 0; SystemUser.Status := status |}.

Definition sample_db (su_status ug_status : text) : Db :=
  {| users := []; system_users := [sample_su su_status];
     user_groups := [{| UserGroup.ID := txt "ug1"; UserGroup.Name := txt "ops";
                        UserGroup.Priority := 0; UserGroup.Status := ug_status |}];
     user_group_members := [{| UserGroupMember.ID := 1; UserGroupMember.UserGroupID := txt "ug1";
                               UserGroupMember.UserID := txt "u1"; UserGroupMember.AddedBy := [] |}];
     permission_rules := [sample_rule];
     rule_system_users := [{| RuleSystemUser.ID := 1; RuleSystemUser.PermissionRuleID := txt "r1";
                              RuleSystemUser.SystemUserID := txt "su1" |}];
     rule_host_groups := [{| RuleHostGroup.ID := 1; RuleHostGroup.PermissionRuleID := txt "r1";
                             RuleHostGroup.HostGroupID := txt "hg1" |}];
     host_groups := [];
     host_group_members := [{| HostGroupMember.ID := 1; HostGroupMember.GroupID := txt "hg1";
                               HostGroupMember.HostID := txt "h1"; HostGroupMember.AddedBy := [] |}];
     hosts := []; proxies := []; settings := []; aux := empty_aux |}.

Definition no_json (_ _ : text) : bool := false.

(** Where the functions disagree: the check of one account accepts an account
    that is switched off (and that the list leaves out); the host groups shown to
    a user include those of a disabled user group, on whose hosts no account is
    available; and [ValidateHostInRule] takes a rule without the old columns for
    a rule on all hosts, though the queries grant it only its host groups. *)
Theorem access_tests_disagree :
  (res (GetAvailableSystemUsersForUser no_json 50 (txt "u1") (txt "h1")
          (sample_db (txt "inactive") active) []) = Ok [] ∧
   res (CheckUserHasPermission no_json 50 (txt "u1") (txt "h1") (txt "su1")
          (sample_db (txt "inactive") active) []) = Ok true) ∧
  (res (GetUserHostGroupIDs 50 (txt "u1") (sample_db active (txt "inactive")) []) = Ok [txt "hg1"] ∧
   res (GetAvailableSystemUsersForUser no_json 50 (txt "u1") (txt "h1")
          (sample_db active (txt "inactive")) []) = Ok []) ∧
  (res (ValidateHostInRule (λ _, None) (txt "r1") (txt "h2") (sample_db active active) []) = Ok true ∧
   res (GetAvailableSystemUsersForUser no_json 50 (txt "u1") (txt "h2")
          (sample_db active active) []) = Ok []).
Proof. vm_compute. done. Qed.

(** ** Witnesses *)

Lemma available_iff_checked_witness :
  let db := sample_db active active in
  sample_su active ∈ [sample_su active] ↔
  sample_su active ∈ system_users db ∧ SystemUser.Status (sample_su active) = active ∧ true = true.
Proof.
  apply (available_iff_checked no_json 50 (txt "u1") (txt "h1") (sample_db active active) [] []
    [sample_su active] (sample_db active active) [] (sample_su active) true
    (sample_db active active) []); vm_compute; reflexivity.
Defined.

Lemma granted_host_is_shown_witness :
  (∃ gid m, gid ∈ [txt "hg1"] ∧ m ∈ host_group_members (sample_db active active) ∧
     HostGroupMember.GroupID m = gid ∧ HostGroupMember.HostID m = txt "h1") ∧ txt "h1" ∈ [txt "h1"].
Proof.
  apply (granted_host_is_shown no_json (λ _, Ok []) 50 (txt "u1") (txt "h1")
    (sample_db active active) [] [] [sample_su active] (sample_db active active)
    [] [txt "hg1"] (sample_db active active) [] [] [txt "h1"] (sample_db active active) []
    (sample_su active)).
  - vm_compute. reflexivity.
  - left.
  - vm_compute. reflexivity.
  - vm_compute. reflexivity.
  - repeat constructor.
Defined.

Definition empty_rules : Db := set_rule_host_groups (set_rule_system_users
  (set_rules (sample_db active active) []) []) [].

Lemma create_grants_exactly_witness :
  ∃ db' f', RuleRepository.CreateWithRelations sample_rule [txt "su1"] [txt "hg1"] empty_rules []
            = (Ok (), db', f') ∧
  (grants no_json db' 50 (txt "u1") (txt "h1") (txt "su1") ↔
   grants no_json empty_rules 50 (txt "u1") (txt "h1") (txt "su1") ∨
   (rule_applies empty_rules 50 (stored sample_rule) (txt "u1") = true ∧ txt "su1" ∈ [txt "su1"] ∧
    txt "su1" ≠ [] ∧ listed_host no_json empty_rules sample_rule [txt "hg1"] (txt "h1"))).
Proof.
  eexists _, _. split; [reflexivity|].
  eapply (create_grants_exactly no_json sample_rule [txt "su1"] [txt "hg1"] empty_rules []).
  - reflexivity.
  - constructor.
  - constructor.
Defined.

(** [Updates] with a struct, as gorm documents it. *)
Definition assign_rule (rq r : PermissionRule.t) : PermissionRule.t :=
  let pick (a b : text) := if is_empty a then b else a in
  {| PermissionRule.ID := pick (PermissionRule.ID rq) (PermissionRule.ID r);
     PermissionRule.Name := pick (PermissionRule.Name rq) (PermissionRule.Name r);
     PermissionRule.UserGroupID := pick (PermissionRule.UserGroupID rq) (PermissionRule.UserGroupID r);
     PermissionRule.HostGroupID := PermissionRule.HostGroupID rq <|> PermissionRule.HostGroupID r;
     PermissionRule.HostIDs := pick (PermissionRule.HostIDs rq) (PermissionRule.HostIDs r);
     PermissionRule.SystemUserID := PermissionRule.SystemUserID rq <|> PermissionRule.SystemUserID r;
     PermissionRule.ValidFrom := PermissionRule.ValidFrom rq <|> PermissionRule.ValidFrom r;
     PermissionRule.ValidTo := PermissionRule.ValidTo rq <|> PermissionRule.ValidTo r;
     PermissionRule.Enabled := PermissionRule.Enabled rq || PermissionRule.Enabled r;
     PermissionRule.Priority := if PermissionRule.Priority rq =? 0 then PermissionRule.Priority r
                                else PermissionRule.Priority rq |}.

Definition disabling_request : PermissionRule.t :=
  {| PermissionRule.ID := txt "r1"; PermissionRule.Name := txt "ops";
     PermissionRule.UserGroupID := txt "ug1"; PermissionRule.HostGroupID := None;
     PermissionRule.HostIDs := []; PermissionRule.SystemUserID := None;
     PermissionRule.ValidFrom := None; PermissionRule.ValidTo := None;
     PermissionRule.Enabled := false; PermissionRule.Priority := 0 |}.

Lemma update_replaces_relations_witness :
  ∃ db' f', RuleRepository.UpdateWithRelations assign_rule disabling_request [txt "su2"] []
      (sample_db active active) [] = (Ok (), db', f') ∧
    (rule_has_account db' sample_rule (txt "su1") = true ↔
     txt "su1" ∈ [txt "su2"] ∧ txt "su1" ≠ []).
Proof.
  eexists _, _. split; [reflexivity|].
  eapply (update_replaces_relations assign_rule disabling_request [txt "su2"] []
    (sample_db active active) [] _ _ sample_rule (txt "su1") (txt "h1")).
  - reflexivity.
  - reflexivity.
Defined.

Lemma permission_never_disabled_witness :
  ∃ db' f', RuleRepository.UpdateWithRelations assign_rule disabling_request [txt "su1"] []
      (sample_db active active) [] = (Ok (), db', f') ∧
    PermissionRule.Enabled <$> permission_rules db' = [true] ∧
    PermissionRule.ValidTo <$> permission_rules db' = [Some 100].
Proof.
  eexists _, _. split; [reflexivity|].
  edestruct (permission_never_disabled assign_rule disabling_request [txt "su1"] []
    (sample_db active active) []) as [H1 H2].
  - intros rq r E. simpl. by rewrite E.
  - intros rq r E. simpl. by rewrite E.
  - reflexivity.
  - split; [exact (H1 eq_refl)|exact (H2 eq_refl)].
Defined.

Lemma assign_groups_outcomes_witness :
  is_member (after (AssignGroupsToUser (txt "u1") [txt "ug2"] [] (sample_db active active)
                      [None; Some DBFailure])) (txt "u1") (txt "ug1") = false.
Proof.
  destruct (assign_groups_outcomes (txt "u1") [txt "ug2"] [] (sample_db active active) DBFailure)
    as [[_ H] _]; [discriminate|].
  exact (H (txt "ug1")).
Defined.
