(* ===== verification/Selector.v ===== *)
(** * The host selector

    [HostSelector] of [internal/sshserver/terminal/selector.go] over the
    repositories of hosts, host groups and users: what an administrator, a user
    and the menus see.  Rows come in table order (the sources' [ORDER BY] only
    sets the display order); [LIKE] of the database is a parameter.  An error the
    code ignores ([if err == nil]) is an [attempt]. *)

From stdpp Require Import base list strings sets.
From Stdlib Require Import ZArith Lia.
From S2P Require Import Prelude GoStrings Gorm Models Database Repositories Permissions Menu HostSession.
Local Open Scope Z_scope.

(** ** The selector *)

(** Which repositories the selector was built with; the host repository always. *)
Record HostSelector := {
  groupRepo : bool;
  userRepo : bool;
  systemUserRepo : bool
}.

Definition NewHostSelectorV2 : HostSelector :=
  {| groupRepo := true; userRepo := true; systemUserRepo := true |}.

Definition convertToHostInfo (host : Host.t) : HostInfo.t :=
  {| HostInfo.ID := Host.ID host; HostInfo.Name := Host.Name host; HostInfo.IP := Host.IP host;
     HostInfo.Port := Host.Port host; HostInfo.Username := []; HostInfo.Password := [];
     HostInfo.Tags := []; HostInfo.DeviceType := Host.DeviceType host;
     HostInfo.Status := Host.Status host |}.

Definition toGroupInfo (group : HostGroup.t) : HostGroupInfo.t :=
  {| HostGroupInfo.ID := HostGroup.ID group; HostGroupInfo.Name := HostGroup.Name group;
     HostGroupInfo.Description := HostGroup.Description group;
     HostGroupInfo.HostCount := HostGroup.HostCount group;
     HostGroupInfo.OnlineCount := HostGroup.OnlineCount group |}.

Definition NotAvailable {A} : DB A := raise DBFailure.

Section selector.
Context (like_host : text → Host.t → bool).
Context (JSON_CONTAINS : text → text → bool) (now : Z) (s : HostSelector).

(** The user is an administrator; any error of the lookup says no. *)
Definition isAdmin (userID : text) : DB bool :=
  if userRepo s then
    user ← attempt (FindUserByID userID);
    mret match user with
         | Some user => text_eqb (User.Role user) (txt "admin")
         | None => false
         end
  else mret false.

(** The host ids of the new architecture: every host is tried. *)
Fixpoint accessible_new (userID : text) (hs : list Host.t) : DB (list text) :=
  match hs with
  | [] => mret []
  | host :: hs =>
      sus ← attempt (GetAvailableSystemUsersForUser JSON_CONTAINS now userID (Host.ID host));
      ids ← accessible_new userID hs;
      mret (match sus with
            | Some (_ :: _) => Host.ID host :: ids
            | _ => ids
            end)
  end.

(** The host ids of the old one: the hosts of the groups of the user. *)
Fixpoint accessible_old (groupIDs : list text) : DB (list text) :=
  match groupIDs with
  | [] => mret []
  | g :: gs =>
      hs ← attempt (GetHostsByGroupIDWithPagination g 1 1000);
      ids ← accessible_old gs;
      mret ((match hs with Some (hs, _) => Host.ID <$> hs | None => [] end) ++ ids)
  end.

Definition accessibleHostIDs (userID : text) : DB (list text) :=
  if systemUserRepo s && groupRepo s then
    all ← attempt (FindAllHosts like_host 1 10000 []);
    match all with
    | Some (allHosts, _) => accessible_new userID allHosts
    | None => mret []
    end
  else
    grouped ← (if userRepo s && groupRepo s then
                 gs ← attempt (GetUserGroups userID);
                 match gs with Some gs => accessible_old gs | None => mret [] end
               else mret []);
    direct ← (if userRepo s then
                ids ← attempt (GetUserHosts userID); mret (default [] ids)
              else mret []);
    mret (grouped ++ direct).

Fixpoint host_infos (ids : list text) : DB (list HostInfo.t) :=
  match ids with
  | [] => mret []
  | id :: ids =>
      host ← attempt (FindHostByID id);
      infos ← host_infos ids;
      mret (match host with Some host => convertToHostInfo host :: infos | None => infos end)
  end.

Definition ListAvailableHosts (userID : text) : DB (list HostInfo.t) :=
  admin ← isAdmin userID;
  if admin : bool then
    r ← FindAllHosts like_host 1 1000 [];
    mret (convertToHostInfo <$> r.1)
  else
    ids ← accessibleHostIDs userID;
    host_infos (remove_dups ids).

Definition GetHostInfo (hostID : text) : DB HostInfo.t :=
  host ← FindHostByID hostID; mret (convertToHostInfo host).

Definition ListGroups : DB (list HostGroupInfo.t) :=
  if negb (groupRepo s) then NotAvailable
  else groups ← FindAllWithStats; mret (toGroupInfo <$> groups).

Definition ListGroupsForUser (userID : text) : DB (list HostGroupInfo.t) :=
  if negb (groupRepo s) then NotAvailable
  else
    admin ← isAdmin userID;
    if admin : bool then ListGroups
    else if negb (userRepo s) then ListGroups
    else
      hostGroupIDs ← GetUserHostGroupIDs now userID;
      if is_empty hostGroupIDs then mret []
      else
        allGroups ← FindAllWithStats;
        mret (toGroupInfo <$> keep (λ g, existsb (text_eqb (HostGroup.ID g)) hostGroupIDs) allGroups).

Definition ListHostsByGroup (groupID : text) (page pageSize : Z) : DB (list HostInfo.t * Z) :=
  if negb (groupRepo s) then NotAvailable
  else
    r ← GetHostsByGroupIDWithPagination groupID page pageSize;
    mret (convertToHostInfo <$> r.1, r.2).

Definition SearchHosts (keyword : text) : DB (list HostInfo.t) :=
  if is_empty keyword then ListAvailableHosts []
  else
    r ← FindAllHosts like_host 1 100 keyword;
    mret (convertToHostInfo <$> r.1).
End selector.

(** ** What the selector lists *)

Section selector_facts.
Context (like_host : text → Host.t → bool) (JSON_CONTAINS : text → text → bool) (now : Z)
  (s : HostSelector).
Local Notation ListHosts := (ListAvailableHosts like_host JSON_CONTAINS now s).
Local Notation accessible := (accessible_new JSON_CONTAINS now).

Lemma reads_accessible_new uid hs : reads (accessible uid hs).
Proof.
  induction hs as [|h hs IH]; simpl; [apply preserves_ret, _|].
  unfold GetAvailableSystemUsersForUser. preserves_tac; try done.
Qed.

(** The ids collected are those of hosts tried and granted. *)
Lemma accessible_sound uid hs db f ids db' f' hid :
  accessible uid hs db f = (Ok ids, db', f') → hid ∈ ids →
  ∃ h su, h ∈ hs ∧ Host.ID h = hid ∧ su ∈ system_users db ∧ SystemUser.Status su = active ∧
          grants JSON_CONTAINS db now uid hid (SystemUser.ID su).
Proof.
  revert f ids db' f'. induction hs as [|h hs IH]; intros f ids db' f' Hr Hin; simpl in Hr.
  { injection Hr as <- _ _. by apply not_elem_of_nil in Hin. }
  apply bind_Ok in Hr as (o & db1 & f1 & Ho & Hr).
  assert (db1 = db) as ->.
  { eapply (reads_run _ _ _ _ _ _ _ Ho). Unshelve. unfold GetAvailableSystemUsersForUser. preserves_tac. }
  apply bind_Ok in Hr as (ids1 & db2 & f2 & Hids & Hr). injection Hr as <- _ _.
  assert (hid ∈ ids1 ∨ (hid = Host.ID h ∧ ∃ su l, o = Some (su :: l))) as [Hin1|[-> (su & l & ->)]].
  { destruct o as [[|su l]|]; [by left| |by left].
    apply elem_of_cons in Hin as [->|Hin]; [right; eauto|by left]. }
  - destruct (IH _ _ _ _ Hids Hin1) as (h' & su & Hh' & H). exists h', su. split; [by right|done].
  - apply attempt_Ok in Ho as [(a & [= <-] & Ha)|(e & ? & _)]; [|done].
    assert (su ∈ su :: l) as Hsu by left.
    apply (available_spec _ _ _ _ _ _ _ _ _ su Ha) in Hsu as (H1 & H2 & H3).
    exists h, su. split_and!; [left|done..].
Qed.

Lemma accessible_complete uid hs db h su :
  h ∈ hs → su ∈ system_users db → SystemUser.Status su = active →
  grants JSON_CONTAINS db now uid (Host.ID h) (SystemUser.ID su) →
  ∃ ids, accessible uid hs db [] = (Ok ids, db, []) ∧ Host.ID h ∈ ids.
Proof.
  intros Hh Hsu Hst Hg.
  assert (∃ ids, accessible uid hs db [] = (Ok ids, db, []) ∧ (h ∈ hs → Host.ID h ∈ ids)) as (ids & E & Hi);
    [|exists ids; split; [done|by apply Hi]]. clear Hh.
  induction hs as [|x hs (ids & E & Hi)]; [eexists; split; [reflexivity|by intros ?%not_elem_of_nil]|].
  cbn [accessible_new]. rewrite bind_run.
  destruct (GetAvailableSystemUsersForUser JSON_CONTAINS now uid (Host.ID x) db [])
    as [[r db1] f1] eqn:Ea.
  assert (∃ l, r = Ok l ∧ db1 = db ∧ f1 = []) as (l & -> & -> & ->).
  { unfold GetAvailableSystemUsersForUser, find, query in Ea. injection Ea as <- <- <-. eauto. }
  unfold attempt. rewrite Ea, bind_run, E. eexists. split; [reflexivity|].
  intros [->|Hin]%elem_of_cons.
  - assert (su ∈ l) as Hl.
    { apply (available_spec _ _ _ _ _ _ _ _ _ su Ea). done. }
    destruct l; [by apply not_elem_of_nil in Hl|left].
  - destruct l; [by apply Hi|right; by apply Hi].
Qed.

Lemma host_infos_sound ids db f l db' f' x :
  host_infos ids db f = (Ok l, db', f') → x ∈ l →
  ∃ h, h ∈ hosts db ∧ Host.ID h ∈ ids ∧ x = convertToHostInfo h.
Proof.
  revert f l db' f'. induction ids as [|id ids IH]; intros f l db' f' Hr Hin; simpl in Hr.
  { injection Hr as <- _ _. by apply not_elem_of_nil in Hin. }
  apply bind_Ok in Hr as (o & db1 & f1 & Ho & Hr).
  assert (db1 = db) as ->.
  { eapply (reads_run _ _ _ _ _ _ _ Ho). Unshelve. unfold FindHostByID. preserves_tac. }
  apply bind_Ok in Hr as (l1 & db2 & f2 & Hl & Hr). injection Hr as <- _ _.
  destruct o as [h|].
  - apply attempt_Ok in Ho as [(a & [= <-] & Ha)|(e & ? & _)]; [|done].
    apply query_Ok in Ha as [Ha _]. destruct (keep _ _) as [|h0 r] eqn:Ek in Ha; [done|].
    injection Ha as ->.
    assert (h ∈ hosts db ∧ text_eqb (Host.ID h) id = true) as [Hh Hid%text_eqb_true].
    { apply (elem_of_keep (λ h, text_eqb (Host.ID h) id)). rewrite Ek. left. }
    apply elem_of_cons in Hin as [->|Hin].
    + exists h. split_and!; [done|rewrite Hid; left|done].
    + destruct (IH _ _ _ _ Hl Hin) as (h' & ? & ? & ?). exists h'. split_and!; [done|by right|done].
  - destruct (IH _ _ _ _ Hl Hin) as (h' & ? & ? & ?). exists h'. split_and!; [done|by right|done].
Qed.

Lemma isAdmin_false uid db f b db' f' :
  isAdmin s uid db f = (Ok b, db', f') →
  (∀ u, u ∈ users db → User.ID u = uid → User.Role u ≠ txt "admin") → b = false ∧ db' = db.
Proof.
  unfold isAdmin. intros Hr Hu. destruct (userRepo s); [|by injection Hr as <- <- _].
  apply bind_Ok in Hr as (o & db1 & f1 & Ho & Hr).
  assert (db1 = db) as ->.
  { eapply (reads_run _ _ _ _ _ _ _ Ho). Unshelve. unfold FindUserByID. preserves_tac. }
  injection Hr as <- <- _. split; [|done]. destruct o as [u|]; [|done].
  apply attempt_Ok in Ho as [(a & [= <-] & Ha)|(e & ? & _)]; [|done].
  apply query_Ok in Ha as [Ha _]. destruct (keep _ _) as [|u0 r] eqn:Ek in Ha; [done|].
  injection Ha as ->. apply bool_decide_eq_false.
  assert (u ∈ users db ∧ text_eqb (User.ID u) uid = true) as [Hin Hid%text_eqb_true].
  { apply (elem_of_keep (λ u, text_eqb (User.ID u) uid)). rewrite Ek. left. }
  by apply Hu.
Qed.

(** A user who is not an administrator is only offered hosts a rule grants:
    each host listed exists and an active account of it is granted to the user,
    whichever of the queries fail on the way. *)
Theorem listed_hosts_granted uid db f l db' f' x :
  systemUserRepo s = true → groupRepo s = true →
  (∀ u, u ∈ users db → User.ID u = uid → User.Role u ≠ txt "admin") →
  ListHosts uid db f = (Ok l, db', f') → x ∈ l →
  ∃ h su, h ∈ hosts db ∧ x = convertToHostInfo h ∧ su ∈ system_users db ∧
          SystemUser.Status su = active ∧
          grants JSON_CONTAINS db now uid (Host.ID h) (SystemUser.ID su).
Proof.
  intros Hs Hg Hu Hr Hx. unfold ListAvailableHosts in Hr.
  apply bind_Ok in Hr as (b & db1 & f1 & Hb & Hr).
  apply isAdmin_false in Hb as [-> ->]; [|done].
  apply bind_Ok in Hr as (ids & db2 & f2 & Hids & Hr).
  unfold accessibleHostIDs in Hids. rewrite Hs, Hg in Hids. simpl in Hids.
  apply bind_Ok in Hids as (o & db3 & f3 & Ho & Hids).
  assert (db3 = db) as ->.
  { eapply (reads_run _ _ _ _ _ _ _ Ho). Unshelve. apply preserves_attempt, reads_FindAllHosts. }
  destruct o as [[all total]|].
  - assert (db2 = db) as -> by (eapply (reads_run _ _ _ _ _ _ (reads_accessible_new _ _) Hids)).
    apply (host_infos_sound _ _ _ _ _ _ x Hr) in Hx as (h & Hh & Hid & ->).
    rewrite elem_of_remove_dups in Hid.
    destruct (accessible_sound _ _ _ _ _ _ _ _ Hids Hid) as (h' & su & _ & _ & Hsu & Hst & Hgr).
    exists h, su. done.
  - injection Hids as <- <- _.
    apply (host_infos_sound _ _ _ _ _ _ x Hr) in Hx as (h & _ & Hid & _).
    rewrite elem_of_remove_dups in Hid.
    by apply not_elem_of_nil in Hid.
Qed.

(** The query the terminal makes for the accounts of a host, as the value a
    handler sees of it. *)
Definition account_lookup (db : Db) f (u h : text) : result text (list SystemUser.t) :=
  map_err (λ _, txt "query failed")
    (res (GetAvailableSystemUsersForUser JSON_CONTAINS now u h db f)).

(** C3: From the menu to the account: when a session of the gateway is audited as
    connected, the host has taken, at its address, the user name of one account
    with that account's own password, or its own key opened with its
    passphrase; and that account, whose name the audit has, was, in the tables
    as they were when it was chosen, active and granted to this user on this
    host. *)
Theorem connected_account_granted uid db f w session host suffix read t err sess :
  SessionInfo.UserID session = uid →
  handleHostConnection w (Some (account_lookup db f)) session host suffix read = Returned t err →
  AuditConnectionSuccess sess ∈ t →
  ∃ su method,
    su ∈ system_users db ∧ SystemUser.Status su = active ∧
    grants JSON_CONTAINS db now uid (HostInfo.ID host) (SystemUser.ID su) ∧
    account_method (ssh w) su method ∧
    @Dial (ssh w) (host_port (HostInfo.IP host) (HostInfo.Port host))
      (SystemUser.Username su) [method] = Ok () ∧
    SessionInfo.HostUsername sess = SystemUser.Username su ∧
    SessionInfo.HostID sess = HostInfo.ID host.
Proof.
  intros Hu Hr Hin.
  apply (connected_account _ _ _ _ _ _ _ _ sess) in Hr as (su & l & Hl & Hsu & (m & Hm & Hd) & Hname & Hid); [|done].
  rewrite Hu in Hl. unfold account_lookup in Hl. apply map_err_Ok in Hl. unfold res in Hl.
  destruct (GetAvailableSystemUsersForUser _ _ _ _ _ _) as [[r db1] f1] eqn:E. simpl in Hl. subst r.
  apply (available_spec _ _ _ _ _ _ _ _ _ su E) in Hsu as (H1 & H2 & H3).
  exists su, m. done.
Qed.
End selector_facts.

(** ** Witnesses *)

Definition sample_host_row : Host.t :=
  {| Host.ID := txt "h1"; Host.Name := txt "web"; Host.IP := txt "10.0.0.5"; Host.Port := 22;
     Host.Status := txt "online"; Host.OS := []; Host.CPU := []; Host.Memory := []; Host.Tags := []; Host.Description := [];
     Host.DeviceType := txt "linux"; Host.ConnectionMode := txt "auto"; Host.ProxyID := [];
     Host.NetworkZone := []; Host.LastLoginTime := None; Host.LoginCount := 0 |}.

Definition db_with_hosts (db : Db) (hs : list Host.t) : Db :=
  {| users := users db; system_users := system_users db; user_groups := user_groups db;
     user_group_members := user_group_members db; permission_rules := permission_rules db;
     rule_system_users := rule_system_users db; rule_host_groups := rule_host_groups db;
     host_groups := host_groups db; host_group_members := host_group_members db; hosts := hs;
     proxies := proxies db; settings := settings db; aux := aux db |}.

Definition host_db : Db := db_with_hosts (sample_db active active) [sample_host_row].

Lemma listed_hosts_granted_witness :
  ∃ l, res (ListAvailableHosts (λ _ _, true) no_json 50 NewHostSelectorV2 (txt "u1") host_db []) = Ok l ∧
  ∃ h su, h ∈ hosts host_db ∧ convertToHostInfo sample_host_row = convertToHostInfo h ∧
    su ∈ system_users host_db ∧ SystemUser.Status su = active ∧
    grants no_json host_db 50 (txt "u1") (Host.ID h) (SystemUser.ID su).
Proof.
  exists [convertToHostInfo sample_host_row]. split; [vm_compute; reflexivity|].
  eapply (listed_hosts_granted (λ _ _, true) no_json 50 NewHostSelectorV2 (txt "u1") host_db []
            [convertToHostInfo sample_host_row]).
  - reflexivity.
  - reflexivity.
  - intros u []%not_elem_of_nil.
  - vm_compute. reflexivity.
  - left.
Defined.

Lemma connected_account_granted_witness :
  ∃ su, su ∈ system_users host_db ∧
    grants no_json host_db 50 (txt "u1") (txt "h1") (SystemUser.ID su) ∧
    SystemUser.Username su = txt "root".
Proof.
  destruct (connected_account_granted no_json 50 (txt "u1") host_db [] (sample_world (Ok ()))
    sample_session (convertToHostInfo sample_host_row) (txt "x") None
    (match handleHostConnection (sample_world (Ok ())) (Some (account_lookup no_json 50 host_db []))
       sample_session (convertToHostInfo sample_host_row) (txt "x") None with
     | Returned t _ => t | _ => [] end) None
    {| SessionInfo.SessionID := txt "s1-x"; SessionInfo.UserID := txt "u1";
       SessionInfo.Username := txt "bob"; SessionInfo.ClientIP := txt "10.0.0.2";
       SessionInfo.HostID := txt "h1"; SessionInfo.HostName := txt "web";
       SessionInfo.HostIP := txt "10.0.0.5"; SessionInfo.HostPort := 22;
       SessionInfo.HostUsername := txt "root"; SessionInfo.Status := txt "connecting";
       SessionInfo.BytesIn := 0; SessionInfo.BytesOut := 0 |}) as (su & m & H1 & _ & H2 & _ & _ & H3 & _).
  - reflexivity.
  - vm_compute. reflexivity.
  - vm_compute. right. right. left.
  - exists su. split; [exact H1|]. split; [exact H2|]. symmetry. exact H3.
Defined.

(** [SearchHosts] with a keyword ignores the permissions: whoever asks gets
    the first hundred matching hosts, also a user no rule grants anything. *)
Theorem search_ignores_permissions :
  let db := set_rules host_db [] in
  res (ListAvailableHosts (λ _ _, true) no_json 50 NewHostSelectorV2 (txt "u1") db []) = Ok [] ∧
  res (SearchHosts (λ _ _, true) no_json 50 NewHostSelectorV2 (txt "web") db [])
  = Ok [convertToHostInfo sample_host_row].
Proof. vm_compute. done. Qed.
