(* ===== verification/Proxies.v ===== *)
(** * The proxy agents and their registration

    [Registry] ([internal/bastion/registry/registry.go]) runs in each proxy agent
    and talks over HTTP to the handlers of
    [internal/api/handler/proxy_handler.go]; [ProxyMonitor]
    ([internal/service/proxy_monitor.go]) probes the registered agents.  They
    share the table of proxies.  A request may be lost, or its answer; each
    statement of a handler may fail; the agents, the monitor and the
    administrator interleave ([proxy_step]).  Marshalling the payloads and
    building the requests cannot fail, metrics are not modelled. *)

From stdpp Require Import base list strings gmap relations.
From Stdlib Require Import ZArith Lia.
From S2P Require Import Prelude GoStrings Gorm Models Database Repositories.
Local Open Scope Z_scope.

(** ** The handlers *)

(** The body of a registration. *)
Record RegisterRequest := {
  ProxyID : text; HostName : text; IP : text; Port : Z;
  Status : text; Version : text; StartTime : Z
}.

Definition with_registration (req : RegisterRequest) (now : Z) (p : Proxy.t) : Proxy.t :=
  {| Proxy.ID := Proxy.ID p; Proxy.ProxyID := Proxy.ProxyID p; Proxy.HostName := HostName req;
     Proxy.IP := IP req; Proxy.Port := Port req; Proxy.Status := Status req;
     Proxy.Version := Version req; Proxy.NetworkZone := Proxy.NetworkZone p;
     Proxy.StartTime := StartTime req; Proxy.LastHeartbeat := now |}.

Definition with_status (status : text) (p : Proxy.t) : Proxy.t :=
  {| Proxy.ID := Proxy.ID p; Proxy.ProxyID := Proxy.ProxyID p; Proxy.HostName := Proxy.HostName p;
     Proxy.IP := Proxy.IP p; Proxy.Port := Proxy.Port p; Proxy.Status := status;
     Proxy.Version := Proxy.Version p; Proxy.NetworkZone := Proxy.NetworkZone p;
     Proxy.StartTime := Proxy.StartTime p; Proxy.LastHeartbeat := Proxy.LastHeartbeat p |}.

Definition with_heartbeat (now : Z) (p : Proxy.t) : Proxy.t :=
  {| Proxy.ID := Proxy.ID p; Proxy.ProxyID := Proxy.ProxyID p; Proxy.HostName := Proxy.HostName p;
     Proxy.IP := Proxy.IP p; Proxy.Port := Proxy.Port p; Proxy.Status := Proxy.Status p;
     Proxy.Version := Proxy.Version p; Proxy.NetworkZone := Proxy.NetworkZone p;
     Proxy.StartTime := Proxy.StartTime p; Proxy.LastHeartbeat := now |}.

Definition with_zone (zone : text) (p : Proxy.t) : Proxy.t :=
  {| Proxy.ID := Proxy.ID p; Proxy.ProxyID := Proxy.ProxyID p; Proxy.HostName := Proxy.HostName p;
     Proxy.IP := Proxy.IP p; Proxy.Port := Proxy.Port p; Proxy.Status := Proxy.Status p;
     Proxy.Version := Proxy.Version p; Proxy.NetworkZone := zone;
     Proxy.StartTime := Proxy.StartTime p; Proxy.LastHeartbeat := Proxy.LastHeartbeat p |}.

(** [UPDATE proxies SET .. WHERE ..]: the rows affected. *)
Definition update_proxies (p : Proxy.t → bool) (f : Proxy.t → Proxy.t) : DB Z := statement (λ db,
  Ok (set_proxies db (updated p f <$> proxies db), Z.of_nat (length (keep p (proxies db))))).

(** [INSERT]: both the primary key and [proxy_id] are unique. *)
Definition create_proxy (p : Proxy.t) : DB unit := execute (λ db,
  if existsb (λ q, text_eqb (Proxy.ID q) (Proxy.ID p) ||
                   text_eqb (Proxy.ProxyID q) (Proxy.ProxyID p)) (proxies db)
  then Err DuplicatedKey
  else Ok (set_proxies db (proxies db ++ [p]))).

Definition has_id (id : text) (p : Proxy.t) : bool := text_eqb (Proxy.ID p) id.
Definition has_proxy_id (id : text) (p : Proxy.t) : bool := text_eqb (Proxy.ProxyID p) id.

(** The status of the answer to a statement: 500 when it failed. *)
Definition answer {A} (ok : Z) (r : result db_error A) : DB Z :=
  mret (if is_ok r then ok else 500).

(** [RegisterProxy]; [id] is the fresh uuid. *)
Definition RegisterProxy (req : RegisterRequest) (id : text) (now : Z) : DB Z :=
  if is_empty (ProxyID req) then mret 400
  else
    existing ← caught (FindProxyInfoByID (ProxyID req));
    match existing with
    | Ok p => caught (update_proxies (has_id (Proxy.ID p)) (with_registration req now)) ≫= answer 200
    | Err RecordNotFound =>
        caught (create_proxy
          {| Proxy.ID := id; Proxy.ProxyID := ProxyID req; Proxy.HostName := HostName req;
             Proxy.IP := IP req; Proxy.Port := Port req; Proxy.Status := Status req;
             Proxy.Version := Version req; Proxy.NetworkZone := [];
             Proxy.StartTime := StartTime req; Proxy.LastHeartbeat := now |}) ≫= answer 200
    | Err _ => mret 500
    end.

Definition Unregister (proxyID : text) : DB Z :=
  if is_empty proxyID then mret 400
  else caught (update_proxies (has_proxy_id proxyID) (with_status offline)) ≫= answer 200.

Definition Heartbeat (proxyID status : text) (now : Z) : DB Z :=
  if is_empty proxyID then mret 400
  else
    r ← caught (update_proxies (has_proxy_id proxyID)
          (λ p, let p := with_heartbeat now p in if is_empty status then p else with_status status p));
    mret (match r with
          | Err _ => 500
          | Ok affected => if affected =? 0 then 404 else 200
          end).

(** ** The repository's own updates *)

Definition UpdateStatus (proxyID status : text) : DB unit :=
  _ ← update_proxies (has_proxy_id proxyID) (with_status status); mret ().
Definition UpdateNetworkZone (proxyID zone : text) : DB unit :=
  _ ← update_proxies (has_proxy_id proxyID) (with_zone zone); mret ().

(** ** The agent *)

(** [Registry]; [running] is its heartbeat goroutine, [stopped] the closed
    channel. *)
Record Registry := {
  proxyInfo : RegisterRequest;
  registered : bool;
  stopped : bool;
  running : bool
}.

Definition set_registered (r : Registry) (b : bool) : Registry :=
  {| proxyInfo := proxyInfo r; registered := b; stopped := stopped r; running := running r |}.
Definition set_stopped (r : Registry) : Registry :=
  {| proxyInfo := proxyInfo r; registered := registered r; stopped := true; running := running r |}.
Definition set_running (r : Registry) (b : bool) : Registry :=
  {| proxyInfo := proxyInfo r; registered := registered r; stopped := stopped r; running := b |}.

Definition NewRegistry (proxyID hostname ip version : text) (port now : Z) : Registry :=
  {| proxyInfo :=
       {| ProxyID := proxyID; HostName := if is_empty hostname then txt "unknown" else hostname;
          IP := ip; Port := port; Status := online;
          Version := if is_empty version then txt "1.0.0" else version; StartTime := now |};
     registered := false; stopped := false; running := false |}.

(** The fate of a request. *)
Inductive delivery := Delivered | RequestLost | ResponseLost.

(** The status code the client sees, if it gets one. *)
Definition post (d : delivery) (handler : DB Z) : DB (option Z) :=
  match d with
  | Delivered => code ← handler; mret (Some code)
  | RequestLost => mret None
  | ResponseLost => _ ← handler; mret None
  end.

(** The call returned no error. *)
Definition succeeded (code : option Z) : bool :=
  match code with Some c => c =? 200 | None => false end.

Definition register (d : delivery) (id : text) (now : Z) (r : Registry) : DB bool :=
  code ← post d (RegisterProxy (proxyInfo r) id now); mret (succeeded code).

Definition unregister (d : delivery) (r : Registry) : DB unit :=
  _ ← post d (Unregister (ProxyID (proxyInfo r))); mret ().

(** [sendHeartbeat]: it fails exactly when it clears [registered]. *)
Definition sendHeartbeat (d : delivery) (now : Z) (r : Registry) : DB Registry :=
  code ← post d (Heartbeat (ProxyID (proxyInfo r)) online now);
  mret (set_registered r (succeeded code)).

(** One tick of [startHeartbeat]. *)
Definition heartbeat_tick (d1 d2 : delivery) (id : text) (now : Z) (r : Registry) : DB Registry :=
  r ← sendHeartbeat d1 now r;
  if registered r then mret r
  else ok ← register d2 id now r; mret (if ok : bool then set_registered r true else r).

Definition Start (d : delivery) (id : text) (now : Z) (r : Registry) : DB Registry :=
  ok ← register d id now r;
  mret (set_running (if ok : bool then set_registered r true else r) true).

Definition Stop (d : delivery) (r : Registry) : DB Registry :=
  let r := set_stopped r in
  if registered r then _ ← unregister d r; mret r else mret r.

(** ** The monitor *)

(** The update of [checkProxies] for one row of its snapshot: the status when it
    changed, the heartbeat when it is online. *)
Definition checked (up : bool) (now : Z) (seen p : Proxy.t) : Proxy.t :=
  let newStatus := if up then online else offline in
  let p := if text_eqb (Proxy.Status seen) newStatus then p else with_status newStatus p in
  if up then with_heartbeat now p else p.

Definition check_one (checkProxyHealth : Proxy.t → bool) (now : Z) (seen : Proxy.t) : DB unit :=
  let up := checkProxyHealth seen in
  let newStatus := if up then online else offline in
  if negb (text_eqb (Proxy.Status seen) newStatus) || up
  then _ ← attempt (update_proxies (has_proxy_id (Proxy.ProxyID seen)) (checked up now seen));
       mret ()
  else mret ().

Definition checkProxies (checkProxyHealth : Proxy.t → bool) (now : Z) : DB unit :=
  ps ← attempt (find proxies);
  match ps with
  | None => mret ()
  | Some ps =>
      for_each (check_one checkProxyHealth now) ps
  end.

(** ** The system *)

Record world := { w_db : Db; agents : gmap text Registry }.

(** Another component than these wrote, without touching the proxies. *)
Definition same_proxies (db db' : Db) : Prop := proxies db' = proxies db.

Inductive proxy_step : world → world → Prop :=
  | step_start db ag r d id now f r' db' f' :
      ag !! ProxyID (proxyInfo r) = None → registered r = false →
      Start d id now r db f = (Ok r', db', f') →
      proxy_step {| w_db := db; agents := ag |}
                 {| w_db := db'; agents := <[ProxyID (proxyInfo r) := r']> ag |}
  | step_tick db ag k r d1 d2 id now f r' db' f' :
      ag !! k = Some r → running r = true →
      heartbeat_tick d1 d2 id now r db f = (Ok r', db', f') →
      proxy_step {| w_db := db; agents := ag |} {| w_db := db'; agents := <[k := r']> ag |}
  | step_stop db ag k r d f r' db' f' :
      ag !! k = Some r → stopped r = false →
      Stop d r db f = (Ok r', db', f') →
      proxy_step {| w_db := db; agents := ag |} {| w_db := db'; agents := <[k := r']> ag |}
  | step_exit db ag k r :
      ag !! k = Some r → stopped r = true →
      proxy_step {| w_db := db; agents := ag |}
                 {| w_db := db; agents := <[k := set_running r false]> ag |}
  | step_monitor db ag health now f db' f' :
      checkProxies health now db f = (Ok (), db', f') →
      proxy_step {| w_db := db; agents := ag |} {| w_db := db'; agents := ag |}
  | step_status db ag k status f r db' f' :
      UpdateStatus k status db f = (r, db', f') →
      proxy_step {| w_db := db; agents := ag |} {| w_db := db'; agents := ag |}
  | step_zone db ag k zone f r db' f' :
      UpdateNetworkZone k zone db f = (r, db', f') →
      proxy_step {| w_db := db; agents := ag |} {| w_db := db'; agents := ag |}
  | step_other db ag db' :
      same_proxies db db' →
      proxy_step {| w_db := db; agents := ag |} {| w_db := db'; agents := ag |}.

(** ** What the operations do to the table *)

Definition pids (db : Db) : list text := Proxy.ProxyID <$> proxies db.

(** The agents known stay known, and stay distinct. *)
Definition grows (db db' : Db) : Prop := (NoDup (pids db) → NoDup (pids db')) ∧ pids db ⊆ pids db'.

#[global] Instance grows_preorder : PreOrder grows.
Proof. split; [by intros db|]. intros a b c [? ?] [? ?]. split; [auto|by etransitivity]. Qed.

Lemma pids_updated (p : Proxy.t → bool) f (l : list Proxy.t) :
  (∀ x, Proxy.ProxyID (f x) = Proxy.ProxyID x) →
  Proxy.ProxyID <$> (updated p f <$> l) = Proxy.ProxyID <$> l.
Proof.
  intros Hf. rewrite <- list_fmap_compose. apply list_fmap_ext. intros i x _. simpl.
  unfold updated. by destruct (p x).
Qed.

Lemma update_Ok p f db fs n db' fs' :
  update_proxies p f db fs = (Ok n, db', fs') →
  proxies db' = updated p f <$> proxies db ∧ n = Z.of_nat (length (keep p (proxies db))) ∧ fs' = tail fs.
Proof. unfold update_proxies, statement. destruct fs as [|[e|] fs]; [|done|]; by intros [= <- <- <-]. Qed.

Lemma update_run p f db :
  update_proxies p f db [] =
  (Ok (Z.of_nat (length (keep p (proxies db)))), set_proxies db (updated p f <$> proxies db), []).
Proof. done. Qed.

Lemma grows_update p f :
  (∀ x, Proxy.ProxyID (f x) = Proxy.ProxyID x) → preserves grows (update_proxies p f).
Proof.
  intros Hf. apply preserves_statement; [apply _|].
  intros db db' n [= <- _]. unfold grows, pids. simpl. by rewrite pids_updated.
Qed.

Lemma elem_pids k db : k ∈ pids db ↔ ∃ p, p ∈ proxies db ∧ Proxy.ProxyID p = k.
Proof. unfold pids. rewrite list_elem_of_fmap. naive_solver. Qed.

Lemma create_Ok p db fs db' fs' :
  create_proxy p db fs = (Ok (), db', fs') →
  proxies db' = proxies db ++ [p] ∧ Proxy.ProxyID p ∉ pids db.
Proof.
  intros H%execute_Ok. destruct (existsb _ _) eqn:E; [done|]. injection H as <-. split; [done|].
  intros (q & Hq & Hk)%elem_pids. apply not_true_iff_false in E. apply E, existsb_elem.
  exists q. split; [done|]. by rewrite orb_true_iff, !text_eqb_true, Hk; right.
Qed.

Lemma grows_create p : preserves grows (create_proxy p).
Proof.
  apply preserves_execute; [apply _|]. intros db db' H.
  destruct (create_Ok p db [] db' []) as [Hp Hk]; [unfold create_proxy, execute; by rewrite H|].
  unfold grows, pids in *. rewrite Hp, fmap_app. split.
  - intros HN. apply NoDup_app. split_and!; [done| |apply NoDup_singleton].
    intros x Hx ->%list_elem_of_singleton. done.
  - intros x Hx. apply elem_of_app. by left.
Qed.

Lemma grows_RegisterProxy req id now : preserves grows (RegisterProxy req id now).
Proof.
  unfold RegisterProxy, FindProxyInfoByID, answer. preserves_tac;
    [by apply grows_update|apply grows_create].
Qed.
Lemma grows_Unregister k : preserves grows (Unregister k).
Proof. unfold Unregister, answer. preserves_tac. by apply grows_update. Qed.
Lemma grows_Heartbeat k s now : preserves grows (Heartbeat k s now).
Proof.
  unfold Heartbeat. preserves_tac. apply grows_update. intros p. by destruct (is_empty s).
Qed.
Lemma grows_post d h : preserves grows h → preserves grows (post d h).
Proof. intros Hh. unfold post. preserves_tac; done. Qed.
Lemma grows_register d id now r : preserves grows (register d id now r).
Proof. unfold register. preserves_tac. apply grows_post, grows_RegisterProxy. Qed.
Lemma grows_heartbeat d now r : preserves grows (sendHeartbeat d now r).
Proof. unfold sendHeartbeat. preserves_tac. apply grows_post, grows_Heartbeat. Qed.
Lemma grows_tick d1 d2 id now r : preserves grows (heartbeat_tick d1 d2 id now r).
Proof. unfold heartbeat_tick. preserves_tac; [apply grows_heartbeat|apply grows_register]. Qed.
Lemma grows_Start d id now r : preserves grows (Start d id now r).
Proof. unfold Start. preserves_tac. apply grows_register. Qed.
Lemma grows_Stop d r : preserves grows (Stop d r).
Proof. unfold Stop, unregister. preserves_tac. apply grows_post, grows_Unregister. Qed.

Lemma checked_id up now seen p : Proxy.ProxyID (checked up now seen p) = Proxy.ProxyID p.
Proof. unfold checked. by destruct up, (text_eqb _ _). Qed.

Lemma grows_check health now : preserves grows (checkProxies health now).
Proof.
  unfold checkProxies, check_one. cbv zeta. preserves_tac. apply grows_update. apply checked_id.
Qed.

(** ** A successful answer means a row *)

Lemma RegisterProxy_row req id now db f db' f' :
  RegisterProxy req id now db f = (Ok 200, db', f') → ProxyID req ∈ pids db'.
Proof.
  unfold RegisterProxy. destruct (is_empty (ProxyID req)); [done|].
  intros (r & db1 & f1 & Hr%caught_Ok & H)%bind_Ok. destruct r as [p|e].
  - apply FindProxyInfoByID_Ok in Hr as (Hp & Hid & ->).
    apply bind_Ok in H as (u & db2 & f2 & Hu%caught_Ok & H). injection H as Hok <- _.
    destruct u as [n|]; [|done]. apply update_Ok in Hu as [Hu _].
    unfold pids. rewrite Hu, pids_updated by done. apply list_elem_of_fmap. eauto.
  - destruct e; try done.
    apply bind_Ok in H as (u & db2 & f2 & Hu%caught_Ok & H). injection H as Hok <- _.
    destruct u as [[]|]; [|done]. apply create_Ok in Hu as [Hu _].
    unfold pids. rewrite Hu, fmap_app. apply elem_of_app. right. simpl. left.
Qed.

Lemma Heartbeat_row k s now db f db' f' :
  Heartbeat k s now db f = (Ok 200, db', f') → k ∈ pids db'.
Proof.
  unfold Heartbeat. destruct (is_empty k); [done|].
  intros (u & db1 & f1 & Hu%caught_Ok & H)%bind_Ok. injection H as Hok <- _.
  destruct u as [n|]; [|done]. apply update_Ok in Hu as (Hu & -> & _).
  destruct (keep (has_proxy_id k) (proxies db)) as [|p l] eqn:E; [done|].
  apply keep_head in E as [Hp Hk%text_eqb_true].
  unfold pids. rewrite Hu, pids_updated by (intros x; by destruct (is_empty s)).
  apply list_elem_of_fmap. eauto.
Qed.

Lemma post_200 d h db f db' f' code :
  post d h db f = (Ok code, db', f') → succeeded code = true → h db f = (Ok 200, db', f').
Proof.
  destruct d; simpl; [|by intros [= <- <- <-]|by intros (? & ? & ? & ? & [= <- _ _])%bind_Ok].
  intros (c & db1 & f1 & Hc & H)%bind_Ok. injection H as <- <- <-. by intros ->%Z.eqb_eq.
Qed.

Lemma register_row d id now r db f db' f' :
  register d id now r db f = (Ok true, db', f') → ProxyID (proxyInfo r) ∈ pids db'.
Proof.
  intros (c & db1 & f1 & Hc & H)%bind_Ok. injection H as Hs <- <-.
  apply post_200 in Hc; [|done]. by apply RegisterProxy_row in Hc.
Qed.

Lemma heartbeat_row d now r db f r' db' f' :
  sendHeartbeat d now r db f = (Ok r', db', f') →
  proxyInfo r' = proxyInfo r ∧ (registered r' = true → ProxyID (proxyInfo r) ∈ pids db').
Proof.
  intros (c & db1 & f1 & Hc & H)%bind_Ok. injection H as <- <- <-. split; [done|]. intros Hs.
  apply post_200 in Hc; [|done]. by apply Heartbeat_row in Hc.
Qed.

(** The agent keeps its identity, and believes itself registered only with a row. *)
Definition agent_ok (k : text) (r : Registry) (db : Db) : Prop :=
  ProxyID (proxyInfo r) = k ∧ (registered r = true → k ∈ pids db).

Lemma tick_ok d1 d2 id now r db f r' db' f' :
  heartbeat_tick d1 d2 id now r db f = (Ok r', db', f') → agent_ok (ProxyID (proxyInfo r)) r' db'.
Proof.
  intros (r1 & db1 & f1 & [Hi Hr]%heartbeat_row & H)%bind_Ok.
  destruct (registered r1) eqn:Er.
  { injection H as <- <- <-. split; [by rewrite Hi|]. auto. }
  apply bind_Ok in H as (ok & db2 & f2 & Hk & H). injection H as <- <- <-.
  destruct ok; split; simpl; rewrite ?Hi; try done; [|by rewrite Er].
  intros _. apply register_row in Hk. by rewrite Hi in Hk.
Qed.

Lemma Start_ok d id now r db f r' db' f' :
  registered r = false →
  Start d id now r db f = (Ok r', db', f') → agent_ok (ProxyID (proxyInfo r)) r' db'.
Proof.
  intros Hf (ok & db1 & f1 & Hk & H)%bind_Ok. injection H as <- <- <-.
  destruct ok; split; simpl; try done; [|by rewrite Hf].
  intros _. by apply register_row in Hk.
Qed.

Lemma Stop_ok d r db f r' db' f' k :
  agent_ok k r db → Stop d r db f = (Ok r', db', f') → agent_ok k r' db'.
Proof.
  intros [Hk Hr] H. destruct (preserves_run _ _ _ _ _ _ _ (grows_Stop d r) H) as [_ Hsub].
  unfold Stop in H. simpl in H. destruct (registered r) eqn:E.
  - apply bind_Ok in H as ([] & db1 & f1 & _ & H). injection H as <- <- <-.
    split; [done|]. intros _. auto.
  - injection H as <- <- <-. split; [done|]. simpl. by rewrite E.
Qed.

Lemma agent_ok_grows k r db db' : grows db db' → agent_ok k r db → agent_ok k r db'.
Proof. intros [_ Hs] [Hk Hr]. split; auto. Qed.

(** ** The invariant of the system *)

Definition world_ok (w : world) : Prop :=
  NoDup (pids (w_db w)) ∧ map_Forall (λ k r, agent_ok k r (w_db w)) (agents w).

Lemma world_grows db ag db' :
  grows db db' → world_ok {| w_db := db; agents := ag |} → world_ok {| w_db := db'; agents := ag |}.
Proof.
  intros Hg [HN Ha]. split; [by apply Hg|]. intros k r Hr. eapply agent_ok_grows, Ha; done.
Qed.

Lemma world_insert db ag k r :
  agent_ok k r db → world_ok {| w_db := db; agents := ag |} →
  world_ok {| w_db := db; agents := <[k := r]> ag |}.
Proof. intros Hr [HN Ha]. split; [done|]. by apply map_Forall_insert_2. Qed.

Lemma proxy_step_ok w w' : proxy_step w w' → world_ok w → world_ok w'.
Proof.
  intros Hs Hw. destruct Hs as [db ag r d id now f r' db' f' _ Hreg H
    |db ag k r d1 d2 id now f r' db' f' Hr _ H|db ag k r d f r' db' f' Hr _ H|db ag k r Hr _
    |db ag h now f db' f' H|db ag k st f r db' f' H|db ag k z f r db' f' H|db ag db' H].
  - apply world_insert; [by eapply Start_ok|].
    eapply world_grows, Hw. exact (preserves_run _ _ _ _ _ _ _ (grows_Start _ _ _ _) H).
  - destruct (proj2 Hw k r Hr) as [Hk _].
    apply world_insert; [rewrite <- Hk; by eapply tick_ok|].
    eapply world_grows, Hw. exact (preserves_run _ _ _ _ _ _ _ (grows_tick _ _ _ _ _) H).
  - apply world_insert; [eapply Stop_ok, H; by apply Hw|].
    eapply world_grows, Hw. exact (preserves_run _ _ _ _ _ _ _ (grows_Stop _ _) H).
  - apply world_insert; [|done]. exact (proj2 Hw k r Hr).
  - eapply world_grows, Hw. exact (preserves_run _ _ _ _ _ _ _ (grows_check _ _) H).
  - eapply world_grows, Hw. refine (preserves_run _ _ _ _ _ _ _ _ H).
    unfold UpdateStatus. preserves_tac. by apply grows_update.
  - eapply world_grows, Hw. refine (preserves_run _ _ _ _ _ _ _ _ H).
    unfold UpdateNetworkZone. preserves_tac. by apply grows_update.
  - eapply world_grows, Hw. unfold grows, pids. by rewrite H.
Qed.

(** In every state the agents, the monitor and the administrator can reach
    together, whichever requests, answers and statements fail, no agent has two
    rows, and an agent that believes itself registered has one. *)
Theorem registered_has_row db0 w :
  NoDup (pids db0) → rtc proxy_step {| w_db := db0; agents := ∅ |} w →
  NoDup (pids (w_db w)) ∧
  ∀ k r, agents w !! k = Some r → registered r = true →
         ∃ p, p ∈ proxies (w_db w) ∧ Proxy.ProxyID p = ProxyID (proxyInfo r).
Proof.
  intros HN Hr. assert (world_ok w) as [HN' Ha].
  { apply (rtc_ind_r (R := proxy_step) (λ w, world_ok w) {| w_db := db0; agents := ∅ |}); [| |exact Hr].
    - split; [done|apply map_Forall_empty].
    - intros w1 w2 _ Hs. by apply proxy_step_ok. }
  split; [done|]. intros k r Hk Hreg. destruct (Ha k r Hk) as [Hid Hrow].
  rewrite Hid. by apply elem_pids, Hrow.
Qed.

(** ** Recovery *)

Lemma keep_pid_nil k db : k ∉ pids db → keep (has_proxy_id k) (proxies db) = [].
Proof.
  intros Hk. destruct (keep _ _) as [|p l] eqn:E; [done|]. destruct Hk.
  apply keep_head in E as [Hp He%text_eqb_true]. apply elem_pids. eauto.
Qed.

Lemma updated_other p f (l : list Proxy.t) : keep p l = [] → updated p f <$> l = l.
Proof.
  induction l as [|x l IH]; [done|]. simpl. unfold updated at 1.
  destruct (p x); [done|]. intros H. f_equal. by apply IH.
Qed.

Definition beating (k : text) (now : Z) : Proxy.t → Proxy.t :=
  updated (has_proxy_id k) (λ p, with_status online (with_heartbeat now p)).

Lemma Heartbeat_known k now db :
  k ≠ [] → k ∈ pids db →
  Heartbeat k online now db [] = (Ok 200, set_proxies db (beating k now <$> proxies db), []).
Proof.
  intros Hk Hin. unfold Heartbeat. destruct k as [|c k]; [done|]. cbn [is_empty].
  rewrite bind_run, caught_run, update_run.
  destruct (keep (has_proxy_id (c :: k)) (proxies db)) as [|p l] eqn:E; [|done].
  apply elem_pids in Hin as (p & Hp & Hpk).
  assert (p ∈ keep (has_proxy_id (c :: k)) (proxies db)) as H.
  { apply elem_of_keep. split; [done|]. by apply text_eqb_true. }
  rewrite E in H. by apply not_elem_of_nil in H.
Qed.

Lemma Heartbeat_unknown k now db :
  k ≠ [] → k ∉ pids db →
  Heartbeat k online now db [] = (Ok 404, set_proxies db (proxies db), []).
Proof.
  intros Hk Hno%keep_pid_nil. unfold Heartbeat. destruct k as [|c k]; [done|]. cbn [is_empty].
  rewrite bind_run, caught_run, update_run, Hno. by rewrite updated_other.
Qed.

(** The row a first registration creates. *)
Definition new_row (req : RegisterRequest) (id : text) (now : Z) : Proxy.t :=
  {| Proxy.ID := id; Proxy.ProxyID := ProxyID req; Proxy.HostName := HostName req;
     Proxy.IP := IP req; Proxy.Port := Port req; Proxy.Status := Status req;
     Proxy.Version := Version req; Proxy.NetworkZone := [];
     Proxy.StartTime := StartTime req; Proxy.LastHeartbeat := now |}.

Lemma RegisterProxy_new req id now db :
  ProxyID req ≠ [] → ProxyID req ∉ pids db → id ∉ Proxy.ID <$> proxies db →
  RegisterProxy req id now db [] = (Ok 200, set_proxies db (proxies db ++ [new_row req id now]), []).
Proof.
  intros Hk Hno Hid. unfold RegisterProxy. destruct (is_empty (ProxyID req)) eqn:Ek.
  { by destruct (ProxyID req). }
  rewrite bind_run, caught_run. unfold FindProxyInfoByID, first, query.
  change (λ p, text_eqb (Proxy.ProxyID p) (ProxyID req)) with (has_proxy_id (ProxyID req)).
  rewrite (keep_pid_nil _ _ Hno). cbn [tail].
  rewrite bind_run, caught_run. unfold create_proxy, execute. cbn [Proxy.ID Proxy.ProxyID].
  destruct (existsb _ _) eqn:E; [|done].
  apply existsb_elem in E as (q & Hq & [H%text_eqb_true|H%text_eqb_true]%orb_prop).
  - destruct Hid. rewrite <- H. by apply list_elem_of_fmap_2.
  - destruct Hno. apply elem_pids. eauto.
Qed.

(** Whatever state the table and the agent are in (row missing, row offline,
    registration lost), one tick whose requests arrive and whose statements
    succeed repairs it: the agent is registered and every row of it is online
    and fresh. *)
Theorem tick_heals id now r db :
  ProxyID (proxyInfo r) ≠ [] → Status (proxyInfo r) = online → id ∉ Proxy.ID <$> proxies db →
  ∃ r' db', heartbeat_tick Delivered Delivered id now r db [] = (Ok r', db', []) ∧
    registered r' = true ∧ ProxyID (proxyInfo r) ∈ pids db' ∧
    ∀ p, p ∈ proxies db' → Proxy.ProxyID p = ProxyID (proxyInfo r) →
         Proxy.Status p = online ∧ Proxy.LastHeartbeat p = now.
Proof.
  intros Hk Hon Hid. set (k := ProxyID (proxyInfo r)) in *.
  destruct (decide (k ∈ pids db)) as [Hin|Hno]; eexists _, _; split.
  - unfold heartbeat_tick, sendHeartbeat, post. rewrite !bind_run. fold k.
    rewrite Heartbeat_known by done. reflexivity.
  - simpl. split; [done|]. unfold pids, beating. simpl. rewrite pids_updated by done. split; [done|].
    intros p (q & -> & Hq)%list_elem_of_fmap. unfold updated, has_proxy_id. case_match eqn:E; [done|].
    intros Hqk%text_eqb_true. congruence.
  - unfold heartbeat_tick. rewrite bind_run.
    unfold sendHeartbeat, post. rewrite !bind_run. fold k. rewrite Heartbeat_unknown by done.
    assert (register Delivered id now (set_registered r false) (set_proxies db (proxies db)) []
            = (Ok true, set_proxies db (proxies db ++ [new_row (proxyInfo r) id now]), [])) as Hreg.
    { unfold register, post. rewrite !bind_run. by rewrite RegisterProxy_new. }
    cbn [registered set_registered mret db_ret]. change (succeeded (Some 404)) with false.
    cbv iota. rewrite bind_run, Hreg. reflexivity.
  - simpl. split; [done|]. split.
    { apply elem_pids. exists (new_row (proxyInfo r) id now). split; [|done].
      apply elem_of_app. right. left. }
    intros p [Hp|Hp]%elem_of_app Hpk; [|by apply list_elem_of_singleton in Hp as ->; simpl].
    destruct Hno. apply elem_pids. eauto.
Qed.

(** ** What the monitor establishes *)

(** The row of an agent found up, or down. *)
Definition probed (health : Proxy.t → bool) (now : Z) (p : Proxy.t) : Proxy.t :=
  if health p then with_heartbeat now (with_status online p) else with_status offline p.

Lemma with_status_same s p : Proxy.Status p = s → with_status s p = p.
Proof. intros <-. by destruct p. Qed.

Lemma checked_probed health now p : checked (health p) now p p = probed health now p.
Proof.
  unfold checked, probed. destruct (health p), (text_eqb _ _) eqn:E; try done;
    by rewrite with_status_same by (by apply text_eqb_true).
Qed.

Lemma probed_id health now p : Proxy.ProxyID (probed health now p) = Proxy.ProxyID p.
Proof. unfold probed. by destruct (health p). Qed.

Lemma keep_other k (l : list Proxy.t) : k ∉ Proxy.ProxyID <$> l → keep (has_proxy_id k) l = [].
Proof. exact (keep_pid_nil k (set_proxies empty_db l)). Qed.

(** The update of a row changes that row only. *)
Lemma updated_one f l1 p l2 :
  NoDup (Proxy.ProxyID <$> l1 ++ p :: l2) →
  updated (has_proxy_id (Proxy.ProxyID p)) f <$> l1 ++ p :: l2 = l1 ++ f p :: l2.
Proof.
  rewrite fmap_app, fmap_cons. intros (_ & H1 & [H2 _]%NoDup_cons)%NoDup_app.
  rewrite fmap_app, fmap_cons. f_equal; [|f_equal].
  - apply updated_other, keep_other. intros Hin. apply (H1 _ Hin). left.
  - unfold updated, has_proxy_id. by rewrite text_eqb_refl.
  - by apply updated_other, keep_other.
Qed.

Lemma check_loop health now l2 l1 db :
  proxies db = (probed health now <$> l1) ++ l2 → NoDup (Proxy.ProxyID <$> l1 ++ l2) →
  for_each (check_one health now) l2 db [] = (Ok (), set_proxies db (probed health now <$> l1 ++ l2), []).
Proof.
  revert l1 db. induction l2 as [|p l2 IH]; intros l1 db Hdb HN; cbn [for_each].
  { rewrite !app_nil_r in *. rewrite <- Hdb. by destruct db. }
  assert (NoDup (Proxy.ProxyID <$> (probed health now <$> l1) ++ p :: l2)) as HN'.
  { rewrite fmap_app, <- list_fmap_compose.
    rewrite (list_fmap_ext _ Proxy.ProxyID); [by rewrite <- fmap_app|]. intros. apply probed_id. }
  assert (∀ db1, proxies db1 = (probed health now <$> l1) ++ probed health now p :: l2 →
    for_each (check_one health now) l2 db1 [] = (Ok (), set_proxies db1 (probed health now <$> l1 ++ p :: l2), [])) as Hl2.
  { intros db1 H1. rewrite (IH (l1 ++ [p])).
    - by rewrite <- app_assoc.
    - by rewrite fmap_app, <- app_assoc.
    - by rewrite <- app_assoc. }
  rewrite bind_run. unfold check_one at 1. cbv zeta. destruct (negb _ || _) eqn:Eup.
  - rewrite bind_run. unfold attempt at 1. rewrite update_run, Hdb, updated_one by done.
    rewrite checked_probed. cbn [mret db_ret]. rewrite Hl2 by done. by destruct db.
  - apply orb_false_elim in Eup as [Es Eh]. cbn [mret db_ret]. rewrite Hl2; [done|].
    rewrite Hdb. f_equal. f_equal. unfold probed. rewrite Eh in *.
    by rewrite with_status_same by (by apply text_eqb_true, negb_false_iff).
Qed.

(** A round of the monitor whose statements succeed makes the table true:
    each agent is online exactly when its probe answered, with a fresh heartbeat
    then, and nothing else of its row changes. *)
Theorem monitor_truth health now db :
  NoDup (pids db) →
  ∃ db', checkProxies health now db [] = (Ok (), db', []) ∧
         proxies db' = probed health now <$> proxies db.
Proof.
  intros HN. eexists. split.
  - unfold checkProxies. rewrite bind_run. unfold attempt at 1. cbn [find query tail].
    by rewrite (check_loop health now (proxies db) [] db).
  - done.
Qed.

(** ** Concrete systems *)

Definition sample_agent : Registry :=
  NewRegistry (txt "px1") (txt "edge") (txt "10.0.0.9") [] 8022 1.

Definition row_at (now : Z) (status : text) : Proxy.t :=
  with_status status (new_row (proxyInfo sample_agent) (txt "id1") now).

(** Stopping an agent may leave it online: the heartbeat goroutine can take a
    last tick after [Stop] has unregistered the agent (both cases of its
    [select] are ready), and an agent whose last heartbeat went unanswered does
    not unregister at all. *)
Theorem stopped_agent_online :
  (∃ w r, rtc proxy_step {| w_db := empty_db; agents := ∅ |} w ∧
     agents w !! txt "px1" = Some r ∧ stopped r = true ∧ running r = false ∧
     proxies (w_db w) = [row_at 3 online]) ∧
  (∃ w r, rtc proxy_step {| w_db := empty_db; agents := ∅ |} w ∧
     agents w !! txt "px1" = Some r ∧ stopped r = true ∧ running r = false ∧
     proxies (w_db w) = [row_at 2 online]).
Proof.
  set (started := set_running (set_registered sample_agent true) true).
  set (table now s := set_proxies empty_db [row_at now s]).
  assert (rtc proxy_step {| w_db := empty_db; agents := ∅ |}
            {| w_db := table 1 online; agents := <[txt "px1" := started]> ∅ |}) as H1.
  { eapply rtc_l, rtc_refl.
    exact (step_start empty_db ∅ sample_agent Delivered (txt "id1") 1 [] started (table 1 online) []
             eq_refl eq_refl eq_refl). }
  split.
  - eexists _, _. split.
    { etrans; [exact H1|].
      eapply rtc_l; [refine (step_stop _ _ (txt "px1") started Delivered []
        (set_stopped started) (table 1 offline) [] _ eq_refl _); [apply lookup_insert_eq|reflexivity]|].
      eapply rtc_l; [refine (step_tick _ _ (txt "px1") (set_stopped started) Delivered Delivered
        (txt "id2") 3 [] (set_stopped started) (table 3 online) [] _ eq_refl _);
        [apply lookup_insert_eq|reflexivity]|].
      eapply rtc_l; [refine (step_exit _ _ (txt "px1") (set_stopped started) _ eq_refl);
        apply lookup_insert_eq|]. apply rtc_refl. }
    cbn [agents]. rewrite lookup_insert_eq. done.
  - eexists _, _. split.
    { etrans; [exact H1|].
      eapply rtc_l; [refine (step_tick _ _ (txt "px1") started ResponseLost RequestLost
        (txt "id2") 2 [] (set_registered started false) (table 2 online) [] _ eq_refl _);
        [apply lookup_insert_eq|reflexivity]|].
      eapply rtc_l; [refine (step_stop _ _ (txt "px1") (set_registered started false) Delivered []
        (set_stopped (set_registered started false)) (table 2 online) [] _ eq_refl _);
        [apply lookup_insert_eq|reflexivity]|].
      eapply rtc_l; [refine (step_exit _ _ (txt "px1") (set_stopped (set_registered started false)) _ eq_refl);
        apply lookup_insert_eq|]. apply rtc_refl. }
    cbn [agents]. rewrite lookup_insert_eq. done.
Qed.

Lemma registered_has_row_witness :
  ∃ w, agents w = {[ txt "px1" := set_running (set_registered sample_agent true) true ]} ∧
       ∃ p, p ∈ proxies (w_db w) ∧ Proxy.ProxyID p = txt "px1".
Proof.
  set (started := set_running (set_registered sample_agent true) true).
  exists {| w_db := set_proxies empty_db [row_at 1 online];
            agents := <[txt "px1" := started]> ∅ |}. split; [reflexivity|].
  refine (proj2 (registered_has_row empty_db _ (NoDup_nil_2 : NoDup (pids empty_db)) _)
            (txt "px1") started (lookup_insert_eq _ _ _) eq_refl).
  eapply rtc_l, rtc_refl.
  exact (step_start empty_db ∅ sample_agent Delivered (txt "id1") 1 [] started
           (set_proxies empty_db [row_at 1 online]) [] eq_refl eq_refl eq_refl).
Defined.

Lemma tick_heals_witness :
  ∃ r' db', heartbeat_tick Delivered Delivered (txt "id2") 9 sample_agent
      (set_proxies empty_db [row_at 1 offline]) [] = (Ok r', db', []) ∧ registered r' = true.
Proof.
  destruct (tick_heals (txt "id2") 9 sample_agent (set_proxies empty_db [row_at 1 offline]))
    as (r' & db' & H1 & H2 & _).
  - discriminate.
  - reflexivity.
  - apply (bool_decide_unpack _). vm_compute. exact I.
  - exists r', db'. split; assumption.
Defined.

Lemma monitor_truth_witness :
  ∃ db', checkProxies (λ _, false) 9 (set_proxies empty_db [row_at 1 online]) [] = (Ok (), db', []) ∧
         proxies db' = [row_at 1 offline].
Proof.
  destruct (monitor_truth (λ _, false) 9 (set_proxies empty_db [row_at 1 online]))
    as (db' & H1 & H2).
  - apply NoDup_singleton.
  - exists db'. split; [exact H1|]. exact H2.
Defined.
