(* ===== verification/Router.v ===== *)
(** * Connection routing

    [ConnectionRouter] of [internal/router/connection_router.go]: whether a
    connection goes to the host directly or through a proxy agent, from the mode
    of the host, its tags, the settings and the agents online; and the cache of
    connectivity probes.  [json_strings] is [json.Unmarshal] into a slice of
    strings, [err_text] the text of a database error.  Times of the cache are in
    milliseconds. *)

From stdpp Require Import base list strings gmap pretty sorting.
From Stdlib Require Import ZArith Lia.
From S2P Require Import Prelude GoStrings Gorm Models Database Repositories.
Local Open Scope Z_scope.

(** ** The connectivity cache *)

Record CacheEntry := { Reachable : bool; LatencyMs : Z; ExpireTime : Z }.

Definition ConnectivityCache : Type := gmap text CacheEntry.

Definition NewConnectivityCache : ConnectivityCache := ∅.

Definition Get (c : ConnectivityCache) (now : Z) (key : text) : option CacheEntry :=
  entry ← c !! key;
  if ExpireTime entry <? now then None else Some entry.

Definition Set_ (c : ConnectivityCache) (now : Z) (key : text) (reachable : bool)
    (latencyMs ttl : Z) : ConnectivityCache :=
  <[key := {| Reachable := reachable; LatencyMs := latencyMs; ExpireTime := now + ttl |}]> c.

(** One tick of the clean-up goroutine. *)
Definition cleanup (c : ConnectivityCache) (now : Z) : ConnectivityCache :=
  filter (λ kv, ¬ (ExpireTime kv.2 < now)) c.

Definition address (ip : text) (port : Z) : text := ip ++ txt ":" ++ txt (pretty port).

(** [checkDirectConnectivity] at [now]; a dial, if it is made, takes [latencyMs]
    and succeeds or not. *)
Definition checkDirectConnectivity (c : ConnectivityCache) (ip : text) (port now : Z)
    (dials : bool) (latencyMs : Z) : bool * Z * ConnectivityCache :=
  let cacheKey := address ip port in
  match Get c now cacheKey with
  | Some cached => (Reachable cached, LatencyMs cached, c)
  | None =>
      let ends := now + latencyMs in
      if dials then (true, latencyMs, Set_ c ends cacheKey true latencyMs (5 * 60 * 1000))
      else (false, latencyMs, Set_ c ends cacheKey false 0 (30 * 1000))
  end.

(** ** The decision *)

Definition ConnectionModeDirect : text := txt "direct".
Definition ConnectionModeProxy : text := txt "proxy".

Definition direct (reason : text) : RoutingDecision.t :=
  {| RoutingDecision.Mode := ConnectionModeDirect; RoutingDecision.Direct := true;
     RoutingDecision.ProxyID := []; RoutingDecision.ProxyURL := [];
     RoutingDecision.Reason := reason |}.

Definition proxy_url (p : Proxy.t) : text :=
  txt "ws://" ++ address (Proxy.IP p) (Proxy.Port p) ++ txt "/ws/connect".

Definition through (p : Proxy.t) (reason : text) : RoutingDecision.t :=
  {| RoutingDecision.Mode := ConnectionModeProxy; RoutingDecision.Direct := false;
     RoutingDecision.ProxyID := Proxy.ProxyID p; RoutingDecision.ProxyURL := proxy_url p;
     RoutingDecision.Reason := reason |}.

Definition useSpecifiedProxy (proxyID reason : text) : DB (result text RoutingDecision.t) :=
  if is_empty proxyID then mret (Err (txt "proxy ID is empty"))
  else
    proxy ← caught (FindProxyInfoByID proxyID);
    mret (match proxy with
          | Err _ => Err (txt "specified proxy not found: " ++ proxyID)
          | Ok proxy =>
              if negb (text_eqb (Proxy.Status proxy) online)
              then Err (txt "specified proxy is offline: " ++ proxyID)
              else Ok (through proxy reason)
          end).

Section router.
Context `{Unicode} (json_strings : text → option (list text)) (err_text : db_error → text).

Definition same_tag (proxyTag hostTag : text) : bool :=
  equal_fold (trim_space proxyTag) (trim_space hostTag).

(** The nested loops: an empty host tag that matches ends the inner loop without
    ending the outer. *)
Fixpoint matchedTag (proxyTags hostTags : list text) : text :=
  match proxyTags with
  | [] => []
  | proxyTag :: proxyTags =>
      match keep (same_tag proxyTag) hostTags with
      | hostTag :: _ => if is_empty hostTag then matchedTag proxyTags hostTags else hostTag
      | [] => matchedTag proxyTags hostTags
      end
  end.

(** The tags of a JSON column; an empty column has none. *)
Definition hostTags (host : Host.t) : option (list text) :=
  if is_empty (Host.Tags host) then Some [] else json_strings (Host.Tags host).

(** The steps after a tag matched. *)
Definition use_default_proxy (tag : text) : DB (option RoutingDecision.t) :=
  setting ← attempt (GetSettingByKey (txt "routing_default_proxy_id"));
  match setting with
  | Some (Some setting) =>
      let proxyID := trim_space (Setting.Value setting) in
      if is_empty proxyID then mret None
      else
        decision ← useSpecifiedProxy proxyID
                     (txt "Host tag '" ++ tag ++ txt "' requires proxy connection");
        mret (match decision with Ok d => Some d | Err _ => None end)
  | _ => mret None
  end.

Definition checkTagBasedRouting (host : Host.t) : DB (option RoutingDecision.t) :=
  available ← attempt FindOnlineProxies;
  match available with
  | None | Some [] => mret None
  | Some _ =>
      setting ← attempt (GetSettingByKey (txt "routing_proxy_tags"));
      match setting with
      | Some (Some setting) =>
          match json_strings (Setting.Value setting) with
          | None | Some [] => mret None
          | Some proxyTags =>
              match hostTags host with
              | None | Some [] => mret None
              | Some tags =>
                  let tag := matchedTag proxyTags tags in
                  if is_empty tag then mret None else use_default_proxy tag
              end
          end
      | _ => mret None
      end
  end.

Definition MakeRoutingDecision (hostID : text) : DB (result text RoutingDecision.t) :=
  host ← caught (FindHostByID hostID);
  match host with
  | Err e => mret (Err (txt "host not found: " ++ err_text e))
  | Ok host =>
      if text_eqb (Host.ConnectionMode host) ConnectionModeDirect then
        mret (Ok (direct (txt "Host '" ++ Host.Name host ++ txt "' configured for direct connection")))
      else if text_eqb (Host.ConnectionMode host) ConnectionModeProxy then
        useSpecifiedProxy (Host.ProxyID host)
          (txt "Host '" ++ Host.Name host ++ txt "' configured for proxy connection")
      else
        decision ← checkTagBasedRouting host;
        mret (Ok (match decision with
                  | Some decision => decision
                  | None => direct (txt "Default policy: API Server direct connection to "
                                    ++ Host.Name host)
                  end))
  end.

(** [findBestProxy], which no decision calls. *)
Definition findBestProxy (host : Host.t) : DB (result text Proxy.t) :=
  zoned ← (if is_empty (Host.NetworkZone host) then mret None
           else attempt (FindOnlineProxiesByZone (Host.NetworkZone host)));
  match zoned with
  | Some (p :: _) => mret (Ok p)
  | _ =>
      found ← caught FindOnlineProxies;
      mret (match found with
            | Err e => Err (err_text e)
            | Ok [] => Err (txt "no online proxy available")
            | Ok (p :: _) => Ok p
            end)
  end.
End router.

(** ** The cache *)

(** The clean-up goroutine is invisible: whatever it removed at [now], every
    later lookup answers as it would have without it. *)
Theorem cleanup_transparent c now t key :
  now <= t → Get (cleanup c now) t key = Get c t key.
Proof.
  intros Ht. assert (cleanup c now !! key = e ← c !! key; if ExpireTime e <? now then None else Some e)
    as E.
  { unfold cleanup. destruct (c !! key) as [e|] eqn:E.
    - cbn [mbind option_bind]. destruct (Z.ltb_spec (ExpireTime e) now) as [Hlt|Hge].
      + apply map_lookup_filter_None_2. right. intros e' He'.
        pose proof (eq_trans (eq_sym E) He') as [= <-]. simpl. auto.
      + apply map_lookup_filter_Some_2; [done|simpl; lia].
    - apply map_lookup_filter_None_2. by left. }
  unfold Get. rewrite E. destruct (c !! key) as [e|]; [|done]. cbn [mbind option_bind].
  destruct (Z.ltb_spec (ExpireTime e) now) as [Hlt|Hge]; cbn [mbind option_bind]; [|done].
  by rewrite (proj2 (Z.ltb_lt _ _)) by lia.
Qed.

(** What the cache may hold: the outcome of a probe of the address, with the
    lifetime of that outcome. *)
Definition probe : Type := text * Z * bool.
Definition ttl (ok : bool) : Z := if ok then 300000 else 30000.
Definition cache_ok (log : list probe) (c : ConnectivityCache) : Prop :=
  map_Forall (λ key e, ∃ t, (key, t, Reachable e) ∈ log ∧ ExpireTime e = t + ttl (Reachable e)) c.

(** The history of the cache: probes of a dial at [now], and clean-ups. *)
Inductive cache_step : list probe * ConnectivityCache → list probe * ConnectivityCache → Prop :=
  | cs_hit log c ip port now dials ms :
      is_Some (Get c now (address ip port)) →
      cache_step (log, c) (log, (checkDirectConnectivity c ip port now dials ms).2)
  | cs_dial log c ip port now dials ms :
      Get c now (address ip port) = None →
      cache_step (log, c) ((address ip port, now + ms, dials) :: log,
                           (checkDirectConnectivity c ip port now dials ms).2)
  | cs_cleanup log c now : cache_step (log, c) (log, cleanup c now).

Lemma cache_ok_mono log x c : cache_ok log c → cache_ok (x :: log) c.
Proof. intros Hc k e Hk. destruct (Hc k e Hk) as (t & ? & ?). exists t. split; [by right|done]. Qed.

Lemma cache_step_ok s s' : cache_step s s' → cache_ok s.1 s.2 → cache_ok s'.1 s'.2.
Proof.
  destruct 1 as [log c ip port now dials ms [e He]|log c ip port now dials ms He|log c now];
    unfold checkDirectConnectivity; simpl; intros Hc.
  - by rewrite He.
  - rewrite He. destruct dials; simpl; (apply map_Forall_insert_2; [|by apply cache_ok_mono]);
      exists (now + ms); (split; [left|done]).
  - intros k e [Hk _]%map_lookup_filter_Some. by apply Hc.
Qed.

(** An answer served from the cache is the outcome of a probe of that
    address, at most five minutes old when it succeeded and half a minute when it
    failed, whatever was probed and cleaned up in between. *)
Theorem cached_answer_fresh log c now ip port dials ms e :
  rtc cache_step ([], NewConnectivityCache) (log, c) →
  Get c now (address ip port) = Some e →
  (checkDirectConnectivity c ip port now dials ms).1.1 = Reachable e ∧
  ∃ t, (address ip port, t, Reachable e) ∈ log ∧
       now <= t + (if Reachable e then 300000 else 30000).
Proof.
  intros Hr Hg. split; [unfold checkDirectConnectivity; by rewrite Hg|].
  assert (cache_ok log c) as Hc.
  { apply (rtc_ind_r (R := cache_step) (λ s, cache_ok s.1 s.2) ([], NewConnectivityCache)
             ltac:(apply map_Forall_empty) ltac:(intros ? ? _; apply cache_step_ok) _ Hr). }
  unfold Get in Hg. destruct (c !! address ip port) as [e'|] eqn:E; [|done]. simpl in Hg.
  destruct (ExpireTime e' <? now) eqn:El; [done|]. injection Hg as ->.
  destruct (Hc _ _ E) as (t & Ht & He). exists t. split; [done|].
  apply Z.ltb_ge in El. unfold ttl in He. lia.
Qed.

(** ** The decision *)

Lemma useSpecifiedProxy_Ok id reason db f d db' f' :
  useSpecifiedProxy id reason db f = (Ok (Ok d), db', f') →
  db' = db ∧ ∃ p, p ∈ proxies db ∧ Proxy.ProxyID p = id ∧ Proxy.Status p = online ∧
                  d = through p reason.
Proof.
  unfold useSpecifiedProxy. destruct (is_empty id); [done|].
  intros (r & db1 & f1 & Hr%caught_Ok & H)%bind_Ok. injection H as Hd <- _.
  destruct r as [p|e]; [|done]. apply FindProxyInfoByID_Ok in Hr as (Hp & Hid & ->).
  destruct (negb _) eqn:En; [done|]. injection Hd as <-.
  apply negb_false_iff, text_eqb_true in En. split; [done|]. by exists p.
Qed.

Lemma reads_useSpecifiedProxy id reason : reads (useSpecifiedProxy id reason).
Proof. unfold useSpecifiedProxy, FindProxyInfoByID. preserves_tac. Qed.

#[local] Hint Resolve reads_useSpecifiedProxy : reads.

Section decision.
Context `{Unicode} (json_strings : text → option (list text)) (err_text : db_error → text).

Lemma reads_use_default_proxy tag : reads (use_default_proxy tag).
Proof.
  unfold use_default_proxy. preserves_tac.
Qed.
#[local] Hint Resolve reads_use_default_proxy : reads.

Lemma reads_checkTagBasedRouting host : reads (checkTagBasedRouting json_strings host).
Proof.
  unfold checkTagBasedRouting, FindOnlineProxies. preserves_tac.
Qed.
#[local] Hint Resolve reads_checkTagBasedRouting : reads.

Lemma reads_MakeRoutingDecision hostID : reads (MakeRoutingDecision json_strings err_text hostID).
Proof. unfold MakeRoutingDecision, FindHostByID. preserves_tac. Qed.

(** *** When a host of mode [auto] goes through an agent *)

Definition setting (db : Db) (key : text) : option text :=
  Setting.Value <$> head (keep (λ s, text_eqb (Setting.Key s) key) (settings db)).

(** The settings ask for the agent [p]: a tag of the host is in the list of
    tags that need one, and the default agent is [p], online. *)
Definition requires_proxy (db : Db) (h : Host.t) (p : Proxy.t) : Prop :=
  (∃ v ptags tags t u,
     setting db (txt "routing_proxy_tags") = Some v ∧ json_strings v = Some ptags ∧
     hostTags json_strings h = Some tags ∧ t ∈ ptags ∧ u ∈ tags ∧ same_tag t u = true) ∧
  p ∈ proxies db ∧ Proxy.Status p = online ∧
  (∃ id, setting db (txt "routing_default_proxy_id") = Some id ∧ trim_space id ≠ [] ∧
         Proxy.ProxyID p = trim_space id).

Lemma GetSettingByKey_run key db :
  GetSettingByKey key db [] = (Ok (head (keep (λ s, text_eqb (Setting.Key s) key) (settings db))), db, []).
Proof.
  unfold GetSettingByKey. rewrite bind_run, caught_run. unfold first, query. cbn [tail].
  by destruct (keep _ _).
Qed.

Lemma useSpecifiedProxy_run p reason db :
  NoDup (Proxy.ProxyID <$> proxies db) → p ∈ proxies db → Proxy.Status p = online →
  Proxy.ProxyID p ≠ [] →
  useSpecifiedProxy (Proxy.ProxyID p) reason db [] = (Ok (Ok (through p reason)), db, []).
Proof.
  intros HN Hp Hon Hid. unfold useSpecifiedProxy.
  destruct (is_empty (Proxy.ProxyID p)) eqn:E; [by destruct (Proxy.ProxyID p)|].
  rewrite bind_run, caught_run. unfold FindProxyInfoByID, first, query. cbn [tail].
  rewrite (keep_key _ _ _ p) by done. by rewrite (proj2 (text_eqb_true _ _) Hon).
Qed.

Lemma matchedTag_nonempty ptags tags :
  Forall (λ t, trim_space t ≠ []) ptags →
  matchedTag ptags tags ≠ [] ↔ ∃ t u, t ∈ ptags ∧ u ∈ tags ∧ same_tag t u = true.
Proof.
  induction 1 as [|t ptags Ht _ IH]; simpl.
  { split; [done|]. by intros (? & ? & ?%not_elem_of_nil & _). }
  destruct (keep (same_tag t) tags) as [|u us] eqn:E.
  - rewrite IH. split; intros (t' & u & Ht' & Hu & Hs).
    + exists t', u. split_and!; [by right|done..].
    + apply elem_of_cons in Ht' as [->|Ht']; [|by exists t', u].
      assert (u ∈ keep (same_tag t) tags) as Hk by (by apply elem_of_keep).
      rewrite E in Hk. by apply not_elem_of_nil in Hk.
  - destruct (keep_head _ _ _ _ E) as [Hu Hs]. destruct u as [|c u]; simpl.
    + exfalso. apply Ht. unfold same_tag in Hs.
      destruct (trim_space t); [done|]. by rewrite trim_space_nil in Hs.
    + split; [|done]. intros _. exists t, (c :: u). split_and!; [left|done..].
Qed.

Lemma GetSettingByKey_Some key db f s db' f' :
  GetSettingByKey key db f = (Ok (Some s), db', f') → setting db key = Some (Setting.Value s).
Proof.
  unfold GetSettingByKey. intros (r & db1 & f1 & Hr%caught_Ok & H1)%bind_Ok.
  destruct r as [s'|[]]; try done. injection H1 as -> _ _.
  apply query_Ok in Hr as [Hr _]. unfold setting. destruct (keep _ _); [done|]. by injection Hr as ->.
Qed.

Lemma matchedTag_Some ptags tags :
  matchedTag ptags tags ≠ [] → ∃ t u, t ∈ ptags ∧ u ∈ tags ∧ same_tag t u = true.
Proof.
  induction ptags as [|t ptags IH]; simpl; [done|]. destruct (keep _ _) as [|u us] eqn:E.
  - intros (t' & u & ? & ?)%IH. exists t', u. split; [by right|done].
  - destruct (keep_head _ _ _ _ E) as [Hu Hs]. destruct (is_empty u).
    + intros (t' & u' & ? & ?)%IH. exists t', u'. split; [by right|done].
    + intros _. exists t, u. split; [left|done].
Qed.

Lemma use_default_proxy_Some tag db f d db' f' :
  use_default_proxy tag db f = (Ok (Some d), db', f') →
  db' = db ∧ ∃ p reason, d = through p reason ∧ p ∈ proxies db ∧ Proxy.Status p = online ∧
    ∃ id, setting db (txt "routing_default_proxy_id") = Some id ∧ trim_space id ≠ [] ∧
          Proxy.ProxyID p = trim_space id.
Proof.
  intros (o & db1 & f1 & Ho & H1)%bind_Ok. destruct o as [[s|]|]; try done.
  pose proof Ho as Hs. apply attempt_Ok in Hs as [(? & [= <-] & Hs%GetSettingByKey_Some)|(? & ? & _)];
    [|done].
  assert (db1 = db) as -> by (refine (reads_run _ _ _ _ _ _ _ Ho);
    preserves_tac).
  cbv zeta in H1. destruct (is_empty (trim_space (Setting.Value s))) eqn:Ee; [done|].
  apply bind_Ok in H1 as ([d'|e] & db2 & f2 & Hd & H1); injection H1 as Hd' <- <-; [|done].
  subst d'. apply useSpecifiedProxy_Ok in Hd as (-> & p & Hp & Hpid & Hon & ->). split; [done|].
  eexists p, _. split_and!; [done..|]. exists (Setting.Value s). split_and!; [done| |done].
  intros E. by rewrite E in Ee.
Qed.

(** A decision by tags is one the settings ask for. *)
Lemma checkTagBasedRouting_Some host db f d db' f' :
  checkTagBasedRouting json_strings host db f = (Ok (Some d), db', f') →
  db' = db ∧ ∃ p reason, d = through p reason ∧ requires_proxy db host p.
Proof.
  intros (ps & db1 & f1 & Hps & H1)%bind_Ok.
  assert (db1 = db) as -> by (refine (reads_run _ _ _ _ _ _ _ Hps);
    unfold FindOnlineProxies; preserves_tac).
  destruct ps as [[|p ps]|]; try done.
  apply bind_Ok in H1 as (s & db2 & f2 & Hs & H1). destruct s as [[s|]|]; try done.
  pose proof Hs as Hv. apply attempt_Ok in Hv as [(? & [= <-] & Hv%GetSettingByKey_Some)|(? & ? & _)];
    [|done].
  assert (db2 = db) as -> by (refine (reads_run _ _ _ _ _ _ _ Hs);
    preserves_tac).
  destruct (json_strings _) as [ptags|] eqn:Ept; [|done]. destruct ptags as [|t ts]; [done|].
  destruct (hostTags json_strings host) as [tags|] eqn:Et; [|done]. destruct tags as [|u us]; [done|].
  cbv zeta in H1. destruct (is_empty (matchedTag _ _)) eqn:Em; [done|].
  apply use_default_proxy_Some in H1 as (-> & q & reason & -> & Hq & Hon & Hid).
  split; [done|]. exists q, reason. split; [done|]. split; [|split; [done|by split]].
  destruct (matchedTag_Some (t :: ts) (u :: us)) as (t' & u' & ? & ? & ?).
  { intros E. by rewrite E in Em. }
  exists (Setting.Value s), (t :: ts), (u :: us), t', u'. by split_and!.
Qed.

(** C26: A decision never contradicts the mode of the host or the state of the
    agents, whichever queries fail: it is direct and names no agent, or it names
    an agent of the table that is online, at its address; a host in proxy mode is
    never connected directly and one in direct mode never through an agent. *)
Theorem routing_decision_sound hostID db f d db' f' :
  MakeRoutingDecision json_strings err_text hostID db f = (Ok (Ok d), db', f') →
  db' = db ∧ ∃ h, h ∈ hosts db ∧ Host.ID h = hostID ∧
    ((∃ reason, d = direct reason ∧ Host.ConnectionMode h ≠ ConnectionModeProxy) ∨
     (∃ reason p, d = through p reason ∧ p ∈ proxies db ∧ Proxy.Status p = online ∧
        (Host.ConnectionMode h = ConnectionModeProxy ∧ Proxy.ProxyID p = Host.ProxyID h ∨
         Host.ConnectionMode h ∉ [ConnectionModeDirect; ConnectionModeProxy] ∧
         requires_proxy db h p))).
Proof.
  intros (r & db1 & f1 & Hr%caught_Ok & H1)%bind_Ok. destruct r as [h|e]; [|done].
  apply first_keep_Ok in Hr as (Hh & Hid%text_eqb_true & ->).
  destruct (text_eqb (Host.ConnectionMode h) ConnectionModeDirect) eqn:Ed.
  { apply text_eqb_true in Ed. injection H1 as <- <- _. split; [done|]. exists h.
    split_and!; [done..|]. left. eexists. split; [done|]. by rewrite Ed. }
  apply bool_decide_eq_false in Ed.
  destruct (text_eqb (Host.ConnectionMode h) ConnectionModeProxy) eqn:Ep.
  - apply text_eqb_true in Ep. apply useSpecifiedProxy_Ok in H1 as (-> & p & Hp & Hpid & Hon & ->).
    split; [done|]. exists h. split_and!; [done..|]. right.
    eexists _, p. split; [done|]. split; [done|]. split; [done|]. by left.
  - apply bool_decide_eq_false in Ep. apply bind_Ok in H1 as (o & db2 & f2 & Ho & H1).
    injection H1 as <- <- <-. destruct o as [d|].
    + apply checkTagBasedRouting_Some in Ho as (-> & p & reason & -> & Hreq).
      split; [done|]. exists h. split_and!; [done..|]. right. exists reason, p.
      split; [done|]. split; [apply Hreq|]. split; [apply Hreq|]. right. split; [|done].
      rewrite !not_elem_of_cons. split; [exact Ed|]. split; [exact Ep|]. apply not_elem_of_nil.
    + assert (db2 = db) as ->.
      { refine (reads_run _ _ _ _ _ _ _ Ho). unfold checkTagBasedRouting, FindOnlineProxies.
        preserves_tac. }
      split; [done|]. exists h. split_and!; [done..|]. left. eauto.
Qed.

Lemma checkTagBasedRouting_complete h p db :
  NoDup (Proxy.ProxyID <$> proxies db) → requires_proxy db h p →
  (∀ v ptags, setting db (txt "routing_proxy_tags") = Some v → json_strings v = Some ptags →
     Forall (λ t, trim_space t ≠ []) ptags) →
  ∃ reason, checkTagBasedRouting json_strings h db [] = (Ok (Some (through p reason)), db, []).
Proof.
  intros HN ((v & ptags & tags & t & u & Hv & Hpt & Htags & Ht & Hu & Htu) & Hp & Hon &
             id & Hid & Hne & Hpid) Hblank.
  specialize (Hblank _ _ Hv Hpt). unfold checkTagBasedRouting, FindOnlineProxies, attempt.
  rewrite bind_run. cbn [find query tail].
  destruct (merge_sort beats_after _) as [|q qs] eqn:Es.
  { assert (p ∈ merge_sort beats_after
              (keep (λ p, text_eqb (Proxy.Status p) online) (proxies db))) as Hin.
    { rewrite merge_sort_Permutation. apply elem_of_keep. split; [done|]. by apply text_eqb_true. }
    rewrite Es in Hin. by apply not_elem_of_nil in Hin. }
  clear q qs Es. rewrite bind_run, GetSettingByKey_run. unfold setting in Hv, Hid.
  destruct (head (keep _ (settings db))) as [s|] eqn:Es in Hv; [|done]. injection Hv as Hv.
  rewrite Es, Hv, Hpt, Htags.
  destruct ptags as [|t0 ts]; [by apply not_elem_of_nil in Ht|].
  destruct tags as [|u0 us]; [by apply not_elem_of_nil in Hu|].
  assert (matchedTag (t0 :: ts) (u0 :: us) ≠ []) as Hm by (apply matchedTag_nonempty; eauto).
  cbv zeta. destruct (is_empty (matchedTag _ _)) eqn:Em; [by destruct (matchedTag _ _)|].
  unfold use_default_proxy, attempt. rewrite bind_run, GetSettingByKey_run.
  destruct (head (keep _ (settings db))) as [s'|] eqn:Es' in Hid; [|done]. injection Hid as Hid.
  rewrite Es', Hid. cbv zeta. destruct (is_empty (trim_space id)) eqn:Ei.
  { by destruct (trim_space id). }
  rewrite bind_run, <- Hpid, useSpecifiedProxy_run by (done || by rewrite Hpid). eauto.
Qed.

(** The tag policy is enforced when the database answers: if the settings ask
    for an agent for a host of mode [auto] (one of its tags is in the list, in
    any case and with any space around, and the default agent is online), the
    decision is that agent. *)
Theorem tag_routing_complete hostID h p db :
  NoDup (Host.ID <$> hosts db) → NoDup (Proxy.ProxyID <$> proxies db) →
  h ∈ hosts db → Host.ID h = hostID →
  Host.ConnectionMode h ∉ [ConnectionModeDirect; ConnectionModeProxy] →
  (∀ v ptags, setting db (txt "routing_proxy_tags") = Some v → json_strings v = Some ptags →
     Forall (λ t, trim_space t ≠ []) ptags) →
  requires_proxy db h p →
  ∃ reason, MakeRoutingDecision json_strings err_text hostID db []
            = (Ok (Ok (through p reason)), db, []).
Proof.
  intros HN HNp Hh Hid Hmode Hblank Hreq. unfold MakeRoutingDecision.
  rewrite bind_run, caught_run. unfold FindHostByID, first, query. cbn [tail].
  rewrite (keep_key _ _ _ h) by done.
  rewrite !not_elem_of_cons in Hmode. destruct Hmode as (Hd & Hp & _).
  destruct (text_eqb _ ConnectionModeDirect) eqn:Ed; [by apply text_eqb_true in Ed|].
  destruct (text_eqb _ ConnectionModeProxy) eqn:Ep; [by apply text_eqb_true in Ep|].
  destruct (checkTagBasedRouting_complete h p db HNp Hreq Hblank) as (reason & Hc).
  exists reason. by rewrite bind_run, Hc.
Qed.
End decision.

(** ** Concrete tables *)

Definition sample_json (s : text) : option (list text) :=
  if text_eqb s (txt "[dmz]") then Some [txt "dmz"] else None.

Definition sample_proxy (status : text) : Proxy.t :=
  {| Proxy.ID := txt "id1"; Proxy.ProxyID := txt "px1"; Proxy.HostName := txt "edge";
     Proxy.IP := txt "10.0.0.9"; Proxy.Port := 8022; Proxy.Status := status;
     Proxy.Version := txt "1.0.0"; Proxy.NetworkZone := []; Proxy.StartTime := 0;
     Proxy.LastHeartbeat := 0 |}.

Definition routed_host (mode : text) : Host.t :=
  {| Host.ID := txt "h1"; Host.Name := txt "web"; Host.IP := txt "10.0.0.5"; Host.Port := 22;
     Host.Status := online; Host.OS := []; Host.CPU := []; Host.Memory := []; Host.Tags := txt "[dmz]"; Host.Description := [];
     Host.DeviceType := txt "linux"; Host.ConnectionMode := mode; Host.ProxyID := txt "px1";
     Host.NetworkZone := []; Host.LastLoginTime := None; Host.LoginCount := 0 |}.

Definition a_setting (k v : text) : Setting.t :=
  {| Setting.ID := 1; Setting.Key := k; Setting.Value := v; Setting.Category := [];
     Setting.Type_ := [] |}.

Definition routing_db (mode status : text) : Db :=
  {| users := []; system_users := []; user_groups := []; user_group_members := [];
     permission_rules := []; rule_system_users := []; rule_host_groups := []; host_groups := [];
     host_group_members := []; hosts := [routed_host mode]; proxies := [sample_proxy status];
     settings := [a_setting (txt "routing_proxy_tags") (txt "[dmz]");
                  a_setting (txt "routing_default_proxy_id") (txt " px1 ")];
     aux := empty_aux |}.

Definition no_err_text (e : db_error) : text := [].

Lemma routing_decision_sound_witness :
  ∃ h, h ∈ hosts (routing_db (txt "auto") online) ∧ Host.ID h = txt "h1".
Proof.
  destruct (routing_decision_sound sample_json no_err_text (txt "h1")
    (routing_db (txt "auto") online) []
    (through (sample_proxy online) (txt "Host tag 'dmz' requires proxy connection"))
    (routing_db (txt "auto") online) []) as (_ & h & H1 & H2 & _).
  - vm_compute. reflexivity.
  - exists h. split; assumption.
Defined.

Lemma tag_routing_complete_witness :
  ∃ reason, MakeRoutingDecision sample_json no_err_text (txt "h1") (routing_db (txt "auto") online) []
            = (Ok (Ok (through (sample_proxy online) reason)), routing_db (txt "auto") online, []).
Proof.
  apply (tag_routing_complete sample_json no_err_text (txt "h1") (routed_host (txt "auto"))).
  - apply NoDup_singleton.
  - apply NoDup_singleton.
  - left.
  - reflexivity.
  - apply (bool_decide_unpack _). vm_compute. exact I.
  - intros v ptags Hv Hp. vm_compute in Hv. injection Hv as <-. vm_compute in Hp. injection Hp as <-.
    repeat constructor. vm_compute. discriminate.
  - split.
    + exists (txt "[dmz]"), [txt "dmz"], [txt "dmz"], (txt "dmz"), (txt "dmz").
      split_and!; try (vm_compute; reflexivity); left.
    + split; [left|]. split; [reflexivity|]. exists (txt " px1 ").
      split_and!; [vm_compute; reflexivity|vm_compute; discriminate|vm_compute; reflexivity].
Defined.

Lemma cleanup_transparent_witness :
  Get (cleanup (Set_ ∅ 0 (txt "a:22") true 3 10) 11) 12 (txt "a:22")
  = Get (Set_ ∅ 0 (txt "a:22") true 3 10) 12 (txt "a:22").
Proof. apply cleanup_transparent. lia. Defined.

Lemma cached_answer_fresh_witness :
  ∃ t, (address (txt "a") 22, t, true) ∈ [(address (txt "a") 22, 3, true)] ∧ 10 <= t + 300000.
Proof.
  refine (proj2 (cached_answer_fresh [(address (txt "a") 22, 3, true)]
    (checkDirectConnectivity ∅ (txt "a") 22 0 true 3).2 10 (txt "a") 22 false 0
    {| Reachable := true; LatencyMs := 3; ExpireTime := 300003 |} _ _)).
  - eapply rtc_l, rtc_refl. exact (cs_dial [] ∅ (txt "a") 22 0 true 3 eq_refl).
  - vm_compute. reflexivity.
Defined.

(** The policy fails open: while the default agent is down, a host whose tag
    requires one is connected directly; in mode [proxy] the same host is refused. *)
Example tag_routing_fails_open :
  res (MakeRoutingDecision sample_json no_err_text (txt "h1") (routing_db (txt "auto") offline) [])
    = Ok (Ok (direct (txt "Default policy: API Server direct connection to web"))) ∧
  res (MakeRoutingDecision sample_json no_err_text (txt "h1") (routing_db (txt "proxy") offline) [])
    = Ok (Err (txt "specified proxy is offline: px1")).
Proof. vm_compute. done. Qed.
