(* ===== verification/Sessions.v ===== *)
(** * Session tokens, login records and recordings

    [internal/service/session_service.go] and the writes of
    [internal/repository/session_repository.go]: the tokens a proxy agent checks,
    kept in memory for five minutes, the rows that say which session ran, and
    the termination of a session.  The token is 32 random bytes, an argument. *)

From stdpp Require Import base list strings gmap relations pretty.
From Stdlib Require Import ZArith Lia.
From S2P Require Import Prelude GoStrings Gorm Models Database Repositories.
Local Open Scope Z_scope.

(** ** The tokens *)

Module SessionToken.
Record t := { Token : text; HostID : text; UserID : text; Username : text; ExpiresAt : Z }.
End SessionToken.

(** [sessionTokens], a [sync.Map]. *)
Definition Tokens : Type := gmap text SessionToken.t.

Definition five_minutes : Z := 300.

Definition ValidateSessionToken (tokens : Tokens) (token : text) (now : Z)
    : result text SessionToken.t * Tokens :=
  match tokens !! token with
  | None => (Err (txt "invalid token"), tokens)
  | Some tokenInfo =>
      if SessionToken.ExpiresAt tokenInfo <? now
      then (Err (txt "token expired"), delete token tokens)
      else (Ok tokenInfo, tokens)
  end.

Definition cleanExpiredTokens (tokens : Tokens) (now : Z) : Tokens :=
  filter (λ kv, ¬ (SessionToken.ExpiresAt kv.2 < now)) tokens.

(** ** The rows *)

Definition create_login_record (r : LoginRecord.t) : DB unit := execute (λ db,
  if existsb (λ q, text_eqb (LoginRecord.ID q) (LoginRecord.ID r)) (login_records (aux db))
  then Err DuplicatedKey
  else Ok (set_login_records db (login_records (aux db) ++ [r]))).

(** [session_id] of the recordings has a unique index. *)
Definition create_recording (r : SessionRecording.t) : DB unit := execute (λ db,
  if existsb (λ q, text_eqb (SessionRecording.ID q) (SessionRecording.ID r) ||
                   text_eqb (SessionRecording.SessionID q) (SessionRecording.SessionID r))
             (session_recordings (aux db))
  then Err DuplicatedKey
  else Ok (set_session_recordings db (session_recordings (aux db) ++ [r]))).

(** [UPDATE .. WHERE session_id = ..]. *)
Definition update_login_records (sessionID : text) (f : LoginRecord.t → LoginRecord.t) : DB unit :=
  execute (λ db, Ok (set_login_records db
    (updated (λ r, text_eqb (LoginRecord.SessionID r) sessionID) f <$> login_records (aux db)))).
Definition update_recordings (sessionID : text) (f : SessionRecording.t → SessionRecording.t) : DB unit :=
  execute (λ db, Ok (set_session_recordings db
    (updated (λ r, text_eqb (SessionRecording.SessionID r) sessionID) f
       <$> session_recordings (aux db)))).

(** [fmt.Sprintf("%dm %ds", minutes, seconds)] of a duration in seconds. *)
Definition duration_text (diff : Z) : text :=
  txt (pretty (Z.quot diff 60)) ++ txt "m " ++ txt (pretty (Z.rem diff 60)) ++ txt "s".

(** The rows of a session not used before. *)
Record fresh_session (db : Db) (sessionID recordingID : text) : Prop := {
  no_login r : r ∈ login_records (aux db) →
               LoginRecord.SessionID r ≠ sessionID ∧ LoginRecord.ID r ≠ sessionID;
  no_recording r : r ∈ session_recordings (aux db) →
                   SessionRecording.SessionID r ≠ sessionID ∧ SessionRecording.ID r ≠ recordingID
}.

Definition of_session (sessionID : text) (r : LoginRecord.t) : bool :=
  text_eqb (LoginRecord.SessionID r) sessionID.
Definition recorded (sessionID : text) (r : SessionRecording.t) : bool :=
  text_eqb (SessionRecording.SessionID r) sessionID.

(** ** The service *)

Module SessionResponse.
Record t := { SessionID : text; WSUrl : text; Token : text }.
End SessionResponse.

Definition session_token (hostID userID token : text) (now : Z) : SessionToken.t :=
  {| SessionToken.Token := token; SessionToken.HostID := hostID; SessionToken.UserID := userID;
     SessionToken.Username := []; SessionToken.ExpiresAt := now + five_minutes |}.

Definition CreateSession (hostID userID sessionID recordID token : text) (now : Z) (tokens : Tokens)
    : Eff text (SessionResponse.t * Tokens) :=
  host ← or_fail (λ _, txt "主机不存在") (FindHostByID hostID);
  _ ← or_fail (λ _, [])
    (create_login_record
       {| LoginRecord.ID := recordID; LoginRecord.UserID := userID; LoginRecord.HostID := hostID;
          LoginRecord.HostName := Host.Name host; LoginRecord.HostIP := Host.IP host;
          LoginRecord.Username := []; LoginRecord.LoginIP := []; LoginRecord.LoginTime := now; LoginRecord.LogoutTime := None;
          LoginRecord.Duration := None; LoginRecord.Status := txt "active";
          LoginRecord.SessionID := sessionID |});
  mret ({| SessionResponse.SessionID := sessionID;
           SessionResponse.WSUrl := txt "ws://localhost:8022/ws/ssh?token=" ++ token;
           SessionResponse.Token := token |},
        <[token := session_token hostID userID token now]> tokens).

Section termination.
Context (err_text : db_error → text).

(** [TerminateSession]; [call] is the DELETE request to the agent and its status. *)
Definition TerminateSession (call : Proxy.t → text → result text Z) (sessionID : text) (now : Z)
    : Eff text unit :=
  recording ← or_fail (λ e, txt "会话不存在: " ++ err_text e)
    (first (λ db, keep (λ r, text_eqb (SessionRecording.SessionID r) sessionID)
                       (session_recordings (aux db))));
  if negb (text_eqb (SessionRecording.Status recording) (txt "active"))
  then raise (txt "会话已结束，无需终止")
  else
    _ ← (if text_eqb (SessionRecording.ConnectionType recording) (txt "webshell") &&
            negb (is_empty (SessionRecording.ProxyID recording)) then
           proxy ← or_fail (λ e, txt "无法找到 Proxy 信息: " ++ err_text e)
                     (FindProxyInfoByID (SessionRecording.ProxyID recording));
           match call proxy sessionID with
           | Err e => raise (txt "调用 Proxy API 失败: " ++ e)
           | Ok status => if status =? 200 then mret ()
                          else raise (txt "Proxy 返回错误状态: " ++ txt (pretty status))
           end
         else mret ());
    let diff := now - SessionRecording.StartTime recording in
    _ ← or_fail (λ e, txt "更新 session_recordings 状态失败: " ++ err_text e)
      (update_recordings sessionID (λ r, SessionRecording.set_end r now (duration_text diff)
                                           (txt "closed") (SessionRecording.Recording r)));
    _ ← attempt (update_login_records sessionID (λ r, LoginRecord.set_end r now diff (txt "closed")));
    mret ().
End termination.

(** ** The life of a token *)

(** The clock, the tokens, and every token ever issued. *)
Record token_world := { clock : Z; tokens : Tokens; issued : list SessionToken.t }.

(** Time passes between the steps; a new token is one never seen before. *)
Inductive token_step : token_world → token_world → Prop :=
  | token_created w now hostID userID sid rid token db f resp ts db' f' :
      clock w <= now → (∀ i, i ∈ issued w → SessionToken.Token i ≠ token) →
      CreateSession hostID userID sid rid token now (tokens w) db f = (Ok (resp, ts), db', f') →
      token_step w {| clock := now; tokens := ts;
                      issued := session_token hostID userID token now :: issued w |}
  | token_validated w now token :
      clock w <= now →
      token_step w {| clock := now; tokens := (ValidateSessionToken (tokens w) token now).2;
                      issued := issued w |}
  | tokens_cleaned w now :
      clock w <= now →
      token_step w {| clock := now; tokens := cleanExpiredTokens (tokens w) now; issued := issued w |}.

Definition no_tokens (now : Z) : token_world := {| clock := now; tokens := ∅; issued := [] |}.

Record tokens_ok (w : token_world) : Prop := {
  stored_issued tok i : tokens w !! tok = Some i → i ∈ issued w ∧ SessionToken.Token i = tok;
  live_stored i : i ∈ issued w → clock w <= SessionToken.ExpiresAt i →
                  tokens w !! SessionToken.Token i = Some i
}.

Lemma CreateSession_Ok hostID userID sid rid token now ts db f resp ts' db' f' :
  CreateSession hostID userID sid rid token now ts db f = (Ok (resp, ts'), db', f') →
  ts' = <[token := session_token hostID userID token now]> ts ∧ SessionResponse.Token resp = token.
Proof.
  intros (h & db1 & f1 & _ & H1)%bind_Ok. apply bind_Ok in H1 as ([] & db2 & f2 & _ & H2).
  by injection H2 as <- <- _ _.
Qed.

Lemma token_step_ok w w' : token_step w w' → tokens_ok w → tokens_ok w'.
Proof.
  intros [w0 now h u sid rid token db f resp ts db' f' Ht Hnew [-> _]%CreateSession_Ok
         |w0 now token Ht|w0 now Ht] [Hs Hl]; split; simpl.
  - intros tok i [[<- <-]|[_ Hi]]%lookup_insert_Some; [by split; [left|]|].
    destruct (Hs _ _ Hi). split; [by right|done].
  - intros i [->|Hi]%elem_of_cons Hexp; [by apply lookup_insert_Some; left|].
    apply lookup_insert_Some. right. split; [intros Heq; by apply (Hnew i Hi)|]. apply Hl; [done|lia].
  - unfold ValidateSessionToken. intros tok i. destruct (tokens w0 !! token) as [j|]; [|apply Hs].
    destruct (_ <? _); simpl; [|apply Hs]. intros [_ Hi]%lookup_delete_Some. by apply Hs.
  - intros i Hi Hexp. assert (tokens w0 !! SessionToken.Token i = Some i) as Hst by (apply Hl; [done|lia]).
    unfold ValidateSessionToken. destruct (tokens w0 !! token) as [j|] eqn:Ej; [|done].
    destruct (Z.ltb_spec (SessionToken.ExpiresAt j) now); simpl; [|done].
    apply lookup_delete_Some. split; [|done]. intros ->. rewrite Hst in Ej. injection Ej as ->. lia.
  - intros tok i [Hi _]%map_lookup_filter_Some. by apply Hs.
  - intros i Hi Hexp. apply map_lookup_filter_Some. split; [apply Hl; [done|lia]|simpl; lia].
Qed.

(** C29: The map of tokens implements its specification, a history: whatever
    sequence of sessions, checks and clean-ups ran, a token is accepted exactly
    when it was issued and its five minutes are not over, and it stands for the
    user and the host it was issued for. *)
Theorem session_tokens_refine start w tok now i :
  rtc token_step (no_tokens start) w → clock w <= now →
  (ValidateSessionToken (tokens w) tok now).1 = Ok i ↔
  i ∈ issued w ∧ SessionToken.Token i = tok ∧ now <= SessionToken.ExpiresAt i.
Proof.
  intros Hr Ht.
  assert (tokens_ok w) as [Hs Hl].
  { refine (rtc_ind_r (R := token_step) (λ w, tokens_ok w) (no_tokens start) _ _ w Hr).
    - split; simpl; [intros tok' j Hj; by apply lookup_empty_Some in Hj|by intros j []%not_elem_of_nil].
    - intros w1 w2 _ Hstep. by apply token_step_ok. }
  unfold ValidateSessionToken. split.
  - destruct (tokens w !! tok) as [j|] eqn:Ej; [|done].
    destruct (Z.ltb_spec (SessionToken.ExpiresAt j) now); [done|]. intros [= ->].
    destruct (Hs _ _ Ej). done.
  - intros (Hi & <- & Hexp). rewrite (Hl i Hi) by lia.
    by rewrite (proj2 (Z.ltb_ge _ _) Hexp).
Qed.

(** ** Concrete tokens *)

Definition host_named (id : text) : Host.t :=
  {| Host.ID := id; Host.Name := txt "web"; Host.IP := txt "10.0.0.1"; Host.Port := 22;
     Host.Status := txt "online"; Host.OS := []; Host.CPU := []; Host.Memory := []; Host.Tags := []; Host.Description := []; Host.DeviceType := [];
     Host.ConnectionMode := txt "direct"; Host.ProxyID := []; Host.NetworkZone := [];
     Host.LastLoginTime := None; Host.LoginCount := 0 |}.
Definition one_host : Host.t := host_named (txt "h1").
Definition one_host_db : Db := set_hosts empty_db [one_host].

Definition issue_one :=
  CreateSession (txt "h1") (txt "u1") (txt "s1") (txt "r1") (txt "tok") 10 ∅ one_host_db [].

Lemma session_tokens_refine_witness :
  let ts := <[txt "tok" := session_token (txt "h1") (txt "u1") (txt "tok") 10]> ∅ in
  (ValidateSessionToken ts (txt "tok") 310).1 = Ok (session_token (txt "h1") (txt "u1") (txt "tok") 10) ∧
  (ValidateSessionToken ts (txt "tok") 311).1 = Err (txt "token expired").
Proof.
  intros ts. split; [|vm_compute; reflexivity].
  apply (session_tokens_refine 0 {| clock := 10; tokens := ts;
           issued := [session_token (txt "h1") (txt "u1") (txt "tok") 10] |}).
  - eapply rtc_l, rtc_refl.
    apply (token_created (no_tokens 0) 10 (txt "h1") (txt "u1") (txt "s1") (txt "r1") (txt "tok")
      one_host_db [] {| SessionResponse.SessionID := txt "s1";
        SessionResponse.WSUrl := txt "ws://localhost:8022/ws/ssh?token=" ++ txt "tok";
        SessionResponse.Token := txt "tok" |} ts (after issue_one) []).
    + simpl. lia.
    + intros i []%not_elem_of_nil.
    + vm_compute. reflexivity.
  - simpl. lia.
  - split; [left|]. split; [reflexivity|vm_compute; discriminate].
Defined.
