(* ===== verification/Accounts.v ===== *)
(** * The platform users

    The table of users of [internal/repository/user_repository.go] and the
    operations of [internal/service/auth_service.go] that write it:
    registration, administration, SSH keys, accounts from single sign-on.  The
    columns [username] and [email] have unique indexes.  Password hashing, key
    generation, encryption and the parsing of dates are library functions: they
    are parameters, with the random salt or key as an argument. *)

From stdpp Require Import base list strings relations.
From Stdlib Require Import ZArith Lia.
From S2P Require Import Prelude GoStrings Gorm Models Database Repositories Permissions.
Local Open Scope Z_scope.

(** ** The repository *)

(** [Find(&users)], then the first. *)
Definition first_of {A} (l : list A) : DB A :=
  match l with x :: _ => mret x | [] => raise RecordNotFound end.

Definition FindUserByUsername (username : text) : DB User.t :=
  find (λ db, keep (λ u, text_eqb (User.Username u) username) (users db)) ≫= first_of.

Definition FindUserByEmail (email : text) : DB User.t :=
  find (λ db, keep (λ u, text_eqb (User.Email u) email) (users db)) ≫= first_of.

(** Another row with the name or the address of [u]. *)
Definition clashes (u v : User.t) : bool :=
  text_eqb (User.Username v) (User.Username u) || text_eqb (User.Email v) (User.Email u).

Definition create_user (u : User.t) : DB unit := execute (λ db,
  if existsb (λ v, text_eqb (User.ID v) (User.ID u) || clashes u v) (users db) then Err DuplicatedKey
  else Ok (set_users db (users db ++ [u]))).

(** [UpdateUser] is [Save]: every column of the row with the key, or a new row. *)
Definition UpdateUser (u : User.t) : DB unit := execute (λ db,
  if existsb (λ v, negb (text_eqb (User.ID v) (User.ID u)) && clashes u v) (users db)
  then Err DuplicatedKey
  else if existsb (λ v, text_eqb (User.ID v) (User.ID u)) (users db)
  then Ok (set_users db (updated (λ v, text_eqb (User.ID v) (User.ID u)) (λ _, u) <$> users db))
  else Ok (set_users db (users db ++ [u]))).

(** [UPDATE users SET .. WHERE id = ..]. *)
Definition update_user (id : text) (f : User.t → User.t) : DB unit := execute (λ db,
  Ok (set_users db (updated (λ v, text_eqb (User.ID v) id) f <$> users db))).

Definition UpdateUserLastLogin (userID : text) (loginTime : Z) (loginIP : text) : DB unit :=
  update_user userID (λ u, User.set_login u loginTime loginIP).
Definition repo_UpdateUserRole (userID role : text) : DB unit :=
  update_user userID (λ u, User.set_role u role).
Definition repo_UpdateUserStatus (userID status : text) : DB unit :=
  update_user userID (λ u, User.set_status u status).
(** [DeleteUser] keeps the row. *)
Definition repo_DeleteUser (userID : text) : DB unit :=
  update_user userID (λ u, User.set_status u (txt "inactive")).

(** ** The service *)

Definition new_user (id username password email fullName role authMethod : text) : User.t :=
  {| User.ID := id; User.Username := username; User.Password := password;
     User.SSHPublicKey := []; User.SSHPrivateKeyEncrypted := []; User.AuthMethod := authMethod;
     User.SSHKeyGeneratedAt := None; User.SSHKeyFingerprint := []; User.Email := email;
     User.FullName := fullName; User.Role := role; User.Status := active;
     User.ExpiresAt := None; User.ExpirationWarningSent := false;
     User.AutoDisableOnExpiry := true; User.LastLoginTime := None; User.LastLoginIP := [];
     User.TwoFactorEnabled := false; User.TwoFactorSecret := []; User.TwoFactorBackupCodes := [];
     User.TwoFactorVerifiedAt := None |}.

Module RegisterRequest.
Record t := { Username : text; Password : text; Email : text; FullName : text }.
End RegisterRequest.

Module SSOUserInfo.
Record t := { Username : text; Name : text; Email : text }.
End SSOUserInfo.

Definition admin : text := txt "admin".
Definition inactive : text := txt "inactive".
Definition publickey : text := txt "publickey".
Definition password_method : text := txt "password".

(** The key material a user is given. *)
Record KeyPair := { PublicKey : text; PrivateKey : text; Fingerprint : text }.

Section service.
Context (err_text : db_error → text) (GenerateFromPassword : text → text → result text text)
  (parse_time : text → option Z) (encrypt decrypt : text → result text text).

(** The lookup must find nothing. *)
Definition must_be_free (lookup : DB User.t) (taken failed : text) : Eff text unit :=
  r ← caught lookup;
  match r with
  | Ok _ => raise taken
  | Err RecordNotFound => mret ()
  | Err e => raise (failed ++ err_text e)
  end.

Definition check_free (username email : text) : Eff text unit :=
  _ ← must_be_free (FindUserByUsername username) (txt "用户名已存在") (txt "检查用户名失败: ");
  if is_empty email then mret ()
  else must_be_free (FindUserByEmail email) (txt "邮箱已被使用") (txt "检查邮箱失败: ").

Definition hashed (salt password : text) : Eff text text :=
  match GenerateFromPassword salt password with
  | Ok h => mret h
  | Err e => raise (txt "密码加密失败: " ++ e)
  end.

Definition insert_user (u : User.t) : Eff text User.t :=
  _ ← or_fail (λ e, txt "创建用户失败: " ++ err_text e) (create_user u); mret u.

Definition Register (req : RegisterRequest.t) (id salt : text) : Eff text User.t :=
  _ ← check_free (RegisterRequest.Username req) (RegisterRequest.Email req);
  h ← hashed salt (RegisterRequest.Password req);
  insert_user (new_user id (RegisterRequest.Username req) h (RegisterRequest.Email req)
                 (RegisterRequest.FullName req) (txt "user") password_method).

Definition CreateUser (req : RegisterRequest.t) (role authMethod id salt : text) : Eff text User.t :=
  _ ← check_free (RegisterRequest.Username req) (RegisterRequest.Email req);
  h ← hashed salt (RegisterRequest.Password req);
  let role := if negb (text_eqb role admin) && negb (text_eqb role (txt "user"))
              then txt "user" else role in
  let authMethod :=
    if is_empty authMethod ||
       (negb (text_eqb authMethod password_method) && negb (text_eqb authMethod publickey))
    then password_method else authMethod in
  insert_user (new_user id (RegisterRequest.Username req) h (RegisterRequest.Email req)
                 (RegisterRequest.FullName req) role authMethod).

(** [FindUserByID], any error taken for a missing user. *)
Definition existing_user (userID : text) : Eff text User.t :=
  or_fail (λ _, txt "用户不存在") (FindUserByID userID).

Definition save (u : User.t) : Eff text unit := or_fail err_text (UpdateUser u).

Definition UpdateUserInfo (userID fullName email : text) : Eff text unit :=
  user ← existing_user userID;
  taken ← (if negb (is_empty email) && negb (text_eqb email (User.Email user)) then
             other ← attempt (FindUserByEmail email);
             mret (match other with
                   | Some other => negb (text_eqb (User.ID other) userID)
                   | None => false
                   end)
           else mret false);
  if taken : bool then raise (txt "邮箱已被使用")
  else save (User.set_info user fullName email).

(** [nil], an empty string and a date are told apart. *)
Definition UpdateUserExpiration (userID : text) (expiresAt : option text)
    (autoDisableOnExpiry : option bool) : Eff text unit :=
  user ← existing_user userID;
  user ← (match expiresAt with
          | None => mret user
          | Some [] => mret (User.set_expiry user None false)
          | Some d => match parse_time d with
                      | Some t => mret (User.set_expiry user (Some t) false)
                      | None => raise (txt "无效的时间格式: " ++ d)
                      end
          end);
  save (match autoDisableOnExpiry with
        | Some auto => User.set_auto_disable user auto
        | None => user
        end).

Definition UpdateUserRole (userID role : text) : Eff text unit :=
  if negb (text_eqb role admin) && negb (text_eqb role (txt "user")) then raise (txt "无效的角色")
  else _ ← existing_user userID; or_fail err_text (repo_UpdateUserRole userID role).

Definition UpdateUserStatus (userID status : text) : Eff text unit :=
  if negb (text_eqb status active) && negb (text_eqb status inactive) then raise (txt "无效的状态")
  else _ ← existing_user userID; or_fail err_text (repo_UpdateUserStatus userID status).

Definition DeleteUser (userID : text) : Eff text unit :=
  _ ← existing_user userID; or_fail err_text (repo_DeleteUser userID).

Definition ResetUserPassword (userID newPassword salt : text) : Eff text unit :=
  user ← existing_user userID;
  h ← hashed salt newPassword;
  save (User.set_password user h).

(** *** SSH keys *)

Definition known_user (userID : text) : Eff text User.t :=
  or_fail (λ e, txt "用户不存在: " ++ err_text e) (FindUserByID userID).

Definition GenerateSSHKey (userID : text) (generated : result text KeyPair) (now : Z)
    : Eff text unit :=
  user ← known_user userID;
  match generated with
  | Err e => raise (txt "生成SSH密钥失败: " ++ e)
  | Ok keyPair =>
      match encrypt (PrivateKey keyPair) with
      | Err e => raise (txt "加密私钥失败: " ++ e)
      | Ok encrypted =>
          or_fail (λ e, txt "更新用户SSH密钥失败: " ++ err_text e)
            (UpdateUser (User.set_keys user (PublicKey keyPair) encrypted
                           (Fingerprint keyPair) (Some now)))
      end
  end.

Definition DeleteSSHKey (userID : text) : Eff text unit :=
  user ← known_user userID;
  let user := User.set_keys user [] [] [] None in
  let user := if text_eqb (User.AuthMethod user) publickey
              then User.set_auth user password_method else user in
  or_fail (λ e, txt "删除SSH密钥失败: " ++ err_text e) (UpdateUser user).

Definition GetSSHPrivateKey (userID : text) : Eff text (text * text) :=
  user ← known_user userID;
  if is_empty (User.SSHPrivateKeyEncrypted user) then raise (txt "用户没有SSH私钥")
  else match decrypt (User.SSHPrivateKeyEncrypted user) with
       | Err e => raise (txt "解密私钥失败: " ++ e)
       | Ok privateKey => mret (privateKey, User.Username user)
       end.

Definition UpdateUserAuthMethod (userID authMethod : text) : Eff text unit :=
  user ← known_user userID;
  if text_eqb authMethod publickey && is_empty (User.SSHPublicKey user)
  then raise (txt "请先生成SSH密钥")
  else if negb (text_eqb authMethod password_method) && negb (text_eqb authMethod publickey)
  then raise (txt "认证方式必须是: password 或 publickey")
  else or_fail (λ e, txt "更新认证方式失败: " ++ err_text e)
         (UpdateUser (User.set_auth user authMethod)).

Definition GetUserPublicKey (username : text) : Eff text text :=
  user ← or_fail (λ e, txt "用户不存在: " ++ err_text e) (FindUserByUsername username);
  if is_empty (User.SSHPublicKey user) then raise (txt "用户没有配置SSH公钥")
  else if negb (text_eqb (User.AuthMethod user) publickey) &&
          negb (text_eqb (User.AuthMethod user) (txt "both"))
  then raise (txt "用户未启用公钥认证")
  else mret (User.SSHPublicKey user).

(** *** Single sign-on *)

(** A lookup whose only accepted error is a missing row. *)
Definition lookup_user (lookup : DB User.t) : Eff text (option User.t) :=
  r ← caught lookup;
  match r with
  | Ok u => mret (Some u)
  | Err RecordNotFound => mret None
  | Err e => raise (txt "查询用户失败: " ++ err_text e)
  end.

(** The second lookup, by name, when the address found nobody. *)
Definition sso_by_name (info : SSOUserInfo.t) (user : option User.t) : Eff text (option User.t) :=
  match user with
  | Some u => mret (Some u)
  | None => if is_empty (SSOUserInfo.Username info) then mret None
            else lookup_user (FindUserByUsername (SSOUserInfo.Username info))
  end.

(** Update the user found, or create one. *)
Definition sso_save (info : SSOUserInfo.t) (randomPassword id salt : text) (user : option User.t)
    : Eff text User.t :=
  match user with
  | Some user =>
      let fullName := if is_empty (SSOUserInfo.Name info) then User.FullName user
                      else SSOUserInfo.Name info in
      let email := if negb (is_empty (SSOUserInfo.Email info)) && is_empty (User.Email user)
                   then SSOUserInfo.Email info else User.Email user in
      let user := User.set_info user fullName email in
      _ ← or_fail (λ e, txt "更新用户失败: " ++ err_text e) (UpdateUser user);
      mret user
  | None =>
      h ← hashed salt randomPassword;
      insert_user (new_user id (SSOUserInfo.Username info) h (SSOUserInfo.Email info)
                     (SSOUserInfo.Name info) (txt "user") password_method)
  end.

Definition CreateOrUpdateSSOUser (info : SSOUserInfo.t) (randomPassword id salt : text)
    : Eff text User.t :=
  user ← (if is_empty (SSOUserInfo.Email info) then mret None
          else lookup_user (FindUserByEmail (SSOUserInfo.Email info)));
  user ← sso_by_name info user;
  sso_save info randomPassword id salt user.

(** *** Every way the table changes *)

Inductive account_step : Db → Db → Prop :=
  | step_register req id salt db f r db' f' :
      Register req id salt db f = (r, db', f') → account_step db db'
  | step_create req role auth id salt db f r db' f' :
      CreateUser req role auth id salt db f = (r, db', f') → account_step db db'
  | step_info id name email db f r db' f' :
      UpdateUserInfo id name email db f = (r, db', f') → account_step db db'
  | step_expiry id e auto db f r db' f' :
      UpdateUserExpiration id e auto db f = (r, db', f') → account_step db db'
  | step_role id role db f r db' f' :
      UpdateUserRole id role db f = (r, db', f') → account_step db db'
  | step_status id status db f r db' f' :
      UpdateUserStatus id status db f = (r, db', f') → account_step db db'
  | step_delete id db f r db' f' :
      DeleteUser id db f = (r, db', f') → account_step db db'
  | step_reset id pw salt db f r db' f' :
      ResetUserPassword id pw salt db f = (r, db', f') → account_step db db'
  | step_key id kp now db f r db' f' :
      GenerateSSHKey id kp now db f = (r, db', f') → account_step db db'
  | step_del_key id db f r db' f' :
      DeleteSSHKey id db f = (r, db', f') → account_step db db'
  | step_auth id m db f r db' f' :
      UpdateUserAuthMethod id m db f = (r, db', f') → account_step db db'
  | step_sso info pw id salt db f r db' f' :
      CreateOrUpdateSSOUser info pw id salt db f = (r, db', f') → account_step db db'
  | step_login id time ip db f r db' f' :
      UpdateUserLastLogin id time ip db f = (r, db', f') → account_step db db'.
End service.

(** ** Well-formed accounts *)

(** No two rows share the key. *)
Definition key_inj {A K} (key : A → K) (l : list A) : Prop :=
  ∀ x y, x ∈ l → y ∈ l → key x = key y → x = y.

Record user_ok (u : User.t) : Prop := {
  role_ok : User.Role u ∈ [admin; txt "user"];
  status_ok : User.Status u ∈ [active; inactive]
}.

Record users_ok (db : Db) : Prop := {
  ids_distinct : NoDup (User.ID <$> users db);
  names_distinct : key_inj User.Username (users db);
  emails_distinct : key_inj User.Email (users db);
  each_ok : Forall user_ok (users db)
}.

Lemma key_inj_app {A K} (key : A → K) l x :
  key_inj key l → key x ∉ key <$> l → key_inj key (l ++ [x]).
Proof.
  intros Hl Hx a b Ha Hb Hab. rewrite elem_of_app, list_elem_of_singleton in Ha, Hb.
  destruct Ha as [Ha| ->], Hb as [Hb| ->]; [by apply Hl| | |done]; destruct Hx;
    rewrite list_elem_of_fmap; eauto.
Qed.

(** An update that gives no row a key another row has keeps the keys apart. *)
Lemma key_inj_update {A K} (key : A → K) (p : A → bool) f l :
  key_inj key l →
  (∀ x y, x ∈ l → y ∈ l → p x = true → p y = true → x = y) →
  (∀ x y, x ∈ l → y ∈ l → p x = true → p y = false → key (f x) ≠ key y) →
  key_inj key (updated p f <$> l).
Proof.
  intros Hl H1 Hf a b (x & -> & Hx)%list_elem_of_fmap (y & -> & Hy)%list_elem_of_fmap.
  unfold updated. destruct (p x) eqn:Ex, (p y) eqn:Ey; intros Hk.
  - f_equal. auto.
  - by destruct (Hf x y).
  - by destruct (Hf y x).
  - auto.
Qed.

Lemma ids_updated (p : User.t → bool) f (l : list User.t) :
  (∀ x, p x = true → User.ID (f x) = User.ID x) → User.ID <$> (updated p f <$> l) = User.ID <$> l.
Proof.
  intros Hf. rewrite <- list_fmap_compose. apply list_fmap_ext. intros i x _. simpl.
  unfold updated. destruct (p x) eqn:E; auto.
Qed.

Lemma same_id_eq db x y :
  users_ok db → x ∈ users db → y ∈ users db → User.ID x = User.ID y → x = y.
Proof.
  intros [HN _ _ _] Hx Hy Hid. pose proof (keep_key User.ID _ _ _ HN Hx Hid) as H1.
  pose proof (keep_key User.ID _ _ _ HN Hy eq_refl) as H2. congruence.
Qed.

Lemma clashes_false u v :
  clashes u v = false ↔ User.Username v ≠ User.Username u ∧ User.Email v ≠ User.Email u.
Proof.
  unfold clashes, text_eqb. rewrite orb_false_iff, !bool_decide_eq_false. done.
Qed.

Definition keeps_ok {E A} (m : Eff E A) (db : Db) : Prop :=
  wp m (λ _ db', users_ok db') db.

Lemma append_ok db u :
  users_ok db → user_ok u →
  (∀ v, v ∈ users db → User.ID v ≠ User.ID u ∧ clashes u v = false) →
  users_ok (set_users db (users db ++ [u])).
Proof.
  intros [HN Hn He Ho] Hu Hc. split; simpl.
  - rewrite fmap_app. apply NoDup_app. split_and!; [done| |apply NoDup_singleton].
    intros x (v & -> & Hv)%list_elem_of_fmap Heq%list_elem_of_singleton. by destruct (Hc v Hv).
  - apply key_inj_app; [done|]. intros (v & Hk & Hv)%list_elem_of_fmap.
    destruct (Hc v Hv) as [_ [? _]%clashes_false]. congruence.
  - apply key_inj_app; [done|]. intros (v & Hk & Hv)%list_elem_of_fmap.
    destruct (Hc v Hv) as [_ [_ ?]%clashes_false]. congruence.
  - apply Forall_app. split; [done|]. by constructor.
Qed.

Lemma create_user_ok u db : users_ok db → user_ok u → keeps_ok (create_user u) db.
Proof.
  intros Hdb Hu. apply wp_execute; [|done]. intros db' Hs. destruct (existsb _ _) eqn:E; [done|].
  injection Hs as <-. apply append_ok; [done..|]. rewrite existsb_none in E.
  intros v Hv. specialize (E v Hv). apply orb_false_elim in E as [E1 E2].
  split; [by apply bool_decide_eq_false in E1|done].
Qed.

Lemma UpdateUser_ok u db : users_ok db → user_ok u → keeps_ok (UpdateUser u) db.
Proof.
  intros Hdb Hu. apply wp_execute; [|done]. intros db' Hs.
  destruct (existsb _ _) eqn:E; [done|]. rewrite existsb_none in E.
  assert (∀ v, v ∈ users db → User.ID v ≠ User.ID u → clashes u v = false) as Hc.
  { intros v Hv Hid. specialize (E v Hv). apply andb_false_iff in E as [E|E]; [|done].
    apply negb_false_iff, text_eqb_true in E. done. }
  clear E. destruct (existsb _ _) eqn:E in Hs; injection Hs as <-.
  - destruct Hdb as [HN Hn He Ho] eqn:HE. clear HE. split; simpl.
    + rewrite ids_updated; [done|]. by intros x ->%text_eqb_true.
    + apply key_inj_update; [done| |].
      * intros x y Hx Hy Ex%text_eqb_true Ey%text_eqb_true. eapply same_id_eq; [done..|congruence].
      * intros x y Hx Hy _ Ey%bool_decide_eq_false.
        destruct (proj1 (clashes_false _ _) (Hc y Hy Ey)). congruence.
    + apply key_inj_update; [done| |].
      * intros x y Hx Hy Ex%text_eqb_true Ey%text_eqb_true. eapply same_id_eq; [done..|congruence].
      * intros x y Hx Hy _ Ey%bool_decide_eq_false.
        destruct (proj1 (clashes_false _ _) (Hc y Hy Ey)). congruence.
    + apply Forall_fmap. eapply Forall_impl; [exact Ho|]. intros x Hx. simpl. unfold updated.
      by destruct (text_eqb _ _).
  - apply append_ok; [done..|]. rewrite existsb_none in E. intros v Hv.
    specialize (E v Hv). apply bool_decide_eq_false in E. auto.
Qed.

Lemma update_user_ok id f db :
  users_ok db →
  (∀ u, User.ID (f u) = User.ID u ∧ User.Username (f u) = User.Username u ∧
        User.Email (f u) = User.Email u ∧ (user_ok u → user_ok (f u))) →
  keeps_ok (update_user id f) db.
Proof.
  intros Hdb Hf. apply wp_execute; [|done]. intros db' [= <-].
  pose proof Hdb as [HN Hn He Ho]. split; simpl.
  - rewrite ids_updated; [done|]. intros x _. apply Hf.
  - apply key_inj_update; [done| |].
    + intros x y Hx Hy Ex%text_eqb_true Ey%text_eqb_true. eapply same_id_eq; [done..|congruence].
    + intros x y Hx Hy Ex Ey Hk. destruct (Hf x) as (_ & Hu & _). rewrite Hu in Hk.
      rewrite (Hn x y Hx Hy Hk) in Ex. congruence.
  - apply key_inj_update; [done| |].
    + intros x y Hx Hy Ex%text_eqb_true Ey%text_eqb_true. eapply same_id_eq; [done..|congruence].
    + intros x y Hx Hy Ex Ey Hk. destruct (Hf x) as (_ & _ & Hu & _). rewrite Hu in Hk.
      rewrite (He x y Hx Hy Hk) in Ex. congruence.
  - apply Forall_fmap. eapply Forall_impl; [exact Ho|]. intros x Hx. simpl. unfold updated.
    destruct (text_eqb _ _); [|done]. by apply Hf.
Qed.

(** *** What the lookups give *)

Lemma wp_FindUserByID id Q db :
  users_ok db → (∀ u, u ∈ users db → user_ok u → User.ID u = id → Q (Ok u) db) →
  (∀ e, Q (Err e) db) → wp (FindUserByID id) Q db.
Proof.
  intros Hdb HQ He. apply wp_first; [|done]. intros u Hu Hid%text_eqb_true.
  apply HQ; [done| |done]. by eapply Forall_forall in Hu; [|apply Hdb].
Qed.

Lemma wp_some_user (p : User.t → bool) Q db :
  (∀ u, u ∈ users db → p u = true → Q (Ok u) db) →
  (∀ e, Q (Err e) db) → wp (find (λ db, keep p (users db)) ≫= first_of) Q db.
Proof.
  intros HQ He. apply wp_bind, wp_find; [|done].
  destruct (keep p (users db)) as [|u l] eqn:E; simpl; [by apply wp_raise|].
  apply keep_head in E as [Hu Hp]. by apply wp_ret, HQ.
Qed.

Lemma wp_find_user (p : User.t → bool) Q db :
  users_ok db → (∀ u, u ∈ users db → user_ok u → p u = true → Q (Ok u) db) →
  (∀ e, Q (Err e) db) → wp (find (λ db, keep p (users db)) ≫= first_of) Q db.
Proof.
  intros Hdb HQ He. apply wp_some_user; [|done]. intros u Hu Hp. apply HQ; [done| |done].
  by eapply Forall_forall in Hu; [|apply Hdb].
Qed.

Lemma set_fields_ok u : user_ok u →
  (∀ pw, user_ok (User.set_password u pw)) ∧ (∀ a b, user_ok (User.set_info u a b)) ∧
  (∀ a b, user_ok (User.set_expiry u a b)) ∧ (∀ a, user_ok (User.set_auto_disable u a)) ∧
  (∀ a b, user_ok (User.set_login u a b)) ∧ (∀ a b c d, user_ok (User.set_keys u a b c d)) ∧
  (∀ a, user_ok (User.set_auth u a)) ∧ (∀ a b c d, user_ok (User.set_two_factor u a b c d)).
Proof. intros [Hr Hs]. repeat split; done. Qed.

Lemma new_user_ok id n pw e fn role m : role ∈ [admin; txt "user"] → user_ok (new_user id n pw e fn role m).
Proof. intros Hr. split; [done|]. left. Qed.

Section preservation.
Context (err_text : db_error → text) (GenerateFromPassword : text → text → result text text)
  (parse_time : text → option Z) (encrypt : text → result text text).

Lemma wp_must_be_free (p : User.t → bool) t1 t2 Q db :
  users_ok db → Q (Ok ()) db → (∀ e, Q (Err e) db) →
  wp (must_be_free err_text (find (λ db, keep p (users db)) ≫= first_of) t1 t2) Q db.
Proof.
  intros Hdb HQ He. unfold must_be_free. apply wp_bind, wp_caught, wp_find_user; [done| |].
  - intros. by apply wp_raise.
  - intros []; by first [apply wp_ret|apply wp_raise].
Qed.

Lemma wp_check_free n e Q db :
  users_ok db → Q (Ok ()) db → (∀ e, Q (Err e) db) → wp (check_free err_text n e) Q db.
Proof.
  intros Hdb HQ He. unfold check_free. apply wp_bind, wp_must_be_free; [done| |done].
  destruct (is_empty e); [by apply wp_ret|]. by apply wp_must_be_free.
Qed.

Lemma wp_hashed salt pw (Q : result text text → Db → Prop) db :
  (∀ h, Q (Ok h) db) → (∀ e, Q (Err e) db) → wp (hashed GenerateFromPassword salt pw) Q db.
Proof. intros HQ He. unfold hashed. destruct (GenerateFromPassword _ _); by constructor || (by first [apply wp_ret|apply wp_raise]). Qed.

Lemma insert_user_ok u db : users_ok db → user_ok u → keeps_ok (insert_user err_text u) db.
Proof.
  intros Hdb Hu. apply wp_bind, wp_or_fail. eapply wp_mono; [|by apply create_user_ok].
  intros [[]|e] db' H; simpl; [by apply wp_ret|done].
Qed.

Lemma save_ok w u db : users_ok db → user_ok u → keeps_ok (or_fail (F := text) w (UpdateUser u)) db.
Proof. intros Hdb Hu. apply wp_or_fail. eapply wp_mono; [|by apply UpdateUser_ok]. done. Qed.

(** A row read, then an operation on it. *)
Lemma with_user_ok {A} w id (k : User.t → Eff text A) db :
  users_ok db → (∀ u, u ∈ users db → user_ok u → keeps_ok (k u) db) →
  keeps_ok (or_fail w (FindUserByID id) ≫= k) db.
Proof.
  intros Hdb Hk. apply wp_bind, wp_or_fail, wp_FindUserByID; [done| |done].
  intros u Hu Ho _. simpl. by apply Hk.
Qed.

Lemma column_ok w id f db :
  users_ok db →
  (∀ u, User.ID (f u) = User.ID u ∧ User.Username (f u) = User.Username u ∧
        User.Email (f u) = User.Email u ∧ (user_ok u → user_ok (f u))) →
  keeps_ok (or_fail (F := text) w (update_user id f)) db.
Proof. intros Hdb Hf. apply wp_or_fail. eapply wp_mono; [|by apply update_user_ok]. done. Qed.

Lemma lookup_user_ok {A} (p : User.t → bool) (k : option User.t → Eff text A) Q db :
  users_ok db → (∀ e, Q (Err e) db) → wp (k None) Q db →
  (∀ u, u ∈ users db → user_ok u → wp (k (Some u)) Q db) →
  wp (lookup_user err_text (find (λ db, keep p (users db)) ≫= first_of) ≫= k) Q db.
Proof.
  intros Hdb He Hn Hs. unfold lookup_user. apply wp_bind, wp_bind, wp_caught, wp_find_user; [done| |].
  - intros u Hu Ho _. apply wp_ret. auto.
  - intros []; first [by apply wp_ret|by apply wp_raise].
Qed.

(** A user found in the table, if any. *)
Definition known db (o : option User.t) : Prop := ∀ u, o = Some u → u ∈ users db ∧ user_ok u.

Lemma sso_save_ok info pw id salt o db :
  users_ok db → known db o → keeps_ok (sso_save err_text GenerateFromPassword info pw id salt o) db.
Proof.
  intros Hdb Ho. destruct o as [u|]; unfold sso_save.
  - destruct (Ho u eq_refl) as [Hu Hok]. cbv zeta. apply wp_bind.
    eapply wp_mono; [|apply save_ok; [done|by apply set_fields_ok]].
    intros [[]|e] db' H; [by apply wp_ret|done].
  - apply wp_bind, wp_hashed; [|done]. intros h. apply insert_user_ok; [done|].
    apply new_user_ok. right. left.
Qed.

Lemma sso_ok info pw id salt db :
  users_ok db → keeps_ok (CreateOrUpdateSSOUser err_text GenerateFromPassword info pw id salt) db.
Proof.
  intros Hdb. unfold CreateOrUpdateSSOUser.
  assert (∀ o, known db o → keeps_ok (sso_by_name err_text info o ≫=
            sso_save err_text GenerateFromPassword info pw id salt) db) as Hnext.
  { intros [u|] Ho; unfold sso_by_name; [apply wp_bind, wp_ret; by apply sso_save_ok|].
    destruct (is_empty (SSOUserInfo.Username info)).
    { apply wp_bind, wp_ret. by apply sso_save_ok. }
    apply lookup_user_ok; [done|done|by apply sso_save_ok|]. intros u Hu Hok.
    apply sso_save_ok; [done|]. by intros ? [= <-]. }
  destruct (is_empty (SSOUserInfo.Email info)).
  - apply wp_bind, wp_ret. by apply Hnext.
  - apply lookup_user_ok; [done|done|by apply Hnext|]. intros u Hu Hok. apply Hnext.
    by intros ? [= <-].
Qed.

Lemma account_step_ok db db' :
  account_step err_text GenerateFromPassword parse_time encrypt db db' → users_ok db → users_ok db'.
Proof.
  intros Hs Hdb. destruct Hs as [req id salt db f r db' f' H|req role auth id salt db f r db' f' H
    |id name email db f r db' f' H|id e auto db f r db' f' H|id role db f r db' f' H
    |id status db f r db' f' H|id db f r db' f' H|id pw salt db f r db' f' H
    |id kp now db f r db' f' H|id db f r db' f' H|id m db f r db' f' H
    |info pw id salt db f r db' f' H|id time ip db f r db' f' H]; revert f r db' f' H;
    change (∀ f r db' f', ?m db f = (r, db', f') → users_ok db') with (keeps_ok m db).
  - apply wp_bind, wp_check_free; [done| |done]. apply wp_bind, wp_hashed; [|done]. intros h.
    apply insert_user_ok; [done|]. apply new_user_ok. right. left.
  - apply wp_bind, wp_check_free; [done| |done]. apply wp_bind, wp_hashed; [|done]. intros h.
    apply insert_user_ok; [done|]. apply new_user_ok.
    destruct (text_eqb role admin) eqn:E1; simpl; [apply text_eqb_true in E1 as ->; left|].
    destruct (text_eqb role (txt "user")) eqn:E2; simpl; [apply text_eqb_true in E2 as ->|];
      right; left.
  - apply with_user_ok; [done|]. intros u Hu Ho. apply wp_bind.
    assert (∀ b : bool, keeps_ok (if b then raise (txt "邮箱已被使用")
              else save err_text (User.set_info u name email)) db) as Hfin.
    { intros []; [by apply wp_raise|]. apply save_ok; [done|]. by apply set_fields_ok. }
    destruct (negb _ && negb _); [|apply wp_ret; exact (Hfin false)].
    apply wp_bind, wp_attempt, wp_find_user; [done| |].
    + intros v _ _ _. apply wp_ret. exact (Hfin (negb (text_eqb (User.ID v) id))).
    + intros e. apply wp_ret. exact (Hfin false).
  - apply with_user_ok; [done|]. intros u Hu Ho. apply wp_bind.
    assert (∀ u, user_ok u → keeps_ok (save err_text (match auto with
        | Some auto => User.set_auto_disable u auto | None => u end)) db) as Hfin.
    { intros v Hv. destruct auto; apply save_ok; try done. by apply set_fields_ok. }
    destruct e as [[|c d]|]; [apply wp_ret, Hfin; by apply set_fields_ok| |by apply wp_ret, Hfin].
    destruct (parse_time _); [|by apply wp_raise]. apply wp_ret, Hfin. by apply set_fields_ok.
  - unfold UpdateUserRole. destruct (negb _ && negb _) eqn:E; [by apply wp_raise|].
    apply with_user_ok; [done|]. intros u Hu Ho. apply column_ok; [done|].
    intros v. split_and!; [done..|]. intros [_ Hst]. split; [|done]. simpl.
    apply andb_false_iff in E as [E%negb_false_iff%text_eqb_true|E%negb_false_iff%text_eqb_true];
      subst role; [left|right; left].
  - unfold UpdateUserStatus. destruct (negb _ && negb _) eqn:E; [by apply wp_raise|].
    apply with_user_ok; [done|]. intros u Hu Ho. apply column_ok; [done|].
    intros v. split_and!; [done..|]. intros [Hrole _]. split; [done|]. simpl.
    apply andb_false_iff in E as [E%negb_false_iff%text_eqb_true|E%negb_false_iff%text_eqb_true];
      subst status; [left|right; left].
  - apply with_user_ok; [done|]. intros u Hu Ho. apply column_ok; [done|].
    intros v. split_and!; [done..|]. intros [Hrole _]. split; [done|]. right. left.
  - apply with_user_ok; [done|]. intros u Hu Ho. apply wp_bind, wp_hashed; [|done]. intros h.
    apply save_ok; [done|]. by apply set_fields_ok.
  - apply with_user_ok; [done|]. intros u Hu Ho. destruct kp as [kp|]; [|by apply wp_raise].
    destruct (encrypt _); [|by apply wp_raise]. apply save_ok; [done|]. by apply set_fields_ok.
  - apply with_user_ok; [done|]. intros u Hu Ho. cbv zeta. apply save_ok; [done|].
    destruct (text_eqb _ _); [apply set_fields_ok|]; by apply set_fields_ok.
  - apply with_user_ok; [done|]. intros u Hu Ho. destruct (_ && _); [by apply wp_raise|].
    destruct (_ && _); [by apply wp_raise|]. apply save_ok; [done|]. by apply set_fields_ok.
  - by apply sso_ok.
  - apply update_user_ok; [done|]. intros u. split_and!; [done..|]. intros ?. by apply set_fields_ok.
Qed.
End preservation.

(** C24: Whatever operations run on the accounts, in whatever order and whichever
    of their statements fail, the table stays well formed: ids, names and
    addresses are distinct, every role is admin or user, every status active or
    inactive. *)
Theorem accounts_well_formed err_text hash parse_time encrypt db db' :
  rtc (account_step err_text hash parse_time encrypt) db db' → users_ok db → users_ok db'.
Proof. induction 1 as [|db1 db2 db3 Hs _ IH]; [done|]. intros H. apply IH. by eapply account_step_ok. Qed.

(** *** Creating an account *)

Lemma find_user_Ok (p : User.t → bool) db f u db' f' :
  (find (λ db, keep p (users db)) ≫= first_of) db f = (Ok u, db', f') →
  u ∈ users db ∧ p u = true ∧ db' = db.
Proof.
  intros (l & db1 & f1 & Hl & H)%bind_Ok. apply query_Ok in Hl as [[= <-] ->].
  unfold first_of in H. destruct (keep p (users db)) as [|x k] eqn:E; [done|].
  injection H as <- <- _. by apply keep_head in E as [? ?].
Qed.

Lemma create_user_Ok u db f db' f' :
  create_user u db f = (Ok (), db', f') →
  db' = set_users db (users db ++ [u]) ∧
  ∀ v, v ∈ users db → User.ID v ≠ User.ID u ∧ User.Username v ≠ User.Username u ∧
                      User.Email v ≠ User.Email u.
Proof.
  intros H%execute_Ok. destruct (existsb _ _) eqn:E; [done|]. injection H as <-. split; [done|].
  rewrite existsb_none in E. intros v Hv. specialize (E v Hv).
  apply orb_false_elim in E as [E1%bool_decide_eq_false E2%clashes_false]. done.
Qed.

Lemma reads_must_be_free err_text (p : User.t → bool) t1 t2 :
  reads (must_be_free err_text (find (λ db, keep p (users db)) ≫= first_of) t1 t2).
Proof. unfold must_be_free, first_of. preserves_tac. Qed.

Lemma reads_check_free err_text n e : reads (check_free err_text n e).
Proof. unfold check_free. preserves_tac; apply reads_must_be_free. Qed.

(** An account is created exactly as asked or not at all: on success the
    table gains one row, with the name and address asked for (which nobody had),
    the hash of the password, an allowed role and the status active; on failure
    it is unchanged. *)
Theorem CreateUser_outcomes err_text hash req role auth id salt db f r db' f' :
  CreateUser err_text hash req role auth id salt db f = (r, db', f') →
  match r with
  | Ok u =>
      users db' = users db ++ [u] ∧ User.ID u = id ∧
      User.Username u = RegisterRequest.Username req ∧ User.Email u = RegisterRequest.Email req ∧
      hash salt (RegisterRequest.Password req) = Ok (User.Password u) ∧
      User.Role u = (if bool_decide (role = admin) then admin else txt "user") ∧
      User.Status u = active ∧
      ∀ v, v ∈ users db → User.Username v ≠ User.Username u ∧ User.Email v ≠ User.Email u
  | Err _ => db' = db
  end.
Proof.
  unfold CreateUser. rewrite bind_run.
  destruct (check_free _ _ _ db f) as [[[[]|e] db1] f1] eqn:Ec;
    pose proof (reads_run _ _ _ _ _ _ (reads_check_free _ _ _) Ec) as ->;
    [|by intros [= <- <- _]].
  rewrite bind_run. unfold hashed. destruct (hash _ _) as [h|e] eqn:Eh; cbn [mret db_ret raise];
    [|by intros [= <- <- _]].
  cbv zeta. set (u := new_user _ _ _ _ _ _ _). unfold insert_user. rewrite bind_run. unfold or_fail.
  destruct (create_user u db f1) as [[[[]|e] db2] f2] eqn:E; cbn [map_err mret db_ret].
  - intros [= <- <- _]. apply create_user_Ok in E as [-> Hc]. split_and!; try done.
    + unfold u. simpl. unfold text_eqb. by repeat case_bool_decide.
    + intros v Hv. by destruct (Hc v Hv) as (_ & ? & ?).
  - intros [= <- <- _]. unfold create_user, execute in E.
    destruct f1 as [|[e1|] f1]; try (destruct (existsb _ _)); by injection E as ? <- _.
Qed.

(** *** Interleaving *)

(** The administrator's operations are a read and a [Save] of every column:
    one that read the user before another administrator disabled the account
    writes the old status back, and the account is active again. *)
Theorem stale_save_reenables db db1 db2 u fullName f1 f2 :
  users_ok db → u ∈ users db → User.Status u = active →
  repo_UpdateUserStatus (User.ID u) inactive db [] = (Ok (), db1, f1) →
  UpdateUser (User.set_info u fullName (User.Email u)) db1 [] = (Ok (), db2, f2) →
  ∀ v, v ∈ users db2 → User.ID v = User.ID u → User.Status v = active.
Proof.
  intros Hdb Hu Hst H1 H2 v Hv Hid. unfold repo_UpdateUserStatus, update_user in H1.
  apply execute_Ok in H1. injection H1 as <-.
  unfold UpdateUser in H2. apply execute_Ok in H2. destruct (existsb _ _) in H2; [done|].
  destruct (existsb (λ v, text_eqb (User.ID v) _) _) eqn:E in H2; injection H2 as <-.
  - apply list_elem_of_fmap in Hv as (x & -> & Hx). unfold updated in *.
    destruct (text_eqb (User.ID x) _) eqn:Ex; [done|].
    by rewrite (proj2 (text_eqb_true _ _) Hid) in Ex.
  - exfalso. rewrite existsb_none in E.
    assert (updated (λ v, text_eqb (User.ID v) (User.ID u)) (λ u, User.set_status u inactive) u
            ∈ updated (λ v, text_eqb (User.ID v) (User.ID u)) (λ u, User.set_status u inactive)
              <$> users db) as Hin by (by apply list_elem_of_fmap_2).
    specialize (E _ Hin). unfold updated in E. rewrite text_eqb_refl in E. simpl in E.
    by rewrite text_eqb_refl in E.
Qed.

(** ** Concrete accounts *)

Definition plain_hash (salt pw : text) : result text text := Ok (salt ++ pw).
Definition plain_err (e : db_error) : text := [].
Definition bob : User.t := new_user (txt "u1") (txt "bob") (txt "saltpw") (txt "b@x") (txt "Bob")
                             (txt "user") password_method.
Definition bob_db : Db := set_users empty_db [bob].

Lemma bob_db_ok : users_ok bob_db.
Proof.
  split; simpl.
  - apply NoDup_singleton.
  - by intros x y ->%list_elem_of_singleton ->%list_elem_of_singleton.
  - by intros x y ->%list_elem_of_singleton ->%list_elem_of_singleton.
  - constructor; [|constructor]. apply new_user_ok. right. left.
Qed.

Lemma accounts_well_formed_witness :
  users_ok bob_db ∧
  users_ok (after (UpdateUserRole plain_err (txt "u1") (txt "admin") bob_db [])).
Proof.
  split; [exact bob_db_ok|].
  apply (accounts_well_formed plain_err plain_hash (λ _, None) (λ s, Ok s) bob_db); [|exact bob_db_ok].
  eapply rtc_l, rtc_refl.
  exact (step_role _ _ _ _ (txt "u1") (txt "admin") bob_db [] (Ok ()) _ [] eq_refl).
Defined.

Lemma CreateUser_outcomes_witness :
  let req := {| RegisterRequest.Username := txt "eve"; RegisterRequest.Password := txt "pw";
                RegisterRequest.Email := txt "e@x"; RegisterRequest.FullName := [] |} in
  users (after (CreateUser plain_err plain_hash req (txt "root") [] (txt "u2") (txt "s") bob_db []))
  = users bob_db ++ [new_user (txt "u2") (txt "eve") (txt "spw") (txt "e@x") [] (txt "user")
                       password_method].
Proof.
  intros req.
  exact (proj1 (CreateUser_outcomes plain_err plain_hash req (txt "root") [] (txt "u2") (txt "s")
    bob_db [] (Ok (new_user (txt "u2") (txt "eve") (txt "spw") (txt "e@x") [] (txt "user")
                     password_method)) _ [] eq_refl)).
Defined.

Lemma stale_save_reenables_witness :
  bob ∈ users bob_db ∧
  (∀ v, v ∈ users (after (UpdateUser (User.set_info bob (txt "Robert") (txt "b@x"))
                    (after (repo_UpdateUserStatus (txt "u1") inactive bob_db [])) [])) →
        User.ID v = txt "u1" → User.Status v = active).
Proof.
  split; [left|].
  exact (stale_save_reenables bob_db _ _ bob (txt "Robert") [] [] bob_db_ok
    (list_elem_of_here _ _) eq_refl eq_refl eq_refl).
Defined.
