(* ===== verification/Auth.v ===== *)
(** * Signing in

    [Login], [LoginWithSSO], the tokens and the second factor of
    [internal/service/auth_service.go], [pkg/twofactor] and the middleware of
    [internal/api/middleware].  bcrypt, TOTP, JWT and [json.Unmarshal] are
    library code: the class [Crypto], with [CryptoLaws] for what the code relies
    on.  The exchanges with the identity provider are HTTP: their results are
    arguments.  Times are seconds. *)

From stdpp Require Import base list strings countable.
From Stdlib Require Import ZArith Lia.
From S2P Require Import Prelude GoStrings Gorm Models Database Repositories Permissions Accounts.
Local Open Scope Z_scope.

(** ** Library code *)

Module Claims.
Record t := { UserID : text; Username : text; Role : text; ExpiresAt : Z; IssuedAt : Z }.
End Claims.

Class Crypto := {
  GenerateFromPassword : text → text → result text text;
  CompareHashAndPassword : text → text → bool;
  totp_Validate : text → text → Z → bool;
  SignedString : Claims.t → result text text;
  ParseWithClaims : text → Z → result text Claims.t;
  json_strings : text → option (list text);
  json_marshal : list text → result text text
}.

(** A hash accepts its password; a list of strings is read back; a token that parses was signed with the secret
    and has not expired, and a signed token parses until then. *)
Class CryptoLaws (C : Crypto) : Prop := {
  compare_hash salt pw h : GenerateFromPassword salt pw = Ok h → CompareHashAndPassword h pw = true;
  parse_signed c tok now : SignedString c = Ok tok → now < Claims.ExpiresAt c →
                           ParseWithClaims tok now = Ok c;
  parse_fresh tok now c : ParseWithClaims tok now = Ok c → now < Claims.ExpiresAt c;
  parse_genuine tok now c : ParseWithClaims tok now = Ok c → SignedString c = Ok tok;
  signed_nonempty c tok : SignedString c = Ok tok → tok ≠ [];
  json_round l s : json_marshal l = Ok s → s ≠ [] ∧ json_strings s = Some l
}.

(** ** Requests and answers *)

Module LoginRequest.
Record t := { Username : text; Password : text; TwoFactorCode : text; BackupCode : text }.
End LoginRequest.

Module LoginResponse.
Record t := { Token : text; User_ : User.t; RequiresTwoFactor : bool; TwoFactorEnabled : bool;
              NeedsTwoFactorSetup : bool }.
End LoginResponse.

Definition week : Z := 7 * 24 * 3600.

Section auth.
Context `{Crypto} (err_text : db_error → text).

(** ** The second factor *)

(** [ValidateBackupCode]. *)
Definition ValidateBackupCode (backupCodes : list text) (code : text) : bool :=
  existsb (λ c, text_eqb c code) backupCodes.

Definition validateTwoFactorCode (user : User.t) (totpCode backupCode : text) (now : Z) : bool :=
  negb (is_empty totpCode) && totp_Validate totpCode (User.TwoFactorSecret user) now
  || negb (is_empty backupCode) && negb (is_empty (User.TwoFactorBackupCodes user))
     && match json_strings (User.TwoFactorBackupCodes user) with
        | Some backupCodes => ValidateBackupCode backupCodes backupCode
        | None => false
        end.

(** ** Passwords *)

Definition wrong_credentials : text := txt "用户名或密码错误".

Definition authenticateWithPassword (username password : text) : Eff text User.t :=
  r ← caught (FindUserByUsername username);
  match r with
  | Err RecordNotFound => raise wrong_credentials
  | Err e => raise (txt "查询用户失败: " ++ err_text e)
  | Ok user =>
      if negb (text_eqb (User.Status user) active) then raise (txt "用户已被禁用")
      else if negb (CompareHashAndPassword (User.Password user) password) then raise wrong_credentials
      else mret user
  end.

Definition ValidatePassword (user : User.t) (password : text) : result text unit :=
  if negb (text_eqb (User.Status user) active) then Err (txt "用户已被禁用")
  else if negb (CompareHashAndPassword (User.Password user) password) then Err (txt "密码错误")
  else Ok ().

(** [GetByCategory("auth")], an error taken for no settings. *)
Definition auth_settings : Eff text (list Setting.t) :=
  l ← attempt (find (λ db, keep (λ s, text_eqb (Setting.Category s) (txt "auth")) (settings db)));
  mret (default [] l).

Definition getSettingValue (settings : list Setting.t) (key defaultValue : text) : text :=
  match keep (λ s, text_eqb (Setting.Key s) key) settings with
  | s :: _ => Setting.Value s
  | [] => defaultValue
  end.

(** [authenticateWithLDAP]: a frame that never accepts. *)
Definition authenticateWithLDAP (settings : list Setting.t) : result text User.t :=
  let get k := getSettingValue settings (txt k) [] in
  if is_empty (get "ldapServer"%string) || is_empty (get "ldapBindDn"%string)
     || is_empty (get "ldapBaseDn"%string) || is_empty (get "ldapBindPassword"%string)
  then Err (txt "LDAP配置不完整，请在系统设置中完成LDAP配置")
  else Err (txt "LDAP认证功能需要安装 go-ldap 依赖库，请运行: go get github.com/go-ldap/ldap/v3").

(** ** Tokens *)

Definition claims_of (user : User.t) (now : Z) : Claims.t :=
  {| Claims.UserID := User.ID user; Claims.Username := User.Username user;
     Claims.Role := User.Role user; Claims.ExpiresAt := now + week; Claims.IssuedAt := now |}.

Definition GenerateToken (user : User.t) (now : Z) : result text text :=
  SignedString (claims_of user now).

Definition ValidateToken (tokenString : text) (now : Z) : result text Claims.t :=
  ParseWithClaims tokenString now.

(** ** Login *)

Definition expired (user : User.t) (now : Z) : bool :=
  match User.ExpiresAt user with Some t => t <? now | None => false end.

Definition login_record (id : text) (user : User.t) (loginIP userAgent : text) (now : Z)
    : PlatformLogin.t :=
  {| PlatformLogin.ID := id; PlatformLogin.UserID := User.ID user;
     PlatformLogin.Username := User.Username user; PlatformLogin.LoginIP := loginIP;
     PlatformLogin.UserAgent := userAgent; PlatformLogin.LoginTime := now;
     PlatformLogin.Status := active |}.

Definition CreatePlatformLoginRecord (r : PlatformLogin.t) : DB unit := execute (λ db,
  if existsb (λ q, text_eqb (PlatformLogin.ID q) (PlatformLogin.ID r)) (platform_logins (aux db))
  then Err DuplicatedKey
  else Ok (set_platform_logins db (platform_logins (aux db) ++ [r]))).

(** The token, then the two writes whose errors are only printed. *)
Definition issue (user : User.t) (id loginIP userAgent : text) (now : Z) : Eff text text :=
  match GenerateToken user now with
  | Err e => raise (txt "生成Token失败: " ++ e)
  | Ok token =>
      _ ← attempt (UpdateUserLastLogin (User.ID user) now loginIP);
      _ ← attempt (CreatePlatformLoginRecord (login_record id user loginIP userAgent now));
      mret token
  end.

Definition ask_second_factor (user : User.t) : LoginResponse.t :=
  {| LoginResponse.Token := []; LoginResponse.User_ := user;
     LoginResponse.RequiresTwoFactor := true; LoginResponse.TwoFactorEnabled := true;
     LoginResponse.NeedsTwoFactorSetup := false |}.

Definition finish (user : User.t) (needsSetup : bool) (id loginIP userAgent : text) (now : Z)
    : Eff text LoginResponse.t :=
  token ← issue user id loginIP userAgent now;
  mret {| LoginResponse.Token := token; LoginResponse.User_ := user;
          LoginResponse.RequiresTwoFactor := false; LoginResponse.TwoFactorEnabled := false;
          LoginResponse.NeedsTwoFactorSetup := needsSetup |}.

(** The part after the password: the second factor, then the token. *)
Definition second_factor (user : User.t) (globalEnabled : bool) (req : LoginRequest.t)
    (id loginIP userAgent : text) (now : Z) : Eff text LoginResponse.t :=
  let verify :=
    if is_empty (LoginRequest.TwoFactorCode req) && is_empty (LoginRequest.BackupCode req)
    then mret (ask_second_factor user)
    else if negb (validateTwoFactorCode user (LoginRequest.TwoFactorCode req)
                    (LoginRequest.BackupCode req) now)
    then raise (txt "2FA验证失败")
    else finish user false id loginIP userAgent now in
  if globalEnabled : bool then
    if negb (User.TwoFactorEnabled user) then finish user true id loginIP userAgent now
    else verify
  else if User.TwoFactorEnabled user then verify
  else finish user false id loginIP userAgent now.

(** The user the configured method accepts. *)
Definition authenticate (req : LoginRequest.t) (authSettings : list Setting.t) : Eff text User.t :=
  let authMethod := getSettingValue authSettings (txt "authMethod") (txt "password") in
  if text_eqb authMethod (txt "ldap") then
    match authenticateWithLDAP authSettings with
    | Err e => raise (txt "LDAP认证失败: " ++ e)
    | Ok user => mret user
    end
  else if text_eqb authMethod (txt "sso") then
    raise (txt "SSO认证需要通过授权流程，请使用SSO登录按钮")
  else authenticateWithPassword (LoginRequest.Username req) (LoginRequest.Password req).

Definition globally_enabled : Eff text bool :=
  config ← attempt (first (λ db, TwoFactorConfig.Enabled <$> two_factor_configs (aux db)));
  mret (default false config).

Definition Login (req : LoginRequest.t) (id loginIP userAgent : text) (now : Z)
    : Eff text LoginResponse.t :=
  authSettings ← auth_settings;
  user ← authenticate req authSettings;
  if expired user now then raise (txt "账号已过期，请联系管理员")
  else
    globalEnabled ← globally_enabled;
    second_factor user globalEnabled req id loginIP userAgent now.

(** ** Single sign-on *)

Definition LoginWithSSO (exchange userInfo : text → result text text)
    (decode : text → result text SSOUserInfo.t)
    (code randomPassword salt newID id loginIP userAgent : text) (now : Z)
    : Eff text LoginResponse.t :=
  authSettings ← or_fail (λ e, txt "获取SSO配置失败: " ++ err_text e)
    (find (λ db, keep (λ s, text_eqb (Setting.Category s) (txt "auth")) (settings db)));
  let get k := getSettingValue authSettings (txt k) [] in
  if is_empty (get "ssoProvider"%string) || is_empty (get "ssoClientId"%string)
     || is_empty (get "ssoClientSecret"%string) || is_empty (get "ssoTokenUrl"%string)
     || is_empty (get "ssoUserInfoUrl"%string)
  then raise (txt "SSO配置不完整")
  else
    match exchange code with
    | Err e => raise (txt "获取访问令牌失败: " ++ e)
    | Ok accessToken =>
        match (userInfo accessToken ≫= decode : result text SSOUserInfo.t) with
        | Err e => raise (txt "获取用户信息失败: " ++ e)
        | Ok info =>
            user ← or_fail (λ e, txt "创建或更新用户失败: " ++ e)
                     (CreateOrUpdateSSOUser err_text GenerateFromPassword info randomPassword newID salt);
            if expired user now then raise (txt "账号已过期，请联系管理员")
            else finish user false id loginIP userAgent now
        end
    end.

(** ** The middleware *)

(** [AuthMiddleware]: the header, or the query parameter when there is none. *)
Definition AuthMiddleware `{Unicode} (authHeader token : text) (now : Z) : result text Claims.t :=
  if negb (is_empty authHeader) then
    match strip_prefix authHeader (txt "Bearer ") with
    | None => Err (txt "Token format is invalid")
    | Some tokenString => map_err (λ _, txt "Token is invalid or expired") (ValidateToken tokenString now)
    end
  else
    let tokenString := trim_space token in
    if is_empty tokenString then Err (txt "Missing Authorization header or token")
    else map_err (λ _, txt "Token is invalid or expired") (ValidateToken tokenString now).

(** [AdminMiddleware]: the role the token was issued with. *)
Definition AdminMiddleware (c : Claims.t) : bool := text_eqb (Claims.Role c) admin.
End auth.

(** ** What a login proves *)

Section login.
Context `{CryptoLaws} (err_text : db_error → text).

(** The facts a login with a password establishes about [user]. *)
Record signs_in (req : LoginRequest.t) (now : Z) (db : Db) (user : User.t) : Prop := {
  in_table : user ∈ users db;
  by_name : User.Username user = LoginRequest.Username req;
  is_active : User.Status user = active;
  knows_password : CompareHashAndPassword (User.Password user) (LoginRequest.Password req) = true;
  not_expired : expired user now = false
}.

Lemma wp_authenticateWithPassword username password Q db :
  (∀ user, user ∈ users db → User.Username user = username → User.Status user = active →
           CompareHashAndPassword (User.Password user) password = true → Q (Ok user) db) →
  (∀ e, Q (Err e) db) → wp (authenticateWithPassword err_text username password) Q db.
Proof.
  intros HQ He. unfold authenticateWithPassword. apply wp_bind, wp_caught, wp_some_user.
  - intros u Hu Hn%text_eqb_true. wp_steps; [done..|]. prop_bools. apply HQ; [done..| |done].
    by apply text_eqb_true.
  - intros []; by apply wp_raise.
Qed.

Lemma wp_authenticate req st Q db :
  (∀ user, user ∈ users db → User.Username user = LoginRequest.Username req →
           User.Status user = active →
           CompareHashAndPassword (User.Password user) (LoginRequest.Password req) = true →
           Q (Ok user) db) →
  (∀ e, Q (Err e) db) → wp (authenticate err_text req st) Q db.
Proof.
  intros HQ He. unfold authenticate. cbv zeta. destruct (text_eqb _ (txt "ldap")).
  - unfold authenticateWithLDAP. cbv zeta. destruct (_ || _); by apply wp_raise.
  - destruct (text_eqb _ (txt "sso")); [by apply wp_raise|]. by apply wp_authenticateWithPassword.
Qed.

(** The tables a login leaves: only the time and address of the user's last
    login and the list of logins change. *)
Definition logged_in (user : User.t) (db db' : Db) : Prop :=
  (users db' = users db ∨ ∃ t ip, users db' =
     updated (λ v, text_eqb (User.ID v) (User.ID user)) (λ u, User.set_login u t ip) <$> users db) ∧
  settings db' = settings db ∧ two_factor_configs (aux db') = two_factor_configs (aux db).

Lemma wp_CreatePlatformLoginRecord rec (Q : result db_error unit → Db → Prop) db :
  (∀ l, Q (Ok ()) (set_platform_logins db l)) → (∀ e, Q (Err e) db) →
  wp (CreatePlatformLoginRecord rec) Q db.
Proof.
  intros HQ He. apply wp_execute; [|done]. intros db' Hs. destruct (existsb _ _); [done|].
  injection Hs as <-. apply HQ.
Qed.

Lemma wp_issue user id ip ua now Q db :
  (∀ tok db', SignedString (claims_of user now) = Ok tok → logged_in user db db' → Q (Ok tok) db') →
  (∀ e, Q (Err e) db) → wp (issue user id ip ua now) Q db.
Proof.
  intros HQ He. unfold issue, GenerateToken. destruct (SignedString _) as [tok|] eqn:Et;
    [|by apply wp_raise].
  apply wp_bind, wp_attempt, wp_execute.
  - intros db1 [= <-]. apply wp_bind, wp_attempt, wp_CreatePlatformLoginRecord.
    + intros l. apply wp_ret, HQ; [done|]. split; [right; eauto|done].
    + intros e. apply wp_ret, HQ; [done|]. split; [right; eauto|done].
  - intros e. apply wp_bind, wp_attempt, wp_CreatePlatformLoginRecord.
    + intros l. apply wp_ret, HQ; [done|]. split; [by left|done].
    + intros e'. apply wp_ret, HQ; [done|]. split; [by left|done].
Qed.

(** What the answer says of the user: the token is the user's, or a second
    factor is asked for. *)
Definition answers (req : LoginRequest.t) (now : Z) (user : User.t) (resp : LoginResponse.t) : Prop :=
  LoginResponse.User_ resp = user ∧
  if LoginResponse.RequiresTwoFactor resp
  then LoginResponse.Token resp = [] ∧ User.TwoFactorEnabled user = true ∧
       LoginRequest.TwoFactorCode req = [] ∧ LoginRequest.BackupCode req = []
  else SignedString (claims_of user now) = Ok (LoginResponse.Token resp) ∧
       (User.TwoFactorEnabled user = true →
        validateTwoFactorCode user (LoginRequest.TwoFactorCode req)
          (LoginRequest.BackupCode req) now = true).

Lemma wp_finish user b id ip ua now Q db :
  (∀ resp db', LoginResponse.RequiresTwoFactor resp = false → LoginResponse.User_ resp = user →
     SignedString (claims_of user now) = Ok (LoginResponse.Token resp) →
     logged_in user db db' → Q (Ok resp) db') →
  (∀ e, Q (Err e) db) → wp (finish user b id ip ua now) Q db.
Proof.
  intros HQ He. apply wp_bind, wp_issue; [|done]. intros tok db' Ht Hdb. by apply wp_ret, HQ.
Qed.

Lemma wp_second_factor user g req id ip ua now Q db :
  (∀ resp db', answers req now user resp →
     (if LoginResponse.RequiresTwoFactor resp then db' = db else logged_in user db db') →
     Q (Ok resp) db') →
  (∀ e, Q (Err e) db) → wp (second_factor user g req id ip ua now) Q db.
Proof.
  intros HQ He. unfold second_factor. cbv zeta.
  assert (∀ b, (User.TwoFactorEnabled user = true →
                validateTwoFactorCode user (LoginRequest.TwoFactorCode req)
                  (LoginRequest.BackupCode req) now = true) →
               wp (finish user b id ip ua now) Q db) as Hfin.
  { intros b Hv. apply wp_finish; [|done]. intros resp db' Hr Hu Ht Hl.
    apply HQ; [|by rewrite Hr]. unfold answers. by rewrite Hr. }
  destruct (User.TwoFactorEnabled user) eqn:Ee; [|by destruct g; apply Hfin].
  destruct g; cbn [negb]; destruct (is_empty (LoginRequest.TwoFactorCode req)) eqn:E1,
    (is_empty (LoginRequest.BackupCode req)) eqn:E2; cbn [andb].
  all: try (apply wp_ret, HQ; [|done]; split; [done|];
    destruct (LoginRequest.TwoFactorCode req), (LoginRequest.BackupCode req); done).
  all: destruct (validateTwoFactorCode user _ _ now) eqn:Ev; cbn [negb];
    [by apply Hfin|by apply wp_raise].
Qed.

(** What one login does, whichever statements fail. *)
Lemma wp_Login req id ip ua now Q db :
  (∀ user resp db', signs_in req now db user → answers req now user resp →
     (if LoginResponse.RequiresTwoFactor resp then db' = db else logged_in user db db') →
     Q (Ok resp) db') →
  (∀ e, Q (Err e) db) → wp (Login err_text req id ip ua now) Q db.
Proof.
  intros HQ He. unfold Login, auth_settings. apply wp_bind, wp_attempt_read; [apply preserves_find, _|].
  intros o. apply wp_ret, wp_bind, wp_authenticate; [|done]. intros user Hu Hn Hs Hp.
  destruct (expired user now) eqn:Ex; [by apply wp_raise|].
  apply wp_bind, wp_attempt_read; [apply preserves_query, _|]. intros c.
  apply wp_ret, wp_second_factor; [|done]. intros resp db' Ha Hdb. by eapply HQ.
Qed.

(** C4: A token is handed out only to a user of the table with that name who is
    active, knows the password, has not expired, and who, if the second factor
    is set up, presented a valid code or backup code; the token is accepted as
    that user's, with the role of the table, for a week. *)
Theorem Login_grants_token req id ip ua now db f resp db' f' :
  Login err_text req id ip ua now db f = (Ok resp, db', f') → LoginResponse.Token resp ≠ [] →
  ∃ user, signs_in req now db user ∧
    (User.TwoFactorEnabled user = true →
     validateTwoFactorCode user (LoginRequest.TwoFactorCode req)
       (LoginRequest.BackupCode req) now = true) ∧
    ∀ t, t < now + week →
      ValidateToken (LoginResponse.Token resp) t = Ok (claims_of user now).
Proof.
  intros Hl Htok.
  refine (wp_Login req id ip ua now (λ r _, r = Ok resp → _) db _ _ f _ db' f' Hl eq_refl); [|done].
  intros user resp' db1 Hs [_ Ha] _ [= ->]. exists user. split; [done|].
  destruct (LoginResponse.RequiresTwoFactor resp); [by destruct Ha|].
  destruct Ha as [Ht Hv]. split; [done|]. intros t Hlt. by apply parse_signed.
Qed.

(** *** Running a login *)

Lemma keep_first {A} (p : A → bool) l x :
  x ∈ l → p x = true → (∀ y, y ∈ l → p y = true → y = x) → ∃ k, keep p l = x :: k.
Proof.
  intros Hx Hp Hu. destruct (keep p l) as [|y k] eqn:E.
  - assert (x ∈ keep p l) as Hin by (by apply elem_of_keep). rewrite E in Hin.
    by apply not_elem_of_nil in Hin.
  - apply keep_head in E as [Hy Hpy]. exists k. by rewrite (Hu y Hy Hpy).
Qed.

Lemma find_user_run (p : User.t → bool) db u :
  u ∈ users db → p u = true → (∀ v, v ∈ users db → p v = true → v = u) →
  (find (λ db, keep p (users db)) ≫= first_of) db [] = (Ok u, db, []).
Proof.
  intros Hu Hp Hun. destruct (keep_first p _ u Hu Hp Hun) as [k Hk].
  rewrite bind_run. simpl. by rewrite Hk.
Qed.

Lemma FindUserByUsername_run db u :
  users_ok db → u ∈ users db → FindUserByUsername (User.Username u) db [] = (Ok u, db, []).
Proof.
  intros Hdb Hu. apply find_user_run; [done|apply text_eqb_refl|].
  intros v Hv Hp%text_eqb_true. by apply Hdb.
Qed.

(** The configured method is the password. *)
Definition password_login (db : Db) : Prop :=
  let m := getSettingValue (keep (λ s, text_eqb (Setting.Category s) (txt "auth")) (settings db))
             (txt "authMethod") (txt "password") in
  text_eqb m (txt "ldap") = false ∧ text_eqb m (txt "sso") = false.

Lemma Login_password_only req id ip ua now db resp db' f' :
  Login err_text req id ip ua now db [] = (Ok resp, db', f') → password_login db.
Proof.
  unfold Login, auth_settings, authenticate, password_login. rewrite !bind_run.
  cbn [attempt find query tail default mret db_ret]. cbv zeta.
  destruct (text_eqb _ (txt "ldap")).
  { unfold authenticateWithLDAP. cbv zeta. by destruct (_ || _). }
  by destruct (text_eqb _ (txt "sso")).
Qed.

Lemma issue_run user id ip ua now tok db :
  SignedString (claims_of user now) = Ok tok →
  ∃ db', issue user id ip ua now db [] = (Ok tok, db', []) ∧ logged_in user db db'.
Proof.
  intros Ht. destruct (issue user id ip ua now db []) as [[r db'] f'] eqn:E.
  unfold issue, GenerateToken in E. rewrite Ht in E.
  unfold attempt, UpdateUserLastLogin, update_user, CreatePlatformLoginRecord, execute in E.
  rewrite !bind_run in E. cbn [list.tail] in E.
  match type of E with context [existsb ?p ?l] => destruct (existsb p l) end; simpl in E;
    injection E as <- <- <-; eexists; (split; [done|]); (split; [right; eauto|done]).
Qed.

Lemma finish_run user b id ip ua now tok db :
  SignedString (claims_of user now) = Ok tok →
  ∃ resp db', finish user b id ip ua now db [] = (Ok resp, db', []) ∧
    LoginResponse.Token resp = tok ∧ LoginResponse.User_ resp = user ∧
    LoginResponse.RequiresTwoFactor resp = false.
Proof.
  intros Ht. destruct (issue_run user id ip ua now tok db Ht) as (db' & E & _).
  unfold finish. rewrite bind_run, E. eexists _, db'. done.
Qed.

Lemma auth_settings_run db :
  auth_settings db [] =
  (Ok (keep (λ s, text_eqb (Setting.Category s) (txt "auth")) (settings db)), db, []).
Proof. done. Qed.

Lemma authenticate_run req db now user :
  users_ok db → password_login db → signs_in req now db user →
  authenticate err_text req (keep (λ s, text_eqb (Setting.Category s) (txt "auth")) (settings db)) db []
  = (Ok user, db, []).
Proof.
  intros Hdb [Hm1 Hm2] [Hu Hn Hs Hp _]. unfold authenticate, authenticateWithPassword. cbv zeta.
  rewrite Hm1, Hm2, bind_run, caught_run, <- Hn, FindUserByUsername_run by done.
  by rewrite Hs, Hp, text_eqb_refl.
Qed.

(** A user who meets the conditions gets a token. *)
Lemma Login_accepts req id ip ua now db user tok :
  users_ok db → password_login db → signs_in req now db user →
  (User.TwoFactorEnabled user = true →
   (is_empty (LoginRequest.TwoFactorCode req) && is_empty (LoginRequest.BackupCode req)) = false ∧
   validateTwoFactorCode user (LoginRequest.TwoFactorCode req) (LoginRequest.BackupCode req) now
   = true) →
  SignedString (claims_of user now) = Ok tok →
  ∃ resp db', Login err_text req id ip ua now db [] = (Ok resp, db', []) ∧
    LoginResponse.Token resp = tok ∧ LoginResponse.User_ resp = user.
Proof.
  intros Hdb Hm Hin Hv Ht. pose proof (not_expired _ _ _ _ Hin) as Hx.
  destruct (finish_run user false id ip ua now tok db Ht) as (resp & db' & E & H1 & H2 & _).
  destruct (finish_run user true id ip ua now tok db Ht) as (resp1 & db1 & E1 & H3 & H4 & _).
  assert (∀ g, ∃ resp db', second_factor user g req id ip ua now db [] = (Ok resp, db', []) ∧
    LoginResponse.Token resp = tok ∧ LoginResponse.User_ resp = user) as Hsf.
  { intros g. unfold second_factor. cbv zeta. destruct (User.TwoFactorEnabled user).
    - destruct Hv as [-> Hv]; [done|]. rewrite Hv. destruct g; simpl; eauto.
    - destruct g; simpl; eauto. }
  unfold Login. rewrite bind_run, auth_settings_run, bind_run, (authenticate_run _ _ _ user) by done.
  rewrite Hx. unfold globally_enabled, attempt, first, query. rewrite !bind_run. cbn [list.tail].
  destruct (TwoFactorConfig.Enabled <$> _); apply Hsf.
Qed.
(** *** What a login outlives *)

(** The user's row after a login. *)
Lemma logged_in_row user db db' v :
  users_ok db → user ∈ users db → logged_in user db db' → v ∈ users db' →
  User.Username v = User.Username user → User.ID v = User.ID user.
Proof.
  intros Hdb Hu [[->|(t & ip & ->)] _] Hv Hn.
  - by rewrite (names_distinct _ Hdb v user Hv Hu Hn).
  - apply list_elem_of_fmap in Hv as (x & -> & Hx).
    assert (x = user) as ->.
    { apply (names_distinct _ Hdb); [done..|]. rewrite <- Hn. unfold updated. by destruct (text_eqb _ _). }
    unfold updated. by destruct (text_eqb _ _).
Qed.

Lemma DeleteUser_run id db f db' f' :
  DeleteUser err_text id db f = (Ok (), db', f') →
  users db' = updated (λ v, text_eqb (User.ID v) id) (λ u, User.set_status u inactive) <$> users db.
Proof.
  unfold DeleteUser, existing_user. intros (u & db1 & f1 & H1 & H2)%bind_Ok.
  apply or_fail_Ok, first_keep_Ok in H1 as (_ & _ & ->).
  by apply or_fail_Ok, execute_Ok in H2 as [= <-].
Qed.

(** A token outlives the account.  After the user who got it is deleted, no
    login with that name succeeds any more, and yet until the week is over the
    middleware accepts the token as before, with the role it was issued with:
    it does not read the table. *)
Theorem token_outlives_account `{Unicode} req id ip ua now db f resp db1 f1 g db2 g' :
  users_ok db →
  Login err_text req id ip ua now db f = (Ok resp, db1, f1) → LoginResponse.Token resp ≠ [] →
  DeleteUser err_text (User.ID (LoginResponse.User_ resp)) db1 g = (Ok (), db2, g') →
  (∀ req2 id2 ip2 ua2 t, LoginRequest.Username req2 = LoginRequest.Username req →
     wp (Login err_text req2 id2 ip2 ua2 t) (λ r _, ∀ resp2, r ≠ Ok resp2) db2) ∧
  ∀ t, t < now + week →
    AuthMiddleware (txt "Bearer " ++ LoginResponse.Token resp) [] t
      = Ok (claims_of (LoginResponse.User_ resp) now) ∧
    AdminMiddleware (claims_of (LoginResponse.User_ resp) now)
      = text_eqb (User.Role (LoginResponse.User_ resp)) admin.
Proof.
  intros Hdb Hl Htok Hd.
  refine (wp_Login req id ip ua now (λ r db1', r = Ok resp → db1' = db1 → _) db _ _
            f _ _ f1 Hl eq_refl eq_refl); [|done].
  intros user resp' db1' Hin [Hu Ha] Hrow [= ->] ->.
  destruct (LoginResponse.RequiresTwoFactor resp); [by destruct Ha|]. destruct Ha as [Ht _].
  rewrite Hu in *. split.
  - intros req2 id2 ip2 ua2 t Hn. apply wp_Login; [|done].
    intros v resp2 db' [Hv Hvn Hvs _ _] _ _ r _. apply DeleteUser_run in Hd. rewrite Hd in Hv.
    apply list_elem_of_fmap in Hv as (w & -> & Hw).
    assert (User.Username w = User.Username user) as Hwn.
    { rewrite (by_name _ _ _ _ Hin), <- Hn, <- Hvn. unfold updated. by destruct (text_eqb _ _). }
    pose proof (logged_in_row _ _ _ _ Hdb (in_table _ _ _ _ Hin) Hrow Hw Hwn) as Hid.
    unfold updated in Hvs. by rewrite Hid, text_eqb_refl in Hvs.
  - intros t Hlt. split; [|done]. unfold AuthMiddleware. simpl.
    unfold ValidateToken. by rewrite (parse_signed (claims_of user now) _ t Ht Hlt).
Qed.
(** *** Backup codes *)

Lemma logged_in_ok user db db' : users_ok db → logged_in user db db' → users_ok db'.
Proof.
  intros Hdb [Hu _].
  assert (∀ l, users db' = users (set_users db l) → users_ok (set_users db l) → users_ok db') as Hsame.
  { intros l Hl [???]. by split; rewrite Hl. }
  destruct Hu as [Hu|(t & ip & Hu)].
  - apply (Hsame (users db)); [done|]. by destruct Hdb.
  - apply (Hsame (updated (λ v, text_eqb (User.ID v) (User.ID user))
                    (λ u, User.set_login u t ip) <$> users db)); [done|].
    assert (keeps_ok (update_user (User.ID user) (λ u, User.set_login u t ip)) db) as Hk.
    { apply update_user_ok; [done|]. intros u. split_and!; [done..|]. intros ?. by apply set_fields_ok. }
    exact (Hk [] _ _ _ eq_refl).
Qed.

(** The user's row as it is after a login. *)
Lemma logged_in_same user db db' :
  user ∈ users db → logged_in user db db' →
  ∃ v, v ∈ users db' ∧ (v = user ∨ ∃ t ip, v = User.set_login user t ip).
Proof.
  intros Hu [[->|(t & ip & ->)] _]; [by exists user; auto|].
  exists (User.set_login user t ip). split; [|eauto]. apply list_elem_of_fmap.
  exists user. split; [|done]. unfold updated. by rewrite text_eqb_refl.
Qed.

(** A backup code is not consumed: after a login with one, the same request
    logs in again, at any later time, with the same code. *)
Theorem backup_code_reused req id ip ua now db resp db1 f1 id2 now2 tok :
  users_ok db → LoginRequest.TwoFactorCode req = [] → LoginRequest.BackupCode req ≠ [] →
  Login err_text req id ip ua now db [] = (Ok resp, db1, f1) →
  expired (LoginResponse.User_ resp) now2 = false →
  SignedString (claims_of (LoginResponse.User_ resp) now2) = Ok tok →
  ∃ resp2 db2, Login err_text req id2 ip ua now2 db1 [] = (Ok resp2, db2, []) ∧
    LoginResponse.Token resp2 = tok.
Proof.
  intros Hdb Hcode Hback Hl Hx Ht.
  pose proof (Login_password_only _ _ _ _ _ _ _ _ _ Hl) as Hm.
  refine (wp_Login req id ip ua now (λ r db1', r = Ok resp → db1' = db1 → _) db _ _
            [] _ _ f1 Hl eq_refl eq_refl); [|done].
  intros user resp' db1' Hin [Hu Ha] Hrow [= ->] ->. rewrite Hu in *.
  destruct (LoginResponse.RequiresTwoFactor resp); [by destruct Ha as (_ & _ & _ & ?)|].
  destruct Ha as [_ Hv].
  destruct (logged_in_same _ _ _ (in_table _ _ _ _ Hin) Hrow) as (v & Hv1 & Hv2).
  destruct (Login_accepts req id2 ip ua now2 db1 v tok) as (resp2 & db2 & H2 & H3 & _).
  - by eapply logged_in_ok.
  - unfold password_login. by rewrite (proj1 (proj2 Hrow)).
  - destruct Hin as [_ Hn Hs Hp _]. by destruct Hv2 as [->|(t & ip' & ->)].
  - rewrite Hcode in *. intros He. split; [by destruct (LoginRequest.BackupCode req)|].
    assert (User.TwoFactorEnabled user = true) as He1 by (by destruct Hv2 as [->|(? & ? & ->)]).
    specialize (Hv He1). by destruct Hv2 as [->|(? & ? & ->)].
  - by destruct Hv2 as [->|(? & ? & ->)].
  - eauto.
Qed.

(** *** Single sign-on *)

(** The account the identity provider's answer is taken for: the one with the
    address, or, when nobody has it, the one with the name. *)
Definition sso_names (db : Db) (info : SSOUserInfo.t) (u : User.t) : Prop :=
  SSOUserInfo.Email info ≠ [] ∧ User.Email u = SSOUserInfo.Email info ∨
  (SSOUserInfo.Email info = [] ∨ ∀ v, v ∈ users db → User.Email v ≠ SSOUserInfo.Email info) ∧
  SSOUserInfo.Username info ≠ [] ∧ User.Username u = SSOUserInfo.Username info.

Lemma lookup_user_run (p : User.t → bool) db u :
  u ∈ users db → p u = true → (∀ v, v ∈ users db → p v = true → v = u) →
  lookup_user err_text (find (λ db, keep p (users db)) ≫= first_of) db [] = (Ok (Some u), db, []).
Proof.
  intros Hu Hp Hun. unfold lookup_user. by rewrite bind_run, caught_run, (find_user_run p db u) by done.
Qed.

Lemma lookup_none_run (p : User.t → bool) db :
  (∀ v, v ∈ users db → p v = false) →
  lookup_user err_text (find (λ db, keep p (users db)) ≫= first_of) db [] = (Ok None, db, []).
Proof.
  intros Hn. unfold lookup_user. rewrite bind_run, caught_run, bind_run. simpl.
  destruct (keep p (users db)) as [|v k] eqn:E; [done|].
  apply keep_head in E as [Hv Hp]. by rewrite Hn in Hp.
Qed.

Lemma UpdateUser_run u v db :
  users_ok db → u ∈ users db → User.ID v = User.ID u → User.Username v = User.Username u →
  (∀ w, w ∈ users db → User.ID w ≠ User.ID u → User.Email w ≠ User.Email v) →
  ∃ db', UpdateUser v db [] = (Ok (), db', []).
Proof.
  intros Hdb Hu Hid Hn He. unfold UpdateUser, execute. rewrite Hid.
  rewrite (proj2 (existsb_none (λ w, negb (text_eqb (User.ID w) (User.ID u)) && clashes v w) (users db))).
  - rewrite (proj2 (existsb_elem (λ w, text_eqb (User.ID w) (User.ID u)) (users db)));
      [eauto|]. exists u. by rewrite text_eqb_refl.
  - intros w Hw. destruct (text_eqb (User.ID w) (User.ID u)) eqn:E; [done|].
    apply bool_decide_eq_false in E. apply clashes_false. split; [|by apply He].
    rewrite Hn. intros Heq. destruct E. f_equal. by apply (names_distinct _ Hdb).
Qed.

Lemma sso_account_run hash info pw newID salt db u :
  users_ok db → u ∈ users db → sso_names db info u →
  ∃ name email db', CreateOrUpdateSSOUser err_text hash info pw newID salt db []
                    = (Ok (User.set_info u name email), db', []).
Proof.
  intros Hdb Hu Hinfo.
  assert (sso_by_name err_text info (Some u) db [] = (Ok (Some u), db, [])) as Hby by done.
  assert (∃ name email db', sso_save err_text hash info pw newID salt (Some u) db []
            = (Ok (User.set_info u name email), db', [])) as Hsave.
  { unfold sso_save. cbv zeta. set (v := User.set_info u _ _).
    destruct (UpdateUser_run u v db) as [db' E]; [done..| |].
    - intros w Hw Hid. unfold v. simpl. destruct (is_empty (User.Email u)) eqn:Eu;
        [|rewrite andb_false_r; intros Heq; destruct Hid; f_equal; by apply (emails_distinct _ Hdb)].
      destruct (is_empty (SSOUserInfo.Email info)) eqn:Ei; simpl;
        [intros Heq; destruct Hid; f_equal; by apply (emails_distinct _ Hdb)|].
      destruct Hinfo as [[Hne Heq]|[[He|He] _]]; [by rewrite <- Heq in Hne; destruct (User.Email u)
        |by rewrite He in Ei|by apply He].
    - unfold or_fail. rewrite bind_run, E. eexists _, _, _. done. }
  unfold CreateOrUpdateSSOUser. rewrite bind_run.
  destruct Hinfo as [[Hne Heq]|[Hfree [Hne Heq]]].
  - destruct (is_empty (SSOUserInfo.Email info)) eqn:Ee; [by destruct (SSOUserInfo.Email info)|].
    unfold FindUserByEmail. rewrite (lookup_user_run _ db u); [by rewrite bind_run, Hby|done| |].
    + by rewrite Heq, text_eqb_refl.
    + intros v Hv Hp%text_eqb_true. apply (emails_distinct _ Hdb); [done..|]. by rewrite Heq.
  - assert ((if is_empty (SSOUserInfo.Email info) then mret None
             else lookup_user err_text (FindUserByEmail (SSOUserInfo.Email info))) db []
            = (Ok None, db, [])) as ->.
    { destruct (is_empty (SSOUserInfo.Email info)) eqn:Ee; [done|]. apply lookup_none_run.
      intros v Hv. apply bool_decide_eq_false. destruct Hfree as [He|He]; [by rewrite He in Ee|auto]. }
    rewrite bind_run. unfold sso_by_name. destruct (is_empty (SSOUserInfo.Username info)) eqn:En;
      [by destruct (SSOUserInfo.Username info)|].
    unfold FindUserByUsername. rewrite (lookup_user_run _ db u); [done|done| |].
    + by rewrite Heq, text_eqb_refl.
    + intros v Hv Hp%text_eqb_true. apply (names_distinct _ Hdb); [done..|]. by rewrite Heq.
Qed.

(** The settings single sign-on needs are there. *)
Definition sso_configured (db : Db) : Prop :=
  let l := keep (λ s, text_eqb (Setting.Category s) (txt "auth")) (settings db) in
  ∀ k, k ∈ ["ssoProvider"; "ssoClientId"; "ssoClientSecret"; "ssoTokenUrl"; "ssoUserInfoUrl"]%string →
       is_empty (getSettingValue l (txt k) []) = false.

(** Single sign-on checks neither the status of the account nor its second
    factor: whoever the provider's answer names, by address or by user name,
    gets a token, though the account is disabled or has the second factor on. *)
Theorem sso_skips_checks exchange userInfo decode code pw salt newID id ip ua now db u info at_ ans tok :
  users_ok db → u ∈ users db → sso_names db info u → sso_configured db →
  exchange code = Ok at_ → userInfo at_ = Ok ans → decode ans = Ok info →
  expired u now = false → SignedString (claims_of u now) = Ok tok →
  ∃ resp db', LoginWithSSO err_text exchange userInfo decode code pw salt newID id ip ua now db []
              = (Ok resp, db', []) ∧
    LoginResponse.Token resp = tok ∧ User.ID (LoginResponse.User_ resp) = User.ID u ∧
    LoginResponse.RequiresTwoFactor resp = false.
Proof.
  intros Hdb Hu Hinfo Hcfg He1 He2 He3 Hx Ht.
  destruct (sso_account_run GenerateFromPassword info pw newID salt db u) as (nm & em & db1 & Hsso);
    [done..|].
  unfold LoginWithSSO, or_fail. rewrite bind_run. cbn [find query list.tail map_err]. cbv zeta.
  rewrite !Hcfg by (rewrite ?elem_of_cons; tauto). cbn [orb]. rewrite He1, He2. cbn [mbind result_bind]. rewrite He3.
  rewrite bind_run, Hsso. cbn [map_err].
  change (expired (User.set_info u nm em) now) with (expired u now). rewrite Hx.
  destruct (finish_run (User.set_info u nm em) false id ip ua now tok db1) as (resp & db2 & E & H1 & H2 & H3).
  { exact Ht. }
  exists resp, db2. by rewrite H2.
Qed.
End login.

(** ** A sample library, and concrete logins *)

Definition claims_code (c : Claims.t) : text :=
  [Z.pos (encode (Claims.UserID c, Claims.Username c, Claims.Role c, Claims.ExpiresAt c,
                  Claims.IssuedAt c))].

Definition claims_decode (tok : text) : option Claims.t :=
  match tok with
  | [Z.pos p] => (λ '(i, u, r, e, s), {| Claims.UserID := i; Claims.Username := u;
      Claims.Role := r; Claims.ExpiresAt := e; Claims.IssuedAt := s |}) <$> decode p
  | _ => None
  end.

Definition claims_parse (tok : text) (now : Z) : result text Claims.t :=
  match claims_decode tok with
  | Some c => if bool_decide (claims_code c = tok) && (now <? Claims.ExpiresAt c) then Ok c else Err []
  | None => Err []
  end.

#[export] Instance sample_crypto : Crypto :=
  {| GenerateFromPassword salt pw := Ok pw; CompareHashAndPassword h pw := text_eqb h pw;
     totp_Validate code secret now := text_eqb code secret;
     SignedString c := Ok (claims_code c); ParseWithClaims := claims_parse;
     json_strings s := match s with [0; Z.pos p] => decode p | _ => Some [s] end;
     json_marshal l := Ok [0; Z.pos (encode l)] |}.

Lemma claims_decode_code c : claims_decode (claims_code c) = Some c.
Proof. unfold claims_decode, claims_code. rewrite countable.decode_encode. by destruct c. Qed.

#[export] Instance sample_crypto_laws : CryptoLaws sample_crypto.
Proof.
  split; simpl; unfold claims_parse.
  - intros salt pw h [= <-]. apply text_eqb_refl.
  - intros c tok now [= <-] Hlt. rewrite claims_decode_code, bool_decide_eq_true_2 by done.
    by rewrite (proj2 (Z.ltb_lt _ _) Hlt).
  - intros tok now c. destruct (claims_decode tok) as [c'|]; [|done].
    destruct (bool_decide _); [|done]. destruct (Z.ltb_spec now (Claims.ExpiresAt c')); [|done].
    by intros [= ->].
  - intros tok now c. destruct (claims_decode tok) as [c'|]; [|done].
    destruct (bool_decide_reflect (claims_code c' = tok)) as [Hc|]; [|done].
    destruct (now <? Claims.ExpiresAt c'); [|done]. intros [= <-]. by rewrite Hc.
  - by intros c tok [= <-].
  - intros l s [= <-]. split; [done|]. apply countable.decode_encode.
Qed.

(** Bob with a second factor and the backup code [B]. *)
Definition bob2 : User.t := User.set_two_factor bob true (txt "123456") (txt "B") (Some 1).
Definition bob2_db : Db := set_users empty_db [bob2].

Lemma bob2_db_ok : users_ok bob2_db.
Proof.
  split; simpl.
  - apply NoDup_singleton.
  - by intros x y ->%list_elem_of_singleton ->%list_elem_of_singleton.
  - by intros x y ->%list_elem_of_singleton ->%list_elem_of_singleton.
  - constructor; [|constructor]. apply set_fields_ok, new_user_ok. right. left.
Qed.

Definition bob_req (code backup : text) : LoginRequest.t :=
  {| LoginRequest.Username := txt "bob"; LoginRequest.Password := txt "saltpw";
     LoginRequest.TwoFactorCode := code; LoginRequest.BackupCode := backup |}.

Definition bob_login (code backup : text) (now : Z) (db : Db) :=
  Login plain_err (bob_req code backup) (txt "r1") [] [] now db [].

Definition granted (u : User.t) (needsSetup : bool) (now : Z) : LoginResponse.t :=
  {| LoginResponse.Token := claims_code (claims_of u now); LoginResponse.User_ := u;
     LoginResponse.RequiresTwoFactor := false; LoginResponse.TwoFactorEnabled := false;
     LoginResponse.NeedsTwoFactorSetup := needsSetup |}.

(** The three answers: a code is asked for, refused, accepted. *)
Example login_asks : res (bob_login [] [] 5 bob2_db) = Ok (ask_second_factor bob2).
Proof. vm_compute. reflexivity. Qed.
Example login_refuses : res (bob_login (txt "1") [] 5 bob2_db) = Err (txt "2FA验证失败").
Proof. vm_compute. reflexivity. Qed.

Lemma Login_grants_token_witness :
  claims_code (claims_of bob2 5) ≠ [] ∧
  ∃ user, signs_in (bob_req (txt "123456") []) 5 bob2_db user.
Proof.
  split; [done|].
  destruct (Login_grants_token plain_err (bob_req (txt "123456") []) (txt "r1") [] [] 5 bob2_db []
    (granted bob2 false 5) (after (bob_login (txt "123456") [] 5 bob2_db)) []) as (u & Hu & _).
  - vm_compute. reflexivity.
  - done.
  - exists u. exact Hu.
Defined.

Lemma token_outlives_account_witness :
  let db1 := after (bob_login (txt "123456") [] 5 bob2_db) in
  let db2 := after (DeleteUser plain_err (txt "u1") db1 []) in
  User.Status <$> users db2 = [inactive] ∧
  AuthMiddleware (txt "Bearer " ++ claims_code (claims_of bob2 5)) [] 6 = Ok (claims_of bob2 5).
Proof.
  intros db1 db2. split; [vm_compute; reflexivity|].
  apply (token_outlives_account plain_err (bob_req (txt "123456") []) (txt "r1") [] [] 5 bob2_db []
    (granted bob2 false 5) db1 [] [] db2 [] bob2_db_ok); [vm_compute; reflexivity|done
    |vm_compute; reflexivity|vm_compute; reflexivity].
Defined.

Lemma backup_code_reused_witness :
  let db1 := after (bob_login [] (txt "B") 5 bob2_db) in
  txt "B" ≠ [] ∧ ∃ resp2 db2, bob_login [] (txt "B") 9 db1 = (Ok resp2, db2, []) ∧
    LoginResponse.Token resp2 = claims_code (claims_of bob2 9).
Proof.
  intros db1. split; [done|].
  apply (backup_code_reused plain_err (bob_req [] (txt "B")) (txt "r1") [] [] 5 bob2_db
    (granted bob2 false 5) db1 [] (txt "r1") 9 _ bob2_db_ok eq_refl);
    [done|vm_compute; reflexivity|reflexivity|reflexivity].
Defined.

(** Bob disabled, signing in through the provider by his address. *)
Definition bob3 : User.t := User.set_status bob2 inactive.
Definition sso_setting (k v : string) : Setting.t :=
  {| Setting.ID := 0; Setting.Key := txt k; Setting.Value := txt v;
     Setting.Category := txt "auth"; Setting.Type_ := [] |}.
Definition bob3_db : Db := set_settings (set_users empty_db [bob3])
  (sso_setting "authMethod" "sso" :: ((λ k, sso_setting k "x") <$>
    ["ssoProvider"; "ssoClientId"; "ssoClientSecret"; "ssoTokenUrl"; "ssoUserInfoUrl"]%string)).

Lemma bob3_db_ok : users_ok bob3_db.
Proof.
  split; simpl.
  - apply NoDup_singleton.
  - by intros x y ->%list_elem_of_singleton ->%list_elem_of_singleton.
  - by intros x y ->%list_elem_of_singleton ->%list_elem_of_singleton.
  - constructor; [|constructor]. split; [right; left|right; left].
Qed.

Lemma bob3_db_sso : sso_configured bob3_db.
Proof. intros k. rewrite !elem_of_cons. intros [->|[->|[->|[->|[->|[]%not_elem_of_nil]]]]]; reflexivity. Qed.

Lemma sso_skips_checks_witness :
  let info := {| SSOUserInfo.Username := txt "other"; SSOUserInfo.Name := [];
                 SSOUserInfo.Email := txt "b@x" |} in
  User.Status bob3 = inactive ∧
  ∃ resp db', LoginWithSSO plain_err (λ _, Ok []) (λ _, Ok []) (λ _, Ok info) [] [] [] [] [] [] [] 5
                bob3_db [] = (Ok resp, db', []) ∧
    LoginResponse.Token resp = claims_code (claims_of bob3 5) ∧
    User.ID (LoginResponse.User_ resp) = User.ID bob3 ∧ LoginResponse.RequiresTwoFactor resp = false.
Proof.
  intros info. split; [reflexivity|].
  apply (sso_skips_checks plain_err _ _ _ [] [] [] [] [] [] [] 5 bob3_db bob3 info [] []);
    [exact bob3_db_ok|left|left; done|exact bob3_db_sso|reflexivity..].
Defined.
