(* ===== verification/TwoFactor.v ===== *)
(** * The second factor

    [internal/api/handler/twofactor_handler.go] and [pkg/twofactor]: the global
    switch, enrolment, backup codes.  A handler is a computation whose error is
    the HTTP answer, a status and a message; [userID] is what the middleware put
    in the context.  TOTP secrets, QR codes and the draws of [crypto/rand] are
    arguments. *)

From stdpp Require Import base list strings relations.
From Stdlib Require Import ZArith Lia.
From S2P Require Import Prelude GoStrings Gorm Models Database Repositories Permissions Accounts Auth.
Local Open Scope Z_scope.

Notation Http := (Eff (Z * text)).

(** ** Backup codes *)

Definition charset : text := txt "ABCDEFGHIJKLMNOPQRSTUVWXYZ0123456789".

Definition charset_letter (num : Z) : option rune := charset !! Z.to_nat num.
Arguments charset_letter : simpl never.

(** [generateRandomCode]: a draw of [rand.Int] per letter; [None] is its error. *)
Fixpoint generateRandomCode (length : nat) (draws : list (option Z))
    : option (text * list (option Z)) :=
  match length, draws with
  | O, _ => Some ([], draws)
  | S n, Some num :: draws =>
      match charset_letter num, generateRandomCode n draws with
      | Some c, Some (code, draws) => Some (c :: code, draws)
      | _, _ => None
      end
  | S _, _ => None
  end.

(** [GenerateBackupCodes]. *)
Fixpoint generate_codes (count : nat) (draws : list (option Z))
    : option (list text * list (option Z)) :=
  match count with
  | O => Some ([], draws)
  | S n =>
      match generateRandomCode 8 draws with
      | Some (code, draws) =>
          match generate_codes n draws with
          | Some (codes, draws) => Some (code :: codes, draws)
          | None => None
          end
      | None => None
      end
  end.

Definition GenerateBackupCodes (count : nat) (draws : list (option Z)) : option (list text) :=
  fst <$> generate_codes count draws.

(** ** The global switch *)

(** [Create]: the key is the next one. *)
Definition create_config (enabled : bool) (issuer : text) : DB TwoFactorConfig.t :=
  statement (λ db,
    let c := {| TwoFactorConfig.ID := next_id TwoFactorConfig.ID (two_factor_configs (aux db));
                TwoFactorConfig.Enabled := enabled; TwoFactorConfig.Issuer := issuer |} in
    Ok (set_two_factor_configs db (two_factor_configs (aux db) ++ [c]), c)).

(** [Save] of a row that was read. *)
Definition save_config (c : TwoFactorConfig.t) : DB unit := execute (λ db,
  Ok (set_two_factor_configs db
        (updated (λ d, TwoFactorConfig.ID d =? TwoFactorConfig.ID c) (λ _, c)
           <$> two_factor_configs (aux db)))).

Definition first_config : DB TwoFactorConfig.t := first (λ db, two_factor_configs (aux db)).

Definition default_config : TwoFactorConfig.t :=
  {| TwoFactorConfig.ID := 0; TwoFactorConfig.Enabled := false; TwoFactorConfig.Issuer := txt "ZJump" |}.

Definition GetGlobalConfig : Http TwoFactorConfig.t :=
  c ← attempt first_config;
  match c with
  | Some c => mret c
  | None => created ← attempt (create_config false (txt "ZJump")); mret (default default_config created)
  end.

Definition GetGlobalStatus : Http bool :=
  c ← attempt first_config; mret (TwoFactorConfig.Enabled (default default_config c)).

(** A body that does not parse is [None]. *)
Definition UpdateGlobalConfig (req : option (bool * text)) : Http TwoFactorConfig.t :=
  match req with
  | None => raise (400, txt "请求参数错误: ")
  | Some (enabled, issuer) =>
      c ← attempt first_config;
      or_fail (λ _, (500, txt "更新配置失败"))
        (match c with
         | Some c =>
             let c := {| TwoFactorConfig.ID := TwoFactorConfig.ID c;
                         TwoFactorConfig.Enabled := enabled;
                         TwoFactorConfig.Issuer := if is_empty issuer then TwoFactorConfig.Issuer c
                                                   else issuer |} in
             _ ← save_config c; mret c
         | None => create_config enabled issuer
         end)
  end.

(** ** Enrolment *)

Module TwoFactorSetupRequest.
Record t := { Secret : text; Code : text }.
End TwoFactorSetupRequest.

Module TwoFactorSetupResponse.
Record t := { QRCode : text; Secret : text; BackupCodes : list text }.
End TwoFactorSetupResponse.

Section handlers.
Context `{Crypto}.

Definition authorised (userID : option text) : Http text :=
  match userID with Some id => mret id | None => raise (401, txt "未授权") end.

(** [First(&user, "id = ?", userID)]: any error is a missing user. *)
Definition known_account (id missing : text) : Http User.t :=
  or_fail (λ _, (404, missing)) (FindUserByID id).

Definition the_user (userID : option text) : Http User.t :=
  id ← authorised userID; known_account id (txt "用户不存在").

Definition or_500 {X A} (message : text) (o : result X A) : Http A :=
  match o with Ok a => mret a | Err _ => raise (500, message) end.

Definition fresh_codes (draws : list (option Z)) : Http (list text) :=
  match GenerateBackupCodes 10 draws with
  | Some codes => mret codes
  | None => raise (500, txt "生成备用码失败")
  end.

Definition save_user (u : User.t) (message : text) : Http unit :=
  or_fail (λ _, (500, message)) (UpdateUser u).

(** [GetUserStatus]: enabled, since when, and the codes. *)
Definition GetUserStatus (userID : option text) : Http (bool * option Z * list text) :=
  user ← the_user userID;
  mret (User.TwoFactorEnabled user, User.TwoFactorVerifiedAt user,
        if User.TwoFactorEnabled user && negb (is_empty (User.TwoFactorBackupCodes user))
        then default [] (json_strings (User.TwoFactorBackupCodes user)) else []).

Definition SetupTwoFactor (userID : option text)
    (generateSecret : text → result text text) (qrCode qrURL : text → text → result text text)
    (draws : list (option Z)) : Http TwoFactorSetupResponse.t :=
  user ← the_user userID;
  if User.TwoFactorEnabled user then raise (400, txt "2FA已启用")
  else
    secret ← or_500 (txt "生成密钥失败") (generateSecret (User.Username user));
    qr ← or_500 (txt "生成二维码失败") (qrCode (User.Username user) secret);
    _ ← or_500 (txt "生成二维码失败") (qrURL (User.Username user) secret);
    backupCodes ← fresh_codes draws;
    mret {| TwoFactorSetupResponse.QRCode := qr; TwoFactorSetupResponse.Secret := secret;
            TwoFactorSetupResponse.BackupCodes := backupCodes |}.

(** A body that parses has a secret and a code, [binding:"required"]. *)
Definition bound_setup (req : option TwoFactorSetupRequest.t) : Http TwoFactorSetupRequest.t :=
  match req with
  | Some r => if is_empty (TwoFactorSetupRequest.Secret r) || is_empty (TwoFactorSetupRequest.Code r)
              then raise (400, txt "请求参数错误") else mret r
  | None => raise (400, txt "请求参数错误")
  end.

Definition VerifyTwoFactor (userID : option text) (req : option TwoFactorSetupRequest.t)
    (draws : list (option Z)) (now : Z) : Http (list text) :=
  id ← authorised userID;
  req ← bound_setup req;
  user ← known_account id (txt "用户不存在");
  if negb (totp_Validate (TwoFactorSetupRequest.Code req) (TwoFactorSetupRequest.Secret req) now)
  then raise (400, txt "验证码错误")
  else
    backupCodes ← fresh_codes draws;
    backupCodesStr ← or_500 (txt "序列化备用码失败") (json_marshal backupCodes);
    _ ← save_user (User.set_two_factor user true (TwoFactorSetupRequest.Secret req)
                     backupCodesStr (Some now)) (txt "启用2FA失败");
    mret backupCodes.

Definition cleared (u : User.t) : User.t := User.set_two_factor u false [] [] None.

Definition DisableTwoFactor (userID : option text) : Http unit :=
  user ← the_user userID;
  if negb (text_eqb (User.Role user) admin) then raise (403, txt "只有管理员可以禁用2FA")
  else save_user (cleared user) (txt "禁用2FA失败").

Definition ResetUserTwoFactor (userID : option text) (targetUserID : text) : Http unit :=
  currentUser ← the_user userID;
  if negb (text_eqb (User.Role currentUser) admin) then raise (403, txt "只有管理员可以重置用户2FA")
  else if is_empty targetUserID then raise (400, txt "用户ID不能为空")
  else
    targetUser ← known_account targetUserID (txt "目标用户不存在");
    save_user (cleared targetUser) (txt "重置2FA失败").

(** The code is [binding:"required"], the backup code is not. *)
Definition VerifyCode (userID : option text) (req : option (text * text)) (now : Z) : Http unit :=
  id ← authorised userID;
  match req with
  | Some (code, backupCode) =>
      if is_empty code then raise (400, txt "请求参数错误")
      else
        user ← known_account id (txt "用户不存在");
        if negb (User.TwoFactorEnabled user) then raise (400, txt "2FA未启用")
        else if validateTwoFactorCode user code backupCode now then mret ()
        else raise (400, txt "验证失败")
  | None => raise (400, txt "请求参数错误")
  end.

Definition GetBackupCodes (userID : option text) : Http (list text) :=
  user ← the_user userID;
  if negb (User.TwoFactorEnabled user) || is_empty (User.TwoFactorBackupCodes user)
  then raise (400, txt "2FA未启用或备用码不存在")
  else match json_strings (User.TwoFactorBackupCodes user) with
       | Some backupCodes => mret backupCodes
       | None => raise (500, txt "获取备用码失败")
       end.

Definition RegenerateBackupCodes (userID : option text) (draws : list (option Z)) : Http (list text) :=
  user ← the_user userID;
  if negb (User.TwoFactorEnabled user) then raise (400, txt "2FA未启用")
  else
    backupCodes ← fresh_codes draws;
    backupCodesStr ← or_500 (txt "序列化备用码失败") (json_marshal backupCodes);
    _ ← save_user (User.set_two_factor user true (User.TwoFactorSecret user) backupCodesStr
                     (User.TwoFactorVerifiedAt user)) (txt "更新备用码失败");
    mret backupCodes.
End handlers.

(** ** Backup codes *)

Lemma generateRandomCode_length n draws code rest :
  generateRandomCode n draws = Some (code, rest) → length code = n.
Proof.
  revert draws code. induction n as [|n IH]; intros draws code; cbn [generateRandomCode].
  - by intros [= <- _].
  - destruct draws as [|[num|] draws]; [done| |done].
    destruct (charset_letter num) as [c|]; [|done].
    destruct (generateRandomCode n draws) as [[code' rest']|] eqn:E; [|done].
    intros [= <- <-]. simpl. f_equal. by eapply IH.
Qed.

Lemma generate_codes_ok n draws codes rest :
  generate_codes n draws = Some (codes, rest) →
  length codes = n ∧ Forall (λ c, length c = 8%nat) codes.
Proof.
  revert draws codes. induction n as [|n IH]; intros draws codes; cbn [generate_codes].
  - intros [= <- _]. by split.
  - destruct (generateRandomCode 8 draws) as [[code rest']|] eqn:E; [|done].
    destruct (generate_codes n rest') as [[codes' rest'']|] eqn:Es; [|done].
    intros [= <- <-]. destruct (IH _ _ Es) as [Hl HF]. split; [simpl; by f_equal|].
    constructor; [|done]. by eapply generateRandomCode_length.
Qed.

(** Ten codes of eight letters. *)
Definition codes_ok (codes : list text) : Prop :=
  length codes = 10%nat ∧ Forall (λ c, length c = 8%nat) codes.

Lemma GenerateBackupCodes_length n draws codes :
  GenerateBackupCodes n draws = Some codes → length codes = n ∧ Forall (λ c, length c = 8%nat) codes.
Proof.
  unfold GenerateBackupCodes. destruct (generate_codes n draws) as [[l rest]|] eqn:E; [|done].
  intros [= <-]. by eapply generate_codes_ok.
Qed.

Lemma GenerateBackupCodes_ok draws codes : GenerateBackupCodes 10 draws = Some codes → codes_ok codes.
Proof. apply GenerateBackupCodes_length. Qed.

(** ** The enrolment of a user *)

Section enrolment.
Context `{CryptoLaws}.

(** On with a secret, ten codes and a date, or off with nothing left. *)
Definition enrolled_ok (u : User.t) : Prop :=
  if User.TwoFactorEnabled u
  then User.TwoFactorSecret u ≠ [] ∧ is_Some (User.TwoFactorVerifiedAt u) ∧
       ∃ codes, json_strings (User.TwoFactorBackupCodes u) = Some codes ∧ codes_ok codes
  else User.TwoFactorSecret u = [] ∧ User.TwoFactorVerifiedAt u = None ∧
       User.TwoFactorBackupCodes u = [].

Inductive two_factor_step : Db → Db → Prop :=
  | step_get_config db f r db' f' : GetGlobalConfig db f = (r, db', f') → two_factor_step db db'
  | step_set_config req db f r db' f' :
      UpdateGlobalConfig req db f = (r, db', f') → two_factor_step db db'
  | step_setup id g q u draws db f r db' f' :
      SetupTwoFactor id g q u draws db f = (r, db', f') → two_factor_step db db'
  | step_verify id req draws now db f r db' f' :
      VerifyTwoFactor id req draws now db f = (r, db', f') → two_factor_step db db'
  | step_disable id db f r db' f' : DisableTwoFactor id db f = (r, db', f') → two_factor_step db db'
  | step_reset_user id target db f r db' f' :
      ResetUserTwoFactor id target db f = (r, db', f') → two_factor_step db db'
  | step_verify_code id req now db f r db' f' :
      VerifyCode id req now db f = (r, db', f') → two_factor_step db db'
  | step_regenerate id draws db f r db' f' :
      RegenerateBackupCodes id draws db f = (r, db', f') → two_factor_step db db'.

Record enrolments_ok (db : Db) : Prop := {
  accounts : users_ok db;
  enrolled : Forall enrolled_ok (users db)
}.

Definition keeps_enrolled {E A} (m : Eff E A) (db : Db) : Prop :=
  wp m (λ _ db', enrolments_ok db') db.

Lemma enrolments_ok_users db db' :
  users db' = users db → enrolments_ok db → enrolments_ok db'.
Proof. intros Hu [[????] He]. by split; [split|]; rewrite Hu. Qed.

Lemma save_user_ok u m db :
  enrolments_ok db → user_ok u → enrolled_ok u → keeps_enrolled (save_user u m) db.
Proof.
  intros [Hdb He] Hu Hen. apply wp_or_fail. intros f r db' f' Hr. split.
  - by eapply UpdateUser_ok.
  - revert f r db' f' Hr. apply (wp_execute _ (λ _ db', Forall enrolled_ok (users db'))); [|done].
    intros db' Hs. destruct (existsb _ _) in Hs; [done|].
    destruct (existsb (λ v, text_eqb (User.ID v) (User.ID u)) (users db)) in Hs;
      injection Hs as <-; simpl.
    + apply Forall_fmap. eapply Forall_impl; [exact He|]. intros x Hx. simpl. unfold updated.
      by destruct (text_eqb _ _).
    + apply Forall_app. auto.
Qed.

Lemma wp_known_account id m Q db :
  enrolments_ok db →
  (∀ u, u ∈ users db → user_ok u → enrolled_ok u → User.ID u = id → Q (Ok u) db) →
  (∀ e, Q (Err e) db) → wp (known_account id m) Q db.
Proof.
  intros [Hdb He] HQ Hf. apply wp_or_fail, wp_FindUserByID; [done| |].
  - intros u Hu Ho Hid. simpl. apply HQ; [done..| |done]. by eapply Forall_forall in Hu.
  - intros e. apply Hf.
Qed.

Lemma wp_the_user id Q db :
  enrolments_ok db →
  (∀ u, u ∈ users db → user_ok u → enrolled_ok u → id = Some (User.ID u) → Q (Ok u) db) →
  (∀ e, Q (Err e) db) → wp (the_user id) Q db.
Proof.
  intros Hdb HQ He. apply wp_bind. destruct id as [id|]; [|by apply wp_raise].
  apply wp_ret, wp_known_account; [done| |done]. intros u Hu Ho Hen <-. by apply HQ.
Qed.

Lemma wp_fresh_codes draws (Q : result (Z * text) (list text) → Db → Prop) db :
  (∀ codes, GenerateBackupCodes 10 draws = Some codes → Q (Ok codes) db) →
  (∀ e, Q (Err e) db) → wp (fresh_codes draws) Q db.
Proof.
  intros HQ He. unfold fresh_codes. destruct (GenerateBackupCodes _ _) eqn:E;
    [by apply wp_ret, HQ|by apply wp_raise].
Qed.

Lemma wp_or_500 {X A} m (o : result X A) (Q : result (Z * text) A → Db → Prop) db :
  (∀ a, o = Ok a → Q (Ok a) db) → (∀ e, Q (Err e) db) → wp (or_500 m o) Q db.
Proof. intros HQ He. destruct o; [by apply wp_ret, HQ|by apply wp_raise]. Qed.

(** Fresh codes, stored: the part [VerifyTwoFactor] and
    [RegenerateBackupCodes] share. *)
Lemma store_codes_ok draws m1 m2 (mk : text → User.t) db :
  enrolments_ok db →
  (∀ codes s, codes_ok codes → json_strings s = Some codes → user_ok (mk s) ∧ enrolled_ok (mk s)) →
  keeps_enrolled (codes ← fresh_codes draws; s ← or_500 m1 (json_marshal codes);
                  _ ← save_user (mk s) m2; mret codes) db.
Proof.
  intros Hdb Hmk. apply wp_bind, wp_fresh_codes; [|done]. intros codes Hc%GenerateBackupCodes_ok.
  apply wp_bind, wp_or_500; [|done]. intros s [_ Hs]%json_round.
  destruct (Hmk _ _ Hc Hs). apply wp_bind. eapply wp_mono; [|by apply save_user_ok].
  intros [[]|e] db' Hdb'; [by apply wp_ret|done].
Qed.

Lemma cleared_ok u : user_ok u → user_ok (cleared u) ∧ enrolled_ok (cleared u).
Proof. intros Hu. split; [by apply set_fields_ok|done]. Qed.

Lemma GetGlobalConfig_ok db : enrolments_ok db → keeps_enrolled GetGlobalConfig db.
Proof.
  intros Hdb. unfold GetGlobalConfig, keeps_enrolled.
  apply wp_attempt_read; [apply preserves_first, _|]. intros [c|]; [by apply wp_ret|].
  apply wp_bind, wp_attempt, wp_statement; [|intros e; by apply wp_ret].
  intros db' c [= <- _]. apply wp_ret. by apply (enrolments_ok_users db).
Qed.

Lemma UpdateGlobalConfig_ok req db : enrolments_ok db → keeps_enrolled (UpdateGlobalConfig req) db.
Proof.
  intros Hdb. destruct req as [[on issuer]|]; [|by apply wp_raise].
  unfold UpdateGlobalConfig, keeps_enrolled.
  apply wp_attempt_read; [apply preserves_first, _|]. intros [c|].
  - apply wp_or_fail, wp_bind, wp_execute; [|done]. intros db' [= <-]. apply wp_ret.
    by apply (enrolments_ok_users db).
  - apply wp_or_fail, wp_statement; [|done]. intros db' c [= <- _]. by apply (enrolments_ok_users db).
Qed.
(** Handlers that only read. *)
Lemma reads_the_user id : reads (the_user id).
Proof. unfold the_user, known_account, authorised. preserves_tac. Qed.

Lemma SetupTwoFactor_reads id g q u draws : reads (SetupTwoFactor id g q u draws).
Proof.
  unfold SetupTwoFactor, or_500, fresh_codes. pose proof reads_the_user. preserves_tac; auto.
Qed.

Lemma VerifyCode_reads id req now : reads (VerifyCode id req now).
Proof. unfold VerifyCode, authorised, known_account. preserves_tac. Qed.

Lemma two_factor_step_ok db db' : two_factor_step db db' → enrolments_ok db → enrolments_ok db'.
Proof.
  intros Hs Hdb. destruct Hs as [db f r db' f' Hr|req db f r db' f' Hr|id g q u draws db f r db' f' Hr
    |id req draws now db f r db' f' Hr|id db f r db' f' Hr|id target db f r db' f' Hr
    |id req now db f r db' f' Hr|id draws db f r db' f' Hr];
    try (by rewrite (reads_run _ _ _ _ _ _ (SetupTwoFactor_reads _ _ _ _ _) Hr));
    try (by rewrite (reads_run _ _ _ _ _ _ (VerifyCode_reads _ _ _) Hr));
    revert f r db' f' Hr;
    change (∀ f r db' f', ?m db f = (r, db', f') → enrolments_ok db') with (keeps_enrolled m db).
  - by apply GetGlobalConfig_ok.
  - by apply UpdateGlobalConfig_ok.
  - apply wp_bind. destruct id as [id|]; [|by apply wp_raise]. apply wp_ret, wp_bind.
    destruct req as [req|]; [|by apply wp_raise]. unfold bound_setup.
    destruct (is_empty (TwoFactorSetupRequest.Secret req) || _) eqn:Eb; [by apply wp_raise|].
    apply orb_false_elim in Eb as [Esec _].
    apply wp_ret, wp_bind, wp_known_account; [done| |done]. intros u Hu Ho Hen _.
    destruct (totp_Validate _ _ _); cbn [negb]; [|by apply wp_raise].
    apply store_codes_ok; [done|]. intros codes s Hc Hj.
    split; [by apply set_fields_ok|]. split; simpl; [by destruct (TwoFactorSetupRequest.Secret req)|].
    split; [done|]. by exists codes.
  - apply wp_bind, wp_the_user; [done| |done]. intros u Hu Ho Hen _.
    destruct (text_eqb _ _); cbn [negb]; [|by apply wp_raise].
    destruct (cleared_ok u Ho). by apply save_user_ok.
  - apply wp_bind, wp_the_user; [done| |done]. intros u Hu Ho Hen _.
    destruct (text_eqb _ _); cbn [negb]; [|by apply wp_raise].
    destruct (is_empty target); [by apply wp_raise|].
    apply wp_bind, wp_known_account; [done| |done]. intros v Hv Hov Henv _.
    destruct (cleared_ok v Hov). by apply save_user_ok.
  - apply wp_bind, wp_the_user; [done| |done]. intros u Hu Ho Hen _.
    destruct (User.TwoFactorEnabled u) eqn:Ee; cbn [negb]; [|by apply wp_raise].
    apply store_codes_ok; [done|]. intros codes s Hc Hj. split; [by apply set_fields_ok|].
    unfold enrolled_ok in *. rewrite Ee in Hen. destruct Hen as (Hs & Hv & _). simpl. eauto.
Qed.

(** C31: Whatever two-factor requests arrive, in whatever order and whichever
    statements fail, the accounts stay well formed and every user's second factor
    is either on, with a secret, a date and ten readable backup codes of eight
    letters, or off, with nothing of the old enrolment left. *)
Theorem two_factor_consistent db db' :
  rtc two_factor_step db db' → enrolments_ok db → enrolments_ok db'.
Proof. induction 1 as [|db1 db2 db3 Hs _ IH]; [done|]. intros Hdb. by eapply IH, two_factor_step_ok. Qed.

(** *** Enrolling *)

Lemma saved_row u v db f db' f' :
  users_ok db → u ∈ users db → User.ID v = User.ID u →
  UpdateUser v db f = (Ok (), db', f') → v ∈ users db'.
Proof.
  intros Hdb Hu Hid Hr%execute_Ok. destruct (existsb _ _) in Hr; [done|].
  rewrite (proj2 (existsb_elem (λ w, text_eqb (User.ID w) (User.ID v)) (users db))) in Hr.
  - injection Hr as <-. apply list_elem_of_fmap. exists u. split; [|done]. unfold updated.
    by rewrite Hid, text_eqb_refl.
  - exists u. by rewrite Hid, text_eqb_refl.
Qed.

Lemma FindUserByID_run id db f u db' f' :
  FindUserByID id db f = (Ok u, db', f') → u ∈ users db ∧ User.ID u = id ∧ db' = db.
Proof. by intros (? & ?%text_eqb_true & ?)%first_keep_Ok. Qed.

(** Enrolling works: after a successful answer the user's row has the secret
    that was confirmed, and each of the ten codes of the answer passes the check
    of a login as a backup code, at any time. *)
Theorem enrolment_roundtrip id req draws now db f codes db' f' :
  users_ok db → VerifyTwoFactor (Some id) (Some req) draws now db f = (Ok codes, db', f') →
  ∃ u, u ∈ users db' ∧ User.ID u = id ∧ User.TwoFactorEnabled u = true ∧
    User.TwoFactorSecret u = TwoFactorSetupRequest.Secret req ∧ codes_ok codes ∧
    ∀ c t, c ∈ codes → validateTwoFactorCode u [] c t = true.
Proof.
  intros Hdb H1. unfold VerifyTwoFactor in H1. cbn [authorised] in H1. apply bind_Ok in H1 as (? & ? & ? & [= <- <- <-] & H1).
  apply bind_Ok in H1 as (r & db1 & f1 & Hb & H1).
  unfold bound_setup in Hb. destruct (_ || _) eqn:Eb in Hb; [done|]. injection Hb as <- <- <-.
  apply bind_Ok in H1 as (u & db2 & f2 & Hu & H1). apply or_fail_Ok, FindUserByID_run in Hu as (Hu & <- & ->).
  destruct (totp_Validate _ _ _); [|done]. cbn [negb] in H1.
  apply bind_Ok in H1 as (codes' & db3 & f3 & Hc & H1). unfold fresh_codes in Hc.
  destruct (GenerateBackupCodes _ _) as [l|] eqn:Eg; [|done]. injection Hc as <- <- <-.
  apply bind_Ok in H1 as (str & db4 & f4 & Hj & H1). unfold or_500 in Hj.
  destruct (json_marshal l) as [s|] eqn:Ej; [|done]. injection Hj as <- <- <-.
  apply bind_Ok in H1 as ([] & db5 & f5 & Hs & [= <- <- _]).
  apply or_fail_Ok in Hs. apply json_round in Ej as [Hne Ej].
  apply GenerateBackupCodes_ok in Eg as Hok.
  eexists. split; [eapply saved_row; [exact Hdb|exact Hu| |exact Hs]; done|]. split_and!; try done.
  intros c t Hcl. unfold validateTwoFactorCode. cbn [is_empty negb andb orb User.TwoFactorBackupCodes
    User.set_two_factor]. rewrite Ej.
  assert (is_empty c = false ∧ is_empty s = false) as [-> ->].
  { destruct Hok as [_ HF]. eapply Forall_forall in HF; [|exact Hcl]. split; [by destruct c|by destruct s]. }
  cbn [negb andb]. apply existsb_elem. exists c. by rewrite text_eqb_refl.
Qed.

Lemma the_user_run u db :
  users_ok db → u ∈ users db → the_user (Some (User.ID u)) db [] = (Ok u, db, []).
Proof.
  intros Hdb Hu. unfold the_user, known_account, or_fail. rewrite bind_run. simpl.
  unfold FindUserByID, first, query. by rewrite (keep_key User.ID _ _ u (ids_distinct _ Hdb) Hu eq_refl).
Qed.

(** A second factor that is on can be replaced without presenting it: for the
    same user, at the same moment, setting up is refused, and confirming any
    secret of the caller's choice with a code of that secret succeeds and makes
    it the user's. *)
Theorem second_factor_replaced u req g q url draws now db codes s :
  users_ok db → u ∈ users db → User.TwoFactorEnabled u = true →
  TwoFactorSetupRequest.Secret req ≠ [] → TwoFactorSetupRequest.Code req ≠ [] →
  totp_Validate (TwoFactorSetupRequest.Code req) (TwoFactorSetupRequest.Secret req) now = true →
  GenerateBackupCodes 10 draws = Some codes → json_marshal codes = Ok s →
  res (SetupTwoFactor (Some (User.ID u)) g q url draws db []) = Err (400, txt "2FA已启用") ∧
  ∃ db', VerifyTwoFactor (Some (User.ID u)) (Some req) draws now db [] = (Ok codes, db', []) ∧
    User.set_two_factor u true (TwoFactorSetupRequest.Secret req) s (Some now) ∈ users db'.
Proof.
  intros Hdb Hu Hon Hsec Hcode Hv Hg Hj. split.
  - unfold SetupTwoFactor, res. rewrite bind_run, the_user_run by done. by rewrite Hon.
  - set (v := User.set_two_factor _ _ _ _ _).
    destruct (UpdateUser_run u v db) as [db' E]; [done..| |].
    { intros w Hw Hid Heq. destruct Hid. f_equal. by apply (emails_distinct _ Hdb). }
    exists db'. split; [|by eapply saved_row].
    assert (bound_setup (Some req) db [] = (Ok req, db, [])) as Hb.
    { unfold bound_setup. by destruct (TwoFactorSetupRequest.Secret req), (TwoFactorSetupRequest.Code req). }
    assert (known_account (User.ID u) (txt "用户不存在") db [] = (Ok u, db, [])) as Hk
      by exact (the_user_run u db Hdb Hu).
    unfold VerifyTwoFactor. rewrite bind_run. cbn [authorised mret db_ret].
    rewrite bind_run, Hb, bind_run, Hk, Hv. cbn [negb].
    rewrite bind_run. unfold fresh_codes. rewrite Hg. cbn [mret db_ret].
    rewrite bind_run, Hj. cbn [or_500 mret db_ret]. rewrite bind_run.
    unfold save_user, or_fail. fold v. by rewrite E.
Qed.
End enrolment.

(** ** Concrete enrolments *)

Definition zeros : list (option Z) := replicate 80 (Some 0).
Definition my_secret : TwoFactorSetupRequest.t :=
  {| TwoFactorSetupRequest.Secret := txt "mine"; TwoFactorSetupRequest.Code := txt "mine" |}.
Definition ten_codes : list text := replicate 10 (txt "AAAAAAAA").

Definition bob_enrols (db : Db) :=
  VerifyTwoFactor (Some (txt "u1")) (Some my_secret) zeros 7 db [].

Example bob_enrols_twice :
  User.TwoFactorSecret <$> users (after (bob_enrols (after (bob_enrols bob_db)))) = [txt "mine"].
Proof. vm_compute. reflexivity. Qed.

Lemma bob_db_enrolments : enrolments_ok bob_db.
Proof. split; [exact bob_db_ok|]. by constructor. Qed.

Lemma two_factor_consistent_witness :
  User.TwoFactorEnabled <$> users (after (bob_enrols bob_db)) = [true] ∧
  enrolments_ok (after (bob_enrols bob_db)).
Proof.
  split; [vm_compute; reflexivity|].
  apply (two_factor_consistent bob_db); [|exact bob_db_enrolments].
  eapply rtc_l, rtc_refl.
  apply (step_verify (Some (txt "u1")) (Some my_secret) zeros 7 bob_db [] (Ok ten_codes) _ []).
  vm_compute. reflexivity.
Defined.

Lemma enrolment_roundtrip_witness :
  users_ok bob_db ∧ ∃ u, u ∈ users (after (bob_enrols bob_db)) ∧
    User.TwoFactorSecret u = txt "mine" ∧ validateTwoFactorCode u [] (txt "AAAAAAAA") 100 = true.
Proof.
  split; [exact bob_db_ok|].
  destruct (enrolment_roundtrip (txt "u1") my_secret zeros 7 bob_db [] ten_codes
    (after (bob_enrols bob_db)) [] bob_db_ok) as (u & Hu & _ & _ & Hs & _ & Hc);
    [vm_compute; reflexivity|].
  exists u. split; [exact Hu|]. split; [exact Hs|]. apply Hc. left.
Defined.

Lemma second_factor_replaced_witness :
  User.TwoFactorSecret bob2 = txt "123456" ∧
  ∃ db' s, User.set_two_factor bob2 true (txt "mine") s (Some 7) ∈ users db' ∧
    bob_enrols bob2_db = (Ok ten_codes, db', []).
Proof.
  split; [reflexivity|].
  destruct (second_factor_replaced bob2 my_secret (λ _, Ok []) (λ _ _, Ok []) (λ _ _, Ok []) zeros 7
    bob2_db ten_codes [0; Z.pos (countable.encode ten_codes)] bob2_db_ok) as (_ & db' & H1 & H2);
    [left|reflexivity|discriminate|discriminate|reflexivity|vm_compute; reflexivity|reflexivity|].
  exists db', [0; Z.pos (countable.encode ten_codes)]. split; [exact H2|exact H1].
Defined.
