(* ===== verification/Expiration.v ===== *)
(** * Expiry of accounts and rules

    [internal/service/expiration_service.go]: the hourly check that warns about
    and disables accounts and permission rules, and the renewals.  The
    notifications are log lines.  [AddDate(0, 0, n)] adds [n] days of 24 hours:
    the clock is read in a zone without summer time. *)

From stdpp Require Import base list strings pretty.
From Stdlib Require Import ZArith Lia.
From S2P Require Import Prelude GoStrings Gorm Models Database Repositories Permissions Accounts.
Local Open Scope Z_scope.

(** ** The queries *)

(** [First(&config)] of a type; any error gives the default. *)
Definition config_for (type_ : text) (days : Z) : Eff text ExpirationConfig.t :=
  c ← attempt (first (λ db, keep (λ c, text_eqb (ExpirationConfig.Type_ c) type_)
                                 (expiration_configs (aux db))));
  mret (default {| ExpirationConfig.Type_ := []; ExpirationConfig.WarningDays := days;
                   ExpirationConfig.Enabled := true |} c).

Definition auto_disable_setting (key : text) : Eff text bool :=
  s ← attempt (first (λ db, keep (λ s, text_eqb (Setting.Key s) key) (settings db)));
  mret (match s with Some s => text_eqb (Setting.Value s) (txt "true") | None => true end).

Definition add_days (now days : Z) : Z := now + days * 86400.

(** [date IS NOT NULL AND date <= limit]. *)
Definition by_date (limit : Z) (date : option Z) : bool :=
  match date with Some t => t <=? limit | None => false end.
(** [date > now] as well. *)
Definition after_date (now : Z) (date : option Z) : bool :=
  match date with Some t => now <? t | None => false end.

Definition to_warn (now limit : Z) (u : User.t) : bool :=
  by_date limit (User.ExpiresAt u) && after_date now (User.ExpiresAt u) &&
  negb (User.ExpirationWarningSent u) && text_eqb (User.Status u) active.

Definition is_expired (now : Z) (u : User.t) : bool :=
  by_date now (User.ExpiresAt u) && text_eqb (User.Status u) active.

Definition rule_to_warn (now limit : Z) (r : PermissionRule.t) : bool :=
  by_date limit (PermissionRule.ValidTo r) && after_date now (PermissionRule.ValidTo r) &&
  PermissionRule.Enabled r.

Definition rule_expired (now : Z) (r : PermissionRule.t) : bool :=
  by_date now (PermissionRule.ValidTo r) && PermissionRule.Enabled r.

(** ** The logs *)

Definition user_entry (action reason : text) (u : User.t) : ExpirationLog.t :=
  {| ExpirationLog.Subject := User.ID u; ExpirationLog.Name := User.Username u;
     ExpirationLog.GroupID := []; ExpirationLog.GroupName := [];
     ExpirationLog.Action := action; ExpirationLog.ExpiresAt := User.ExpiresAt u;
     ExpirationLog.NewExpiresAt := None; ExpirationLog.Reason := reason;
     ExpirationLog.PerformedBy := [] |}.

Definition rule_entry (action reason groupName : text) (r : PermissionRule.t) : ExpirationLog.t :=
  {| ExpirationLog.Subject := PermissionRule.ID r; ExpirationLog.Name := PermissionRule.Name r;
     ExpirationLog.GroupID := PermissionRule.UserGroupID r; ExpirationLog.GroupName := groupName;
     ExpirationLog.Action := action; ExpirationLog.ExpiresAt := PermissionRule.ValidTo r;
     ExpirationLog.NewExpiresAt := None; ExpirationLog.Reason := reason;
     ExpirationLog.PerformedBy := [] |}.

Definition log_user (e : ExpirationLog.t) : DB unit := execute (λ db,
  Ok (set_user_logs db (user_expiration_logs (aux db) ++ [e]))).
Definition log_rule (e : ExpirationLog.t) : DB unit := execute (λ db,
  Ok (set_rule_logs db (rule_expiration_logs (aux db) ++ [e]))).

(** [UPDATE permission_rules SET .. WHERE id = ..]. *)
Definition update_rule_row (id : text) (f : PermissionRule.t → PermissionRule.t) : DB unit :=
  execute (λ db, Ok (set_rules db (updated (λ r, text_eqb (PermissionRule.ID r) id) f
                                     <$> permission_rules db))).

(** ** The check *)

Definition in_days (what : string) (config : ExpirationConfig.t) : text :=
  txt what ++ txt " will expire in " ++ txt (pretty (ExpirationConfig.WarningDays config)) ++ txt " days".

(** The statements of the loops: their errors are not looked at. *)
Definition warn_user (config : ExpirationConfig.t) (u : User.t) : Eff text unit :=
  _ ← attempt (update_user (User.ID u) (λ v, User.set_expiry v (User.ExpiresAt v) true));
  _ ← attempt (log_user (user_entry (txt "warning_sent") (in_days "Account" config) u));
  mret ().

Definition expire_user (autoDisable : bool) (u : User.t) : Eff text unit :=
  if autoDisable && User.AutoDisableOnExpiry u then
    _ ← attempt (update_user (User.ID u) (λ v, User.set_status v inactive));
    _ ← attempt (log_user (user_entry (txt "disabled") (txt "Account expired and auto-disabled") u));
    mret ()
  else
    _ ← attempt (log_user (user_entry (txt "expired") (txt "Account expired (not auto-disabled)") u));
    mret ().

Definition checkUserExpiration (now : Z) : Eff text unit :=
  config ← config_for (txt "user") 7;
  if negb (ExpirationConfig.Enabled config) then mret ()
  else
    let warningTime := add_days now (ExpirationConfig.WarningDays config) in
    usersToWarn ← or_fail (λ _, txt "failed to query users to warn: ")
      (find (λ db, keep (to_warn now warningTime) (users db)));
    _ ← for_each (warn_user config) usersToWarn;
    expiredUsers ← or_fail (λ _, txt "failed to query expired users: ")
      (find (λ db, keep (is_expired now) (users db)));
    autoDisable ← auto_disable_setting (txt "user_expiration_auto_disable");
    for_each (expire_user autoDisable) expiredUsers.

(** The name of the rule's group; the zero value when the query fails. *)
Definition group_name (r : PermissionRule.t) : Eff text text :=
  g ← attempt (first (λ db, keep (λ g, text_eqb (UserGroup.ID g) (PermissionRule.UserGroupID r))
                                 (user_groups db)));
  mret (match g with Some g => UserGroup.Name g | None => [] end).

Definition warn_rule (config : ExpirationConfig.t) (r : PermissionRule.t) : Eff text unit :=
  g ← group_name r;
  _ ← attempt (log_rule (rule_entry (txt "warning_sent") (in_days "Permission" config) g r));
  mret ().

Definition expire_rule (autoDisable : bool) (r : PermissionRule.t) : Eff text unit :=
  g ← group_name r;
  if autoDisable : bool then
    _ ← attempt (update_rule_row (PermissionRule.ID r) (λ q, PermissionRule.set_enabled q false));
    _ ← attempt (log_rule (rule_entry (txt "disabled") (txt "Permission expired and auto-disabled") g r));
    mret ()
  else
    _ ← attempt (log_rule (rule_entry (txt "expired") (txt "Permission expired (not auto-disabled)") g r));
    mret ().

Definition checkPermissionExpiration (now : Z) : Eff text unit :=
  config ← config_for (txt "permission") 3;
  if negb (ExpirationConfig.Enabled config) then mret ()
  else
    let warningTime := add_days now (ExpirationConfig.WarningDays config) in
    rulesToWarn ← or_fail (λ _, txt "failed to query rules to warn: ")
      (find (λ db, keep (rule_to_warn now warningTime) (permission_rules db)));
    _ ← for_each (warn_rule config) rulesToWarn;
    expiredRules ← or_fail (λ _, txt "failed to query expired rules: ")
      (find (λ db, keep (rule_expired now) (permission_rules db)));
    autoDisable ← auto_disable_setting (txt "permission_expiration_auto_disable");
    for_each (expire_rule autoDisable) expiredRules.

(** [performCheck]: the errors are logged. *)
Definition performCheck (now : Z) : Eff text unit :=
  _ ← attempt (checkUserExpiration now);
  _ ← attempt (checkPermissionExpiration now);
  mret ().

(** ** Renewal *)

Section renewal.
Context (err_text : db_error → text).

(** The columns [Updates(updates)] sets. *)
Definition renewed_user (now : Z) (newExpiresAt : option Z) (u v : User.t) : User.t :=
  let v := User.set_expiry v newExpiresAt false in
  if after_date now newExpiresAt && text_eqb (User.Status u) inactive
  then User.set_status v active else v.

Definition RenewUserExpiration (userID : text) (newExpiresAt : option Z) (reason performedBy : text)
    (now : Z) : Eff text unit :=
  user ← or_fail (λ e, txt "user not found: " ++ err_text e) (FindUserByID userID);
  _ ← or_fail (λ e, txt "failed to renew user: " ++ err_text e)
        (update_user (User.ID user) (renewed_user now newExpiresAt user));
  _ ← attempt (log_user
        {| ExpirationLog.Subject := User.ID user; ExpirationLog.Name := User.Username user;
           ExpirationLog.GroupID := []; ExpirationLog.GroupName := [];
           ExpirationLog.Action := txt "renewed"; ExpirationLog.ExpiresAt := User.ExpiresAt user;
           ExpirationLog.NewExpiresAt := newExpiresAt; ExpirationLog.Reason := reason;
           ExpirationLog.PerformedBy := performedBy |});
  mret ().

Definition renewed_rule (now : Z) (newValidTo : option Z) (r q : PermissionRule.t) : PermissionRule.t :=
  let q := PermissionRule.set_valid_to q newValidTo in
  if after_date now newValidTo && negb (PermissionRule.Enabled r)
  then PermissionRule.set_enabled q true else q.

Definition RenewPermissionExpiration (ruleID : text) (newValidTo : option Z) (reason performedBy : text)
    (now : Z) : Eff text unit :=
  rule ← or_fail (λ e, txt "permission rule not found: " ++ err_text e)
    (first (λ db, keep (λ r, text_eqb (PermissionRule.ID r) ruleID) (permission_rules db)));
  _ ← or_fail (λ e, txt "failed to renew permission rule: " ++ err_text e)
        (update_rule_row (PermissionRule.ID rule) (renewed_rule now newValidTo rule));
  g ← group_name rule;
  _ ← attempt (log_rule
        {| ExpirationLog.Subject := PermissionRule.ID rule; ExpirationLog.Name := PermissionRule.Name rule;
           ExpirationLog.GroupID := PermissionRule.UserGroupID rule; ExpirationLog.GroupName := g;
           ExpirationLog.Action := txt "renewed"; ExpirationLog.ExpiresAt := PermissionRule.ValidTo rule;
           ExpirationLog.NewExpiresAt := newValidTo; ExpirationLog.Reason := reason;
           ExpirationLog.PerformedBy := performedBy |});
  mret ().
End renewal.

(** ** The service *)

(** [stopClosed] says that [stopChan] is closed; [checkInterval] is in
    nanoseconds. *)
Record ExpirationService := { isRunning : bool; stopClosed : bool; checkInterval : Z }.

Definition NewExpirationService : ExpirationService :=
  {| isRunning := false; stopClosed := false; checkInterval := 3600 * 1000000000 |}.

Definition Start (ParseDuration : text → option Z) (s : ExpirationService)
    : Eff text ExpirationService :=
  if isRunning s then raise (txt "expiration service is already running")
  else
    setting ← attempt (first (λ db, keep (λ s, text_eqb (Setting.Key s)
                                            (txt "expiration_check_interval")) (settings db)));
    let interval := setting ≫= λ st, ParseDuration (Setting.Value st ++ txt "s") in
    mret {| isRunning := true; stopClosed := stopClosed s;
            checkInterval := default (checkInterval s) interval |}.

Definition Stop (s : ExpirationService) : ExpirationService :=
  if negb (isRunning s) then s
  else {| isRunning := false; stopClosed := true; checkInterval := checkInterval s |}.

(** [runPeriodicCheck]: a check at once and one per tick served before the loop
    ends; a ticker needs a positive interval. *)
Definition runPeriodicCheck (s : ExpirationService) (start : Z) (ticks : list Z)
    : outcome (Eff text unit) :=
  if checkInterval s <=? 0 then Panic
  else Ret (for_each performCheck (start :: ticks)).

(** ** What a check does when nothing fails *)

(** The row of each element of [l] changed by [g]. *)
Definition touch {Row} (key : Row → text) (g : Row → Row → Row) (l us : list Row) : list Row :=
  foldl (λ us u, updated (λ v, text_eqb (key v) (key u)) (g u) <$> us) us l.

Definition touch_row {Row} (key : Row → text) (g : Row → Row → Row) (l : list Row) (v : Row) : Row :=
  foldl (λ v u, updated (λ v, text_eqb (key v) (key u)) (g u) v) v l.

Section touch.
Context {Row : Type} (key : Row → text) (g : Row → Row → Row).
Hypothesis Hkey : ∀ u v, key (g u v) = key v.

Lemma touch_fmap l us : touch key g l us = touch_row key g l <$> us.
Proof.
  revert us. induction l as [|u l IH]; intros us; simpl; [by rewrite list_fmap_id|].
  unfold touch in *. simpl. rewrite IH, <- list_fmap_compose. done.
Qed.

Lemma touch_row_other l v : key v ∉ key <$> l → touch_row key g l v = v.
Proof.
  induction l as [|u l IH]; simpl; [done|]. intros [Hu Hl]%not_elem_of_cons.
  unfold touch_row. simpl. unfold updated at 2. destruct (text_eqb (key v) (key u)) eqn:E.
  - by apply text_eqb_true in E.
  - by apply IH.
Qed.

Lemma touch_row_one l v : NoDup (key <$> l) → v ∈ l → touch_row key g l v = g v v.
Proof.
  induction l as [|u l IH]; intros HN Hv; [by apply not_elem_of_nil in Hv|].
  apply NoDup_cons in HN as [Hu HN]. unfold touch_row. simpl. unfold updated at 2.
  apply elem_of_cons in Hv as [->|Hv].
  - rewrite text_eqb_refl. apply touch_row_other. by rewrite Hkey.
  - destruct (text_eqb (key v) (key u)) eqn:E; [|by apply IH].
    apply text_eqb_true in E. destruct Hu. rewrite <- E. by apply list_elem_of_fmap_2.
Qed.

(** Changing the rows a query found is changing the rows that pass its test. *)
Lemma touch_keep (p : Row → bool) us :
  NoDup (key <$> us) → touch key g (keep p us) us = (λ v, if p v then g v v else v) <$> us.
Proof.
  intros HN. rewrite touch_fmap. apply list_fmap_ext. intros i v Hv%list_elem_of_lookup_2.
  destruct (p v) eqn:Ep.
  - apply touch_row_one; [by apply NoDup_keep|]. by apply elem_of_keep.
  - apply touch_row_other. intros (w & Hw & [Hin Hpw]%elem_of_keep)%list_elem_of_fmap.
    assert (w = v) as ->; [|congruence].
    pose proof (keep_key key _ _ _ HN Hin eq_refl) as H1.
    pose proof (keep_key key _ _ _ HN Hv Hw) as H2. congruence.
Qed.

Lemma touch_keys l us : key <$> touch key g l us = key <$> us.
Proof.
  revert us. induction l as [|u l IH]; intros us; [done|]. unfold touch in *. simpl. rewrite IH.
  rewrite <- list_fmap_compose. apply list_fmap_ext. intros i v _. simpl. unfold updated.
  by destruct (text_eqb _ _).
Qed.
End touch.

(** *** Accounts *)

Definition config_of (db : Db) (type_ : text) (days : Z) : ExpirationConfig.t :=
  default {| ExpirationConfig.Type_ := []; ExpirationConfig.WarningDays := days;
             ExpirationConfig.Enabled := true |}
    (head (keep (λ c, text_eqb (ExpirationConfig.Type_ c) type_) (expiration_configs (aux db)))).

Definition auto_of (db : Db) (key : text) : bool :=
  match head (keep (λ s, text_eqb (Setting.Key s) key) (settings db)) with
  | Some s => text_eqb (Setting.Value s) (txt "true")
  | None => true
  end.

Lemma first_run {A F} (q : Db → list A) db :
  attempt (F := F) (first q) db [] = (Ok (head (q db)), db, []).
Proof. unfold attempt, first, query. simpl. by destruct (q db). Qed.

Lemma config_for_run type_ days db : config_for type_ days db [] = (Ok (config_of db type_ days), db, []).
Proof. unfold config_for. by rewrite bind_run, first_run. Qed.

Lemma auto_disable_run key db : auto_disable_setting key db [] = (Ok (auto_of db key), db, []).
Proof. unfold auto_disable_setting. by rewrite bind_run, first_run. Qed.

(** The tables with other users and more user logs. *)
Definition users_and_logs (db : Db) (us : list User.t) (es : list ExpirationLog.t) : Db :=
  set_user_logs (set_users db us) (user_expiration_logs (aux db) ++ es).

Lemma users_and_logs_id db : users_and_logs db (users db) [] = db.
Proof. unfold users_and_logs. rewrite app_nil_r. by destruct db as [? ? ? ? ? ? ? ? ? ? ? ? []]. Qed.

Lemma users_and_logs_twice db us es us' es' :
  users_and_logs (users_and_logs db us es) us' es' = users_and_logs db us' (es ++ es').
Proof. unfold users_and_logs. simpl. by rewrite app_assoc. Qed.

Definition warned (_ v : User.t) : User.t := User.set_expiry v (User.ExpiresAt v) true.
Definition disabled (auto : bool) (u v : User.t) : User.t :=
  if auto && User.AutoDisableOnExpiry u then User.set_status v inactive else v.

Definition warn_entry (config : ExpirationConfig.t) : User.t → ExpirationLog.t :=
  user_entry (txt "warning_sent") (in_days "Account" config).
Definition expired_entry (auto : bool) (u : User.t) : ExpirationLog.t :=
  if auto && User.AutoDisableOnExpiry u
  then user_entry (txt "disabled") (txt "Account expired and auto-disabled") u
  else user_entry (txt "expired") (txt "Account expired (not auto-disabled)") u.

(** A loop whose body changes the row of its element and logs an entry. *)
Lemma user_loop_run (body : User.t → Eff text unit) g e l db :
  (∀ u db, body u db [] = (Ok (), users_and_logs db
     (updated (λ v, text_eqb (User.ID v) (User.ID u)) (g u) <$> users db) [e u], [])) →
  for_each body l db [] = (Ok (), users_and_logs db (touch User.ID g l (users db)) (e <$> l), []).
Proof.
  intros Hb. revert db. induction l as [|u l IH]; intros db; simpl.
  - by rewrite users_and_logs_id.
  - rewrite bind_run, Hb. rewrite IH, users_and_logs_twice. done.
Qed.

Lemma warn_user_run config u db :
  warn_user config u db [] = (Ok (), users_and_logs db
    (updated (λ v, text_eqb (User.ID v) (User.ID u)) (warned u) <$> users db) [warn_entry config u], []).
Proof. done. Qed.

Lemma updated_same {A} (p : A → bool) (l : list A) : updated p (λ v, v) <$> l = l.
Proof.
  rewrite <- (list_fmap_id l) at 2. apply list_fmap_ext. intros i x _. unfold updated.
  by destruct (p x).
Qed.

Lemma expire_user_run auto u db :
  expire_user auto u db [] = (Ok (), users_and_logs db
    (updated (λ v, text_eqb (User.ID v) (User.ID u)) (disabled auto u) <$> users db)
    [expired_entry auto u], []).
Proof.
  unfold expire_user, disabled, expired_entry. destruct (auto && _); [done|].
  rewrite updated_same. unfold users_and_logs. by destruct db.
Qed.

(** What a check makes of a user: the warning is noted, the expired is disabled. *)
Definition checked_user (now limit : Z) (auto : bool) (v : User.t) : User.t :=
  if to_warn now limit v then warned v v
  else if is_expired now v then disabled auto v v else v.

(** The check of the accounts, when no statement fails. *)
Lemma user_check_run now db :
  NoDup (User.ID <$> users db) →
  ExpirationConfig.Enabled (config_of db (txt "user") 7) = true →
  let config := config_of db (txt "user") 7 in
  let limit := add_days now (ExpirationConfig.WarningDays config) in
  let auto := auto_of db (txt "user_expiration_auto_disable") in
  let marked := (λ v, if to_warn now limit v then warned v v else v) <$> users db in
  checkUserExpiration now db [] =
    (Ok (), users_and_logs db (checked_user now limit auto <$> users db)
       ((warn_entry config <$> keep (to_warn now limit) (users db)) ++
        (expired_entry auto <$> keep (is_expired now) marked)), []).
Proof.
  intros HN Hen config limit auto marked. unfold checkUserExpiration.
  rewrite bind_run, config_for_run, Hen. cbn [negb]. fold config. fold limit.
  rewrite bind_run. cbn [or_fail find query list.tail map_err].
  rewrite bind_run, (user_loop_run _ warned (warn_entry config)) by (intros; apply warn_user_run).
  rewrite (touch_keep User.ID warned) by done. fold marked.
  rewrite bind_run. cbn [or_fail find query list.tail map_err].
  rewrite bind_run, auto_disable_run.
  rewrite (user_loop_run _ (disabled auto) (expired_entry auto)) by (intros; apply expire_user_run).
  rewrite users_and_logs_twice. cbn [users users_and_logs set_user_logs set_aux set_users].
  rewrite (touch_keep User.ID (disabled auto)).
  - assert ((λ v, if is_expired now v then disabled auto v v else v) <$> marked =
            checked_user now limit auto <$> users db) as ->; [|done].
    unfold marked. rewrite <- list_fmap_compose. apply list_fmap_ext.
    intros i v _. unfold checked_user. simpl. destruct (to_warn now limit v) eqn:Ew; [|done].
    assert (is_expired now (warned v v) = false) as ->; [|done].
    unfold to_warn, is_expired, by_date, after_date in *. simpl.
    destruct (User.ExpiresAt v); [|done]. prop_bools. apply andb_false_iff. left. lia.
  - intros u v. unfold disabled. by destruct (_ && _).
  - unfold marked. rewrite <- list_fmap_compose. erewrite list_fmap_ext; [exact HN|].
    intros i v _. simpl. by destruct (to_warn now limit v).
Qed.

Lemma checked_user_idemp now limit auto v :
  checked_user now limit auto (checked_user now limit auto v) = checked_user now limit auto v.
Proof.
  unfold checked_user at 2 3. destruct (to_warn now limit v) eqn:Ew.
  - unfold checked_user.
    assert (to_warn now limit (warned v v) = false) as ->.
    { unfold to_warn. simpl. by rewrite !andb_false_r. }
    assert (is_expired now (warned v v) = false) as ->; [|done].
    unfold to_warn, is_expired, by_date, after_date in *. simpl.
    destruct (User.ExpiresAt v); [|done]. prop_bools. apply andb_false_iff. left. lia.
  - destruct (is_expired now v) eqn:Ee.
    + unfold disabled. destruct (auto && _) eqn:Ea.
      * unfold checked_user, to_warn, is_expired. simpl. by rewrite !andb_false_r.
      * unfold checked_user, disabled. by rewrite Ew, Ee, Ea.
    + unfold checked_user. by rewrite Ew, Ee.
Qed.

Lemma checked_user_ID now limit auto v : User.ID (checked_user now limit auto v) = User.ID v.
Proof. unfold checked_user, disabled. by destruct (to_warn now limit v), (is_expired now v), (auto && User.AutoDisableOnExpiry v). Qed.

(** C27: A check in which nothing fails does exactly what it should: every user
    due for a warning is marked, every expired one that the settings and its own
    flag allow is disabled, nobody else is touched; afterwards no such user is
    active, and a second check finds nothing to change. *)
Theorem user_check_spec now db db' f' r :
  let config := config_of db (txt "user") 7 in
  let limit := add_days now (ExpirationConfig.WarningDays config) in
  let auto := auto_of db (txt "user_expiration_auto_disable") in
  NoDup (User.ID <$> users db) → ExpirationConfig.Enabled config = true →
  checkUserExpiration now db [] = (r, db', f') →
  r = Ok () ∧ users db' = checked_user now limit auto <$> users db ∧
  (∀ v, v ∈ users db' → auto = true → User.AutoDisableOnExpiry v = true →
        is_expired now v = false) ∧
  users (after (checkUserExpiration now db' [])) = users db'.
Proof.
  intros config limit auto HN Hen Hr.
  rewrite (user_check_run now db HN Hen) in Hr. injection Hr as <- <- <-.
  fold config. fold limit. fold auto. split_and!; [done|done| |].
  - cbn [users users_and_logs set_user_logs set_aux set_users].
    intros v (w & -> & Hw)%list_elem_of_fmap Hauto. unfold checked_user, disabled. rewrite Hauto.
    destruct (to_warn now limit w) eqn:Ew.
    + intros _. unfold to_warn, is_expired, by_date, after_date in *. simpl.
      destruct (User.ExpiresAt w); [|done]. prop_bools. apply andb_false_iff. left. lia.
    + destruct (is_expired now w) eqn:Ee; [|done]. cbn [andb].
      destruct (User.AutoDisableOnExpiry w) eqn:Ea; [|by rewrite Ea].
      intros _. unfold is_expired. simpl. by rewrite andb_false_r.
  - set (db1 := users_and_logs _ _ _).
    assert (NoDup (User.ID <$> users db1)) as HN1.
    { unfold db1. cbn [users users_and_logs set_user_logs set_aux set_users].
      rewrite <- list_fmap_compose. erewrite list_fmap_ext; [exact HN|].
      intros i v _. apply checked_user_ID. }
    unfold after. rewrite (user_check_run now db1 HN1 Hen).
    cbn [fst snd users users_and_logs set_user_logs set_aux set_users db1].
    change (config_of db1 (txt "user") 7) with config. fold limit.
    change (auto_of db1 (txt "user_expiration_auto_disable")) with auto.
    unfold db1. cbn [users users_and_logs set_user_logs set_aux set_users].
    rewrite <- list_fmap_compose. apply list_fmap_ext. intros i v _. apply checked_user_idemp.
Qed.

(** *** Whatever fails *)

(** What a check at [now] may do to a user. *)
Definition may_become (now : Z) (v v' : User.t) : Prop :=
  v' = v ∨
  (User.Status v = active ∧ after_date now (User.ExpiresAt v) = true ∧ v' = warned v v) ∨
  (is_expired now v = true ∧ User.AutoDisableOnExpiry v = true ∧ v' = User.set_status v inactive).

(** The rest of the tables a check of the accounts does not write. *)
Definition same_rest (db db' : Db) : Prop :=
  permission_rules db' = permission_rules db ∧ rule_system_users db' = rule_system_users db ∧
  rule_host_groups db' = rule_host_groups db ∧ user_groups db' = user_groups db ∧
  user_group_members db' = user_group_members db ∧ host_group_members db' = host_group_members db.

Lemma may_become_ID now v v' : may_become now v v' → User.ID v' = User.ID v.
Proof. by intros [->|[(_ & _ & ->)|(_ & _ & ->)]]. Qed.

Lemma Forall2_update {A} (R : A → A → Prop) (p : A → bool) f (l k : list A) :
  Forall2 R l k → (∀ x y, x ∈ l → R x y → p y = true → R x (f y)) →
  Forall2 R l (updated p f <$> k).
Proof.
  induction 1 as [|x y l k Hxy _ IH]; intros Hf; [done|]. simpl. constructor.
  - unfold updated. destruct (p y) eqn:Ep; [|done]. apply Hf; [left|done..].
  - apply IH. intros x' y' Hx'. apply Hf. by right.
Qed.

Section faults.
Context (now : Z) (db0 : Db) (HN : NoDup (User.ID <$> users db0)).

Definition check_inv (db : Db) : Prop :=
  Forall2 (may_become now) (users db0) (users db) ∧ same_rest db0 db.

Lemma check_inv_start : check_inv db0.
Proof. split; [|done]. apply Forall_Forall2_diag, Forall_forall. intros v _. by left. Qed.

Lemma same_user x u :
  x ∈ users db0 → u ∈ users db0 → User.ID x = User.ID u → x = u.
Proof.
  intros Hx Hu Hid. pose proof (keep_key User.ID _ _ _ HN Hx Hid) as H1.
  pose proof (keep_key User.ID _ _ _ HN Hu eq_refl) as H2. congruence.
Qed.

(** An update of the row of [u] that takes what it may have become to what it
    may become. *)
Lemma update_inv u f db (Q : result db_error unit → Db → Prop) :
  check_inv db → u ∈ users db0 → (∀ y, may_become now u y → may_become now u (f y)) →
  (∀ r db, check_inv db → Q r db) → wp (update_user (User.ID u) f) Q db.
Proof.
  intros [HF Hrest] Hu Hf HQ. apply wp_execute; [|intros e; by apply HQ].
  intros db' [= <-]. apply HQ. split; [|done]. simpl. apply Forall2_update; [done|].
  intros x y Hx Hxy Hid%text_eqb_true. rewrite (may_become_ID _ _ _ Hxy) in Hid.
  pose proof (same_user x u Hx Hu Hid) as ->. by apply Hf.
Qed.

Lemma log_inv e db (Q : result db_error unit → Db → Prop) :
  check_inv db → (∀ r db, check_inv db → Q r db) → wp (log_user e) Q db.
Proof.
  intros Hdb HQ. apply wp_execute; [|intros e'; by apply HQ]. intros db' [= <-]. apply HQ.
  by destruct Hdb.
Qed.

Lemma warn_inv config limit u db :
  check_inv db → u ∈ keep (to_warn now limit) (users db0) →
  wp (warn_user config u) (λ r db', match r with Ok _ => check_inv db' | Err _ => check_inv db' end) db.
Proof.
  intros Hdb [Hu Hw]%elem_of_keep. unfold to_warn in Hw. prop_bools.
  apply wp_bind, wp_attempt, update_inv; [done..| |].
  - intros y [->|[(? & ? & ->)|(He & _)]]; [right; left| |].
    + split_and!; [by apply text_eqb_true|done|done].
    + right; left. done.
    + exfalso. unfold is_expired, by_date, after_date in *. destruct (User.ExpiresAt u); [|done].
      prop_bools. lia.
  - intros r db1 Hdb1. apply wp_bind, wp_attempt, log_inv; [done|]. intros r' db2 Hdb2.
    destruct r, r'; by apply wp_ret.
Qed.

Lemma expire_inv auto u db :
  check_inv db → u ∈ users db0 → is_expired now u = true →
  wp (expire_user auto u) (λ r db', match r with Ok _ => check_inv db' | Err _ => check_inv db' end) db.
Proof.
  intros Hdb Hu He. unfold expire_user. destruct (auto && _) eqn:Ea.
  - apply andb_true_iff in Ea as [_ Ea]. apply wp_bind, wp_attempt, update_inv; [done..| |].
    + intros y [->|[(_ & Hafter & _)|(_ & _ & ->)]]; [by right; right| |by right; right].
      exfalso. unfold is_expired, by_date, after_date in *. destruct (User.ExpiresAt u); [|done].
      prop_bools. lia.
    + intros r db1 Hdb1. apply wp_bind, wp_attempt, log_inv; [done|]. intros r' db2 Hdb2.
      destruct r, r'; by apply wp_ret.
  - apply wp_bind, wp_attempt, log_inv; [done|]. intros r' db2 Hdb2. destruct r'; by apply wp_ret.
Qed.

(** A row found expired is one of those the check started from. *)
Lemma expired_row u db :
  check_inv db → u ∈ keep (is_expired now) (users db) → u ∈ users db0 ∧ is_expired now u = true.
Proof.
  intros [HF _] [Hu He]%elem_of_keep. split; [|done].
  apply list_elem_of_lookup in Hu as [i Hi]. destruct (Forall2_lookup_r _ _ _ _ _ HF Hi) as (x & Hx & Hxu).
  apply list_elem_of_lookup_2 in Hx. destruct Hxu as [->|[(_ & Ha & ->)|(_ & _ & ->)]]; [done| |].
  - exfalso. unfold is_expired, by_date, after_date in *. simpl in He.
    destruct (User.ExpiresAt x); [|done]. prop_bools. lia.
  - exfalso. unfold is_expired in He. simpl in He. by rewrite andb_false_r in He.
Qed.

Lemma reads_config type_ days : reads (config_for type_ days).
Proof. unfold config_for. preserves_tac. Qed.
Lemma reads_auto key : reads (auto_disable_setting key).
Proof. unfold auto_disable_setting. preserves_tac. Qed.

Lemma wp_reads {E A B} (m : Eff E A) (k : A → Eff E B) Q db :
  reads m → (∀ a, wp (k a) Q db) → (∀ e, Q (Err e) db) → wp (m ≫= k) Q db.
Proof.
  intros Hm Hk He. apply wp_bind. intros f r db' f' Hr.
  rewrite (reads_run _ _ _ _ _ _ Hm Hr). destruct r; [apply Hk|apply He].
Qed.

Lemma user_check_inv : wp (checkUserExpiration now) (λ _ db, check_inv db) db0.
Proof.
  pose proof check_inv_start as H0. unfold checkUserExpiration.
  apply wp_reads; [apply reads_config| |done]. intros config.
  destruct (negb _); [by apply wp_ret|]. apply wp_bind, wp_or_fail, wp_find; [|done]. simpl.
  apply wp_bind, (wp_for_each _ _ check_inv); [done| |].
  - intros u db Hu Hdb. by eapply wp_mono; [|eapply warn_inv].
  - intros db1 H1. apply wp_bind, wp_or_fail, wp_find; [|done]. simpl.
    apply wp_reads; [apply reads_auto| |done]. intros auto.
    apply (wp_for_each _ _ check_inv); [done| |done].
    intros u db Hu Hdb. destruct (expired_row u db1 H1 Hu) as [Hu0 He].
    eapply wp_mono; [|by apply (expire_inv auto)]. intros [[]|e] db' Hr; exact Hr.
Qed.
End faults.

(** Whatever statements fail, a check of the accounts only marks active users
    whose date is still to come as warned and only disables active users whose
    date has passed and who carry the flag; no one is ever enabled, no row is
    lost, and the permissions are not written. *)
Theorem user_check_safe now db f r db' f' :
  NoDup (User.ID <$> users db) → checkUserExpiration now db f = (r, db', f') →
  Forall2 (may_become now) (users db) (users db') ∧ same_rest db db'.
Proof. intros HN Hr. by apply (user_check_inv now db HN f r db' f'). Qed.

(** *** Rules *)

(** What a check at [now] may do to a rule. *)
Definition rule_may_become (now : Z) (r r' : PermissionRule.t) : Prop :=
  r' = r ∨ (rule_expired now r = true ∧ r' = PermissionRule.set_enabled r false).

Lemma rule_may_become_ID now r r' :
  rule_may_become now r r' → PermissionRule.ID r' = PermissionRule.ID r.
Proof. by intros [->|[_ ->]]. Qed.

Section rule_faults.
Context (now : Z) (db0 : Db) (HN : NoDup (PermissionRule.ID <$> permission_rules db0)).

Record rules_inv (db : Db) : Prop := {
  rules_become : Forall2 (rule_may_become now) (permission_rules db0) (permission_rules db);
  same_accounts : rule_system_users db = rule_system_users db0;
  same_rule_groups : rule_host_groups db = rule_host_groups db0;
  same_groups : user_groups db = user_groups db0;
  same_members : user_group_members db = user_group_members db0;
  same_host_members : host_group_members db = host_group_members db0;
  same_system_users : system_users db = system_users db0;
  same_users : users db = users db0
}.

Lemma rules_inv_start : rules_inv db0.
Proof. split; [|done..]. apply Forall_Forall2_diag, Forall_forall. intros r _. by left. Qed.

Lemma log_rule_inv e db (Q : result db_error unit → Db → Prop) :
  rules_inv db → (∀ r db, rules_inv db → Q r db) → wp (log_rule e) Q db.
Proof.
  intros Hdb HQ. apply wp_execute; [|intros e'; by apply HQ]. intros db' [= <-]. apply HQ.
  by destruct Hdb.
Qed.

Lemma disable_rule_inv r db (Q : result db_error unit → Db → Prop) :
  rules_inv db → r ∈ permission_rules db0 → rule_expired now r = true →
  (∀ x db, rules_inv db → Q x db) →
  wp (update_rule_row (PermissionRule.ID r) (λ q, PermissionRule.set_enabled q false)) Q db.
Proof.
  intros [HF ???????] Hr He HQ. apply wp_execute; [|intros e; by apply HQ].
  intros db' [= <-]. apply HQ. split; [|done..]. simpl. apply Forall2_update; [done|].
  intros x y Hx Hxy Hid%text_eqb_true. rewrite (rule_may_become_ID _ _ _ Hxy) in Hid.
  pose proof (keep_key PermissionRule.ID _ _ _ HN Hx Hid) as H1.
  pose proof (keep_key PermissionRule.ID _ _ _ HN Hr eq_refl) as H2.
  assert (x = r) as -> by congruence. right. split; [done|]. by destruct Hxy as [->|[_ ->]].
Qed.

Lemma reads_group_name r : reads (group_name r).
Proof. unfold group_name. preserves_tac. Qed.

Lemma wp_logged e db (Q : result text unit → Db → Prop) :
  rules_inv db → (∀ x db, rules_inv db → Q x db) →
  wp (_ ← attempt (log_rule e); mret ()) Q db.
Proof.
  intros Hdb HQ. apply wp_bind, wp_attempt, log_rule_inv; [done|]. intros x db' Hdb'.
  destruct x; by apply wp_ret, HQ.
Qed.

Lemma warn_rule_inv config r db :
  rules_inv db →
  wp (warn_rule config r) (λ x db', match x with Ok _ => rules_inv db' | Err _ => rules_inv db' end) db.
Proof.
  intros Hdb. apply wp_reads; [apply reads_group_name| |done]. intros g.
  apply wp_logged; [done|]. by intros [].
Qed.

Lemma expire_rule_inv auto r db :
  rules_inv db → r ∈ permission_rules db0 → rule_expired now r = true →
  wp (expire_rule auto r) (λ x db', match x with Ok _ => rules_inv db' | Err _ => rules_inv db' end) db.
Proof.
  intros Hdb Hr He. apply wp_reads; [apply reads_group_name| |done]. intros g.
  destruct auto; [|apply wp_logged; [done|by intros []]].
  apply wp_bind, wp_attempt, disable_rule_inv; [done..|]. intros x db1 H1.
  destruct x; (apply wp_logged; [done|by intros []]).
Qed.

Lemma expired_rule_row r db :
  rules_inv db → r ∈ keep (rule_expired now) (permission_rules db) →
  r ∈ permission_rules db0 ∧ rule_expired now r = true.
Proof.
  intros [HF ???????] [Hr He]%elem_of_keep. split; [|done].
  apply list_elem_of_lookup in Hr as [i Hi]. destruct (Forall2_lookup_r _ _ _ _ _ HF Hi) as (x & Hx & Hxr).
  apply list_elem_of_lookup_2 in Hx. destruct Hxr as [->|[_ ->]]; [done|].
  exfalso. unfold rule_expired in He. simpl in He. by rewrite andb_false_r in He.
Qed.

Lemma rule_check_inv : wp (checkPermissionExpiration now) (λ _ db, rules_inv db) db0.
Proof.
  pose proof rules_inv_start as H0. unfold checkPermissionExpiration.
  apply wp_reads; [apply reads_config| |done]. intros config.
  destruct (negb _); [by apply wp_ret|]. apply wp_bind, wp_or_fail, wp_find; [|done]. simpl.
  apply wp_bind, (wp_for_each _ _ rules_inv); [done| |].
  - intros r db _ Hdb. by eapply wp_mono; [|apply warn_rule_inv].
  - intros db1 H1. apply wp_bind, wp_or_fail, wp_find; [|done]. simpl.
    apply wp_reads; [apply reads_auto| |done]. intros auto.
    apply (wp_for_each _ _ rules_inv); [done| |done].
    intros r db Hr Hdb. destruct (expired_rule_row r db1 H1 Hr) as [Hr0 He].
    eapply wp_mono; [|by apply (expire_rule_inv auto)]. intros [[]|e] db' Hx; exact Hx.
Qed.
End rule_faults.

Lemma existsb_Forall2 {A} (R : A → A → Prop) (p q : A → bool) l k :
  Forall2 R l k → (∀ x y, R x y → p x = q y) → existsb p l = existsb q k.
Proof. intros HR Hpq. induction HR as [|x y l k Hxy _ IH]; simpl; [done|]. by rewrite (Hpq x y), IH. Qed.

(** A rule the check may have disabled no longer applied anyway. *)
Lemma may_become_applies now t db0 db r r' uid :
  now < t → rules_inv now db0 db → rule_may_become now r r' →
  rule_applies db t r' uid = rule_applies db0 t r uid.
Proof.
  intros Ht [_ _ _ Hg Hm _ _ _] Hr. unfold rule_applies, rule_reaches_user, is_member.
  rewrite Hg, Hm. destruct Hr as [->|[He ->]]; [done|]. simpl.
  symmetry. rewrite !andb_false_iff. left. right. unfold in_time, rule_expired, by_date in *.
  destruct (PermissionRule.ValidTo r); [|done]. simpl. prop_bools. apply andb_false_iff. right. lia.
Qed.

(** A check of the rules changes no later decision: whatever fails in it, at
    every later time each user may use the same accounts on the same hosts as if
    it had not run, for the rules it disables had already lapsed. *)
Theorem rule_check_transparent JSON_CONTAINS now db f r db' f' t uid hid sid g :
  NoDup (PermissionRule.ID <$> permission_rules db) → now < t →
  checkPermissionExpiration now db f = (r, db', f') →
  res (CheckUserHasPermission JSON_CONTAINS t uid hid sid db' g) =
    res (CheckUserHasPermission JSON_CONTAINS t uid hid sid db g) ∧
  res (GetAvailableSystemUsersForUser JSON_CONTAINS t uid hid db' g) =
    res (GetAvailableSystemUsersForUser JSON_CONTAINS t uid hid db g).
Proof.
  intros HN Ht Hr. pose proof (rule_check_inv now db HN f r db' f' Hr) as Hinv.
  pose proof Hinv as [HF Ha Hgr _ _ Hhm Hs _].
  assert (∀ sid, existsb (λ r, rule_has_account db' r sid && rule_applies db' t r uid &&
                       rule_covers_host JSON_CONTAINS db' r hid) (permission_rules db') =
                 existsb (λ r, rule_has_account db r sid && rule_applies db t r uid &&
                       rule_covers_host JSON_CONTAINS db r hid) (permission_rules db)) as Heq.
  { intros sid'. symmetry. eapply existsb_Forall2; [exact HF|]. intros x y Hxy.
    rewrite (may_become_applies now t db db' x y uid Ht Hinv Hxy).
    unfold rule_has_account, rule_covers_host, rule_groups_host. rewrite Ha, Hgr, Hhm.
    by destruct Hxy as [->|[_ ->]]. }
  unfold CheckUserHasPermission, GetAvailableSystemUsersForUser, find, query, res. split.
  - destruct g as [|[e|] g]; simpl; [|done|]; by rewrite Heq.
  - assert (keep (λ su, text_eqb (SystemUser.Status su) active &&
      existsb (λ r, rule_has_account db' r (SystemUser.ID su) && rule_applies db' t r uid &&
                    rule_covers_host JSON_CONTAINS db' r hid) (permission_rules db')) (system_users db)
      = keep (λ su, text_eqb (SystemUser.Status su) active &&
      existsb (λ r, rule_has_account db r (SystemUser.ID su) && rule_applies db t r uid &&
                    rule_covers_host JSON_CONTAINS db r hid) (permission_rules db)) (system_users db))
      as Hk by (apply keep_ext; intros su; by rewrite Heq).
    destruct g as [|[e|] g]; simpl; [|done|]; by rewrite Hs, Hk.
Qed.

(** *** Renewals *)

Section renewals.
Context (err_text : db_error → text).

Lemma renew_rows userID d reason by_ now db f db' f' :
  RenewUserExpiration err_text userID d reason by_ now db f = (Ok (), db', f') →
  ∃ u, u ∈ users db ∧ User.ID u = userID ∧
    users db' = updated (λ v, text_eqb (User.ID v) userID) (renewed_user now d u) <$> users db.
Proof.
  unfold RenewUserExpiration. intros (u & db1 & f1 & Hu & H1)%bind_Ok.
  apply or_fail_Ok, first_keep_Ok in Hu as (Hu & Hid%text_eqb_true & ->).
  apply bind_Ok in H1 as ([] & db2 & f2 & Hup & H1).
  apply or_fail_Ok, execute_Ok in Hup. injection Hup as <-.
  apply bind_Ok in H1 as (o & db3 & f3 & Hl & H1). injection H1 as <- _.
  exists u. split_and!; [done..|].
  apply attempt_Ok in Hl as [([] & _ & Hl)|(e & _ & Hl)].
  - apply execute_Ok in Hl. injection Hl as <-. simpl. by rewrite Hid.
  - unfold log_user, execute in Hl. destruct f2 as [|[e2|] f2]; [done| |done].
    injection Hl as _ <- _. simpl. by rewrite Hid.
Qed.

Lemma renewed_user_keeps now d u v :
  User.ID (renewed_user now d u v) = User.ID v ∧ User.ExpiresAt (renewed_user now d u v) = d.
Proof. unfold renewed_user. cbv zeta. by destruct (_ && _). Qed.

(** Renewing an account to a date to come moves its date and makes it active,
    also when it was inactive because an administrator disabled or deleted it;
    and no check before that date, whatever fails in it, disables it again. *)
Theorem renewal_reactivates u d reason by_ now db f db' f' :
  NoDup (User.ID <$> users db) → u ∈ users db → User.Status u = inactive → now < d →
  RenewUserExpiration err_text (User.ID u) (Some d) reason by_ now db f = (Ok (), db', f') →
  ∃ v, v ∈ users db' ∧ User.ID v = User.ID u ∧ User.ExpiresAt v = Some d ∧
    User.Status v = active ∧
    ∀ t f1 r db1 f1', t < d → checkUserExpiration t db' f1 = (r, db1, f1') →
      ∃ w, w ∈ users db1 ∧ User.ID w = User.ID u ∧ User.Status w = active.
Proof.
  intros HN Hu Hs Hlt (x & Hx & Hid & Hus)%renew_rows.
  assert (x = u) as ->.
  { pose proof (keep_key User.ID _ _ _ HN Hx Hid) as H1.
    pose proof (keep_key User.ID _ _ _ HN Hu eq_refl) as H2. congruence. }
  destruct (renewed_user_keeps now (Some d) u u) as [Hvid Hvd].
  assert (User.Status (renewed_user now (Some d) u u) = active) as Hva.
  { unfold renewed_user, after_date. rewrite Hs, (proj2 (Z.ltb_lt _ _) Hlt), text_eqb_refl. done. }
  exists (renewed_user now (Some d) u u).
  assert (renewed_user now (Some d) u u ∈ users db') as Hv.
  { rewrite Hus. apply list_elem_of_fmap. exists u. split; [|done]. unfold updated.
    by rewrite text_eqb_refl. }
  split_and!; [done..|]. intros t f1 r db1 f1' Ht Hc.
  destruct (user_check_safe t db' f1 r db1 f1') as [HF _]; [|done|].
  { rewrite Hus, ids_updated; [done|]. intros y _. apply renewed_user_keeps. }
  apply list_elem_of_lookup in Hv as [i Hi].
  destruct (Forall2_lookup_l _ _ _ _ _ HF Hi) as (w & Hw & Hvw).
  exists w. split; [by eapply list_elem_of_lookup_2|]. split; [by rewrite (may_become_ID _ _ _ Hvw)|].
  destruct Hvw as [->|[(_ & _ & ->)|(He & _)]]; [done..|].
  exfalso. unfold is_expired, by_date in He. rewrite Hvd in He. prop_bools. lia.
Qed.
End renewals.

(** ** Concrete checks *)

Definition dated (u : User.t) (t : Z) : User.t := User.set_expiry u (Some t) false.
Definition dated_db : Db := set_users empty_db [dated bob 100].

Lemma dated_db_ids : NoDup (User.ID <$> users dated_db).
Proof. apply NoDup_singleton. Qed.

Example warned_then_disabled :
  User.ExpirationWarningSent <$> users (after (performCheck 50 dated_db [])) = [true] ∧
  User.Status <$> users (after (performCheck 100 dated_db [])) = [inactive].
Proof. vm_compute. done. Qed.

(** A failed read of the switch is taken for the default: the check runs. *)
Example unread_switch_runs :
  let off := set_aux dated_db {| platform_logins := []; two_factor_configs := [];
    expiration_configs := [{| ExpirationConfig.Type_ := txt "user"; ExpirationConfig.WarningDays := 7;
                              ExpirationConfig.Enabled := false |}];
    user_expiration_logs := []; rule_expiration_logs := []; login_records := [];
    session_recordings := []; workflow := workflow empty_aux;
    logs := logs empty_aux |} in
  User.Status <$> users (after (performCheck 100 off [])) = [active] ∧
  User.Status <$> users (after (performCheck 100 off [Some DBFailure])) = [inactive].
Proof. vm_compute. done. Qed.

(** An interval of zero panics. *)
Example zero_interval_panics :
  match res (Start (λ _, Some 0) NewExpirationService
    (set_settings empty_db [{| Setting.ID := 1; Setting.Key := txt "expiration_check_interval";
       Setting.Value := txt "0"; Setting.Category := []; Setting.Type_ := [] |}]) []) with
  | Ok s => runPeriodicCheck s 0 []
  | Err _ => Ret (mret ())
  end = Panic.
Proof. vm_compute. reflexivity. Qed.

Lemma user_check_spec_witness :
  is_expired 100 (dated bob 100) = true ∧
  users (after (checkUserExpiration 100 dated_db [])) = [User.set_status (dated bob 100) inactive].
Proof.
  split; [reflexivity|].
  apply (user_check_spec 100 dated_db (after (checkUserExpiration 100 dated_db [])) [] (Ok ()));
    [exact dated_db_ids|reflexivity|vm_compute; reflexivity].
Defined.

Lemma user_check_safe_witness :
  Forall2 (may_become 100) (users dated_db)
    (users (after (checkUserExpiration 100 dated_db [None; None; Some DBFailure]))).
Proof.
  apply (user_check_safe 100 dated_db [None; None; Some DBFailure]
    (res (checkUserExpiration 100 dated_db [None; None; Some DBFailure])) _
    (snd (checkUserExpiration 100 dated_db [None; None; Some DBFailure]))
    dated_db_ids). vm_compute. reflexivity.
Defined.

Definition lapsing_db : Db := set_rules (sample_db active active)
  [PermissionRule.set_valid_to sample_rule (Some 60)].

Lemma rule_check_transparent_witness :
  PermissionRule.Enabled <$> permission_rules (after (checkPermissionExpiration 60 lapsing_db []))
    = [false] ∧
  res (CheckUserHasPermission no_json 61 (txt "u1") (txt "h1") (txt "su1")
         (after (checkPermissionExpiration 60 lapsing_db [])) []) =
  res (CheckUserHasPermission no_json 61 (txt "u1") (txt "h1") (txt "su1") lapsing_db []).
Proof.
  split; [vm_compute; reflexivity|].
  apply (rule_check_transparent no_json 60 lapsing_db [] (Ok ()) _ [] 61 (txt "u1") (txt "h1") (txt "su1") []).
  - apply NoDup_singleton.
  - reflexivity.
  - vm_compute. reflexivity.
Defined.

Lemma renewal_reactivates_witness :
  let gone := User.set_status bob inactive in
  let db := set_users empty_db [gone] in
  gone ∈ users db ∧
  ∃ v, v ∈ users (after (RenewUserExpiration plain_err (txt "u1") (Some 90) [] [] 50 db [])) ∧
       User.Status v = active.
Proof.
  intros gone db. split; [left|].
  destruct (renewal_reactivates plain_err gone 90 [] [] 50 db []
    (after (RenewUserExpiration plain_err (txt "u1") (Some 90) [] [] 50 db [])) []) as (v & Hv & _ & _ & Ha & _).
  - apply NoDup_singleton.
  - left.
  - reflexivity.
  - reflexivity.
  - vm_compute. reflexivity.
  - exists v. split; [exact Hv|exact Ha].
Defined.
