(* ===== verification/Gateway.v ===== *)
(** * The connection gateway

    [HandleConnection] and the two ways it connects,
    [internal/api/handler/connection_handler.go]: who is asking, with which
    account, by which route, and the rows a direct session leaves.  A refusal is
    a status and a message.  The SSH and WebSocket connections are library code:
    whether they succeed is an argument.  The interception of the input is in
    [WebTerminal], the extraction of the commands in [CommandExtractor]. *)

From stdpp Require Import base list strings gmap.
From Stdlib Require Import ZArith Lia.
From S2P Require Import Prelude GoStrings Gorm Models Blacklist Database Repositories Permissions Router Accounts Auth TwoFactor Sessions.
Local Open Scope Z_scope.

Module UserInfo.
Record t := { UserID : text; Username : text }.
End UserInfo.

(** What the handler does once it does not refuse. *)
Inductive answer :=
  | NeedSelection (systemUsers : list SystemUser.t)
  | Connects (user : UserInfo.t) (su : SystemUser.t) (d : RoutingDecision.t).

Section gateway.
Context `{Crypto} `{Unicode} (JSON_CONTAINS : text → text → bool) (err_text : db_error → text).

(** [validateToken]: a token of a login, else a session token. *)
Definition validateToken (ts : Tokens) (token : text) (now : Z) : result text UserInfo.t * Tokens :=
  match ValidateToken token now with
  | Ok claims => (Ok {| UserInfo.UserID := Claims.UserID claims;
                        UserInfo.Username := Claims.Username claims |}, ts)
  | Err e =>
      let '(r, ts) := ValidateSessionToken ts token now in
      (match r with
       | Ok tokenInfo => Ok {| UserInfo.UserID := SessionToken.UserID tokenInfo;
                               UserInfo.Username := SessionToken.Username tokenInfo |}
       | Err _ => Err (txt "invalid or expired token: " ++ e)
       end, ts)
  end.

(** The account: the one asked for, if a rule grants it; else the only one
    available, or a list to choose from. *)
Definition choose_account (user : UserInfo.t) (hostID systemUserID : text) (now : Z)
    : Http (result (list SystemUser.t) SystemUser.t) :=
  if negb (is_empty systemUserID) then
    hasPermission ← or_fail (λ _, (500, txt "Failed to check permission"))
      (CheckUserHasPermission JSON_CONTAINS now (UserInfo.UserID user) hostID systemUserID);
    if negb hasPermission then raise (403, txt "No permission to use this system user")
    else
      su ← or_fail (λ _, (404, txt "System user not found")) (FindSystemUserByID systemUserID);
      mret (Ok su)
  else
    available ← or_fail (λ _, (500, txt "Failed to get available system users"))
      (GetAvailableSystemUsersForUser JSON_CONTAINS now (UserInfo.UserID user) hostID);
    match available with
    | [] => raise (403, txt "No available system users for this host")
    | [su] => mret (Ok su)
    | _ => mret (Err available)
    end.

(** The route; then the WebSocket. *)
Definition open_session (json_strings : text → option (list text)) (user : UserInfo.t)
    (hostID systemUserID : text) (now : Z) : Http answer :=
  choice ← choose_account user hostID systemUserID now;
  match choice with
  | Err available => mret (NeedSelection available)
  | Ok su =>
      decision ← or_fail (λ _, (500, txt "Routing failed: "))
                   (MakeRoutingDecision json_strings err_text hostID);
      match decision with
      | Err e => raise (500, txt "Routing failed: " ++ e)
      | Ok d => mret (Connects user su d)
      end
  end.

(** [HandleConnection], up to the connection. *)
Definition HandleConnection (json_strings : text → option (list text)) (ts : Tokens)
    (hostID token systemUserID : text) (now : Z) : Http answer * Tokens :=
  if is_empty hostID then (raise (400, txt "Missing hostId parameter"), ts)
  else if is_empty token then (raise (401, txt "Missing token parameter"), ts)
  else
    let '(userInfo, ts) := validateToken ts token now in
    (match userInfo with
     | Err _ => raise (401, txt "Invalid or expired token")
     | Ok user => open_session json_strings user hostID systemUserID now
     end, ts).

(** ** A direct session *)

(** The checks of [proxySSHConnection] before it dials. *)
Definition missing_credentials (su : SystemUser.t) : option text :=
  if text_eqb (SystemUser.AuthType su) (txt "password") && is_empty (SystemUser.Password su)
  then Some (txt "系统用户 " ++ SystemUser.Name su ++ txt " 配置为密码认证，但未提供密码")
  else if text_eqb (SystemUser.AuthType su) (txt "key") && is_empty (SystemUser.PrivateKey su)
  then Some (txt "系统用户 " ++ SystemUser.Name su ++ txt " 配置为密钥认证，但未提供私钥")
  else None.

Definition update_host (id : text) (f : Host.t → Host.t) : DB unit := execute (λ db,
  Ok (set_hosts db (updated (λ h, text_eqb (Host.ID h) id) f <$> hosts db))).
Definition IncrementLoginCount (id : text) : DB unit := update_host id Host.count_login.
(** [NOW()], the clock of the database. *)
Definition UpdateLastLoginTime (now : Z) (id : text) : DB unit :=
  update_host id (λ h, Host.set_logins h (Some now) (Host.LoginCount h)).

Definition new_recording (id sessionID : text) (user : UserInfo.t) (host : Host.t) (start : Z)
    : SessionRecording.t :=
  {| SessionRecording.ID := id; SessionRecording.SessionID := sessionID;
     SessionRecording.ConnectionType := txt "webshell"; SessionRecording.ProxyID := [];
     SessionRecording.UserID := UserInfo.UserID user; SessionRecording.HostID := Host.ID host;
     SessionRecording.HostName := Host.Name host; SessionRecording.HostIP := Host.IP host;
     SessionRecording.Username := UserInfo.Username user; SessionRecording.StartTime := start;
     SessionRecording.EndTime := None; SessionRecording.Duration := txt "进行中";
     SessionRecording.Status := txt "active"; SessionRecording.Recording := [];
     SessionRecording.CommandCount := 0 |}.

(** [proxySSHConnection]: whether the shell started.  [dials] is the outcome of
    the dial, the session, the terminal and the shell. *)
Definition proxySSHConnection (dials : result text unit) (user : UserInfo.t) (host : Host.t)
    (su : SystemUser.t) (sessionID recordingID : text) (start opened : Z) : Eff text bool :=
  match missing_credentials su, dials with
  | None, Ok _ =>
      _ ← attempt (create_recording (new_recording recordingID sessionID user host start));
      _ ← attempt (update_login_records sessionID (λ r, LoginRecord.set_status r (txt "active")));
      _ ← attempt (IncrementLoginCount (Host.ID host));
      _ ← attempt (UpdateLastLoginTime opened (Host.ID host));
      mret true
  | _, _ => mret false
  end.

Definition connecting (user : UserInfo.t) (host : Host.t) (sessionID : text) (start : Z)
    : LoginRecord.t :=
  {| LoginRecord.ID := sessionID; LoginRecord.UserID := UserInfo.UserID user;
     LoginRecord.HostID := Host.ID host; LoginRecord.HostName := Host.Name host;
     LoginRecord.HostIP := Host.IP host; LoginRecord.Username := UserInfo.Username user;
     LoginRecord.LoginIP := []; LoginRecord.LoginTime := start; LoginRecord.LogoutTime := None; LoginRecord.Duration := None;
     LoginRecord.Status := txt "connecting"; LoginRecord.SessionID := sessionID |}.

(** The deferred end of [handleDirectConnection]. *)
Definition close_session (sessionID recording : text) (start ends : Z) (success : bool)
    : Eff text unit :=
  let diff := ends - start in
  if success then
    _ ← attempt (update_recordings sessionID (λ r,
          SessionRecording.set_end r ends (duration_text diff) (txt "closed") recording));
    _ ← attempt (update_login_records sessionID (λ r,
          LoginRecord.set_end r ends diff (txt "completed")));
    mret ()
  else
    _ ← attempt (update_login_records sessionID (λ r, LoginRecord.set_end r ends diff (txt "failed")));
    mret ().

Definition handleDirectConnection (dials : result text unit) (user : UserInfo.t) (hostID : text)
    (su : SystemUser.t) (sessionID recordingID recording : text) (start opened ends : Z) : Eff text unit :=
  host ← or_fail (λ _, txt "Host not found") (FindHostByID hostID);
  _ ← attempt (create_login_record (connecting user host sessionID start));
  success ← proxySSHConnection dials user host su sessionID recordingID start opened;
  close_session sessionID recording start ends success.

(** ** A session through an agent *)

Definition generateProxyToken (hostID : text) (user : UserInfo.t) : text :=
  txt "proxy-token-" ++ hostID ++ txt "-" ++ UserInfo.UserID user.

(** The address [handleProxyConnection] dials, after it has counted the login. *)
Definition handleProxyConnection (user : UserInfo.t) (hostID : text) (d : RoutingDecision.t) (now : Z)
    : Eff text text :=
  host ← or_fail (λ _, txt "Host not found") (FindHostByID hostID);
  _ ← attempt (IncrementLoginCount (Host.ID host));
  _ ← attempt (UpdateLastLoginTime now (Host.ID host));
  mret (RoutingDecision.ProxyURL d ++ txt "?token=" ++ generateProxyToken hostID user
        ++ txt "&hostId=" ++ hostID).
End gateway.

(** ** Who connects, and with what *)

Section gateway_facts.
Context `{CryptoLaws} `{Unicode} (JSON_CONTAINS : text → text → bool) (err_text : db_error → text)
  (json_strings : text → option (list text)).

(** The bearer of [token] is [user]: it was signed for them and has not expired,
    or it is a session token of theirs within its five minutes. *)
Definition bearer (ts : Tokens) (token : text) (now : Z) (user : UserInfo.t) : Prop :=
  (∃ c, SignedString c = Ok token ∧ now < Claims.ExpiresAt c ∧
        user = {| UserInfo.UserID := Claims.UserID c; UserInfo.Username := Claims.Username c |}) ∨
  (∃ i, ts !! token = Some i ∧ now <= SessionToken.ExpiresAt i ∧
        user = {| UserInfo.UserID := SessionToken.UserID i; UserInfo.Username := SessionToken.Username i |}).

Lemma validateToken_bearer ts token now user ts' :
  validateToken ts token now = (Ok user, ts') → bearer ts token now user.
Proof.
  unfold validateToken, ValidateToken, ValidateSessionToken.
  destruct (ParseWithClaims token now) as [c|e] eqn:Ep.
  - intros [= <- _]. left. exists c. split; [by eapply parse_genuine|]. split; [by eapply parse_fresh|done].
  - destruct (ts !! token) as [i|] eqn:Ei; [|done].
    destruct (Z.ltb_spec (SessionToken.ExpiresAt i) now); [done|]. intros [= <- _]. right.
    by exists i.
Qed.

Lemma choose_account_Ok user hostID sid now db f su db' f' :
  choose_account JSON_CONTAINS user hostID sid now db f = (Ok (Ok su), db', f') →
  su ∈ system_users db ∧ grants JSON_CONTAINS db now (UserInfo.UserID user) hostID (SystemUser.ID su) ∧
  (if is_empty sid then SystemUser.Status su = active else SystemUser.ID su = sid) ∧ db' = db.
Proof.
  unfold choose_account. destruct (is_empty sid) eqn:Es; cbn [negb].
  - intros (l & db1 & f1 & Hl & H1)%bind_Ok. apply or_fail_Ok in Hl.
    pose proof (available_spec JSON_CONTAINS _ _ _ _ _ _ _ _ su Hl) as Hspec.
    apply find_Ok in Hl as [_ ->]. destruct l as [|su1 [|su2 l]]; [done| |done].
    injection H1 as <- <- _. destruct (proj1 Hspec (list_elem_of_here _ _)) as (Hsu & Ha & Hg).
    done.
  - intros (b & db1 & f1 & Hb & H1)%bind_Ok. apply or_fail_Ok in Hb.
    pose proof (check_spec JSON_CONTAINS _ _ _ _ _ _ _ _ _ Hb) as Hspec.
    apply query_Ok in Hb as [_ ->]. destruct b; [|done]. cbn [negb] in H1.
    apply bind_Ok in H1 as (su1 & db2 & f2 & Hsu & H1). injection H1 as <- <- _.
    apply or_fail_Ok, first_keep_Ok in Hsu as (Hsu & Hid%text_eqb_true & ->).
    split; [done|]. rewrite Hid. by split; [apply Hspec|].
Qed.

(** C2: A connection is only opened for the bearer of a valid token, with an
    account a rule in force grants that user on that host (the account asked
    for, or an active one when none was), along the route the router decided
    on the tables as they are; and none of this writes: the tables are as they
    were when the connection is opened. *)
Theorem gateway_grants ts hostID token sid now db f user su d db' f' :
  (HandleConnection JSON_CONTAINS err_text json_strings ts hostID token sid now).1 db f
    = (Ok (Connects user su d), db', f') →
  bearer ts token now user ∧ su ∈ system_users db ∧
  grants JSON_CONTAINS db now (UserInfo.UserID user) hostID (SystemUser.ID su) ∧
  (if is_empty sid then SystemUser.Status su = active else SystemUser.ID su = sid) ∧
  (∃ f1, MakeRoutingDecision json_strings err_text hostID db f1 = (Ok (Ok d), db', f')) ∧
  db' = db.
Proof.
  unfold HandleConnection. destruct (is_empty hostID); [done|]. destruct (is_empty token); [done|].
  destruct (validateToken ts token now) as [r ts'] eqn:Ev. cbn [fst]. destruct r as [u|e]; [|done].
  intros (c & db1 & f1 & Hc & H1)%bind_Ok. destruct c as [su1|l]; [|done].
  apply bind_Ok in H1 as (dec & db2 & f2 & Hd & H1). destruct dec as [d1|e]; [|done].
  injection H1 as -> -> -> <- <-.
  apply choose_account_Ok in Hc as (Hsu & Hg & Hsel & ->). apply or_fail_Ok in Hd.
  split; [by eapply validateToken_bearer|]. split_and!; [done..|by exists f1|].
  exact (reads_run _ _ _ _ _ _ (reads_MakeRoutingDecision _ _ _) Hd).
Qed.

(** A session token is not tied to the host it was issued for, nor to the
    name of the user: within its five minutes it opens a connection to any host
    exactly as its user would, with an empty user name, under which the
    blacklist applies no rule of a user. *)
Theorem session_token_unbound h1 userID sessID recID token now ts db f resp ts' db' f' t h2 sid :
  CreateSession h1 userID sessID recID token now ts db f = (Ok (resp, ts'), db', f') →
  (∀ c, SignedString c ≠ Ok token) → token ≠ [] → h2 ≠ [] → t <= now + five_minutes →
  (HandleConnection JSON_CONTAINS err_text json_strings ts' h2 (SessionResponse.Token resp) sid t).1 =
    open_session JSON_CONTAINS err_text json_strings
      {| UserInfo.UserID := userID; UserInfo.Username := [] |} h2 sid t ∧
  ∀ m command, IsBlocked m command [] = IsBlocked (Blacklist.set_rules m (globalRules m) []) command [].
Proof.
  intros [-> ->]%CreateSession_Ok Hjwt Htok Hh2 Ht. split; [|done].
  unfold HandleConnection, validateToken, ValidateToken, ValidateSessionToken.
  destruct h2 as [|? ?]; [done|]. destruct token as [|x token]; [done|]. cbn [is_empty].
  destruct (ParseWithClaims (x :: token) t) as [c|e] eqn:Ep.
  { by destruct (Hjwt c), (parse_genuine _ _ _ Ep). }
  rewrite (proj2 (lookup_insert_Some ts _ _ _ _) (or_introl (conj eq_refl eq_refl))).
  by rewrite (proj2 (Z.ltb_ge (SessionToken.ExpiresAt (session_token h1 userID (x :: token) now)) t) Ht).
Qed.

(** *** What a direct session leaves *)

(** The shell starts: a recording is opened, the login record turns active. *)
Lemma start_run user host su sessID recID start opened db :
  missing_credentials su = None →
  (∀ r, r ∈ session_recordings (aux db) →
        SessionRecording.SessionID r ≠ sessID ∧ SessionRecording.ID r ≠ recID) →
  ∃ db', proxySSHConnection (Ok ()) user host su sessID recID start opened db [] = (Ok true, db', []) ∧
    login_records (aux db') = updated (of_session sessID) (λ r, LoginRecord.set_status r (txt "active"))
                                <$> login_records (aux db) ∧
    session_recordings (aux db') = session_recordings (aux db) ++
                                   [new_recording recID sessID user host start].
Proof.
  intros Hc Hr. unfold proxySSHConnection. rewrite Hc, bind_run. unfold create_recording.
  rewrite (attempt_execute _ db (set_session_recordings db (session_recordings (aux db) ++
    [new_recording recID sessID user host start]))).
  2: { rewrite (proj2 (existsb_none _ _)); [done|]. intros q Hq.
       destruct (Hr q Hq). by rewrite !text_eqb_false. }
  unfold update_login_records, IncrementLoginCount, UpdateLastLoginTime, update_host.
  rewrite bind_run, attempt_run, bind_run, attempt_run, bind_run, attempt_run.
  eexists. split; [reflexivity|]. by split.
Qed.

Lemma close_run sessID data start ends success db :
  ∃ db', close_session sessID data start ends success db [] = (Ok (), db', []) ∧
    login_records (aux db') = updated (of_session sessID)
      (λ r, LoginRecord.set_end r ends (ends - start) (if success then txt "completed" else txt "failed"))
      <$> login_records (aux db) ∧
    session_recordings (aux db') =
      if success
      then updated (recorded sessID) (λ r, SessionRecording.set_end r ends (duration_text (ends - start))
                                             (txt "closed") data) <$> session_recordings (aux db)
      else session_recordings (aux db).
Proof.
  unfold close_session, update_recordings, update_login_records. cbv zeta. destruct success.
  - rewrite bind_run, attempt_run, bind_run, attempt_run. eexists. split; [reflexivity|]. by split.
  - rewrite bind_run, attempt_run. eexists. split; [reflexivity|]. by split.
Qed.

Lemma failed_run dials user host su sessID recID start opened db :
  (is_ok dials && match missing_credentials su with None => true | Some _ => false end) = false →
  proxySSHConnection dials user host su sessID recID start opened db [] = (Ok false, db, []).
Proof. unfold proxySSHConnection. by destruct (missing_credentials su), dials as [[]|]. Qed.

(** A direct session leaves exactly its rows when no statement fails: one
    login record, completed if the shell started and failed if not, and, only if
    it started, one recording, closed, with the recorded data; both carry the
    user, the host and the time the session ended. *)
Theorem direct_session_recorded dials user host su sessID recID data start opened ends db :
  host ∈ hosts db → NoDup (Host.ID <$> hosts db) → fresh_session db sessID recID →
  let started := is_ok dials && match missing_credentials su with None => true | Some _ => false end in
  ∃ db', handleDirectConnection dials user (Host.ID host) su sessID recID data start opened ends db []
         = (Ok (), db', []) ∧
    login_records (aux db') = login_records (aux db) ++
      [LoginRecord.set_end (connecting user host sessID start) ends (ends - start)
         (if started then txt "completed" else txt "failed")] ∧
    session_recordings (aux db') = session_recordings (aux db) ++
      (if started
       then [SessionRecording.set_end (new_recording recID sessID user host start) ends
               (duration_text (ends - start)) (txt "closed") data] else []).
Proof.
  intros Hh HN Hfresh started. unfold handleDirectConnection.
  rewrite bind_run. unfold or_fail, FindHostByID, first, query.
  rewrite (keep_key Host.ID _ _ host HN Hh eq_refl). cbn [map_err list.tail].
  set (rec := connecting user host sessID start). rewrite bind_run. unfold create_login_record.
  rewrite (attempt_execute _ db (set_login_records db (login_records (aux db) ++ [rec]))).
  2: { rewrite (proj2 (existsb_none _ _)); [done|]. intros q Hq.
       apply text_eqb_false, (no_login _ _ _ Hfresh q Hq). }
  set (db1 := set_login_records _ _). rewrite bind_run.
  assert (∀ q, q ∈ login_records (aux db) → of_session sessID q = false) as Hl.
  { intros q Hq. apply text_eqb_false, (no_login _ _ _ Hfresh q Hq). }
  assert (∀ q, q ∈ session_recordings (aux db) → recorded sessID q = false) as Hr.
  { intros q Hq. apply text_eqb_false, (no_recording _ _ _ Hfresh q Hq). }
  destruct started eqn:Est; unfold started in Est.
  - apply andb_true_iff in Est as [E1 E2]. destruct dials as [[]|]; [|done].
    destruct (start_run user host su sessID recID start opened db1) as (db2 & -> & H2 & H3).
    { by destruct (missing_credentials su) in E2 |- *. }
    { apply Hfresh. }
    destruct (close_run sessID data start ends true db2) as (db3 & -> & H4 & H5).
    exists db3. split; [done|]. rewrite H4, H5, H2, H3. split.
    + change (login_records (aux db1)) with (login_records (aux db) ++ [rec]).
      rewrite updated_last, updated_last by (done || apply text_eqb_refl). done.
    + rewrite updated_last by (done || apply text_eqb_refl). done.
  - rewrite failed_run by done.
    destruct (close_run sessID data start ends false db1) as (db3 & -> & H4 & H5).
    exists db3. split; [done|]. rewrite H4, H5. split; [|by rewrite app_nil_r].
    change (login_records (aux db1)) with (login_records (aux db) ++ [rec]).
    rewrite updated_last by (done || apply text_eqb_refl). done.
Qed.
End gateway_facts.

(** ** Concrete connections *)

(** The user [u1] may use [su1] on the host [h1] of the sample tables. *)
Definition gate_db : Db := set_hosts (sample_db active active) [one_host].
Definition u1_token : text :=
  claims_code {| Claims.UserID := txt "u1"; Claims.Username := txt "bob"; Claims.Role := txt "user";
                 Claims.ExpiresAt := 1000; Claims.IssuedAt := 0 |}.
Definition no_rules (_ : text) : option (list text) := Some [].

Definition knock (ts : Tokens) (token systemUserID : text) (db : Db) :=
  (HandleConnection no_json plain_err no_rules ts (txt "h1") token systemUserID 50).1 db [].

Definition u1 : UserInfo.t := {| UserInfo.UserID := txt "u1"; UserInfo.Username := txt "bob" |}.

Example gate_opens :
  match res (knock ∅ u1_token [] gate_db) with
  | Ok (Connects u su d) => u = u1 ∧ su = sample_su active ∧ RoutingDecision.Direct d = true
  | _ => False
  end.
Proof. vm_compute. done. Qed.

Example gate_refuses :
  res (knock ∅ (txt "forged") [] gate_db) = Err (401, txt "Invalid or expired token") ∧
  res (knock ∅ u1_token (txt "su2") gate_db) = Err (403, txt "No permission to use this system user").
Proof. vm_compute. done. Qed.

(** An account that is disabled is refused when none is asked for, and accepted
    when it is asked for by its key. *)
Example disabled_account_accepted :
  let db := set_hosts (sample_db inactive active) [one_host] in
  res (knock ∅ u1_token [] db) = Err (403, txt "No available system users for this host") ∧
  match res (knock ∅ u1_token (txt "su1") db) with
  | Ok (Connects _ su _) => SystemUser.Status su = inactive
  | _ => False
  end.
Proof. vm_compute. done. Qed.

(** The agent is not told the account the session was granted with, and the
    token it gets is made of the keys of the host and the user. *)
Example agent_not_told_the_account :
  res (handleProxyConnection u1 (txt "h1")
         {| RoutingDecision.Mode := ConnectionModeProxy; RoutingDecision.Direct := false;
            RoutingDecision.ProxyID := txt "p"; RoutingDecision.ProxyURL := txt "ws://p/ws";
            RoutingDecision.Reason := [] |} 50 gate_db [])
  = Ok (txt "ws://p/ws?token=proxy-token-h1-u1&hostId=h1").
Proof. vm_compute. reflexivity. Qed.

Lemma gateway_grants_witness :
  bearer ∅ u1_token 50 u1 ∧
  grants no_json gate_db 50 (txt "u1") (txt "h1") (SystemUser.ID (sample_su active)).
Proof.
  destruct (gateway_grants no_json plain_err no_rules ∅ (txt "h1") u1_token [] 50 gate_db [] u1
    (sample_su active) (direct (txt "Host 'web' configured for direct connection")) gate_db [])
    as (Hb & _ & Hg & _).
  - vm_compute. reflexivity.
  - exact (conj Hb Hg).
Defined.

Lemma session_token_unbound_witness :
  let ts := <[txt "tok" := session_token (txt "h9") (txt "u1") (txt "tok") 10]> ∅ in
  res ((HandleConnection no_json plain_err no_rules ts (txt "h1") (txt "tok") [] 50).1 gate_db []) =
  res (open_session no_json plain_err no_rules {| UserInfo.UserID := txt "u1"; UserInfo.Username := [] |}
         (txt "h1") [] 50 gate_db []).
Proof.
  intros ts.
  assert ((HandleConnection no_json plain_err no_rules ts (txt "h1") (txt "tok") [] 50).1 =
    open_session no_json plain_err no_rules {| UserInfo.UserID := txt "u1"; UserInfo.Username := [] |}
      (txt "h1") [] 50) as ->; [|reflexivity].
  apply (session_token_unbound no_json plain_err no_rules (txt "h9") (txt "u1") (txt "s1") (txt "r1")
    (txt "tok") 10 ∅ (set_hosts empty_db [host_named (txt "h9")]) [] {| SessionResponse.SessionID := txt "s1";
        SessionResponse.WSUrl := txt "ws://localhost:8022/ws/ssh?token=" ++ txt "tok";
        SessionResponse.Token := txt "tok" |} ts
    (after (CreateSession (txt "h9") (txt "u1") (txt "s1") (txt "r1") (txt "tok") 10 ∅
              (set_hosts empty_db [host_named (txt "h9")]) [])) []).
  - vm_compute. reflexivity.
  - intros c. discriminate.
  - discriminate.
  - discriminate.
  - vm_compute. discriminate.
Defined.

Lemma direct_session_recorded_witness :
  one_host ∈ hosts gate_db ∧
  ∃ db', handleDirectConnection (Ok ()) u1 (txt "h1") (sample_su active) (txt "s") (txt "r") [] 5 6 70
           gate_db [] = (Ok (), db', []) ∧
    LoginRecord.Status <$> login_records (aux db') = [txt "completed"].
Proof.
  split; [left|].
  destruct (direct_session_recorded (Ok ()) u1 one_host (sample_su active) (txt "s") (txt "r") [] 5 6 70
    gate_db) as (db' & E & H1 & _).
  - left.
  - apply NoDup_singleton.
  - by split; intros r []%not_elem_of_nil.
  - exists db'. split; [exact E|]. rewrite H1. vm_compute. reflexivity.
Defined.
