(* ===== verification/Approvals.v ===== *)
(** * Approvals

    [internal/api/handler/approval_handler.go], the callbacks of the chat
    platforms in [approval_callback_handler.go], and the decisions of the
    providers in [internal/approval].  A provider is an interface of the code,
    the class of its HTTP exchanges being arguments; [json.Unmarshal],
    [JSON_CONTAINS] and [LIKE] are library code.  A body is [None] when it does
    not bind.  Times are nanoseconds. *)

From stdpp Require Import base list strings gmap relations pretty sorting.
From Stdlib Require Import ZArith Lia.
From S2P Require Import Prelude GoStrings Gorm Models Database Repositories Permissions Accounts Auth TwoFactor.
Local Open Scope Z_scope.

(** ** Statements on the three tables *)

Definition all_approvals (db : Db) : list Approval.t := approvals (workflow (aux db)).
Definition all_comments (db : Db) : list ApprovalComment.t := approval_comments (workflow (aux db)).
Definition all_configs (db : Db) : list ApprovalConfig.t := approval_configs (workflow (aux db)).

(** [First] takes the row with the least primary key. *)
Fixpoint text_leb (a b : text) : bool :=
  match a, b with
  | [], _ => true
  | _ :: _, [] => false
  | x :: a, y :: b => if x <? y then true else if x =? y then text_leb a b else false
  end.

Fixpoint least {A} (key : A → text) (l : list A) : option A :=
  match l with
  | [] => None
  | x :: l => match least key l with
              | None => Some x
              | Some y => if text_leb (key x) (key y) then Some x else Some y
              end
  end.

Definition First {A} (key : A → text) (q : Db → list A) : DB A := query (λ db,
  match least key (q db) with Some x => Ok x | None => Err RecordNotFound end).

Definition FindApproval (p : Approval.t → bool) : DB Approval.t :=
  First Approval.ID (λ db, keep p (all_approvals db)).

Definition has_id (id : text) (a : Approval.t) : bool := text_eqb (Approval.ID a) id.

Definition create_approval (a : Approval.t) : DB unit := execute (λ db,
  if existsb (λ b, text_eqb (Approval.ID b) (Approval.ID a)) (all_approvals db)
  then Err DuplicatedKey
  else Ok (set_approvals db (all_approvals db ++ [a]))).

(** [Save]: every column of the row with this id, which is inserted if there is none. *)
Definition save_approval (a : Approval.t) : DB unit := execute (λ db,
  let same := λ b, text_eqb (Approval.ID b) (Approval.ID a) in
  Ok (set_approvals db (if existsb same (all_approvals db)
                        then updated same (λ _, a) <$> all_approvals db
                        else all_approvals db ++ [a]))).

Definition create_comment (c : ApprovalComment.t) : DB unit := execute (λ db,
  if existsb (λ d, text_eqb (ApprovalComment.ID d) (ApprovalComment.ID c)) (all_comments db)
  then Err DuplicatedKey
  else Ok (set_comments db (all_comments db ++ [c]))).

Definition create_approval_config (c : ApprovalConfig.t) : DB unit := execute (λ db,
  if existsb (λ d, text_eqb (ApprovalConfig.ID d) (ApprovalConfig.ID c)) (all_configs db)
  then Err DuplicatedKey
  else Ok (set_configs db (all_configs db ++ [c]))).

Definition save_approval_config (c : ApprovalConfig.t) : DB unit := execute (λ db,
  let same := λ d, text_eqb (ApprovalConfig.ID d) (ApprovalConfig.ID c) in
  Ok (set_configs db (if existsb same (all_configs db)
                      then updated same (λ _, c) <$> all_configs db
                      else all_configs db ++ [c]))).

Definition FindConfig (p : ApprovalConfig.t → bool) : DB ApprovalConfig.t :=
  First ApprovalConfig.ID (λ db, keep p (all_configs db)).

Definition has_config_id (id : text) (c : ApprovalConfig.t) : bool :=
  text_eqb (ApprovalConfig.ID c) id.

Definition delete_approval_config (id : text) : DB unit := execute (λ db,
  Ok (set_configs db (keep (λ c, negb (text_eqb (ApprovalConfig.ID c) id)) (all_configs db)))).

(** ** Providers *)

Module CallbackResult.
Record t := { ApprovalID : text; Status : ApprovalStatus; ApproverName : text; Comment : text }.
End CallbackResult.

(** A decoded JSON value: a string, or something else. *)
Inductive json_value := JString (s : text) | JOther.

(** [v, _ := data[key].(string)]. *)
Definition string_field (data : gmap text json_value) (key : text) : text :=
  match data !! key with Some (JString s) => s | _ => [] end.

(** The methods of the interface [Provider] the handlers call. *)
Record Provider := {
  CreateApproval_ : Approval.t → Eff text text;
  CancelApproval_ : text → result text unit;
  HandleCallback_ : gmap text json_value → result text CallbackResult.t
}.

Definition ApprovalPlatformInternal : text := txt "internal".
Definition ApprovalPlatformFeishu : text := txt "feishu".
Definition ApprovalPlatformDingTalk : text := txt "dingtalk".
Definition ApprovalPlatformWeChat : text := txt "wechat".

(** [Factory]. *)
Notation Factory := (gmap text Provider).

Definition Register (f : Factory) (platform : text) (provider : Provider) : Factory :=
  <[platform := provider]> f.
Definition GetProvider (f : Factory) (platform : text) : option Provider := f !! platform.

(** A switch on a string. *)
Fixpoint switch {A} (s : text) (cases : list (string * A)) (default : A) : A :=
  match cases with
  | [] => default
  | (c, a) :: cases => if text_eqb s (txt c) then a else switch s cases default
  end.

(** The platforms' words for the status of an approval. *)
Definition convertStatus (feishuStatus : text) : ApprovalStatus :=
  switch feishuStatus
    [("APPROVED", ApprovalStatusApproved); ("REJECTED", ApprovalStatusRejected);
     ("CANCELED", ApprovalStatusCanceled); ("DELETED", ApprovalStatusCanceled)]%string
    ApprovalStatusPending.
Definition mapFeishuStatus (feishuStatus : text) : ApprovalStatus :=
  switch feishuStatus
    [("PENDING", ApprovalStatusPending); ("APPROVED", ApprovalStatusApproved);
     ("REJECTED", ApprovalStatusRejected); ("CANCELLED", ApprovalStatusCanceled)]%string
    ApprovalStatusPending.
Definition mapDingTalkStatus (dingTalkStatus : text) : ApprovalStatus :=
  switch dingTalkStatus
    [("RUNNING", ApprovalStatusPending); ("COMPLETED", ApprovalStatusApproved);
     ("TERMINATED", ApprovalStatusRejected); ("CANCELED", ApprovalStatusCanceled)]%string
    ApprovalStatusPending.
Definition mapWeChatStatus (weChatStatus : text) : ApprovalStatus :=
  switch weChatStatus
    [("1", ApprovalStatusPending); ("2", ApprovalStatusApproved);
     ("3", ApprovalStatusRejected); ("4", ApprovalStatusCanceled)]%string
    ApprovalStatusPending.

(** [FeishuProvider.HandleCallback]; the two others refuse. *)
Definition feishu_callback (data : gmap text json_value) : result text CallbackResult.t :=
  Ok {| CallbackResult.ApprovalID := string_field data (txt "instance_code");
        CallbackResult.Status := convertStatus (string_field data (txt "status"));
        CallbackResult.ApproverName := string_field data (txt "approver_name");
        CallbackResult.Comment := string_field data (txt "comment") |}.
Definition dingtalk_callback (data : gmap text json_value) : result text CallbackResult.t :=
  Err (txt "钉钉回调处理未实现").
Definition wechat_callback (data : gmap text json_value) : result text CallbackResult.t :=
  Err (txt "企业微信回调处理未实现").

(** *** The requests the providers send

    The token and the answer to the request are what the platform says. *)

Module FormField.
Record t := { id : text; type_ : text; name : option text;
              options : option (list (option (text * text))) }.  (* text and value *)
End FormField.

Module FormItem.
Record t := { id : text; type_ : text; value : text }.
End FormItem.

Definition ApprovalTypeHostAccess : text := txt "host_access".
Definition ApprovalTypeHostGroupAccess : text := txt "host_group_access".

(** The words that name the type in an option list. *)
Definition names_type (approvalType t : text) : bool :=
  if text_eqb approvalType ApprovalTypeHostAccess
  then text_eqb t (txt "host_access") || text_eqb t (txt "主机访问权限")
  else if text_eqb approvalType ApprovalTypeHostGroupAccess
  then text_eqb t (txt "host_group_access") || text_eqb t (txt "主机组访问权限")
  else false.

Definition getApprovalTypeValue (approvalType : text) (field : FormField.t) : text :=
  let found := options ← FormField.options field;
    first_some (λ o : option (text * text),
      match o with
      | Some (t, value) => if names_type approvalType t then Some value else None
      | None => None
      end) options in
  match found with
  | Some value => value
  | None => if text_eqb approvalType ApprovalTypeHostGroupAccess
            then txt "mh22s1w3-dipw4j04vb-0" else txt "mh22s1w3-nkqsak2eis-0"
  end.

Section providers.
Context (like_host : text → Host.t → bool) (json_fields : text → option (list FormField.t)).

Definition getHostIPByName (hostName : text) : Eff text text :=
  r ← attempt (FindAllHosts like_host 1 1 hostName);
  mret (match r with Some (h :: _, _) => Host.IP h | _ => [] end).

Fixpoint resource_lines (names : list text) : Eff text (list text) :=
  match names with
  | [] => mret []
  | name :: names =>
      ip ← getHostIPByName name;
      rest ← resource_lines names;
      mret ((name ++ txt " (IP: " ++ (if is_empty ip then txt "未找到" else ip) ++ txt ")") :: rest)
  end.

Definition is_one_of (s : text) (l : list string) : bool := existsb (λ c, text_eqb s (txt c)) l.

Definition form_value (a : Approval.t) (field : FormField.t) : Eff text text :=
  let fieldName := default [] (FormField.name field) in
  if is_one_of fieldName ["工单标题"; "title"]%string then mret (Approval.Title a)
  else if is_one_of fieldName ["详细描述"; "description"]%string then mret (Approval.Description a)
  else if is_one_of fieldName ["申请理由"; "reason"]%string then mret (Approval.Reason a)
  else if is_one_of fieldName ["申请资源"; "resources"]%string then
    if is_empty (Approval.ResourceNames a) then mret (Approval.ResourceType a)
    else resources ← resource_lines (Approval.ResourceNames a); mret (join_with 10 resources)
  else if is_one_of fieldName ["申请类型"; "type"]%string
  then mret (getApprovalTypeValue (Approval.Type_ a) field)
  else if is_one_of fieldName ["权限时长"; "duration"]%string then mret (txt (pretty (Approval.Duration a)))
  else mret [].

Fixpoint form_items (a : Approval.t) (fields : list FormField.t) : Eff text (list FormItem.t) :=
  match fields with
  | [] => mret []
  | field :: fields =>
      value ← form_value a field;
      rest ← form_items a fields;
      mret ({| FormItem.id := FormField.id field; FormItem.type_ := FormField.type_ field;
               FormItem.value := value |} :: rest)
  end.

Definition buildFormContent (c : ApprovalConfig.t) (a : Approval.t) : Eff text (list FormItem.t) :=
  if is_empty (ApprovalConfig.FormFields c)
  then raise (txt "未配置表单字段，请在工单审批配置中设置form_fields")
  else match json_fields (ApprovalConfig.FormFields c) with
       | None => raise (txt "解析表单字段配置失败: ")
       | Some fields => form_items a fields
       end.

(** Who asks: the id, or the name when there is none. *)
Definition originator (a : Approval.t) : text :=
  if is_empty (Approval.ApplicantID a) then Approval.ApplicantName a else Approval.ApplicantID a.

(** [token] is the answer of [getTenantAccessToken], [post] that of the request. *)
Definition feishu_create (token : result text text)
    (post : text → text → list FormItem.t → text → result text text)
    (c : ApprovalConfig.t) (a : Approval.t) : Eff text text :=
  if is_empty (ApprovalConfig.ApprovalCode c) then raise (txt "审批代码未配置")
  else match token with
  | Err e => raise (txt "获取访问令牌失败: " ++ e)
  | Ok token =>
      form ← or_fail (λ e, txt "构建表单内容失败: " ++ e) (buildFormContent c a);
      match post token (ApprovalConfig.ApprovalCode c) form (originator a) with
      | Ok externalID => mret externalID
      | Err e => raise e
      end
  end.

(** The five fields of the DingTalk form, and the WeChat ones. *)
Definition spaced (names : list text) : text := txt "[" ++ join_with 32 names ++ txt "]".

Definition dingtalk_form (a : Approval.t) : list (text * text) :=
  [(txt "title", Approval.Title a); (txt "description", Approval.Description a);
   (txt "reason", Approval.Reason a); (txt "resources", spaced (Approval.ResourceNames a));
   (txt "duration", txt (pretty (Approval.Duration a)))].

Definition wechat_form (a : Approval.t) : list (text * text) :=
  [(txt "工单标题", Approval.Title a); (txt "详细描述", Approval.Description a);
   (txt "申请理由", Approval.Reason a); (txt "申请资源", spaced (Approval.ResourceNames a));
   (txt "权限时长", txt (pretty (Approval.Duration a)) ++ txt "小时")].

(** What the slice holds after [json.Unmarshal], whose error is ignored. *)
Context (unmarshalled : text → list text).

Definition configured_approvers (c : ApprovalConfig.t) : list text :=
  if is_empty (ApprovalConfig.ApproverUserIDs c) then []
  else unmarshalled (ApprovalConfig.ApproverUserIDs c).

Definition dingtalk_create (token : result text text)
    (post : text → text → text → list (text * text) → list text → result text text)
    (c : ApprovalConfig.t) (a : Approval.t) : Eff text text :=
  if is_empty (ApprovalConfig.ProcessCode c) then raise (txt "审批代码未配置")
  else match token with
  | Err e => raise (txt "获取访问令牌失败: " ++ e)
  | Ok token =>
      match post token (ApprovalConfig.ProcessCode c) (originator a) (dingtalk_form a)
              (configured_approvers c) with
      | Ok externalID => mret externalID
      | Err e => raise e
      end
  end.

(** Without configured approvers the applicant approves the request himself. *)
Definition wechat_approvers (c : ApprovalConfig.t) (a : Approval.t) : list text :=
  match configured_approvers c with [] => [originator a] | l => l end.

Definition wechat_create (token : result text text)
    (post : text → text → text → list text → list (text * text) → result text text)
    (c : ApprovalConfig.t) (a : Approval.t) : Eff text text :=
  if is_empty (ApprovalConfig.TemplateID c) then raise (txt "审批代码未配置")
  else match token with
  | Err e => raise (txt "获取访问令牌失败: " ++ e)
  | Ok token =>
      match post token (ApprovalConfig.TemplateID c) (originator a) (wechat_approvers c a)
              (wechat_form a) with
      | Ok externalID => mret externalID
      | Err e => raise e
      end
  end.
End providers.

(** [loadApprovalProviders] of the main program: one provider per platform, the
    last complete configuration of the type. *)
Definition complete_config (c : ApprovalConfig.t) : bool :=
  negb (is_empty (ApprovalConfig.AppID c)) && negb (is_empty (ApprovalConfig.AppSecret c)) &&
  negb (is_empty (switch (ApprovalConfig.Type_ c)
    [("feishu", ApprovalConfig.ApprovalCode c); ("dingtalk", ApprovalConfig.ProcessCode c);
     ("wechat", ApprovalConfig.TemplateID c)]%string [])).

Definition loadApprovalProviders (provider : ApprovalConfig.t → Provider) (f : Factory)
    : DB Factory :=
  configs ← attempt (find (λ db, keep ApprovalConfig.Enabled (all_configs db)));
  mret (foldl (λ f c, if complete_config c then Register f (ApprovalConfig.Type_ c) (provider c) else f)
              f (default [] configs)).

(** ** Requests, statement by statement

    No handler opens a transaction: between two of its statements those of other
    requests run.  A handler that writes is the sequence of its statements, each
    with what follows its answer. *)

Inductive Statement : Type → Type → Type :=
  | FirstRow (p : Approval.t → bool) : Statement db_error Approval.t
  | CreateRow (a : Approval.t) : Statement db_error unit
  | SaveRow (a : Approval.t) : Statement db_error unit
  | CreateComment (c : ApprovalComment.t) : Statement db_error unit
  | FirstConfig (p : ApprovalConfig.t → bool) : Statement db_error ApprovalConfig.t
  | CreateConfig (c : ApprovalConfig.t) : Statement db_error unit
  | SaveConfig (c : ApprovalConfig.t) : Statement db_error unit
  | DeleteConfig (id : text) : Statement db_error unit
  | AskPlatform (provider : Provider) (a : Approval.t) : Statement text text.

Definition perform {E A} (s : Statement E A) : Eff E A :=
  match s with
  | FirstRow p => FindApproval p
  | CreateRow a => create_approval a
  | SaveRow a => save_approval a
  | CreateComment c => create_comment c
  | FirstConfig p => FindConfig p
  | CreateConfig c => create_approval_config c
  | SaveConfig c => save_approval_config c
  | DeleteConfig id => delete_approval_config id
  | AskPlatform provider a => CreateApproval_ provider a
  end.

Inductive Request (E A : Type) :=
  | Answer (r : result E A)
  | Do {F B : Type} (s : Statement F B) (k : result F B → Request E A).
Arguments Answer {E A} r.
Arguments Do {E A F B} s k.

Fixpoint continue {E A B} (k : A → Request E B) (r : Request E A) : Request E B :=
  match r with
  | Answer (Ok a) => k a
  | Answer (Err e) => Answer (Err e)
  | Do s k' => Do s (λ x, continue k (k' x))
  end.
#[global] Instance request_ret E : MRet (Request E) := λ A a, Answer (Ok a).
#[global] Instance request_bind E : MBind (Request E) := λ A B, continue.

Definition refuse {E A} (e : E) : Request E A := Answer (Err e).

(** A statement whose error is answered, or ignored. *)
Definition need {E F A} (w : F → E) (s : Statement F A) : Request E A :=
  Do s (λ x, Answer (map_err w x)).
Definition try_it {E F A} (s : Statement F A) : Request E (option A) :=
  Do s (λ x, Answer (Ok (match x with Ok a => Some a | Err _ => None end))).
Fixpoint reworded {E F A} (w : E → F) (r : Request E A) : Request F A :=
  match r with
  | Answer x => Answer (map_err w x)
  | Do s k => Do s (λ x, reworded w (k x))
  end.

(** A request while no other runs. *)
Fixpoint alone {E A} (r : Request E A) : Eff E A :=
  match r with
  | Answer x => λ db f, (x, db, f)
  | Do s k => λ db f, let '(x, db', f') := perform s db f in alone (k x) db' f'
  end.

(** ** The handlers *)

Definition hour : Z := 3600 * 10 ^ 9.

Module DecisionRequest.
Record t := { ApproverID : text; ApproverName : text; Comment : text }.
End DecisionRequest.

Section handlers.
Context `{Crypto} (factory : Factory) (JSON_CONTAINS : list text → text → bool).

Definition bound {A} (req : option A) : Request (Z * text) A :=
  match req with Some r => mret r | None => refuse (400, txt "请求参数错误") end.

Definition comment_of (id approvalID userID userName action comment : text) (now : Z)
    : ApprovalComment.t :=
  {| ApprovalComment.ID := id; ApprovalComment.ApprovalID := approvalID;
     ApprovalComment.UserID := userID; ApprovalComment.UserName := userName;
     ApprovalComment.Action := action; ApprovalComment.Comment := comment;
     ApprovalComment.CreatedAt := now |}.

(** The row of a request, before the platform is asked. *)
Definition created (req : Approval.t) (id : text) (now : Z) : Approval.t :=
  Approval.set_created req id
    (if is_empty (Approval.Platform req) then ApprovalPlatformInternal else Approval.Platform req)
    (if 0 <? Approval.Duration req then Some (now + wrap64 (Approval.Duration req * hour))
     else Approval.ExpiresAt req) now.

(** The approvers of the enabled configuration, when it names some. *)
Definition with_configured_approvers (a : Approval.t) : Request (Z * text) Approval.t :=
  config ← try_it (FirstConfig (λ c,
    text_eqb (ApprovalConfig.Type_ c) (Approval.Platform a) && ApprovalConfig.Enabled c));
  mret (match config with
        | None => a
        | Some config =>
            if is_empty (ApprovalConfig.ApproverUserIDs config) then a
            else match json_strings (ApprovalConfig.ApproverUserIDs config) with
                 | Some ids => Approval.set_approvers a ids
                 | None => a
                 end
        end).

Definition getDefaultExternalURL (platform externalID : text) : text :=
  if text_eqb platform ApprovalPlatformFeishu
  then txt "https://www.feishu.cn/approval/instance/" ++ externalID
  else if text_eqb platform ApprovalPlatformDingTalk
  then txt "https://aflow.dingtalk.com/dingtalk/mobile/homepage.htm?corpid=&lwp_as=1&procInstId="
         ++ externalID
  else if text_eqb platform ApprovalPlatformWeChat
  then txt "https://work.weixin.qq.com/wework_admin/frame#/approval/detail/" ++ externalID
  else [].

Definition platform_name (platform : text) : text :=
  if text_eqb platform ApprovalPlatformFeishu then txt "飞书"
  else if text_eqb platform ApprovalPlatformDingTalk then txt "钉钉"
  else if text_eqb platform ApprovalPlatformWeChat then txt "企业微信"
  else platform.

(** [id] and [commentID] are the fresh identifiers. *)
Definition CreateApproval (req : option Approval.t) (id commentID : text) (now : Z)
    : Request (Z * text) Approval.t :=
  req ← bound req;
  if is_empty (Approval.Title req) || is_empty (Approval.Type_ req)
     || is_empty (Approval.ApplicantID req)
  then refuse (400, txt "标题、类型、申请人不能为空")
  else
    let a := created req id now in
    if text_eqb (Approval.Platform a) ApprovalPlatformInternal then
      a ← with_configured_approvers a;
      _ ← need (λ _, (500, txt "创建审批申请失败")) (CreateRow a);
      mret a
    else match GetProvider factory (Approval.Platform a) with
    | None => refuse (501, platform_name (Approval.Platform a) ++ txt "审批集成功能开发中，敬请期待！")
    | Some provider =>
        externalID ← need (λ _, (500, txt "创建外部审批单失败")) (AskPlatform provider a);
        a ← with_configured_approvers
              (Approval.set_external a externalID
                 (getDefaultExternalURL (Approval.Platform a) externalID));
        _ ← need (λ _, (500, txt "创建审批失败")) (CreateRow a);
        _ ← try_it (CreateComment (comment_of commentID (Approval.ID a) (Approval.ApplicantID a)
              (Approval.ApplicantName a) (txt "submit") (txt "提交审批申请") now));
        mret a
    end.

Definition the_approval (id : text) : Request (Z * text) Approval.t :=
  need (λ _, (404, txt "审批不存在")) (FirstRow (has_id id)).

Definition is_pending (a : Approval.t) : bool :=
  bool_decide (Approval.Status a = ApprovalStatusPending).

(** The rows a decision saves. *)
Definition approved_row (a : Approval.t) (name note : text) (now : Z) : Approval.t :=
  Approval.set_approver (Approval.set_approved
    (Approval.set_status a ApprovalStatusApproved now) now note) name.
Definition rejected_row (a : Approval.t) (name reason : text) (now : Z) : Approval.t :=
  Approval.set_approver (Approval.set_rejected
    (Approval.set_status a ApprovalStatusRejected now) now reason) name.

Definition ApproveApproval (id : text) (req : option DecisionRequest.t) (commentID : text) (now : Z)
    : Request (Z * text) Approval.t :=
  req ← bound req;
  approval ← the_approval id;
  if negb (is_pending approval) then refuse (400, txt "审批已处理，无法再次批准")
  else
    let approval := approved_row approval (DecisionRequest.ApproverName req)
                      (DecisionRequest.Comment req) now in
    _ ← need (λ _, (500, txt "批准失败")) (SaveRow approval);
    _ ← try_it (CreateComment (comment_of commentID (Approval.ID approval)
          (DecisionRequest.ApproverID req) (DecisionRequest.ApproverName req) (txt "approve")
          (DecisionRequest.Comment req) now));
    mret approval.

Definition RejectApproval (id : text) (req : option DecisionRequest.t) (commentID : text) (now : Z)
    : Request (Z * text) Approval.t :=
  req ← bound req;
  approval ← the_approval id;
  if negb (is_pending approval) then refuse (400, txt "审批已处理，无法再次拒绝")
  else
    let approval := rejected_row approval (DecisionRequest.ApproverName req)
                      (DecisionRequest.Comment req) now in
    _ ← need (λ _, (500, txt "拒绝失败")) (SaveRow approval);
    _ ← try_it (CreateComment (comment_of commentID (Approval.ID approval)
          (DecisionRequest.ApproverID req) (DecisionRequest.ApproverName req) (txt "reject")
          (DecisionRequest.Comment req) now));
    mret approval.

(** The platform told of the cancellation; its answer is ignored. *)
Definition told (a : Approval.t) : list (text * text) :=
  if negb (is_empty (Approval.ExternalID a)) then
    match GetProvider factory (Approval.Platform a) with
    | Some _ => [(Approval.Platform a, Approval.ExternalID a)]
    | None => []
    end
  else [].

(** The row, and the cancellations sent to the platforms. *)
Definition CancelApproval (id : text) (req : option (text * text)) (commentID : text) (now : Z)
    : Request (Z * text) (Approval.t * list (text * text)) :=
  '(userID, reason) ← bound req;
  approval ← the_approval id;
  if negb (text_eqb (Approval.ApplicantID approval) userID) then refuse (403, txt "无权取消此审批")
  else if negb (is_pending approval) then refuse (400, txt "只能取消待审批的工单")
  else
    let sent := told approval in
    let approval := Approval.set_status approval ApprovalStatusCanceled now in
    _ ← need (λ _, (500, txt "取消失败")) (SaveRow approval);
    _ ← try_it (CreateComment (comment_of commentID (Approval.ID approval) userID []
          (txt "cancel") reason now));
    mret (approval, sent).

Definition AddComment (id : text) (req : option (text * text * text)) (commentID : text) (now : Z)
    : Request (Z * text) ApprovalComment.t :=
  '(userID, userName, text) ← bound req;
  _ ← the_approval id;
  let comment := comment_of commentID id userID userName (txt "comment") text now in
  _ ← need (λ _, (500, txt "添加评论失败")) (CreateComment comment);
  mret comment.

(** *** Queries *)

Definition newer (a b : Approval.t) : Prop := Approval.CreatedAt b <= Approval.CreatedAt a.
#[global] Instance newer_dec : RelDecision newer.
Proof. intros a b. apply Z_le_dec. Defined.

Definition listed (userID status approvalType role : text) (a : Approval.t) : bool :=
  (if text_eqb role (txt "my") && negb (is_empty userID)
   then text_eqb (Approval.ApplicantID a) userID
   else if text_eqb role (txt "approve") && negb (is_empty userID)
   then is_pending a && JSON_CONTAINS (Approval.ApproverIDs a) userID
   else if text_eqb role (txt "all") && negb (is_empty userID)
   then text_eqb (Approval.ApplicantID a) userID || JSON_CONTAINS (Approval.ApproverIDs a) userID
   else true) &&
  (is_empty status || text_eqb (status_text (Approval.Status a)) status) &&
  (is_empty approvalType || text_eqb (Approval.Type_ a) approvalType).

Definition ListApprovals (userID status approvalType role : text) : Http (list Approval.t) :=
  or_fail (λ _, (500, txt "获取审批列表失败"))
    (find (λ db, merge_sort newer (keep (listed userID status approvalType role) (all_approvals db)))).

Definition older (a b : ApprovalComment.t) : Prop :=
  ApprovalComment.CreatedAt a <= ApprovalComment.CreatedAt b.
#[global] Instance older_dec : RelDecision older.
Proof. intros a b. apply Z_le_dec. Defined.

Definition GetApproval (id : text) : Http (Approval.t * list ApprovalComment.t) :=
  approval ← or_fail (λ e, match e with
                           | RecordNotFound => (404, txt "审批不存在")
                           | _ => (500, txt "获取审批详情失败")
                           end) (FindApproval (has_id id));
  comments ← attempt (find (λ db, merge_sort older
    (keep (λ c, text_eqb (ApprovalComment.ApprovalID c) id) (all_comments db))));
  mret (approval, default [] comments).

(** [Count], whose error leaves 0. *)
Definition count (p : Approval.t → bool) : Http Z :=
  n ← attempt (query (λ db, Ok (Z.of_nat (length (keep p (all_approvals db))))));
  mret (default 0 n).

Record ApprovalStats := { Total : Z; Pending : Z; Approved : Z; Rejected : Z }.

Definition stats (p : Approval.t → bool) : Http ApprovalStats :=
  let in_state s a := p a && bool_decide (Approval.Status a = s) in
  total ← count p;
  pending ← count (in_state ApprovalStatusPending);
  approved ← count (in_state ApprovalStatusApproved);
  rejected ← count (in_state ApprovalStatusRejected);
  mret {| Total := total; Pending := pending; Approved := approved; Rejected := rejected |}.

(** The user's figures, when a user is given, and everybody's. *)
Definition GetApprovalStats (userID : text) : Http (option (ApprovalStats * Z) * ApprovalStats) :=
  mine ← (if is_empty userID then mret None
          else my ← stats (λ a, text_eqb (Approval.ApplicantID a) userID);
               toDo ← count (λ a, is_pending a && JSON_CONTAINS (Approval.ApproverIDs a) userID);
               mret (Some (my, toDo)));
  global ← stats (λ _, true);
  mret (mine, global).

(** The searches of the form, by name in order, fifty at most; [like] is the clause. *)
Definition text_le (a b : text) : Prop := text_leb a b = true.
#[global] Instance text_le_dec : RelDecision text_le.
Proof. intros a b. unfold text_le. apply _. Defined.
Definition by_username (a b : User.t) : Prop := text_le (User.Username a) (User.Username b).
#[global] Instance by_username_dec : RelDecision by_username.
Proof. intros a b. apply text_le_dec. Defined.
Definition by_hostname (a b : Host.t) : Prop := text_le (Host.Name a) (Host.Name b).
#[global] Instance by_hostname_dec : RelDecision by_hostname.
Proof. intros a b. apply text_le_dec. Defined.

Definition SearchUsers (like : text → User.t → bool) (keyword : text) : Http (list User.t) :=
  if is_empty keyword then mret []
  else or_fail (λ _, (500, txt "搜索用户失败")) (find (λ db, take 50 (merge_sort by_username
         (keep (λ u, text_eqb (User.Status u) active && like keyword u) (users db))))).

Definition SearchHosts (like : text → Host.t → bool) (keyword : text) : Http (list Host.t) :=
  if is_empty keyword then mret []
  else or_fail (λ _, (500, txt "搜索主机失败")) (find (λ db, take 50 (merge_sort by_hostname
         (keep (like keyword) (hosts db))))).

(** *** Configurations *)

Definition newer_config (a b : ApprovalConfig.t) : Prop :=
  ApprovalConfig.CreatedAt b <= ApprovalConfig.CreatedAt a.
#[global] Instance newer_config_dec : RelDecision newer_config.
Proof. intros a b. apply Z_le_dec. Defined.

Definition GetApprovalConfig : Http (list ApprovalConfig.t) :=
  or_fail (λ _, (500, txt "获取配置失败")) (find (λ db, merge_sort newer_config (all_configs db))).

(** [POST] has no id, [PUT] has one; [valid_json] is [json.Unmarshal]. *)
Definition UpdateApprovalConfig (valid_json : text → bool) (id : text)
    (req : option ApprovalConfig.t) (newID : text) (now : Z) : Request (Z * text) ApprovalConfig.t :=
  req ← bound req;
  if is_empty (ApprovalConfig.Name req) || is_empty (ApprovalConfig.Type_ req)
     || is_empty (ApprovalConfig.AppID req) || is_empty (ApprovalConfig.AppSecret req)
  then refuse (400, txt "配置名称、平台类型、应用ID和应用密钥不能为空")
  else if negb (text_eqb (ApprovalConfig.Type_ req) ApprovalPlatformFeishu)
          && negb (text_eqb (ApprovalConfig.Type_ req) ApprovalPlatformDingTalk)
          && negb (text_eqb (ApprovalConfig.Type_ req) ApprovalPlatformWeChat)
  then refuse (400, txt "不支持的平台类型")
  else if negb (is_empty (ApprovalConfig.FormFields req))
          && negb (valid_json (ApprovalConfig.FormFields req))
  then refuse (400, txt "表单字段格式错误，必须是有效的JSON")
  else if is_empty id then
    let req := ApprovalConfig.set_row req newID now now in
    _ ← need (λ _, (500, txt "创建配置失败")) (CreateConfig req);
    mret req
  else
    existing ← need (λ _, (404, txt "配置不存在")) (FirstConfig (has_config_id id));
    let req := ApprovalConfig.set_row req id (ApprovalConfig.CreatedAt existing) now in
    _ ← need (λ _, (500, txt "更新配置失败")) (SaveConfig req);
    mret req.

Definition DeleteApprovalConfig (id : text) : Request (Z * text) unit :=
  if is_empty id then refuse (400, txt "配置ID不能为空")
  else
    _ ← need (λ e, match e with
                      | RecordNotFound => (404, txt "配置不存在")
                      | _ => (500, txt "查询配置失败")
                      end) (FirstConfig (has_config_id id));
    need (λ _, (500, txt "删除配置失败")) (DeleteConfig id).

(** *** Callbacks *)

Definition has_external (externalID : text) (a : Approval.t) : bool :=
  text_eqb (Approval.ExternalID a) externalID.

(** [HandleCallback] through a provider; the error of [Save] is ignored. *)
Definition HandleCallback (platform : text) (data : option (gmap text json_value)) (now : Z)
    : Request (Z * text) unit :=
  match GetProvider factory platform with
  | None => refuse (400, txt "不支持的审批平台")
  | Some provider =>
      match data with
      | None => refuse (400, txt "回调数据格式错误")
      | Some data =>
          match HandleCallback_ provider data with
          | Err _ => refuse (500, txt "处理回调失败")
          | Ok result =>
              approval ← need (λ _, (404, txt "审批不存在"))
                           (FirstRow (has_external (CallbackResult.ApprovalID result)));
              let status := CallbackResult.Status result in
              let approval := Approval.set_approver (Approval.set_status approval status now)
                                (CallbackResult.ApproverName result) in
              let approval :=
                match status with
                | ApprovalStatusApproved =>
                    Approval.set_approved approval now (CallbackResult.Comment result)
                | ApprovalStatusRejected =>
                    Approval.set_rejected approval now (CallbackResult.Comment result)
                | _ => approval
                end in
              _ ← try_it (SaveRow approval);
              mret ()
          end
      end
  end.
End handlers.

(** ** The callbacks without authentication *)

Module FeishuCallbackRequest.
Record t := { Type_ : text; Challenge : text; EventType : text; InstanceCode : text;
              Status : text; EndTime : Z }.
End FeishuCallbackRequest.

Section callbacks.
Context (err_text : db_error → text).

(** What the three events do: the row of the external id takes the status, and the
    time at which the platform says it was decided. *)
Definition called_back (approval : Approval.t) (status : ApprovalStatus) (finish now : Z)
    : Approval.t :=
  let approval := Approval.set_status approval status now in
  match status with
  | ApprovalStatusApproved => Approval.set_approved approval finish (Approval.ApprovalNote approval)
  | ApprovalStatusRejected => Approval.set_rejected approval finish (Approval.RejectReason approval)
  | _ => approval
  end.

Definition callback_event (externalID : text) (status : ApprovalStatus) (finish now : Z)
    : Request text unit :=
  approval ← need (λ e, txt "未找到对应的审批记录: " ++ err_text e) (FirstRow (has_external externalID));
  need err_text (SaveRow (called_back approval status finish now)).

Definition zero_time : Z := -62135596800 * 10 ^ 9.
Definition unix (seconds : Z) : Z := seconds * 10 ^ 9.

(** [EndTime] in milliseconds. *)
Definition handleFeishuApprovalEvent (req : FeishuCallbackRequest.t) (now : Z) : Request text unit :=
  callback_event (FeishuCallbackRequest.InstanceCode req)
    (mapFeishuStatus (FeishuCallbackRequest.Status req))
    (unix (Z.quot (FeishuCallbackRequest.EndTime req) 1000)) now.

(** [parse_time] is [time.Parse]. *)
Definition handleDingTalkApprovalEvent (parse_time : text → option Z)
    (processInstanceID status finishTime : text) (now : Z) : Request text unit :=
  callback_event processInstanceID (mapDingTalkStatus status)
    (if is_empty finishTime then zero_time else default zero_time (parse_time finishTime)) now.

Definition handleWeChatApprovalEvent (processInstanceID status : text) (finishTime now : Z)
    : Request text unit :=
  callback_event processInstanceID (mapWeChatStatus status)
    (if 0 <? finishTime then unix finishTime else zero_time) now.

(** The answers: the challenge of the platform, or success. *)
Definition answered (event : Request text unit) : Request (Z * text) (option text) :=
  _ ← reworded (λ e, (500, e)) event; mret None.

Definition HandleFeishuCallback (req : option FeishuCallbackRequest.t) (now : Z)
    : Request (Z * text) (option text) :=
  match req with
  | None => refuse (400, txt "Invalid request format")
  | Some req =>
      if text_eqb (FeishuCallbackRequest.Type_ req) (txt "url_verification")
      then mret (Some (FeishuCallbackRequest.Challenge req))
      else if text_eqb (FeishuCallbackRequest.EventType req) (txt "approval_instance")
      then answered (handleFeishuApprovalEvent req now)
      else mret None
  end.

(** Bodies: event, process, status, finish time. *)
Definition HandleDingTalkCallback (parse_time : text → option Z)
    (req : option (text * text * text * text)) (now : Z) : Request (Z * text) (option text) :=
  match req with
  | None => refuse (400, txt "Invalid request format")
  | Some (eventType, process, status, finishTime) =>
      if text_eqb eventType (txt "bpms_task_change") || text_eqb eventType (txt "bpms_instance_change")
      then answered (handleDingTalkApprovalEvent parse_time process status finishTime now)
      else mret None
  end.

Definition HandleWeChatCallback (req : option (text * text * text * Z)) (now : Z)
    : Request (Z * text) (option text) :=
  match req with
  | None => refuse (400, txt "Invalid request format")
  | Some (event, process, status, finishTime) =>
      if text_eqb event (txt "sys_approval_change")
      then answered (handleWeChatApprovalEvent process status finishTime now)
      else mret None
  end.
End callbacks.

(** ** Facts *)

Lemma preserves_reads {E A} R `{!PreOrder R} (m : Eff E A) : reads m → preserves R m.
Proof. intros Hm db f. specialize (Hm db f). simpl in Hm. rewrite <- Hm. reflexivity. Qed.

Lemma least_elem {A} (key : A → text) l x : least key l = Some x → x ∈ l.
Proof.
  revert x. induction l as [|y l IH]; intros x; simpl; [done|].
  destruct (least key l) as [z|]; [|intros [= ->]; left].
  destruct (text_leb _ _); intros [= ->]; [left|right; auto].
Qed.

(** Distinct keys tell the rows apart. *)
Lemma NoDup_key_eq {A K} (key : A → K) (l : list A) x y :
  NoDup (key <$> l) → x ∈ l → y ∈ l → key x = key y → x = y.
Proof.
  induction l as [|z l IH]; simpl; [set_solver|]. intros [Hz HN]%NoDup_cons Hx Hy Hk.
  apply elem_of_cons in Hx as [->|Hx], Hy as [->|Hy]; [done| | |by apply IH].
  - destruct Hz. rewrite Hk. by apply list_elem_of_fmap_2.
  - destruct Hz. rewrite <- Hk. by apply list_elem_of_fmap_2.
Qed.

Lemma updated_keys {A} (key : A → text) (l : list A) (b : A) :
  key <$> (updated (λ c, text_eqb (key c) (key b)) (λ _, b) <$> l) = key <$> l.
Proof.
  rewrite <- list_fmap_compose. apply list_fmap_ext. intros i c _. unfold updated, compose.
  destruct (text_eqb (key c) (key b)) eqn:E; [|done]. by apply text_eqb_true in E.
Qed.

(** ** The server

    The requests in flight, and the tables they share.  A request arrives; one of
    those in flight has its next statement performed, whatever fails in it; or its
    answer is sent. *)
Inductive in_flight := | Running {E A : Type} (r : Request E A).

Record server := { tables : Db; requests : list in_flight }.

Definition idle (db : Db) : server := {| tables := db; requests := [] |}.

Inductive step (arrives : in_flight → Prop) : relation server :=
  | step_arrival db rs r :
      arrives r →
      step arrives {| tables := db; requests := rs |} {| tables := db; requests := rs ++ [r] |}
  | step_statement db rs rs' {E A F B} (s : Statement F B) (k : result F B → Request E A) f x db' f' :
      perform s db f = (x, db', f') →
      step arrives {| tables := db; requests := rs ++ Running (Do s k) :: rs' |}
                   {| tables := db'; requests := rs ++ Running (k x) :: rs' |}
  | step_answer db rs rs' {E A} (r : result E A) :
      step arrives {| tables := db; requests := rs ++ Running (Answer r) :: rs' |}
                   {| tables := db; requests := rs ++ rs' |}.

Section arrivals.
Context `{Crypto} (factory : Factory) (err_text : db_error → text) (valid_json : text → bool)
  (parse_time : text → option Z).

(** The requests of users and administrators that write. *)
Inductive user_request : in_flight → Prop :=
  | user_create req id commentID now :
      user_request (Running (CreateApproval factory req id commentID now))
  | user_approve id req commentID now : user_request (Running (ApproveApproval id req commentID now))
  | user_reject id req commentID now : user_request (Running (RejectApproval id req commentID now))
  | user_cancel id req commentID now :
      user_request (Running (CancelApproval factory id req commentID now))
  | user_comment id req commentID now : user_request (Running (AddComment id req commentID now))
  | user_config id req newID now :
      user_request (Running (UpdateApprovalConfig valid_json id req newID now))
  | user_delete_config id : user_request (Running (DeleteApprovalConfig id)).

(** And what arrives from the platforms. *)
Inductive any_request : in_flight → Prop :=
  | any_user r : user_request r → any_request r
  | any_callback platform data now :
      any_request (Running (HandleCallback factory platform data now))
  | any_feishu req now : any_request (Running (HandleFeishuCallback err_text req now))
  | any_dingtalk req now : any_request (Running (HandleDingTalkCallback err_text parse_time req now))
  | any_wechat req now : any_request (Running (HandleWeChatCallback err_text req now)).

(** A provider reads the tables to fill in a form, and writes nothing. *)
Definition providers_read : Prop :=
  ∀ platform p a, factory !! platform = Some p → reads (CreateApproval_ p a).

(** *** What every statement of the requests satisfies *)

Fixpoint all_statements (P : ∀ F B, Statement F B → Prop) {E A} (r : Request E A) : Prop :=
  match r with
  | Answer _ => True
  | Do s k => P _ _ s ∧ ∀ x, all_statements P (k x)
  end.

Definition row_dated (a : Approval.t) : Prop :=
  match Approval.Status a with
  | ApprovalStatusApproved => is_Some (Approval.ApprovedAt a)
  | ApprovalStatusRejected => is_Some (Approval.RejectedAt a)
  | _ => True
  end.

(** Only the platforms of the factory are asked, and a decision is stored with
    its date. *)
Definition proper {F B} (s : Statement F B) : Prop :=
  match s with
  | CreateRow a | SaveRow a => row_dated a
  | AskPlatform p _ => ∃ platform, factory !! platform = Some p
  | _ => True
  end.

Section all_statements.
Context (P : ∀ F B, Statement F B → Prop).

Lemma all_bind {E A B} (k : A → Request E B) r :
  all_statements P r → (∀ a, all_statements P (k a)) → all_statements P (r ≫= k).
Proof.
  intros Hr Hk. induction r as [[a|e]|F C s k' IH]; [exact (Hk a)|exact I|].
  destruct Hr as [Hs Hx]. split; [done|]. intros x. exact (IH x (Hx x)).
Qed.
Lemma all_need {E F A} (w : F → E) (s : Statement F A) : P _ _ s → all_statements P (need w s).
Proof. by split. Qed.
Lemma all_try {E F A} (s : Statement F A) : P _ _ s → all_statements P (try_it (E := E) s).
Proof. by split. Qed.
Lemma all_reworded {E F A} (w : E → F) (r : Request E A) :
  all_statements P r → all_statements P (reworded w r).
Proof.
  induction r as [x|B C s k IH]; [done|]. intros [Hs Hx]. split; [done|]. intros x. exact (IH x (Hx x)).
Qed.
End all_statements.

Ltac walk :=
  repeat match goal with
  | |- all_statements _ (_ ≫= _) => apply all_bind; [|intros ?]
  | |- all_statements _ (need _ _) => apply all_need
  | |- all_statements _ (try_it _) => apply all_try
  | |- all_statements _ (reworded _ _) => apply all_reworded
  | |- all_statements _ (mret _) => exact I
  | |- all_statements _ (refuse _) => exact I
  | |- all_statements _ (let _ := _ in _) => cbv zeta
  | |- all_statements _ (if ?b then _ else _) => destruct b
  | |- all_statements _ (match ?x with _ => _ end) => destruct x eqn:?
  end.

(** The statements that hold no row, and the rows that are saved. *)
Ltac proper_tac :=
  walk; try exact I;
  try match goal with
  | |- proper (AskPlatform _ _) => eexists; eassumption
  | |- proper (SaveRow _) => unfold proper, row_dated; simpl; solve [eauto]
  end.

Lemma row_pending a : Approval.Status a = ApprovalStatusPending → row_dated a.
Proof. unfold row_dated. by intros ->. Qed.

(** The approvers read from a configuration leave the row pending. *)
Lemma proper_configured {A} a (k : Approval.t → Request _ A) :
  Approval.Status a = ApprovalStatusPending →
  (∀ b, Approval.Status b = ApprovalStatusPending → all_statements (@proper) (k b)) →
  all_statements (@proper) (with_configured_approvers a ≫= k).
Proof.
  intros Ha Hk. split; [exact I|]. intros x. cbn [continue mret request_ret].
  apply Hk. destruct x as [c|]; [|done]. cbv beta iota. destruct (is_empty _); [done|].
  by destruct (json_strings _).
Qed.

Lemma proper_create req id commentID now : all_statements (@proper) (CreateApproval factory req id commentID now).
Proof.
  unfold CreateApproval, bound. apply all_bind; [proper_tac|]. intros r. cbv zeta.
  destruct (_ || _); [proper_tac|]. destruct (text_eqb _ _).
  - apply proper_configured; [done|]. intros b Hb. proper_tac. by apply row_pending.
  - destruct (GetProvider _ _) eqn:?; [|proper_tac]. apply all_bind; [proper_tac|]. intros ext.
    apply proper_configured; [done|]. intros b Hb. proper_tac. by apply row_pending.
Qed.

Lemma proper_callback ext status finish now :
  all_statements (@proper) (callback_event err_text ext status finish now).
Proof. unfold callback_event, called_back. destruct status; proper_tac. Qed.

Definition proper_flight (r : in_flight) : Prop := match r with Running r => all_statements (@proper) r end.

Lemma user_request_proper r : user_request r → proper_flight r.
Proof.
  intros []; simpl; [apply proper_create|..]; unfold ApproveApproval, RejectApproval, CancelApproval,
    AddComment, UpdateApprovalConfig, DeleteApprovalConfig, bound, the_approval; proper_tac.
Qed.

Lemma any_request_proper r : any_request r → proper_flight r.
Proof.
  intros [? ?%user_request_proper|platform data now|req now|req now|req now]; [done|..]; simpl.
  - unfold HandleCallback. destruct (GetProvider _ _) as [p|]; [|proper_tac].
    destruct data as [d|]; [|proper_tac]. destruct (HandleCallback_ p d) as [c|]; [|proper_tac].
    cbv zeta. destruct (CallbackResult.Status c); proper_tac.
  - unfold HandleFeishuCallback, answered, handleFeishuApprovalEvent.
    repeat (proper_tac; try apply proper_callback).
  - unfold HandleDingTalkCallback, answered, handleDingTalkApprovalEvent.
    repeat (proper_tac; try apply proper_callback).
  - unfold HandleWeChatCallback, answered, handleWeChatApprovalEvent.
    repeat (proper_tac; try apply proper_callback).
Qed.

(** What proper statements keep is kept by any interleaving of the requests. *)
Lemma steps_preserve R `{!PreOrder R} w w' :
  (∀ (F B : Type) (s : Statement F B), proper s → preserves R (perform s)) →
  Forall proper_flight (requests w) → rtc (step any_request) w w' → R (tables w) (tables w').
Proof.
  intros HR Hw Hr. induction Hr as [w|w w1 w' Hs _ IH]; [reflexivity|].
  enough (R (tables w) (tables w1) ∧ Forall proper_flight (requests w1)) as [H1 H2]
    by (etransitivity; [exact H1|by apply IH]).
  clear IH. destruct Hs as [db rs r Ha|db rs rs' E A F B s k f x db' f' Hs|db rs rs' E A r]; simpl in *.
  - split; [reflexivity|]. apply Forall_app. split; [done|]. constructor; [|done].
    by apply any_request_proper.
  - apply Forall_app in Hw as [Hrs [[Hp Hk] Hrs']%Forall_cons]. split.
    + by eapply preserves_run; [apply HR|].
    + apply Forall_app. split; [done|]. constructor; [apply Hk|done].
  - apply Forall_app in Hw as [Hrs [_ Hrs']%Forall_cons]. split; [reflexivity|]. by apply Forall_app.
Qed.

(** *** Only the tables of the approvals change *)

Definition workflow_only (db db' : Db) : Prop := ∃ w, db' = set_workflow db w.

#[local] Instance workflow_only_preorder : PreOrder workflow_only.
Proof.
  split.
  - intros db. exists (workflow (aux db)). by destruct db as [????????????[]].
  - intros db1 db2 db3 [w ->] [w' ->]. by exists w'.
Qed.

Lemma perform_frame {F B} (s : Statement F B) :
  providers_read → proper s → preserves workflow_only (perform s).
Proof.
  intros Hp Hs. destruct s; cbn [perform]; try (apply preserves_query, _).
  7: destruct Hs as [platform Hl]; apply preserves_reads; [apply _|by eapply Hp].
  all: apply preserves_execute; [apply _|]; intros db db'; cbv zeta;
    try destruct (existsb _ _); intros [= <-]; by eexists.
Qed.

(** An approval has no effect: whatever is requested, approved, rejected or
    called back, however the requests interleave, every user may use the same
    accounts on the same hosts as before. *)
Theorem approvals_grant_nothing contains_json db w now uid hid sid g :
  providers_read → rtc (step any_request) (idle db) w →
  res (CheckUserHasPermission contains_json now uid hid sid (tables w) g) =
    res (CheckUserHasPermission contains_json now uid hid sid db g) ∧
  res (GetAvailableSystemUsersForUser contains_json now uid hid (tables w) g) =
    res (GetAvailableSystemUsersForUser contains_json now uid hid db g).
Proof.
  intros Hp Hr. assert (workflow_only db (tables w)) as [t ->].
  { apply (steps_preserve workflow_only (idle db)); [|constructor|done]. intros F B s. by apply perform_frame. }
  by destruct g as [|[e|] g].
Qed.

(** *** Decisions bear their date *)

Definition dated_step (db db' : Db) : Prop :=
  Forall row_dated (all_approvals db) → Forall row_dated (all_approvals db').

#[local] Instance dated_preorder : PreOrder dated_step.
Proof. split; [by intros db Hdb|]. intros x y z Hxy Hyz Hx. auto. Qed.

Lemma dated_same db db' : all_approvals db' = all_approvals db → dated_step db db'.
Proof. unfold dated_step. by intros ->. Qed.

Lemma dated_save a : row_dated a → preserves dated_step (save_approval a).
Proof.
  intros Ha. apply preserves_execute; [apply _|]. intros db db' [= <-] Hdb.
  change (all_approvals (set_approvals db ?l)) with l. destruct (existsb _ _).
  - apply Forall_fmap. eapply Forall_impl; [exact Hdb|]. intros b Hb. unfold updated, compose.
    by destruct (text_eqb _ _).
  - apply Forall_app. by split; [|constructor].
Qed.

Lemma dated_create a : row_dated a → preserves dated_step (create_approval a).
Proof.
  intros Ha. apply preserves_execute; [apply _|]. intros db db'. destruct (existsb _ _); intros [= <-].
  intros Hdb. change (all_approvals (set_approvals db ?l)) with l. apply Forall_app. by split; [|constructor].
Qed.

Lemma perform_dated {F B} (s : Statement F B) :
  providers_read → proper s → preserves dated_step (perform s).
Proof.
  intros Hp Hs. destruct s; cbn [perform]; try (apply preserves_query, _).
  - by apply dated_create.
  - by apply dated_save.
  - apply preserves_execute; [apply _|]. intros db db'. destruct (existsb _ _); intros [= <-]. by apply dated_same.
  - apply preserves_execute; [apply _|]. intros db db'. destruct (existsb _ _); intros [= <-]. by apply dated_same.
  - apply preserves_execute; [apply _|]. intros db db' [= <-]. by apply dated_same.
  - apply preserves_execute; [apply _|]. intros db db' [= <-]. by apply dated_same.
  - destruct Hs as [platform Hl]. apply preserves_reads; [apply _|by eapply Hp].
Qed.

(** In every state the requests and the callbacks can reach, however they
    interleave and whichever statements fail, an approval that is approved has the
    date of the approval and one that is rejected that of the rejection. *)
Theorem decisions_dated db w :
  providers_read → rtc (step any_request) (idle db) w →
  Forall row_dated (all_approvals db) → Forall row_dated (all_approvals (tables w)).
Proof.
  intros Hp Hr. apply (steps_preserve dated_step (idle db)); [|constructor|done].
  intros F B s. by apply perform_dated.
Qed.

(** *** What a request keeps of the approvals *)

(** What was asked for, by whom, of whom and until when. *)
Definition request_of (a : Approval.t) :=
  (Approval.ID a, Approval.Title a, Approval.Description a, Approval.Type_ a, Approval.Platform a,
   Approval.ApplicantID a, Approval.ApplicantName a, Approval.ApproverIDs a,
   (Approval.ResourceType a, Approval.ResourceIDs a, Approval.ResourceNames a,
    Approval.Permissions a, Approval.Duration a, Approval.ExpiresAt a, Approval.Reason a),
   (Approval.ExternalID a, Approval.ExternalURL a, Approval.CreatedAt a)).

Lemma request_ID a b : request_of a = request_of b → Approval.ID a = Approval.ID b.
Proof. by injection 1. Qed.

Definition ids_ok (db : Db) : Prop := NoDup (Approval.ID <$> all_approvals db).
Definition decided (a : Approval.t) : Prop := Approval.Status a ≠ ApprovalStatusPending.

(** The row a request is to save next, and the row a statement has read. *)
Definition saved_by {F B} (s : Statement F B) : option Approval.t :=
  match s with SaveRow b => Some b | _ => None end.
Definition saves {E A} (r : Request E A) : option Approval.t :=
  match r with Answer _ => None | Do s _ => saved_by s end.
Definition found {F B} (s : Statement F B) : result F B → option Approval.t :=
  match s in Statement F B return result F B → option Approval.t with
  | FirstRow _ => λ x, match x with Ok c => Some c | Err _ => None end
  | _ => λ _, None
  end.

(** [b] decides the request of [c], which is pending. *)
Definition decides (c b : Approval.t) : Prop :=
  Approval.Status c = ApprovalStatusPending ∧ decided b ∧ request_of b = request_of c.

(** A row is saved only right after it was read and found pending, and decides it. *)
Fixpoint careful {E A} (r : Request E A) : Prop :=
  match r with
  | Answer _ => True
  | Do s k => ∀ x, careful (k x) ∧
      ∀ b, saves (k x) = Some b → ∃ c, found s x = Some c ∧ decides c b
  end.

Definition careful_flight (r : in_flight) : Prop := match r with Running r => careful r end.
Definition about_to_save (r : in_flight) : option Approval.t := match r with Running r => saves r end.

(** The rows the requests in flight are about to save. *)
Definition to_save (w : server) : list Approval.t := omap about_to_save (requests w).

(** Requests that save nothing. *)
Definition no_save {F B} (s : Statement F B) : Prop :=
  match s with SaveRow _ => False | _ => True end.

Lemma no_save_saves {E A} (r : Request E A) : all_statements (@no_save) r → saves r = None.
Proof. destruct r as [|F B s k]; [done|]. intros [Hs _]. by destruct s. Qed.

Lemma no_save_careful {E A} (r : Request E A) : all_statements (@no_save) r → careful r.
Proof.
  induction r as [x|F B s k IH]; [done|]. intros [Hs Hk] x. split; [by apply IH|].
  intros b. by rewrite no_save_saves.
Qed.

Ltac shape := cbn [careful all_statements no_save saves saved_by found continue need try_it refuse map_err mbind
  request_bind mret request_ret bound the_approval].

(** After the read of a decision, which tests the row: it is saved, then commented. *)
Lemma careful_saved {E A} (w : db_error → E) b c (answer : A) :
  careful (_ ← need w (SaveRow b); _ ← try_it (CreateComment c); mret answer).
Proof. intros [[]|e]; shape; split; try done; intros x; shape; by split. Qed.

Lemma decides_pending a b : is_pending a = true → decided b → request_of b = request_of a → decides a b.
Proof. intros Ha Hb Hr. split_and!; [|done..]. by apply bool_decide_eq_true in Ha. Qed.

(** The row read by a decision is tested. *)
Lemma careful_decision {E A} (e : E) (w : db_error → E) a b c (answer : A) :
  decided b → request_of b = request_of a →
  let next := if negb (is_pending a) then refuse e
              else _ ← need w (SaveRow b); _ ← try_it (CreateComment c); mret answer in
  careful next ∧ ∀ b', saves next = Some b' → ∃ c', Some a = Some c' ∧ decides c' b'.
Proof.
  intros Hb Hr. cbv zeta. destruct (is_pending a) eqn:Ha; cbn [negb]; [|by split].
  split; [apply careful_saved|]. shape. intros b' [= <-]. exists a. split; [done|].
  by apply decides_pending.
Qed.

Lemma user_request_careful r :
  user_request r → careful_flight r ∧ about_to_save r = None.
Proof.
  assert (∀ E A (r : Request E A), all_statements (@no_save) r → careful r ∧ saves r = None) as Hno
    by (intros E A r0 Hr0; by split; [apply no_save_careful|apply no_save_saves]).
  intros []; simpl.
  1: apply Hno; unfold CreateApproval, bound, with_configured_approvers; walk; exact I.
  4: apply Hno; unfold AddComment, bound, the_approval; walk; exact I.
  4: apply Hno; unfold UpdateApprovalConfig, bound; walk; exact I.
  4: apply Hno; unfold DeleteApprovalConfig; walk; exact I.
  all: destruct req as [req|]; [|by split]; try (destruct req as [u reason]);
    split; [|reflexivity]; intros [a|e]; [|by split].
  - by apply careful_decision.
  - by apply careful_decision.
  - shape. destruct (negb (text_eqb _ _)); [by split|]. by apply careful_decision.
Qed.

(** What one statement leaves of the rows: each still stands for its request, and
    is the same unless it is the row that is saved. *)
Definition rows_kept (saved : option Approval.t) (l l' : list Approval.t) : Prop :=
  NoDup (Approval.ID <$> l') ∧
  (∀ a, a ∈ l → ∃ a', a' ∈ l' ∧ request_of a' = request_of a) ∧
  (∀ a, a ∈ l → a ∈ l' ∨ ∃ b, saved = Some b ∧ Approval.ID b = Approval.ID a ∧ b ∈ l').

Lemma rows_same saved l : NoDup (Approval.ID <$> l) → rows_kept saved l l.
Proof. intros Hl. split_and!; eauto. Qed.

Lemma rows_created saved l a :
  NoDup (Approval.ID <$> l) → existsb (λ b, text_eqb (Approval.ID b) (Approval.ID a)) l = false →
  rows_kept saved l (l ++ [a]).
Proof.
  intros Hl Hno. split_and!.
  - rewrite fmap_app. apply NoDup_app. split_and!; [done| |apply NoDup_singleton].
    intros id (b & -> & Hb)%list_elem_of_fmap Hid%list_elem_of_singleton.
    rewrite <- not_true_iff_false in Hno. apply Hno, existsb_elem. exists b. split; [done|].
    by apply text_eqb_true.
  - intros b Hb. exists b. split; [|done]. apply elem_of_app. by left.
  - intros b Hb. left. apply elem_of_app. by left.
Qed.

Lemma rows_saved l a b :
  NoDup (Approval.ID <$> l) → a ∈ l → request_of b = request_of a →
  let same := λ c, text_eqb (Approval.ID c) (Approval.ID b) in
  rows_kept (Some b) l (if existsb same l then updated same (λ _, b) <$> l else l ++ [b]).
Proof.
  intros Hl Ha Hr same. pose proof (request_ID _ _ Hr) as Hid.
  replace (existsb same l) with true.
  2: { symmetry. apply existsb_elem. exists a. split; [done|]. by apply text_eqb_true. }
  assert (∀ c, c ∈ l → updated same (λ _, b) c ∈ updated same (λ _, b) <$> l) as Hin
    by (intros c Hc; by apply list_elem_of_fmap_2).
  assert (∀ c, c ∈ l → same c = true → c = a) as Huniq.
  { intros c Hc Hs%text_eqb_true. eapply (NoDup_key_eq Approval.ID); [exact Hl|done..|congruence]. }
  split_and!.
  - unfold same. by rewrite updated_keys.
  - intros c Hc. exists (updated same (λ _, b) c). split; [by apply Hin|]. unfold updated.
    destruct (same c) eqn:E; [|done]. by rewrite (Huniq c Hc E).
  - intros c Hc. specialize (Hin c Hc). unfold updated in Hin at 1. destruct (same c) eqn:E; [|by left].
    right. exists b. split_and!; [done| |done]. by rewrite (Huniq c Hc E).
Qed.

Lemma execute_written (s : Db → result db_error Db) db f x db' f' :
  execute s db f = (x, db', f') → db' = db ∨ s db = Ok db'.
Proof.
  unfold execute. destruct f as [|[e|] f]; try destruct (s db) as [db1|] eqn:Es; intros [= <- <- <-]; auto.
Qed.

Lemma perform_rows {F B} (s : Statement F B) db f x db' f' :
  providers_read → proper s → ids_ok db →
  (∀ b, saved_by s = Some b → ∃ c, c ∈ all_approvals db ∧ request_of c = request_of b) →
  perform s db f = (x, db', f') →
  rows_kept (saved_by s) (all_approvals db) (all_approvals db').
Proof.
  intros Hp Hs Hdb Hsv Hr. pose proof (rows_same (saved_by s) _ Hdb) as Hsame.
  destruct s; cbn [perform] in Hr;
    try (apply execute_written in Hr as [->|Hr]; [done|]); cbv zeta in Hr;
    try (rewrite (reads_run _ _ _ _ _ _ (preserves_query _ _) Hr); exact Hsame).
  - destruct (existsb _ _) eqn:Ex; [discriminate|]. injection Hr as <-. by apply rows_created.
  - injection Hr as <-. destruct (Hsv a eq_refl) as (c & Hc & Hcr). by apply (rows_saved _ c).
  - destruct (existsb _ _); [discriminate|]. by injection Hr as <-.
  - destruct (existsb _ _); [discriminate|]. by injection Hr as <-.
  - by injection Hr as <-.
  - by injection Hr as <-.
  - destruct Hs as [platform Hl]. rewrite (reads_run _ _ _ _ _ _ (Hp _ _ _ Hl) Hr). done.
Qed.

Lemma perform_found {F B} (s : Statement F B) db f x db' f' c :
  perform s db f = (x, db', f') → found s x = Some c → db' = db ∧ c ∈ all_approvals db.
Proof.
  destruct s; try discriminate. cbn [perform found]. unfold FindApproval, First, query.
  destruct f as [|[e|] f]; intros [= <- <- <-]; try discriminate;
    (destruct (least _ _) as [d|] eqn:El; [|discriminate]); intros [= ->];
    by apply least_elem, elem_of_keep in El as [??].
Qed.

(** *** The invariant of the server *)

Record sound (w : server) : Prop := {
  sound_ids : ids_ok (tables w);
  sound_requests : Forall (λ r, proper_flight r ∧ careful_flight r) (requests w);
  sound_saves : ∀ b, b ∈ to_save w →
    decided b ∧ ∃ c, c ∈ all_approvals (tables w) ∧ request_of c = request_of b
}.

Lemma sound_idle db : ids_ok db → sound (idle db).
Proof. intros Hdb. split; [done|constructor|]. intros b Hb. by apply elem_of_nil in Hb. Qed.

Lemma to_save_app db rs rs' b :
  b ∈ to_save {| tables := db; requests := rs ++ rs' |} ↔
  b ∈ omap about_to_save rs ∨ b ∈ omap about_to_save rs'.
Proof. unfold to_save. cbn [requests]. by rewrite omap_app, elem_of_app. Qed.

Lemma to_save_cons r rs b :
  b ∈ omap about_to_save (r :: rs) ↔ about_to_save r = Some b ∨ b ∈ omap about_to_save rs.
Proof.
  cbn. destruct (about_to_save r) as [c|]; [rewrite elem_of_cons|]; naive_solver.
Qed.

(** One step: the rows are kept but for one that was about to be saved, and what is
    about to be saved was so before, or decides a row that is pending. *)
Lemma step_sound w w' :
  providers_read → sound w → step user_request w w' →
  ids_ok (tables w') ∧ Forall (λ r, proper_flight r ∧ careful_flight r) (requests w') ∧
  (∃ saved, rows_kept saved (all_approvals (tables w)) (all_approvals (tables w')) ∧
            ∀ b, saved = Some b → b ∈ to_save w) ∧
  ∀ b, b ∈ to_save w' → b ∈ to_save w ∨ ∃ c, c ∈ all_approvals (tables w') ∧ decides c b.
Proof.
  intros Hp [Hids Hrs Hsv] Hs.
  destruct Hs as [db rs r Ha|db rs rs' E A F B s k f x db' f' Hs|db rs rs' E A r];
    cbn [tables requests] in *.
  - pose proof (user_request_careful r Ha) as [Hc Hn]. split_and!; [done| | |].
    + apply Forall_app. split; [done|]. constructor; [|done]. split; [by apply user_request_proper|done].
    + exists None. split; [by apply rows_same|done].
    + intros b [Hb|[Hb|Hb]%to_save_cons]%to_save_app; [by left|congruence|by apply elem_of_nil in Hb].
  - apply Forall_app in Hrs as [Hrs [[[Hpr Hpk] Hc] Hrs']%Forall_cons].
    destruct (Hc x) as [Hck Hcs]. assert (rows_kept (saved_by s) (all_approvals db) (all_approvals db')) as Hk.
    { eapply perform_rows; [done..| |exact Hs]. intros b Hb.
      apply Hsv, to_save_app. right. apply to_save_cons. by left. }
    split_and!; [apply Hk| | |].
    + apply Forall_app. split; [done|]. constructor; [split; [apply Hpk|done]|done].
    + exists (saved_by s). split; [done|]. intros b Hb. apply to_save_app. right. apply to_save_cons. by left.
    + intros b [Hb|[Hb|Hb]%to_save_cons]%to_save_app.
      * left. apply to_save_app. by left.
      * destruct (Hcs b Hb) as (c & Hf & Hd). right. exists c. split; [|done].
        by destruct (perform_found _ _ _ _ _ _ _ Hs Hf) as [-> ?].
      * left. apply to_save_app. right. apply to_save_cons. by right.
  - apply Forall_app in Hrs as [Hrs [_ Hrs']%Forall_cons]. split_and!; [done|by apply Forall_app| |].
    + exists None. split; [by apply rows_same|done].
    + intros b [Hb|Hb]%to_save_app; left; apply to_save_app; [by left|]. right. apply to_save_cons. by right.
Qed.

Lemma step_keeps_sound w w' : providers_read → sound w → step user_request w w' → sound w'.
Proof.
  intros Hp Hw Hs. destruct (step_sound w w' Hp Hw Hs) as (Hids & Hrs & (sv & (_ & Hreq & _) & _) & Hsv).
  split; [done..|]. intros b [Hb|(c & Hc & _ & Hd & Hr)]%Hsv; [|eauto].
  destruct (sound_saves w Hw b Hb) as (Hd & c & Hc & Hr). destruct (Hreq c Hc) as (c' & Hc' & Hr').
  split; [done|]. exists c'. split; [done|congruence].
Qed.

Lemma run_sound w w' : providers_read → sound w → rtc (step user_request) w w' → sound w'.
Proof. intros Hp Hw Hr. induction Hr; [done|]. eauto using step_keeps_sound. Qed.

Lemma run_requests w w' a :
  providers_read → sound w → rtc (step user_request) w w' → a ∈ all_approvals (tables w) →
  ∃ a', a' ∈ all_approvals (tables w') ∧ request_of a' = request_of a.
Proof.
  intros Hp Hw Hr. revert a Hw. induction Hr as [w|w w1 w' Hs Hr IH]; intros a Hw Ha; [eauto|].
  destruct (step_sound w w1 Hp Hw Hs) as (_ & _ & (sv & (_ & Hreq & _) & _) & _).
  destruct (Hreq a Ha) as (a1 & Ha1 & Hr1). destruct (IH a1) as (a' & Ha' & Hr'); [|done|].
  - by eapply step_keeps_sound.
  - exists a'. split; [done|congruence].
Qed.

(** The rows of one approval that may still be stored, once it is decided. *)
Lemma run_decided w w' a :
  providers_read → sound w → rtc (step user_request) w w' →
  ∀ S : list Approval.t,
    (∀ b, b ∈ S → decided b ∧ Approval.ID b = Approval.ID a) →
    (∃ c, c ∈ S ∧ c ∈ all_approvals (tables w)) →
    (∀ b, b ∈ to_save w → Approval.ID b = Approval.ID a → b ∈ S) →
    ∃ c, c ∈ S ∧ c ∈ all_approvals (tables w').
Proof.
  intros Hp Hw Hr S HS. revert Hw. induction Hr as [w|w w1 w' Hs Hr IH]; intros Hw Hin Hsv; [done|].
  pose proof (step_keeps_sound w w1 Hp Hw Hs) as Hw1.
  destruct (step_sound w w1 Hp Hw Hs) as (_ & _ & (sv & (_ & _ & Hsame) & Hsaved) & Hsv1).
  assert (∃ c, c ∈ S ∧ c ∈ all_approvals (tables w1)) as Hin1.
  { destruct Hin as (c & Hc & Hcw). destruct (Hsame c Hcw) as [?|(b & Hb & Hid & Hbw)]; [eauto|].
    exists b. split; [|done]. apply Hsv; [by apply Hsaved|]. rewrite Hid. by apply HS. }
  apply IH; [done..|]. intros b [Hb|(c & Hc & Hpend & _ & Hreq)]%Hsv1 Hid; [by apply Hsv|].
  exfalso. destruct Hin1 as (d & Hd & Hdw). destruct (HS d Hd) as [Hdec Hdid].
  assert (c = d) as ->; [|by apply Hdec].
  eapply (NoDup_key_eq Approval.ID); [apply (sound_ids w1 Hw1)|done..|].
  apply request_ID in Hreq. congruence.
Qed.

(** C37: Decisions, statement by statement.  The requests of users and
    administrators run at the same time, the statements of each interleaved with
    those of the others in any order, any of them failing (the ids are the key of
    the table, and a platform that is asked writes nothing in it).  No approval is lost or
    altered in what it asks for, by whom and until when; and once an approval has
    been approved, rejected or cancelled, its row stays exactly as it is, unless a
    request in flight at that moment had read it while it was pending and is about
    to save its own decision of it: then the row is this one or one of those.  With
    no such request the decision is final. *)
Theorem decided_once db w w' a :
  providers_read → ids_ok db →
  rtc (step user_request) (idle db) w → rtc (step user_request) w w' →
  a ∈ all_approvals (tables w) →
  (∃ a', a' ∈ all_approvals (tables w') ∧ request_of a' = request_of a) ∧
  (decided a →
   ∃ a', a' ∈ all_approvals (tables w') ∧
         (a' = a ∨ a' ∈ to_save w ∧ decided a' ∧ request_of a' = request_of a)).
Proof.
  intros Hp Hdb H0 Hr Ha. pose proof (run_sound _ _ Hp (sound_idle db Hdb) H0) as Hw.
  split; [by eapply run_requests|]. intros Hd.
  destruct (run_decided w w' a Hp Hw Hr
    (a :: filter (λ b, Approval.ID b = Approval.ID a) (to_save w))) as (c & [->|Hc]%elem_of_cons & Hcw).
  - intros b [->|[Hid Hb]%list_elem_of_filter]%elem_of_cons; [done|]. split; [|done].
    by apply (sound_saves w Hw).
  - exists a. split; [left|done].
  - intros b Hb Hid. right. by apply list_elem_of_filter.
  - eauto.
  - apply list_elem_of_filter in Hc as [Hid Hc]. exists c. split; [done|]. right.
    destruct (sound_saves w Hw c Hc) as (Hdc & e & He & Hre). split_and!; [done..|]. rewrite <- Hre. f_equal.
    eapply (NoDup_key_eq Approval.ID); [apply (sound_ids w Hw)|done..|].
    apply request_ID in Hre. congruence.
Qed.
End arrivals.

(** A request nobody interleaves. *)
Lemma alone_steps arrives rs {E A} (r : Request E A) db f :
  rtc (step arrives) {| tables := db; requests := rs ++ [Running r] |}
    {| tables := after (alone r db f); requests := rs |}.
Proof.
  revert db f. induction r as [x|F B s k IH]; intros db f; cbn [alone].
  - eapply rtc_once. pose proof (step_answer arrives db rs [] x) as Hs. by rewrite app_nil_r in Hs.
  - destruct (perform s db f) as [[x db1] f1] eqn:Es.
    eapply rtc_l; [exact (step_statement arrives db rs [] s k f x db1 f1 Es)|apply IH].
Qed.

Lemma run_alone (arrives : in_flight → Prop) {E A} (r : Request E A) rs db f :
  arrives (Running r) →
  rtc (step arrives) {| tables := db; requests := rs |} {| tables := after (alone r db f); requests := rs |}.
Proof. intros Ha. eapply rtc_l; [by apply step_arrival|apply alone_steps]. Qed.

(** A schedule: whose turn it is, nothing failing. *)
Definition advance (w : server) (n : nat) : server :=
  match requests w !! n with
  | Some (Running (Do s k)) =>
      let '(x, db, _) := perform s (tables w) [] in
      {| tables := db; requests := <[n := Running (k x)]> (requests w) |}
  | _ => w
  end.
Definition play (schedule : list nat) (w : server) : server := foldl advance w schedule.

Lemma play_steps arrives schedule w : rtc (step arrives) w (play schedule w).
Proof.
  revert w. induction schedule as [|n schedule IH]; intros w; [done|]. etransitivity; [|apply IH].
  unfold advance. destruct (requests w !! n) as [[E A [x|F B s k]]|] eqn:El; [done| |done].
  destruct (perform s (tables w) []) as [[x db'] f'] eqn:Es. apply rtc_once.
  destruct w as [db rs]. cbn [requests tables] in *.
  rewrite <- (take_drop_middle rs n _ El) at 1.
  rewrite insert_take_drop by (by eapply lookup_lt_Some). by eapply step_statement.
Qed.
(** ** What decides, and until when *)

Section decisions.
Context (err_text : db_error → text).

Lemma First_run {A} (key : A → text) q db x :
  least key (q db) = Some x → First key q db [] = (Ok x, db, []).
Proof. intros Hx. unfold First, query. by rewrite Hx. Qed.

Lemma saved_in db a b :
  a ∈ all_approvals db → Approval.ID b = Approval.ID a →
  b ∈ all_approvals (after (save_approval b db [])).
Proof.
  intros Ha Hid. unfold after, save_approval, execute. simpl.
  replace (existsb _ _) with true.
  2: { symmetry. apply existsb_elem. exists a. split; [done|]. by apply text_eqb_true. }
  change (all_approvals (set_approvals db ?l)) with l. apply list_elem_of_fmap. exists a.
  split; [|done]. unfold updated. by rewrite Hid, text_eqb_refl.
Qed.

(** Whoever reaches the server decides: an event that bears the external id of
    an approval, and nothing else, gives it the status it names, whatever state
    the approval was in; the approvals of the internal system, whose external id
    is empty, are decided by an event without one. *)
Theorem callback_decides req now db a :
  FeishuCallbackRequest.Type_ req ≠ txt "url_verification" →
  FeishuCallbackRequest.EventType req = txt "approval_instance" →
  least Approval.ID (keep (λ b, text_eqb (Approval.ExternalID b)
    (FeishuCallbackRequest.InstanceCode req)) (all_approvals db)) = Some a →
  ∃ db', alone (HandleFeishuCallback err_text (Some req) now) db [] = (Ok None, db', []) ∧
    ∃ a', a' ∈ all_approvals db' ∧ request_of a' = request_of a ∧
          Approval.Status a' = mapFeishuStatus (FeishuCallbackRequest.Status req).
Proof.
  intros Ht He Hl. unfold HandleFeishuCallback, answered, handleFeishuApprovalEvent, callback_event.
  destruct (text_eqb _ (txt "url_verification")) eqn:E; [by apply text_eqb_true in E|].
  rewrite He, text_eqb_refl. set (status := mapFeishuStatus _). set (finish := unix _).
  set (b := called_back a status finish now). exists (after (save_approval b db [])). split.
  - cbn [alone continue reworded need mbind request_bind perform].
    unfold FindApproval, has_external. rewrite (First_run _ _ _ a) by done. done.
  - exists b. assert (request_of b = request_of a) as Hr by (unfold b, called_back; by destruct status).
    split_and!; [|done|unfold b, called_back; by destruct status].
    apply (saved_in _ a); [|by injection Hr]. by apply least_elem, elem_of_keep in Hl as [? _].
Qed.

(** The date until which access is asked for is the time of the request and
    the hours asked for, for every number of hours a duration can hold; beyond
    292 years the product wraps around. *)
Theorem expiry_of_request req id now :
  0 < Approval.Duration req <= 2562047 →
  Approval.ExpiresAt (created req id now) = Some (now + Approval.Duration req * hour) ∧
  Approval.Status (created req id now) = ApprovalStatusPending.
Proof.
  intros [H0 H1]. unfold created. cbn [Approval.ExpiresAt Approval.Status Approval.set_created].
  rewrite (proj2 (Z.ltb_lt _ _) H0). split; [|done]. do 2 f_equal. unfold wrap64, hour.
  rewrite Z.mod_small; lia.
Qed.

(** Whoever is signed in may approve: the list of approvers is not consulted, and
    the approver is who the request says. *)
Lemma anyone_approves id req commentID now db a :
  least Approval.ID (keep (λ b, text_eqb (Approval.ID b) id) (all_approvals db)) = Some a →
  Approval.Status a = ApprovalStatusPending →
  ∃ db', alone (ApproveApproval id (Some req) commentID now) db []
    = (Ok (approved_row a (DecisionRequest.ApproverName req) (DecisionRequest.Comment req) now), db', []).
Proof.
  intros Hl Hs. unfold ApproveApproval, the_approval.
  cbn [alone bound continue reworded need try_it mbind request_bind mret request_ret perform].
  unfold FindApproval, has_id. rewrite (First_run _ _ _ a) by done. cbn [map_err continue].
  unfold is_pending. rewrite bool_decide_eq_true_2 by done. cbn [negb continue alone perform].
  set (b := approved_row _ _ _ _).
  change (save_approval b db []) with (Ok () : result db_error unit, after (save_approval b db []), [] : faults).
  cbv iota beta. cbn [map_err continue alone perform]. unfold create_comment, execute.
  destruct (existsb _ _); eexists; reflexivity.
Qed.
End decisions.

(** ** Concrete runs *)

Lemma reads_resource_lines like names : reads (resource_lines like names).
Proof. induction names; simpl; unfold getHostIPByName; preserves_tac. Qed.
#[local] Hint Resolve reads_resource_lines : reads.

Lemma reads_form_value like a field : reads (form_value like a field).
Proof. unfold form_value. cbv zeta. preserves_tac. Qed.
#[local] Hint Resolve reads_form_value : reads.

Lemma reads_form_items like a fields : reads (form_items like a fields).
Proof. induction fields; simpl; preserves_tac. Qed.
#[local] Hint Resolve reads_form_items : reads.

Lemma reads_feishu_create like json_fields token post c a :
  reads (feishu_create like json_fields token post c a).
Proof. unfold feishu_create, buildFormContent. preserves_tac. Qed.

(** A platform that gives every request the number F1. *)
Definition sample_config : ApprovalConfig.t :=
  {| ApprovalConfig.ID := txt "c1"; ApprovalConfig.Name := txt "feishu";
     ApprovalConfig.Type_ := ApprovalPlatformFeishu; ApprovalConfig.Enabled := true;
     ApprovalConfig.AppID := txt "app"; ApprovalConfig.AppSecret := txt "secret";
     ApprovalConfig.ApprovalCode := txt "code"; ApprovalConfig.ProcessCode := [];
     ApprovalConfig.TemplateID := []; ApprovalConfig.FormFields := txt "[..]";
     ApprovalConfig.ApproverUserIDs := []; ApprovalConfig.APIBaseURL := [];
     ApprovalConfig.APIPath := []; ApprovalConfig.APIPathGet := [];
     ApprovalConfig.APIPathCancel := []; ApprovalConfig.CallbackURL := [];
     ApprovalConfig.CreatedAt := 0; ApprovalConfig.UpdatedAt := 0 |}.

Definition sample_provider : Provider :=
  {| CreateApproval_ := feishu_create (λ _ _, false) (λ _, Some []) (Ok (txt "t"))
                          (λ _ _ _ _, Ok (txt "F1")) sample_config;
     CancelApproval_ _ := Ok ();
     HandleCallback_ := feishu_callback |}.
Definition sample_factory : Factory := Register ∅ ApprovalPlatformFeishu sample_provider.

Lemma sample_providers_read : providers_read sample_factory.
Proof.
  intros platform p a. unfold sample_factory, Register.
  intros [[<- <-]|[_ Hp]]%lookup_insert_Some; [apply reads_feishu_create|].
  by rewrite lookup_empty in Hp.
Qed.

Definition sample_request (platform : text) (hours : Z) : Approval.t :=
  {| Approval.ID := []; Approval.Title := txt "root on db1"; Approval.Description := [];
     Approval.Type_ := ApprovalTypeHostAccess; Approval.Status := ApprovalStatusPending;
     Approval.Platform := platform; Approval.ApplicantID := txt "u1";
     Approval.ApplicantName := txt "bob"; Approval.ApproverIDs := [txt "boss"];
     Approval.CurrentApprover := []; Approval.ResourceType := txt "host";
     Approval.ResourceIDs := [txt "h1"]; Approval.ResourceNames := [txt "db1"];
     Approval.Permissions := []; Approval.Duration := hours; Approval.ExpiresAt := None;
     Approval.Reason := []; Approval.ApprovalNote := []; Approval.RejectReason := [];
     Approval.ExternalID := []; Approval.ExternalURL := []; Approval.CreatedAt := 0;
     Approval.UpdatedAt := 0; Approval.ApprovedAt := None; Approval.RejectedAt := None |}.

Definition by_boss (note : text) : option DecisionRequest.t :=
  Some {| DecisionRequest.ApproverID := txt "boss"; DecisionRequest.ApproverName := txt "Boss";
          DecisionRequest.Comment := note |}.

(** An internal request, pending, then rejected. *)
Definition asked_db : Db :=
  after (alone (CreateApproval sample_factory (Some (sample_request [] 8)) (txt "a1") (txt "m1") 5)
    empty_db []).
Definition refused_db : Db :=
  after (alone (RejectApproval (txt "a1") (by_boss (txt "no")) (txt "m2") 6) asked_db []).
Definition refused_row : Approval.t :=
  rejected_row (created (sample_request [] 8) (txt "a1") 5) (txt "Boss") (txt "no") 6.

Definition forged (instance : text) : FeishuCallbackRequest.t :=
  {| FeishuCallbackRequest.Type_ := []; FeishuCallbackRequest.Challenge := [];
     FeishuCallbackRequest.EventType := txt "approval_instance";
     FeishuCallbackRequest.InstanceCode := instance;
     FeishuCallbackRequest.Status := txt "APPROVED"; FeishuCallbackRequest.EndTime := 7000 |}.

(** A request to the platform gets its number, and its link. *)
Example external_request :
  Approval.ExternalURL <$> all_approvals (after (alone (CreateApproval sample_factory
    (Some (sample_request ApprovalPlatformFeishu 8)) (txt "a2") (txt "m1") 5) empty_db []))
  = [txt "https://www.feishu.cn/approval/instance/F1"].
Proof. vm_compute. reflexivity. Qed.

(** A duration of 292 years and some hours ends before it starts. *)
Example expiry_wraps :
  Approval.ExpiresAt (created (sample_request [] 2562048) (txt "a1") 0)
    = Some (2562048 * hour - 2 ^ 64).
Proof. vm_compute. reflexivity. Qed.

(** Two decisions at once: the row read before the refusal is saved after it, both
    succeed, and the refusal is gone. *)
Definition two_decisions : server :=
  {| tables := asked_db;
     requests := [Running (RejectApproval (txt "a1") (by_boss (txt "no")) (txt "m2") 6);
                  Running (ApproveApproval (txt "a1") (by_boss (txt "yes")) (txt "m3") 7)] |}.

Example refusal_overwritten :
  let refused := play [0; 1; 0]%nat two_decisions in
  let both := play [0; 1; 0; 1; 0; 1]%nat two_decisions in
  all_approvals (tables refused) = [refused_row] ∧
  Approval.Status <$> all_approvals (tables both) = [ApprovalStatusApproved] ∧
  Approval.RejectReason <$> all_approvals (tables both) = [[]] ∧
  ApprovalComment.Action <$> all_comments (tables both) = [txt "reject"; txt "approve"].
Proof. vm_compute. done. Qed.

Lemma sample_run arrives :
  arrives (Running (CreateApproval sample_factory (Some (sample_request [] 8)) (txt "a1") (txt "m1") 5)) →
  arrives (Running (RejectApproval (txt "a1") (by_boss (txt "no")) (txt "m2") 6)) →
  rtc (step arrives) (idle empty_db) (idle refused_db).
Proof.
  intros Hc Hr. transitivity (idle asked_db).
  - exact (run_alone arrives _ [] empty_db [] Hc).
  - exact (run_alone arrives _ [] asked_db [] Hr).
Qed.

Lemma approvals_grant_nothing_witness :
  res (CheckUserHasPermission (λ _ _, false) 0 (txt "u1") (txt "h1") (txt "s1")
         (tables (idle refused_db)) []) = Ok false.
Proof.
  destruct (approvals_grant_nothing sample_factory (λ _, []) (λ _, true) (λ _, None) (λ _ _, false)
    empty_db (idle refused_db) 0 (txt "u1") (txt "h1") (txt "s1") []) as [H _].
  - apply sample_providers_read.
  - apply sample_run; apply any_user; [apply user_create|apply user_reject].
  - rewrite H. vm_compute. reflexivity.
Defined.

(** A refusal nobody else was deciding on, then an attempt to approve. *)
Lemma decided_once_witness :
  Approval.Status refused_row = ApprovalStatusRejected ∧
  refused_row ∈ all_approvals (tables (idle (after
    (alone (ApproveApproval (txt "a1") (by_boss []) (txt "m3") 7) refused_db [])))).
Proof.
  split; [reflexivity|].
  destruct (decided_once sample_factory (λ _, true) empty_db (idle refused_db)
    (idle (after (alone (ApproveApproval (txt "a1") (by_boss []) (txt "m3") 7) refused_db [])))
    refused_row) as [_ Hk].
  - apply sample_providers_read.
  - constructor.
  - apply sample_run; [apply user_create|apply user_reject].
  - apply (run_alone _ (ApproveApproval (txt "a1") (by_boss []) (txt "m3") 7) [] refused_db []).
    apply user_approve.
  - vm_compute. left.
  - destruct Hk as (a' & Ha & [->|[Hn _]]); [discriminate|exact Ha|].
    unfold to_save in Hn. cbn [requests idle omap list_omap] in Hn. by apply elem_of_nil in Hn.
Defined.

Lemma decisions_dated_witness :
  Forall row_dated (all_approvals (tables (idle (after
    (alone (HandleFeishuCallback (λ _, []) (Some (forged [])) 9) asked_db []))))).
Proof.
  apply (decisions_dated sample_factory (λ _, []) (λ _, true) (λ _, None) asked_db
    (idle (after (alone (HandleFeishuCallback (λ _, []) (Some (forged [])) 9) asked_db [])))).
  - apply sample_providers_read.
  - apply (run_alone _ (HandleFeishuCallback (λ _, []) (Some (forged [])) 9) [] asked_db []).
    apply any_feishu.
  - vm_compute. repeat constructor.
Defined.

(** The refusal of an internal request is turned into an approval by an event
    without an instance. *)
Lemma callback_decides_witness :
  ∃ a', a' ∈ all_approvals (after (alone (HandleFeishuCallback (λ _, []) (Some (forged [])) 9)
                               refused_db [])) ∧
        Approval.Status a' = ApprovalStatusApproved.
Proof.
  destruct (callback_decides (λ _, []) (forged []) 9 refused_db refused_row) as (db' & Hr & a' & Ha & _ & Hs).
  - done.
  - reflexivity.
  - vm_compute. reflexivity.
  - exists a'. rewrite Hr. split; [exact Ha|exact Hs].
Defined.

Lemma expiry_of_request_witness :
  Approval.ExpiresAt (created (sample_request [] 8) (txt "a1") 5) = Some (5 + 8 * hour).
Proof. apply (expiry_of_request (sample_request [] 8)). vm_compute. split; [reflexivity|discriminate]. Defined.
