(* ===== verification/SshAuth.v ===== *)
(** * Authentication of SSH connections

    [internal/sshserver/auth] (the older [ServiceAuthenticator], and the
    [AuthManager] with its handlers that the program starts) and the part of
    [internal/sshserver/server/server.go] that accepts a connection, asks for the
    second factor and keeps the table of sessions.  A key is its marshalled form;
    [ssh.ParseAuthorizedKey] is library code, an argument.  A function that calls
    the authentication service runs statements, so it is a computation that
    returns its own error and the new state of the authenticator. *)

From stdpp Require Import base list strings gmap relations.
From Stdlib Require Import ZArith Lia.
From S2P Require Import Prelude GoStrings Gorm Models Database Repositories Permissions Accounts Auth.
Local Open Scope Z_scope.

(** ** The record of attempts *)

Module Attempt.
Record t := { method : text; timestamp : Z; rejected : bool; shouldTerminate : bool; failed : bool }.
End Attempt.

(** [map[string][]authAttempt], by remote address. *)
Notation Attempts := (gmap text (list Attempt.t)).

(** The attempts of an address, none when the key is missing. *)
Definition attempts_of (a : Attempts) (clientIP : text) : list Attempt.t := default [] (a !! clientIP).

Definition recordAttemptWithTerminate (a : Attempts) (clientIP method : text)
    (rejected shouldTerminate failed : bool) (now : Z) : Attempts :=
  <[clientIP := attempts_of a clientIP ++
     [{| Attempt.method := method; Attempt.timestamp := now; Attempt.rejected := rejected;
         Attempt.shouldTerminate := shouldTerminate; Attempt.failed := failed |}]]> a.

(** The method of the first rejected attempt. *)
Definition hasRejectedAttempt (a : Attempts) (clientIP : text) : option text :=
  first_some (λ t, if Attempt.rejected t then Some (Attempt.method t) else None)
    (attempts_of a clientIP).

Definition ShouldTerminateConnection (a : Attempts) (clientIP : text) : bool :=
  existsb Attempt.shouldTerminate (attempts_of a clientIP).

Definition counts (t : Attempt.t) : bool := Attempt.failed t || Attempt.rejected t.

Definition HasExceededMaxAttempts (a : Attempts) (clientIP : text) (maxAttempts : nat) : bool :=
  (maxAttempts <=? length (keep counts (attempts_of a clientIP)))%nat.

Definition clearAttempts (a : Attempts) (clientIP : text) : Attempts := delete clientIP a.

Definition five_minutes : Z := 300.

(** The last attempt is over five minutes old. *)
Definition stale (now : Z) (l : list Attempt.t) : bool :=
  match last l with Some t => five_minutes <? now - Attempt.timestamp t | None => false end.

(** One tick of [cleanupExpiredAttempts]. *)
Definition cleanupExpiredAttempts (a : Attempts) (now : Z) : Attempts :=
  filter (λ kv, stale now kv.2 = false) a.

Module AuthResult.
Record t := { Success : bool; UserID : text; Message : text; RequiresTwoFactor : bool }.
End AuthResult.

Definition accepted (id message : text) (needsFactor : bool) : AuthResult.t :=
  {| AuthResult.Success := true; AuthResult.UserID := id; AuthResult.Message := message;
     AuthResult.RequiresTwoFactor := needsFactor |}.

Definition ssh_request (username password : text) : LoginRequest.t :=
  {| LoginRequest.Username := username; LoginRequest.Password := password;
     LoginRequest.TwoFactorCode := []; LoginRequest.BackupCode := [] |}.

(** ** The authenticator that keeps every attempt *)

Module ServiceAuthenticator.
Section authenticator.
Context `{Crypto} (err_text : db_error → text) (ParseAuthorizedKey : text → result text text).

Definition pw : text := txt "password".

Definition AuthenticatePassword (a : Attempts) (username password clientIP id : text) (now : Z)
    : Eff text (result text AuthResult.t * Attempts) :=
  if HasExceededMaxAttempts a clientIP 3 then mret (Err (txt "too many authentication failures"), a)
  else if ShouldTerminateConnection a clientIP
  then mret (Err (txt "authentication method not allowed"), a)
  else
    user ← caught (FindUserByUsername username);
    match user with
    | Err _ =>
        mret (Err (txt "user not found"), recordAttemptWithTerminate a clientIP pw true false true now)
    | Ok user =>
        if text_eqb (User.AuthMethod user) publickey
        then mret (Err (txt "authentication method not allowed"),
                   recordAttemptWithTerminate a clientIP pw true true true now)
        else
          let a := match hasRejectedAttempt a clientIP with
                   | Some m => if text_eqb m publickey then clearAttempts a clientIP else a
                   | None => a
                   end in
          resp ← caught (Login err_text (ssh_request username password) id clientIP
                           (txt "SSH-Client") now);
          match resp with
          | Err _ => mret (Err (txt "password verification failed: invalid password"),
                           recordAttemptWithTerminate a clientIP pw false false true now)
          | Ok resp =>
              let uid := User.ID (LoginResponse.User_ resp) in
              if LoginResponse.RequiresTwoFactor resp
              then mret (Ok (accepted uid (txt "Password authentication successful, MFA required") true), a)
              else mret (Ok (accepted uid (txt "Authentication successful") false),
                         clearAttempts a clientIP)
          end
    end.

Definition AuthenticatePublicKey (a : Attempts) (username key clientIP : text) (now : Z)
    : Eff text (result text AuthResult.t * Attempts) :=
  let reject terminate := recordAttemptWithTerminate a clientIP publickey true terminate true now in
  if HasExceededMaxAttempts a clientIP 3 then mret (Err (txt "too many authentication failures"), a)
  else
    user ← caught (FindUserByUsername username);
    match user with
    | Err _ => mret (Err (txt "user not found"), reject false)
    | Ok user =>
        if text_eqb (User.AuthMethod user) pw
        then mret (Err (txt "public key authentication is disabled for this user, only password authentication is allowed"),
                   reject false)
        else
          stored ← caught (GetUserPublicKey err_text username);
          match stored with
          | Err e => mret (Err (txt "failed to get user public key: " ++ e), reject false)
          | Ok stored =>
              match ParseAuthorizedKey stored with
              | Err e => mret (Err (txt "invalid public key format: " ++ e), reject false)
              | Ok userPublicKey =>
                  if negb (text_eqb key userPublicKey)
                  then mret (Err (txt "public key does not match"), reject true)
                  else if negb (text_eqb (User.Status user) active)
                  then mret (Err (txt "user account is not active"), reject false)
                  else if User.TwoFactorEnabled user
                  then mret (Ok (accepted (User.ID user)
                                   (txt "Public key authentication successful, MFA required") true), a)
                  else mret (Ok (accepted (User.ID user) (txt "Authentication successful") false),
                             clearAttempts a clientIP)
              end
          end
    end.
End authenticator.
End ServiceAuthenticator.

(** ** The manager and its handlers *)

Module AuthManager.
(** The handlers of [handler.go]; each has a name. *)
Inductive AuthHandler := PasswordHandler | PublicKeyHandler | MFAHandler.

Definition GetName (h : AuthHandler) : text :=
  match h with
  | PasswordHandler => txt "password"
  | PublicKeyHandler => txt "publickey"
  | MFAHandler => txt "mfa"
  end.

(** [credential interface{}]. *)
Inductive credential := Secret (s : text) | PublicKey (key : text).

Record t := {
  handlers : list AuthHandler;
  attempts : Attempts;  (* of the password handler *)
  failedPubkeyAttempts : gset text
}.

Definition with_attempts (m : t) (a : Attempts) : t :=
  {| handlers := handlers m; attempts := a; failedPubkeyAttempts := failedPubkeyAttempts m |}.
Definition with_failed (m : t) (s : gset text) : t :=
  {| handlers := handlers m; attempts := attempts m; failedPubkeyAttempts := s |}.

Definition RegisterHandler (m : t) (h : AuthHandler) : t :=
  {| handlers := handlers m ++ [h]; attempts := attempts m;
     failedPubkeyAttempts := failedPubkeyAttempts m |}.

Definition NewAuthManager : t :=
  RegisterHandler (RegisterHandler (RegisterHandler
    {| handlers := []; attempts := ∅; failedPubkeyAttempts := ∅ |}
    PasswordHandler) PublicKeyHandler) MFAHandler.

(** One tick of [cleanupFailedAttempts]. *)
Definition cleanupFailedAttempts (m : t) : t := with_failed m ∅.

(** The loop over the handlers stops at the first of the name. *)
Definition handler_named (m : t) (name : text) : option AuthHandler :=
  head (keep (λ h, text_eqb (GetName h) name) (handlers m)).

Section manager.
Context `{Crypto} (err_text : db_error → text) (ParseAuthorizedKey : text → result text text).

Definition all_methods : text := txt "all".

Definition user_for (username : text) : Eff text User.t :=
  or_fail (λ e, txt "user not found: " ++ err_text e) (FindUserByUsername username).

Definition CanHandle (h : AuthHandler) (username : text) : Eff text bool :=
  user ← user_for username;
  mret (match h with
        | PasswordHandler => text_eqb (User.AuthMethod user) (txt "password")
                             || text_eqb (User.AuthMethod user) all_methods
        | PublicKeyHandler => text_eqb (User.AuthMethod user) publickey
                              || text_eqb (User.AuthMethod user) all_methods
        | MFAHandler => User.TwoFactorEnabled user
        end).

Definition check_password (a : Attempts) (username password clientIP id : text) (now : Z)
    : Eff text (result text AuthResult.t * Attempts) :=
  if HasExceededMaxAttempts a clientIP 3 then mret (Err (txt "too many authentication failures"), a)
  else
    resp ← caught (Login err_text (ssh_request username password) id clientIP (txt "SSH-Client") now);
    match resp with
    | Err _ => mret (Err (txt "password authentication failed"),
                     recordAttemptWithTerminate a clientIP (txt "password") false false true now)
    | Ok resp =>
        let uid := User.ID (LoginResponse.User_ resp) in
        if LoginResponse.RequiresTwoFactor resp
        then mret (Ok {| AuthResult.Success := false; AuthResult.UserID := uid;
                         AuthResult.Message := txt "2FA verification required";
                         AuthResult.RequiresTwoFactor := true |}, a)
        else mret (Ok (accepted uid (txt "Password authentication successful") false), a)
    end.

Definition check_key (username key : text) : Eff text AuthResult.t :=
  user ← or_fail (λ _, txt "user not found") (FindUserByUsername username);
  stored ← or_fail (λ _, txt "failed to get user public key") (GetUserPublicKey err_text username);
  match ParseAuthorizedKey stored with
  | Err _ => raise (txt "invalid public key format")
  | Ok userPublicKey =>
      if negb (text_eqb key userPublicKey) then raise (txt "public key does not match")
      else if negb (text_eqb (User.Status user) active) then raise (txt "user account is not active")
      else mret (accepted (User.ID user) (txt "PublicKey authentication successful") false)
  end.

Definition isNumeric (s : text) : bool := forallb is_digit s.

(** Six digits are a code of the application, anything else a backup code. *)
Definition check_second_factor (username code clientIP id : text) (now : Z) : Eff text AuthResult.t :=
  user ← user_for username;
  if negb (User.TwoFactorEnabled user) then raise (txt "MFA not enabled for user")
  else
    let totp := (blen code =? 6) && isNumeric code in
    resp ← or_fail (λ e, txt "MFA verification failed: " ++ e)
      (Login err_text
         {| LoginRequest.Username := username; LoginRequest.Password := [];
            LoginRequest.TwoFactorCode := if totp then code else [];
            LoginRequest.BackupCode := if totp then [] else code |}
         id clientIP (txt "SSH-MFA") now);
    mret (accepted (User.ID (LoginResponse.User_ resp)) (txt "MFA authentication successful") false).

Definition Authenticate (h : AuthHandler) (a : Attempts) (username : text) (c : credential)
    (clientIP id : text) (now : Z) : Eff text (result text AuthResult.t * Attempts) :=
  match h, c with
  | PasswordHandler, Secret password => check_password a username password clientIP id now
  | PasswordHandler, PublicKey _ =>
      mret (Err (txt "invalid credential type for password authentication"), a)
  | PublicKeyHandler, PublicKey key => r ← caught (check_key username key); mret (r, a)
  | PublicKeyHandler, Secret _ =>
      mret (Err (txt "invalid credential type for publickey authentication"), a)
  | MFAHandler, Secret code => r ← caught (check_second_factor username code clientIP id now); mret (r, a)
  | MFAHandler, PublicKey _ =>
      r ← caught (user ← user_for username;
                  if negb (User.TwoFactorEnabled user) then raise (txt "MFA not enabled for user")
                  else raise (txt "invalid MFA credential type"));
      mret (r, a)
  end.

(** The handler of the name, if it may treat the user. *)
Definition AuthenticatePassword (m : t) (username password clientIP id : text) (now : Z)
    : Eff text (result text AuthResult.t * t) :=
  if decide (clientIP ∈ failedPubkeyAttempts m)
  then mret (Err (txt "authentication method not allowed"), m)
  else match handler_named m (txt "password") with
  | None => mret (Err (txt "password handler not found"), m)
  | Some handler =>
      canHandle ← caught (CanHandle handler username);
      match canHandle with
      | Err e => mret (Err e, m)
      | Ok false => mret (Err (txt "password authentication is not allowed for this user"), m)
      | Ok true =>
          r ← Authenticate handler (attempts m) username (Secret password) clientIP id now;
          mret (r.1, with_attempts m r.2)
      end
  end.

Definition AuthenticatePublicKey (m : t) (username key clientIP id : text) (now : Z)
    : Eff text (result text AuthResult.t * t) :=
  match handler_named m publickey with
  | None => mret (Err (txt "publickey handler not found"), m)
  | Some handler =>
      canHandle ← caught (CanHandle handler username);
      match canHandle with
      | Err e => mret (Err e, m)
      | Ok false => mret (Err (txt "publickey authentication is not allowed for this user"), m)
      | Ok true =>
          r ← Authenticate handler (attempts m) username (PublicKey key) clientIP id now;
          let m := with_attempts m r.2 in
          mret (r.1, match r.1 with
                     | Ok res => if AuthResult.Success res then m
                                 else with_failed m ({[clientIP]} ∪ failedPubkeyAttempts m)
                     | Err _ => with_failed m ({[clientIP]} ∪ failedPubkeyAttempts m)
                     end)
      end
  end.
End manager.
End AuthManager.

(** ** The server *)

Module Server.
Section server.
Context `{Crypto} (err_text : db_error → text) (ParseAuthorizedKey : text → result text text).

(** The callbacks of the SSH library. *)
Definition handlePublicKeyAuth (m : AuthManager.t) (username key remoteAddr id : text) (now : Z)
    : Eff text (bool * AuthManager.t) :=
  user ← attempt (FindUserByUsername username);
  match user with
  | None => mret (false, m)
  | Some user =>
      if text_eqb (User.AuthMethod user) (txt "password") then mret (false, m)
      else
        r ← AuthManager.AuthenticatePublicKey err_text ParseAuthorizedKey m username key
              remoteAddr id now;
        mret (match r.1 with Ok res => AuthResult.Success res | Err _ => false end, r.2)
  end.

Definition handlePasswordAuth (username password : text) : Eff text bool :=
  user ← attempt (FindUserByUsername username);
  mret (match user with
        | None => false
        | Some user => is_ok (ValidatePassword user password)
        end).

(** One line of the client, read byte by byte; nothing when it has gone. *)
Fixpoint read_line (input : bytes) : option (bytes * bytes) :=
  match input with
  | [] => None
  | char :: input =>
      if (char =? 13) || (char =? 10) then Some ([], input)
      else match read_line input with
           | Some (line, rest) => Some (char :: line, rest)
           | None => None
           end
  end.

Definition typed_code (line : bytes) : text := trim_space (utf8_decode line).

(** The rounds of the loop over the attempts still allowed, with the input left. *)
Fixpoint performSessionMFA (attempts : nat) (user : User.t) (input : bytes) (now : Z) : bool * bytes :=
  match attempts with
  | O => (false, input)
  | S attempts =>
      match read_line input with
      | None => (false, [])
      | Some (line, input) =>
          let code := typed_code line in
          if is_empty code then performSessionMFA attempts user input now
          else if validateTwoFactorCode user code [] now then (true, input)
          else performSessionMFA attempts user input now
      end
  end.

Definition maxMfaAttempts : nat := 3.

Definition new_session (sessionID userID username remoteAddr : text) : SessionInfo.t :=
  {| SessionInfo.SessionID := sessionID; SessionInfo.UserID := userID;
     SessionInfo.Username := username; SessionInfo.ClientIP := remoteAddr;
     SessionInfo.HostID := []; SessionInfo.HostName := []; SessionInfo.HostIP := [];
     SessionInfo.HostPort := 0; SessionInfo.HostUsername := []; SessionInfo.Status := [];
     SessionInfo.BytesIn := 0; SessionInfo.BytesOut := 0 |}.

(** [handleSSHSession]: the terminal is reached with this session and this input,
    or not at all.  [user_id] is the extension the library passes on. *)
Definition handleSSHSession (user_id username remoteAddr sessionID : text) (input : bytes) (now : Z)
    : Eff text (option (SessionInfo.t * bytes)) :=
  userID ← (if negb (is_empty user_id) then mret user_id
            else user ← attempt (FindUserByUsername username);
                 mret (match user with Some user => User.ID user | None => [] end));
  let terminal input := Some (new_session sessionID userID username remoteAddr, input) in
  user ← attempt (FindUserByUsername username);
  match user with
  | None => mret (terminal input)
  | Some user =>
      globalEnabled ← globally_enabled;
      if globalEnabled && negb (User.TwoFactorEnabled user) then mret None
      else if User.TwoFactorEnabled user then
        let '(ok, input) := performSessionMFA maxMfaAttempts user input now in
        mret (if ok : bool then terminal input else None)
      else mret (terminal input)
  end.
End server.

(** *** The table of sessions *)

(** [sessions], by id, with the start; [cancelled] holds the contexts cancelled. *)
Record Registry := { sessions : gmap text Z; cancelled : gset text }.

Definition registerSession (r : Registry) (id : text) (now : Z) : Registry :=
  {| sessions := <[id := now]> (sessions r); cancelled := cancelled r |}.

Definition unregisterSession (r : Registry) (id : text) : Registry :=
  match sessions r !! id with
  | Some _ => {| sessions := delete id (sessions r); cancelled := {[id]} ∪ cancelled r |}
  | None => r
  end.

(** Times in seconds; no limit when [SessionTimeout] is not positive. *)
Definition timed_out (SessionTimeout now start : Z) : bool :=
  (0 <? SessionTimeout) && (SessionTimeout <? now - start).

Definition cleanupExpiredSessions (r : Registry) (SessionTimeout now : Z) : Registry :=
  let over := filter (λ kv, timed_out SessionTimeout now kv.2 = true) (sessions r) in
  {| sessions := filter (λ kv, timed_out SessionTimeout now kv.2 = false) (sessions r);
     cancelled := dom over ∪ cancelled r |}.

Definition closeAllSessions (r : Registry) : Registry :=
  {| sessions := sessions r; cancelled := dom (sessions r) ∪ cancelled r |}.
End Server.

(** ** Facts: the record of attempts *)

(** Every address has at most three attempts, all of which count. *)
Definition strikes_ok (a : Attempts) : Prop :=
  ∀ ip, (length (attempts_of a ip) ≤ 3)%nat ∧ Forall (λ t, counts t = true) (attempts_of a ip).

Lemma attempts_of_insert a ip l ip' :
  attempts_of (<[ip := l]> a) ip' = if decide (ip' = ip) then l else attempts_of a ip'.
Proof.
  unfold attempts_of. destruct (decide (ip' = ip)) as [->|Hne].
  - by rewrite lookup_insert_eq.
  - by rewrite lookup_insert_ne.
Qed.

Lemma exceeded_length a ip n :
  strikes_ok a → HasExceededMaxAttempts a ip n = (n <=? length (attempts_of a ip))%nat.
Proof. intros Ha. unfold HasExceededMaxAttempts. by rewrite keep_id by apply Ha. Qed.

Lemma record_ok a ip m r t f now :
  strikes_ok a → HasExceededMaxAttempts a ip 3 = false → f || r = true →
  strikes_ok (recordAttemptWithTerminate a ip m r t f now).
Proof.
  intros Ha Hx Hc ip'. unfold recordAttemptWithTerminate. rewrite attempts_of_insert.
  destruct (decide (ip' = ip)) as [->|]; [|apply Ha].
  rewrite exceeded_length in Hx by done. apply Nat.leb_gt in Hx.
  rewrite length_app. simpl. split; [lia|].
  apply Forall_app. split; [apply Ha|]. by constructor.
Qed.

Lemma clear_ok a ip : strikes_ok a → strikes_ok (clearAttempts a ip).
Proof.
  intros Ha ip'. unfold clearAttempts, attempts_of. destruct (decide (ip' = ip)) as [->|Hne].
  - rewrite lookup_delete_eq. simpl. split; [lia|constructor].
  - rewrite lookup_delete_ne by done. apply Ha.
Qed.

Lemma cleared_below a ip : HasExceededMaxAttempts (clearAttempts a ip) ip 3 = false.
Proof.
  unfold HasExceededMaxAttempts, clearAttempts, attempts_of. by rewrite lookup_delete_eq.
Qed.

Lemma cleanup_ok a now : strikes_ok a → strikes_ok (cleanupExpiredAttempts a now).
Proof.
  intros Ha ip. unfold cleanupExpiredAttempts, attempts_of.
  destruct (filter _ a !! ip) as [l|] eqn:E; simpl; [|split; [lia|constructor]].
  apply map_lookup_filter_Some in E as [E _]. specialize (Ha ip). unfold attempts_of in Ha.
  by rewrite E in Ha.
Qed.

#[export] Hint Resolve record_ok clear_ok cleanup_ok cleared_below : strikes.

Section strikes.
Context `{Crypto} (err_text : db_error → text) (ParseAuthorizedKey : text → result text text).
Notation service_password := (ServiceAuthenticator.AuthenticatePassword err_text).
Notation service_key := (ServiceAuthenticator.AuthenticatePublicKey err_text ParseAuthorizedKey).

(** What a client can do to the record, and the clock. *)
Inductive auth_step : relation Attempts :=
  | step_password a username password ip id now db f r a' db' f' :
      service_password a username password ip id now db f = (Ok (r, a'), db', f') → auth_step a a'
  | step_key a username key ip now db f r a' db' f' :
      service_key a username key ip now db f = (Ok (r, a'), db', f') → auth_step a a'
  | step_tick a now : auth_step a (cleanupExpiredAttempts a now).

Lemma service_password_ok a username password ip id now db f r a' db' f' :
  strikes_ok a →
  service_password a username password ip id now db f = (Ok (r, a'), db', f') → strikes_ok a'.
Proof.
  intros Ha. unfold ServiceAuthenticator.AuthenticatePassword.
  destruct (HasExceededMaxAttempts a ip 3) eqn:Ex; [by intros [= _ <- _ _]|].
  destruct (ShouldTerminateConnection a ip); [by intros [= _ <- _ _]|].
  rewrite bind_run, caught_run. destruct (FindUserByUsername username db f) as [[[user|e] db1] f1].
  2: { intros [= _ <- _ _]. eauto with strikes. }
  destruct (text_eqb (User.AuthMethod user) publickey); [intros [= _ <- _ _]; eauto with strikes|].
  cbv zeta. set (b := match hasRejectedAttempt a ip with Some _ => _ | None => _ end).
  assert (strikes_ok b ∧ HasExceededMaxAttempts b ip 3 = false) as [Hb Hbx].
  { subst b. destruct (hasRejectedAttempt a ip) as [m|]; [|done].
    destruct (text_eqb m publickey); eauto with strikes. }
  rewrite bind_run, caught_run. clearbody b.
  destruct (Login _ _ _ _ _ _ db1 f1) as [[[resp|e] db2] f2];
    [|intros [= _ <- _ _]; eauto with strikes].
  destruct (LoginResponse.RequiresTwoFactor resp); intros [= _ <- _ _]; eauto with strikes.
Qed.

Lemma service_key_ok a username key ip now db f r a' db' f' :
  strikes_ok a → service_key a username key ip now db f = (Ok (r, a'), db', f') → strikes_ok a'.
Proof.
  intros Ha. unfold ServiceAuthenticator.AuthenticatePublicKey. cbv zeta.
  destruct (HasExceededMaxAttempts a ip 3) eqn:Ex; [by intros [= _ <- _ _]|].
  assert (∀ t, strikes_ok (recordAttemptWithTerminate a ip publickey true t true now)) as Hrec
    by eauto with strikes.
  rewrite bind_run, caught_run. destruct (FindUserByUsername username db f) as [[[user|e] db1] f1];
    [|by intros [= _ <- _ _]].
  destruct (text_eqb (User.AuthMethod user) _); [by intros [= _ <- _ _]|].
  rewrite bind_run, caught_run. destruct (GetUserPublicKey _ _ db1 f1) as [[[stored|e] db2] f2];
    [|by intros [= _ <- _ _]].
  destruct (ParseAuthorizedKey stored) as [k|e]; [|by intros [= _ <- _ _]].
  destruct (negb _); [by intros [= _ <- _ _]|]. destruct (negb _); [by intros [= _ <- _ _]|].
  destruct (User.TwoFactorEnabled user); intros [= _ <- _ _]; eauto with strikes.
Qed.

(** C38: Whatever a client sends, in whatever order, at most three refused
    attempts are kept of an address, and the third locks it: the next password
    or key is refused before the user is looked up, nothing is read or written,
    until the record expires. *)
Theorem three_strikes a ip :
  rtc auth_step ∅ a →
  (length (attempts_of a ip) ≤ 3)%nat ∧
  (length (attempts_of a ip) = 3%nat →
   ∀ username secret id now db f,
     service_password a username secret ip id now db f
       = (Ok (Err (txt "too many authentication failures"), a), db, f) ∧
     service_key a username secret ip now db f
       = (Ok (Err (txt "too many authentication failures"), a), db, f)).
Proof.
  intros Hr. assert (strikes_ok a) as Ha.
  { assert (strikes_ok ∅) as H0 by (intros ip'; unfold attempts_of; rewrite lookup_empty; simpl; split; [lia|constructor]).
    revert H0. induction Hr as [|x y z Hxy _ IH]; [done|]. intros Hx. apply IH.
    destruct Hxy; eauto using service_password_ok, service_key_ok, cleanup_ok. }
  split; [apply Ha|]. intros Hl username secret id now db f.
  assert (HasExceededMaxAttempts a ip 3 = true) as Hx by (by rewrite exceeded_length, Hl).
  unfold ServiceAuthenticator.AuthenticatePassword, ServiceAuthenticator.AuthenticatePublicKey.
  by rewrite Hx.
Qed.
End strikes.

(** ** Facts: signing in *)

Section sign_in.
Context `{CryptoLaws} (err_text : db_error → text) (ParseAuthorizedKey : text → result text text).
Notation manager_key := (AuthManager.AuthenticatePublicKey err_text ParseAuthorizedKey).
Notation key_accepted := (Server.handlePublicKeyAuth err_text ParseAuthorizedKey).

Lemma FindUserByUsername_Ok username db f u db' f' :
  FindUserByUsername username db f = (Ok u, db', f') →
  db' = db ∧ head (keep (λ u, text_eqb (User.Username u) username) (users db)) = Some u.
Proof.
  unfold FindUserByUsername. rewrite bind_run. unfold find, query.
  destruct f as [|[e|] f]; [|done|]; destruct (keep _ (users db)); intros [= -> -> _]; done.
Qed.

Lemma head_keep {A} (p : A → bool) l x : head (keep p l) = Some x → x ∈ l ∧ p x = true.
Proof. intros Hx. apply elem_of_keep. destruct (keep p l); [done|]. injection Hx as ->. left. Qed.

Lemma reads_FindUserByUsername username : reads (FindUserByUsername username).
Proof. unfold FindUserByUsername, first_of. preserves_tac. Qed.

Lemma GetUserPublicKey_Ok username db f k db' f' :
  GetUserPublicKey err_text username db f = (Ok k, db', f') →
  ∃ u, head (keep (λ u, text_eqb (User.Username u) username) (users db)) = Some u ∧
       User.SSHPublicKey u = k ∧
       (User.AuthMethod u = publickey ∨ User.AuthMethod u = txt "both").
Proof.
  intros (u & db1 & f1 & Hu & Hk)%bind_Ok. apply or_fail_Ok, FindUserByUsername_Ok in Hu as [-> Hu].
  exists u. split; [done|]. destruct (is_empty _); [done|].
  destruct (text_eqb (User.AuthMethod u) publickey) eqn:E1; simpl in Hk.
  - injection Hk as -> _ _. by apply text_eqb_true in E1; auto.
  - destruct (text_eqb (User.AuthMethod u) (txt "both")) eqn:E2; [|done]. simpl in Hk.
    injection Hk as -> _ _. apply text_eqb_true in E2; auto.
Qed.

(** The handlers a manager starts with. *)
Definition standard (m : AuthManager.t) : Prop :=
  AuthManager.handlers m = AuthManager.handlers AuthManager.NewAuthManager.

Lemma standard_handlers m :
  standard m → AuthManager.handler_named m (txt "password") = Some AuthManager.PasswordHandler ∧
               AuthManager.handler_named m publickey = Some AuthManager.PublicKeyHandler.
Proof. intros Hm. unfold AuthManager.handler_named. by rewrite Hm. Qed.

(** The row a name stands for. *)
Definition named (db : Db) (username : text) (u : User.t) : Prop :=
  head (keep (λ u, text_eqb (User.Username u) username) (users db)) = Some u.

Lemma CanHandle_Ok h username db f b db' f' :
  AuthManager.CanHandle err_text h username db f = (Ok b, db', f') →
  db' = db ∧ ∃ u, named db username u ∧
    b = match h with
        | AuthManager.PasswordHandler => text_eqb (User.AuthMethod u) (txt "password")
                                         || text_eqb (User.AuthMethod u) AuthManager.all_methods
        | AuthManager.PublicKeyHandler => text_eqb (User.AuthMethod u) publickey
                                          || text_eqb (User.AuthMethod u) AuthManager.all_methods
        | AuthManager.MFAHandler => User.TwoFactorEnabled u
        end.
Proof.
  intros (u & db1 & f1 & Hu & Hb)%bind_Ok. apply or_fail_Ok, FindUserByUsername_Ok in Hu as [-> Hu].
  injection Hb as <- <- _. eauto.
Qed.

Lemma check_key_Ok username key db f r db' f' :
  AuthManager.check_key err_text ParseAuthorizedKey username key db f = (Ok r, db', f') →
  ∃ u, named db username u ∧ User.Status u = active ∧
       ParseAuthorizedKey (User.SSHPublicKey u) = Ok key ∧
       (User.AuthMethod u = publickey ∨ User.AuthMethod u = txt "both").
Proof.
  intros (u & db1 & f1 & Hu & Hk)%bind_Ok. apply or_fail_Ok, FindUserByUsername_Ok in Hu as [-> Hu].
  apply bind_Ok in Hk as (k & db2 & f2 & Hk & Hr). apply or_fail_Ok, GetUserPublicKey_Ok in Hk
    as (v & Hv & Hvk & Hm). replace v with u in * by congruence.
  exists u. split; [done|]. rewrite Hvk. destruct (ParseAuthorizedKey k) as [k'|]; [|done].
  destruct (text_eqb key k') eqn:Ek; [|done]. apply text_eqb_true in Ek as ->.
  destruct (text_eqb (User.Status u) active) eqn:Es; [|done]. by apply text_eqb_true in Es.
Qed.

Lemma manager_key_Ok m username key addr id now db f res m' db' f' :
  standard m → manager_key m username key addr id now db f = (Ok (Ok res, m'), db', f') →
  ∃ u, named db username u ∧ User.Status u = active ∧ User.AuthMethod u = publickey ∧
       ParseAuthorizedKey (User.SSHPublicKey u) = Ok key.
Proof.
  intros Hm. unfold AuthManager.AuthenticatePublicKey.
  destruct (standard_handlers m Hm) as [_ ->]. intros (b & db1 & f1 & Hb & Hr)%bind_Ok.
  apply caught_Ok in Hb. destruct b as [[]|]; [|done..].
  apply CanHandle_Ok in Hb as (-> & u & Hu & Hm1).
  apply bind_Ok in Hr as ([r a] & db2 & f2 & Hr & Hret). injection Hret as -> _ _ _.
  apply bind_Ok in Hr as (r' & db3 & f3 & Hr & Hret). injection Hret as -> _ _ _.
  apply caught_Ok, check_key_Ok in Hr as (v & Hv & Hs & Hk & Hm2).
  replace v with u in * by (unfold named in *; congruence). exists u.
  split_and!; [done..| |done]. destruct Hm2 as [?|Hb]; [done|]. by rewrite Hb in Hm1.
Qed.

(** The server takes a key only from a user of the table with that name, who
    is active, signs in by key, and whose stored key it is; a user whose method
    is given as "both" or "all" signs in by no key. *)
Theorem publickey_sign_in m username key addr id now db f m' db' f' :
  standard m → key_accepted m username key addr id now db f = (Ok (true, m'), db', f') →
  ∃ user, user ∈ users db ∧ User.Username user = username ∧ User.AuthMethod user = publickey ∧
          User.Status user = active ∧ ParseAuthorizedKey (User.SSHPublicKey user) = Ok key.
Proof.
  intros Hm. unfold Server.handlePublicKeyAuth. rewrite bind_run. unfold attempt.
  destruct (FindUserByUsername username db f) as [[[u0|e] db0] f0] eqn:E0; [|done].
  apply FindUserByUsername_Ok in E0 as [-> Hu0].
  destruct (text_eqb (User.AuthMethod u0) (txt "password")); [done|].
  intros ([r m1] & db1 & f1 & Hr & Hret)%bind_Ok. injection Hret as Hres -> -> ->.
  destruct r as [res|]; [|done]. apply manager_key_Ok in Hr as (u & Hu & Hs & Ha & Hk); [|done].
  apply head_keep in Hu as [Hu Hn%text_eqb_true]. by exists u.
Qed.

(** *** The password, and the second factor of the session *)

(** The lines a client types before it goes. *)
Fixpoint typed (n : nat) (input : bytes) : list text :=
  match n with
  | O => []
  | S n => match Server.read_line input with
           | Some (line, input) => Server.typed_code line :: typed n input
           | None => []
           end
  end.

Lemma performSessionMFA_true n user input now rest :
  Server.performSessionMFA n user input now = (true, rest) →
  ∃ code, code ∈ typed n input ∧ code ≠ [] ∧ validateTwoFactorCode user code [] now = true.
Proof.
  revert input. induction n as [|n IH]; intros input; simpl; [done|].
  destruct (Server.read_line input) as [[line input']|]; [|done].
  destruct (is_empty (Server.typed_code line)) eqn:Ee; simpl.
  { intros (c & ? & ?)%IH. exists c. split; [by right|done]. }
  destruct (validateTwoFactorCode _ _ _ _) eqn:Ev.
  - intros _. exists (Server.typed_code line). split; [left|]. split; [|done].
    by destruct (Server.typed_code line).
  - intros (c & ? & ?)%IH. exists c. split; [by right|done].
Qed.

(** A line is read byte by byte to its end, whatever it holds. *)
Lemma read_line_spec line c rest :
  Forall (λ b, (b =? 13) || (b =? 10) = false) line → (c = 13 ∨ c = 10) →
  Server.read_line (line ++ c :: rest) = Some (line, rest).
Proof.
  intros Hl Hc. induction Hl as [|b line Hb _ IH]; simpl.
  - by destruct Hc as [-> | ->].
  - by rewrite Hb, IH.
Qed.

Lemma FindUserByUsername_named db username u :
  named db username u → FindUserByUsername username db [] = (Ok u, db, []).
Proof.
  intros Hu. unfold FindUserByUsername. rewrite bind_run. unfold named in Hu. simpl.
  destruct (keep _ (users db)); [done|]. by injection Hu as ->.
Qed.

(** The session when its statements succeed. *)
Lemma session_terminal uid username addr sid input now db info rest db' f' :
  Server.handleSSHSession uid username addr sid input now db [] = (Ok (Some (info, rest)), db', f') →
  ∃ id, info = Server.new_session sid id username addr ∧
    (∀ user, named db username user → id = if is_empty uid then User.ID user else uid) ∧
    ∀ user, named db username user →
      (res (globally_enabled db []) = Ok true → User.TwoFactorEnabled user = true) ∧
      (User.TwoFactorEnabled user = true →
       ∃ code, code ∈ typed 3 input ∧ validateTwoFactorCode user code [] now = true).
Proof.
  intros (id & db1 & f1 & Hid & Hr)%bind_Ok.
  assert (db1 = db ∧ f1 = [] ∧
          ∀ user, named db username user → id = if is_empty uid then User.ID user else uid)
    as (-> & -> & Hidu).
  { destruct (is_empty uid); cbn [negb] in Hid; [|by injection Hid as <- <- <-].
    apply bind_Ok in Hid as (o & db2 & f2 & Ho & Hret). injection Hret as <- <- <-.
    unfold attempt, FindUserByUsername in Ho. rewrite bind_run in Ho. simpl in Ho.
    destruct (keep _ (users db)) eqn:Ek; injection Ho as <- <- <-.
    - split_and!; [done..|]. intros u Hu. unfold named in Hu. by rewrite Ek in Hu.
    - split_and!; [done..|]. intros u Hu. unfold named in Hu. rewrite Ek in Hu. by injection Hu as ->. }
  destruct (head (keep (λ u, text_eqb (User.Username u) username) (users db))) as [u|] eqn:Eu.
  2: { exists id. assert (∀ user, ¬ named db username user) as Hno
         by (intros user Hu; unfold named in Hu; congruence).
       split_and!; [|done|by intros user ?%Hno].
       revert Hr. rewrite bind_run. unfold attempt, FindUserByUsername. rewrite bind_run. simpl.
       destruct (keep _ (users db)); [|done]. by intros [= <- _ _ _]. }
  revert Hr. rewrite bind_run. unfold attempt at 1. rewrite (FindUserByUsername_named _ _ u) by done.
  intros (g & db1 & f1 & Hg & Hr)%bind_Ok. exists id.
  assert (info = Server.new_session sid id username addr ∧
    (g = true → User.TwoFactorEnabled u = true) ∧
    (User.TwoFactorEnabled u = true →
     ∃ code, code ∈ typed 3 input ∧ validateTwoFactorCode u code [] now = true)) as (Hi & Hgu & Hv).
  { destruct (User.TwoFactorEnabled u) eqn:Et.
    - rewrite andb_false_r in Hr. destruct (Server.performSessionMFA _ _ _ _) as [ok rest'] eqn:Ep.
      injection Hr as Hr _ _. destruct ok; [|done]. injection Hr as <- _. split_and!; [done..|].
      intros _. apply performSessionMFA_true in Ep as (c & ? & _ & ?). eauto.
    - rewrite andb_true_r in Hr. destruct g; [done|]. by injection Hr as <- _ _ _. }
  split_and!; [done..|]. intros user Hu. replace user with u by (unfold named in Hu; congruence).
  split; [|done]. unfold res. rewrite Hg. intros [= ->]. auto.
Qed.

(** C5: A client that signed in with a password reaches the terminal only as a
    user of the table whose name it gave, who was active and whose password it
    knew; and, when the statements of the session succeed, only with a valid code
    among the first three lines typed if the user has a second factor, which is
    required of everybody while it is switched on globally. *)
Theorem terminal_needs_sign_in username password uid addr sid input now db f db1 f1 dbs info rest db2 f2 :
  Server.handlePasswordAuth username password db f = (Ok true, db1, f1) →
  Server.handleSSHSession uid username addr sid input now dbs [] = (Ok (Some (info, rest)), db2, f2) →
  (∃ user, user ∈ users db ∧ User.Username user = username ∧ User.Status user = active ∧
           CompareHashAndPassword (User.Password user) password = true) ∧
  SessionInfo.Username info = username ∧
  (∀ user, named dbs username user →
     SessionInfo.UserID info = (if is_empty uid then User.ID user else uid) ∧
     (res (globally_enabled dbs []) = Ok true → User.TwoFactorEnabled user = true) ∧
     (User.TwoFactorEnabled user = true →
      ∃ code, code ∈ typed 3 input ∧ validateTwoFactorCode user code [] now = true)).
Proof.
  intros Hp Hs. split; [|split].
  - apply bind_Ok in Hp as (o & db0 & f0 & Ho & Hv). injection Hv as Hv _ _.
    unfold attempt in Ho. destruct (FindUserByUsername username db f) as [[[u|e] db'] f'] eqn:E;
      injection Ho as <- _ _; [|done].
    apply FindUserByUsername_Ok in E as [_ [Hu Hn%text_eqb_true]%head_keep].
    exists u. revert Hv. unfold ValidatePassword.
    destruct (text_eqb (User.Status u) active) eqn:Es; [|done]. apply text_eqb_true in Es.
    by destruct (CompareHashAndPassword _ _).
  - by apply session_terminal in Hs as (id & -> & _).
  - intros user Hu. apply session_terminal in Hs as (id & -> & Hid & Hs). simpl.
    split; [by apply Hid|]. by apply Hs.
Qed.
(** *** What the server leaves out *)

(** The server does not look at the method the user signs in by: whoever is
    active and knows the password is let in, with a method that forbids passwords
    as with any other, whatever was tried before; the manager, which it does not
    ask, refuses. *)
Theorem password_method_ignored db user password :
  users_ok db → user ∈ users db → User.Status user = active →
  CompareHashAndPassword (User.Password user) password = true →
  Server.handlePasswordAuth (User.Username user) password db [] = (Ok true, db, []) ∧
  (User.AuthMethod user = publickey → ∀ m addr id now, standard m →
   ∃ e, AuthManager.AuthenticatePassword err_text ParseAuthorizedKey m (User.Username user)
          password addr id now db [] = (Ok (Err e, m), db, [])).
Proof.
  intros Hdb Hu Hs Hp. split.
  - unfold Server.handlePasswordAuth. rewrite bind_run. unfold attempt.
    rewrite FindUserByUsername_run by done. unfold ValidatePassword. by rewrite Hs, Hp, text_eqb_refl.
  - intros Ha m addr id now Hm. unfold AuthManager.AuthenticatePassword.
    destruct (standard_handlers m Hm) as [-> _]. destruct (decide _); [by eexists|].
    rewrite bind_run, caught_run. unfold AuthManager.CanHandle, AuthManager.user_for, or_fail.
    rewrite bind_run, FindUserByUsername_run by done. cbn [map_err]. rewrite Ha. by eexists.
Qed.

(** A refused key blocks the passwords of the same connection until the next tick. *)
Lemma failed_key_blocks_password m username password addr id now db f :
  addr ∈ AuthManager.failedPubkeyAttempts m →
  AuthManager.AuthenticatePassword err_text ParseAuthorizedKey m username password addr id now db f
    = (Ok (Err (txt "authentication method not allowed"), m), db, f).
Proof. intros Ha. unfold AuthManager.AuthenticatePassword. by rewrite decide_True. Qed.

(** A session is registered under its id, and its context is cancelled when it
    leaves the table, whether it ends or runs too long. *)
Lemma registered_or_cancelled r timeout now id :
  id ∈ dom (Server.sessions r) →
  id ∈ dom (Server.sessions (Server.cleanupExpiredSessions r timeout now)) ∨
  id ∈ Server.cancelled (Server.cleanupExpiredSessions r timeout now).
Proof.
  intros [start Hs]%elem_of_dom. simpl. destruct (Server.timed_out timeout now start) eqn:E.
  - right. apply elem_of_union_l, elem_of_dom. exists start. by apply map_lookup_filter_Some.
  - left. apply elem_of_dom. exists start. by apply map_lookup_filter_Some.
Qed.
End sign_in.

(** *** Concrete runs *)

(** Bob signs in by key, and types a code after an empty line. *)
Definition key_bob : User.t :=
  User.set_auth (User.set_keys bob2 (txt "ssh-rsa AAAA") [] [] None) publickey.
Definition key_db : Db := set_users empty_db [key_bob].
Definition sample_parse (s : text) : result text text := Ok s.

Lemma key_db_ok : users_ok key_db.
Proof.
  split; simpl.
  - apply NoDup_singleton.
  - by intros x y ->%list_elem_of_singleton ->%list_elem_of_singleton.
  - by intros x y ->%list_elem_of_singleton ->%list_elem_of_singleton.
  - constructor; [|constructor]. assert (user_ok bob) as [Hr Hs] by (apply new_user_ok; right; left).
    split; [exact Hr|exact Hs].
Qed.

(** The first of the tries: a wrong password for a user without a row, three times. *)
Definition guess (a : Attempts) : Attempts :=
  match ServiceAuthenticator.AuthenticatePassword plain_err a (txt "eve")
          (txt "x") (txt "10.0.0.1:99") (txt "r") 7 key_db [] with
  | (Ok (_, a), _, _) => a
  | _ => a
  end.

Lemma guess_step a : auth_step plain_err sample_parse a (guess a).
Proof.
  unfold guess. destruct (ServiceAuthenticator.AuthenticatePassword _ _ _ _ _ _ _ _ _)
    as [[[[r a']|e] db'] f'] eqn:E.
  - by econstructor.
  - exfalso. revert E. unfold ServiceAuthenticator.AuthenticatePassword.
    destruct (HasExceededMaxAttempts _ _ _); [done|]. destruct (ShouldTerminateConnection _ _); done.
Qed.

Lemma three_strikes_witness :
  let a := guess (guess (guess ∅)) in
  length (attempts_of a (txt "10.0.0.1:99")) = 3%nat ∧
  (ServiceAuthenticator.AuthenticatePassword plain_err a (txt "bob")
     (txt "saltpw") (txt "10.0.0.1:99") (txt "r") 8 key_db []).1.1
  = Ok (Err (txt "too many authentication failures"), a).
Proof.
  set (a := guess (guess (guess ∅))).
  assert (length (attempts_of a (txt "10.0.0.1:99")) = 3%nat) as Hl by (vm_compute; reflexivity).
  split; [exact Hl|].
  assert (rtc (auth_step plain_err sample_parse) ∅ a) as Hr.
  { eapply rtc_l; [apply guess_step|]. eapply rtc_l; [apply guess_step|].
    eapply rtc_l; [apply guess_step|]. apply rtc_refl. }
  destruct (three_strikes plain_err sample_parse a (txt "10.0.0.1:99") Hr) as [_ H3].
  by rewrite (proj1 (H3 Hl (txt "bob") (txt "saltpw") (txt "r") 8 key_db [])).
Defined.

Lemma publickey_sign_in_witness :
  User.AuthMethod key_bob = publickey ∧
  ∃ user, user ∈ users key_db ∧ User.Status user = active.
Proof.
  split; [done|].
  destruct (publickey_sign_in plain_err sample_parse AuthManager.NewAuthManager
    (txt "bob") (txt "ssh-rsa AAAA") (txt "a") (txt "r") 7 key_db []
    AuthManager.NewAuthManager key_db []) as (u & Hu & _ & _ & Hs & _).
  - reflexivity.
  - vm_compute. reflexivity.
  - exists u. split; [exact Hu|exact Hs].
Defined.

(** An empty line, then the code. *)
Definition typed_input : bytes := [13] ++ txt "123456" ++ [13] ++ txt "ls".

Lemma terminal_needs_sign_in_witness :
  ∃ code, code ∈ typed 3 typed_input ∧ validateTwoFactorCode key_bob code [] 7 = true.
Proof.
  destruct (terminal_needs_sign_in (txt "bob") (txt "saltpw") [] (txt "a")
    (txt "s1") typed_input 7 key_db [] key_db [] key_db
    (Server.new_session (txt "s1") (txt "u1") (txt "bob") (txt "a")) (txt "ls") key_db [])
    as (_ & _ & Hu).
  - vm_compute. reflexivity.
  - vm_compute. reflexivity.
  - destruct (Hu key_bob) as (_ & _ & Hc); [reflexivity|]. apply Hc. reflexivity.
Defined.

Lemma password_method_ignored_witness :
  User.AuthMethod key_bob = publickey ∧
  Server.handlePasswordAuth (txt "bob") (txt "saltpw") key_db []
    = (Ok true, key_db, []).
Proof.
  split; [reflexivity|].
  apply (password_method_ignored plain_err sample_parse key_db key_bob
           (txt "saltpw")); [apply key_db_ok|left|reflexivity|reflexivity].
Defined.

(** The second factor is skipped when its lookup fails: the session that asked for
    a code goes straight to the terminal. *)
Example factor_skipped_on_error :
  Server.handleSSHSession (txt "u1") (txt "bob") (txt "a") (txt "s1") [] 7 key_db []
    = (Ok None, key_db, []) ∧
  Server.handleSSHSession (txt "u1") (txt "bob") (txt "a") (txt "s1") [] 7 key_db
    [Some DBFailure]
    = (Ok (Some (Server.new_session (txt "s1") (txt "u1") (txt "bob") (txt "a"), [])), key_db, []).
Proof. vm_compute. done. Qed.
