(* ===== verification/RedisLock.v ===== *)
(** * The distributed lock and the exchange of configuration changes

    [pkg/distributed]: [RedisLock] ([redis_lock.go]) and [ConfigSyncManager]
    ([config_sync.go]).  The server is a third party, so its commands are the
    operations of a class and what they do its laws; the scripts the sources
    send, which run atomically, are definitions over these commands.  A command
    may be lost, or its answer, or be sent twice by the client; one whose context
    is cancelled is refused by the client before it is sent.  [lock_step]
    interleaves any number of locks, their renewals and the clock.  Times and
    durations are in nanoseconds. *)

From stdpp Require Import base list strings gmap relations.
From Stdlib Require Import ZArith Lia.
From S2P Require Import Prelude GoStrings.
Local Open Scope Z_scope.

Definition second : Z := 1000000000.

(** ** The server *)

(** The commands, each with the time at which the server runs it. *)
Class Redis := {
  server : Type;
  SetNX : Z → text → text → Z → server → bool * server;
  GET : Z → text → server → option text;
  DEL : Z → text → server → Z * server;
  EXPIRE : Z → text → Z → server → Z * server;
  EXISTS : Z → text → server → Z
}.

(** What the documentation of the commands says, by the value and the deadline
    kept for a key: a key whose deadline has passed is not there. *)
Class RedisLaws (R : Redis) := {
  entry : server → text → option (text * Z);
  live (now : Z) (k : text) (s : server) : option text :=
    match entry s k with Some (v, d) => if now <? d then Some v else None | None => None end;
  get_live now k s : GET now k s = live now k s;
  exists_live now k s : EXISTS now k s = if live now k s is Some _ then 1 else 0;
  setnx_taken now k v ttl s : is_Some (live now k s) → SetNX now k v ttl s = (false, s);
  setnx_free now k v ttl s : live now k s = None → 0 < ttl →
    (SetNX now k v ttl s).1 = true ∧ entry (SetNX now k v ttl s).2 k = Some (v, now + ttl);
  del_entry now k s : entry (DEL now k s).2 k = None;
  expire_live now k n s v : live now k s = Some v → 0 < n →
    entry (EXPIRE now k n s).2 k = Some (v, now + n * second);
  expire_now now k n s : n <= 0 → entry (EXPIRE now k n s).2 k = None;
  setnx_frame now k v ttl s k' : k' ≠ k → entry (SetNX now k v ttl s).2 k' = entry s k';
  del_frame now k s k' : k' ≠ k → entry (DEL now k s).2 k' = entry s k';
  expire_frame now k n s k' : k' ≠ k → entry (EXPIRE now k n s).2 k' = entry s k'
}.

(** ** The lock *)

(** [ctx] is cancelled or not; [renewing] is the goroutine [autoRenew]. *)
Record RedisLock := {
  key : text; value : text; expiry : Z; cancelled : bool; renewing : bool
}.

Definition set_cancelled (l : RedisLock) : RedisLock :=
  {| key := key l; value := value l; expiry := expiry l; cancelled := true;
     renewing := renewing l |}.
Definition set_renewing (l : RedisLock) (b : bool) : RedisLock :=
  {| key := key l; value := value l; expiry := expiry l; cancelled := cancelled l;
     renewing := b |}.

(** [uuid] is the fresh value. *)
Definition NewRedisLock (key uuid : text) (expiry : Z) : RedisLock :=
  {| key := key; value := uuid; expiry := expiry; cancelled := false; renewing := false |}.

Lemma new_key k u e : key (NewRedisLock k u e) = k.
Proof. reflexivity. Qed.
Lemma new_value k u e : value (NewRedisLock k u e) = u.
Proof. reflexivity. Qed.
Lemma new_expiry k u e : expiry (NewRedisLock k u e) = e.
Proof. reflexivity. Qed.

(** The fate of a command on its way. *)
Inductive fate := Answered | Lost | AnswerLost | Resent.

Section lock.
Context `{R : Redis}.

(** A command of the client under the context of [l]: [None] is an error. *)
Definition command {A} (l : RedisLock) (d : fate) (run : server → A * server) (s : server)
    : option A * server :=
  if cancelled l then (None, s)
  else match d with
       | Answered => let '(a, s) := run s in (Some a, s)
       | Lost => (None, s)
       | AnswerLost => let '(_, s) := run s in (None, s)
       | Resent => let '(_, s) := run s in let '(a, s) := run s in (Some a, s)
       end.

Definition TryLock (l : RedisLock) (d : fate) (now : Z) (s : server)
    : option bool * RedisLock * server :=
  let '(result, s) := command l d (SetNX now (key l) (value l) (expiry l)) s in
  match result with
  | None => (None, l, s)
  | Some result => (Some result, if result then set_renewing l true else l, s)
  end.

(** The script of [Unlock]. *)
Definition unlock_script (now : Z) (key value : text) (s : server) : Z * server :=
  match GET now key s with
  | Some v => if text_eqb v value then DEL now key s else (0, s)
  | None => (0, s)
  end.

(** The context is cancelled first, and then used for the script. *)
Definition Unlock (l : RedisLock) (d : fate) (now : Z) (s : server)
    : option unit * RedisLock * server :=
  let l := set_cancelled l in
  let '(result, s) := command l d (unlock_script now (key l) (value l)) s in
  match result with
  | None => (None, l, s)
  | Some _ => (Some (), l, s)
  end.

(** The script of [autoRenew]. *)
Definition renew_script (now : Z) (key value : text) (seconds : Z) (s : server) : Z * server :=
  match GET now key s with
  | Some v => if text_eqb v value then EXPIRE now key seconds s else (0, s)
  | None => (0, s)
  end.

(** One round of [autoRenew]'s loop: a tick, or the context is done.  An error
    or a lost lock ends it. *)
Definition autoRenew (l : RedisLock) (d : fate) (now : Z) (s : server) : RedisLock * server :=
  let '(result, s) :=
    command l d (renew_script now (key l) (value l) (Z.quot (expiry l) second)) s in
  match result with
  | None => (set_renewing l false, s)
  | Some result => (if result =? 0 then set_renewing l false else l, s)
  end.

Definition IsLocked (l : RedisLock) (d : fate) (now : Z) (s : server) : option bool :=
  match (command l d (λ s, (EXISTS now (key l) s, s)) s).1 with
  | Some n => Some (0 <? n)
  | None => None
  end.

(** ** Any number of locks *)

Record System := { store : server; clock : Z; locks : list RedisLock }.

Definition put (σ : System) (i : nat) (l : RedisLock) (s : server) : System :=
  {| store := s; clock := clock σ; locks := <[i := l]> (locks σ) |}.

Inductive lock_step : System → System → Prop :=
| step_new σ k uuid ttl : uuid ∉ value <$> locks σ → 0 < ttl →
    lock_step σ {| store := store σ; clock := clock σ;
                   locks := locks σ ++ [NewRedisLock k uuid ttl] |}
| step_try σ i l d r l' s' : locks σ !! i = Some l →
    TryLock l d (clock σ) (store σ) = (r, l', s') → lock_step σ (put σ i l' s')
| step_unlock σ i l d r l' s' : locks σ !! i = Some l →
    Unlock l d (clock σ) (store σ) = (r, l', s') → lock_step σ (put σ i l' s')
| step_renew σ i l d l' s' : locks σ !! i = Some l → renewing l = true →
    autoRenew l d (clock σ) (store σ) = (l', s') → lock_step σ (put σ i l' s')
| step_time σ t : clock σ ≤ t →
    lock_step σ {| store := store σ; clock := t; locks := locks σ |}.

Definition init (s : server) (t : Z) : System := {| store := s; clock := t; locks := [] |}.

Definition reachable (σ : System) : Prop := ∃ s t, rtc lock_step (init s t) σ.
End lock.

(** ** Facts *)

Section facts.
Context {R : Redis} {RL : RedisLaws R}.

(** What a property of the server keeps under a command is kept whatever its
    fate. *)
Lemma command_keeps {A} (P : server → Prop) l d (run : server → A * server) s :
  P s → (∀ s, P s → P (run s).2) → P (command l d run s).2.
Proof.
  intros Hs Hr. unfold command. destruct (cancelled l); [done|].
  destruct d; pose proof (Hr s Hs) as H1; destruct (run s) as [a s1]; simpl in *; try done.
  specialize (Hr _ H1). by destruct (run s1).
Qed.

Lemma command_keeps_answer {A} (P : server → Prop) (Q : A → Prop) l d
    (run : server → A * server) s :
  P s → (∀ s, P s → P (run s).2 ∧ Q (run s).1) →
  P (command l d run s).2 ∧ ∀ a, (command l d run s).1 = Some a → Q a.
Proof.
  intros Hs Hr. unfold command. destruct (cancelled l); [done|].
  destruct d; destruct (Hr s Hs) as [H1 Q1]; destruct (run s) as [a s1]; simpl in *; try done.
  - split; [done|]. by intros ? [= <-].
  - destruct (Hr _ H1) as [H2 Q2]. destruct (run s1). simpl in *. split; [done|].
    by intros ? [= <-].
Qed.

(** [k] holds the value [v] at least until the deadline [t]. *)
Definition holds (k v : text) (t : Z) (s : server) : Prop :=
  ∃ d, entry s k = Some (v, d) ∧ t <= d.

Lemma holds_live k v t s now : holds k v t s → now < t → live now k s = Some v.
Proof.
  intros (d & He & Hd) Hn. unfold live. rewrite He.
  destruct (now <? d) eqn:E; [done|]. apply Z.ltb_ge in E. lia.
Qed.

Lemma SetNX_holds k v t s now k' v' ttl : holds k v t s → now < t →
  holds k v t (SetNX now k' v' ttl s).2 ∧ (k' = k → (SetNX now k' v' ttl s).1 = false).
Proof.
  intros Hh Hn. destruct (decide (k = k')) as [<-|Hk].
  - rewrite setnx_taken; [done|]. rewrite (holds_live _ _ _ _ _ Hh Hn). eauto.
  - split; [|by intros ->]. unfold holds. by rewrite setnx_frame.
Qed.

Lemma unlock_script_frame now k k' v' s :
  k ≠ k' → entry (unlock_script now k' v' s).2 k = entry s k.
Proof.
  intros Hk. unfold unlock_script. destruct (GET now k' s); [|done].
  destruct (text_eqb _ _); [|done]. by apply del_frame.
Qed.

Lemma renew_script_holds k v t s now k' v' n : holds k v t s → now < t →
  (k' = k → v' = v → 0 < n ∧ t <= now + n * second) →
  holds k v t (renew_script now k' v' n s).2.
Proof.
  intros Hh Hn Hv. unfold renew_script. rewrite get_live.
  destruct (decide (k = k')) as [<-|Hk].
  - rewrite (holds_live _ _ _ _ _ Hh Hn). destruct (text_eqb v v') eqn:E; [|done].
    apply text_eqb_true in E as <-. destruct (Hv eq_refl eq_refl) as [Hp Ht].
    exists (now + n * second). split; [|done].
    apply expire_live; [|done]. by apply (holds_live k v t).
  - destruct (live now k' s) as [w|]; [|done]. destruct (text_eqb _ _); [|done].
    unfold holds. by rewrite expire_frame.
Qed.

(** ** The locks of a system *)

(** What a step may do to a lock: its key, value and expiry stay, a cancelled
    one stays cancelled. *)
Definition same_lock (l l' : RedisLock) : Prop :=
  key l' = key l ∧ value l' = value l ∧ expiry l' = expiry l ∧
  (cancelled l = true → cancelled l' = true).

Lemma TryLock_same l d now s r l' s' : TryLock l d now s = (r, l', s') → same_lock l l'.
Proof.
  unfold TryLock. destruct (command _ _ _ _) as [[[]|] s1]; intros [= <- <- <-]; by repeat split.
Qed.
Lemma Unlock_same l d now s r l' s' : Unlock l d now s = (r, l', s') →
  same_lock l l' ∧ cancelled l' = true ∧ r = None ∧ s' = s.
Proof. unfold Unlock, command. simpl. intros [= <- <- <-]. by repeat split. Qed.
Lemma autoRenew_same l d now s l' s' : autoRenew l d now s = (l', s') → same_lock l l'.
Proof.
  unfold autoRenew. destruct (command _ _ _ _) as [[z|] s1]; [destruct (z =? 0)|];
    intros [= <- <-]; by repeat split.
Qed.

Lemma same_lock_refl l : same_lock l l.
Proof. by repeat split. Qed.

(** The values of the locks differ. *)
Definition distinct (σ : System) : Prop := NoDup (value <$> locks σ).

Lemma values_put (σ : System) i l l' s' : locks σ !! i = Some l → same_lock l l' →
  value <$> locks (put σ i l' s') = value <$> locks σ.
Proof.
  intros Hi (_ & Hv & _). unfold put; simpl. apply list_eq. intros j.
  rewrite !list_lookup_fmap. destruct (decide (i = j)) as [<-|Hj].
  - rewrite list_lookup_insert_eq by by eapply lookup_lt_Some. rewrite Hi. simpl. by rewrite Hv.
  - by rewrite list_lookup_insert_ne.
Qed.

Lemma distinct_put (σ : System) i l l' s' : distinct σ → locks σ !! i = Some l → same_lock l l' →
  distinct (put σ i l' s').
Proof. unfold distinct. intros Hd Hi Hl. by rewrite (values_put σ i l l' s' Hi Hl). Qed.

Lemma distinct_new (σ : System) k uuid ttl : distinct σ → uuid ∉ value <$> locks σ →
  distinct {| store := store σ; clock := clock σ; locks := locks σ ++ [NewRedisLock k uuid ttl] |}.
Proof.
  unfold distinct. simpl. intros Hd Hu. rewrite fmap_app, NoDup_app. split; [done|]. split.
  - intros x Hx Hu'. apply list_elem_of_singleton in Hu'. subst. done.
  - apply NoDup_singleton.
Qed.

Lemma distinct_index (σ : System) i j l l' : distinct σ →
  locks σ !! i = Some l → locks σ !! j = Some l' → value l = value l' → i = j.
Proof.
  intros Hd Hi Hj Hv. apply (NoDup_lookup _ i j (value l) Hd); rewrite list_lookup_fmap.
  - by rewrite Hi.
  - by rewrite Hj, Hv.
Qed.

Lemma reachable_distinct (σ : System) : reachable σ → distinct σ.
Proof.
  intros (s & t & Hr). assert (distinct (init s t)) as Hd by apply NoDup_nil_2.
  revert Hd. induction Hr as [|σ σ1 σ2 Hs _ IH]; [done|]. intros Hd. apply IH.
  destruct Hs; [by apply distinct_new|..|done];
    (eapply distinct_put; [done|done|]);
    eauto using TryLock_same, autoRenew_same. by eapply Unlock_same.
Qed.

(** ** A lock that was taken *)

Lemma SetNX_true k v ttl now s : 0 < ttl → (SetNX now k v ttl s).1 = true →
  holds k v (now + ttl) (SetNX now k v ttl s).2.
Proof.
  intros Ht Hs. destruct (live now k s) eqn:El.
  - rewrite setnx_taken in Hs by eauto. done.
  - destruct (setnx_free now k v ttl s El Ht) as [_ He]. by exists (now + ttl).
Qed.

Lemma TryLock_true l d now s l' s' : 0 < expiry l → TryLock l d now s = (Some true, l', s') →
  holds (key l) (value l) (now + expiry l) s'.
Proof.
  intros He. unfold TryLock, command. destruct (cancelled l); [done|].
  destruct d; try done.
  - pose proof (SetNX_true (key l) (value l) (expiry l) now s He) as Hs.
    destruct (SetNX _ _ _ _ s) as [b s1]. intros [= -> _ <-]. by apply Hs.
  - by destruct (SetNX _ _ _ _ s) as [b s1].
  - destruct (SetNX _ _ _ _ s) as [b s1].
    pose proof (SetNX_true (key l) (value l) (expiry l) now s1 He) as Hs.
    destruct (SetNX _ _ _ _ s1) as [b' s2]. intros [= -> _ <-]. by apply Hs.
Qed.

(** The lock of value [v] and expiry [e] was taken at [t] for [k] and its time
    has not run out. *)
Definition taken (k v : text) (e t : Z) (σ : System) : Prop :=
  distinct σ ∧ t <= clock σ ∧ holds k v (t + e) (store σ) ∧
  ∃ i l, locks σ !! i = Some l ∧ value l = v ∧ expiry l = e.

Lemma lock_step_clock (σ σ' : System) : lock_step σ σ' → clock σ <= clock σ'.
Proof. destruct 1; simpl; lia. Qed.

Lemma lock_steps_clock (σ σ' : System) : rtc lock_step σ σ' → clock σ <= clock σ'.
Proof. induction 1 as [|σ σ1 σ' H _ IH]; [lia|]. apply lock_step_clock in H. lia. Qed.

Lemma taken_put k v e t (σ : System) i l l' s' : taken k v e t σ → locks σ !! i = Some l →
  same_lock l l' → holds k v (t + e) s' → taken k v e t (put σ i l' s').
Proof.
  intros (Hd & Ht & _ & j & m & Hj & Hv & He) Hi Hl Hs.
  split; [by eapply distinct_put|]. split; [done|]. split; [done|].
  unfold put; simpl. destruct (decide (i = j)) as [<-|Hn].
  - exists i, l'. rewrite list_lookup_insert_eq by by eapply lookup_lt_Some.
    rewrite Hi in Hj. injection Hj as <-. destruct Hl as (_ & -> & -> & _). done.
  - exists j, m. by rewrite list_lookup_insert_ne.
Qed.

Lemma TryLock_keeps k v t l d now s r l' s' : holds k v t s → now < t →
  TryLock l d now s = (r, l', s') → holds k v t s' ∧ (key l = k → r ≠ Some true).
Proof.
  intros Hh Hn Ht. unfold TryLock in Ht.
  assert (Hc := command_keeps_answer (holds k v t) (λ b, key l = k → b = false) l d
            (SetNX now (key l) (value l) (expiry l)) s Hh
            (λ s Hs, SetNX_holds k v t s now (key l) (value l) (expiry l) Hs Hn)).
  destruct (command _ _ _ _) as [[b|] s1]; destruct Hc as [Hs Hb]; simpl in *;
    injection Ht as <- <- <-; (split; [done|]); [|done].
  intros Hk. by rewrite (Hb _ eq_refl Hk).
Qed.

Lemma autoRenew_keeps k v t l d now s l' s' : holds k v t s → now < t →
  autoRenew l d now s = (l', s') →
  (value l = v → second <= expiry l ∧ t <= now + Z.quot (expiry l) second * second) →
  holds k v t s'.
Proof.
  intros Hh Hn Ha Hv. unfold autoRenew in Ha.
  assert (holds k v t
    (command l d (renew_script now (key l) (value l) (Z.quot (expiry l) second)) s).2) as Hs.
  { apply command_keeps; [done|]. intros s0 H0. apply renew_script_holds; [done..|].
    intros _ Hl. destruct (Hv Hl). split; [|done].
    apply Z.quot_str_pos. unfold second in *. lia. }
  destruct (command _ _ _ _) as [[z|] s1]; by injection Ha as <- <-.
Qed.

(** An expiry of whole seconds. *)
Definition whole (e : Z) : Prop := 0 < e ∧ Z.quot e second * second = e.

Lemma taken_step k v e t (σ σ' : System) : whole e → taken k v e t σ → lock_step σ σ' →
  clock σ' < t + e → taken k v e t σ'.
Proof.
  intros [He Hw] Hσ Hs Hc. pose proof Hσ as (Hd & Ht & Hh & j & m & Hj & Hv & Hm).
  destruct Hs as [σ k' uuid ttl Hu _|σ i l d r l' s' Hi Hr|σ i l d r l' s' Hi Hr
                 |σ i l d l' s' Hi _ Hr|σ t' Hl]; simpl in Hc.
  - split; [by apply distinct_new|]. do 2 (split; [done|]). exists j, m. split; [|done].
    by apply lookup_app_l_Some.
  - eapply taken_put; [done..|by eapply TryLock_same|]. by eapply TryLock_keeps.
  - destruct (Unlock_same _ _ _ _ _ _ _ Hr) as (Hl & _ & _ & ->). by eapply taken_put.
  - eapply taken_put; [done..|by eapply autoRenew_same|]. eapply autoRenew_keeps; [done..|].
    intros Hlv. assert (i = j) as -> by (apply (distinct_index σ i j l m); congruence).
    assert (l = m) as -> by congruence. rewrite Hm. unfold second in *. lia.
  - split; [done|]. simpl. split; [lia|]. split; [done|]. by exists j, m.
Qed.

Lemma taken_steps k v e t (σ σ' : System) : whole e → taken k v e t σ → rtc lock_step σ σ' →
  clock σ' < t + e → taken k v e t σ'.
Proof.
  intros He Hσ Hs. revert Hσ. induction Hs as [|σ σ1 σ' H Hs IH]; [done|]. intros Hσ Hc.
  apply IH; [|done]. eapply taken_step; [done..|]. apply lock_steps_clock in Hs. lia.
Qed.

(** ** A lock that was given back *)

(** Lock [i] of value [v] is cancelled, and holds [k] until [d] at most. *)
Definition given_back (i : nat) (k v : text) (d : Z) (σ : System) : Prop :=
  (∃ l, locks σ !! i = Some l ∧ cancelled l = true) ∧
  (∀ j l, locks σ !! j = Some l → 0 < expiry l) ∧
  match entry (store σ) k with
  | Some (w, d') => (w = v ∧ d' = d) ∨ ∃ j l, j ≠ i ∧ locks σ !! j = Some l ∧ value l = w
  | None => True
  end.

Lemma given_back_put i k v d (σ : System) j l l' s' : given_back i k v d σ →
  locks σ !! j = Some l → same_lock l l' →
  (entry s' k = entry (store σ) k ∨
   j ≠ i ∧ (entry s' k = None ∨ ∃ d', entry s' k = Some (value l, d'))) →
  given_back i k v d (put σ j l' s').
Proof.
  intros ((m & Hi & Hm) & Hp & He) Hj Hl Hs. pose proof Hl as (_ & Hv & Hx & Hca).
  assert (∀ n m', locks σ !! n = Some m' → ∃ m'',
            <[j := l']> (locks σ) !! n = Some m'' ∧ same_lock m' m'') as Hn.
  { intros n m' Hn. destruct (decide (j = n)) as [<-|Hjn].
    - exists l'. rewrite list_lookup_insert_eq by by eapply lookup_lt_Some.
      rewrite Hj in Hn. by injection Hn as <-.
    - exists m'. rewrite list_lookup_insert_ne by done. split; [done|apply same_lock_refl]. }
  split; [|split]; simpl.
  - destruct (Hn i m Hi) as (m' & Hm' & _ & _ & _ & Hc). eauto.
  - intros n x Hnx. destruct (decide (j = n)) as [<-|Hjn].
    + rewrite list_lookup_insert_eq in Hnx by by eapply lookup_lt_Some.
      injection Hnx as <-. rewrite Hx. by eapply Hp.
    + rewrite list_lookup_insert_ne in Hnx by done. by eapply Hp.
  - destruct Hs as [->|[Hji [->|[d' ->]]]]; [|done|].
    + destruct (entry (store σ) k) as [[w d']|]; [|done].
      destruct He as [?|(n & x & Hni & Hx' & <-)]; [by left|right].
      destruct (Hn n x Hx') as (x' & Hx'' & _ & Hxv & _). exists n, x'. by rewrite Hxv.
    + right. destruct (Hn j l Hj) as (x' & Hx'' & _ & Hxv & _). by exists j, x'.
Qed.

(** What a command of a lock does to an entry: nothing, or the lock takes it,
    or it is gone. *)
Definition touched (l : RedisLock) (k : text) (s s' : server) : Prop :=
  entry s' k = entry s k ∨
  cancelled l = false ∧ (entry s' k = None ∨ ∃ d, entry s' k = Some (value l, d)).

Lemma command_touched {A} l d (run : server → A * server) k s :
  (∀ s, entry (run s).2 k = entry s k ∨ entry (run s).2 k = None ∨
        ∃ d, entry (run s).2 k = Some (value l, d)) → touched l k s (command l d run s).2.
Proof.
  intros Hr. unfold touched. destruct (cancelled l) eqn:Ec.
  { unfold command. rewrite Ec. by left. }
  enough (entry (command l d run s).2 k = entry s k ∨
          (entry (command l d run s).2 k = None ∨
           ∃ d', entry (command l d run s).2 k = Some (value l, d'))) as [?|?] by auto.
  apply (command_keeps (λ s', entry s' k = entry s k ∨ entry s' k = None ∨
                              ∃ d', entry s' k = Some (value l, d'))); [by left|].
  intros s1 H1. destruct (Hr s1) as [->|H2]; [done|by right].
Qed.

Lemma SetNX_touched l k now s : 0 < expiry l →
  let s' := (SetNX now (key l) (value l) (expiry l) s).2 in
  entry s' k = entry s k ∨ entry s' k = None ∨ ∃ d, entry s' k = Some (value l, d).
Proof.
  intros He. simpl. destruct (decide (k = key l)) as [->|Hk]; [|left; by apply setnx_frame].
  destruct (live now (key l) s) eqn:El.
  - left. by rewrite setnx_taken by eauto.
  - destruct (setnx_free now (key l) (value l) (expiry l) s El He) as [_ ->]. eauto.
Qed.

Lemma renew_script_touched l k now n s :
  let s' := (renew_script now (key l) (value l) n s).2 in
  entry s' k = entry s k ∨ entry s' k = None ∨ ∃ d, entry s' k = Some (value l, d).
Proof.
  simpl. unfold renew_script. rewrite get_live. destruct (live now (key l) s) as [w|] eqn:El; [|by left].
  destruct (text_eqb w (value l)) eqn:Ew; [|by left]. apply text_eqb_true in Ew as ->.
  destruct (decide (k = key l)) as [->|Hk]; [|left; by apply expire_frame].
  destruct (decide (0 < n)) as [Hn|Hn].
  - rewrite (expire_live _ _ _ _ _ El Hn). eauto.
  - rewrite expire_now by lia. eauto.
Qed.

Lemma given_back_step i k v d (σ σ' : System) :
  given_back i k v d σ → lock_step σ σ' → given_back i k v d σ'.
Proof.
  intros Hσ Hs. pose proof Hσ as ((m & Hi & Hm) & Hp & He).
  assert (∀ j l l' s', locks σ !! j = Some l → same_lock l l' → touched l k (store σ) s' →
            given_back i k v d (put σ j l' s')) as Hput.
  { intros j l l' s' Hj Hl [Ht|[Hc Ht]]; (eapply given_back_put; [done..|]); [by left|right].
    split; [|done]. intros ->. congruence. }
  destruct Hs as [σ k' uuid ttl Hu Ht|σ j l f r l' s' Hj Hr|σ j l f r l' s' Hj Hr
                 |σ j l f l' s' Hj _ Hr|σ t' Hl]; simpl.
  - split; [exists m; split; [by apply lookup_app_l_Some|done]|]. simpl. split.
    + intros j l [Hj|[_ Hj]]%lookup_app_Some; [by eapply Hp|].
      apply list_lookup_singleton_Some in Hj as [_ <-]. done.
    + destruct (entry (store σ) k) as [[w d']|]; [|done].
      destruct He as [?|(n & x & ? & ? & ?)]; [by left|right]. exists n, x.
      split; [done|]. split; [by apply lookup_app_l_Some|done].
  - eapply Hput; [done|by eapply TryLock_same|]. unfold TryLock in Hr.
    pose proof (command_touched l f (SetNX (clock σ) (key l) (value l) (expiry l)) k (store σ)
      (λ s, SetNX_touched l k (clock σ) s (Hp j l Hj))) as Ht.
    destruct (command _ _ _ _) as [[b|] s1]; by injection Hr as <- <- <-.
  - destruct (Unlock_same _ _ _ _ _ _ _ Hr) as (Hl & _ & _ & ->).
    eapply Hput; [done..|by left].
  - eapply Hput; [done|by eapply autoRenew_same|]. unfold autoRenew in Hr.
    pose proof (command_touched l f _ k (store σ)
      (renew_script_touched l k (clock σ) (Z.quot (expiry l) second))) as Ht.
    destruct (command _ _ _ _) as [[b|] s1]; by injection Hr as <- <-.
  - split; [by exists m|done].
Qed.

(** Once a lock is acquired, no lock of the same key is acquired before the
    expiry has passed since: not by another instance, whatever is lost on the
    way and whoever renews or releases.  Not even after the holder itself has
    called [Unlock], which cancels the context before it sends the script with
    that context. *)
Theorem lock_held_until_expiry (σ σ' : System) i l d l' s' j m d' :
  reachable σ → locks σ !! i = Some l → whole (expiry l) →
  TryLock l d (clock σ) (store σ) = (Some true, l', s') →
  rtc lock_step (put σ i l' s') σ' → clock σ' < clock σ + expiry l →
  locks σ' !! j = Some m → key m = key l →
  (TryLock m d' (clock σ') (store σ')).1.1 ≠ Some true.
Proof.
  intros Hr Hi He Ht Hs Hc Hj Hk.
  assert (taken (key l) (value l) (expiry l) (clock σ) (put σ i l' s')) as Hσ.
  { pose proof (TryLock_same _ _ _ _ _ _ _ Ht) as Hl.
    split; [eapply distinct_put; [by apply reachable_distinct|done..]|].
    split; [done|]. split; [by eapply TryLock_true; [apply He|]|].
    exists i, l'. unfold put; simpl. rewrite list_lookup_insert_eq by by eapply lookup_lt_Some.
    by destruct Hl as (_ & -> & -> & _). }
  destruct (taken_steps _ _ _ _ _ _ He Hσ Hs Hc) as (_ & _ & Hh & _).
  destruct (TryLock m d' (clock σ') (store σ')) as [[r m'] s''] eqn:Em. simpl.
  by eapply TryLock_keeps.
Qed.

(** A lock that was given back is free in the end: when the deadline it had
    at its [Unlock] has passed, an answered attempt to acquire the key succeeds,
    unless another lock has taken the key since.  Nobody renews it further. *)
Theorem unlocked_expires (σ σ' : System) i l d r l' s' e m :
  (∀ j l, locks σ !! j = Some l → 0 < expiry l) →
  locks σ !! i = Some l → entry (store σ) (key l) = Some (value l, e) →
  Unlock l d (clock σ) (store σ) = (r, l', s') →
  rtc lock_step (put σ i l' s') σ' → e <= clock σ' →
  key m = key l → 0 < expiry m → cancelled m = false →
  (TryLock m Answered (clock σ') (store σ')).1.1 = Some true ∨
  ∃ j x, j ≠ i ∧ locks σ' !! j = Some x ∧ live (clock σ') (key l) (store σ') = Some (value x).
Proof.
  intros Hp Hi He Hu Hs Hc Hk Hm Hmc.
  destruct (Unlock_same _ _ _ _ _ _ _ Hu) as (Hl & Hlc & _ & ->).
  assert (given_back i (key l) (value l) e (put σ i l' (store σ))) as Hσ.
  { split; [exists l'; split; [|done]|split]; simpl.
    - by rewrite list_lookup_insert_eq by by eapply lookup_lt_Some.
    - intros j x Hj. destruct (decide (i = j)) as [<-|Hij].
      + rewrite list_lookup_insert_eq in Hj by by eapply lookup_lt_Some.
        injection Hj as <-. destruct Hl as (_ & _ & -> & _). by eapply Hp.
      + rewrite list_lookup_insert_ne in Hj by done. by eapply Hp.
    - rewrite He. by left. }
  clear Hu. revert Hσ. induction Hs as [σ1|σ1 σ2 σ3 H1 _ IH]; intros Hσ;
    [|by apply IH; [|eapply given_back_step]].
  destruct Hσ as (_ & _ & He').
  unfold TryLock, command. rewrite Hmc, Hk. destruct (live (clock σ1) (key l) (store σ1)) eqn:El.
  - right. unfold live in El. destruct (entry (store σ1) (key l)) as [[w d']|] eqn:E; [|done].
    destruct (clock σ1 <? d') eqn:Ed; [|done]. injection El as <-. apply Z.ltb_lt in Ed.
    destruct He' as [[-> ->]|(j & x & Hj & Hx & <-)]; [lia|]. by exists j, x.
  - left. destruct (setnx_free (clock σ1) (key l) (value m) (expiry m) (store σ1) El Hm) as [Ht _].
    destruct (SetNX _ _ _ _ _) as [b s1]. by simpl in Ht; subst b.
Qed.
End facts.

(** ** Configuration changes *)

(** [ConfigSyncManager]: the channel delivers each payload to every subscriber;
    [Marshal] and [Unmarshal] are those of [encoding/json] on a map of strings. *)
Module ConfigSync.
Section sync.
Context {A : Type} (Marshal : gmap text text → text) (Unmarshal : text → option (gmap text text)).

Definition PublishConfigChange (timestamp key value : text) : text :=
  Marshal (list_to_map [(txt "key", key); (txt "value", value); (txt "timestamp", timestamp)]).

(** The calls of the listeners, each of which runs on its own; a key that is not
    in the map reads as the empty string. *)
Definition handleMessage (listeners : list (text → text → A)) (payload : text) : list A :=
  match Unmarshal payload with
  | None => []
  | Some data =>
      let key := default [] (data !! txt "key") in
      let value := default [] (data !! txt "value") in
      (λ listener, listener key value) <$> listeners
  end.

(** Every listener hears of the change that was published. *)
Lemma handled_published ls timestamp key value :
  (∀ m, Unmarshal (Marshal m) = Some m) →
  handleMessage ls (PublishConfigChange timestamp key value) =
  (λ listener, listener key value) <$> ls.
Proof.
  intros Hm. unfold handleMessage, PublishConfigChange. rewrite Hm. simpl.
  rewrite lookup_insert_eq, lookup_insert_ne, lookup_insert_eq by done. done.
Qed.
End sync.
End ConfigSync.

(** ** A server in memory *)

Section memory.
Definition mem_live (now : Z) (k : text) (s : gmap text (text * Z)) : option text :=
  match s !! k with Some (v, d) => if now <? d then Some v else None | None => None end.

#[global] Instance mem_redis : Redis := {
  server := gmap text (text * Z);
  SetNX now k v ttl s :=
    if mem_live now k s is Some _ then (false, s) else (true, <[k := (v, now + ttl)]> s);
  GET := mem_live;
  DEL now k s := (if mem_live now k s is Some _ then 1 else 0, delete k s);
  EXPIRE now k n s :=
    if n <=? 0 then (1, delete k s)
    else match mem_live now k s with
         | Some v => (1, <[k := (v, now + n * second)]> s)
         | None => (0, s)
         end;
  EXISTS now k s := if mem_live now k s is Some _ then 1 else 0
}.

#[global] Instance mem_laws : RedisLaws mem_redis.
Proof.
  refine {| entry (s : @server mem_redis) k := (s : gmap text (text * Z)) !! k |}; try done; simpl.
  - intros now k v ttl s. unfold mem_live. intros [w Hw]. destruct (s !! k) as [[w' d]|]; [|done].
    by destruct (now <? d).
  - intros now k v ttl s Hl _. unfold mem_live. rewrite Hl. simpl. split; [done|].
    apply lookup_insert_eq.
  - intros. apply lookup_delete_eq.
  - intros now k n s v Hl Hn. unfold mem_live. rewrite Hl. destruct (n <=? 0) eqn:E.
    + apply Z.leb_le in E. lia.
    + apply lookup_insert_eq.
  - intros now k n s Hn. destruct (n <=? 0) eqn:E; [apply lookup_delete_eq|].
    apply Z.leb_gt in E. lia.
  - intros now k v ttl s k' Hk. destruct (mem_live now k s); [done|]. by apply lookup_insert_ne.
  - intros now k s k' Hk. by apply lookup_delete_ne.
  - intros now k n s k' Hk. destruct (n <=? 0); simpl; [by apply lookup_delete_ne|].
    destruct (mem_live now k s); [by apply lookup_insert_ne|done].
Defined.
End memory.

(** ** Concrete runs: two instances and one key *)

Definition minute : Z := 60 * second.
Definition lock_a : RedisLock := NewRedisLock (txt "check") (txt "a") (10 * minute).
Definition lock_b : RedisLock := NewRedisLock (txt "check") (txt "b") (10 * minute).

Definition two_locks : System := {| store := ∅; clock := 0; locks := [lock_a; lock_b] |}.

Definition a_took : @server mem_redis := {[ txt "check" := (txt "a", 10 * minute) ]}.

(** [a] has acquired and released the lock; the clock is at [t]. *)
Definition a_released (t : Z) : System :=
  {| store := a_took; clock := t; locks := [set_cancelled (set_renewing lock_a true); lock_b] |}.

Lemma two_locks_reachable : reachable two_locks.
Proof.
  exists ∅, 0. eapply rtc_l.
  { apply (step_new _ (txt "check") (txt "a") (10 * minute)); [by apply not_elem_of_nil|done]. }
  eapply rtc_l; [|apply rtc_refl].
  apply (step_new {| store := ∅; clock := 0; locks := [lock_a] |}
           (txt "check") (txt "b") (10 * minute)); [|done].
  simpl. by intros ?%list_elem_of_singleton.
Qed.

Lemma a_takes : TryLock lock_a Answered (clock two_locks) (store two_locks) =
  (Some true, set_renewing lock_a true, a_took).
Proof. vm_compute. reflexivity. Qed.

Lemma a_releases t : 0 <= t →
  rtc lock_step (put two_locks 0 (set_renewing lock_a true) a_took) (a_released t).
Proof.
  intros Ht. eapply rtc_l; [|eapply rtc_l; [|apply rtc_refl]].
  - apply (step_unlock _ 0 (set_renewing lock_a true) Answered None
             (set_cancelled (set_renewing lock_a true)) a_took); done.
  - by apply (step_time (a_released 0)).
Qed.

Lemma lock_held_until_expiry_witness :
  clock (a_released (5 * minute)) < 0 + expiry lock_a ∧
  (TryLock lock_b Answered (clock (a_released (5 * minute))) (store (a_released (5 * minute)))).1.1
    ≠ Some true.
Proof.
  split; [by vm_compute|].
  apply (lock_held_until_expiry two_locks (a_released (5 * minute)) 0 lock_a Answered
           (set_renewing lock_a true) a_took 1 lock_b Answered).
  - exact two_locks_reachable.
  - reflexivity.
  - split; by vm_compute.
  - exact a_takes.
  - apply a_releases. by vm_compute.
  - by vm_compute.
  - reflexivity.
  - reflexivity.
Defined.

Lemma unlocked_expires_witness :
  10 * minute <= clock (a_released (10 * minute)) ∧
  ((TryLock lock_b Answered (clock (a_released (10 * minute))) (store (a_released (10 * minute)))).1.1
     = Some true ∨
   ∃ j x, j ≠ 0%nat ∧ locks (a_released (10 * minute)) !! j = Some x ∧
     live (clock (a_released (10 * minute))) (txt "check") (store (a_released (10 * minute)))
       = Some (value x)).
Proof.
  split; [by vm_compute|].
  apply (unlocked_expires (put two_locks 0 (set_renewing lock_a true) a_took)
           (a_released (10 * minute)) 0 (set_renewing lock_a true) Answered None
           (set_cancelled (set_renewing lock_a true)) a_took (10 * minute) lock_b).
  - intros [|[|j]] l Hl; simpl in Hl; by simplify_eq.
  - reflexivity.
  - reflexivity.
  - reflexivity.
  - eapply rtc_l; [|apply rtc_refl]. by apply (step_time (a_released 0)); vm_compute.
  - by vm_compute.
  - reflexivity.
  - by vm_compute.
  - reflexivity.
Defined.

(** An interval of [1/3] of the expiry passes between two renewals: a holder
    that is alive keeps the lock past its first deadline. *)
Example renewal_extends :
  (autoRenew (set_renewing lock_a true) Answered (5 * minute) a_took).2 =
  {[ txt "check" := (txt "a", 15 * minute) ]}.
Proof. vm_compute. reflexivity. Qed.
