(* ===== verification/HostMonitor.v ===== *)
(** * The monitoring of hosts

    [HostMonitorService] of [internal/service/host_monitor_service.go], with the
    handlers of [internal/api/handler/host_monitor_handler.go].  The probes are
    parameters: what the network answers to a connection, to [ping] and to a
    request.  Three parts: the configuration read from the settings; the ticker,
    whose starts, stops and reloads run in several goroutines and are cut into
    the sections between two operations on the mutex or a channel
    ([ticker_step]); the check of all hosts, one goroutine per host behind a
    semaphore ([check_step]), under the lock of [RedisLock].  Durations are in
    nanoseconds; the log is not modelled. *)

From stdpp Require Import base list strings gmap relations pretty.
From Stdlib Require Import ZArith Lia.
From S2P Require Import Prelude GoStrings Gorm Models Database Repositories RedisLock.
Local Open Scope Z_scope.

(** ** The configuration *)

Module Config.
Record t := { Enabled : bool; Interval : Z; Method : text; Timeout : Z; Concurrent : Z }.
End Config.

(** The fields [config] and [interval] of the service. *)
Record Monitor := { config : Config.t; interval : Z }.

Definition MonitorMethodTCP : text := txt "tcp".
Definition MonitorMethodICMP : text := txt "icmp".
Definition MonitorMethodHTTP : text := txt "http".

(** [time.Duration(n) * time.Minute]. *)
Definition minutes (n : Z) : Z := wrap64 (n * minute).

Definition set_enabled (m : Monitor) (b : bool) : Monitor :=
  let c := config m in
  {| config := {| Config.Enabled := b; Config.Interval := Config.Interval c;
                  Config.Method := Config.Method c; Config.Timeout := Config.Timeout c;
                  Config.Concurrent := Config.Concurrent c |}; interval := interval m |}.
Definition set_interval (m : Monitor) (n : Z) : Monitor :=
  let c := config m in
  {| config := {| Config.Enabled := Config.Enabled c; Config.Interval := n;
                  Config.Method := Config.Method c; Config.Timeout := Config.Timeout c;
                  Config.Concurrent := Config.Concurrent c |}; interval := minutes n |}.
Definition set_method (m : Monitor) (s : text) : Monitor :=
  let c := config m in
  {| config := {| Config.Enabled := Config.Enabled c; Config.Interval := Config.Interval c;
                  Config.Method := s; Config.Timeout := Config.Timeout c;
                  Config.Concurrent := Config.Concurrent c |}; interval := interval m |}.
Definition set_timeout (m : Monitor) (n : Z) : Monitor :=
  let c := config m in
  {| config := {| Config.Enabled := Config.Enabled c; Config.Interval := Config.Interval c;
                  Config.Method := Config.Method c; Config.Timeout := n;
                  Config.Concurrent := Config.Concurrent c |}; interval := interval m |}.
Definition set_concurrent (m : Monitor) (n : Z) : Monitor :=
  let c := config m in
  {| config := {| Config.Enabled := Config.Enabled c; Config.Interval := Config.Interval c;
                  Config.Method := Config.Method c; Config.Timeout := Config.Timeout c;
                  Config.Concurrent := n |}; interval := interval m |}.

(** [if v, err := settingRepo.Get(key); err == nil && v != ""]. *)
Definition read_setting (key : text) (update : text → Monitor → Monitor) (m : Monitor)
    : DB Monitor :=
  v ← attempt (GetSetting key);
  mret (match v with
        | Some v => if is_empty v then m else update v m
        | None => m
        end).

(** [if val, err := strconv.Atoi(v); err == nil && val > 0]. *)
Definition if_positive (set : Monitor → Z → Monitor) (v : text) (m : Monitor) : Monitor :=
  match atoi v with Some n => if 0 <? n then set m n else m | None => m end.

Definition loadConfig (m : Monitor) : DB Monitor :=
  m ← read_setting (txt "host_monitor_enabled") (λ v m, set_enabled m (text_eqb v (txt "true"))) m;
  m ← read_setting (txt "host_monitor_interval") (if_positive set_interval) m;
  m ← read_setting (txt "host_monitor_method") (λ v m, set_method m v) m;
  m ← read_setting (txt "host_monitor_timeout") (if_positive set_timeout) m;
  read_setting (txt "host_monitor_concurrent") (if_positive set_concurrent) m.

(** [NewHostMonitorService], up to the subscription. *)
Definition NewHostMonitorService (intervalMinutes : Z) : DB Monitor :=
  let intervalMinutes := if intervalMinutes <=? 0 then 5 else intervalMinutes in
  loadConfig {| config := {| Config.Enabled := true; Config.Interval := intervalMinutes;
                             Config.Method := MonitorMethodTCP; Config.Timeout := 3;
                             Config.Concurrent := 20 |};
                interval := minutes intervalMinutes |}.

(** The listener of configuration changes reloads on these keys. *)
Definition listened (key : text) : bool :=
  existsb (text_eqb key) (txt <$>
    ["host_monitor_enabled"; "host_monitor_interval"; "host_monitor_method";
     "host_monitor_timeout"; "host_monitor_concurrent"]%string).

(** The configuration is usable: a semaphore with room, a timeout; the
    interval is that of the configuration. *)
Definition monitor_ok (m : Monitor) : Prop :=
  0 < Config.Interval (config m) ∧ 0 < Config.Timeout (config m) ∧
  0 < Config.Concurrent (config m) ∧ interval m = minutes (Config.Interval (config m)).

Lemma read_setting_run key update m db f : ∃ m' f',
  read_setting key update m db f = (Ok m', db, f') ∧ (m' = m ∨ ∃ v, m' = update v m).
Proof.
  unfold read_setting. rewrite bind_run. unfold attempt.
  assert (reads (GetSetting key)) as Hr by (unfold GetSetting; preserves_tac).
  destruct (GetSetting key db f) as [[[v|e] db'] f'] eqn:E;
    rewrite (reads_run _ _ _ _ _ _ Hr E).
  - destruct (is_empty v); eauto 6.
  - eauto.
Qed.

Lemma set_interval_ok m n : monitor_ok m → 0 < n → monitor_ok (set_interval m n).
Proof. by intros (? & ? & ? & ?). Qed.
Lemma set_timeout_ok m n : monitor_ok m → 0 < n → monitor_ok (set_timeout m n).
Proof. by intros (? & ? & ? & ?). Qed.
Lemma set_concurrent_ok m n : monitor_ok m → 0 < n → monitor_ok (set_concurrent m n).
Proof. by intros (? & ? & ? & ?). Qed.

Lemma if_positive_ok set v m : (∀ m n, monitor_ok m → 0 < n → monitor_ok (set m n)) →
  monitor_ok m → monitor_ok (if_positive set v m).
Proof.
  intros Hs Hm. unfold if_positive. destruct (atoi v) as [n|]; [|done].
  destruct (0 <? n) eqn:En; [|done]. apply Hs; [done|]. by apply Z.ltb_lt.
Qed.

Lemma read_setting_ok key update m (k : Monitor → DB Monitor) db f : monitor_ok m →
  (∀ v m, monitor_ok m → monitor_ok (update v m)) →
  (∀ m f, monitor_ok m → ∃ m' f', k m db f = (Ok m', db, f') ∧ monitor_ok m') →
  ∃ m' f', (read_setting key update m ≫= k) db f = (Ok m', db, f') ∧ monitor_ok m'.
Proof.
  intros Hm Hu Hk. rewrite bind_run.
  destruct (read_setting_run key update m db f) as (m1 & f1 & -> & [->|[v ->]]); auto.
Qed.

(** Whatever the settings hold and whichever queries fail, a load succeeds,
    leaves the tables alone, and keeps the configuration usable. *)
Lemma loadConfig_ok m db f : monitor_ok m → ∃ m' f',
  loadConfig m db f = (Ok m', db, f') ∧ monitor_ok m'.
Proof.
  intros Hm. unfold loadConfig.
  apply read_setting_ok; [done|by intros|]. intros m1 f1 H1.
  apply read_setting_ok; [done|intros; by apply if_positive_ok; [apply set_interval_ok|]|].
  intros m2 f2 H2. apply read_setting_ok; [done|by intros|]. intros m3 f3 H3.
  apply read_setting_ok; [done|intros; by apply if_positive_ok; [apply set_timeout_ok|]|].
  intros m4 f4 H4.
  destruct (read_setting_run (txt "host_monitor_concurrent") (if_positive set_concurrent) m4 db f4)
    as (m5 & f5 & -> & [->|[v ->]]); do 2 eexists; (split; [done|]); [done|].
  by apply if_positive_ok; [apply set_concurrent_ok|].
Qed.

(** ** The ticker *)

(** A goroutine of [startTicker]: the period of its ticker, and whether its
    channels [tickerStop] and [tickerStopped] are closed. *)
Module Ticking.
Record t := { period : Z; stopping : bool; stopped : bool }.

Definition start (p : Z) : t := {| period := p; stopping := false; stopped := false |}.
Definition stop (g : t) : t := {| period := period g; stopping := true; stopped := stopped g |}.
Definition finish (g : t) : t := {| period := period g; stopping := stopping g; stopped := true |}.
End Ticking.

(** The fields the ticker uses.  [tickerStop] and [tickerStopped] are made and
    cleared together: [chans] is the goroutine they belong to, or [nil];
    [shutdown] is the closed [stopChan]. *)
Record Ticker := {
  monitor : Monitor; chans : option nat; isRunning : bool; shutdown : bool;
  goroutines : list Ticking.t
}.

Definition with_monitor (t : Ticker) (m : Monitor) : Ticker :=
  {| monitor := m; chans := chans t; isRunning := isRunning t; shutdown := shutdown t;
     goroutines := goroutines t |}.
Definition with_chans (t : Ticker) (c : option nat) : Ticker :=
  {| monitor := monitor t; chans := c; isRunning := isRunning t; shutdown := shutdown t;
     goroutines := goroutines t |}.
Definition with_running (t : Ticker) (b : bool) : Ticker :=
  {| monitor := monitor t; chans := chans t; isRunning := b; shutdown := shutdown t;
     goroutines := goroutines t |}.
Definition with_shutdown (t : Ticker) : Ticker :=
  {| monitor := monitor t; chans := chans t; isRunning := isRunning t; shutdown := true;
     goroutines := goroutines t |}.
Definition with_goroutines (t : Ticker) (gs : list Ticking.t) : Ticker :=
  {| monitor := monitor t; chans := chans t; isRunning := isRunning t; shutdown := shutdown t;
     goroutines := gs |}.

(** The sections of [Start], [ReloadConfig], [startTicker] and
    [stopTickerInternal] between two operations on a mutex or a channel; an
    operation on channels carries those its goroutine saved. *)
Inductive instr :=
| ReadInterval | ReadEnabled | LoadConfig | ReadNewEnabled | Compare
| StartIfEnabled | StartTicker | NewTicker
| StopTicker | CloseStop (c : option nat) | AwaitStopped (c : option nat) | ClearTicker.

(** A goroutine that runs them: its locals and what it has still to do. *)
Record Thread := { oldInterval : Z; oldEnabled : bool; newEnabled : bool; code : list instr }.

Definition goto (th : Thread) (k : list instr) : Thread :=
  {| oldInterval := oldInterval th; oldEnabled := oldEnabled th; newEnabled := newEnabled th;
     code := k |}.
Definition set_oldInterval (th : Thread) (z : Z) : Thread :=
  {| oldInterval := z; oldEnabled := oldEnabled th; newEnabled := newEnabled th; code := code th |}.
Definition set_oldEnabled (th : Thread) (b : bool) : Thread :=
  {| oldInterval := oldInterval th; oldEnabled := b; newEnabled := newEnabled th; code := code th |}.
Definition set_newEnabled (th : Thread) (b : bool) : Thread :=
  {| oldInterval := oldInterval th; oldEnabled := oldEnabled th; newEnabled := b; code := code th |}.

Definition call (k : list instr) : Thread :=
  {| oldInterval := 0; oldEnabled := false; newEnabled := false; code := k |}.

Definition ReloadConfig : Thread :=
  call [ReadInterval; ReadEnabled; LoadConfig; ReadNewEnabled; Compare].
Definition Start : Thread := call [ReadEnabled; StartIfEnabled].

(** The end of [startTicker]: [time.NewTicker] panics unless the interval is
    positive. *)
Definition newTicker (t : Ticker) : option Ticker :=
  let p := interval (monitor t) in
  if p <=? 0 then None
  else Some (with_goroutines (with_running (with_chans t (Some (length (goroutines t)))) true)
                             (goroutines t ++ [Ticking.start p])).

(** What the comparison of the old and the new configuration calls. *)
Definition reaction (th : Thread) (now : Z) : list instr :=
  if negb (eqb (oldEnabled th) (newEnabled th)) then
    if newEnabled th then [StartTicker] else [StopTicker]
  else if newEnabled th && negb (oldInterval th =? now) then [StopTicker; StartTicker]
  else [].

Inductive outcome := Next (t : Ticker) (th : Thread) | Blocked | Panicked.

Definition next_or_panic (o : option Ticker) (th : Thread) : outcome :=
  match o with Some t => Next t th | None => Panicked end.

(** The first section of a thread; [load] is [loadConfig]. *)
Definition exec (load : Monitor → Monitor) (th : Thread) (t : Ticker) : outcome :=
  match code th with
  | [] => Blocked
  | i :: k =>
      match i with
      | ReadInterval => Next t (set_oldInterval (goto th k) (interval (monitor t)))
      | ReadEnabled => Next t (set_oldEnabled (goto th k) (Config.Enabled (config (monitor t))))
      | LoadConfig => Next (with_monitor t (load (monitor t))) (goto th k)
      | ReadNewEnabled => Next t (set_newEnabled (goto th k) (Config.Enabled (config (monitor t))))
      | Compare => Next t (goto th (reaction th (interval (monitor t)) ++ k))
      | StartIfEnabled => Next t (goto th (if oldEnabled th then StartTicker :: k else k))
      | StartTicker =>
          if isRunning t then Next t (goto th (StopTicker :: NewTicker :: k))
          else next_or_panic (newTicker t) (goto th k)
      | NewTicker => next_or_panic (newTicker t) (goto th k)
      | StopTicker =>
          if isRunning t
          then Next (with_running t false)
                    (goto th (CloseStop (chans t) :: AwaitStopped (chans t) :: ClearTicker :: k))
          else Next t (goto th k)
      | CloseStop None => Panicked
      | CloseStop (Some c) =>
          match goroutines t !! c with
          | None => Panicked
          | Some g =>
              if Ticking.stopping g then Panicked
              else Next (with_goroutines t (<[c := Ticking.stop g]> (goroutines t))) (goto th k)
          end
      | AwaitStopped None => Blocked
      | AwaitStopped (Some c) =>
          match goroutines t !! c with
          | Some g => if Ticking.stopped g then Next t (goto th k) else Blocked
          | None => Blocked
          end
      | ClearTicker => Next (with_chans t None) (goto th k)
      end
  end.

(** [Stop]: a second [close(stopChan)] panics; it then waits for the
    goroutines. *)
Definition Stop (t : Ticker) : option Ticker :=
  if shutdown t then None else Some (with_shutdown t).

Record World := { ticker : Ticker; threads : list Thread; panicked : bool }.

Inductive ticker_step (load : Monitor → Monitor) : World → World → Prop :=
| step_thread t ths i th t' th' : ths !! i = Some th → exec load th t = Next t' th' →
    ticker_step load {| ticker := t; threads := ths; panicked := false |}
      {| ticker := t'; threads := <[i := th']> ths; panicked := false |}
| step_panic t ths i th : ths !! i = Some th → exec load th t = Panicked →
    ticker_step load {| ticker := t; threads := ths; panicked := false |}
      {| ticker := t; threads := ths; panicked := true |}
| step_stopped t ths c g : goroutines t !! c = Some g →
    Ticking.stopping g = true → Ticking.stopped g = false →
    ticker_step load {| ticker := t; threads := ths; panicked := false |}
      {| ticker := with_goroutines t (<[c := Ticking.finish g]> (goroutines t));
         threads := ths; panicked := false |}
| step_shutdown t ths c g : goroutines t !! c = Some g →
    shutdown t = true → Ticking.stopped g = false →
    ticker_step load {| ticker := t; threads := ths; panicked := false |}
      {| ticker := with_running (with_goroutines t (<[c := Ticking.finish g]> (goroutines t))) false;
         threads := ths; panicked := false |}.

(** *** Termination

    Every step uses up a section or ends a goroutine: whatever the schedule,
    the calls that were made come to an end. *)

Definition weight (i : instr) : nat :=
  match i with
  | StartIfEnabled => 8
  | Compare => 12
  | StartTicker => 7
  | NewTicker => 2
  | StopTicker => 4
  | _ => 1
  end.

Definition live_goroutines (gs : list Ticking.t) : nat :=
  sum_list_with (λ g, if Ticking.stopped g then 0 else 1)%nat gs.

Definition measure (w : World) : nat :=
  (sum_list_with (λ th, sum_list_with weight (code th)) (threads w) +
   live_goroutines (goroutines (ticker w)) + if panicked w then 0 else 1)%nat.

Lemma sum_list_with_insert {A} (f : A → nat) l i x y : l !! i = Some x →
  (sum_list_with f (<[i := y]> l) + f x = sum_list_with f l + f y)%nat.
Proof. revert i. induction l as [|z l IH]; intros [|i] Hi; simplify_eq/=; [lia|]. specialize (IH _ Hi). lia. Qed.

Lemma live_insert gs c g g' : gs !! c = Some g → Ticking.stopped g' = Ticking.stopped g →
  live_goroutines (<[c := g']> gs) = live_goroutines gs.
Proof.
  intros Hc Hg. unfold live_goroutines.
  pose proof (sum_list_with_insert (λ g, if Ticking.stopped g then 0 else 1)%nat gs c g g' Hc) as H.
  simpl in H. rewrite Hg in H. lia.
Qed.

Lemma live_finish gs c g : gs !! c = Some g → Ticking.stopped g = false →
  S (live_goroutines (<[c := Ticking.finish g]> gs)) = live_goroutines gs.
Proof.
  intros Hc Hg. unfold live_goroutines.
  pose proof (sum_list_with_insert (λ g, if Ticking.stopped g then 0 else 1)%nat gs c g
                (Ticking.finish g) Hc) as H. simpl in H. rewrite Hg in H. lia.
Qed.

Lemma newTicker_live t t' : newTicker t = Some t' →
  live_goroutines (goroutines t') = S (live_goroutines (goroutines t)).
Proof.
  unfold newTicker. destruct (_ <=? 0); [done|]. intros [= <-].
  cbn [goroutines with_goroutines]. unfold live_goroutines. rewrite sum_list_with_app. simpl. lia.
Qed.

Lemma reaction_weight th now : (sum_list_with weight (reaction th now) <= 11)%nat.
Proof. unfold reaction. repeat case_match; simpl; lia. Qed.

Lemma next_or_panic_Next o th t' th' :
  next_or_panic o th = Next t' th' → o = Some t' ∧ th' = th.
Proof. destruct o; [|done]. by intros [= <- <-]. Qed.

Lemma exec_measure load th t t' th' : exec load th t = Next t' th' →
  (sum_list_with weight (code th') + live_goroutines (goroutines t') <
   sum_list_with weight (code th) + live_goroutines (goroutines t))%nat.
Proof.
  unfold exec. destruct (code th) as [|i k] eqn:Ek; [done|].
  destruct i as [| | | | | | | | |[c|]|[c|]|]; try done; try (intros [= <- <-]; simpl; lia).
  - intros [= <- <-]. cbn [code goto]. rewrite sum_list_with_app.
    pose proof (reaction_weight th (interval (monitor t))). simpl. lia.
  - intros [= <- <-]. cbn [code goto]. destruct (oldEnabled th); simpl; lia.
  - destruct (isRunning t); [intros [= <- <-]; simpl; lia|].
    intros [Ht ->]%next_or_panic_Next. rewrite (newTicker_live _ _ Ht). simpl. lia.
  - intros [Ht ->]%next_or_panic_Next. rewrite (newTicker_live _ _ Ht). simpl. lia.
  - destruct (isRunning t); intros [= <- <-]; simpl; lia.
  - destruct (goroutines t !! c) as [g|] eqn:Hg; [|done]. destruct (Ticking.stopping g); [done|].
    intros [= <- <-]. cbn [goroutines with_goroutines code goto].
    rewrite (live_insert _ c g) by done. simpl. lia.
  - destruct (goroutines t !! c) as [g|]; [|done]. destruct (Ticking.stopped g); [|done].
    intros [= <- <-]. simpl. lia.
Qed.

Lemma ticker_step_measure load w w' : ticker_step load w w' → (measure w' < measure w)%nat.
Proof.
  destruct 1 as [t ths i th t' th' Hi He|t ths i th Hi He|t ths c g Hc _ Hg|t ths c g Hc _ Hg];
    unfold measure; cbn [ticker threads panicked goroutines with_goroutines with_running].
  - apply exec_measure in He.
    pose proof (sum_list_with_insert (λ th, sum_list_with weight (code th)) ths i th th' Hi) as H.
    simpl in H. lia.
  - lia.
  - pose proof (live_finish _ _ _ Hc Hg). lia.
  - pose proof (live_finish _ _ _ Hc Hg). lia.
Qed.

Lemma ticker_step_sn load w : sn (ticker_step load) w.
Proof.
  induction (well_founded_ltof _ measure w) as [w _ IH]. constructor. intros w' Hw.
  apply IH. by apply ticker_step_measure in Hw.
Qed.

(** *** One call at a time *)

(** No goroutine but [c] is left. *)
Definition others_stopped (c : nat) (gs : list Ticking.t) : Prop :=
  ∀ c' g, c' ≠ c → gs !! c' = Some g → Ticking.stopped g = true.
Definition all_stopped (gs : list Ticking.t) : Prop := Forall (λ g, Ticking.stopped g = true) gs.

Definition idle (t : Ticker) : Prop :=
  isRunning t = false ∧ chans t = None ∧ all_stopped (goroutines t).

(** One goroutine ticks, with period [p], and the channels are its own. *)
Definition ticking (t : Ticker) (c : nat) (p : Z) : Prop :=
  isRunning t = true ∧ chans t = Some c ∧ goroutines t !! c = Some (Ticking.start p) ∧
  others_stopped c (goroutines t).

(** The ticker runs exactly when the monitoring is enabled, with the
    interval given. *)
Definition runs (t : Ticker) (enabled : bool) (p : Z) : Prop :=
  if enabled then ∃ c, ticking t c p else idle t.

Definition ticker_ok (t : Ticker) : Prop :=
  runs t (Config.Enabled (config (monitor t))) (interval (monitor t)).

(** What is left to do once the old ticker is gone, for the configuration [m]. *)
Definition restart (m : Monitor) : list instr :=
  if Config.Enabled (config m) then [StartTicker] else [].

(** The points a reload goes through, from the configuration [m0] to [m1]. *)
Inductive stage (m0 m1 : Monitor) (th : Thread) (t : Ticker) : Prop :=
| at_start : code th = [ReadInterval; ReadEnabled; LoadConfig; ReadNewEnabled; Compare] →
    monitor t = m0 → ticker_ok t → stage m0 m1 th t
| at_enabled : code th = [ReadEnabled; LoadConfig; ReadNewEnabled; Compare] →
    oldInterval th = interval m0 → monitor t = m0 → ticker_ok t → stage m0 m1 th t
| at_load : code th = [LoadConfig; ReadNewEnabled; Compare] →
    oldInterval th = interval m0 → oldEnabled th = Config.Enabled (config m0) →
    monitor t = m0 → ticker_ok t → stage m0 m1 th t
| at_new : code th = [ReadNewEnabled; Compare] → monitor t = m1 →
    oldInterval th = interval m0 → oldEnabled th = Config.Enabled (config m0) →
    runs t (Config.Enabled (config m0)) (interval m0) → stage m0 m1 th t
| at_compare : code th = [Compare] → monitor t = m1 →
    oldInterval th = interval m0 → oldEnabled th = Config.Enabled (config m0) →
    newEnabled th = Config.Enabled (config m1) →
    runs t (Config.Enabled (config m0)) (interval m0) → stage m0 m1 th t
| at_stop c p : code th = StopTicker :: restart m1 → monitor t = m1 →
    ticking t c p → stage m0 m1 th t
| at_close c p : code th = CloseStop (Some c) :: AwaitStopped (Some c) :: ClearTicker :: restart m1 →
    monitor t = m1 → isRunning t = false → goroutines t !! c = Some (Ticking.start p) →
    others_stopped c (goroutines t) → stage m0 m1 th t
| at_await c g : code th = AwaitStopped (Some c) :: ClearTicker :: restart m1 →
    monitor t = m1 → isRunning t = false → goroutines t !! c = Some g →
    Ticking.stopping g = true → others_stopped c (goroutines t) → stage m0 m1 th t
| at_clear : code th = ClearTicker :: restart m1 → monitor t = m1 → isRunning t = false →
    all_stopped (goroutines t) → stage m0 m1 th t
| at_restart : code th = restart m1 → monitor t = m1 → idle t → stage m0 m1 th t
| at_end : code th = [] → monitor t = m1 → ticker_ok t → stage m0 m1 th t.

Lemma others_start gs p : all_stopped gs →
  (gs ++ [Ticking.start p]) !! length gs = Some (Ticking.start p) ∧
  others_stopped (length gs) (gs ++ [Ticking.start p]).
Proof.
  intros Hg. split; [by apply list_lookup_middle|].
  intros c g Hc [Hl|[Hn Hl]]%lookup_app_Some.
  - by eapply (Forall_lookup_1 _ _ _ _ Hg).
  - apply list_lookup_singleton_Some in Hl as [Hl _]. lia.
Qed.

Lemma others_insert c g gs : others_stopped c gs → others_stopped c (<[c := g]> gs).
Proof. intros Ho c' g' Hc. rewrite list_lookup_insert_ne by done. by apply Ho. Qed.

Lemma others_all c g gs : gs !! c = Some g → Ticking.stopped g = true → others_stopped c gs →
  all_stopped gs.
Proof.
  intros Hc Hg Ho. apply Forall_lookup. intros i x Hx.
  destruct (decide (i = c)) as [->|Hi]; [congruence|by eapply Ho].
Qed.

Section one_call.
Context (load : Monitor → Monitor) (m0 : Monitor).
Notation m1 := (load m0).
Context (usable : Config.Enabled (config m1) = true → 0 < interval m1).

Lemma newTicker_ok t : monitor t = m1 → Config.Enabled (config m1) = true →
  idle t → ∃ t', newTicker t = Some t' ∧ monitor t' = m1 ∧ shutdown t' = shutdown t ∧ ticker_ok t'.
Proof.
  intros Hm He (_ & _ & Hg). unfold newTicker. rewrite Hm. pose proof (usable He).
  destruct (interval m1 <=? 0) eqn:Ei; [apply Z.leb_le in Ei; lia|]. eexists. split; [done|].
  split; [done|]. split; [done|].
  unfold ticker_ok. cbn [monitor with_goroutines with_running with_chans]. rewrite Hm, He.
  exists (length (goroutines t)). split; [done|]. split; [done|].
  destruct (others_start _ (interval m1) Hg). done.
Qed.

(** From each point the call goes on to another, or waits for a goroutine that
    was told to stop. *)
Lemma stage_exec th t : stage m0 m1 th t → shutdown t = false → code th ≠ [] →
  (∃ t' th', exec load th t = Next t' th' ∧ stage m0 m1 th' t' ∧ shutdown t' = false) ∨
  (exec load th t = Blocked ∧
   ∃ c g, goroutines t !! c = Some g ∧ Ticking.stopping g = true ∧ Ticking.stopped g = false).
Proof.
  intros Hs Hsh Hc. unfold exec.
  destruct Hs as [-> Hm Ht| -> Hi Hm Ht| -> Hi He Hm Ht| -> Hm Hi He Ht| -> Hm Hi He Hn Ht
                 |c p -> Hm (Hr & Hch & Hg & Ho)|c p -> Hm Hr Hg Ho|c g -> Hm Hr Hg Hs Ho
                 | -> Hm Hr Hg|Ek Hm Ht|Ek Hm Ht].
  - left. do 2 eexists. split; [done|]. split; [|done]. apply at_enabled; simpl; congruence.
  - left. do 2 eexists. split; [done|]. split; [|done]. apply at_load; simpl; congruence.
  - left. do 2 eexists. split; [done|]. split; [|done].
    unfold ticker_ok in Ht. rewrite Hm in *. by apply at_new.
  - left. do 2 eexists. split; [done|]. split; [|done].
    apply at_compare; simpl; congruence.
  - left. do 2 eexists. split; [done|]. split; [|done]. rewrite app_nil_r.
    unfold reaction. rewrite Hn, He, Hi, Hm.
    destruct (Config.Enabled (config m0)) eqn:E0, (Config.Enabled (config m1)) eqn:E1; simpl in *.
    + destruct (interval m0 =? interval m1) eqn:Ei.
      * apply Z.eqb_eq in Ei. apply at_end; [done..|]. unfold ticker_ok.
        by rewrite Hm, E1, <- Ei.
      * destruct Ht as [c Ht]. eapply at_stop; [|done..]. unfold restart. by rewrite E1.
    + destruct Ht as [c Ht]. eapply at_stop; [|done..]. unfold restart. by rewrite E1.
    + apply at_restart; [|done..]. unfold restart. by rewrite E1.
    + apply at_end; [done..|]. unfold ticker_ok. by rewrite Hm, E1.
  - left. rewrite Hr, Hch. do 2 eexists. split; [done|]. split; [|done]. by eapply at_close.
  - left. rewrite Hg. do 2 eexists. split; [done|]. split; [|done].
    eapply (at_await _ _ _ _ c (Ticking.stop (Ticking.start p))); try done; simpl.
    + by rewrite list_lookup_insert_eq by by eapply lookup_lt_Some.
    + by apply others_insert.
  - rewrite Hg. destruct (Ticking.stopped g) eqn:Eg.
    + left. do 2 eexists. split; [done|]. split; [|done]. apply at_clear; [done..|].
      by eapply others_all.
    + right. split; [done|]. by exists c, g.
  - left. do 2 eexists. split; [done|]. split; [|done]. by apply at_restart.
  - pose proof (newTicker_ok t Hm) as Hnt. rewrite Ek in Hc |- *. unfold restart in *.
    destruct (Config.Enabled (config m1)); [|done]. pose proof Ht as (-> & _).
    destruct (Hnt eq_refl Ht) as (t' & -> & Hm' & Hsh' & Ht').
    left. do 2 eexists. split; [done|]. split; [by apply at_end|congruence].
  - done.
Qed.

(** The goroutine that was told to stop does, and nothing else changes. *)
Lemma stage_stopped th t c g : stage m0 m1 th t → goroutines t !! c = Some g →
  Ticking.stopping g = true → Ticking.stopped g = false →
  stage m0 m1 th (with_goroutines t (<[c := Ticking.finish g]> (goroutines t))).
Proof.
  intros Hs Hc Hg Hf.
  assert (∀ c' p, goroutines t !! c' = Some (Ticking.start p) → others_stopped c' (goroutines t) →
            False) as Hone.
  { intros c' p Hc' Ho. destruct (decide (c = c')) as [->|Hn].
    - rewrite Hc in Hc'. by injection Hc' as ->.
    - specialize (Ho c g Hn Hc). congruence. }
  assert (all_stopped (goroutines t) → False) as Hall.
  { intros Ha. pose proof (Forall_lookup_1 _ _ _ _ Ha Hc). simpl in *. congruence. }
  assert (∀ b p, runs t b p → False) as Hruns.
  { intros [] p; [intros (c' & _ & _ & Hc' & Ho)|intros (_ & _ & Ha)]; eauto. }
  destruct Hs as [? ? Ht|? ? ? Ht|? ? ? ? Ht|? ? ? ? Ht|? ? ? ? ? Ht
                 |c' p ? ? (_ & _ & Hc' & Ho)|c' p ? ? ? Hc' Ho|c' g' Ek Hm Hr Hg' Hs' Ho
                 |? ? ? Ha|? ? (_ & _ & Ha)|? ? Ht]; try (exfalso; by eauto).
  assert (c = c') as ->.
  { destruct (decide (c = c')) as [|Hn]; [done|]. specialize (Ho c g Hn Hc). congruence. }
  eapply at_await; [done..| | |]; simpl.
  - by rewrite list_lookup_insert_eq by by eapply lookup_lt_Some.
  - done.
  - by apply others_insert.
Qed.
End one_call.

Definition one_reload (load : Monitor → Monitor) (m0 : Monitor) (w : World) : Prop :=
  ∃ th, threads w = [th] ∧ panicked w = false ∧ shutdown (ticker w) = false ∧
        stage m0 (load m0) th (ticker w).

Lemma one_reload_step load m0 w w' :
  (Config.Enabled (config (load m0)) = true → 0 < interval (load m0)) →
  one_reload load m0 w → ticker_step load w w' → one_reload load m0 w'.
Proof.
  intros Hu (th & Hth & Hp & Hsh & Hs) Hw.
  destruct Hw as [t ths i th' t' th'' Hi He|t ths i th' Hi He|t ths c g Hc Hg Hf|t ths c g Hc Hg Hf];
    simpl in *; subst ths; try congruence.
  all: try (apply list_lookup_singleton_Some in Hi as [-> <-]).
  - destruct (stage_exec load m0 Hu th t Hs Hsh) as [(t1 & th1 & He1 & Hs1 & Hsh1)|[Hb _]];
      [by intros Hn; unfold exec in He; rewrite Hn in He| |congruence].
    rewrite He1 in He. injection He as <- <-. by exists th1.
  - destruct (stage_exec load m0 Hu th t Hs Hsh) as [(t1 & th1 & He1 & _)|[Hb _]]; [|congruence..].
    intros Hn. unfold exec in He. by rewrite Hn in He.
  - exists th. split; [done|]. split; [done|]. split; [done|]. by apply stage_stopped.
Qed.

Lemma one_reload_end load m0 w :
  (Config.Enabled (config (load m0)) = true → 0 < interval (load m0)) →
  one_reload load m0 w → nf (ticker_step load) w →
  monitor (ticker w) = load m0 ∧ ticker_ok (ticker w).
Proof.
  intros Hu (th & Hth & Hp & Hsh & Hs) Hnf. destruct w as [t ths p]; simpl in *; subst ths p.
  destruct (decide (code th = [])) as [Ec|Ec].
  - destruct Hs as [Ek|Ek|Ek|Ek|Ek|c p Ek|c p Ek|c g Ek|Ek|Ek Hm Ht|Ek Hm Ht]; try congruence.
    + unfold restart in Ek. rewrite Ec in Ek. split; [done|]. unfold ticker_ok. rewrite Hm.
      by destruct (Config.Enabled _).
    + done.
  - exfalso. apply Hnf.
    destruct (stage_exec load m0 Hu th t Hs Hsh Ec) as [(t' & th' & He & _)|(_ & c & g & Hc & Hg & Hf)].
    + eexists. by apply (step_thread load t [th] 0 th t' th').
    + eexists. by apply (step_stopped load t [th] c g).
Qed.

Lemma one_reload_settles load t : ticker_ok t → shutdown t = false →
  (Config.Enabled (config (load (monitor t))) = true → 0 < interval (load (monitor t))) →
  ∀ w, rtc (ticker_step load) {| ticker := t; threads := [ReloadConfig]; panicked := false |} w →
    one_reload load (monitor t) w.
Proof.
  intros Ht Hsh Hu w Hw. remember {| ticker := t; threads := [ReloadConfig]; panicked := false |} as w0 eqn:E.
  assert (one_reload load (monitor t) w0) as H0.
  { subst w0. exists ReloadConfig. do 3 (split; [done|]). by apply at_start. }
  clear -Hw H0 Hu. induction Hw as [|w1 w2 w3 H _ IH]; [done|]. apply IH. by eapply one_reload_step.
Qed.

(** *** The start of the service *)

(** As [NewHostMonitorService] leaves it. *)
Definition new_ticker (m : Monitor) : Ticker :=
  {| monitor := m; chans := None; isRunning := false; shutdown := false; goroutines := [] |}.

Inductive start_stage (m : Monitor) (th : Thread) (t : Ticker) : Prop :=
| start_reads : code th = [ReadEnabled; StartIfEnabled] → t = new_ticker m → start_stage m th t
| start_tests : code th = [StartIfEnabled] → oldEnabled th = Config.Enabled (config m) →
    t = new_ticker m → start_stage m th t
| start_starts : code th = [StartTicker] → Config.Enabled (config m) = true →
    t = new_ticker m → start_stage m th t
| start_done : code th = [] → monitor t = m → shutdown t = false → ticker_ok t →
    (∀ g, g ∈ goroutines t → Ticking.stopping g = false) → start_stage m th t.

Definition one_start (m : Monitor) (w : World) : Prop :=
  ∃ th, threads w = [th] ∧ panicked w = false ∧ start_stage m th (ticker w).

Lemma start_exec load m th t : (Config.Enabled (config m) = true → 0 < interval m) →
  start_stage m th t → code th ≠ [] → ∃ t' th', exec load th t = Next t' th' ∧ start_stage m th' t'.
Proof.
  intros Hu Hs Hc. unfold exec. destruct Hs as [-> -> | -> He -> | -> He -> | Ek]; [| | |done].
  - do 2 eexists. split; [done|]. by apply start_tests.
  - rewrite He. destruct (Config.Enabled (config m)) eqn:E; do 2 eexists; (split; [done|]).
    + by apply start_starts.
    + apply start_done; [done..| |by intros g ?%elem_of_nil]. unfold ticker_ok, runs. simpl. rewrite E.
      split; [done|]. split; [done|]. constructor.
  - unfold newTicker. simpl. pose proof (Hu He). destruct (Z.leb_spec (interval m) 0); [lia|].
    do 2 eexists. split; [done|]. apply start_done; [done..| |].
    + unfold ticker_ok, runs. simpl. rewrite He. exists 0%nat. do 3 (split; [done|]).
      intros [|c] g Hn Hg; [done|]. by destruct c.
    + by intros g ->%list_elem_of_singleton.
Qed.

Lemma one_start_step load m w w' : (Config.Enabled (config m) = true → 0 < interval m) →
  one_start m w → ticker_step load w w' → one_start m w'.
Proof.
  intros Hu (th & Hth & Hp & Hs) Hw.
  destruct Hw as [t ths i th' t' th'' Hi He|t ths i th' Hi He|t ths c g Hc Hg Hf|t ths c g Hc Hg Hf];
    simpl in *; subst ths; try congruence.
  all: try (apply list_lookup_singleton_Some in Hi as [-> <-]).
  - destruct (start_exec load m th t Hu Hs) as (t1 & th1 & He1 & Hs1);
      [intros Hn; unfold exec in He; by rewrite Hn in He|].
    rewrite He1 in He. injection He as <- <-. by exists th1.
  - destruct (start_exec load m th t Hu Hs) as (t1 & th1 & He1 & _); [|congruence].
    intros Hn. unfold exec in He. by rewrite Hn in He.
  - exfalso. apply list_elem_of_lookup_2 in Hc. destruct Hs as [_ -> | _ _ -> | _ _ -> | _ _ _ _ Hn];
      [simpl in Hc; by apply elem_of_nil in Hc..|]. rewrite Hn in Hg by done. done.
  - exfalso. destruct Hs as [_ -> | _ _ -> | _ _ -> | _ _ Hn]; simpl in *; congruence.
Qed.

Lemma start_settles load m w : (Config.Enabled (config m) = true → 0 < interval m) →
  rtc (ticker_step load) {| ticker := new_ticker m; threads := [Start]; panicked := false |} w →
  panicked w = false ∧
  (nf (ticker_step load) w → monitor (ticker w) = m ∧ shutdown (ticker w) = false ∧ ticker_ok (ticker w)).
Proof.
  intros Hu Hw.
  assert (one_start m w) as (th & Hth & Hp & Hs).
  { remember {| ticker := new_ticker m; threads := [Start]; panicked := false |} as w0 eqn:E.
    assert (one_start m w0) as H0 by (subst w0; exists Start; do 2 (split; [done|]); by apply start_reads).
    clear -Hw H0 Hu. induction Hw as [|w1 w2 w3 H _ IH]; [done|]. apply IH. by eapply one_start_step. }
  split; [done|]. intros Hnf. destruct (decide (code th = [])) as [Ec|Ec].
  - destruct Hs as [Ek|Ek|Ek|Ek Hm Hsh Ht _]; try congruence. done.
  - exfalso. destruct w as [t ths p]; simpl in *; subst ths p. apply Hnf.
    destruct (start_exec load m th t Hu Hs Ec) as (t' & th' & He & _).
    eexists. by apply (step_thread load t [th] 0 th t' th').
Qed.

(** The ticker of a service that was started and has reloaded any number of times,
    each call after the one before, from settings with usable intervals. *)
Inductive served : Ticker → Prop :=
| served_start load m w : (Config.Enabled (config m) = true → 0 < interval m) →
    rtc (ticker_step load) {| ticker := new_ticker m; threads := [Start]; panicked := false |} w →
    nf (ticker_step load) w → served (ticker w)
| served_reload load t w : served t →
    (Config.Enabled (config (load (monitor t))) = true → 0 < interval (load (monitor t))) →
    rtc (ticker_step load) {| ticker := t; threads := [ReloadConfig]; panicked := false |} w →
    nf (ticker_step load) w → served (ticker w).

Lemma served_ok t : served t → ticker_ok t ∧ shutdown t = false.
Proof.
  induction 1 as [load m w Hu Hw Hnf|load t w _ [Ht Hsh] Hu Hw Hnf].
  - by destruct (start_settles load m w Hu Hw) as [_ (_ & ? & ?)].
  - apply one_reload_settles in Hw as Hr; [|done..].
    split; [by apply (one_reload_end load (monitor t))|]. by destruct Hr as (? & _ & _ & ? & _).
Qed.

(** C36: From the start of the service on, as long as its calls come one after
    another, it is not being stopped, and the intervals loaded are positive (one
    of so many minutes that the nanoseconds wrap around may not be, and makes the
    reload panic: [wrapped_interval_panics]): a reload always comes to an end and
    never panics, and at its end the configuration is the one just loaded, and
    the ticker runs exactly when the monitoring is enabled, in a single goroutine,
    with the interval configured. *)
Theorem reload_settles load t : served t →
  (Config.Enabled (config (load (monitor t))) = true → 0 < interval (load (monitor t))) →
  let w0 := {| ticker := t; threads := [ReloadConfig]; panicked := false |} in
  sn (ticker_step load) w0 ∧
  ∀ w, rtc (ticker_step load) w0 w →
    panicked w = false ∧
    (nf (ticker_step load) w →
     monitor (ticker w) = load (monitor t) ∧
     runs (ticker w) (Config.Enabled (config (load (monitor t)))) (interval (load (monitor t)))).
Proof.
  intros [Ht Hsh]%served_ok Hu w0. split; [apply ticker_step_sn|]. intros w Hw.
  pose proof (one_reload_settles load t Ht Hsh Hu w Hw) as Hr.
  split; [by destruct Hr as (? & _ & ? & _)|]. intros Hnf.
  destruct (one_reload_end load (monitor t) w Hu Hr Hnf) as [Hm Hok]. split; [done|].
  unfold ticker_ok in Hok. by rewrite Hm in Hok.
Qed.

(** *** Two calls at a time *)

(** The schedule of [concurrent_reloads_panic]: which thread runs next, or which
    goroutine ends. *)
Inductive turn := Thread_ (i : nat) | Goroutine (c : nat).

Definition take_turn (load : Monitor → Monitor) (w : World) (u : turn) : option World :=
  if panicked w then None else
  match u with
  | Thread_ i =>
      match threads w !! i with
      | Some th =>
          match exec load th (ticker w) with
          | Next t' th' => Some {| ticker := t'; threads := <[i := th']> (threads w); panicked := false |}
          | Panicked => Some {| ticker := ticker w; threads := threads w; panicked := true |}
          | Blocked => None
          end
      | None => None
      end
  | Goroutine c =>
      match goroutines (ticker w) !! c with
      | Some g =>
          if Ticking.stopping g && negb (Ticking.stopped g)
          then Some {| ticker := with_goroutines (ticker w)
                                   (<[c := Ticking.finish g]> (goroutines (ticker w)));
                       threads := threads w; panicked := false |}
          else None
      | None => None
      end
  end.

Fixpoint take_turns (load : Monitor → Monitor) (w : World) (us : list turn) : option World :=
  match us with
  | [] => Some w
  | u :: us => match take_turn load w u with Some w => take_turns load w us | None => None end
  end.

Lemma take_turn_step load w u w' : take_turn load w u = Some w' → ticker_step load w w'.
Proof.
  unfold take_turn. destruct w as [t ths []]; [done|]. simpl. destruct u as [i|c].
  - destruct (ths !! i) as [th|] eqn:Hi; [|done].
    destruct (exec load th t) as [t' th'| |] eqn:He; [|done|]; intros [= <-].
    + by eapply step_thread.
    + by eapply step_panic.
  - destruct (goroutines t !! c) as [g|] eqn:Hc; [|done].
    destruct (_ && _) eqn:Hg; [|done]. apply andb_prop in Hg as [Hg Hf%negb_true_iff].
    intros [= <-]. by apply step_stopped.
Qed.

Lemma take_turns_steps load us w w' : take_turns load w us = Some w' → rtc (ticker_step load) w w'.
Proof.
  revert w. induction us as [|u us IH]; intros w; simpl; [by intros [= ->]|].
  destruct (take_turn load w u) as [w1|] eqn:Hu; [|done]. intros Hw.
  eapply rtc_l; [by apply take_turn_step in Hu|by apply IH].
Qed.

(** The listener of configuration changes: the reload one message starts. *)
Definition on_change (key value : text) : list Thread :=
  if listened key then [ReloadConfig] else [].

(** Two settings of the monitoring saved together are two messages, and so two
    reloads at once in each instance that listens. *)
Lemma two_messages Marshal Unmarshal stamp v v' :
  (∀ m, Unmarshal (Marshal m) = Some m) →
  mjoin (mjoin (ConfigSync.handleMessage Unmarshal [on_change] <$>
    [ConfigSync.PublishConfigChange Marshal stamp (txt "host_monitor_enabled") v;
     ConfigSync.PublishConfigChange Marshal stamp (txt "host_monitor_interval") v'])) =
  [ReloadConfig; ReloadConfig].
Proof.
  intros Hm. rewrite !fmap_cons, !ConfigSync.handled_published by done. reflexivity.
Qed.

(** Both reach the comparison; [0] stops the old ticker [c], [1] finds it stopped
    and starts another; [0] clears the channels of the new one and stops it. *)
Definition racing (c : nat) : list turn :=
  (Thread_ <$> [0; 1; 0; 1; 0; 1; 0; 1; 0; 1; 0; 1; 1; 0]%nat) ++
  Goroutine c :: (Thread_ <$> [0; 0; 0; 0; 0]%nat).

(** Two reloads at once can bring the process down: when the monitoring is
    on and the settings hold another interval, there is a schedule in which one
    call clears the channels of the ticker the other has just started, and then
    closes a channel that is [nil].  The listener starts one reload per message
    and a change of settings publishes one message per key. *)
Theorem concurrent_reloads_panic load t :
  ticker_ok t → shutdown t = false → Config.Enabled (config (monitor t)) = true →
  let m1 := load (monitor t) in
  load m1 = m1 → Config.Enabled (config m1) = true → 0 < interval m1 →
  interval m1 ≠ interval (monitor t) →
  ∃ w, rtc (ticker_step load)
         {| ticker := t; threads := [ReloadConfig; ReloadConfig]; panicked := false |} w ∧
       panicked w = true.
Proof.
  intros Ht Hsh He0 m1 Hl He1 Hp Hi. unfold ticker_ok in Ht. rewrite He0 in Ht.
  destruct Ht as (c & Hr & Hc & Hg & _). destruct t as [m0 ch r sh gs]; simpl in *.
  subst ch r sh. unfold m1 in *. clear m1.
  assert (interval m0 =? interval (load m0) = false) as Hn by (apply Z.eqb_neq; congruence).
  assert (interval (load m0) <=? 0 = false) as Hz by (apply Z.leb_gt; done).
  eenough (take_turns load _ (racing c) = Some _) as H;
    [eexists; split; [exact (take_turns_steps _ _ _ _ H)|]|].
  2:{ unfold racing. cbn. rewrite !Hl. unfold reaction. cbn. rewrite He0, He1, Hn. cbn.
      unfold newTicker. cbn. rewrite Hz. cbn.
      rewrite (lookup_app_l_Some _ _ _ _ Hg). cbn.
      rewrite !list_lookup_insert_eq by (rewrite length_app; apply lookup_lt_Some in Hg; lia). cbn.
      rewrite !list_lookup_insert_eq
        by (rewrite length_insert, length_app; apply lookup_lt_Some in Hg; lia). cbn.
      reflexivity. }
  reflexivity.
Qed.

(** ** The check of one host *)

(** [net.SplitHostPort] without the cases of square brackets inside a name: the
    host and the port of an address, [None] is an error. *)
Definition SplitHostPort (a : text) : option (text * text) :=
  match last_index a (txt ":") with
  | None => None
  | Some i =>
      match a with
      | 91 :: _ =>
          match index a (txt "]") with
          | Some j => if (j + 1 =? i)%nat then Some (take (j - 1) (drop 1 a), drop (i + 1) a) else None
          | None => None
          end
      | _ => if contains_rune 58 (take i a) then None else Some (take i a, drop (i + 1) a)
      end
  end.

(** What the network and the system answer. *)
Class Network := {
  connect : text → text → Z → bool;      (* host, port and timeout *)
  ping : text → Z → bool;                (* the command [ping -c 1 -W <seconds> <ip>] succeeds *)
  http_get : text → Z → bool             (* a response arrives in time *)
}.

(** [UpdateStatus] of the repository of hosts. *)
Definition with_status (h : Host.t) (status : text) : Host.t :=
  {| Host.ID := Host.ID h; Host.Name := Host.Name h; Host.IP := Host.IP h; Host.Port := Host.Port h;
     Host.Status := status; Host.OS := Host.OS h; Host.CPU := Host.CPU h; Host.Memory := Host.Memory h;
     Host.Tags := Host.Tags h; Host.Description := Host.Description h;
     Host.DeviceType := Host.DeviceType h; Host.ConnectionMode := Host.ConnectionMode h;
     Host.ProxyID := Host.ProxyID h; Host.NetworkZone := Host.NetworkZone h;
     Host.LastLoginTime := Host.LastLoginTime h; Host.LoginCount := Host.LoginCount h |}.

Definition has_host_id (id : text) (h : Host.t) : bool := text_eqb (Host.ID h) id.

Definition set_host_status (id status : text) (db : Db) : Db :=
  set_hosts db (updated (has_host_id id) (λ h, with_status h status) <$> hosts db).

Definition UpdateStatus (id status : text) : DB unit := execute (λ db, Ok (set_host_status id status db)).

Section check.
Context `{Network}.

Definition checkTCPPort (ip : text) (port timeout : Z) : bool :=
  match SplitHostPort (ip ++ txt ":" ++ txt (pretty port)) with
  | Some (host, port) => connect host port timeout
  | None => false
  end.

(** On Linux. *)
Definition checkICMP (ip : text) (timeout : Z) : bool :=
  let timeoutSec := Z.quot timeout second in
  ping ip (if timeoutSec <? 1 then 1 else timeoutSec).

Definition checkHTTP (ip : text) (port timeout : Z) : bool :=
  let port := if (port =? 22) || (port =? 0) then 80 else port in
  http_get (txt "http://" ++ ip ++ txt ":" ++ txt (pretty port)) timeout.

Definition checkHostStatus (c : Config.t) (host : Host.t) : bool :=
  let timeout := wrap64 (Config.Timeout c * second) in
  if text_eqb (Config.Method c) MonitorMethodICMP then checkICMP (Host.IP host) timeout
  else if text_eqb (Config.Method c) MonitorMethodHTTP then
    checkHTTP (Host.IP host) (Host.Port host) timeout
  else
    let port := if Host.Port host =? 0 then 22 else Host.Port host in
    checkTCPPort (Host.IP host) port timeout.

Definition status_of (up : bool) : text := if up then online else offline.

(** [CheckHostStatusNow]: what the check found, or with what error; the status
    is written even when it did not change. *)
Definition CheckHostStatusNow (c : Config.t) (hostID : text) : Eff (bool * text) bool :=
  host ← or_fail (λ _, (false, txt "主机不存在")) (FindHostByID hostID);
  let up := checkHostStatus c host in
  _ ← or_fail (λ _, (up, txt "更新状态失败")) (UpdateStatus (Host.ID host) (status_of up));
  mret up.

(** The handler of a manual check: the code of the answer and the status in it. *)
Definition CheckHostStatus (c : Config.t) (hostID : text) : Eff (Z * text) (bool * text) :=
  up ← or_fail (λ e, (500, e.2)) (CheckHostStatusNow c hostID);
  mret (up, status_of up).

(** A host whose address has a colon is never found online by a connection: the
    address it is written into is malformed. *)
Lemma last_index_after a b : ∃ i, last_index (a ++ 58 :: b) (txt ":") = Some i ∧ (length a <= i)%nat.
Proof.
  change (txt ":") with [58 : rune]. induction a as [|x a (i & Hi & Hl)]; cbn [app last_index length].
  - destruct (last_index b [58]) as [j|]; simpl; eauto with lia.
  - rewrite Hi. simpl. eauto with lia.
Qed.

Lemma ipv6_never_online ip port timeout :
  contains_rune 58 ip = true → head ip ≠ Some 91 → checkTCPPort ip port timeout = false.
Proof.
  intros Hc Hh. unfold checkTCPPort, SplitHostPort.
  change (txt ":" ++ txt (pretty port)) with (58 :: txt (pretty port)).
  destruct (last_index_after ip (txt (pretty port))) as (i & Hi & Hl). rewrite Hi.
  assert (contains_rune 58 (take i (ip ++ 58 :: txt (pretty port))) = true) as Ht.
  { rewrite take_app, take_ge by done. unfold contains_rune in *. by rewrite existsb_app, Hc. }
  destruct ip as [|x ip]; [done|]. rewrite Ht. cbn [app].
  destruct (decide (x = 91)) as [->|Hx]; [done|].
  repeat (destruct x as [|x|x]; try done; try (by destruct i)).
Qed.
End check.

(** ** The check of all hosts *)

(** Where the goroutine of a host stands: before the semaphore, behind it, its
    status written, done. *)
Inductive phase := Waiting | Probing | Counting (up : bool) | Finished (up : bool).

Record Checking := {
  tables : Db; work : list (Host.t * phase); onlineCount : Z; offlineCount : Z
}.

Definition inside (g : Host.t * phase) : bool :=
  match g.2 with Probing | Counting _ => true | _ => false end.

Definition start_check (db : Db) (hs : list Host.t) : Checking :=
  {| tables := db; work := (λ h, (h, Waiting)) <$> hs; onlineCount := 0; offlineCount := 0 |}.

Section check_all.
Context (concurrent : Z) (probe : Host.t → bool).

(** The [UPDATE] of the host fails. *)
Context (refused : Host.t → bool).

(** The status is only written when it changed; an error is logged. *)
Definition write_status (h : Host.t) (db : Db) : Db :=
  let newStatus := status_of (probe h) in
  if text_eqb (Host.Status h) newStatus then db
  else if refused h then db
  else set_host_status (Host.ID h) newStatus db.

Definition move (w : Checking) (i : nat) (h : Host.t) (p : phase) : Checking :=
  {| tables := tables w; work := <[i := (h, p)]> (work w);
     onlineCount := onlineCount w; offlineCount := offlineCount w |}.
Definition with_tables (w : Checking) (db : Db) : Checking :=
  {| tables := db; work := work w; onlineCount := onlineCount w; offlineCount := offlineCount w |}.
Definition counted (w : Checking) (up : bool) : Checking :=
  {| tables := tables w; work := work w;
     onlineCount := if up then onlineCount w + 1 else onlineCount w;
     offlineCount := if up then offlineCount w else offlineCount w + 1 |}.

(** The goroutines of [doCheckAllHosts], in any order. *)
Inductive check_step : Checking → Checking → Prop :=
| step_acquire w i h : work w !! i = Some (h, Waiting) →
    Z.of_nat (length (keep inside (work w))) < concurrent → check_step w (move w i h Probing)
| step_probe w i h : work w !! i = Some (h, Probing) →
    check_step w (move (with_tables w (write_status h (tables w))) i h (Counting (probe h)))
| step_count w i h up : work w !! i = Some (h, Counting up) →
    check_step w (move (counted w up) i h (Finished up)).

(** What the check makes of a row. *)
Definition checked (ids : gset text) (h : Host.t) : Host.t :=
  if bool_decide (Host.ID h ∈ ids) && negb (refused h) then with_status h (status_of (probe h)) else h.

(** *** Facts *)

Lemma same_status h : with_status h (Host.Status h) = h.
Proof. by destruct h. Qed.

Lemma checked_ID ids h : Host.ID (checked ids h) = Host.ID h.
Proof. unfold checked. by destruct (_ && _). Qed.

Lemma checked_none (l : list Host.t) : checked ∅ <$> l = l.
Proof.
  rewrite <- (list_fmap_id l) at 2. apply list_fmap_ext. intros i h _. unfold checked.
  by rewrite bool_decide_eq_false_2 by set_solver.
Qed.

(** Writing the status of one more host. *)
Lemma write_status_checked db ids h : NoDup (Host.ID <$> hosts db) → h ∈ hosts db →
  write_status h (set_hosts db (checked ids <$> hosts db)) =
  set_hosts db (checked ({[Host.ID h]} ∪ ids) <$> hosts db).
Proof.
  intros Hn Hh.
  assert (∀ x, x ∈ hosts db → Host.ID x = Host.ID h → x = h) as Hone.
  { intros x Hx Hi. apply list_elem_of_lookup in Hx as [i Hx], Hh as [j Hj].
    assert (i = j) as -> by (apply (NoDup_lookup _ i j (Host.ID h) Hn);
      rewrite list_lookup_fmap; rewrite ?Hx, ?Hj; simpl; congruence). congruence. }
  assert (∀ x, x ∈ hosts db → Host.ID x ≠ Host.ID h →
            checked ({[Host.ID h]} ∪ ids) x = checked ids x) as Hother.
  { intros x _ Hx. unfold checked. by rewrite (bool_decide_ext (Host.ID x ∈ {[Host.ID h]} ∪ ids)
      (Host.ID x ∈ ids)) by set_solver. }
  assert (∀ f, (∀ x, x ∈ hosts db → f (checked ids x) = checked ({[Host.ID h]} ∪ ids) x) →
    f <$> (checked ids <$> hosts db) = checked ({[Host.ID h]} ∪ ids) <$> hosts db) as Hmap.
  { intros f Hf. rewrite <- list_fmap_compose. apply list_fmap_ext. intros i x Hx.
    apply Hf. by eapply list_elem_of_lookup_2. }
  assert (checked ({[Host.ID h]} ∪ ids) h =
          if refused h then h else with_status h (status_of (probe h))) as Hnew.
  { unfold checked. rewrite bool_decide_eq_true_2 by set_solver. by destruct (refused h). }
  assert (checked ids h = h ∨ checked ids h = with_status h (status_of (probe h))) as Hold.
  { unfold checked. destruct (_ && _); auto. }
  unfold write_status. destruct (text_eqb _ _) eqn:Es; [|destruct (refused h) eqn:Er].
  - apply text_eqb_true in Es. f_equal. rewrite <- (Hmap id); [by rewrite list_fmap_id|].
    intros x Hx. destruct (decide (Host.ID x = Host.ID h)) as [Hi|Hi]; [|by rewrite Hother].
    rewrite (Hone x Hx Hi), Hnew. rewrite <- Es, same_status in Hold |- *.
    by destruct Hold as [->| ->], (refused h).
  - f_equal. rewrite <- (Hmap id); [by rewrite list_fmap_id|].
    intros x Hx. destruct (decide (Host.ID x = Host.ID h)) as [Hi|Hi]; [|by rewrite Hother].
    rewrite (Hone x Hx Hi), Hnew. unfold checked. rewrite Er, andb_false_r. done.
  - unfold set_host_status. cbn [hosts set_hosts]. unfold set_hosts at 1 3. cbn.
    unfold set_hosts. f_equal. apply Hmap. intros x Hx. unfold updated, has_host_id.
    rewrite checked_ID. destruct (text_eqb (Host.ID x) (Host.ID h)) eqn:Ei.
    + apply text_eqb_true in Ei. rewrite (Hone x Hx Ei), Hnew.
      by destruct Hold as [->| ->].
    + rewrite Hother; [done..|]. intros Hi. rewrite Hi, text_eqb_refl in Ei. done.
Qed.

(** The hosts whose status was dealt with, and the goroutines that counted. *)
Definition dealt (p : phase) : bool := match p with Counting _ | Finished _ => true | _ => false end.
Definition done_ids (l : list (Host.t * phase)) : gset text :=
  foldr (λ g s, if dealt g.2 then {[Host.ID g.1]} ∪ s else s) ∅ l.
Definition finished_as (b : bool) (g : Host.t * phase) : bool :=
  match g.2 with Finished up => eqb up b | _ => false end.

Lemma done_ids_insert l i h q p : l !! i = Some (h, q) → (dealt q = true → dealt p = true) →
  done_ids (<[i := (h, p)]> l) = if dealt p then {[Host.ID h]} ∪ done_ids l else done_ids l.
Proof.
  intros Hi Hq. revert i Hi. induction l as [|x l IH]; intros [|i] Hi; simplify_eq/=.
  - destruct (dealt q) eqn:Eq, (dealt p) eqn:Ep; [set_solver|by specialize (Hq eq_refl)|done..].
  - rewrite IH by done. destruct (dealt p), (dealt x.2); [set_solver|done..].
Qed.

Lemma keep_insert {A} (f : A → bool) l i x y : l !! i = Some x →
  (length (keep f (<[i := y]> l)) + (if f x then 1 else 0) =
   length (keep f l) + (if f y then 1 else 0))%nat.
Proof.
  revert i. induction l as [|z l IH]; intros [|i] Hi; simplify_eq/=.
  - destruct (f x), (f y); simpl; lia.
  - specialize (IH _ Hi). destruct (f z); simpl; lia.
Qed.

(** What the goroutines have done when they are where [w] says. *)
Definition check_inv (db : Db) (hs : list Host.t) (w : Checking) : Prop :=
  tables w = set_hosts db (checked (done_ids (work w)) <$> hosts db) ∧
  fst <$> work w = hs ∧
  Z.of_nat (length (keep inside (work w))) <= concurrent ∧
  onlineCount w = Z.of_nat (length (keep (finished_as true) (work w))) ∧
  offlineCount w = Z.of_nat (length (keep (finished_as false) (work w))) ∧
  (∀ i h up, work w !! i = Some (h, Counting up) ∨ work w !! i = Some (h, Finished up) → up = probe h).

Lemma start_inv db hs : 0 < concurrent → check_inv db hs (start_check db hs).
Proof.
  intros Hc.
  assert (∀ f : Host.t * phase → bool, (∀ h, f (h, Waiting) = false) →
            keep f ((λ h, (h, Waiting)) <$> hs) = []) as Hk.
  { intros f Hf. induction hs as [|h hs' IH]; simpl; [done|]. by rewrite Hf. }
  assert (done_ids ((λ h, (h, Waiting)) <$> hs) = ∅) as Hd by (clear; by induction hs).
  unfold check_inv, start_check. cbn [tables work onlineCount offlineCount].
  rewrite Hd, checked_none, !Hk by done.
  split; [by destruct db|]. split; [rewrite <- list_fmap_compose; apply list_fmap_id|].
  split; [simpl; lia|]. split; [done|]. split; [done|].
  intros i h up [Hi|Hi]; rewrite list_lookup_fmap in Hi; by destruct (hs !! i).
Qed.

Lemma move_work (w : Checking) i h q p hs : work w !! i = Some (h, q) → fst <$> work w = hs →
  fst <$> <[i := (h, p)]> (work w) = hs.
Proof.
  intros Hi <-. rewrite list_fmap_insert. apply list_insert_id. by rewrite list_lookup_fmap, Hi.
Qed.

Lemma move_probe (w : Checking) i h p :
  (∀ up, p = Counting up ∨ p = Finished up → up = probe h) →
  (∀ i h up, work w !! i = Some (h, Counting up) ∨ work w !! i = Some (h, Finished up) → up = probe h) →
  ∀ j x up, <[i := (h, p)]> (work w) !! j = Some (x, Counting up) ∨
            <[i := (h, p)]> (work w) !! j = Some (x, Finished up) → up = probe x.
Proof.
  intros Hp Hw j x up [Hj|Hj]; apply list_lookup_insert_Some in Hj as [(_ & E & _)|[_ Hj]];
    simplify_eq; eauto.
Qed.

(** One move of a goroutine, by what it does to each part of the invariant. *)
Lemma check_step_inv db hs w w' : NoDup (Host.ID <$> hosts db) → hs ⊆ hosts db →
  check_inv db hs w → check_step w w' → check_inv db hs w'.
Proof.
  intros Hn Hsub (Ht & Hf & Hc & Hon & Hoff & Hp) Hw.
  assert (∀ i h p, work w !! i = Some (h, p) → h ∈ hosts db) as Hin.
  { intros i h p Hi. apply Hsub. rewrite <- Hf. apply list_elem_of_lookup. exists i.
    by rewrite list_lookup_fmap, Hi. }
  destruct Hw as [w i h Hi Hr|w i h Hi|w i h up Hi]; unfold check_inv, move, with_tables, counted;
    cbn [tables work onlineCount offlineCount];
    (split; [|split; [by eapply move_work|split; [|split; [|split; [|apply move_probe; [|done]]]]]]).
  1,6,11: rewrite (done_ids_insert _ _ _ _ _ Hi) by done; cbn [dealt]; rewrite Ht.
  - done.
  - apply write_status_checked; [done|by eapply Hin].
  - f_equal. apply list_fmap_ext. intros j x _. unfold checked.
    assert (Host.ID h ∈ done_ids (work w)) as Hd.
    { clear -Hi. revert i Hi. induction (work w) as [|y l IH]; intros [|i] Hi; simplify_eq/=;
        [set_solver|]. specialize (IH _ Hi). destruct (dealt y.2); set_solver. }
    assert (Host.ID x ∈ done_ids (work w) ↔ Host.ID x ∈ {[Host.ID h]} ∪ done_ids (work w)) as Hx.
    { rewrite elem_of_union, elem_of_singleton. split; [by right|]. by intros [->|?]. }
    by rewrite (bool_decide_ext _ _ Hx).
  - pose proof (keep_insert inside _ _ _ (h, Probing) Hi). simpl in *. lia.
  - rewrite Hon. pose proof (keep_insert (finished_as true) _ _ _ (h, Probing) Hi). simpl in *. lia.
  - rewrite Hoff. pose proof (keep_insert (finished_as false) _ _ _ (h, Probing) Hi). simpl in *. lia.
  - by intros ? [?|?].
  - pose proof (keep_insert inside _ _ _ (h, Counting (probe h)) Hi). simpl in *. lia.
  - rewrite Hon. pose proof (keep_insert (finished_as true) _ _ _ (h, Counting (probe h)) Hi).
    simpl in *. lia.
  - rewrite Hoff. pose proof (keep_insert (finished_as false) _ _ _ (h, Counting (probe h)) Hi).
    simpl in *. lia.
  - by intros ? [[= ->]|?].
  - pose proof (keep_insert inside _ _ _ (h, Finished up) Hi). simpl in *. lia.
  - rewrite Hon. pose proof (keep_insert (finished_as true) _ _ _ (h, Finished up) Hi).
    destruct up; simpl in *; lia.
  - rewrite Hoff. pose proof (keep_insert (finished_as false) _ _ _ (h, Finished up) Hi).
    destruct up; simpl in *; lia.
  - intros u [?|[= <-]]; [done|]. eapply Hp. eauto.
Qed.

Definition phase_weight (p : phase) : nat :=
  match p with Waiting => 3 | Probing => 2 | Counting _ => 1 | Finished _ => 0 end.

Definition to_do (w : Checking) : nat := sum_list_with (λ g, phase_weight g.2) (work w).

Lemma check_step_sn w : sn check_step w.
Proof.
  induction (well_founded_ltof _ to_do w) as [w _ IH]. constructor. intros w' Hw. apply IH.
  unfold ltof, to_do. destruct Hw as [w i h Hi _|w i h Hi|w i h up Hi]; cbn [work move with_tables counted];
    pose proof (sum_list_with_insert (λ g, phase_weight g.2) _ _ _ (h, Probing) Hi);
    pose proof (sum_list_with_insert (λ g, phase_weight g.2) _ _ _ (h, Counting (probe h)) Hi);
    pose proof (sum_list_with_insert (λ g : Host.t * phase, phase_weight g.2) _ _ _ (h, Finished true) Hi);
    pose proof (sum_list_with_insert (λ g : Host.t * phase, phase_weight g.2) _ _ _ (h, Finished false) Hi);
    try destruct up; simpl in *; lia.
Qed.

(** As long as a goroutine has not finished, one can move: the semaphore is
    never the reason to wait forever. *)
Lemma check_progress w : 0 < concurrent → nf check_step w →
  ∀ i h p, work w !! i = Some (h, p) → ∃ up, p = Finished up.
Proof.
  intros Hc Hnf i h p Hi.
  assert (keep inside (work w) = []) as Hk.
  { destruct (keep inside (work w)) as [|[x q] l] eqn:E; [done|]. exfalso. apply Hnf.
    assert ((x, q) ∈ keep inside (work w)) as [Hx Hq]%elem_of_keep by (rewrite E; left).
    apply list_elem_of_lookup in Hx as [j Hj].
    destruct q as [| |up|up]; try done; eexists; [by apply (step_probe _ j x)|by eapply step_count]. }
  destruct p as [| |up|up]; [| | |eauto]; exfalso; apply Hnf; eexists.
  - apply (step_acquire _ i h Hi). by rewrite Hk.
  - by eapply step_probe.
  - by eapply step_count.
Qed.

Lemma finished_counts (l : list (Host.t * phase)) b :
  (∀ i h p, l !! i = Some (h, p) → p = Finished (probe h)) →
  length (keep (finished_as b) l) = length (keep (λ h, eqb (probe h) b) (fst <$> l)) ∧
  ∀ x, x ∈ done_ids l ↔ x ∈ Host.ID <$> (fst <$> l).
Proof.
  induction l as [|[h p] l IH]; intros Hl; [split; [done|]; intros x; simpl; set_solver|].
  rewrite (Hl 0%nat h p eq_refl). destruct IH as [IH1 IH2]; [by intros i; apply (Hl (S i))|].
  simpl. split.
  - change (finished_as b (h, Finished (probe h))) with (eqb (probe h) b).
    destruct (eqb (probe h) b); [cbn [length]; by rewrite IH1|done].
  - intros x. by rewrite elem_of_union, elem_of_singleton, IH2, elem_of_cons.
Qed.
End check_all.

(** The check of all hosts, whatever the order in which its goroutines run,
    comes to an end with the same tables: each host that was loaded has the
    status its probe found, unless its update failed, and no other row changes.
    The counts are those of the probes, and no more goroutines probe at a time
    than configured. *)
Theorem check_outcome concurrent probe refused db hs :
  0 < concurrent → NoDup (Host.ID <$> hosts db) → hs ⊆ hosts db →
  sn (check_step concurrent probe refused) (start_check db hs) ∧
  ∀ w, rtc (check_step concurrent probe refused) (start_check db hs) w →
    Z.of_nat (length (keep inside (work w))) <= concurrent ∧
    (nf (check_step concurrent probe refused) w →
     tables w = set_hosts db ((λ h,
       if bool_decide (Host.ID h ∈ Host.ID <$> hs) && negb (refused h) then with_status h (status_of (probe h)) else h)
       <$> hosts db) ∧
     onlineCount w = Z.of_nat (length (keep probe hs)) ∧
     offlineCount w = Z.of_nat (length (keep (λ h, negb (probe h)) hs))).
Proof.
  intros Hc Hn Hsub. split; [apply check_step_sn|]. intros w Hw.
  assert (check_inv concurrent probe refused db hs w) as (Ht & Hf & Hin & Hon & Hoff & Hp).
  { pose proof (start_inv concurrent probe refused db hs Hc) as H0. revert H0.
    induction Hw as [|w1 w2 w3 H _ IH]; [done|]. intros H0. apply IH. by eapply check_step_inv. }
  split; [done|]. intros Hnf.
  assert (∀ i h p, work w !! i = Some (h, p) → p = Finished (probe h)) as Hall.
  { intros i h p Hi. destruct (check_progress _ _ _ _ Hc Hnf i h p Hi) as [up ->].
    f_equal. eapply Hp. eauto. }
  rewrite Hon, Hoff, Ht, <- Hf.
  rewrite (proj1 (finished_counts probe (work w) true Hall)).
  rewrite (proj1 (finished_counts probe (work w) false Hall)).
  split; [|split; do 2 f_equal; apply keep_ext; intros h; by destruct (probe h)].
  f_equal. apply list_fmap_ext. intros i h Hi. unfold checked.
  by rewrite (bool_decide_ext _ _ (proj2 (finished_counts probe (work w) true Hall) (Host.ID h))).
Qed.

(** [doCheckAllHosts]: what a check may make of the tables; nothing when the
    hosts cannot be loaded. *)
Section all_hosts.
Context (like_description has_tag : text → Host.t → bool) `{Network}.

Definition load_hosts : DB (list Host.t) :=
  r ← FindAllWithPagination like_description has_tag 1 10000 [] []; mret r.1.

Inductive doCheckAllHosts (c : Config.t) : relation Db :=
| hosts_checked db f hs f' refused w :
    load_hosts db f = (Ok hs, db, f') →
    rtc (check_step (Config.Concurrent c) (checkHostStatus c) refused) (start_check db hs) w →
    nf (check_step (Config.Concurrent c) (checkHostStatus c) refused) w →
    doCheckAllHosts c db (tables w)
| hosts_not_loaded db f e f' : load_hosts db f = (Err e, db, f') → doCheckAllHosts c db db.

(** A check makes nothing of the tables but writing statuses of hosts. *)
Lemma check_writes c db db' : doCheckAllHosts c db db' →
  rtc (λ a b, ∃ id status, b = set_host_status id status a) db db'.
Proof.
  intros [db1 f hs f' refused w _ Hr _|]; [|done].
  assert (tables (start_check db1 hs) = db1) as E by done. rewrite <- E at 1. clear E.
  induction Hr as [w|w1 w2 w3 Hs _ IH]; [done|]. etransitivity; [|exact IH].
  destruct Hs as [w i h Hi Hk|w i h Hi|w i h up Hi]; try done. simpl. unfold write_status.
  destruct (text_eqb _ _); [done|]. destruct (refused h); [done|]. apply rtc_once. by eexists _, _.
Qed.

(** Only the first 10000 hosts are ever looked at. *)
Lemma load_hosts_run db : load_hosts db [] = (Ok (take 10000 (hosts db)), db, []).
Proof. reflexivity. Qed.

(** ** The checks of several instances *)

Context `{R : Redis}.

Definition lockKey : text := txt "zjump:host_monitor:lock".

Definition lockExpiry (m : Monitor) : Z := wrap64 (interval m * 2).

(** What was done to the tables, in order, kept by no code: a status that a
    periodic check wrote, a manual check, and any other writer. *)
Inductive change := Periodic (id status : text) | Manual (hostID : text) | Elsewhere (db' : Db).
Definition is_periodic (c : change) : bool := match c with Periodic _ _ => true | _ => false end.

(** The instances share the lock and the tables; [checking] are the locks of
    the checks in progress. *)
Record Cluster := { lockSystem : System; shared : Db; checking : list nat; changes : list change }.
Definition with_lock (w : Cluster) (σ : System) (ch : list nat) : Cluster :=
  {| lockSystem := σ; shared := shared w; checking := ch; changes := changes w |}.
Definition changed (w : Cluster) (db : Db) (c : change) : Cluster :=
  {| lockSystem := lockSystem w; shared := db; checking := checking w; changes := changes w ++ [c] |}.

(** [checkAllHosts] with Redis, up to the lock: a check that does not get it is
    skipped. *)
Inductive check_begins (m : Monitor) : Cluster → Cluster → Prop :=
| begins w uuid d r l s :
    let σ := lockSystem w in
    Config.Enabled (config m) = true → 0 < lockExpiry m → uuid ∉ value <$> locks σ →
    TryLock (NewRedisLock lockKey uuid (lockExpiry m)) d (clock σ) (store σ) = (r, l, s) →
    check_begins m w
      (with_lock w {| store := s; clock := clock σ; locks := locks σ ++ [l] |}
         (if r is Some true then length (locks σ) :: checking w else checking w)).

(** The steps of the instances: checks begin, write the statuses of hosts one by
    one and release their lock; renewals and the clock go on; and meanwhile
    manual checks write statuses without the lock, and the rest of the server
    writes what it likes. *)
Inductive cluster_step : Cluster → Cluster → Prop :=
| cluster_begins m w w' : check_begins m w w' → cluster_step w w'
| cluster_writes w i id status : i ∈ checking w →
    cluster_step w (changed w (set_host_status id status (shared w)) (Periodic id status))
| cluster_ends w i l d r l' s' : i ∈ checking w → locks (lockSystem w) !! i = Some l →
    Unlock l d (clock (lockSystem w)) (store (lockSystem w)) = (r, l', s') →
    cluster_step w (with_lock w (put (lockSystem w) i l' s') (keep (λ j, negb (j =? i)%nat) (checking w)))
| cluster_renews w i l d l' s' : locks (lockSystem w) !! i = Some l → renewing l = true →
    autoRenew l d (clock (lockSystem w)) (store (lockSystem w)) = (l', s') →
    cluster_step w (with_lock w (put (lockSystem w) i l' s') (checking w))
| cluster_waits w t : clock (lockSystem w) <= t →
    cluster_step w (with_lock w {| store := store (lockSystem w); clock := t; locks := locks (lockSystem w) |}
                      (checking w))
| cluster_manual w c hostID f :
    cluster_step w (changed w (after (CheckHostStatusNow c hostID (shared w) f)) (Manual hostID))
| cluster_others w db' : cluster_step w (changed w db' (Elsewhere db')).

Context {RL : RedisLaws R}.

Lemma begins_lock_steps m w w' : check_begins m w w' →
  rtc lock_step (lockSystem w) (lockSystem w').
Proof.
  destruct 1 as [w uuid d r l s σ _ He Hu Ht]. simpl.
  set (l0 := NewRedisLock lockKey uuid (lockExpiry m)) in *.
  pose (σ1 := {| store := store σ; clock := clock σ; locks := locks σ ++ [l0] |}).
  eapply rtc_l; [by apply (step_new σ lockKey uuid (lockExpiry m))|]. eapply rtc_l; [|apply rtc_refl].
  replace {| store := s; clock := clock σ; locks := locks σ ++ [l] |} with (put σ1 (length (locks σ)) l s).
  - eapply step_try; [|exact Ht]. by apply list_lookup_middle.
  - unfold put, σ1; simpl. f_equal. by rewrite insert_app_r_alt, Nat.sub_diag by done.
Qed.

Lemma cluster_lock_steps w w' : cluster_step w w' → rtc lock_step (lockSystem w) (lockSystem w').
Proof.
  destruct 1 as [m w w' Hb|w i id status Hi|w i l d r l' s' Hi Hl Hu|w i l d l' s' Hl Hr Ha|w t Ht
                |w c hid f|w db']; simpl; try apply rtc_refl.
  - by eapply begins_lock_steps.
  - eapply rtc_l; [by eapply step_unlock|apply rtc_refl].
  - eapply rtc_l; [by eapply step_renew|apply rtc_refl].
  - destruct (lockSystem w). eapply rtc_l; [by apply step_time|apply rtc_refl].
Qed.

Lemma cluster_steps_lock w w' : rtc cluster_step w w' →
  rtc lock_step (lockSystem w) (lockSystem w').
Proof.
  induction 1 as [|w1 w2 w3 H1 _ IH]; [apply rtc_refl|]. etransitivity; [|exact IH].
  by apply cluster_lock_steps.
Qed.

(** While a lock of another check holds the key, no check gets past the lock. *)
Lemma cluster_quiet_step v e t w w' : whole e → taken lockKey v e t (lockSystem w) →
  cluster_step w w' → clock (lockSystem w') < t + e →
  (∀ i, i ∈ checking w' → i ∈ checking w) ∧
  (checking w = [] → ∃ c, changes w' = changes w ++ c ∧ existsb is_periodic c = false).
Proof.
  intros He Ht Hw.
  assert (∀ w1 : Cluster, ∃ c, changes w1 = changes w1 ++ c ∧ existsb is_periodic c = false) as Hnone
    by (intros w1; exists []; by rewrite app_nil_r).
  destruct Hw as [m w w' Hb|w i id status Hi|w i l d r l' s' Hi Hl Hu|w i l d l' s' Hl Hr Ha|w u _
                |w c hid f|w db']; simpl; try (by split; [|intros _; apply Hnone]).
  - destruct Hb as [w uuid d r l s σ _ _ _ Hr]. cbn [lockSystem with_lock clock checking changes]. intros Hk.
    split; [|intros _; apply Hnone]. destruct Ht as (_ & _ & Hh & _).
    destruct (TryLock_keeps _ _ _ _ _ _ _ _ _ _ Hh Hk Hr) as [_ Hn].
    destruct r as [[]|]; [|done..]. exfalso. by apply Hn; [apply new_key|].
  - intros _. split; [done|]. intros Hc. rewrite Hc in Hi. by apply elem_of_nil in Hi.
  - intros _. split; [|intros _; apply Hnone]. by intros j [Hj _]%elem_of_keep.
  - intros _. split; [done|]. intros _. by exists [Manual hid].
  - intros _. split; [done|]. intros _. by exists [Elsewhere db'].
Qed.

Lemma cluster_quiet v e t w w' : whole e → taken lockKey v e t (lockSystem w) →
  rtc cluster_step w w' → clock (lockSystem w') < t + e →
  (∀ i, i ∈ checking w' → i ∈ checking w) ∧
  (checking w = [] → ∃ c, changes w' = changes w ++ c ∧ existsb is_periodic c = false).
Proof.
  intros He Ht Hw. revert Ht. induction Hw as [w|w1 w2 w3 H1 Hs IH]; intros Ht Hk.
  { split; [done|]. intros _. exists []. by rewrite app_nil_r. }
  pose proof (lock_steps_clock _ _ (cluster_steps_lock _ _ Hs)).
  pose proof (cluster_lock_steps _ _ H1) as Hl.
  destruct (cluster_quiet_step v e t w1 w2) as [Hin1 Hch1]; try done; [lia|].
  assert (taken lockKey v e t (lockSystem w2)) as Ht2
    by (eapply taken_steps; [done|exact Ht|done|lia]).
  destruct (IH Ht2 Hk) as [Hin Hch]. split; [auto|]. intros Hc.
  assert (checking w2 = []) as Hc2.
  { destruct (checking w2) as [|i l]; [done|]. specialize (Hin1 i ltac:(left)). rewrite Hc in Hin1. by apply elem_of_nil in Hin1. }
  destruct (Hch1 Hc) as (c1 & Ec1 & Hp1), (Hch Hc2) as (c2 & Ec2 & Hp2).
  exists (c1 ++ c2). rewrite Ec2, Ec1, app_assoc. split; [done|]. by rewrite existsb_app, Hp1, Hp2.
Qed.

Lemma lockExpiry_whole m : monitor_ok m → 2 * Config.Interval (config m) * minute < 2 ^ 63 →
  lockExpiry m = Config.Interval (config m) * 2 * minute ∧ whole (lockExpiry m).
Proof.
  intros (Hi & _ & _ & Hm) Hl. unfold lockExpiry. rewrite Hm. unfold minutes, wrap64, minute, second in *.
  rewrite (Z.mod_small (Config.Interval _ * _ + _)) by lia.
  rewrite (Z.mod_small) by lia. split; [lia|]. unfold whole, second. split; [lia|].
  set (n := Config.Interval (config m)) in *.
  replace (_ - _) with (n * 120 * 1000000000) by lia. by rewrite Z.quot_mul by lia.
Qed.

Lemma taken_begins m w w' : monitor_ok m → 2 * Config.Interval (config m) * minute < 2 ^ 63 →
  distinct (lockSystem w) → check_begins m w w' →
  (checking w' ≠ checking w → ∃ v, taken lockKey v (lockExpiry m) (clock (lockSystem w)) (lockSystem w')).
Proof.
  intros Hm Hi Hd Hb. pose proof (begins_lock_steps _ _ _ Hb) as Hs. revert Hs.
  destruct Hb as [w uuid d r l s σ _ He Hu Ht]. simpl in *. intros Hs Hn.
  assert (r = Some true) as -> by (destruct r as [[]|]; done). clear Hn.
  exists uuid. pose proof (TryLock_same _ _ _ _ _ _ _ Ht) as (_ & Hv & Hx & _). simpl in Hv, Hx.
  split; [|split; [done|split]]; simpl.
  - unfold distinct in *. simpl. rewrite fmap_app, NoDup_app. split; [done|]. split.
    + intros x Hin Hu'%list_elem_of_singleton. congruence.
    + apply NoDup_singleton.
  - apply TryLock_true in Ht; rewrite ?new_key, ?new_value, ?new_expiry in *; [exact Ht|exact He].
  - exists (length (locks σ)), l. by rewrite list_lookup_middle.
Qed.
End all_hosts.

(** C35: A periodic check that got the lock makes every instance skip the following
    ones: until twice the interval has passed since it began (an interval whose
    double fits the nanoseconds of 64 bits), no periodic check gets past the lock,
    since the lock is not released at the end. So from the moment at which no
    check is in progress (this one, and any older one that outlived its lock) no
    periodic check writes the status of a host; a manual check still does, it
    does not ask for the lock. *)
Theorem next_checks_skipped `{Network} {R : Redis} {RL : RedisLaws R} m w0 w1 w2 w3 :
  monitor_ok m → 2 * Config.Interval (config m) * minute < 2 ^ 63 → reachable (lockSystem w0) →
  check_begins m w0 w1 → checking w1 ≠ checking w0 →
  rtc cluster_step w1 w2 → rtc cluster_step w2 w3 →
  clock (lockSystem w3) < clock (lockSystem w0) + 2 * Config.Interval (config m) * minute →
  (∀ i, i ∈ checking w3 → i ∈ checking w2) ∧
  (checking w2 = [] → ∃ c, changes w3 = changes w2 ++ c ∧ existsb is_periodic c = false).
Proof.
  intros Hm Hi Hr Hb Hn H12 H23 Hk.
  destruct (lockExpiry_whole m Hm Hi) as [He Hw].
  destruct (taken_begins m w0 w1 Hm Hi (reachable_distinct _ Hr) Hb Hn) as [v Ht].
  pose proof (lock_steps_clock _ _ (cluster_steps_lock _ _ H23)) as Hc3.
  eapply (cluster_quiet v (lockExpiry m) (clock (lockSystem w0))); [done| |done|lia].
  eapply taken_steps; [done|exact Ht|by eapply cluster_steps_lock|lia].
Qed.

(** ** Concrete runs *)

(** A service that ticks every five minutes, when the settings say ten. *)
Definition every (n : Z) : Monitor :=
  {| config := {| Config.Enabled := true; Config.Interval := n; Config.Method := MonitorMethodTCP;
                  Config.Timeout := 3; Config.Concurrent := 20 |}; interval := minutes n |}.

Definition ten_db : Db := set_settings empty_db
  [{| Setting.ID := 1; Setting.Key := txt "host_monitor_interval"; Setting.Value := txt "10";
      Setting.Category := txt "host_monitor"; Setting.Type_ := txt "number" |}].

(** [loadConfig] on these tables. *)
Definition loaded (db : Db) (m : Monitor) : Monitor :=
  match loadConfig m db [] with (Ok m, _, _) => m | _ => m end.

Definition ticks_five : Ticker :=
  {| monitor := every 5; chans := Some 0%nat; isRunning := true; shutdown := false;
     goroutines := [Ticking.start (minutes 5)] |}.

Lemma ticks_five_ok : ticker_ok ticks_five.
Proof.
  exists 0%nat. do 3 (split; [done|]). intros [|c] g Hc Hg; [done|]. by destruct c.
Qed.

Lemma loads_ten : loaded ten_db (every 5) = every 10 ∧ loaded ten_db (every 10) = every 10.
Proof. split; vm_compute; reflexivity. Qed.

(** The service starts with five minutes, and reloads ten. *)
Lemma ticks_five_served : served ticks_five.
Proof.
  apply (served_start (loaded ten_db) (every 5)
    {| ticker := ticks_five; threads := [set_oldEnabled (call []) true]; panicked := false |}).
  - by vm_compute.
  - eapply rtc_l; [eapply (step_thread _ _ _ 0); reflexivity|]. eapply rtc_l; [eapply (step_thread _ _ _ 0); reflexivity|].
    eapply rtc_l; [eapply (step_thread _ _ _ 0); reflexivity|]. apply rtc_refl.
  - intros [w' H]. inversion H as [t ths i th t' th' Hi He|t ths i th Hi He|t ths c g Hc Hg Hf|t ths c g Hc Hg Hf];
      subst; try discriminate Hg;
      try (apply list_lookup_singleton_Some in Hi as [-> <-]; discriminate He);
      destruct c as [|c]; [injection Hc as <-; discriminate Hg|destruct c; discriminate Hc].
Qed.

Lemma reload_settles_witness :
  let w0 := {| ticker := ticks_five; threads := [ReloadConfig]; panicked := false |} in
  sn (ticker_step (loaded ten_db)) w0 ∧
  ∀ w, rtc (ticker_step (loaded ten_db)) w0 w →
    panicked w = false ∧
    (nf (ticker_step (loaded ten_db)) w →
     monitor (ticker w) = loaded ten_db (every 5) ∧
     runs (ticker w) (Config.Enabled (config (loaded ten_db (every 5)))) (interval (loaded ten_db (every 5)))).
Proof.
  apply (reload_settles (loaded ten_db) ticks_five ticks_five_served).
  intros _. change (monitor ticks_five) with (every 5). rewrite (proj1 loads_ten). by vm_compute.
Defined.

(** Two hundred million minutes are a negative number of nanoseconds. *)
Theorem wrapped_interval_panics :
  match take_turns (λ _, every 200000000) {| ticker := ticks_five; threads := [ReloadConfig]; panicked := false |}
          (replicate 7 (Thread_ 0) ++ [Goroutine 0] ++ replicate 3 (Thread_ 0)) with
  | Some w => panicked w = true
  | None => False
  end.
Proof. vm_compute. reflexivity. Qed.

Lemma concurrent_reloads_panic_witness : ∃ w,
  rtc (ticker_step (loaded ten_db))
    {| ticker := ticks_five; threads := [ReloadConfig; ReloadConfig]; panicked := false |} w ∧
  panicked w = true.
Proof.
  apply (concurrent_reloads_panic (loaded ten_db) ticks_five ticks_five_ok);
    change (monitor ticks_five) with (every 5); rewrite ?(proj1 loads_ten), ?(proj2 loads_ten).
  - reflexivity.
  - reflexivity.
  - reflexivity.
  - reflexivity.
  - by vm_compute.
  - by vm_compute.
Defined.

(** Two hosts, of which only the first answers. *)
Definition host_at (id ip status : string) : Host.t :=
  {| Host.ID := txt id; Host.Name := []; Host.IP := txt ip; Host.Port := 0; Host.Status := txt status;
     Host.OS := []; Host.CPU := []; Host.Memory := []; Host.Tags := []; Host.Description := []; Host.DeviceType := []; Host.ConnectionMode := [];
     Host.ProxyID := []; Host.NetworkZone := []; Host.LastLoginTime := None; Host.LoginCount := 0 |}.

Definition two_hosts : list Host.t :=
  [host_at "h1" "10.0.0.1" "offline"; host_at "h2" "10.0.0.2" "online"].
Definition hosts_db : Db := set_hosts empty_db two_hosts.

#[global] Instance sample_network : Network := {
  connect host port _ := text_eqb host (txt "10.0.0.1") && text_eqb port (txt "22");
  ping _ _ := false; http_get _ _ := false
}.

Example probes : checkHostStatus (config (every 5)) <$> two_hosts = [true; false].
Proof. vm_compute. reflexivity. Qed.

(** A manual check of the first writes its status. *)
Example checked_now :
  let r := CheckHostStatus (config (every 5)) (txt "h1") hosts_db [] in
  res r = Ok (true, online) ∧ Host.Status <$> hosts (after r) = [online; online].
Proof. vm_compute. split; reflexivity. Qed.

Lemma check_outcome_witness :
  let probe := checkHostStatus (config (every 5)) in
  sn (check_step 20 probe (λ _, false)) (start_check hosts_db two_hosts) ∧
  ∀ w, rtc (check_step 20 probe (λ _, false)) (start_check hosts_db two_hosts) w →
    Z.of_nat (length (keep inside (work w))) <= 20 ∧
    (nf (check_step 20 probe (λ _, false)) w →
     tables w = set_hosts hosts_db ((λ h,
       if bool_decide (Host.ID h ∈ Host.ID <$> two_hosts) && negb false
       then with_status h (status_of (probe h)) else h) <$> hosts hosts_db) ∧
     onlineCount w = Z.of_nat (length (keep probe two_hosts)) ∧
     offlineCount w = Z.of_nat (length (keep (λ h, negb (probe h)) two_hosts))).
Proof.
  apply (check_outcome 20 (checkHostStatus (config (every 5))) (λ _, false) hosts_db two_hosts).
  - reflexivity.
  - apply (bool_decide_unpack _). vm_compute. exact I.
  - intros h Hh. exact Hh.
Defined.

(** A check starts at time 0 and ends; nine minutes later no periodic check has
    written a status, and a manual one has. *)
Definition check_lock : RedisLock := NewRedisLock lockKey (txt "a") (10 * minute).
Definition lock_taken : @server mem_redis := {[ lockKey := (txt "a", 10 * minute) ]}.
Definition with_locks (t : Z) (ls : list RedisLock) (ch : list nat) : Cluster :=
  {| lockSystem := {| store := lock_taken; clock := t; locks := ls |}; shared := hosts_db;
     checking := ch; changes := [] |}.
Definition before_check : Cluster :=
  {| lockSystem := init ∅ 0; shared := hosts_db; checking := []; changes := [] |}.

Lemma check_takes :
  TryLock (NewRedisLock lockKey (txt "a") (lockExpiry (every 5))) Answered 0 (∅ : @server mem_redis) =
  (Some true, set_renewing check_lock true, lock_taken).
Proof. vm_compute. reflexivity. Qed.

Lemma check_has_begun :
  check_begins (every 5) before_check (with_locks 0 [set_renewing check_lock true] [0%nat]).
Proof.
  apply (begins (every 5) before_check (txt "a") Answered (Some true)
           (set_renewing check_lock true) lock_taken); [done|by vm_compute| |exact check_takes].
  apply not_elem_of_nil.
Qed.

Lemma check_has_ended : rtc cluster_step
  (with_locks 0 [set_renewing check_lock true] [0%nat])
  (with_locks 0 [set_cancelled (set_renewing check_lock true)] []).
Proof.
  eapply rtc_l; [|apply rtc_refl].
  apply (cluster_ends (with_locks 0 [set_renewing check_lock true] [0%nat]) 0
           (set_renewing check_lock true) Answered None
           (set_cancelled (set_renewing check_lock true)) lock_taken); [left|done|done].
Qed.

Lemma next_checks_skipped_witness :
  let ended := with_locks 0 [set_cancelled (set_renewing check_lock true)] [] in
  let later := with_locks (9 * minute) [set_cancelled (set_renewing check_lock true)] [] in
  let db' := after (CheckHostStatusNow (config (every 5)) (txt "h1") hosts_db []) in
  let w3 := changed later db' (Manual (txt "h1")) in
  rtc cluster_step ended w3 ∧
  ∃ c, changes w3 = changes ended ++ c ∧ existsb is_periodic c = false.
Proof.
  intros ended later db' w3.
  assert (rtc cluster_step ended w3) as H.
  { eapply rtc_l; [apply (cluster_waits ended (9 * minute)); by vm_compute|].
    eapply rtc_l; [|apply rtc_refl]. exact (cluster_manual later (config (every 5)) (txt "h1") []). }
  split; [exact H|].
  destruct (next_checks_skipped (every 5) before_check
           (with_locks 0 [set_renewing check_lock true] [0%nat]) ended w3) as [_ Hc].
  - by vm_compute.
  - by vm_compute.
  - exists ∅, 0. apply rtc_refl.
  - exact check_has_begun.
  - discriminate.
  - exact check_has_ended.
  - exact H.
  - by vm_compute.
  - exact (Hc eq_refl).
Defined.
