(* ===== verification/Files.v ===== *)
(** * The transfer of files

    [FileHandler] of [internal/api/handler/file_handler.go]: who may reach which
    account, the paths, the shell commands that list, write and read a remote
    file, and the rows of the transfers.  The [path] package of Go is modelled by
    the elements of a path.  What a remote shell makes of a command is a
    reference definition ([sh_command]): POSIX quoting, on the part of the
    language that is used.  The SSH connections are arguments. *)

From stdpp Require Import base list strings sorting.
From Stdlib Require Import ZArith Lia.
From S2P Require Import Prelude GoStrings Gorm Models Database Repositories Permissions Accounts Sessions TwoFactor.
Local Open Scope Z_scope.

(** ** Paths *)

Notation slash := (47 : rune).
Definition dot : text := [46].
Definition dotdot : text := [46; 46].

(** One element of [path.Clean]; the elements kept are in reverse. *)
Definition clean_step (rooted : bool) (out : list text) (e : text) : list text :=
  if is_empty e || text_eqb e dot then out
  else if text_eqb e dotdot then
    match out with
    | [] => if rooted then [] else [dotdot]
    | x :: out' => if text_eqb x dotdot then dotdot :: out else out'
    end
  else e :: out.

Definition clean_elements (rooted : bool) (p : text) : list text :=
  rev (foldl (clean_step rooted) [] (split_on slash p)).

Definition rooted (p : text) : bool := match p with 47 :: _ => true | _ => false end.

(** [path.Clean]. *)
Definition Clean (p : text) : text :=
  let r := rooted p in
  let out := join_with slash (clean_elements r p) in
  if r then slash :: out else if is_empty out then dot else out.

(** [path.Join] of two elements. *)
Definition Join (a b : text) : text :=
  if is_empty a && is_empty b then []
  else if is_empty a then Clean b
  else if is_empty b then Clean a
  else Clean (a ++ slash :: b).

(** [path.Base]. *)
Definition Base (p : text) : text :=
  if is_empty p then dot
  else let p := rev (drop_while (Z.eqb slash) (rev p)) in
       if is_empty p then [slash]
       else List.last (split_on slash p) [].

(** [path.Dir]: what precedes the last slash, cleaned. *)
Definition Dir (p : text) : text :=
  match last_index p [slash] with
  | Some i => Clean (take (i + 1) p)
  | None => dot
  end.

Definition normalizeRemotePath (p : text) : text :=
  if is_empty (trim_space p) then [slash]
  else
    let p := if has_prefix p [slash] then p else slash :: p in
    let cleanPath := Clean p in
    if text_eqb cleanPath dot then [slash] else cleanPath.

Definition joinRemotePath (basePath name : text) : text :=
  if text_eqb basePath [slash] then slash :: name else Join basePath name.

(** ** Commands *)

Notation quote := (39 : rune).

(** [ReplaceAll(s, "'", ...)]: a quote becomes a quote between double quotes,
    outside the single ones. *)
Definition shellQuote (s : text) : text :=
  quote :: mjoin ((λ c, if c =? quote then [39; 34; 39; 34; 39] else [c]) <$> s) ++ [quote].

(** A line of a script: the double quotes are written [^] here. *)
Definition line (s : string) : text := ((λ c, if c =? 94 then 34 else c) <$> txt s) ++ [10].

Definition sh (script : text) : text := txt "sh -c " ++ shellQuote script.

Definition list_script : text :=
  line "if [ ! -d ^$TARGET^ ]; then" ++
  line "  echo ^directory not found: $TARGET^ >&2" ++
  line "  exit 1" ++
  line "fi" ++
  line "LC_ALL=C find ^$TARGET^ -mindepth 1 -maxdepth 1 -printf '%f\0%y\0%s\0%M\0%TY-%Tm-%Td %TH:%TM:%TS\0'".

Definition upload_script : text :=
  line "mkdir -p ^$TARGET_DIR^ && cat > ^$TARGET_FILE^".

Definition file_script (last : string) : text :=
  line "if [ ! -f ^$TARGET^ ]; then" ++
  line "  echo ^file not found: $TARGET^ >&2" ++
  line "  exit 1" ++
  line "fi" ++
  line last.

(** A variable set to a value. *)
Definition assign (name : string) (value : text) : text := txt name ++ [61] ++ shellQuote value ++ [10].

Definition buildListFilesCommand (remotePath : text) : text :=
  sh (assign "TARGET" remotePath ++ list_script).

Definition buildUploadFileCommand (remotePath : text) : text :=
  sh (assign "TARGET_FILE" remotePath ++ assign "TARGET_DIR" (Dir remotePath) ++ upload_script).

Definition buildDownloadFileCommand (remotePath : text) : text :=
  sh (assign "TARGET" remotePath ++ file_script "cat ^$TARGET^").

Definition buildRemoteFileSizeCommand (remotePath : text) : text :=
  sh (assign "TARGET" remotePath ++ file_script "wc -c < ^$TARGET^").

(** ** The listing *)

Module RemoteFileInfo.
Record t := { Name : text; Path : text; Size : Z; IsDir : bool; Mode : text; ModTime : text }.
End RemoteFileInfo.

Definition format_error : text := txt "unexpected remote file list format".

Fixpoint parse_records (currentPath : text) (parts : list text) : result text (list RemoteFileInfo.t) :=
  match parts with
  | [] => Ok []
  | name :: kind :: size :: mode :: time :: parts =>
      match parse_records currentPath parts with
      | Ok files =>
          Ok ({| RemoteFileInfo.Name := name; RemoteFileInfo.Path := joinRemotePath currentPath name;
                 RemoteFileInfo.Size := default 0 (atoi size);
                 RemoteFileInfo.IsDir := text_eqb kind (txt "d"); RemoteFileInfo.Mode := mode;
                 RemoteFileInfo.ModTime := trim_space time |} :: files)
      | Err e => Err e
      end
  | _ => Err format_error
  end.

Definition parseRemoteFileList (output currentPath : text) : result text (list RemoteFileInfo.t) :=
  if is_empty output then Ok []
  else
    let parts := split_on 0 output in
    let parts := if is_empty (List.last parts [0]) then removelast parts else parts in
    parse_records currentPath parts.

(** The order of the listing: the parent, the directories, the files, by name. *)
Fixpoint text_ltb (a b : text) : bool :=
  match a, b with
  | _, [] => false
  | [], _ => true
  | x :: a, y :: b => if x =? y then text_ltb a b else x <? y
  end.

Definition file_less `{Unicode} (a b : RemoteFileInfo.t) : bool :=
  if text_eqb (RemoteFileInfo.Name a) dotdot then true
  else if text_eqb (RemoteFileInfo.Name b) dotdot then false
  else if negb (eqb (RemoteFileInfo.IsDir a) (RemoteFileInfo.IsDir b)) then RemoteFileInfo.IsDir a
  else text_ltb (to_lower (RemoteFileInfo.Name a)) (to_lower (RemoteFileInfo.Name b)).

Definition not_after `{Unicode} (a b : RemoteFileInfo.t) : Prop := file_less b a = false.
#[global] Instance not_after_dec `{Unicode} : RelDecision not_after.
Proof. intros a b. unfold not_after. apply _. Defined.

Definition parent_entry (remotePath : text) : RemoteFileInfo.t :=
  let parentPath := Dir remotePath in
  {| RemoteFileInfo.Name := dotdot;
     RemoteFileInfo.Path := if text_eqb parentPath dot then [slash] else parentPath;
     RemoteFileInfo.Size := 0; RemoteFileInfo.IsDir := true;
     RemoteFileInfo.Mode := txt "drwxr-xr-x"; RemoteFileInfo.ModTime := [] |}.

(** [listRemoteFiles], from what the remote command answered. *)
Definition listRemoteFiles `{Unicode} (answer : result text text) (remotePath : text)
    : result text (list RemoteFileInfo.t) :=
  match answer with
  | Err e => Err e
  | Ok output =>
      match parseRemoteFileList output remotePath with
      | Err e => Err e
      | Ok files =>
          let files := if text_eqb remotePath [slash] then files
                       else parent_entry remotePath :: files in
          Ok (merge_sort not_after files)
      end
  end.

Definition calculateTransferProgress (transferredBytes totalBytes : Z) : Z :=
  if totalBytes <=? 0 then (if 0 <? transferredBytes then 90 else 0)
  else
    let progress := Z.quot (wrap64 (transferredBytes * 100)) totalBytes in
    if progress <? 0 then 0 else if 100 <? progress then 100 else progress.

(** ** What a shell reads

    One simple command: its words, up to the end of the line.  [None] is what is
    not modelled: a quote left open, expansions and operators. *)

Inductive mode := Blank | Plain | Single | Double.

Definition is_blank (c : rune) : bool := (c =? 32) || (c =? 9).

(** The characters with a meaning of their own outside the quotes. *)
Definition is_operator (c : rune) : bool :=
  existsb (Z.eqb c) (txt "|&;<>()$`\*?[#~").
(** The characters that keep one between double quotes. *)
Definition is_expansion (c : rune) : bool := existsb (Z.eqb c) (txt "$`\").

Fixpoint sh_words (m : mode) (cur : text) (s : text) : option (list text * text) :=
  match s with
  | [] => match m with
          | Blank => Some ([], [])
          | Plain => Some ([cur], [])
          | _ => None
          end
  | c :: s =>
      match m with
      | Single => if c =? 39 then sh_words Plain cur s else sh_words Single (cur ++ [c]) s
      | Double =>
          if c =? 34 then sh_words Plain cur s
          else if is_expansion c then None
          else sh_words Double (cur ++ [c]) s
      | _ =>
          if c =? 10 then Some (if m is Plain then [cur] else [], s)
          else if is_blank c then
            match sh_words Blank [] s with
            | Some (ws, rest) => Some (if m is Plain then cur :: ws else ws, rest)
            | None => None
            end
          else if c =? 39 then sh_words Single cur s
          else if c =? 34 then sh_words Double cur s
          else if is_operator c then None
          else sh_words Plain (cur ++ [c]) s
      end
  end.

(** The words of the first line, and what follows it. *)
Definition sh_command (s : text) : option (list text * text) := sh_words Blank [] s.

Lemma sh_single cur s rest : sh_words Single cur
    (mjoin ((λ c, if c =? 39 then [39; 34; 39; 34; 39] else [c]) <$> s) ++ 39 :: rest) =
  sh_words Plain (cur ++ s) rest.
Proof.
  revert cur. induction s as [|c s IH]; intros cur; cbn [fmap list_fmap mjoin list_join app].
  - by rewrite app_nil_r.
  - destruct (c =? 39) eqn:Ec.
    + apply Z.eqb_eq in Ec as ->. cbn. rewrite IH. by rewrite <- app_assoc.
    + cbn [app sh_words]. rewrite Ec, IH. by rewrite <- app_assoc.
Qed.

(** A quoted text is read as itself, whatever it holds, in one word with what
    stands before it. *)
Lemma sh_quoted m cur s rest : m = Blank ∨ m = Plain →
  sh_words m cur (shellQuote s ++ rest) = sh_words Plain (cur ++ s) rest.
Proof.
  intros Hm. unfold shellQuote. cbn [app]. rewrite <- app_assoc. cbn [app].
  destruct Hm as [-> | ->]; cbn; apply sh_single.
Qed.

(** Characters that stand for themselves. *)
Definition plain_char (c : rune) : bool :=
  negb ((c =? 10) || is_blank c || (c =? 39) || (c =? 34) || is_operator c).

Lemma sh_plain m cur s rest : m = Blank ∨ m = Plain → forallb plain_char s = true → s ≠ [] →
  sh_words m cur (s ++ rest) = sh_words Plain (cur ++ s) rest.
Proof.
  revert m cur. induction s as [|c s IH]; [done|]. intros m cur Hm [Hc Hs]%andb_prop _.
  unfold plain_char in Hc. rewrite !negb_orb in Hc.
  apply andb_prop in Hc as [[[[H1%negb_true_iff H2%negb_true_iff]%andb_prop
    H3%negb_true_iff]%andb_prop H4%negb_true_iff]%andb_prop H5%negb_true_iff].
  assert (sh_words m cur ((c :: s) ++ rest) = sh_words Plain (cur ++ [c]) (s ++ rest)) as ->.
  { cbn [app]. destruct Hm as [-> | ->]; cbn [sh_words]; by rewrite H1, H2, H3, H4, H5. }
  destruct s as [|d s]; [done|]. rewrite IH by auto. by rewrite <- app_assoc.
Qed.

Lemma sh_script script : sh_command (sh script) = Some ([txt "sh"; txt "-c"; script], []).
Proof.
  unfold sh_command, sh. change (txt "sh -c ") with (txt "sh" ++ 32 :: txt "-c" ++ [32]).
  rewrite <- !app_assoc. cbn [app]. rewrite <- app_assoc.
  rewrite (sh_plain Blank [] (txt "sh")) by (auto; done). cbn [app].
  cbn [sh_words]. change (32 =? 10) with false. change (is_blank 32) with true. cbv iota.
  rewrite (sh_plain Blank [] (txt "-c")) by (auto; done). cbn [app].
  cbn [sh_words]. change (32 =? 10) with false. change (is_blank 32) with true. cbv iota.
  rewrite <- (app_nil_r (shellQuote script)). rewrite (sh_quoted Blank) by auto. reflexivity.
Qed.

(** The word that sets a variable. *)
Definition setting_of (name : string) (value : text) : text := txt name ++ [61] ++ value.

Lemma sh_assign name value rest : forallb plain_char (txt name) = true → txt name ≠ [] →
  sh_command (assign name value ++ rest) = Some ([setting_of name value], rest).
Proof.
  intros Hn Hne. unfold sh_command, assign. rewrite !app_assoc, <- (app_assoc _ _ rest).
  rewrite <- (app_assoc _ _ ([10] ++ rest)).
  rewrite (sh_plain Blank [] (txt name ++ [61])).
  - rewrite (sh_quoted Plain) by auto. cbn. by rewrite <- !app_assoc.
  - auto.
  - rewrite forallb_app, Hn. reflexivity.
  - by destruct (txt name).
Qed.

(** C32: No path reaches the remote shell as anything but data: the login shell
    reads [sh], [-c] and one script; the first lines of the script set variables
    to exactly the path (and its directory), and what follows does not depend on
    it.  So for every text: quotes, newlines, substitutions and all. *)
Theorem commands_not_injectable remotePath :
  (∃ script, sh_command (buildListFilesCommand remotePath) = Some ([txt "sh"; txt "-c"; script], []) ∧
     sh_command script = Some ([setting_of "TARGET" remotePath], list_script)) ∧
  (∃ script, sh_command (buildDownloadFileCommand remotePath) = Some ([txt "sh"; txt "-c"; script], []) ∧
     sh_command script = Some ([setting_of "TARGET" remotePath], file_script "cat ^$TARGET^")) ∧
  (∃ script, sh_command (buildRemoteFileSizeCommand remotePath) = Some ([txt "sh"; txt "-c"; script], []) ∧
     sh_command script = Some ([setting_of "TARGET" remotePath], file_script "wc -c < ^$TARGET^")) ∧
  (∃ script rest, sh_command (buildUploadFileCommand remotePath) = Some ([txt "sh"; txt "-c"; script], []) ∧
     sh_command script = Some ([setting_of "TARGET_FILE" remotePath], rest) ∧
     sh_command rest = Some ([setting_of "TARGET_DIR" (Dir remotePath)], upload_script)).
Proof.
  split_and!.
  - eexists. split; [apply sh_script|]. by apply sh_assign; [|discriminate].
  - eexists. split; [apply sh_script|]. by apply sh_assign; [|discriminate].
  - eexists. split; [apply sh_script|]. by apply sh_assign; [|discriminate].
  - do 2 eexists. split; [apply sh_script|]. split; by apply sh_assign; [|discriminate].
Qed.

(** ** Facts on paths *)

(** An element that [Clean] keeps as it is. *)
Definition proper (e : text) : Prop := e ≠ [] ∧ e ≠ dot ∧ e ≠ dotdot ∧ slash ∉ e.

Lemma clean_proper out e : Forall proper out → slash ∉ e → Forall proper (clean_step true out e).
Proof.
  intros Ho He. unfold clean_step. destruct e as [|c e]; [done|]. cbn [is_empty orb].
  destruct (text_eqb (c :: e) dot) eqn:E1; [done|].
  destruct (text_eqb (c :: e) dotdot) eqn:E2.
  - destruct out as [|x out]; [done|]. apply Forall_cons in Ho as [(_ & _ & Hx & _) Ho].
    destruct (text_eqb x dotdot) eqn:E3; [|done]. by apply text_eqb_true in E3.
  - constructor; [|done]. split; [done|]. split; [|split; [|done]].
    + intros H. by rewrite H, text_eqb_refl in E1.
    + intros H. by rewrite H, text_eqb_refl in E2.
Qed.

Lemma elements_proper p : Forall proper (clean_elements true p).
Proof.
  unfold clean_elements. apply Forall_rev.
  assert (∀ l out, Forall proper out → Forall (λ e, slash ∉ e) l →
            Forall proper (foldl (clean_step true) out l)) as Hl.
  { induction l as [|e l IH]; intros out Ho Hl; [done|].
    apply Forall_cons in Hl as [He Hl]. simpl. apply IH; [|done]. by apply clean_proper. }
  apply Hl; [done|]. apply Forall_forall. intros e He. by apply split_on_pieces in He.
Qed.

Lemma clean_step_proper out e : proper e → clean_step true out e = e :: out.
Proof.
  intros (H1 & H2 & H3 & _). unfold clean_step. destruct e as [|c e]; [done|]. cbn [is_empty orb].
  destruct (text_eqb (c :: e) dot) eqn:E1; [by apply text_eqb_true in E1|].
  destruct (text_eqb (c :: e) dotdot) eqn:E2; [by apply text_eqb_true in E2|]. done.
Qed.

Lemma foldl_proper els out : Forall proper els → foldl (clean_step true) out els = rev els ++ out.
Proof.
  intros HF. revert out. induction HF as [|e els He HF IH]; intros out; [done|].
  simpl. by rewrite clean_step_proper, IH, <- app_assoc by done.
Qed.

(** The text of a rooted path. *)
Definition path_of (els : list text) : text := slash :: join_with slash els.

Lemma split_path els : Forall proper els →
  foldl (clean_step true) [] (split_on slash (path_of els)) = rev els.
Proof.
  intros HF. unfold path_of. change (slash :: join_with slash els) with ([] ++ slash :: join_with slash els).
  rewrite split_on_app by apply not_elem_of_nil. cbn [foldl]. change (clean_step true [] []) with (@nil text).
  destruct els as [|e els]; [done|]. rewrite split_join; [|done|].
  - by rewrite foldl_proper, app_nil_r.
  - eapply Forall_impl; [exact HF|]. by intros x (_ & _ & _ & ?).
Qed.

Lemma Clean_path els : Forall proper els → Clean (path_of els) = path_of els.
Proof.
  intros HF. unfold Clean, clean_elements. change (rooted (path_of els)) with true. cbv iota.
  by rewrite split_path, rev_involutive.
Qed.

Lemma Clean_rooted p : rooted p = true → ∃ els, Forall proper els ∧ Clean p = path_of els.
Proof.
  intros Hr. exists (clean_elements true p). split; [apply elements_proper|].
  unfold Clean. by rewrite Hr.
Qed.

Lemma normalize_path p : ∃ els, Forall proper els ∧ normalizeRemotePath p = path_of els.
Proof.
  unfold normalizeRemotePath. destruct (is_empty (trim_space p)); [by exists []|].
  set (q := if has_prefix p [slash] then p else slash :: p).
  assert (rooted q = true) as Hq.
  { unfold q. destruct (has_prefix p [slash]) eqn:E; [|done].
    apply has_prefix_spec in E as [s ->]. done. }
  destruct (Clean_rooted q Hq) as (els & HF & ->). exists els. split; [done|].
  by destruct els.
Qed.

Lemma normalize_id els : Forall proper els → normalizeRemotePath (path_of els) = path_of els.
Proof.
  intros HF. unfold normalizeRemotePath.
  destruct (trim_space (path_of els)) as [|c s] eqn:Et.
  - apply trim_space_eq_nil, Forall_cons in Et as [Ht _]. done.
  - cbn [is_empty]. unfold path_of at 1. cbn [has_prefix strip_prefix]. fold (path_of els).
    change (has_prefix (path_of els) [slash]) with true. cbv iota. rewrite Clean_path by done.
    by destruct els.
Qed.

Lemma last_index_slash a b : slash ∉ b → last_index (a ++ slash :: b) [slash] = Some (length a).
Proof.
  intros Hb. assert (last_index b [slash] = None) as Hn.
  { clear a. induction b as [|y b IH]; [done|]. apply not_elem_of_cons in Hb as [Hy Hb].
    cbn [last_index]. rewrite IH by done. unfold has_prefix. cbn [strip_prefix fmap option_fmap option_map].
    destruct (slash =? y) eqn:E; [by apply Z.eqb_eq in E|]. done. }
  induction a as [|x a IH]; cbn [app last_index length].
  - rewrite Hn. done.
  - by rewrite IH.
Qed.

Lemma path_snoc els name : path_of (els ++ [name]) =
  (if is_empty els then [] else path_of els) ++ slash :: name.
Proof.
  unfold path_of. destruct els as [|e els]; [done|]. cbn [is_empty app]. f_equal.
  revert e. induction els as [|e' els IH]; intros e; [done|].
  change ((e :: e' :: els) ++ [name]) with (e :: (e' :: els) ++ [name]).
  cbn [join_with app] in *. rewrite IH. by rewrite <- app_assoc.
Qed.

Lemma Dir_snoc els name : Forall proper els → slash ∉ name →
  Dir (path_of (els ++ [name])) = path_of els.
Proof.
  intros HF Hn. unfold Dir. rewrite path_snoc, last_index_slash by done.
  change (slash :: name) with ([slash] ++ name). rewrite app_assoc, take_app_length' by (rewrite length_app; simpl; lia).
  destruct els as [|e els]; [done|]. cbn [is_empty].
  unfold Clean. change (rooted (path_of (e :: els) ++ [slash])) with true. cbv iota.
  unfold clean_elements, path_of.
  change ((slash :: join_with slash (e :: els)) ++ [slash]) with ([] ++ slash :: (join_with slash (e :: els) ++ [slash])).
  rewrite split_on_app by apply not_elem_of_nil. cbn [foldl].
  replace (join_with slash (e :: els) ++ [slash]) with (join_with slash ((e :: els) ++ [[]])).
  - rewrite split_join; [|done|].
    + rewrite foldl_app, (foldl_proper (e :: els)) by exact HF. cbn [foldl].
      change (clean_step true [] []) with (@nil text). rewrite app_nil_r.
      change (clean_step true (rev (e :: els)) []) with (rev (e :: els)).
      by rewrite rev_involutive.
    + apply Forall_app. split; [|constructor; [apply not_elem_of_nil|constructor]].
      eapply Forall_impl; [exact HF|]. by intros x (_ & _ & _ & ?).
  - pose proof (path_snoc (e :: els) []) as Hp. unfold path_of in Hp. cbn [is_empty] in Hp.
    by injection Hp.
Qed.

Lemma Base_snoc els name : Forall proper els → proper name → Base (path_of (els ++ [name])) = name.
Proof.
  intros HF Hn. unfold Base. change (is_empty (path_of (els ++ [name]))) with false. cbv iota.
  rewrite drop_while_none.
  - rewrite rev_involutive. change (is_empty (path_of (els ++ [name]))) with false. cbv iota.
    unfold path_of.
    change (slash :: join_with slash (els ++ [name])) with ([] ++ slash :: join_with slash (els ++ [name])).
    rewrite split_on_app by apply not_elem_of_nil. rewrite split_join.
    + rewrite app_comm_cons. apply last_default_snoc.
    + by destruct els.
    + apply Forall_app. destruct Hn as (_ & _ & _ & Hn). split; [|by repeat constructor].
      eapply Forall_impl; [exact HF|]. by intros x (_ & _ & _ & ?).
  - intros x Hx. rewrite path_snoc in Hx. destruct Hn as (Hne & _ & _ & Hn).
    destruct (rev name) as [|y l] eqn:E.
    + apply (f_equal (@rev rune)) in E. rewrite rev_involutive in E. done.
    + rewrite rev_app_distr in Hx. cbn [rev] in Hx. rewrite E in Hx. simpl in Hx. injection Hx as <-.
      apply Z.eqb_neq. intros <-. apply Hn. apply list_elem_of_In, in_rev. rewrite E. by left.
Qed.

Lemma Join_path els name : Forall proper els → proper name →
  Join (path_of els) name = path_of (els ++ [name]).
Proof.
  intros HF Hn. unfold Join. change (is_empty (path_of els)) with false. cbn [andb].
  destruct name as [|c name]; [by destruct Hn|]. cbn [is_empty].
  rewrite <- (Clean_path (els ++ [c :: name])) by (apply Forall_app; split; [done|by apply Forall_singleton]).
  rewrite path_snoc. destruct els as [|e els]; [|done].
  unfold Clean, clean_elements. reflexivity.
Qed.

Lemma joinRemotePath_path els name : Forall proper els → proper name →
  joinRemotePath (path_of els) name = path_of (els ++ [name]).
Proof.
  intros HF Hn. unfold joinRemotePath. destruct (text_eqb (path_of els) [slash]) eqn:E.
  - apply text_eqb_true in E. destruct els as [|e els]; [done|].
    apply Forall_cons in HF as [(He & _) _]. unfold path_of in E. injection E as E.
    destruct els; destruct e; simplify_eq/=.
  - by apply Join_path.
Qed.

(** The paths the handlers use are absolute and canonical: no element is
    empty, a dot or two dots, and normalising again changes nothing.  An upload
    goes to the base name of the file, directly in the directory asked for. *)
Theorem remote_paths_canonical p filename :
  proper (Base filename) →
  let dir := normalizeRemotePath p in
  let full := joinRemotePath dir (Base filename) in
  (∃ els, Forall proper els ∧ dir = path_of els ∧ full = path_of (els ++ [Base filename])) ∧
  normalizeRemotePath dir = dir ∧ normalizeRemotePath full = full ∧
  Dir full = dir ∧ Base full = Base filename.
Proof.
  intros Hb dir full. destruct (normalize_path p) as (els & HF & Hd).
  assert (Forall proper (els ++ [Base filename])) as HF'
    by (apply Forall_app; split; [done|by apply Forall_singleton]).
  assert (full = path_of (els ++ [Base filename])) as Hf
    by (unfold full, dir; by rewrite Hd, joinRemotePath_path).
  split; [by exists els|]. rewrite Hf. unfold dir. rewrite Hd.
  split; [by apply normalize_id|]. split; [by apply normalize_id|].
  split; [apply Dir_snoc; [done|by destruct Hb as (_ & _ & _ & ?)]|by apply Base_snoc].
Qed.

(** ** The listing, as [find] prints it *)

(** One entry: its fields, each ended by a NUL. *)
Module Entry.
Record t := { name : text; kind : text; size : text; perms : text; time : text }.

Definition fields (e : t) : list text := [name e; kind e; size e; perms e; time e].
Definition no_nul (e : t) : Prop := Forall (λ f, 0 ∉ f) (fields e).
End Entry.

Definition printed (es : list Entry.t) : text :=
  mjoin ((λ f, f ++ [0]) <$> mjoin (Entry.fields <$> es)).

Definition info_of (currentPath : text) (e : Entry.t) : RemoteFileInfo.t :=
  {| RemoteFileInfo.Name := Entry.name e; RemoteFileInfo.Path := joinRemotePath currentPath (Entry.name e);
     RemoteFileInfo.Size := default 0 (atoi (Entry.size e));
     RemoteFileInfo.IsDir := text_eqb (Entry.kind e) (txt "d"); RemoteFileInfo.Mode := Entry.perms e;
     RemoteFileInfo.ModTime := trim_space (Entry.time e) |}.

Lemma parse_fields currentPath es :
  parse_records currentPath (mjoin (Entry.fields <$> es)) = Ok (info_of currentPath <$> es).
Proof.
  induction es as [|e es IH]; [done|].
  change (mjoin (Entry.fields <$> e :: es)) with (Entry.fields e ++ mjoin (Entry.fields <$> es)).
  unfold Entry.fields at 1. cbn [app parse_records]. by rewrite IH.
Qed.

(** The listing survives its journey as text: whatever the names are (spaces,
    newlines, quotes), the entries the remote [find] prints are the files the
    handler reads, in the same order. *)
Theorem listing_roundtrip currentPath es : Forall Entry.no_nul es →
  parseRemoteFileList (printed es) currentPath = Ok (info_of currentPath <$> es).
Proof.
  intros HF. destruct es as [|e es]; [done|]. unfold parseRemoteFileList.
  assert (printed (e :: es) ≠ []) as Hne.
  { unfold printed. cbn. by destruct (Entry.name e). }
  destruct (printed (e :: es)) as [|c s] eqn:E; [done|]. cbn [is_empty]. rewrite <- E. clear E Hne.
  unfold printed. rewrite split_ended.
  - rewrite last_default_snoc. cbn [is_empty]. rewrite removelast_last. apply parse_fields.
  - clear -HF. induction HF as [|x l Hx _ IH]; [constructor|].
    change (mjoin (Entry.fields <$> x :: l)) with (Entry.fields x ++ mjoin (Entry.fields <$> l)).
    apply Forall_app. by split.
Qed.

(** ** Progress *)

(** The progress is a percentage whatever the counts, overflow included. *)
Lemma progress_bounds t n : 0 <= calculateTransferProgress t n <= 100.
Proof.
  unfold calculateTransferProgress. destruct (n <=? 0); [destruct (0 <? t); lia|].
  destruct (_ <? 0) eqn:E1; [lia|]. destruct (100 <? _) eqn:E2; [lia|].
  apply Z.ltb_ge in E1, E2. lia.
Qed.

Lemma progress_mono t t' n : 0 <= t <= t' → t' * 100 < 2 ^ 63 →
  calculateTransferProgress t n <= calculateTransferProgress t' n.
Proof.
  intros Ht Hb. unfold calculateTransferProgress, wrap64.
  destruct (n <=? 0) eqn:En.
  { destruct (0 <? t) eqn:E1, (0 <? t') eqn:E2; lia. }
  apply Z.leb_gt in En. rewrite !Z.mod_small by lia. rewrite !Z.add_simpl_r.
  assert (Z.quot (t * 100) n <= Z.quot (t' * 100) n) as Hq by (apply Z.quot_le_mono; lia).
  repeat case_match; rewrite ?Z.ltb_lt, ?Z.ltb_ge in *; lia.
Qed.

(** ** Who may reach which account *)

Section handlers.
Context (JSON_CONTAINS : text → text → bool) (err_text : db_error → text).

(** [user] is the [userID] the middleware left in the context, if any; the error
    is a message. *)
Definition resolveAuthorizedTarget (user : option text) (hostID systemUserID : text) (now : Z)
    : Eff text (Host.t * SystemUser.t * text) :=
  match user with
  | None => raise (txt "unauthorized")
  | Some userID =>
      if is_empty userID then raise (txt "invalid user context")
      else
        hasPermission ← or_fail (λ e, txt "permission check failed: " ++ err_text e)
          (CheckUserHasPermission JSON_CONTAINS now userID hostID systemUserID);
        if negb hasPermission then raise (txt "forbidden")
        else
          host ← or_fail (λ _, txt "host not found") (FindHostByID hostID);
          systemUser ← or_fail (λ _, txt "system user not found") (FindSystemUserByID systemUserID);
          let protocol := SystemUser.Protocol systemUser in
          if negb (is_empty protocol) && negb (text_eqb protocol (txt "ssh"))
          then raise (txt "unsupported protocol")
          else mret (host, systemUser, userID)
  end.

(** The answer each message becomes. *)
Definition writeResolveError (e : text) : Z * text :=
  if text_eqb e (txt "unauthorized") || text_eqb e (txt "invalid user context") then (401, e)
  else if text_eqb e (txt "forbidden") then (403, txt "No permission to use this system user")
  else if text_eqb e (txt "host not found") then (404, txt "Host not found")
  else if text_eqb e (txt "system user not found") then (404, txt "System user not found")
  else if text_eqb e (txt "unsupported protocol") then
    (400, txt "Only SSH system users support file transfer")
  else (500, e).

(** ** The rows of the transfers *)

Definition transfers (db : Db) : list FileTransfer.t := file_transfers (logs (aux db)).

Definition create_transfer (t : FileTransfer.t) : DB unit := execute (λ db,
  if existsb (λ t', text_eqb (FileTransfer.ID t') (FileTransfer.ID t)) (transfers db)
  then Err DuplicatedKey else Ok (set_file_transfers db (transfers db ++ [t]))).

Definition update_transfer (id : text) (f : FileTransfer.t → FileTransfer.t) : DB unit :=
  execute (λ db, Ok (set_file_transfers db
    (updated (λ t, text_eqb (FileTransfer.ID t) id) f <$> transfers db))).

(** The progress callback, and the last update of each handler; errors are
    ignored. *)
Definition report {E} (id : text) (progress : Z) : Eff E unit :=
  _ ← attempt (update_transfer id (λ t, FileTransfer.set_progress t progress)); mret ().

(** The time of a transfer in whole seconds; times are in nanoseconds. *)
Definition duration (start now : Z) : Z := Z.quot (now - start) 1000000000.

Definition mark_failed {E} (id e : text) (start now : Z) : Eff E unit :=
  _ ← attempt (update_transfer id (λ t,
        FileTransfer.set_end t (txt "failed") e (FileTransfer.Progress t) now (duration start now)));
  mret ().
Definition mark_completed {E} (id : text) (start now : Z) : Eff E unit :=
  _ ← attempt (update_transfer id (λ t,
        FileTransfer.set_end t (txt "completed") (FileTransfer.ErrorMessage t) 100 now
          (duration start now)));
  mret ().

Definition new_transfer (id sessionID userID username : text) (host : Host.t)
    (direction localPath remotePath fileName : text) (size : Z) (status : text) (start : Z)
    : FileTransfer.t :=
  {| FileTransfer.ID := id; FileTransfer.SessionID := sessionID; FileTransfer.UserID := userID;
     FileTransfer.Username := username; FileTransfer.HostID := Host.ID host;
     FileTransfer.HostIP := Host.IP host; FileTransfer.HostName := Host.Name host;
     FileTransfer.Direction := direction; FileTransfer.LocalPath := localPath;
     FileTransfer.RemotePath := remotePath; FileTransfer.FileName := fileName;
     FileTransfer.FileSize := size; FileTransfer.Status := status; FileTransfer.Progress := 0;
     FileTransfer.ErrorMessage := []; FileTransfer.TransferredAt := start;
     FileTransfer.CompletedAt := None; FileTransfer.Duration := 0 |}.

Definition or_unknown (username : text) : text :=
  if is_empty username then txt "unknown" else username.

(** The identifiers drawn and the times read by a handler. *)
Record Context_ := { transferID : text; newSession : text; started : Z; completed : Z }.

(** ** Listing *)

Definition ListFiles `{Unicode} (answer : Host.t → SystemUser.t → text → result text text)
    (user : option text) (hostID systemUserID requestedPath : text) (now : Z)
    : Http (list RemoteFileInfo.t) :=
  if is_empty hostID || is_empty systemUserID then raise (400, txt "Missing hostId or systemUserId")
  else
    target ← or_fail writeResolveError (resolveAuthorizedTarget user hostID systemUserID now);
    let '(host, systemUser, _) := target in
    let cleanPath := normalizeRemotePath requestedPath in
    match listRemoteFiles (answer host systemUser (buildListFilesCommand cleanPath)) cleanPath with
    | Err e => raise (500, txt "Failed to list files: " ++ e)
    | Ok files => mret files
    end.

(** ** Uploading *)

(** What becomes of the remote command: it is not started, or it ran, with what
    the copy, the close and the wait returned. *)
Inductive upload_run :=
| NotStarted (e : text)
| Ran (written : Z) (copyErr closeErr waitErr : option text) (stderr : text).

Definition with_stderr (what e stderr : text) : text :=
  what ++ e ++ (if is_empty (trim_space stderr) then [] else txt ": " ++ trim_space stderr).

(** [uploadFile]; [id] is the transfer its callback reports to. *)
Definition uploadFile (run : upload_run) (fileSize : Z) (id : text) : Eff text unit :=
  match run with
  | NotStarted e => raise e
  | Ran written copyErr closeErr waitErr stderr =>
      _ ← report id 10;
      match copyErr, closeErr, waitErr with
      | Some e, _, _ => raise (txt "failed to copy upload data: " ++ e)
      | None, Some e, _ => raise (txt "failed to close upload stream: " ++ e)
      | None, None, Some e => raise (with_stderr (txt "remote upload command failed: ") e stderr)
      | None, None, None =>
          if (0 <? fileSize) && negb (written =? fileSize)
          then raise (txt "uploaded size mismatch")
          else report id 100
      end
  end.

(** [file] is the name and the size of the file sent, [None] when there is none;
    the answer is the path written. *)
Definition UploadFile (run : Host.t → SystemUser.t → text → upload_run) (c : Context_)
    (user : option text) (username hostID remotePath systemUserID : text)
    (file : option (text * Z)) : Http text :=
  if is_empty hostID || is_empty systemUserID then raise (400, txt "Missing hostId or systemUserId")
  else
    let remotePath := if is_empty remotePath then txt "/tmp" else remotePath in
    match file with
    | None => raise (400, txt "Failed to get file: ")
    | Some (filename, size) =>
        target ← or_fail writeResolveError
          (resolveAuthorizedTarget user hostID systemUserID (started c));
        let '(host, systemUser, userID) := target in
        let fullRemotePath := joinRemotePath (normalizeRemotePath remotePath) (Base filename) in
        _ ← attempt (create_transfer (new_transfer (transferID c) (newSession c) userID
              (or_unknown username) host (txt "upload") filename fullRemotePath filename size
              (txt "uploading") (started c)));
        r ← caught (uploadFile (run host systemUser (buildUploadFileCommand fullRemotePath)) size
                      (transferID c));
        match r with
        | Err e =>
            _ ← mark_failed (transferID c) e (started c) (completed c);
            raise (500, txt "Failed to upload file: " ++ e)
        | Ok _ => _ ← mark_completed (transferID c) (started c) (completed c); mret fullRemotePath
        end
    end.

(** ** Downloading *)

(** One read of the remote output: the bytes (one element each), how the write of them to the client
    went, and the error of the read ([Some None] is the end of the file). *)
Record read := { chunk : text; write_err : option text; read_err : option (option text) }.

Inductive download_run :=
| NotOpened (e : text)
| Streaming (reads : list read) (waitErr : option text) (stderr : text).

Inductive stream_end := Eof | Broken (e : text) | Waiting.

Definition written (sent : option text) (b : text) : option text := Some (default [] sent ++ b).

(** The loop of [streamDownloadFile], from the bytes sent and the last progress
    reported; without a further read it waits.  The bytes are [None] before the
    first write, which sends the header. *)
Fixpoint stream_loop {E} (id : text) (fileSize : Z) (reads : list read) (sent : option text)
    (lastProgress : Z) : Eff E (option text * Z * stream_end) :=
  match reads with
  | [] => mret (sent, lastProgress, Waiting)
  | r :: reads =>
      let go sent lastProgress : Eff E (option text * Z * stream_end) :=
        match read_err r with
        | None => stream_loop id fileSize reads sent lastProgress
        | Some None => mret (sent, lastProgress, Eof)
        | Some (Some e) => mret (sent, lastProgress, Broken (txt "failed to stream download data: " ++ e))
        end in
      if is_empty (chunk r) then go sent lastProgress
      else match write_err r with
           | Some e => mret (written sent [], lastProgress,
                             Broken (txt "failed to stream download data: " ++ e))
           | None =>
               let sent := written sent (chunk r) in
               let progress := calculateTransferProgress (Z.of_nat (length (default [] sent))) fileSize in
               if lastProgress <? progress then report id progress ≫= λ _, go sent progress
               else go sent lastProgress
           end
  end.

(** [streamDownloadFile]: the bytes sent and how it ended. *)
Definition streamDownloadFile {E} (run : download_run) (fileSize : Z) (id : text)
    : Eff E (option text * stream_end) :=
  match run with
  | NotOpened e => mret (None, Broken e)
  | Streaming reads waitErr stderr =>
      s ← stream_loop id fileSize reads None (-1);
      let '(sent, lastProgress, how) := s in
      match how, waitErr with
      | Eof, Some e =>
          mret (sent, Broken (with_stderr (txt "remote download command failed: ") e stderr))
      | Eof, None =>
          if lastProgress <? 100 then report id 100 ≫= λ _, mret (sent, Eof) else mret (sent, Eof)
      | _, _ => mret (sent, how)
      end
  end.

(** [getRemoteFileSize], from the answer of the remote command. *)
Definition getRemoteFileSize (answer : result text text) : result text Z :=
  match answer with
  | Err e => Err (txt "remote file stat failed: " ++ e)
  | Ok output =>
      match atoi (trim_space output) with
      | Some n => Ok n
      | None => Err (txt "failed to parse remote file size: ")
      end
  end.

Definition download_name (cleanPath : text) : text :=
  let fileName := Base cleanPath in
  if text_eqb fileName [slash] || text_eqb fileName dot || is_empty fileName
  then txt "download.bin" else fileName.

(** [DownloadFile]: the bytes written to the client and how the stream ended; an error
    before the first byte is an answer of its own. *)
Definition DownloadFile (stat : Host.t → SystemUser.t → text → result text text)
    (run : Host.t → SystemUser.t → text → download_run) (c : Context_)
    (user : option text) (username hostID remotePath systemUserID : text)
    : Http (option text * stream_end) :=
  if is_empty hostID || is_empty systemUserID || is_empty remotePath
  then raise (400, txt "Missing hostId, systemUserId, or remotePath")
  else
    target ← or_fail writeResolveError
      (resolveAuthorizedTarget user hostID systemUserID (started c));
    let '(host, systemUser, userID) := target in
    let cleanPath := normalizeRemotePath remotePath in
    match getRemoteFileSize (stat host systemUser (buildRemoteFileSizeCommand cleanPath)) with
    | Err e => raise (500, txt "Failed to stat file before download: " ++ e)
    | Ok fileSize =>
        let fileName := download_name cleanPath in
        _ ← attempt (create_transfer (new_transfer (transferID c) (newSession c) userID
              (or_unknown username) host (txt "download") fileName cleanPath fileName fileSize
              (txt "downloading") (started c)));
        s ← streamDownloadFile (run host systemUser (buildDownloadFileCommand cleanPath)) fileSize
              (transferID c);
        match s.2 with
        | Broken e =>
            _ ← mark_failed (transferID c) e (started c) (completed c);
            if decide (s.1 = None) then raise (500, txt "Failed to download file: " ++ e) else mret s
        | Eof => _ ← mark_completed (transferID c) (started c) (completed c); mret s
        | Waiting => mret s
        end
    end.

(** ** The history *)

Definition newest (a b : FileTransfer.t) : Prop :=
  FileTransfer.TransferredAt b <= FileTransfer.TransferredAt a.
#[global] Instance newest_dec : RelDecision newest.
Proof. intros a b. apply Z_le_dec. Defined.

Definition GetFileTransfers (hostId userId direction : text) : Http (list FileTransfer.t) :=
  let wanted (given field : text) := is_empty given || text_eqb field given in
  or_fail (λ e, (500, txt "Failed to get file transfers: " ++ err_text e)) (find (λ db,
    merge_sort newest (keep (λ t,
      wanted hostId (FileTransfer.HostID t) && wanted userId (FileTransfer.UserID t) &&
      wanted direction (FileTransfer.Direction t)) (transfers db)))).

(** ** Facts *)

Definition grants (db : Db) (now : Z) (userID hostID systemUserID : text) : bool :=
  existsb (λ r, rule_has_account db r systemUserID && rule_applies db now r userID &&
                rule_covers_host JSON_CONTAINS db r hostID) (permission_rules db).

Lemma resolve_refuses user hostID systemUserID now db f :
  (∀ userID, user = Some userID → grants db now userID hostID systemUserID = false) →
  ∃ e f', resolveAuthorizedTarget user hostID systemUserID now db f = (Err e, db, f').
Proof.
  intros Hg. unfold resolveAuthorizedTarget. destruct user as [uid|]; [|by do 2 eexists].
  destruct (is_empty uid); [by do 2 eexists|]. specialize (Hg uid eq_refl).
  rewrite bind_run. unfold or_fail, CheckUserHasPermission, query.
  destruct f as [|[e|] f]; [|by do 2 eexists|]; unfold grants in Hg; rewrite Hg; by do 2 eexists.
Qed.

(** Without a rule that grants the account on the host to the user, the file
    handlers do nothing: each refuses, whatever fails, changes no row, and its
    answer does not depend on the remote host, so nothing is asked of it. *)
Theorem no_rule_no_files `{Unicode} user username hostID systemUserID path file c db f :
  (∀ userID, user = Some userID → grants db (started c) userID hostID systemUserID = false) →
  (∃ e f', ∀ run,
     UploadFile run c user username hostID path systemUserID file db f = (Err e, db, f')) ∧
  (∃ e f', ∀ stat run,
     DownloadFile stat run c user username hostID path systemUserID db f = (Err e, db, f')) ∧
  (∃ e f', ∀ answer,
     ListFiles answer user hostID systemUserID path (started c) db f = (Err e, db, f')).
Proof.
  intros Hg. destruct (resolve_refuses user hostID systemUserID (started c) db f Hg) as (e & f' & Hr).
  assert (or_fail writeResolveError (resolveAuthorizedTarget user hostID systemUserID (started c)) db f
          = (Err (writeResolveError e), db, f')) as Hr' by (unfold or_fail; by rewrite Hr).
  unfold UploadFile, DownloadFile, ListFiles. split_and!.
  - destruct (is_empty hostID || is_empty systemUserID); [by do 2 eexists|].
    destruct file as [[filename size]|]; [|by do 2 eexists].
    do 2 eexists. intros run. by rewrite bind_run, Hr'.
  - destruct (is_empty hostID || is_empty systemUserID || is_empty path); [by do 2 eexists|].
    do 2 eexists. intros stat run. by rewrite bind_run, Hr'.
  - destruct (is_empty hostID || is_empty systemUserID); [by do 2 eexists|].
    do 2 eexists. intros answer. by rewrite bind_run, Hr'.
Qed.

(** While a handler runs, its row is the last of the table, and no other has
    its id. *)
Definition with_row (db : Db) (row : FileTransfer.t) : Db :=
  set_file_transfers db (transfers db ++ [row]).
Definition fresh (c : Context_) (db : Db) : Prop := transferID c ∉ FileTransfer.ID <$> transfers db.

Lemma update_transfer_run c db row g : fresh c db → FileTransfer.ID row = transferID c →
  update_transfer (transferID c) g (with_row db row) [] = (Ok (), with_row db (g row), []).
Proof.
  intros Hf Hr. unfold update_transfer, execute. do 2 f_equal.
  change (transfers (with_row db row)) with (transfers db ++ [row]).
  rewrite updated_last; [done| |by rewrite Hr, text_eqb_refl].
  intros y Hy. destruct (text_eqb _ _) eqn:E; [|done]. apply text_eqb_true in E. destruct Hf.
  rewrite <- E. by apply list_elem_of_fmap_2.
Qed.

Lemma create_transfer_run c db row : fresh c db → FileTransfer.ID row = transferID c →
  create_transfer row db [] = (Ok (), with_row db row, []).
Proof.
  intros Hf Hr. unfold create_transfer, execute.
  destruct (existsb _ _) eqn:E; [|done]. apply existsb_exists in E as (y & Hy & E).
  apply text_eqb_true in E. destruct Hf. rewrite <- Hr, <- E.
  by apply list_elem_of_fmap_2, list_elem_of_In.
Qed.

Lemma report_run {E} c db row p : fresh c db → FileTransfer.ID row = transferID c →
  report (E := E) (transferID c) p (with_row db row) [] =
    (Ok (), with_row db (FileTransfer.set_progress row p), []).
Proof. intros Hf Hr. unfold report. rewrite bind_run. unfold attempt. by rewrite (update_transfer_run c). Qed.

Lemma mark_failed_run {E} c db row e s n : fresh c db → FileTransfer.ID row = transferID c →
  mark_failed (E := E) (transferID c) e s n (with_row db row) [] =
    (Ok (), with_row db (FileTransfer.set_end row (txt "failed") e (FileTransfer.Progress row) n
                           (duration s n)), []).
Proof. intros Hf Hr. unfold mark_failed. rewrite bind_run. unfold attempt. by rewrite (update_transfer_run c). Qed.

Lemma mark_completed_run {E} c db row s n : fresh c db → FileTransfer.ID row = transferID c →
  mark_completed (E := E) (transferID c) s n (with_row db row) [] =
    (Ok (), with_row db (FileTransfer.set_end row (txt "completed") (FileTransfer.ErrorMessage row)
                           100 n (duration s n)), []).
Proof.
  intros Hf Hr. unfold mark_completed. rewrite bind_run. unfold attempt. by rewrite (update_transfer_run c).
Qed.

(** What the row says at the end. *)
Definition ended (c : Context_) (row : FileTransfer.t) (outcome : result text ()) (p : Z) : FileTransfer.t :=
  match outcome with
  | Ok _ => FileTransfer.set_end row (txt "completed") [] 100 (completed c)
              (duration (started c) (completed c))
  | Err e => FileTransfer.set_end row (txt "failed") e p (completed c)
               (duration (started c) (completed c))
  end.

(** An upload succeeded when every step did and the size fits. *)
Definition delivered (run : upload_run) (size : Z) : bool :=
  match run with
  | Ran written None None None _ => (size <=? 0) || (written =? size)
  | _ => false
  end.

Lemma set_progress_same row : FileTransfer.set_progress row (FileTransfer.Progress row) = row.
Proof. by destruct row. Qed.

(** What a run of the transfer leaves: its result and a progress. *)
Definition leaves (c : Context_) (db : Db) (row : FileTransfer.t) {E A} (m : Eff E A)
    (post : result E A → Prop) : Prop :=
  ∃ r p, m (with_row db row) [] = (r, with_row db (FileTransfer.set_progress row p), []) ∧
         0 <= p <= 100 ∧ post r.

Lemma uploadFile_run c db row run size : fresh c db → FileTransfer.ID row = transferID c →
  FileTransfer.Progress row = 0 →
  leaves c db row (uploadFile run size (transferID c))
    (λ r, match r with Ok _ => delivered run size = true | Err _ => delivered run size = false end).
Proof.
  intros Hf Hr H0. unfold leaves, uploadFile, delivered.
  destruct run as [e|written copyErr closeErr waitErr stderr].
  { exists (Err e), 0. rewrite <- H0, set_progress_same, H0. by split_and!. }
  rewrite bind_run, (report_run c) by done.
  destruct copyErr as [e|]; [by eexists (Err _), 10; split_and!|].
  destruct closeErr as [e|]; [by eexists (Err _), 10; split_and!|].
  destruct waitErr as [e|]; [by eexists (Err _), 10; split_and!|].
  rewrite Z.ltb_antisym, <- negb_orb. destruct (_ || _) eqn:E; cbn [negb].
  - rewrite (report_run c) by done. by exists (Ok ()), 100; split_and!.
  - by eexists (Err _), 10; split_and!.
Qed.

(** An upload the permissions allow is recorded truthfully: the handler adds
    one row, keeps the others, and leaves it completed, answering the path
    written, exactly when the remote command took every byte; otherwise the row
    is failed, with the error of the answer. *)
Theorem upload_recorded run c user username hostID path systemUserID filename size db host su userID :
  is_empty hostID = false → is_empty systemUserID = false → fresh c db →
  resolveAuthorizedTarget user hostID systemUserID (started c) db [] = (Ok (host, su, userID), db, []) →
  let dir := if is_empty path then txt "/tmp" else path in
  let full := joinRemotePath (normalizeRemotePath dir) (Base filename) in
  let row := new_transfer (transferID c) (newSession c) userID (or_unknown username) host
               (txt "upload") filename full filename size (txt "uploading") (started c) in
  let sent := run host su (buildUploadFileCommand full) in
  ∃ outcome p,
    UploadFile run c user username hostID path systemUserID (Some (filename, size)) db [] =
      (match outcome with
       | Ok _ => Ok full
       | Err e => Err (500, txt "Failed to upload file: " ++ e)
       end, with_row db (ended c row outcome p), []) ∧
    0 <= p <= 100 ∧ (if outcome then delivered sent size = true else delivered sent size = false).
Proof.
  intros Hh Hs Hf Hr dir full row sent. unfold UploadFile. rewrite Hh, Hs. cbn [orb].
  rewrite bind_run. unfold or_fail. rewrite Hr. cbn [map_err]. cbv beta iota zeta.
  fold dir. fold full.
  rewrite bind_run. unfold attempt at 1. fold row. fold sent.
  rewrite (create_transfer_run c) by done.
  rewrite bind_run, caught_run.
  destruct (uploadFile_run c db row sent size Hf eq_refl eq_refl) as (r & p & -> & Hp & Hpost).
  exists r, p. split; [|by destruct r]. destruct r as [[]|e].
  - rewrite bind_run, (mark_completed_run c) by done. done.
  - rewrite bind_run, (mark_failed_run c) by done. done.
Qed.

Definition after_sent (a b : option text) : option text :=
  match a, b with
  | Some a, Some b => Some (a ++ b)
  | Some a, None => Some a
  | None, b => b
  end.

Lemma written_after a b c : after_sent (written a b) c = after_sent a (after_sent (Some b) c).
Proof. destruct a, c; simpl; by rewrite ?app_nil_r, ?app_assoc. Qed.
Lemma after_None a : after_sent a None = a.
Proof. by destruct a. Qed.
Lemma after_Some a b : after_sent a (Some b) = written a b.
Proof. by destruct a. Qed.

(** What the client gets and how it ends, the reports left out. *)
Fixpoint streamed (reads : list read) : option text * stream_end :=
  match reads with
  | [] => (None, Waiting)
  | r :: reads =>
      let one := if is_empty (chunk r) then None else Some (chunk r) in
      match (if is_empty (chunk r) then None else write_err r), read_err r with
      | Some e, _ => (Some [], Broken (txt "failed to stream download data: " ++ e))
      | None, Some None => (one, Eof)
      | None, Some (Some e) => (one, Broken (txt "failed to stream download data: " ++ e))
      | None, None => let '(sent, how) := streamed reads in (after_sent one sent, how)
      end
  end.

Definition downloaded (run : download_run) : option text * stream_end :=
  match run with
  | NotOpened e => (None, Broken e)
  | Streaming reads waitErr stderr =>
      match streamed reads, waitErr with
      | (sent, Eof), Some e =>
          (sent, Broken (with_stderr (txt "remote download command failed: ") e stderr))
      | s, _ => s
      end
  end.

Lemma stream_loop_run {E} c db row size reads : fresh c db → FileTransfer.ID row = transferID c →
  ∀ sent p, 0 <= p <= 100 → ∀ lastProgress, ∃ last q, 0 <= q <= 100 ∧
    stream_loop (E := E) (transferID c) size reads sent lastProgress
      (with_row db (FileTransfer.set_progress row p)) [] =
    (Ok (after_sent sent (streamed reads).1, last, (streamed reads).2),
     with_row db (FileTransfer.set_progress row q), []).
Proof.
  intros Hf Hr. induction reads as [|[ch we re] reads IH]; intros sent p Hp l.
  { exists l, p. simpl. by rewrite after_None. }
  cbn [stream_loop streamed chunk write_err read_err].
  destruct (is_empty ch) eqn:Ec.
  { destruct re as [[e|]|]; [exists l, p; cbn [fst snd]; by rewrite after_None..|].
    destruct (IH sent p Hp l) as (l' & q & Hq & ->). exists l', q. by destruct (streamed reads). }
  destruct we as [e|]; [exists l, p; cbn [fst snd]; by rewrite after_Some|].
  set (pr := calculateTransferProgress _ _).
  assert (0 <= pr <= 100) as Hpr by apply progress_bounds.
  destruct (l <? pr).
  - rewrite bind_run, (report_run c) by done.
    destruct re as [[e|]|]; [exists pr, pr; cbn [fst snd]; by rewrite after_Some..|].
    destruct (IH (written sent ch) pr Hpr pr) as (l' & q & Hq & Hrun). exists l', q. split; [done|].
    change (FileTransfer.set_progress (FileTransfer.set_progress row p) pr)
      with (FileTransfer.set_progress row pr).
    rewrite Hrun. destruct (streamed reads) as [s h]. cbn [fst snd]. by rewrite written_after.
  - destruct re as [[e|]|]; [exists l, p; cbn [fst snd]; by rewrite after_Some..|].
    destruct (IH (written sent ch) p Hp l) as (l' & q & Hq & ->). exists l', q. split; [done|].
    destruct (streamed reads) as [s h]. cbn [fst snd]. by rewrite written_after.
Qed.

Lemma streamDownloadFile_run {E} c db row run size : fresh c db → FileTransfer.ID row = transferID c →
  FileTransfer.Progress row = 0 →
  leaves c db row (streamDownloadFile (E := E) run size (transferID c)) (λ r, r = Ok (downloaded run)).
Proof.
  intros Hf Hr H0. unfold leaves, streamDownloadFile, downloaded.
  destruct run as [e|reads waitErr stderr].
  { exists (Ok (None, Broken e)), 0. rewrite <- H0 at 1. rewrite set_progress_same. by split_and!. }
  rewrite bind_run. rewrite <- (set_progress_same row), H0.
  destruct (stream_loop_run (E := E) c db row size reads Hf Hr None 0 ltac:(lia) (-1)) as (l & q & Hq & ->).
  cbn [after_sent]. destruct (streamed reads) as [sent [|e|]]; cbn [fst snd].
  - destruct waitErr as [e|]; [by eexists _, q; do 2 (split; [done|])|]. destruct (l <? 100).
    + rewrite bind_run, (report_run c) by done. by eexists _, 100; split_and!.
    + by eexists _, q; do 2 (split; [done|]).
  - by eexists _, q; do 2 (split; [done|]).
  - by eexists _, q; do 2 (split; [done|]).
Qed.

(** A download the permissions allow sends the remote bytes in order and is
    recorded as it went: the row is completed when the stream reached its end
    and the remote command succeeded, failed with the error otherwise, and the
    client gets an error answer only when nothing was written before. *)
Theorem download_recorded stat run c user username hostID path systemUserID size db host su userID :
  is_empty hostID || is_empty systemUserID || is_empty path = false → fresh c db →
  resolveAuthorizedTarget user hostID systemUserID (started c) db [] = (Ok (host, su, userID), db, []) →
  let clean := normalizeRemotePath path in
  getRemoteFileSize (stat host su (buildRemoteFileSizeCommand clean)) = Ok size →
  let name := download_name clean in
  let row := new_transfer (transferID c) (newSession c) userID (or_unknown username) host
               (txt "download") name clean name size (txt "downloading") (started c) in
  let '(sent, how) := downloaded (run host su (buildDownloadFileCommand clean)) in
  ∃ p, 0 <= p <= 100 ∧
    DownloadFile stat run c user username hostID path systemUserID db [] =
      match how with
      | Eof => (Ok (sent, Eof), with_row db (ended c row (Ok ()) p), [])
      | Broken e =>
          (if decide (sent = None) then Err (500, txt "Failed to download file: " ++ e) else Ok (sent, Broken e),
           with_row db (ended c row (Err e) p), [])
      | Waiting => (Ok (sent, Waiting), with_row db (FileTransfer.set_progress row p), [])
      end.
Proof.
  intros Hn Hf Hr clean Hsz name row.
  destruct (downloaded _) as [sent how] eqn:Ed. unfold DownloadFile. rewrite Hn.
  rewrite bind_run. unfold or_fail. rewrite Hr. cbn [map_err]. cbv beta iota zeta.
  fold clean. rewrite Hsz. cbv beta iota zeta. fold name. fold row.
  rewrite bind_run. unfold attempt at 1. rewrite (create_transfer_run c) by done.
  rewrite bind_run.
  destruct (streamDownloadFile_run (E := Z * text) c db row
    (run host su (buildDownloadFileCommand clean)) size Hf eq_refl eq_refl) as (r & p & -> & Hp & ->).
  rewrite Ed. cbn [fst snd]. exists p. split; [done|]. destruct how as [|e|]; [| |done].
  - by rewrite bind_run, (mark_completed_run c) by done.
  - rewrite bind_run, (mark_failed_run c) by done. by destruct (decide (sent = None)).
Qed.
End handlers.

(** ** Witnesses *)

Lemma remote_paths_canonical_witness :
  let full := joinRemotePath (normalizeRemotePath (txt "srv//./logs/../data/")) (Base (txt "a/b c.txt")) in
  full = txt "/srv/data/b c.txt" ∧ normalizeRemotePath full = full.
Proof.
  destruct (remote_paths_canonical (txt "srv//./logs/../data/") (txt "a/b c.txt")) as (_ & _ & H & _).
  - vm_compute. split_and!; [discriminate..|]. by intros H%list_elem_of_In; repeat destruct H as [H|H].
  - split; [vm_compute; reflexivity|exact H].
Defined.

Definition two_entries : list Entry.t :=
  [{| Entry.name := txt "a b"; Entry.kind := txt "f"; Entry.size := txt "12"; Entry.perms := txt "644";
      Entry.time := txt "2024-01-01 10:00:00" |};
   {| Entry.name := txt "d" ++ [10] ++ txt "x"; Entry.kind := txt "d"; Entry.size := txt "4096";
      Entry.perms := txt "755"; Entry.time := txt "2024-01-02 10:00:00" |}].

Lemma listing_roundtrip_witness :
  parseRemoteFileList (printed two_entries) (txt "/srv") = Ok (info_of (txt "/srv") <$> two_entries) ∧
  RemoteFileInfo.IsDir <$> (info_of (txt "/srv") <$> two_entries) = [false; true].
Proof.
  split; [|vm_compute; reflexivity]. apply (listing_roundtrip (txt "/srv") two_entries).
  repeat (apply Forall_cons; split); try apply Forall_nil; try exact I;
    intros H%list_elem_of_In; vm_compute in H; repeat destruct H as [H|H]; discriminate || done.
Defined.

Definition at_50 : Context_ :=
  {| transferID := txt "t1"; newSession := txt "s1"; started := 50; completed := 3000000050 |}.

Definition files_db : Db := set_hosts (sample_db active active) [one_host].

(** A stranger is refused with 403, and the table is untouched. *)
Lemma no_rule_no_files_witness :
  ∃ e f', ∀ run,
    UploadFile no_json plain_err run at_50 (Some (txt "u2")) [] (txt "h1") (txt "/tmp") (txt "su1")
      (Some (txt "f", 3)) files_db [] = (Err e, files_db, f').
Proof.
  apply (no_rule_no_files no_json plain_err (Some (txt "u2")) [] (txt "h1") (txt "su1") (txt "/tmp")
    (Some (txt "f", 3)) at_50 files_db []).
  intros uid Hu. injection Hu as <-. vm_compute. reflexivity.
Defined.

Lemma fresh_files : fresh at_50 files_db.
Proof. apply not_elem_of_nil. Defined.

(** Three bytes of three: completed after three seconds.  Two of three: failed. *)
Definition took (written : Z) (_ : Host.t) (_ : SystemUser.t) (_ : text) : upload_run :=
  Ran written None None None [].

Lemma upload_recorded_witness :
  (let x := UploadFile no_json plain_err (took 3) at_50 (Some (txt "u1")) [] (txt "h1") (txt "/srv/")
              (txt "su1") (Some (txt "f", 3)) files_db [] in
   x.1.1 = Ok (txt "/srv/f") ∧
   (λ t, (FileTransfer.Status t, FileTransfer.Duration t)) <$> transfers x.1.2 = [(txt "completed", 3)]) ∧
  ∃ outcome p,
    UploadFile no_json plain_err (took 2) at_50 (Some (txt "u1")) [] (txt "h1") (txt "/srv/")
      (txt "su1") (Some (txt "f", 3)) files_db [] =
      (match outcome with
       | Ok _ => Ok (txt "/srv/f")
       | Err e => Err (500, txt "Failed to upload file: " ++ e)
       end, with_row files_db (ended at_50 (new_transfer (txt "t1") (txt "s1") (txt "u1") (txt "unknown")
              one_host (txt "upload") (txt "f") (txt "/srv/f") (txt "f") 3 (txt "uploading") 50)
              outcome p), []) ∧
    0 <= p <= 100 ∧ if outcome then false = true else false = false.
Proof.
  split; [vm_compute; by split|].
  apply (upload_recorded no_json plain_err (took 2) at_50 (Some (txt "u1")) [] (txt "h1") (txt "/srv/")
    (txt "su1") (txt "f") 3 files_db one_host (sample_su active) (txt "u1")).
  - reflexivity.
  - reflexivity.
  - exact fresh_files.
  - vm_compute. reflexivity.
Defined.

(** Two chunks, the end of the file with the second. *)
Definition two_chunks (_ : Host.t) (_ : SystemUser.t) (_ : text) : download_run :=
  Streaming [{| chunk := txt "ab"; write_err := None; read_err := None |};
             {| chunk := txt "c"; write_err := None; read_err := Some None |}] None [].

Lemma download_recorded_witness :
  ∃ p, 0 <= p <= 100 ∧
    DownloadFile no_json plain_err (λ _ _ _, Ok (txt "3")) two_chunks at_50 (Some (txt "u1")) (txt "bob")
      (txt "h1") (txt "/srv/f") (txt "su1") files_db [] =
    (Ok (Some (txt "abc"), Eof),
     with_row files_db (ended at_50 (new_transfer (txt "t1") (txt "s1") (txt "u1") (txt "bob")
       one_host (txt "download") (txt "f") (txt "/srv/f") (txt "f") 3 (txt "downloading") 50) (Ok ()) p), []).
Proof.
  apply (download_recorded no_json plain_err (λ _ _ _, Ok (txt "3")) two_chunks at_50 (Some (txt "u1"))
    (txt "bob") (txt "h1") (txt "/srv/f") (txt "su1") 3 files_db one_host (sample_su active) (txt "u1")).
  - reflexivity.
  - exact fresh_files.
  - vm_compute. reflexivity.
  - vm_compute. reflexivity.
Defined.
