(* ===== verification/GoChan.v ===== *)
(** * Buffered channels

    A Go channel with a buffer, as the recorder and the storage use theirs:
    [select] with a [default] sends or gives up, one worker ranges over it, and
    it is closed once.  Sending on a closed channel and closing it again panic. *)

From stdpp Require Import base list relations.
From S2P Require Import Prelude.

Section chan.
Context {A : Type}.

Record chan := Chan { buf : list A; shut : bool }.
Definition make_chan : chan := Chan [] false.

(** [select { case c <- x: .. default: .. }] on a buffer of [cap]. *)
Inductive sending := Sent (c : chan) | Full | SendPanics.
Definition try_send (cap : nat) (x : A) (c : chan) : sending :=
  if shut c then SendPanics
  else if decide (length (buf c) < cap) then Sent (Chan (buf c ++ [x]) false)
  else Full.

(** The next value of [range c]. *)
Definition recv (c : chan) : option (A * chan) :=
  match buf c with
  | [] => None
  | x :: b => Some (x, Chan b (shut c))
  end.

(** [close(c)]; [None] is its panic. *)
Definition close_chan (c : chan) : option chan :=
  if shut c then None else Some (Chan (buf c) true).

(** ** A channel and its worker

    [done] is what the worker has taken, in order; [log] every value ever sent,
    kept by no code. *)
Record worked := Worked { ch : chan; done_ : list A; log : list A }.
Definition new_worked : worked := Worked make_chan [] [].

Inductive chan_step (cap : nat) : worked → worked → Prop :=
  | step_sent w x c : try_send cap x (ch w) = Sent c →
      chan_step cap w (Worked c (done_ w) (log w ++ [x]))
  | step_taken w x c : recv (ch w) = Some (x, c) →
      chan_step cap w (Worked c (done_ w ++ [x]) (log w))
  | step_shut w c : close_chan (ch w) = Some c →
      chan_step cap w (Worked c (done_ w) (log w)).

(** Nothing is lost, repeated or reordered on the way. *)
Definition channel_ok (cap : nat) (w : worked) : Prop :=
  done_ w ++ buf (ch w) = log w ∧ length (buf (ch w)) ≤ cap.

Lemma channel_step_ok cap w w' : channel_ok cap w → chan_step cap w w' → channel_ok cap w'.
Proof.
  intros [Hl Hc] H. inversion H as [? x c Hs|? x c Hr|? c Hs]; subst; simpl; clear H.
  - unfold try_send in Hs. destruct (shut (ch w)); [done|]. case_decide; [|done]. simplify_eq/=.
    split; simpl; [by rewrite <- Hl, app_assoc|]. rewrite length_app. simpl. lia.
  - unfold recv in Hr. destruct (ch w) as [[|y b] s]; simplify_eq/=.
    split; simpl; [by rewrite <- app_assoc|lia].
  - unfold close_chan in Hs. destruct (shut (ch w)); simplify_eq/=. done.
Qed.

Lemma channel_ok_new cap : channel_ok cap new_worked.
Proof. split; [done|]. simpl. lia. Qed.

(** What the worker has done is a prefix of what was sent. *)
Lemma done_prefix cap w : channel_ok cap w → done_ w `prefix_of` log w.
Proof. intros [<- _]. by apply prefix_app_r. Qed.

(** Left alone the worker empties the buffer, whether or not it is closed. *)
Lemma worker_drains cap w : ∃ w', rtc (chan_step cap) w w' ∧ buf (ch w') = [] ∧
  done_ w' = done_ w ++ buf (ch w) ∧ log w' = log w ∧ shut (ch w') = shut (ch w).
Proof.
  destruct w as [[b s] d l]. simpl. revert d.
  induction b as [|x b IH]; intros d.
  { exists (Worked (Chan [] s) d l). rewrite app_nil_r. by split_and!. }
  destruct (IH (d ++ [x])) as (w' & Hr & Hb & Hd & Hl & Hs).
  exists w'. split_and!; [|done| |done|done].
  - eapply rtc_l; [|exact Hr]. exact (step_taken cap (Worked (Chan (x :: b) s) d l) x (Chan b s) eq_refl).
  - by rewrite Hd, <- app_assoc.
Qed.

Lemma drained cap w : channel_ok cap w → buf (ch w) = [] → done_ w = log w.
Proof. intros [<- _] ->. by rewrite app_nil_r. Qed.

(** Values sent and taken one by one, and values only sent. *)
Lemma send_and_take cap d l : 0 < cap →
  rtc (chan_step cap) (Worked make_chan d d) (Worked make_chan (d ++ l) (d ++ l)).
Proof.
  intros Hc. revert d. induction l as [|x l IH]; intros d; [by rewrite app_nil_r|].
  eapply rtc_l; [apply (step_sent cap _ x (Chan [x] false))|].
  { unfold try_send. simpl. by case_decide. }
  eapply rtc_l; [by apply (step_taken cap _ x make_chan)|]. simpl.
  rewrite (cons_middle x d l), (app_assoc d [x] l). apply IH.
Qed.

Lemma send_only cap b d lg l : length b + length l ≤ cap →
  rtc (chan_step cap) (Worked (Chan b false) d lg) (Worked (Chan (b ++ l) false) d (lg ++ l)).
Proof.
  revert b lg. induction l as [|x l IH]; intros b lg Hc; [by rewrite !app_nil_r|]. simpl in Hc.
  eapply rtc_l; [apply (step_sent cap _ x (Chan (b ++ [x]) false))|].
  { unfold try_send. simpl. case_decide; [done|lia]. }
  simpl. rewrite (cons_middle x b l), (app_assoc b [x] l), (cons_middle x lg l), (app_assoc lg [x] l).
  apply IH. rewrite length_app. simpl. lia.
Qed.
End chan.
Arguments chan A : clear implicits.
Arguments sending A : clear implicits.
Arguments worked A : clear implicits.
