(* ===== verification/Recorder.v ===== *)
(** * Recording of sessions

    [internal/bastion/recorder]: a recorder buffers the events of a terminal on
    a channel, a goroutine appends them to a list, and the list is exported in
    the asciinema format, as lines of JSON.  [internal/sshserver/recorder] keeps
    one recorder per session.  Times are nanoseconds; a [float64] of seconds is
    written by [encoding/json], a parameter ([json_seconds]).  As everywhere, a
    rune [rune_error] of a text stands for a byte that is not UTF-8. *)

From stdpp Require Import base list strings relations pretty gmap.
From Stdlib Require Import ZArith Lia.
From S2P Require Import Prelude GoStrings GoChan.
Local Open Scope Z_scope.

Inductive EventType := Output | Input.
#[global] Instance EventType_eq_dec : EqDecision EventType.
Proof. solve_decision. Defined.

Module Event.
Record t := { Time : Z; Type_ : EventType; Data : text }.
End Event.

Definition type_text (ty : EventType) : text :=
  match ty with Output => txt "o" | Input => txt "i" end.

(** [pipe] is the channel, with what was sent on it and received from it; [hand]
    the event [processEvents] has received and not yet appended to [events]. *)
Module Recorder.
Record t := {
  sessionID : text; startTime : Z; pipe : worked Event.t; hand : option Event.t;
  events : list Event.t; closed : bool; width : Z; height : Z
}.
Definition set_pipe (r : t) (p : worked Event.t) : t :=
  {| sessionID := sessionID r; startTime := startTime r; pipe := p; hand := hand r; events := events r;
     closed := closed r; width := width r; height := height r |}.
Definition set_events (r : t) (h : option Event.t) (es : list Event.t) : t :=
  {| sessionID := sessionID r; startTime := startTime r; pipe := pipe r; hand := h; events := es;
     closed := closed r; width := width r; height := height r |}.
Definition set_closed (r : t) : t :=
  {| sessionID := sessionID r; startTime := startTime r; pipe := pipe r; hand := hand r;
     events := events r; closed := true; width := width r; height := height r |}.
End Recorder.
Import Recorder.

Definition capacity : nat := 1000.

Definition NewRecorder (sessionID : text) (width height now : Z) : Recorder.t :=
  {| Recorder.sessionID := sessionID; startTime := now; pipe := new_worked; hand := None; events := [];
     closed := false;
     Recorder.width := width; Recorder.height := height |}.

(** ** The operations, each at once *)

(** The [select] of [RecordOutput] and [RecordInput]; [None] is a panic. *)
Definition offer (r : Recorder.t) (e : Event.t) : option Recorder.t :=
  match try_send capacity e (ch (pipe r)) with
  | Sent c => Some (set_pipe r (Worked c (done_ (pipe r)) (log (pipe r) ++ [e])))
  | Full => Some r
  | SendPanics => None
  end.

Definition record_event (ty : EventType) (r : Recorder.t) (data : text) (now : Z) : option Recorder.t :=
  if closed r then Some r
  else offer r {| Event.Time := now - startTime r; Event.Type_ := ty; Event.Data := data |}.
Definition RecordOutput : Recorder.t → text → Z → option Recorder.t := record_event Output.
Definition RecordInput : Recorder.t → text → Z → option Recorder.t := record_event Input.

Definition Close (r : Recorder.t) : option Recorder.t :=
  if closed r then Some r
  else match close_chan (ch (pipe r)) with
       | Some c => Some (set_pipe (set_closed r) (Worked c (done_ (pipe r)) (log (pipe r))))
       | None => None
       end.

(** The next step of [processEvents]: it receives an event, or appends the one it
    has received, under the mutex. *)
Definition processEvents (r : Recorder.t) : option Recorder.t :=
  match hand r with
  | Some event => Some (set_events r None (events r ++ [event]))
  | None =>
      match recv (ch (pipe r)) with
      | Some (event, c) =>
          Some (set_events (set_pipe r (Worked c (done_ (pipe r) ++ [event]) (log (pipe r))))
                  (Some event) (events r))
      | None => None
      end
  end.

Definition GetEventCount (r : Recorder.t) : Z := Z.of_nat (length (events r)).

(** ** The export *)

Notation quote := (34 : rune).
Notation backslash := (92 : rune).

Definition hex_char (d : Z) : rune := if d <? 10 then 48 + d else 87 + d.
Definition u_escape (c : rune) : text :=
  [backslash; 117; hex_char (c / 4096); hex_char (c / 256 mod 16); hex_char (c / 16 mod 16);
   hex_char (c mod 16)].

(** A rune in a JSON string, as [json.Marshal] writes it: it escapes what HTML
    and JavaScript would read, and the bytes that are not UTF-8. *)
Definition json_rune (c : rune) : text :=
  if (c =? quote) || (c =? backslash) then [backslash; c]
  else if c =? 8 then [backslash; 98]
  else if c =? 12 then [backslash; 102]
  else if c =? 10 then [backslash; 110]
  else if c =? 13 then [backslash; 114]
  else if c =? 9 then [backslash; 116]
  else if (c <? 32) || (c =? 60) || (c =? 62) || (c =? 38) || (c =? 8232) || (c =? 8233) ||
          (c =? rune_error) then u_escape c
  else [c].

Definition json_string (s : text) : text := [quote] ++ mjoin (json_rune <$> s) ++ [quote].

Section export.
Context (json_seconds : Z → text).

Definition header_line (r : Recorder.t) : text :=
  quoted "{^version^:2,^width^:" ++ txt (pretty (width r)) ++ quoted ",^height^:" ++
  txt (pretty (height r)) ++ quoted ",^timestamp^:" ++
  txt (pretty (startTime r / 1000000000)) ++ quoted ",^env^:{^TERM^:^xterm-256color^}}".

Definition event_line (e : Event.t) : text :=
  [91] ++ json_seconds (Event.Time e) ++ [44] ++ json_string (type_text (Event.Type_ e)) ++ [44] ++
  json_string (Event.Data e) ++ [93].

Definition ToAsciinema (r : Recorder.t) : text :=
  header_line r ++ [10] ++ mjoin ((λ e, event_line e ++ [10]) <$> events r).

(** ** One recorder per session *)

Definition Recorders : Type := gmap text Recorder.t.

Definition RecordStart (rs : Recorders) (sessionID : text) (cols rows now : Z) : Recorders :=
  <[sessionID := NewRecorder sessionID cols rows now]> rs.

(** [RecordData]; [None] is a panic. *)
Definition RecordData (rs : Recorders) (sessionID direction : text) (data : bytes) (now : Z)
    : option Recorders :=
  match rs !! sessionID with
  | None => Some rs
  | Some rec =>
      let put r := match r with Some rec => Some (<[sessionID := rec]> rs) | None => None end in
      if text_eqb direction (txt "in") then put (RecordInput rec (utf8_decode data) now)
      else if text_eqb direction (txt "out") then put (RecordOutput rec (utf8_decode data) now)
      else Some rs
  end.

Definition RecordError (rs : Recorders) (sessionID errMsg : text) (now : Z) : option Recorders :=
  RecordData rs sessionID (txt "out")
    (utf8_encode ([13; 10] ++ txt "[ERROR] " ++ errMsg ++ [13; 10])) now.

(** [RecordEnd]; [CloseSession] is the storage.  The second part is what it was
    given. *)
Definition RecordEnd (CloseSession : text → text → result text unit) (rs : Recorders)
    (sessionID : text) : option (Recorders * option text) :=
  match rs !! sessionID with
  | None => Some (rs, None)
  | Some rec =>
      match Close rec with
      | None => None
      | Some rec =>
          let asciinemaData := ToAsciinema rec in
          match CloseSession sessionID asciinemaData with
          | Err _ => Some (<[sessionID := rec]> rs, Some asciinemaData)
          | Ok _ => Some (delete sessionID rs, Some asciinemaData)
          end
      end
  end.

(** [RecorderAdapter], for a single recorder. *)
Definition adapter_RecordData (r : Recorder.t) (direction : text) (data : bytes) (now : Z)
    : option Recorder.t :=
  if text_eqb direction (txt "out") then RecordOutput r (utf8_decode data) now
  else if text_eqb direction (txt "in") then RecordInput r (utf8_decode data) now
  else Some r.
Definition adapter_RecordError (r : Recorder.t) (errorMsg : text) (now : Z) : option Recorder.t :=
  RecordOutput r ([13; 10] ++ txt "Error: " ++ errorMsg ++ [13; 10]) now.

(** ** A reader of the export *)

Definition hex_value (c : rune) : option Z :=
  if (48 <=? c) && (c <=? 57) then Some (c - 48)
  else if (97 <=? c) && (c <=? 102) then Some (c - 87)
  else None.

(** The rest of a JSON string, up to its closing quote, and what follows it. *)
Fixpoint read_string (s : text) : option (text * text) :=
  let more c r := match r with Some (t, rest) => Some (c :: t, rest) | None => None end in
  match s with
  | [] => None
  | c :: s =>
      if c =? quote then Some ([], s)
      else if c =? backslash then
        match s with
        | 117 :: a :: b :: c :: d :: s =>
            match hex_value a, hex_value b, hex_value c, hex_value d with
            | Some a, Some b, Some c, Some d => more (a * 4096 + b * 256 + c * 16 + d) (read_string s)
            | _, _, _, _ => None
            end
        | 98 :: s => more 8 (read_string s)
        | 102 :: s => more 12 (read_string s)
        | 110 :: s => more 10 (read_string s)
        | 114 :: s => more 13 (read_string s)
        | 116 :: s => more 9 (read_string s)
        | c :: s => more c (read_string s)
        | [] => None
        end
      else more c (read_string s)
  end.

(** A line of an event: the number as written, the type and the data. *)
Definition read_event (s : text) : option (text * text * text) :=
  match s with
  | 91 :: s =>
      let '(number, s) := (take_while (λ c, negb (c =? 44)) s, drop_while (λ c, negb (c =? 44)) s) in
      match s with
      | 44 :: 34 :: s =>
          match read_string s with
          | Some (ty, 44 :: 34 :: s) =>
              match read_string s with
              | Some (data, [93]) => Some (number, ty, data)
              | _ => None
              end
          | _ => None
          end
      | _ => None
      end
  | _ => None
  end.

Definition read_asciinema (s : text) : option (text * list (text * text * text)) :=
  match split_on 10 s with
  | header :: lines =>
      match List.last lines [0] with
      | [] => match mapM read_event (removelast lines) with
              | Some es => Some (header, es)
              | None => None
              end
      | _ => None
      end
  | [] => None
  end.
End export.

(** ** The export reads back *)

Lemma hex_value_char d : 0 <= d < 16 → hex_value (hex_char d) = Some d.
Proof.
  intros Hd. unfold hex_char, hex_value. destruct (Z.ltb_spec d 10).
  - rewrite (proj2 (Z.leb_le 48 _)), (proj2 (Z.leb_le _ 57)) by lia. cbn [andb]. f_equal. lia.
  - rewrite (proj2 (Z.leb_gt _ 57)), andb_false_r by lia.
    rewrite (proj2 (Z.leb_le 97 _)), (proj2 (Z.leb_le _ 102)) by lia. cbn [andb]. f_equal. lia.
Qed.

Definition put_back (c : rune) (r : option (text * text)) : option (text * text) :=
  match r with Some (t, rest) => Some (c :: t, rest) | None => None end.

Lemma read_escape c s : 0 <= c < 65536 →
  read_string (u_escape c ++ s) = put_back c (read_string s).
Proof.
  intros Hc. unfold u_escape. cbn [app read_string].
  change (backslash =? quote) with false. change (backslash =? backslash) with true. cbv iota.
  pose proof (Z.mod_pos_bound (c / 256) 16). pose proof (Z.mod_pos_bound (c / 16) 16).
  pose proof (Z.mod_pos_bound c 16).
  assert (0 <= c / 4096 < 16) by (split; [apply Z.div_pos; lia|apply Z.div_lt_upper_bound; lia]).
  rewrite !hex_value_char by lia.
  replace (c / 4096 * 4096 + c / 256 mod 16 * 256 + c / 16 mod 16 * 16 + c mod 16) with c; [done|].
  pose proof (Z.div_mod c 16 ltac:(lia)). pose proof (Z.div_mod (c / 16) 16 ltac:(lia)) as H16.
  pose proof (Z.div_mod (c / 256) 16 ltac:(lia)) as H256.
  rewrite (Z.div_div c 16 16) in H16 by lia. rewrite (Z.div_div c 256 16) in H256 by lia.
  change (16 * 16) with 256 in H16. change (256 * 16) with 4096 in H256. lia.
Qed.

Lemma read_rune c s : 0 <= c → read_string (json_rune c ++ s) = put_back c (read_string s).
Proof.
  intros Hc. unfold json_rune.
  destruct (Z.eqb_spec c quote) as [->|Hq]; [done|].
  destruct (Z.eqb_spec c backslash) as [->|Hb]; [done|]. cbn [orb].
  destruct (Z.eqb_spec c 8) as [->|?]; [done|]. destruct (Z.eqb_spec c 12) as [->|?]; [done|].
  destruct (Z.eqb_spec c 10) as [->|?]; [done|]. destruct (Z.eqb_spec c 13) as [->|?]; [done|].
  destruct (Z.eqb_spec c 9) as [->|?]; [done|].
  destruct (_ || _) eqn:E.
  - apply read_escape. prop_bools. unfold rune_error in *. lia.
  - cbn [app read_string]. rewrite (proj2 (Z.eqb_neq c quote)), (proj2 (Z.eqb_neq c backslash)) by done.
    done.
Qed.

Definition runes (s : text) : Prop := Forall (λ c, 0 <= c) s.

Lemma read_json_string s rest : runes s →
  read_string (mjoin (json_rune <$> s) ++ quote :: rest) = Some (s, rest).
Proof.
  induction 1 as [|c s Hc _ IH]; [done|].
  change (mjoin (json_rune <$> c :: s)) with (json_rune c ++ mjoin (json_rune <$> s)).
  rewrite <- app_assoc, read_rune, IH by done. done.
Qed.

Lemma json_rune_one_line c : 0 <= c → 10 ∉ json_rune c.
Proof.
  intros Hc. unfold json_rune.
  assert (∀ d, 0 <= d → 10 ≠ hex_char d) as Hh by (intros d Hd; unfold hex_char; case_match; lia).
  assert (∀ d, 0 <= d → 10 ≠ hex_char (d mod 16)) as Hm
    by (intros d Hd; apply Hh; apply Z.mod_pos_bound; lia).
  repeat case_match; prop_bools; unfold u_escape;
    rewrite ?not_elem_of_cons; split_and?; try (apply not_elem_of_nil); try lia;
    try (apply Hm; (lia || apply Z.div_pos; lia)); try (apply Hh, Z.div_pos; lia).
Qed.

Lemma json_string_one_line s : runes s → 10 ∉ json_string s.
Proof.
  intros Hs. unfold json_string. rewrite !not_elem_of_app, !not_elem_of_cons.
  split_and!; try lia; try apply not_elem_of_nil.
  induction Hs as [|c s Hc _ IH]; [apply not_elem_of_nil|].
  change (mjoin (json_rune <$> c :: s)) with (json_rune c ++ mjoin (json_rune <$> s)).
  apply not_elem_of_app. split; [by apply json_rune_one_line|done].
Qed.

Lemma take_drop_until (p : rune → bool) (a : text) c s : Forall (λ x, p x = true) a → p c = false →
  take_while p (a ++ c :: s) = a ∧ drop_while p (a ++ c :: s) = c :: s.
Proof.
  intros Ha Hc. induction Ha as [|x a Hx _ [IH1 IH2]]; simpl; [by rewrite Hc|].
  by rewrite Hx, IH1, IH2.
Qed.

Lemma decode_runes bs : Forall (λ b, 0 <= b) bs → runes (utf8_decode bs).
Proof.
  assert (∀ n bs, (length bs ≤ n)%nat → Forall (λ b, 0 <= b) bs → runes (utf8_decode bs)) as H;
    [|intros Hb; by apply (H (length bs))].
  clear bs. induction n as [|n IH]; intros bs Hl Hb.
  { destruct bs; [constructor|simpl in Hl; lia]. }
  destruct bs as [|b0 t0]; [constructor|]. apply Forall_cons in Hb as [H0 Ht].
  simpl in Hl. assert (runes (rune_error :: utf8_decode t0)) as Hbad
    by (constructor; [unfold rune_error; lia|apply IH; [lia|done]]).
  cbn [utf8_decode]. unfold is_cont, in_range, second_lo, second_hi.
  repeat case_match; subst; prop_bools; try exact Hbad;
    (constructor; [lia|apply IH; [simpl in *; lia|by repeat (apply Forall_cons in Ht as [_ Ht])]]).
Qed.

Lemma header_eq r r' : width r = width r' → height r = height r' → startTime r = startTime r' →
  header_line r = header_line r'.
Proof. unfold header_line. by intros -> -> ->. Qed.

(** The decimals of an integer. *)
Definition decimal (c : Z) : Prop := c = 45 ∨ 48 <= c <= 57.

Lemma pretty_N_go_decimal x s : Forall decimal (bytes_of_string s) →
  Forall decimal (bytes_of_string (pretty_N_go x s)).
Proof.
  revert s. induction (N.lt_wf_0 x) as [x _ IH]; intros s Hs.
  destruct (decide (x = 0%N)) as [->|Hx]; [by rewrite pretty_N_go_0|].
  rewrite pretty_N_go_step by lia. apply IH; [apply N.div_lt; lia|]. cbn [bytes_of_string].
  constructor; [|done]. right. unfold pretty_N_char. repeat case_match; vm_compute; split; discriminate.
Qed.

Lemma number_decimal (z : Z) : Forall decimal (txt (pretty z)).
Proof.
  assert (∀ n : N, Forall decimal (bytes_of_string (pretty n))) as Hn.
  { intros n. unfold pretty, pretty_N. case_decide; [|by apply pretty_N_go_decimal].
    constructor; [right; vm_compute; split; discriminate|constructor]. }
  assert (Forall decimal (bytes_of_string (pretty z))) as Hz.
  { unfold pretty, pretty_Z. destruct z as [|p|p]; [apply (Hn 0%N)|apply (Hn (N.pos p))|].
    constructor; [by left|]. apply (Hn (N.pos p)). }
  unfold txt. rewrite decode_ascii; [done|].
  eapply Forall_impl; [exact Hz|]. unfold decimal. intros c. simpl. lia.
Qed.

Lemma number_one_line (z : Z) : 10 ∉ txt (pretty z).
Proof. intros H. eapply Forall_forall in H; [|apply number_decimal]. unfold decimal in H. lia. Qed.

Lemma header_one_line r : 10 ∉ header_line r.
Proof.
  assert (∀ s : text, existsb (Z.eqb 10) s = false → 10 ∉ s) as Hs.
  { intros s Hs H. apply not_true_iff_false in Hs. apply Hs, existsb_exists.
    exists 10. split; [by apply list_elem_of_In|done]. }
  unfold header_line. rewrite !not_elem_of_app.
  split_and!; try apply number_one_line; apply Hs; reflexivity.
Qed.

Section export_facts.
Context (json_seconds : Z → text).
(** A number of JSON has no comma and no line feed. *)
Hypothesis json_seconds_plain : ∀ t, 44 ∉ json_seconds t ∧ 10 ∉ json_seconds t.

Lemma read_event_line e : runes (Event.Data e) →
  read_event (event_line json_seconds e) =
    Some (json_seconds (Event.Time e), type_text (Event.Type_ e), Event.Data e).
Proof.
  intros Hr. destruct (json_seconds_plain (Event.Time e)) as [Hc _].
  unfold event_line, read_event. cbn [app].
  destruct (take_drop_until (λ c, negb (c =? 44)) (json_seconds (Event.Time e)) 44
    (json_string (type_text (Event.Type_ e)) ++ 44 :: json_string (Event.Data e) ++ [93])) as [-> ->].
  - apply Forall_forall. intros x Hx. apply negb_true_iff, Z.eqb_neq. by intros ->.
  - done.
  - unfold json_string. cbn [app]. rewrite <- !app_assoc. cbn [app].
    rewrite read_json_string by (by destruct (Event.Type_ e); repeat constructor).
    by rewrite read_json_string.
Qed.

Lemma event_line_one_line e : runes (Event.Data e) → 10 ∉ event_line json_seconds e.
Proof.
  intros Hr. destruct (json_seconds_plain (Event.Time e)) as [_ Hn]. unfold event_line.
  rewrite !not_elem_of_app, !not_elem_of_cons. split_and!; try lia; try apply not_elem_of_nil; [done| |].
  - apply json_string_one_line. by destruct (Event.Type_ e); repeat constructor.
  - by apply json_string_one_line.
Qed.


(** What a reader of JSON lines finds in an export. *)
Definition read_as (e : Event.t) : text * text * text :=
  (json_seconds (Event.Time e), type_text (Event.Type_ e), Event.Data e).

Lemma export_reads r : Forall (λ e, runes (Event.Data e)) (events r) →
  read_asciinema (ToAsciinema json_seconds r) =
    Some (header_line r, read_as <$> events r).
Proof using json_seconds_plain.
  intros HF. unfold read_asciinema, ToAsciinema. cbn [app].
  rewrite split_on_app by apply header_one_line.
  replace (mjoin ((λ e, event_line json_seconds e ++ [10]) <$> events r))
    with (mjoin ((λ l, l ++ [10]) <$> (event_line json_seconds <$> events r)))
    by (by rewrite <- list_fmap_compose).
  rewrite split_ended.
  2:{ apply Forall_fmap. eapply Forall_impl; [exact HF|]. intros e. apply event_line_one_line. }
  rewrite last_default_snoc, removelast_last.
  assert (mapM read_event (event_line json_seconds <$> events r) =
    Some (read_as <$> events r)) as ->; [|done].
  induction HF as [|e es He _ IH]; [done|].
  change (event_line json_seconds <$> e :: es)
    with (event_line json_seconds e :: (event_line json_seconds <$> es)).
  cbn [mapM]. by rewrite read_event_line, IH by done.
Qed.

(** *** From the terminal to the export *)

(** What happens to the recorder of one session: a call of the terminal, with
    its time, or a step of its worker. *)
Inductive activity := Call (direction : text) (data : bytes) (now : Z) | WorkerTurn.

Definition act (rs : Recorders) (sid : text) (a : activity) : option Recorders :=
  match a with
  | Call direction data now => RecordData rs sid direction data now
  | WorkerTurn =>
      Some (match rs !! sid with
            | Some r => match processEvents r with Some r => <[sid := r]> rs | None => rs end
            | None => rs
            end)
  end.
Fixpoint act_all (rs : Recorders) (sid : text) (acts : list activity) : option Recorders :=
  match acts with
  | [] => Some rs
  | a :: acts => rs ← act rs sid a; act_all rs sid acts
  end.

(** The buffer has room whenever something happens. *)
Definition room (rs : Recorders) (sid : text) : bool :=
  match rs !! sid with
  | Some r => bool_decide (length (buf (ch (pipe r))) < capacity)%nat
  | None => true
  end.
Fixpoint never_full (rs : Recorders) (sid : text) (acts : list activity) : bool :=
  match acts with
  | [] => true
  | a :: acts => room rs sid && match act rs sid a with Some rs => never_full rs sid acts | None => true end
  end.

(** The events the terminal means to record, in the order of its calls. *)
Definition event_of (start : Z) (a : activity) : option Event.t :=
  match a with
  | Call direction data now =>
      let e ty := {| Event.Time := now - start; Event.Type_ := ty; Event.Data := utf8_decode data |} in
      if text_eqb direction (txt "in") then Some (e Input)
      else if text_eqb direction (txt "out") then Some (e Output)
      else None
  | WorkerTurn => None
  end.

(** A recorder of a session that is going on. *)
Record recording (sid : text) (cols rows start : Z) (r : Recorder.t) : Prop := {
  still_open : closed r = false;
  pipe_open : shut (ch (pipe r)) = false;
  same_start : startTime r = start;
  same_width : width r = cols;
  same_height : height r = rows;
  pipe_ok : channel_ok capacity (pipe r);
  received : done_ (pipe r) = events r ++ option_list (hand r)
}.

Lemma offer_recording sid cols rows start r e : recording sid cols rows start r →
  ∃ r', offer r e = Some r' ∧ recording sid cols rows start r' ∧
    ((log (pipe r') = log (pipe r) ++ [e]) ∨
     (log (pipe r') = log (pipe r) ∧ ¬ (length (buf (ch (pipe r))) < capacity)%nat)).
Proof.
  intros [H1 H2 H3 H4 H5 H6 H7]. unfold offer, try_send. rewrite H2. case_decide as Hc.
  - eexists. split; [reflexivity|]. split; [|by left]. split; try done.
    eapply channel_step_ok; [exact H6|]. apply step_sent. unfold try_send. rewrite H2. by case_decide.
  - exists r. split; [done|]. split; [by split|by right].
Qed.

Lemma process_recording sid cols rows start r r' : recording sid cols rows start r →
  processEvents r = Some r' → recording sid cols rows start r' ∧ log (pipe r') = log (pipe r).
Proof.
  intros [H1 H2 H3 H4 H5 H6 H7] Hp. unfold processEvents in Hp. destruct (hand r) as [e|] eqn:Eh.
  - injection Hp as <-. split; [|done]. split; try done. simpl. by rewrite H7, app_nil_r.
  - destruct (recv (ch (pipe r))) as [[e c]|] eqn:Er; [|done]. injection Hp as <-. split; [|done].
    split; try done; simpl.
    + unfold recv in Er. by destruct (buf _); simplify_eq/=.
    + eapply channel_step_ok; [exact H6|]. by apply step_taken.
    + by rewrite H7, app_nil_r.
Qed.

Lemma act_recording rs sid cols rows start r a :
  rs !! sid = Some r → recording sid cols rows start r →
  ∃ rs' r', act rs sid a = Some rs' ∧ rs' !! sid = Some r' ∧ recording sid cols rows start r' ∧
    ((log (pipe r') = log (pipe r) ++ option_list (event_of start a)) ∨
     (log (pipe r') = log (pipe r) ∧ room rs sid = false)).
Proof.
  intros Hrs Hr. destruct a as [dir data now|]; simpl.
  - unfold RecordData. rewrite Hrs. unfold RecordInput, RecordOutput, record_event.
    rewrite (still_open _ _ _ _ _ Hr), (same_start _ _ _ _ _ Hr).
    assert (∀ e, ∃ rs' r', match offer r e with Some rec => Some (<[sid := rec]> rs) | None => None end
        = Some rs' ∧ rs' !! sid = Some r' ∧ recording sid cols rows start r' ∧
        ((log (pipe r') = log (pipe r) ++ [e]) ∨ (log (pipe r') = log (pipe r) ∧ room rs sid = false))) as Ho.
    { intros e. destruct (offer_recording _ _ _ _ r e Hr) as (r' & -> & Hr' & Hl).
      exists (<[sid := r']> rs), r'. split; [done|]. split; [apply lookup_insert_eq|]. split; [done|].
      destruct Hl as [Hl|[Hl Hf]]; [by left|right]. split; [done|]. unfold room. rewrite Hrs.
      by apply bool_decide_false. }
    destruct (text_eqb dir (txt "in")); [apply Ho|]. destruct (text_eqb dir (txt "out")); [apply Ho|].
    exists rs, r. split_and!; [done..|left; by rewrite app_nil_r].
  - rewrite Hrs. destruct (processEvents r) as [r'|] eqn:Ep.
    + apply process_recording with (1 := Hr) in Ep as [Hr' Hl].
      exists (<[sid := r']> rs), r'. split_and!; [done|apply lookup_insert_eq|done|].
      left. by rewrite Hl, app_nil_r.
    + exists rs, r. split_and!; [done..|left; by rewrite app_nil_r].
Qed.

Lemma act_all_recording rs sid cols rows start r acts :
  rs !! sid = Some r → recording sid cols rows start r →
  ∃ rs' r' more, act_all rs sid acts = Some rs' ∧ rs' !! sid = Some r' ∧
    recording sid cols rows start r' ∧ log (pipe r') = log (pipe r) ++ more ∧
    more `sublist_of` omap (event_of start) acts ∧
    (never_full rs sid acts = true → more = omap (event_of start) acts).
Proof.
  revert rs r. induction acts as [|a acts IH]; intros rs r Hrs Hr.
  { exists rs, r, []. rewrite app_nil_r. by split_and!. }
  destruct (act_recording _ _ _ _ _ _ a Hrs Hr) as (rs1 & r1 & Ha & Hrs1 & Hr1 & Hl1).
  destruct (IH rs1 r1 Hrs1 Hr1) as (rs' & r' & more & Hall & Hrs' & Hr' & Hl & Hsub & Hfull).
  cbn [act_all never_full]. rewrite Ha.
  assert (omap (event_of start) (a :: acts) = option_list (event_of start a) ++ omap (event_of start) acts)
    as Eo by (simpl; by destruct (event_of start a)).
  rewrite Eo. destruct Hl1 as [Hl1|[Hl1 Hf]].
  - exists rs', r', (option_list (event_of start a) ++ more). split_and!; [done..| | |].
    + by rewrite Hl, Hl1, app_assoc.
    + by apply sublist_app.
    + intros [_ Hn]%andb_true_iff. by rewrite Hfull.
  - exists rs', r', more. split_and!; [done..| | |].
    + by rewrite Hl, Hl1.
    + by apply sublist_inserts_l.
    + by rewrite Hf.
Qed.

(** Enough steps of the worker leave nothing behind. *)
Lemma worker_catches_up rs sid cols rows start r n :
  rs !! sid = Some r → recording sid cols rows start r →
  (length (option_list (hand r)) + 2 * length (buf (ch (pipe r))) ≤ n)%nat →
  ∃ rs' r', act_all rs sid (replicate n WorkerTurn) = Some rs' ∧ rs' !! sid = Some r' ∧
    buf (ch (pipe r')) = [] ∧ hand r' = None.
Proof.
  revert rs r. induction n as [|n IH]; intros rs r Hrs Hr Hn.
  { exists rs, r. split_and!; [done..| |].
    - destruct (buf (ch (pipe r))); [done|simpl in Hn; lia].
    - destruct (hand r); [simpl in Hn; lia|done]. }
  cbn [replicate act_all act]. rewrite Hrs. cbn.
  destruct (processEvents r) as [r1|] eqn:Ep.
  - pose proof (process_recording _ _ _ _ _ _ Hr Ep) as [Hr1 _].
    apply (IH _ r1); [apply lookup_insert_eq|done|].
    unfold processEvents, recv in Ep. destruct (hand r); [|destruct (buf (ch (pipe r))) eqn:Eb];
      simplify_eq/=; rewrite ?Eb in *; simpl in *; lia.
  - apply (IH _ r); [done..|].
    unfold processEvents, recv in Ep. destruct (hand r); [done|].
    destruct (buf (ch (pipe r))); [simpl; lia|done].
Qed.

Lemma act_all_app rs sid acts1 acts2 :
  act_all rs sid (acts1 ++ acts2) = rs ← act_all rs sid acts1; act_all rs sid acts2.
Proof.
  revert rs. induction acts1 as [|a acts1 IH]; intros rs; [done|]. simpl. destruct (act rs sid a); [apply IH|done].
Qed.

Definition is_bytes (a : activity) : Prop :=
  match a with Call _ data _ => Forall (λ b, 0 <= b) data | WorkerTurn => True end.

Lemma events_runes start acts : Forall is_bytes acts →
  Forall (λ e, runes (Event.Data e)) (omap (event_of start) acts).
Proof.
  intros Hb. apply Forall_forall. intros e ([dir data now|] & Hin & He)%list_elem_of_omap; [|done].
  eapply Forall_forall in Hb; [|exact Hin]. unfold event_of in He.
  destruct (text_eqb dir _); [|destruct (text_eqb dir _)]; simplify_eq; by apply decode_runes.
Qed.

(** C34: What the terminal passed to the recorder comes back from the row, for a
    session of any length, however its calls and the steps of the worker (receiving
    an event, appending it) interleave before [RecordEnd]. What [RecordEnd] gives
    the storage reads as the header and the first of the events accepted, in the
    order of the calls, each with its time, kind and text; at most a thousand and
    one of the last are missing, those the worker has not appended yet, and none
    when it has had its turns (two thousand and one are enough). A call is
    dropped only when the buffer of a thousand is full: otherwise every input and
    output is accepted. A call with another direction, such as "blocked", leaves
    nothing; and the recorder is dropped once the storage has taken the export. *)
Theorem recorded_session_reads_back CloseSession rs sid cols rows start acts :
  Forall is_bytes acts →
  let begun := RecordStart rs sid cols rows start in
  ∃ rs' closing data accepted es, act_all begun sid acts = Some rs' ∧
    RecordEnd json_seconds CloseSession rs' sid =
      Some (match CloseSession sid data with Ok _ => delete sid rs' | Err _ => <[sid := closing]> rs' end,
            Some data) ∧
    read_asciinema data = Some (header_line (NewRecorder sid cols rows start), read_as <$> es) ∧
    es `prefix_of` accepted ∧ (length accepted ≤ length es + capacity + 1)%nat ∧
    (∀ acts0 n, (2 * capacity < n)%nat → acts = acts0 ++ replicate n WorkerTurn → es = accepted) ∧
    accepted `sublist_of` omap (event_of start) acts ∧
    (never_full begun sid acts = true → accepted = omap (event_of start) acts).
Proof using json_seconds_plain.
  intros Hb begun.
  assert (begun !! sid = Some (NewRecorder sid cols rows start)) as H0 by apply lookup_insert_eq.
  assert (recording sid cols rows start (NewRecorder sid cols rows start)) as Hr0
    by (split; try done; apply channel_ok_new).
  destruct (act_all_recording _ _ _ _ _ _ acts H0 Hr0) as (rs' & r & accepted & Hrun & Hget & Hr & Hl & Hsub & Hfull).
  cbn [NewRecorder pipe new_worked log app] in Hl.
  set (closing := set_closed (set_pipe r (Worked (Chan (buf (ch (pipe r))) true) (done_ (pipe r)) (log (pipe r))))).
  destruct (pipe_ok _ _ _ _ _ Hr) as [Hlog Hcap].
  pose proof (received _ _ _ _ _ Hr) as Hrec.
  assert (accepted = events r ++ option_list (hand r) ++ buf (ch (pipe r))) as Hacc
    by (by rewrite <- Hl, <- Hlog, Hrec, app_assoc).
  exists rs', closing, (ToAsciinema json_seconds closing), accepted, (events r).
  split; [exact Hrun|]. split_and!; [| | | | |done|done].
  - unfold RecordEnd. rewrite Hget. unfold Close.
    rewrite (still_open _ _ _ _ _ Hr). unfold close_chan. rewrite (pipe_open _ _ _ _ _ Hr).
    change (set_pipe (set_closed r) _) with closing. cbv zeta.
    by destruct (CloseSession sid (ToAsciinema json_seconds closing)).
  - rewrite (header_eq (NewRecorder sid cols rows start) closing); [|symmetry; exact (same_width _ _ _ _ _ Hr)
      |symmetry; exact (same_height _ _ _ _ _ Hr)|symmetry; exact (same_start _ _ _ _ _ Hr)].
    apply (export_reads closing). change (events closing) with (events r).
    pose proof (events_runes start acts Hb) as Hru. rewrite Forall_forall in Hru.
    apply Forall_forall. intros e He. apply Hru. eapply elem_of_sublist; [|exact Hsub].
    rewrite Hacc. apply elem_of_app. by left.
  - rewrite Hacc. by apply prefix_app_r.
  - rewrite Hacc, !length_app. destruct (hand r); simpl; lia.
  - intros acts0 n Hn ->. rewrite act_all_app in Hrun.
    destruct (act_all_recording _ _ _ _ _ _ acts0 H0 Hr0) as (rs0 & r0 & acc0 & Hrun0 & Hget0 & Hr0' & _).
    rewrite Hrun0 in Hrun. cbn [mbind option_bind] in Hrun.
    destruct (worker_catches_up _ _ _ _ _ _ n Hget0 Hr0') as (rs1 & r1 & Hrun1 & Hget1 & Hb1 & Hh1).
    { destruct (pipe_ok _ _ _ _ _ Hr0') as [_ Hc0]. destruct (hand r0); simpl; lia. }
    assert (rs1 = rs') as -> by congruence. assert (r1 = r) as -> by congruence.
    by rewrite Hacc, Hb1, Hh1, app_nil_r.
Qed.
End export_facts.

(** ** Writers, the worker and the one who closes *)

(** [RecordOutput] and [RecordInput] look at [closed] and then send; [Close]
    sets it and then closes the channel; nothing makes either one step. *)
Record threads := {
  recd : Recorder.t;
  checked : list Event.t;   (* writers past the test of [closed] *)
  closers : nat;            (* callers of [Close] past it *)
  crashed : bool            (* a goroutine panicked, which ends the process *)
}.
Definition started (r : Recorder.t) : threads :=
  {| recd := r; checked := []; closers := 0; crashed := false |}.

Inductive recorder_step : threads → threads → Prop :=
  | step_check w e : crashed w = false → closed (recd w) = false →
      recorder_step w {| recd := recd w; checked := checked w ++ [e]; closers := closers w;
                         crashed := false |}
  | step_offer w l1 e l2 r : crashed w = false → checked w = l1 ++ e :: l2 →
      offer (recd w) e = Some r →
      recorder_step w {| recd := r; checked := l1 ++ l2; closers := closers w; crashed := false |}
  | step_offer_panics w l1 e l2 : crashed w = false → checked w = l1 ++ e :: l2 →
      offer (recd w) e = None →
      recorder_step w {| recd := recd w; checked := l1 ++ l2; closers := closers w; crashed := true |}
  | step_process w r : crashed w = false → processEvents (recd w) = Some r →
      recorder_step w {| recd := r; checked := checked w; closers := closers w; crashed := false |}
  | step_mark w : crashed w = false → closed (recd w) = false →
      recorder_step w {| recd := set_closed (recd w); checked := checked w; closers := S (closers w);
                         crashed := false |}
  | step_close w n c : crashed w = false → closers w = S n → close_chan (ch (pipe (recd w))) = Some c →
      recorder_step w {| recd := set_pipe (recd w) (Worked c (done_ (pipe (recd w))) (log (pipe (recd w))));
                         checked := checked w; closers := n; crashed := false |}
  | step_close_panics w n : crashed w = false → closers w = S n →
      close_chan (ch (pipe (recd w))) = None →
      recorder_step w {| recd := recd w; checked := checked w; closers := n; crashed := true |}.

(** The recorder of a state refines a channel and its worker. *)
Lemma recorder_refines_channel w w' : recorder_step w w' →
  pipe (recd w') = pipe (recd w) ∨ chan_step capacity (pipe (recd w)) (pipe (recd w')).
Proof.
  intros H. destruct H as [| w l1 e l2 r _ _ Ho| |w r _ Hp| |w n c _ _ Hc|]; try (by left).
  - unfold offer in Ho. destruct (try_send _ _ _) eqn:E; simplify_eq/=; [right|by left].
    by apply step_sent.
  - unfold processEvents in Hp. destruct (hand (recd w)); [simplify_eq/=; by left|].
    destruct (recv _) as [[e c]|] eqn:E; simplify_eq/=. right. by apply step_taken.
  - right. by apply step_shut.
Qed.

(** What was received is appended, or in the hand. *)
Definition in_hand (r : Recorder.t) : Prop := done_ (pipe r) = events r ++ option_list (hand r).
Lemma in_hand_step w w' : recorder_step w w' → in_hand (recd w) → in_hand (recd w').
Proof.
  unfold in_hand. intros H Hi.
  destruct H as [| w l1 e l2 r _ _ Ho| |w r _ Hp| |w n c _ _ Hc|]; try done.
  - unfold offer in Ho. by destruct (try_send _ _ _); simplify_eq/=.
  - unfold processEvents in Hp. destruct (hand (recd w)) eqn:Eh.
    + injection Hp as <-. simpl. by rewrite Hi, app_nil_r.
    + destruct (recv _) as [[e c]|]; simplify_eq/=. by rewrite Hi, app_nil_r.
Qed.

Lemma recorder_ok w w' : rtc recorder_step w w' →
  channel_ok capacity (pipe (recd w)) ∧ in_hand (recd w) →
  channel_ok capacity (pipe (recd w')) ∧ in_hand (recd w').
Proof.
  induction 1 as [|w1 w2 w3 Hs _ IH]; [done|]. intros [Hok Hi]. apply IH. split; [|by eapply in_hand_step].
  apply recorder_refines_channel in Hs as [->|Hs]; [done|]. by eapply channel_step_ok.
Qed.

(** *** Runs of the threads *)

(** Nobody is on the way, the worker has appended [es] and holds nothing. *)
Definition calm (r : Recorder.t) (p : worked Event.t) (es : list Event.t) : threads :=
  started (set_events (set_pipe r p) None es).

(** An event that is sent, on a buffer with room. *)
Lemma send_run r b d l es e : closed r = false → (length b < capacity)%nat →
  rtc recorder_step (calm r (Worked (Chan b false) d l) es)
                    (calm r (Worked (Chan (b ++ [e]) false) d (l ++ [e])) es).
Proof.
  intros Hr Hb. eapply rtc_l; [by apply (step_check (calm r _ es) e)|]. apply rtc_once.
  eapply (step_offer {| recd := set_events (set_pipe r (Worked (Chan b false) d l)) None es;
                        checked := [e]; closers := 0; crashed := false |} [] e []); [done..|].
  unfold offer, try_send. simpl. by rewrite decide_True.
Qed.

(** The worker receives it, and appends it. *)
Lemma process_run r b d l es e :
  rtc recorder_step (calm r (Worked (Chan (e :: b) false) d l) es)
                    (calm r (Worked (Chan b false) (d ++ [e]) l) (es ++ [e])).
Proof.
  eapply rtc_l; [by apply step_process|]. apply rtc_once. by apply step_process.
Qed.

Lemma send_and_process r d es l : closed r = false →
  rtc recorder_step (calm r (Worked make_chan d d) es) (calm r (Worked make_chan (d ++ l) (d ++ l)) (es ++ l)).
Proof.
  intros Hr. revert d es. induction l as [|e l IH]; intros d es; [by rewrite !app_nil_r|].
  etransitivity; [apply (send_run r [] d d es e); [done|unfold capacity; simpl; lia]|].
  etransitivity; [apply process_run|].
  rewrite (cons_middle e d l), (app_assoc d [e] l), (cons_middle e es l), (app_assoc es [e] l). apply IH.
Qed.

Lemma send_all r b d lg es l : closed r = false → (length b + length l ≤ capacity)%nat →
  rtc recorder_step (calm r (Worked (Chan b false) d lg) es)
                    (calm r (Worked (Chan (b ++ l) false) d (lg ++ l)) es).
Proof.
  intros Hr. revert b lg. induction l as [|e l IH]; intros b lg Hl; [by rewrite !app_nil_r|]. simpl in Hl.
  etransitivity; [apply (send_run r b d lg es e); [done|lia]|].
  rewrite (cons_middle e b l), (app_assoc b [e] l), (cons_middle e lg l), (app_assoc lg [e] l).
  apply IH. rewrite length_app. simpl. lia.
Qed.

Lemma process_all w : crashed w = false → ∃ w', rtc recorder_step w w' ∧
  events (recd w') = events (recd w) ++ option_list (hand (recd w)) ++ buf (ch (pipe (recd w))) ∧
  closed (recd w') = closed (recd w).
Proof.
  destruct w as [[s t [[b sh] d l] h es cl wd hg] chk cls cr]. simpl. intros ->.
  assert (∀ d es, ∃ w', rtc recorder_step
      (Build_threads (Build_t s t (Worked (Chan b sh) d l) None es cl wd hg) chk cls false) w' ∧
      events (recd w') = es ++ b ∧ closed (recd w') = cl) as Hb.
  { clear d h es. induction b as [|e b IH]; intros d es.
    { eexists. split; [done|]. by rewrite app_nil_r. }
    destruct (IH (d ++ [e]) (es ++ [e])) as (w' & Hw & He & Hc).
    exists w'. split; [|by rewrite He, <- app_assoc].
    eapply rtc_l; [by apply step_process|]. eapply rtc_l; [by apply step_process|]. exact Hw. }
  destruct h as [e|]; [|apply Hb].
  destruct (Hb d (es ++ [e])) as (w' & Hw & He & Hc). exists w'. split; [|by rewrite He, <- app_assoc].
  eapply rtc_l; [by apply step_process|]. exact Hw.
Qed.

(** Whatever the writers, the worker and the closers do and however they
    interleave, the list of a recorder holds the events it accepted, in the
    order it accepted them, without a gap, and lacks at most the last thousand
    and one; and unless a goroutine panics the worker alone completes it. *)
Theorem recording_in_order sid width height now w :
  rtc recorder_step (started (NewRecorder sid width height now)) w →
  events (recd w) `prefix_of` log (pipe (recd w)) ∧
  (length (log (pipe (recd w))) ≤ length (events (recd w)) + capacity + 1)%nat ∧
  (crashed w = false → ∃ w', rtc recorder_step w w' ∧ events (recd w') = log (pipe (recd w)) ∧
                             closed (recd w') = closed (recd w)).
Proof.
  intros Hr. apply recorder_ok in Hr as [[Hl Hb] Hi]; [|split; [apply channel_ok_new|done]].
  rewrite <- Hl, Hi, <- app_assoc. split_and!.
  - by apply prefix_app_r.
  - rewrite !length_app. destruct (hand (recd w)); simpl; lia.
  - intros Hc. destruct (process_all w Hc) as (w' & Hw & He & Hcl). by exists w'.
Qed.

Lemma closing_run r b d l es cs : closed r = false →
  rtc recorder_step
    {| recd := set_events (set_pipe r (Worked (Chan b false) d l)) None es; checked := cs; closers := 0;
       crashed := false |}
    {| recd := set_events (set_pipe (set_closed r) (Worked (Chan b true) d l)) None es; checked := cs;
       closers := 0; crashed := false |}.
Proof.
  intros Hr. eapply rtc_l; [by apply step_mark|]. apply rtc_once.
  exact (step_close {| recd := set_events (set_pipe (set_closed r) (Worked (Chan b false) d l)) None es;
                       checked := cs; closers := 1; crashed := false |} 0 (Chan b true) eq_refl eq_refl eq_refl).
Qed.

(** Closing does not wait for the worker: however the events of a session
    are divided, as long as at most a thousand are behind, there is a run in
    which all were accepted, the recorder is closed, no goroutine failed, and the
    export that [RecordEnd] makes next has the first part only. *)
Theorem closed_recording_cut sid width height now l1 l2 : (length l2 ≤ capacity)%nat →
  ∃ w, rtc recorder_step (started (NewRecorder sid width height now)) w ∧
    crashed w = false ∧ closed (recd w) = true ∧ shut (ch (pipe (recd w))) = true ∧
    log (pipe (recd w)) = l1 ++ l2 ∧ events (recd w) = l1.
Proof.
  intros Hl. set (r := NewRecorder sid width height now).
  exists {| recd := set_events (set_pipe (set_closed r) (Worked (Chan l2 true) l1 (l1 ++ l2))) None l1;
            checked := []; closers := 0; crashed := false |}.
  split; [|done].
  etransitivity; [apply (send_and_process r [] [] l1); done|].
  etransitivity; [apply (send_all r [] l1 l1 l1 l2); [done|exact Hl]|].
  by apply closing_run.
Qed.

(** A writer past the test of [closed] when the recorder closes ends the process. *)
Theorem late_write_panics sid width height now (e : Event.t) :
  ∃ w, rtc recorder_step (started (NewRecorder sid width height now)) w ∧ crashed w = true.
Proof.
  set (r := NewRecorder sid width height now).
  eexists. split.
  - eapply rtc_l; [by apply (step_check (started r) e)|].
    etransitivity; [by apply (closing_run r [] [] [] [] [e])|].
    apply rtc_once. by apply (step_offer_panics
      {| recd := set_events (set_pipe (set_closed r) (Worked (Chan [] true) [] [])) None [];
         checked := [e]; closers := 0; crashed := false |} [] e []).
  - done.
Qed.

(** ** Witnesses *)

Lemma number_plain (t : Z) : 44 ∉ txt (pretty t) ∧ 10 ∉ txt (pretty t).
Proof.
  split; [|apply number_one_line]. intros H.
  eapply Forall_forall in H; [|apply number_decimal]. unfold decimal in H. lia.
Qed.

(** A prompt, a key, the refusal of a command, and a line with quotes; the worker
    is slower than the terminal. *)
Definition four_calls : list activity :=
  [Call (txt "out") [36; 32] 5; WorkerTurn; Call (txt "in") [108] 7; WorkerTurn;
   Call (txt "blocked") [120] 8; WorkerTurn; Call (txt "out") [34; 60; 13; 10] 9]
  ++ replicate (2 * capacity + 1) WorkerTurn.

Lemma recorded_session_reads_back_witness :
  (∃ rs' data, act_all (RecordStart ∅ (txt "s") 80 24 0) (txt "s") four_calls = Some rs' ∧
    RecordEnd (λ t, txt (pretty t)) (λ _ _, Ok ()) rs' (txt "s") = Some (delete (txt "s") rs', Some data) ∧
    read_asciinema data =
      Some (header_line (NewRecorder (txt "s") 80 24 0),
            read_as (λ t, txt (pretty t)) <$> omap (event_of 0) four_calls)) ∧
  (λ e, (Event.Time e, Event.Data e)) <$> omap (event_of 0) four_calls =
    [(5, [36; 32]); (7, [108]); (9, [34; 60; 13; 10])].
Proof.
  split; [|vm_compute; reflexivity].
  assert (2 * capacity < 2 * capacity + 1)%nat as Hlt by lia.
  destruct (recorded_session_reads_back (λ t, txt (pretty t)) number_plain (λ _ _, Ok ()) ∅ (txt "s") 80 24 0
    four_calls) as (rs' & r & data & accepted & es & Hrun & Hend & Hread & _ & _ & Hturns & _ & Hfull).
  - apply Forall_app. split; [|apply Forall_replicate; exact I].
    repeat (apply Forall_cons; split); try apply Forall_nil;
      first [exact I|apply Forall_forall; intros ? []%not_elem_of_nil|lia].
  - exists rs', data. split; [exact Hrun|]. split; [exact Hend|].
    rewrite Hread, (Hturns _ (2 * capacity + 1)%nat Hlt eq_refl), Hfull; [reflexivity|]. vm_compute. reflexivity.
Defined.

Definition sample_event (n : Z) : Event.t :=
  {| Event.Time := n; Event.Type_ := Output; Event.Data := txt "x" |}.

Lemma recording_in_order_witness :
  let w := calm (NewRecorder (txt "s") 80 24 0)
             (Worked (Chan [sample_event 1; sample_event 2] false) [] [sample_event 1; sample_event 2]) [] in
  ∃ w', rtc recorder_step w w' ∧ events (recd w') = [sample_event 1; sample_event 2] ∧
        closed (recd w') = false.
Proof.
  intros w.
  destruct (recording_in_order (txt "s") 80 24 0 w) as (_ & _ & H).
  - apply (send_all (NewRecorder (txt "s") 80 24 0) [] [] [] [] [sample_event 1; sample_event 2]);
      [reflexivity|]. unfold capacity. simpl. lia.
  - exact (H eq_refl).
Defined.

Lemma closed_recording_cut_witness :
  ∃ w, rtc recorder_step (started (NewRecorder (txt "s") 80 24 0)) w ∧
    crashed w = false ∧ closed (recd w) = true ∧ shut (ch (pipe (recd w))) = true ∧
    log (pipe (recd w)) = [sample_event 1; sample_event 2] ∧ events (recd w) = [sample_event 1].
Proof.
  apply (closed_recording_cut (txt "s") 80 24 0 [sample_event 1] [sample_event 2]).
  unfold capacity. simpl. lia.
Defined.

(** The SSH terminal records what is typed byte by byte: a letter that takes two
    bytes is recorded as two bytes that are not UTF-8. *)
Example typed_letter_lost :
  omap (event_of 0) [Call (txt "in") [195] 1; Call (txt "in") [169] 2] =
    [{| Event.Time := 1; Event.Type_ := Input; Event.Data := [rune_error] |};
     {| Event.Time := 2; Event.Type_ := Input; Event.Data := [rune_error] |}] ∧
  utf8_decode [195; 169] = [233].
Proof. vm_compute. done. Qed.
