(* ===== verification/AuditTrail.v ===== *)
(** * The audit trail in the tables

    [internal/audit]: the one auditor of the database and its two adapters, for
    the SSH terminal and for the storage interface of the web terminal; and
    [internal/bastion/storage]: the storage with its three queues.  Times are in
    seconds.  The host port, the account and the size of the terminal are only
    logged or shown and left out; [id] is a fresh uuid. *)

From stdpp Require Import base list strings relations pretty.
From Stdlib Require Import ZArith Lia.
From S2P Require Import Prelude GoStrings Gorm Models Database Sessions HostSession GoChan.
Local Open Scope Z_scope.

(** ** The auditor *)

(** [audit.SessionInfo]. *)
Module Info.
Record t := {
  SessionID : text; ConnectionType : text; ProxyID : text; UserID : text; Username : text;
  ClientIP : text; HostID : text; HostIP : text; HostName : text; StartTime : Z
}.
End Info.

(** [audit.CommandInfo]; the storage's [CommandRecord] has the same fields. *)
Module CommandInfo.
Record t := {
  SessionID : text; ProxyID : text; HostID : text; HostIP : text; UserID : text; Username : text;
  Command : text; Output : text; ExitCode : Z; ExecutedAt : Z; DurationMs : Z
}.
End CommandInfo.

(** The interface [Auditor]; [AuditData] does nothing. *)
Class Auditor := {
  AuditLoginStart : Info.t → DB unit;
  AuditLoginSuccess : text → Info.t → DB unit;
  AuditLoginFailed : text → Z → DB unit;
  AuditSessionEnd : text → Z → text → DB unit;
  AuditCommand : CommandInfo.t → DB unit
}.

Definition ssh_gateway : text := txt "ssh_gateway".
Definition api_server : text := txt "api_server".

Module DatabaseAuditor.
Definition login_record (s : Info.t) : LoginRecord.t :=
  {| LoginRecord.ID := Info.SessionID s; LoginRecord.UserID := Info.UserID s;
     LoginRecord.HostID := Info.HostID s; LoginRecord.HostName := Info.HostName s;
     LoginRecord.HostIP := Info.HostIP s; LoginRecord.Username := Info.Username s;
     LoginRecord.LoginIP := Info.ClientIP s; LoginRecord.LoginTime := Info.StartTime s;
     LoginRecord.LogoutTime := None; LoginRecord.Duration := None;
     LoginRecord.Status := txt "connecting"; LoginRecord.SessionID := Info.SessionID s |}.

Definition recording (id : text) (s : Info.t) : SessionRecording.t :=
  {| SessionRecording.ID := id; SessionRecording.SessionID := Info.SessionID s;
     SessionRecording.ConnectionType := Info.ConnectionType s;
     SessionRecording.ProxyID := Info.ProxyID s; SessionRecording.UserID := Info.UserID s;
     SessionRecording.HostID := Info.HostID s; SessionRecording.HostName := Info.HostName s;
     SessionRecording.HostIP := Info.HostIP s; SessionRecording.Username := Info.Username s;
     SessionRecording.StartTime := Info.StartTime s; SessionRecording.EndTime := None;
     SessionRecording.Duration := txt "进行中"; SessionRecording.Status := txt "active";
     SessionRecording.Recording := []; SessionRecording.CommandCount := 0 |}.

Definition AuditLoginStart (s : Info.t) : DB unit := create_login_record (login_record s).

Definition AuditLoginSuccess (id : text) (s : Info.t) : DB unit :=
  _ ← attempt (update_login_records (Info.SessionID s) (λ r, LoginRecord.set_status r (txt "active")));
  create_recording (recording id s).

Definition AuditLoginFailed (sessionID : text) (endTime : Z) : DB unit :=
  update_login_records sessionID (λ r, LoginRecord.set_logout r endTime (txt "failed")).

Definition find_recording (sessionID : text) : DB SessionRecording.t :=
  first (λ db, keep (λ r, text_eqb (SessionRecording.SessionID r) sessionID)
                    (session_recordings (aux db))).

Definition AuditSessionEnd (sessionID : text) (endTime : Z) (data : text) : DB unit :=
  sessionRec ← find_recording sessionID;
  let diff := endTime - SessionRecording.StartTime sessionRec in
  _ ← update_recordings sessionID (λ r,
        SessionRecording.set_end r endTime (duration_text diff) (txt "closed") data);
  _ ← attempt (update_login_records sessionID (λ r,
        LoginRecord.set_end r endTime diff (txt "completed")));
  mret ().

Definition command_row (id : Z) (c : CommandInfo.t) (ms : Z) : CommandRecord.t :=
  {| CommandRecord.ID := id; CommandRecord.ProxyID := CommandInfo.ProxyID c;
     CommandRecord.SessionID := CommandInfo.SessionID c; CommandRecord.HostID := CommandInfo.HostID c;
     CommandRecord.UserID := CommandInfo.UserID c; CommandRecord.Username := CommandInfo.Username c;
     CommandRecord.HostIP := CommandInfo.HostIP c; CommandRecord.Command := CommandInfo.Command c;
     CommandRecord.Output := CommandInfo.Output c; CommandRecord.ExitCode := CommandInfo.ExitCode c;
     CommandRecord.ExecutedAt := CommandInfo.ExecutedAt c; CommandRecord.DurationMs := ms |}.

(** The key counts up. *)
Definition create_command (c : CommandInfo.t) (ms : Z) : DB unit := execute (λ db,
  let rows := command_records (logs (aux db)) in
  Ok (set_command_records db (rows ++ [command_row (next_id CommandRecord.ID rows) c ms]))).

Definition AuditCommand (c : CommandInfo.t) : DB unit :=
  _ ← create_command c (CommandInfo.DurationMs c);
  _ ← attempt (update_recordings (CommandInfo.SessionID c) (λ r,
        SessionRecording.set_count r (SessionRecording.CommandCount r + 1)));
  mret ().
End DatabaseAuditor.

#[global] Instance database_auditor : Auditor := {|
  AuditLoginStart := DatabaseAuditor.AuditLoginStart;
  AuditLoginSuccess := DatabaseAuditor.AuditLoginSuccess;
  AuditLoginFailed := DatabaseAuditor.AuditLoginFailed;
  AuditSessionEnd := DatabaseAuditor.AuditSessionEnd;
  AuditCommand := DatabaseAuditor.AuditCommand
|}.

(** ** The adapter of the SSH terminal *)

Module SSHGatewayAuditorAdapter.
Section adapter.
Context `{Auditor}.

Definition unified (s : SessionInfo.t) (start : Z) : Info.t :=
  {| Info.SessionID := SessionInfo.SessionID s; Info.ConnectionType := ssh_gateway;
     Info.ProxyID := txt "ssh-gateway"; Info.UserID := SessionInfo.UserID s;
     Info.Username := SessionInfo.Username s; Info.ClientIP := SessionInfo.ClientIP s;
     Info.HostID := SessionInfo.HostID s; Info.HostIP := SessionInfo.HostIP s;
     Info.HostName := SessionInfo.HostName s; Info.StartTime := start |}.

Definition AuditLoginStart (s : SessionInfo.t) (start : Z) : DB unit :=
  AuditTrail.AuditLoginStart (unified s start).
Definition AuditConnectionSuccess (id : text) (s : SessionInfo.t) (start : Z) : DB unit :=
  AuditTrail.AuditLoginSuccess id (unified s start).
Definition AuditSessionStart (id : text) (s : SessionInfo.t) (start : Z) : DB unit :=
  _ ← AuditLoginStart s start; AuditConnectionSuccess id s start.
Definition AuditSessionEnd (sessionID : text) (endTime : Z) : DB unit :=
  AuditTrail.AuditSessionEnd sessionID endTime [].
Definition AuditSessionFailed (sessionID : text) (endTime : Z) : DB unit :=
  AuditTrail.AuditLoginFailed sessionID endTime.
Definition AuditCommand (c : CommandInfo.t) : DB unit :=
  AuditTrail.AuditCommand
    {| CommandInfo.SessionID := CommandInfo.SessionID c; CommandInfo.ProxyID := txt "ssh-gateway";
       CommandInfo.HostID := CommandInfo.HostID c; CommandInfo.HostIP := CommandInfo.HostIP c;
       CommandInfo.UserID := CommandInfo.UserID c; CommandInfo.Username := CommandInfo.Username c;
       CommandInfo.Command := CommandInfo.Command c; CommandInfo.Output := CommandInfo.Output c;
       CommandInfo.ExitCode := CommandInfo.ExitCode c; CommandInfo.ExecutedAt := CommandInfo.ExecutedAt c;
       CommandInfo.DurationMs := CommandInfo.DurationMs c |}.
End adapter.
End SSHGatewayAuditorAdapter.

(** ** The adapter of the web terminal *)

(** [types.SessionRecord]. *)
Module SessionRecord.
Record t := {
  ProxyID : text; SessionID : text; HostID : text; HostName : text; UserID : text; Username : text;
  HostIP : text; StartTime : Z; EndTime : option Z; Status : text; Recording : text
}.
End SessionRecord.

(** [types.LoginRecord]. *)
Module LoginAttempt.
Record t := {
  SessionID : text; UserID : text; HostID : text; HostName : text; HostIP : text; Username : text;
  LoginTime : Z; Status : text
}.
End LoginAttempt.

(** The interface [Storage]; [now] is the clock when the method runs. *)
Class Storage := {
  SaveSession : text → SessionRecord.t → DB unit;
  CloseSession : Z → text → text → DB unit;
  MarkSessionFailed : Z → text → DB unit;
  SaveLoginRecord : LoginAttempt.t → DB unit;
  UpdateLoginRecordStatus : text → text → option Z → DB unit;
  SaveCommand : CommandInfo.t → DB unit
}.

Module WebShellStorageAdapter.
Section adapter.
Context `{Auditor}.

Definition SaveSession (id : text) (s : SessionRecord.t) : DB unit :=
  AuditLoginSuccess id
    {| Info.SessionID := SessionRecord.SessionID s; Info.ConnectionType := api_server;
       Info.ProxyID := SessionRecord.ProxyID s; Info.UserID := SessionRecord.UserID s;
       Info.Username := SessionRecord.Username s; Info.ClientIP := [];
       Info.HostID := SessionRecord.HostID s; Info.HostIP := SessionRecord.HostIP s;
       Info.HostName := SessionRecord.HostName s; Info.StartTime := SessionRecord.StartTime s |}.
Definition CloseSession (now : Z) (sessionID recording : text) : DB unit :=
  AuditSessionEnd sessionID now recording.
Definition MarkSessionFailed (now : Z) (sessionID : text) : DB unit := AuditLoginFailed sessionID now.
Definition SaveLoginRecord (r : LoginAttempt.t) : DB unit :=
  AuditLoginStart
    {| Info.SessionID := LoginAttempt.SessionID r; Info.ConnectionType := api_server;
       Info.ProxyID := txt "api-server-direct"; Info.UserID := LoginAttempt.UserID r;
       Info.Username := LoginAttempt.Username r; Info.ClientIP := [];
       Info.HostID := LoginAttempt.HostID r; Info.HostIP := LoginAttempt.HostIP r;
       Info.HostName := LoginAttempt.HostName r; Info.StartTime := LoginAttempt.LoginTime r |}.
(** A zero time is [None]; the row gets the year 1 then. *)
Definition zero_time : Z := -62135596800.
Definition UpdateLoginRecordStatus (sessionID status : text) (logoutTime : option Z) : DB unit :=
  if text_eqb status (txt "failed") then AuditLoginFailed sessionID (default zero_time logoutTime)
  else mret ().
Definition SaveCommand (c : CommandInfo.t) : DB unit := AuditCommand c.
End adapter.
End WebShellStorageAdapter.

Definition webshell_storage `{Auditor} : Storage := {|
  SaveSession := WebShellStorageAdapter.SaveSession;
  CloseSession := WebShellStorageAdapter.CloseSession;
  MarkSessionFailed := WebShellStorageAdapter.MarkSessionFailed;
  SaveLoginRecord := WebShellStorageAdapter.SaveLoginRecord;
  UpdateLoginRecordStatus := WebShellStorageAdapter.UpdateLoginRecordStatus;
  SaveCommand := WebShellStorageAdapter.SaveCommand
|}.

(** ** The storage with queues *)

Module DatabaseStorage.
(** What the workers do, and a full queue does at once. *)
Definition row_of (s : SessionRecord.t) : SessionRecording.t :=
  {| SessionRecording.ID := SessionRecord.SessionID s;
     SessionRecording.SessionID := SessionRecord.SessionID s;
     SessionRecording.ConnectionType :=
       if negb (is_empty (SessionRecord.ProxyID s)) &&
          negb (text_eqb (SessionRecord.ProxyID s) (txt "api-server-direct"))
       then txt "webshell" else txt "ssh_client";
     SessionRecording.ProxyID := SessionRecord.ProxyID s; SessionRecording.UserID := SessionRecord.UserID s;
     SessionRecording.HostID := SessionRecord.HostID s; SessionRecording.HostName := [];
     SessionRecording.HostIP := SessionRecord.HostIP s;
     SessionRecording.Username := SessionRecord.Username s;
     SessionRecording.StartTime := SessionRecord.StartTime s;
     SessionRecording.EndTime := SessionRecord.EndTime s;
     SessionRecording.Duration :=
       match SessionRecord.EndTime s with
       | Some e => duration_text (e - SessionRecord.StartTime s)
       | None => txt "进行中"
       end;
     SessionRecording.Status := SessionRecord.Status s;
     SessionRecording.Recording := SessionRecord.Recording s; SessionRecording.CommandCount := 0 |}.

(** [FirstOrCreate]: gorm also asks for the primary key the value has. *)
Definition saveSessionToDB (s : SessionRecord.t) : DB unit :=
  r ← caught (first (λ db, keep (λ r,
        text_eqb (SessionRecording.SessionID r) (SessionRecord.SessionID s) &&
        text_eqb (SessionRecording.ID r) (SessionRecord.SessionID s)) (session_recordings (aux db))));
  match r with
  | Ok _ => mret ()
  | Err RecordNotFound => create_recording (row_of s)
  | Err e => raise e
  end.

Definition closeSessionInDB (now : Z) (sessionID recording : text) : DB unit :=
  sessionRec ← DatabaseAuditor.find_recording sessionID;
  let diff := now - SessionRecording.StartTime sessionRec in
  _ ← update_recordings sessionID (λ r,
        SessionRecording.set_end r now (duration_text diff) (txt "closed") recording);
  loginRecord ← caught (first (λ db, keep (λ r, text_eqb (LoginRecord.SessionID r) sessionID)
                                          (login_records (aux db))));
  match loginRecord with
  | Ok l =>
      _ ← attempt (execute (λ db, Ok (set_login_records db
            (updated (λ r, text_eqb (LoginRecord.ID r) (LoginRecord.ID l))
               (λ r, LoginRecord.set_end r now (now - LoginRecord.LoginTime l) (txt "completed"))
               <$> login_records (aux db)))));
      mret ()
  | Err _ => mret ()
  end.

Definition saveCommandToDB (c : CommandInfo.t) : DB unit := DatabaseAuditor.create_command c 0.

Definition MarkSessionFailed (sessionID : text) : DB unit :=
  _ ← attempt (update_recordings sessionID (λ r, SessionRecording.set_status r (txt "failed")));
  _ ← attempt (update_login_records sessionID (λ r, LoginRecord.set_status r (txt "failed")));
  mret ().

Definition SaveLoginRecord (r : LoginAttempt.t) : DB unit := create_login_record
  {| LoginRecord.ID := LoginAttempt.SessionID r ++ txt "-login";
     LoginRecord.UserID := LoginAttempt.UserID r; LoginRecord.HostID := LoginAttempt.HostID r;
     LoginRecord.HostName := LoginAttempt.HostName r; LoginRecord.HostIP := LoginAttempt.HostIP r;
     LoginRecord.Username := LoginAttempt.Username r; LoginRecord.LoginIP := [];
     LoginRecord.LoginTime := LoginAttempt.LoginTime r; LoginRecord.LogoutTime := None;
     LoginRecord.Duration := None; LoginRecord.Status := LoginAttempt.Status r;
     LoginRecord.SessionID := LoginAttempt.SessionID r |}.

Definition UpdateLoginRecordStatus (sessionID status : text) (logoutTime : option Z) : DB unit :=
  match logoutTime with
  | None => update_login_records sessionID (λ r, LoginRecord.set_status r status)
  | Some t =>
      l ← attempt (first (λ db, keep (λ r, text_eqb (LoginRecord.SessionID r) sessionID)
                                     (login_records (aux db))));
      match l with
      | Some l => update_login_records sessionID (λ r,
                    LoginRecord.set_end r t (t - LoginRecord.LoginTime l) status)
      | None => update_login_records sessionID (λ r, LoginRecord.set_logout r t status)
      end
  end.

(** [closeRequest], and a request of any of the three queues. *)
Record closeRequest := { sessionID : text; recording : text }.
Inductive request := SessionReq (s : SessionRecord.t) | CommandReq (c : CommandInfo.t)
                   | CloseReq (r : closeRequest).

(** One request done, its error only logged. *)
Definition perform (now : Z) (r : request) : DB unit :=
  match r with
  | SessionReq s => saveSessionToDB s
  | CommandReq c => saveCommandToDB c
  | CloseReq r => closeSessionInDB now (sessionID r) (recording r)
  end.

Inductive queue := SessionQ | CommandQ | CloseQ.
#[global] Instance queue_eq_dec : EqDecision queue.
Proof. solve_decision. Defined.

Definition queue_of (r : request) : queue :=
  match r with SessionReq _ => SessionQ | CommandReq _ => CommandQ | CloseReq _ => CloseQ end.
Definition capacity (q : queue) : nat := match q with CommandQ => 1000 | _ => 100 end.

(** What has been done to the database, in order: by the worker of a queue, at
    once by a caller whose queue was full, and by the other parts of the server. *)
Inductive event :=
  | ByWorker (q : queue) (now : Z) (r : request) (f : list (option db_error))
  | AtOnce (now : Z) (r : request) (f : list (option db_error))
  | Others (db' : Db).
Definition effect (db : Db) (e : event) : Db :=
  match e with
  | ByWorker _ now r f | AtOnce now r f => (perform now r db f).1.2
  | Others db' => db'
  end.
Definition replay (db : Db) (es : list event) : Db := foldl effect db es.

(** A caller is past its test of [closed], and then may have found its queue
    full. [closing] is [closed] with the queues [Close] has yet to close; a
    worker is [busy] with the request it has taken from its queue.  [passed],
    [panicked], [history] and the logs of the queues are kept by no code. *)
Inductive stage := Passed | FoundFull.
Record state := {
  pending : list (request * stage);
  queues : queue → worked request;
  busy : queue → option request;
  closing : option (list queue);
  db : Db;
  passed : list request;
  panicked : list request;
  history : list event
}.
Definition closed (st : state) : bool := match closing st with Some _ => true | None => false end.
Definition new_storage (db : Db) : state :=
  {| pending := []; queues := λ _, new_worked; busy := λ _, None; closing := None; db := db;
     passed := []; panicked := []; history := [] |}.
Definition set_queue {A} (f : queue → A) (q : queue) (w : A) : queue → A :=
  λ q', if decide (q' = q) then w else f q'.
Definition happened (st : state) (e : event) : state :=
  {| pending := pending st; queues := queues st; busy := busy st; closing := closing st;
     db := effect (db st) e; passed := passed st; panicked := panicked st;
     history := history st ++ [e] |}.
Definition set_pending (st : state) (l : list (request * stage)) : state :=
  {| pending := l; queues := queues st; busy := busy st; closing := closing st; db := db st;
     passed := passed st; panicked := panicked st; history := history st |}.
Definition set_worker (st : state) (q : queue) (w : worked request) (b : option request) : state :=
  {| pending := pending st; queues := set_queue (queues st) q w; busy := set_queue (busy st) q b;
     closing := closing st; db := db st; passed := passed st; panicked := panicked st;
     history := history st |}.
Definition set_closing (st : state) (c : option (list queue)) : state :=
  {| pending := pending st; queues := queues st; busy := busy st; closing := c; db := db st;
     passed := passed st; panicked := panicked st; history := history st |}.

(** [SaveSession], [SaveCommand] and [CloseSession]: the test under [closedMu],
    which is released before the [select]; *)
Definition submit (r : request) (st : state) : state :=
  if closed st then st
  else {| pending := pending st ++ [(r, Passed)]; queues := queues st; busy := busy st;
          closing := closing st; db := db st; passed := passed st ++ [r]; panicked := panicked st;
          history := history st |}.
(** the [select] of one of the callers that passed, which sends on a queue that
    [Close] may have closed since; *)
Definition send (i : nat) (st : state) : option state :=
  match pending st !! i with
  | Some (r, Passed) =>
      let q := queue_of r in
      let w := queues st q in
      match try_send (capacity q) r (ch w) with
      | Sent c => Some (set_pending (set_worker st q (Worked c (done_ w) (log w ++ [r])) (busy st q))
                          (delete i (pending st)))
      | Full => Some (set_pending st (<[i := (r, FoundFull)]> (pending st)))
      | SendPanics => Some
          {| pending := delete i (pending st); queues := queues st; busy := busy st;
             closing := closing st; db := db st; passed := passed st;
             panicked := panicked st ++ [r]; history := history st |}
      end
  | _ => None
  end.
(** and what its [default] does: the request at once. *)
Definition fall_back (now : Z) (i : nat) (f : list (option db_error)) (st : state) : option state :=
  match pending st !! i with
  | Some (r, FoundFull) => Some (happened (set_pending st (delete i (pending st))) (AtOnce now r f))
  | _ => None
  end.

(** A turn of the [range] of a worker: taking a request, and doing it. *)
Definition take (q : queue) (st : state) : option state :=
  match busy st q, recv (ch (queues st q)) with
  | None, Some (r, c) =>
      Some (set_worker st q (Worked c (done_ (queues st q) ++ [r]) (log (queues st q))) (Some r))
  | _, _ => None
  end.
Definition work (now : Z) (q : queue) (f : list (option db_error)) (st : state) : option state :=
  match busy st q with
  | Some r => Some (happened (set_worker st q (queues st q) None) (ByWorker q now r f))
  | None => None
  end.

(** [Close]: [closed] is set under [closedMu], then each queue is closed. *)
Definition Close (st : state) : state :=
  if closed st then st else set_closing st (Some [SessionQ; CommandQ; CloseQ]).
Definition close_next (st : state) : option state :=
  match closing st with
  | Some (q :: qs) =>
      c ← close_chan (ch (queues st q));
      Some (set_closing (set_worker st q (Worked c (done_ (queues st q)) (log (queues st q))) (busy st q))
              (Some qs))
  | _ => None
  end.
(** The end of [wg.Wait]: the queues are closed, and every worker has left its loop. *)
Definition drained (st : state) : Prop :=
  closing st = Some [] ∧ ∀ q, buf (ch (queues st q)) = [] ∧ busy st q = None.

(** The steps of the callers, the workers, [Close] and the rest of the server,
    in any order; the statements of one request run together, which matters to
    the tables and not to the queues. *)
Inductive label :=
  | Submit (r : request) | Send (i : nat) | FallBack (now : Z) (i : nat) (f : list (option db_error))
  | Take (q : queue) | Work (now : Z) (q : queue) (f : list (option db_error))
  | CloseFlag | CloseNext | Other (db' : Db).
Definition exec (l : label) (st : state) : option state :=
  match l with
  | Submit r => Some (submit r st)
  | Send i => send i st
  | FallBack now i f => fall_back now i f st
  | Take q => take q st
  | Work now q f => work now q f st
  | CloseFlag => Some (Close st)
  | CloseNext => close_next st
  | Other db' => Some (happened st (Others db'))
  end.
Definition storage_step (st st' : state) : Prop := ∃ l, exec l st = Some st'.
Fixpoint exec_all (ls : list label) (st : state) : option state :=
  match ls with
  | [] => Some st
  | l :: ls => st ← exec l st; exec_all ls st
  end.

(** The requests the storage accepted, in the order of each queue; those each
    worker has done, and those done at once. *)
Definition accepted (st : state) (q : queue) : list request := log (queues st q).
Definition finished (st : state) (q : queue) : list request :=
  omap (λ e, match e with ByWorker q' _ r _ => if decide (q' = q) then Some r else None | _ => None end)
       (history st).
Definition done_at_once (st : state) : list request :=
  omap (λ e, match e with AtOnce _ r _ => Some r | _ => None end) (history st).

Definition is_shut (c : option (list queue)) (q : queue) : bool :=
  match c with None => false | Some qs => bool_decide (q ∉ qs) end.
Record storage_ok (db0 : Db) (st : state) : Prop := {
  queues_ok q : channel_ok (capacity q) (queues st q);
  queues_shut q : shut (ch (queues st q)) = is_shut (closing st) q;
  closing_once : NoDup (default [] (closing st));
  taken q : done_ (queues st q) = finished st q ++ option_list (busy st q);
  accounted : passed st ≡ₚ (accepted st SessionQ ++ accepted st CommandQ ++ accepted st CloseQ) ++
                done_at_once st ++ (pending st).*1 ++ panicked st;
  replayed : db st = replay db0 (history st);
  panics_late : closing st = None → panicked st = []
}.
End DatabaseStorage.

(** ** What an attempt from the SSH terminal leaves *)

(** The times of an attempt, the fresh key of its recording, and the recording
    the recorder exports. *)
Record attempt_data := {
  key : text; at_start : Z; at_end : Z; at_close : Z; exported : text
}.

(** Each call of the trail on the tables; all errors are only logged.  The
    recorder passes the export to the storage, whose worker closes the session:
    after [AuditSessionEnd], which has returned before [RecordEnd]. *)
Definition ignored (m : DB unit) : Eff text unit := _ ← attempt m; mret ().

Definition on_trail (a : attempt_data) (e : trail) : Eff text unit :=
  match e with
  | HostSession.AuditLoginStart s => ignored (SSHGatewayAuditorAdapter.AuditLoginStart s (at_start a))
  | HostSession.AuditSessionFailed s _ =>
      ignored (SSHGatewayAuditorAdapter.AuditSessionFailed (SessionInfo.SessionID s) (at_end a))
  | HostSession.AuditConnectionSuccess s =>
      ignored (SSHGatewayAuditorAdapter.AuditConnectionSuccess (key a) s (at_start a))
  | HostSession.AuditSessionEnd sid => ignored (SSHGatewayAuditorAdapter.AuditSessionEnd sid (at_end a))
  | HostSession.RecordEnd sid =>
      ignored (DatabaseStorage.closeSessionInDB (at_close a) sid (exported a))
  | ShowConnectionInfo | ShowError _ | HostSession.RecordStart _ => mret ()
  end.

(** A database with one more login record, and one more recording. *)
Definition and_login (db : Db) (l : LoginRecord.t) : Db :=
  set_login_records db (login_records (aux db) ++ [l]).
Definition and_session (db : Db) (l : LoginRecord.t) (r : SessionRecording.t) : Db :=
  set_session_recordings (and_login db l) (session_recordings (aux db) ++ [r]).

Section one_session.
Context (db : Db) (sid id : text) (Hfresh : fresh_session db sid id).

Lemma of_others r : r ∈ login_records (aux db) → of_session sid r = false.
Proof. intros Hr. apply text_eqb_false, (no_login _ _ _ Hfresh r Hr). Qed.
Lemma recorded_others r : r ∈ session_recordings (aux db) → recorded sid r = false.
Proof. intros Hr. apply text_eqb_false, (no_recording _ _ _ Hfresh r Hr). Qed.

Lemma start_login s : Info.SessionID s = sid →
  DatabaseAuditor.AuditLoginStart s db [] = (Ok (), and_login db (DatabaseAuditor.login_record s), []).
Proof.
  intros Hs. unfold DatabaseAuditor.AuditLoginStart, create_login_record, execute.
  rewrite (proj2 (existsb_none _ _)); [done|]. intros r Hr. apply text_eqb_false.
  simpl. rewrite Hs. apply (no_login _ _ _ Hfresh r Hr).
Qed.

Lemma update_login l f : LoginRecord.SessionID l = sid →
  update_login_records sid f (and_login db l) [] = (Ok (), and_login db (f l), []).
Proof.
  intros Hl. unfold update_login_records, execute, and_login.
  change (login_records (aux (set_login_records db _))) with (login_records (aux db) ++ [l]).
  change (λ r, text_eqb (LoginRecord.SessionID r) sid) with (of_session sid).
  rewrite updated_last; [done|apply of_others|]. unfold of_session. by rewrite Hl, text_eqb_refl.
Qed.

Lemma update_login' l r f : LoginRecord.SessionID l = sid →
  update_login_records sid f (and_session db l r) [] = (Ok (), and_session db (f l) r, []).
Proof.
  intros Hl. unfold update_login_records, execute, and_session, and_login.
  change (login_records (aux (set_session_recordings (set_login_records db _) _)))
    with (login_records (aux db) ++ [l]).
  change (λ r, text_eqb (LoginRecord.SessionID r) sid) with (of_session sid).
  rewrite updated_last; [done|apply of_others|]. unfold of_session. by rewrite Hl, text_eqb_refl.
Qed.

Lemma update_session l r f : SessionRecording.SessionID r = sid →
  update_recordings sid f (and_session db l r) [] = (Ok (), and_session db l (f r), []).
Proof.
  intros Hr. unfold update_recordings, execute, and_session.
  change (session_recordings (aux (set_session_recordings (and_login db l) _)))
    with (session_recordings (aux db) ++ [r]).
  change (λ r, text_eqb (SessionRecording.SessionID r) sid) with (recorded sid).
  rewrite updated_last; [done|apply recorded_others|]. unfold recorded. by rewrite Hr, text_eqb_refl.
Qed.

Lemma create_session l r : SessionRecording.SessionID r = sid → SessionRecording.ID r = id →
  create_recording r (and_login db l) [] = (Ok (), and_session db l r, []).
Proof.
  intros Hs Hi. unfold create_recording, execute.
  change (session_recordings (aux (and_login db l))) with (session_recordings (aux db)).
  rewrite (proj2 (existsb_none _ _)); [done|]. intros q Hq.
  destruct (no_recording _ _ _ Hfresh q Hq). rewrite Hs, Hi. by rewrite !text_eqb_false.
Qed.

Lemma find_session l r : SessionRecording.SessionID r = sid →
  DatabaseAuditor.find_recording sid (and_session db l r) [] = (Ok r, and_session db l r, []).
Proof.
  intros Hr. unfold DatabaseAuditor.find_recording, first, query.
  change (session_recordings (aux (and_session db l r))) with (session_recordings (aux db) ++ [r]).
  change (λ r, text_eqb (SessionRecording.SessionID r) sid) with (recorded sid).
  rewrite keep_last; [done|apply recorded_others|]. unfold recorded. by rewrite Hr, text_eqb_refl.
Qed.

Lemma login_success s l : Info.SessionID s = sid → LoginRecord.SessionID l = sid →
  DatabaseAuditor.AuditLoginSuccess id s (and_login db l) [] =
    (Ok (), and_session db (LoginRecord.set_status l (txt "active")) (DatabaseAuditor.recording id s), []).
Proof.
  intros Hs Hl. unfold DatabaseAuditor.AuditLoginSuccess. rewrite Hs, bind_run.
  unfold attempt. rewrite update_login by done. by apply create_session.
Qed.

Lemma session_end l r t data : LoginRecord.SessionID l = sid → SessionRecording.SessionID r = sid →
  let d := t - SessionRecording.StartTime r in
  DatabaseAuditor.AuditSessionEnd sid t data (and_session db l r) [] =
    (Ok (), and_session db (LoginRecord.set_end l t d (txt "completed"))
              (SessionRecording.set_end r t (duration_text d) (txt "closed") data), []).
Proof.
  intros Hl Hr d. unfold DatabaseAuditor.AuditSessionEnd. rewrite bind_run, find_session by done.
  rewrite bind_run, update_session by done. rewrite bind_run. unfold attempt.
  by rewrite update_login' by done.
Qed.

(** The storage finds the login record and updates it by its key. *)
Lemma close_in_db l r t data : LoginRecord.SessionID l = sid → LoginRecord.ID l = sid →
  SessionRecording.SessionID r = sid →
  let d := t - SessionRecording.StartTime r in
  DatabaseStorage.closeSessionInDB t sid data (and_session db l r) [] =
    (Ok (), and_session db (LoginRecord.set_end l t (t - LoginRecord.LoginTime l) (txt "completed"))
              (SessionRecording.set_end r t (duration_text d) (txt "closed") data), []).
Proof.
  intros Hl Hi Hr d. unfold DatabaseStorage.closeSessionInDB.
  rewrite bind_run, find_session by done. rewrite bind_run, update_session by done.
  set (r' := SessionRecording.set_end r t _ _ _).
  rewrite bind_run, caught_run. unfold first, query.
  change (login_records (aux (and_session db l r'))) with (login_records (aux db) ++ [l]).
  change (λ r, text_eqb (LoginRecord.SessionID r) sid) with (of_session sid).
  rewrite keep_last; [|apply of_others|unfold of_session; by rewrite Hl, text_eqb_refl].
  cbv beta iota. rewrite bind_run, attempt_run.
  change (login_records (aux (and_session db l r'))) with (login_records (aux db) ++ [l]).
  rewrite updated_last; [done| |by rewrite text_eqb_refl].
  intros y Hy. apply text_eqb_false. rewrite Hi. apply (no_login _ _ _ Hfresh y Hy).
Qed.
End one_session.

Lemma for_each_app {E A} (body : A → Eff E unit) l k db f :
  for_each body (l ++ k) db f =
    match for_each body l db f with
    | (Ok _, db, f) => for_each body k db f
    | (Err e, db, f) => (Err e, db, f)
    end.
Proof.
  revert db f. induction l as [|x l IH]; intros db f; [done|].
  cbn [app for_each]. rewrite !bind_run. destruct (body x db f) as [[[[]|e] db1] f1]; [apply IH|done].
Qed.

Lemma ignored_run m db db' f f' : m db f = (Ok (), db', f') → ignored m db f = (Ok (), db', f').
Proof. intros Hm. unfold ignored. rewrite bind_run. unfold attempt. by rewrite Hm. Qed.

(** The first call of a trail, when it fails at nothing. *)
Lemma next_call a e t db db1 f : on_trail a e db f = (Ok (), db1, []) →
  for_each (on_trail a) (e :: t) db f = for_each (on_trail a) t db1 [].
Proof. intros He. cbn [for_each]. by rewrite bind_run, He. Qed.

Lemma shows_nothing a pre db f : forallb shows pre = true → for_each (on_trail a) pre db f = (Ok (), db, f).
Proof.
  induction pre as [|e pre IH]; intros Hp; [done|]. cbn [forallb] in Hp.
  apply andb_true_iff in Hp as [He Hp]. cbn [for_each]. rewrite bind_run.
  assert (on_trail a e db f = (Ok (), db, f)) as -> by (by destruct e). by apply IH.
Qed.

(** Later updates win. *)
Lemma login_end_end l t d st t' d' st' :
  LoginRecord.set_end (LoginRecord.set_end l t d st) t' d' st' = LoginRecord.set_end l t' d' st'.
Proof. done. Qed.
Lemma login_end_status l st t d st' :
  LoginRecord.set_end (LoginRecord.set_status l st) t d st' = LoginRecord.set_end l t d st'.
Proof. done. Qed.
Lemma recording_end_end r t d st x t' d' st' x' :
  SessionRecording.set_end (SessionRecording.set_end r t d st x) t' d' st' x' =
  SessionRecording.set_end r t' d' st' x'.
Proof. done. Qed.

(** C33: What an attempt from the SSH terminal leaves in the tables when no
    statement fails, by what happens. When no account is chosen, the attempt
    ends with that error and the tables are as they were. When the host does not
    take the account (its password or key is not accepted, cannot be read, or
    the host does not answer), the attempt ends with an error and there is one
    login record more, failed, with the time. When it takes it, one login record
    more, completed, and one recording, closed, that holds the export of the
    recorder: the empty text the auditor writes first does not replace it. Both
    rows name the user and the host, and nothing stays "connecting" or "active". *)
Theorem ssh_attempt_recorded w repo session host suffix input t err a db :
  handleHostConnection w repo session host suffix input = Returned t err →
  let sid := SessionInfo.SessionID session ++ txt "-" ++ suffix in
  fresh_session db sid (key a) →
  let login logout duration status :=
    {| LoginRecord.ID := sid; LoginRecord.UserID := SessionInfo.UserID session;
       LoginRecord.HostID := HostInfo.ID host; LoginRecord.HostName := HostInfo.Name host;
       LoginRecord.HostIP := HostInfo.IP host; LoginRecord.Username := SessionInfo.Username session;
       LoginRecord.LoginIP := SessionInfo.ClientIP session; LoginRecord.LoginTime := at_start a;
       LoginRecord.LogoutTime := logout; LoginRecord.Duration := duration;
       LoginRecord.Status := status; LoginRecord.SessionID := sid |} in
  let d := at_close a - at_start a in
  let recording :=
    {| SessionRecording.ID := key a; SessionRecording.SessionID := sid;
       SessionRecording.ConnectionType := ssh_gateway; SessionRecording.ProxyID := txt "ssh-gateway";
       SessionRecording.UserID := SessionInfo.UserID session; SessionRecording.HostID := HostInfo.ID host;
       SessionRecording.HostName := HostInfo.Name host; SessionRecording.HostIP := HostInfo.IP host;
       SessionRecording.Username := SessionInfo.Username session;
       SessionRecording.StartTime := at_start a; SessionRecording.EndTime := Some (at_close a);
       SessionRecording.Duration := duration_text d; SessionRecording.Status := txt "closed";
       SessionRecording.Recording := exported a; SessionRecording.CommandCount := 0 |} in
  ∃ db', for_each (on_trail a) t db [] = (Ok (), db', []) ∧
  match (selectSystemUser repo (SessionInfo.UserID session) (HostInfo.ID host) input).2 with
  | Err e => err = Some e ∧ db' = db
  | Ok None => False
  | Ok (Some su) =>
      (¬ logs_in w host su ∧ is_Some err ∧
       db' = and_login db (login (Some (at_end a)) None (txt "failed"))) ∨
      (logs_in w host su ∧ err = None ∧
       db' = and_session db (login (Some (at_close a)) (Some d) (txt "completed")) recording)
  end.
Proof.
  intros Hr sid Hf login0 d recording. apply trail_shape in Hr.
  destruct (selectSystemUser _ _ _ _).2 as [[su|]|e0]; [|done|].
  2: { destruct Hr as [Hs ->]. exists db. split; [by apply shows_nothing|done]. }
  destruct Hr as (pre & s & Hs & Hsid & Hu & Hn & Hip & Hh & Hhip & Hhn & -> & Hin).
  set (info := SSHGatewayAuditorAdapter.unified s (at_start a)).
  assert (info = {| Info.SessionID := sid; Info.ConnectionType := ssh_gateway;
     Info.ProxyID := txt "ssh-gateway"; Info.UserID := SessionInfo.UserID session;
     Info.Username := SessionInfo.Username session; Info.ClientIP := SessionInfo.ClientIP session;
     Info.HostID := HostInfo.ID host; Info.HostIP := HostInfo.IP host;
     Info.HostName := HostInfo.Name host; Info.StartTime := at_start a |}) as Hinfo.
  { unfold info, SSHGatewayAuditorAdapter.unified. rewrite Hsid, Hu, Hn, Hip, Hh, Hhip, Hhn. reflexivity. }
  set (login := DatabaseAuditor.login_record info).
  assert (Info.SessionID info = sid) as Hi by done.
  rewrite for_each_app, shows_nothing by done.
  erewrite next_call by (apply ignored_run, (start_login db sid (key a) Hf info Hi)). fold login.
  destruct err as [e|].
  - erewrite next_call.
    2: { apply ignored_run. cbn [SessionInfo.set_status SessionInfo.SessionID]. rewrite Hsid.
         apply (update_login db sid (key a) Hf). done. }
    eexists. split; [reflexivity|]. left. split; [exact Hin|]. split; [by eexists|].
    unfold login. rewrite Hinfo. reflexivity.
  - set (active := LoginRecord.set_status login (txt "active")).
    set (rec := DatabaseAuditor.recording (key a) info).
    assert (on_trail a (HostSession.AuditConnectionSuccess s) (and_login db login) [] =
      (Ok (), and_session db active rec, [])) as H1.
    { apply ignored_run. exact (login_success db sid (key a) Hf info login Hi Hi). }
    rewrite (next_call _ _ _ _ _ _ H1). erewrite next_call by reflexivity. rewrite Hsid. clear H1.
    pose proof (session_end db sid (key a) Hf active rec (at_end a) [] Hi Hi) as H2. cbv zeta in H2.
    set (ended := LoginRecord.set_end active _ _ _) in H2.
    set (empty := SessionRecording.set_end rec _ _ _ _) in H2.
    assert (on_trail a (HostSession.AuditSessionEnd sid) (and_session db active rec) [] =
      (Ok (), and_session db ended empty, [])) as H3 by exact (ignored_run _ _ _ _ _ H2).
    rewrite (next_call _ _ _ _ _ _ H3).
    pose proof (close_in_db db sid (key a) Hf ended empty (at_close a) (exported a) Hi Hi Hi) as H4.
    cbv zeta in H4.
    assert (on_trail a (HostSession.RecordEnd sid) (and_session db ended empty) [] = _) as H5
      by exact (ignored_run _ _ _ _ _ H4).
    eexists. split; [rewrite (next_call _ _ _ _ _ _ H5); reflexivity|].
    assert (LoginRecord.LoginTime ended = at_start a) as -> by reflexivity.
    assert (SessionRecording.StartTime empty = at_start a) as -> by reflexivity.
    right. split; [exact Hin|]. split; [reflexivity|].
    unfold ended, empty, active. rewrite login_end_end, login_end_status, recording_end_end.
    f_equal.
    + unfold login. rewrite Hinfo. reflexivity.
    + unfold rec. rewrite Hinfo. reflexivity.
Qed.

(** ** The commands of a session *)

Definition commands_of (sid : text) (db : Db) : list CommandRecord.t :=
  keep (λ c, text_eqb (CommandRecord.SessionID c) sid) (command_records (logs (aux db))).
Definition counts (sid : text) (db : Db) : list Z :=
  SessionRecording.CommandCount <$> keep (recorded sid) (session_recordings (aux db)).

Lemma keep_updated {A} (p : A → bool) f l : (∀ x, p (f x) = p x) → keep p (updated p f <$> l) = f <$> keep p l.
Proof.
  intros Hp. induction l as [|x l IH]; [done|]. cbn [fmap list_fmap keep]. unfold updated at 1.
  destruct (p x) eqn:E; [rewrite (Hp x), E|rewrite E; exact IH].
  unfold updated at 1. rewrite E, IH. done.
Qed.

Lemma keep_updated_other {A} (p q : A → bool) f l : (∀ x, q (f x) = q x) →
  (∀ x, p x = true → q x = false) → keep q (updated p f <$> l) = keep q l.
Proof.
  intros Hq Hd. induction l as [|x l IH]; [done|]. cbn [fmap list_fmap keep]. unfold updated at 1.
  destruct (p x) eqn:E; rewrite ?Hq; [rewrite (Hd x E); exact IH|].
  unfold updated at 1. rewrite E. destruct (q x); [by rewrite IH|exact IH].
Qed.

(** One command: its row, and the counts. *)
Lemma one_command c db : ∃ db', DatabaseAuditor.AuditCommand c db [] = (Ok (), db', []) ∧
  (∀ s, (λ c, (CommandRecord.Command c, CommandRecord.Output c)) <$> commands_of s db' =
        ((λ c, (CommandRecord.Command c, CommandRecord.Output c)) <$> commands_of s db) ++
        (if decide (CommandInfo.SessionID c = s) then [(CommandInfo.Command c, CommandInfo.Output c)] else [])) ∧
  (∀ s, counts s db' = if decide (CommandInfo.SessionID c = s) then (λ n, n + 1) <$> counts s db
                       else counts s db).
Proof.
  unfold DatabaseAuditor.AuditCommand, DatabaseAuditor.create_command. rewrite bind_run.
  unfold execute at 1. cbn [tail]. unfold update_recordings. rewrite bind_run, attempt_run.
  eexists. split; [reflexivity|]. split; intros s.
  - unfold commands_of. cbn [aux logs command_records set_session_recordings set_command_records set_logs set_aux].
    rewrite keep_app, fmap_app. cbn [keep]. unfold DatabaseAuditor.command_row at 1. cbn [CommandRecord.SessionID].
    case_decide as E; [by rewrite E, text_eqb_refl|by rewrite text_eqb_false].
  - unfold counts.
    cbn [aux logs session_recordings set_session_recordings set_command_records set_logs set_aux].
    case_decide as E.
    + rewrite E. change (λ r, text_eqb (SessionRecording.SessionID r) s) with (recorded s).
      rewrite keep_updated by done. by rewrite <- !list_fmap_compose.
    + rewrite keep_updated_other; [done|done|]. intros r Hr%text_eqb_true.
      apply text_eqb_false. by rewrite Hr.
Qed.

(** Each command of a session is one row, in the order it was run, and the
    count of its recording follows: [n] commands without a failing statement add
    [n] rows with their texts and [n] to the count, and touch no other session. *)
Theorem commands_counted sid cs db : Forall (λ c, CommandInfo.SessionID c = sid) cs →
  ∃ db', for_each (E := db_error) DatabaseAuditor.AuditCommand cs db [] = (Ok (), db', []) ∧
    (λ c, (CommandRecord.Command c, CommandRecord.Output c)) <$> commands_of sid db' =
      ((λ c, (CommandRecord.Command c, CommandRecord.Output c)) <$> commands_of sid db) ++
      ((λ c, (CommandInfo.Command c, CommandInfo.Output c)) <$> cs) ∧
    counts sid db' = (λ n, n + Z.of_nat (length cs)) <$> counts sid db ∧
    ∀ other, other ≠ sid →
      (λ c, (CommandRecord.Command c, CommandRecord.Output c)) <$> commands_of other db' =
      (λ c, (CommandRecord.Command c, CommandRecord.Output c)) <$> commands_of other db ∧
      counts other db' = counts other db.
Proof.
  intros HF. revert db. induction HF as [|c cs Hc _ IH]; intros db.
  { exists db. split_and!; [done|by rewrite app_nil_r| |by intros].
    rewrite <- (list_fmap_id (counts sid db)) at 1. apply list_fmap_ext. intros i x _. simpl. lia. }
  destruct (one_command c db) as (db1 & Hrun1 & Hrows1 & Hcount1).
  destruct (IH db1) as (db' & Hrun & Hrows & Hcount & Hother). exists db'.
  cbn [for_each]. rewrite bind_run, Hrun1. split; [exact Hrun|]. split_and!.
  - rewrite Hrows, Hrows1, Hc, decide_True, <- app_assoc by done. done.
  - rewrite Hcount, Hcount1, Hc, decide_True, <- list_fmap_compose by done.
    apply list_fmap_ext. intros i x _. simpl. lia.
  - intros other Ho. destruct (Hother other Ho) as [-> ->].
    rewrite Hrows1, Hcount1, Hc, !decide_False by done. by rewrite app_nil_r.
Qed.

(** ** The storage and its workers *)

Section storage_facts.
Import DatabaseStorage.

Lemma set_queue_eq {A} (f : queue → A) q w : set_queue f q w q = w.
Proof. unfold set_queue. by rewrite decide_True. Qed.
Lemma set_queue_ne {A} (f : queue → A) q q' w : q' ≠ q → set_queue f q w q' = f q'.
Proof. intros Hq. unfold set_queue. by rewrite decide_False. Qed.

Lemma storage_ok_new db : storage_ok db (new_storage db).
Proof. split; try done; [intros q; apply channel_ok_new|constructor]. Qed.

(** A request more in a log is one more accepted. *)
Lemma accepted_more st q w b r : log w = log (queues st q) ++ [r] →
  let st' := set_worker st q w b in
  accepted st' SessionQ ++ accepted st' CommandQ ++ accepted st' CloseQ ≡ₚ
  r :: (accepted st SessionQ ++ accepted st CommandQ ++ accepted st CloseQ).
Proof.
  intros Hw st'. unfold accepted, st', set_worker, set_queue. simpl.
  destruct q; simpl; rewrite Hw; solve_Permutation.
Qed.
Lemma accepted_same st q w b q' : log w = log (queues st q) →
  accepted (set_worker st q w b) q' = accepted st q'.
Proof. intros Hw. unfold accepted, set_worker, set_queue. simpl. case_decide; by subst. Qed.

Lemma submit_ok db0 r st : storage_ok db0 st → storage_ok db0 (submit r st).
Proof.
  intros [H1 H2 H3 H4 H5 H6 H7]. unfold submit. destruct (closed st); [by split|].
  split; try done. unfold accepted, done_at_once in *. simpl. rewrite fmap_app. simpl.
  rewrite H5. solve_Permutation.
Qed.

Lemma send_ok db0 i st st' : storage_ok db0 st → send i st = Some st' → storage_ok db0 st'.
Proof.
  intros [H1 H2 H3 H4 H5 H6 H7] Hs. unfold send in Hs.
  destruct (pending st !! i) as [[r []]|] eqn:Ei; [|done..].
  pose proof (fmap_Permutation fst _ _ (delete_Permutation _ _ _ Ei)) as Hp. simpl in Hp.
  destruct (try_send _ _ _) as [c| |] eqn:Es; injection Hs as <-.
  - set (q := queue_of r) in *. pose proof Es as Ec. unfold try_send in Ec.
    destruct (shut (ch (queues st q))) eqn:Esh; [done|]. case_decide; [|done]. injection Ec as <-.
    split; try done.
    + intros q'. simpl. destruct (decide (q' = q)) as [->|Hq]; [rewrite set_queue_eq|by rewrite set_queue_ne].
      eapply channel_step_ok; [apply H1|]. by apply step_sent.
    + intros q'. simpl. destruct (decide (q' = q)) as [->|Hq]; [rewrite set_queue_eq|by rewrite set_queue_ne].
      by rewrite <- H2.
    + intros q'. simpl. destruct (decide (q' = q)) as [->|Hq];
        [rewrite !set_queue_eq; apply H4|rewrite !set_queue_ne by done; apply H4].
    + pose proof (accepted_more st q (Worked (Chan (buf (ch (queues st q)) ++ [r]) false)
        (done_ (queues st q)) (log (queues st q) ++ [r])) (busy st q) r eq_refl) as Ha.
      cbv zeta in Ha. unfold accepted, done_at_once in *. simpl in Ha |- *.
      rewrite Ha, H5, Hp. solve_Permutation.
  - split; try done. unfold accepted, done_at_once in *. simpl. rewrite list_fmap_insert. simpl.
    rewrite (list_insert_id (pending st).*1 i r); [done|]. by rewrite list_lookup_fmap, Ei.
  - split; try done; simpl.
    + unfold accepted, done_at_once in *. simpl. rewrite H5, Hp. solve_Permutation.
    + intros Hc. exfalso. unfold try_send in Es. rewrite H2, Hc in Es. simpl in Es. by case_decide.
Qed.

Lemma happened_replay db0 st e : db st = replay db0 (history st) →
  db (happened st e) = replay db0 (history (happened st e)).
Proof. intros Hd. simpl. unfold replay in *. by rewrite foldl_app, Hd. Qed.

Lemma fall_back_ok db0 now i f st st' : storage_ok db0 st → fall_back now i f st = Some st' → storage_ok db0 st'.
Proof.
  intros [H1 H2 H3 H4 H5 H6 H7] Hs. unfold fall_back in Hs.
  destruct (pending st !! i) as [[r []]|] eqn:Ei; [done| |done].
  pose proof (fmap_Permutation fst _ _ (delete_Permutation _ _ _ Ei)) as Hp. simpl in Hp.
  injection Hs as <-. split; try done.
  - intros q. unfold finished in *. simpl. rewrite H4, omap_app. simpl. by rewrite app_nil_r.
  - unfold accepted, done_at_once in *. simpl. rewrite omap_app. simpl. rewrite H5, Hp. solve_Permutation.
  - by apply happened_replay.
Qed.

Lemma take_ok db0 q st st' : storage_ok db0 st → take q st = Some st' → storage_ok db0 st'.
Proof.
  intros [H1 H2 H3 H4 H5 H6 H7] Hs. unfold take in Hs.
  destruct (busy st q) eqn:Eb; [done|]. destruct (recv _) as [[r c]|] eqn:Er; [|done].
  injection Hs as <-. split; try done.
  - intros q'. simpl. destruct (decide (q' = q)) as [->|Hq]; [rewrite set_queue_eq|by rewrite set_queue_ne].
    eapply channel_step_ok; [apply H1|]. by apply step_taken.
  - intros q'. simpl. destruct (decide (q' = q)) as [->|Hq]; [rewrite set_queue_eq|by rewrite set_queue_ne].
    rewrite <- H2. unfold recv in Er. by destruct (buf _); simplify_eq.
  - intros q'. simpl. destruct (decide (q' = q)) as [->|Hq].
    + rewrite !set_queue_eq. simpl. by rewrite H4, Eb, app_nil_r.
    + rewrite !set_queue_ne by done. apply H4.
  - rewrite !accepted_same by done. done.
Qed.

Lemma work_ok db0 now q f st st' : storage_ok db0 st → work now q f st = Some st' → storage_ok db0 st'.
Proof.
  intros [H1 H2 H3 H4 H5 H6 H7] Hs. unfold work in Hs. destruct (busy st q) as [r|] eqn:Eb; [|done].
  injection Hs as <-.
  assert (∀ q', set_queue (queues st) q (queues st q) q' = queues st q') as Hsame.
  { intros q'. unfold set_queue. case_decide; by subst. }
  split; try done; unfold accepted, finished, done_at_once; simpl.
  - intros q'. rewrite Hsame. apply H1.
  - intros q'. rewrite Hsame. apply H2.
  - intros q'. rewrite Hsame, H4, omap_app. simpl. unfold set_queue.
    destruct (decide (q' = q)) as [->|Hq].
    + rewrite decide_True by done. by rewrite Eb, app_nil_r.
    + rewrite decide_False by done. by rewrite app_nil_r.
  - rewrite !Hsame, omap_app, app_nil_r. exact H5.
  - exact (happened_replay db0 st (ByWorker q now r f) H6).
Qed.

Lemma close_next_ok db0 st st' : storage_ok db0 st → close_next st = Some st' → storage_ok db0 st'.
Proof.
  intros [H1 H2 H3 H4 H5 H6 H7] Hs. unfold close_next in Hs.
  destruct (closing st) as [[|q qs]|] eqn:Ec; [done| |done]. simpl in H3.
  destruct (close_chan _) as [c|] eqn:Ecc; [|done]. injection Hs as <-.
  apply NoDup_cons in H3 as [Hq HN]. unfold close_chan in Ecc.
  destruct (shut (ch (queues st q))) eqn:Esh; [done|]. injection Ecc as <-.
  split; try done.
  - intros q'. simpl. destruct (decide (q' = q)) as [->|Hn]; [rewrite set_queue_eq|by rewrite set_queue_ne].
    eapply channel_step_ok; [apply H1|]. apply step_shut. unfold close_chan. by rewrite Esh.
  - intros q'. simpl. destruct (decide (q' = q)) as [->|Hn].
    + rewrite set_queue_eq. simpl. by rewrite bool_decide_true.
    + rewrite set_queue_ne, H2 by done. simpl. apply bool_decide_ext. set_solver.
  - intros q'. simpl. destruct (decide (q' = q)) as [->|Hn];
      [rewrite !set_queue_eq; apply H4|rewrite !set_queue_ne by done; apply H4].
  - unfold set_closing, accepted at 1 2 3, done_at_once. simpl.
    pose proof (accepted_same st q (Worked (Chan (buf (ch (queues st q))) true) (done_ (queues st q))
      (log (queues st q))) (busy st q)) as Hsame. unfold accepted, set_worker in Hsame. simpl in Hsame.
    rewrite !Hsame by done. exact H5.
Qed.

Lemma storage_step_ok db0 st st' : storage_ok db0 st → storage_step st st' → storage_ok db0 st'.
Proof.
  intros Hok [l Hl]. destruct l; simpl in Hl.
  - injection Hl as <-. by apply submit_ok.
  - by eapply send_ok.
  - by eapply fall_back_ok.
  - by eapply take_ok.
  - by eapply work_ok.
  - injection Hl as <-. unfold Close, closed. destruct (closing st) eqn:Ec; [done|].
    destruct Hok as [H1 H2 H3 H4 H5 H6 H7]. split; try done.
    + intros q. cbn [set_closing closing queues]. rewrite H2, Ec. symmetry. apply bool_decide_false.
      intros Hn. apply Hn. destruct q; set_solver.
    + simpl. repeat constructor; set_solver.
  - by eapply close_next_ok.
  - injection Hl as <-. destruct Hok as [H1 H2 H3 H4 H5 H6 H7]. split; try done.
    + intros q. unfold finished in *. simpl. rewrite H4, omap_app. simpl. by rewrite app_nil_r.
    + unfold done_at_once, accepted in *. simpl. by rewrite omap_app, app_nil_r.
    + by apply happened_replay.
Qed.

Lemma storage_reachable db st : rtc storage_step (new_storage db) st → storage_ok db st.
Proof.
  intros H. remember (new_storage db) as st0 eqn:E.
  assert (storage_ok db st0) as H0 by (subst; apply storage_ok_new). clear E.
  induction H as [|st0 st1 st2 Hs _ IH]; [done|]. apply IH. by eapply storage_step_ok.
Qed.

Lemma exec_all_steps ls st st' : exec_all ls st = Some st' → rtc storage_step st st'.
Proof.
  revert st. induction ls as [|l ls IH]; intros st He; [by injection He as <-|].
  simpl in He. destruct (exec l st) as [st1|] eqn:E; [|done].
  eapply rtc_l; [by exists l|by apply IH].
Qed.

(** *** The end of the wait *)

(** What the worker of one queue leaves alone. *)
Record only_worked (q : queue) (st st' : state) : Prop := {
  same_closing : closing st' = closing st;
  same_accepted q' : accepted st' q' = accepted st q';
  same_panicked : panicked st' = panicked st;
  same_pending : pending st' = pending st;
  same_others q' : q' ≠ q → buf (ch (queues st' q')) = buf (ch (queues st q')) ∧ busy st' q' = busy st q'
}.
Lemma only_worked_trans q st1 st2 st3 : only_worked q st1 st2 → only_worked q st2 st3 → only_worked q st1 st3.
Proof.
  intros [A1 A2 A3 A4 A5] [B1 B2 B3 B4 B5]. split; [congruence|intros; congruence|congruence..|].
  intros q' Hq. destruct (A5 q' Hq), (B5 q' Hq). split; congruence.
Qed.

Lemma worker_idles q st : ∃ st', rtc storage_step st st' ∧ busy st' q = None ∧
  buf (ch (queues st' q)) = buf (ch (queues st q)) ∧ only_worked q st st'.
Proof.
  destruct (busy st q) as [r|] eqn:E; [|exists st; by split_and!].
  eexists. split; [apply rtc_once; exists (Work 0 q []); simpl; unfold work; by rewrite E|].
  split; [simpl; by rewrite set_queue_eq|]. split; [simpl; by rewrite set_queue_eq|].
  split; try done.
  - intros q'. unfold accepted. simpl. unfold set_queue. case_decide; by subst.
  - intros q' Hq. simpl. by rewrite !set_queue_ne.
Qed.

Lemma empty_queue q st : ∃ st', rtc storage_step st st' ∧ busy st' q = None ∧
  buf (ch (queues st' q)) = [] ∧ only_worked q st st'.
Proof.
  remember (buf (ch (queues st q))) as b eqn:E. symmetry in E. revert st E.
  induction b as [|r b IH]; intros st E; destruct (worker_idles q st) as (st1 & H1 & Hb & Hq & Ho).
  { exists st1. split_and!; [done..|congruence|done]. }
  set (st2 := set_worker st1 q (Worked (Chan b (shut (ch (queues st1 q)))) (done_ (queues st1 q) ++ [r])
                                  (log (queues st1 q))) (Some r)).
  assert (storage_step st1 st2) as Hs.
  { exists (Take q). simpl. unfold take, recv. rewrite Hb, Hq, E. reflexivity. }
  destruct (IH st2) as (st3 & H3 & Hb3 & Hq3 & Ho3); [simpl; by rewrite set_queue_eq|].
  exists st3. split; [etransitivity; [exact H1|by eapply rtc_l]|]. split; [done|]. split; [done|].
  eapply only_worked_trans; [exact Ho|]. eapply only_worked_trans; [|exact Ho3].
  split; try done; [intros q'; by apply accepted_same|]. intros q' Hn. simpl. by rewrite !set_queue_ne.
Qed.

Lemma close_rest db0 qs st : storage_ok db0 st → closing st = Some qs →
  ∃ st', rtc storage_step st st' ∧ closing st' = Some [] ∧ panicked st' = panicked st ∧
    ∀ q, accepted st' q = accepted st q.
Proof.
  revert st. induction qs as [|q qs IH]; intros st Hok Hc; [by exists st|].
  assert (∃ st1, close_next st = Some st1 ∧ closing st1 = Some qs ∧ panicked st1 = panicked st ∧
            ∀ q, accepted st1 q = accepted st q) as (st1 & Hs & Hc1 & Hp1 & Ha1).
  { unfold close_next. rewrite Hc. unfold close_chan.
    rewrite (queues_shut _ _ Hok q), Hc. simpl. rewrite bool_decide_false by set_solver.
    eexists. split; [reflexivity|]. split_and!; try done. intros q'. by apply accepted_same. }
  assert (storage_step st st1) as Hstep by by exists CloseNext.
  destruct (IH st1) as (st2 & H2 & Hc2 & Hp2 & Ha2); [by eapply storage_step_ok|done|].
  exists st2. split_and!; [by eapply rtc_l|done|congruence|]. intros q'. by rewrite Ha2.
Qed.

Lemma drains db0 st : storage_ok db0 st → ∃ st', rtc storage_step st st' ∧ drained st' ∧
  panicked st' = panicked st ∧ ∀ q, accepted st' q = accepted st q.
Proof.
  intros Hok.
  assert (∃ qs, closing (Close st) = Some qs ∧ panicked (Close st) = panicked st ∧
            ∀ q, accepted (Close st) q = accepted st q) as (qs & Hc & Hp & Ha).
  { unfold Close, closed. destruct (closing st) as [qs|] eqn:E; [by exists qs|]. by eexists. }
  assert (storage_step st (Close st)) as Hs by by exists CloseFlag.
  destruct (close_rest db0 qs (Close st)) as (st0 & H0 & Hc0 & Hp0 & Ha0);
    [by eapply storage_step_ok|done|].
  destruct (empty_queue SessionQ st0) as (st1 & H1 & Hb1 & Hq1 & [C1 A1 P1 _ _]).
  destruct (empty_queue CommandQ st1) as (st2 & H2 & Hb2 & Hq2 & [C2 A2 P2 _ O2]).
  destruct (empty_queue CloseQ st2) as (st3 & H3 & Hb3 & Hq3 & [C3 A3 P3 _ O3]).
  exists st3. split; [eapply rtc_l; [exact Hs|]; do 3 (etransitivity; [eassumption|]); exact H3|].
  split; [split; [congruence|]|split; [congruence|intros q; by rewrite A3, A2, A1, Ha0, Ha]].
  destruct (O2 SessionQ) as [B21 B22]; [done|]. destruct (O3 SessionQ) as [B31 B32]; [done|].
  destruct (O3 CommandQ) as [B41 B42]; [done|].
  intros []; split; congruence.
Qed.

(** Once every queue is closed nothing more is accepted. *)
Lemma shut_accepts_nothing db0 st st' : storage_ok db0 st → closing st = Some [] →
  storage_step st st' → closing st' = Some [] ∧ ∀ q, accepted st' q = accepted st q.
Proof.
  intros Hok Hc [l Hl]. destruct l; simpl in Hl.
  - injection Hl as <-. unfold submit, closed. by rewrite Hc.
  - unfold send in Hl. destruct (pending st !! i) as [[r []]|]; [|done..].
    unfold try_send in Hl. rewrite (queues_shut _ _ Hok), Hc in Hl. by injection Hl as <-.
  - unfold fall_back in Hl. destruct (pending st !! i) as [[r []]|]; [done| |done]. by injection Hl as <-.
  - unfold take in Hl. destruct (busy st q); [done|]. destruct (recv _) as [[r c]|]; [|done].
    injection Hl as <-. split; [done|]. intros q'. by apply accepted_same.
  - unfold work in Hl. destruct (busy st q); [|done]. injection Hl as <-. split; [done|].
    intros q'. exact (accepted_same st q (queues st q) None q' eq_refl).
  - injection Hl as <-. unfold Close, closed. by rewrite Hc.
  - unfold close_next in Hl. by rewrite Hc in Hl.
  - by injection Hl as <-.
Qed.

Lemma shut_for_good db0 st st' : storage_ok db0 st → closing st = Some [] → rtc storage_step st st' →
  ∀ q, accepted st' q = accepted st q.
Proof.
  intros Hok Hc Hr. induction Hr as [|st st1 st' Hs _ IH]; [done|]. intros q.
  destruct (shut_accepts_nothing _ _ _ Hok Hc Hs) as [Hc1 Ha].
  rewrite IH; [apply Ha|by eapply storage_step_ok|done].
Qed.

End storage_facts.

(** The adapter of the web terminal drops every status but a failure. *)
Lemma status_ignored `{Auditor} sid status t db f : status ≠ txt "failed" →
  WebShellStorageAdapter.UpdateLoginRecordStatus sid status t db f = (Ok (), db, f).
Proof. intros Hs. unfold WebShellStorageAdapter.UpdateLoginRecordStatus. by rewrite text_eqb_false. Qed.

(** ** Witnesses *)

Definition an_attempt : attempt_data :=
  {| key := txt "k1"; at_start := 100; at_end := 160; at_close := 161; exported := txt "cast" |}.

(** An account is chosen, the host answers, the user logs out after a minute. *)
Lemma ssh_attempt_recorded_witness :
  ∃ t db', handleHostConnection (sample_world (Ok ())) (Some two_accounts) sample_session
             Menu.sample_host (txt "ab12") (Some (txt "2" ++ [13])) = Returned t None ∧
    for_each (on_trail an_attempt) t empty_db [] = (Ok (), db', []) ∧
    (LoginRecord.Status <$> login_records (aux db')) = [txt "completed"] ∧
    (SessionRecording.Recording <$> session_recordings (aux db')) = [txt "cast"].
Proof.
  eexists.
  destruct (ssh_attempt_recorded (sample_world (Ok ())) (Some two_accounts) sample_session
    Menu.sample_host (txt "ab12") (Some (txt "2" ++ [13])) _ None an_attempt empty_db eq_refl)
    as (db' & Hrun & Hdb).
  - split; intros r Hr; by apply not_elem_of_nil in Hr.
  - exists db'. split; [reflexivity|]. split; [exact Hrun|].
    change (selectSystemUser _ _ _ _).2 with (Ok (E := text) (Some (sample_account (txt "app")))) in Hdb.
    destruct Hdb as [(_ & [e He] & _)|(_ & _ & ->)]; [discriminate He|].
    split; reflexivity.
Defined.

Definition a_command (c : text) : CommandInfo.t :=
  {| CommandInfo.SessionID := txt "s1"; CommandInfo.ProxyID := []; CommandInfo.HostID := txt "h1";
     CommandInfo.HostIP := []; CommandInfo.UserID := txt "u1"; CommandInfo.Username := txt "bob";
     CommandInfo.Command := c; CommandInfo.Output := []; CommandInfo.ExitCode := 0;
     CommandInfo.ExecutedAt := 0; CommandInfo.DurationMs := 0 |}.
Definition a_login : Info.t :=
  {| Info.SessionID := txt "s1"; Info.ConnectionType := ssh_gateway; Info.ProxyID := [];
     Info.UserID := txt "u1"; Info.Username := txt "bob"; Info.ClientIP := []; Info.HostID := txt "h1";
     Info.HostIP := []; Info.HostName := []; Info.StartTime := 0 |}.
Definition open_db : Db :=
  and_session empty_db (DatabaseAuditor.login_record a_login) (DatabaseAuditor.recording (txt "k") a_login).

Lemma commands_counted_witness :
  ∃ db', for_each (E := db_error) DatabaseAuditor.AuditCommand [a_command (txt "ls"); a_command (txt "id")]
           open_db [] = (Ok (), db', []) ∧ counts (txt "s1") db' = [2].
Proof.
  destruct (commands_counted (txt "s1") [a_command (txt "ls"); a_command (txt "id")] open_db)
    as (db' & Hrun & _ & Hc & _).
  - repeat constructor.
  - exists db'. split; [exact Hrun|]. rewrite Hc. vm_compute. reflexivity.
Defined.

Definition a_session : SessionRecord.t :=
  {| SessionRecord.ProxyID := txt "p1"; SessionRecord.SessionID := txt "s1"; SessionRecord.HostID := txt "h1";
     SessionRecord.HostName := []; SessionRecord.UserID := txt "u1"; SessionRecord.Username := txt "bob";
     SessionRecord.HostIP := []; SessionRecord.StartTime := 0; SessionRecord.EndTime := None;
     SessionRecord.Status := txt "active"; SessionRecord.Recording := [] |}.

Import DatabaseStorage.


(** [Close] between the test of a caller and its send: the send is on a closed
    queue, and panics. *)
Theorem send_after_close :
  let r := CommandReq (a_command (txt "ls")) in
  match exec_all [Submit r; CloseFlag; CloseNext; CloseNext; Send 0] (new_storage empty_db) with
  | Some st => panicked st = [r] ∧ finished st CommandQ = []
  | None => False
  end.
Proof. vm_compute. split; reflexivity. Qed.

(** The queues are not ordered among each other: a session that is saved and
    then closed can be closed first; the request to close then finds no row and is
    dropped, with the recording it carries, and the row saved afterwards stays
    open, although every request was accepted and done. *)
Theorem close_overtakes_save :
  let save := SessionReq a_session in
  let close := CloseReq {| sessionID := txt "s1"; recording := txt "cast" |} in
  match exec_all [Submit save; Send 0; Submit close; Send 0; Take CloseQ; Work 9 CloseQ [];
                  Take SessionQ; Work 9 SessionQ []; CloseFlag; CloseNext; CloseNext; CloseNext]
          (new_storage empty_db) with
  | Some st => drained st ∧ finished st SessionQ = [save] ∧ finished st CloseQ = [close] ∧
               session_recordings (aux (db st)) = [row_of a_session]
  | None => False
  end.
Proof. vm_compute. split; [split; [reflexivity|by intros []]|]. split_and!; reflexivity. Qed.
