(* ===== verification/Settings.v ===== *)
(** * The settings

    [internal/repository/setting_repository.go] and
    [internal/api/handler/setting_handler.go]: the writes of the table of
    settings, the two formats of a request, and what a change sets off.  A JSON
    value that is no string, boolean or number is known by the text that [%v]
    makes of it.  gorm leaves a zero field out of a condition, so the empty key
    matches every row. *)

From stdpp Require Import base list strings gmap.
From Stdlib Require Import ZArith Lia.
From S2P Require Import Prelude GoStrings Gorm Models Database Repositories Accounts TwoFactor HostMonitor.
Local Open Scope Z_scope.

(** ** The repository *)

Definition by_key (key : text) (s : Setting.t) : bool := is_empty key || text_eqb (Setting.Key s) key.

Definition GetAll : DB (list Setting.t) := find settings.
Definition GetByCategory (category : text) : DB (list Setting.t) :=
  find (λ db, keep (λ s, text_eqb (Setting.Category s) category) (settings db)).

(** The key of the row is new, and the index on [key] unique. *)
Definition create_setting (s : Setting.t) : DB unit := execute (λ db,
  if existsb (λ q, text_eqb (Setting.Key q) (Setting.Key s)) (settings db) then Err DuplicatedKey
  else Ok (set_settings db (settings db ++
         [{| Setting.ID := next_id Setting.ID (settings db); Setting.Key := Setting.Key s;
             Setting.Value := Setting.Value s; Setting.Category := Setting.Category s;
             Setting.Type_ := Setting.Type_ s |}]))).

(** The columns an update writes. *)
Definition overwrite (new old : Setting.t) : Setting.t :=
  {| Setting.ID := Setting.ID old; Setting.Key := Setting.Key old; Setting.Value := Setting.Value new;
     Setting.Category := Setting.Category new; Setting.Type_ := Setting.Type_ new |}.

Definition Upsert (setting : Setting.t) : DB unit :=
  existing ← caught (first (λ db, keep (by_key (Setting.Key setting)) (settings db)));
  match existing with
  | Err RecordNotFound => create_setting setting
  | Err e => raise e
  | Ok existing => execute (λ db, Ok (set_settings db
      (updated (λ s, Setting.ID s =? Setting.ID existing) (overwrite setting) <$> settings db)))
  end.

(** [BatchUpsert]: the same two statements for each, in a transaction. *)
Definition BatchUpsert (l : list Setting.t) : DB unit := Transaction (for_each Upsert l).

(** gorm refuses to delete without a condition. *)
Definition Delete (key : text) : DB unit :=
  if is_empty key then raise DBFailure
  else execute (λ db, Ok (set_settings db (keep (λ s, negb (text_eqb (Setting.Key s) key)) (settings db)))).

(** ** The requests *)

Inductive scalar := Str (s : text) | Bool (b : bool) | Num (shown : text) | Other (shown : text).

(** The type and the text of a value, as stored. *)
Definition typed (v : scalar) : text * text :=
  match v with
  | Str s => (txt "string", s)
  | Bool b => (txt "boolean", if b then txt "true" else txt "false")
  | Num s => (txt "number", s)
  | Other s => (txt "string", s)
  end.

(** A value of the request: an object, with its fields, or anything else.  A
    list stands for the order in which Go happens to visit a map. *)
Inductive entry := Object (fields : list (text * scalar)) | NoObject.

Definition field (name : text) (fields : list (text * scalar)) : option scalar :=
  match keep (λ f, text_eqb f.1 name) fields with f :: _ => Some f.2 | [] => None end.

Definition new_setting (key category : text) (v : scalar) : Setting.t :=
  {| Setting.ID := 0; Setting.Key := key; Setting.Value := (typed v).2;
     Setting.Category := category; Setting.Type_ := (typed v).1 |}.

(** The new format has a value and a category for a key; the old one, keys and
    values for a category. *)
Definition settings_of_entry (key : text) (e : entry) : list Setting.t :=
  match e with
  | NoObject => []
  | Object fields =>
      match field (txt "value") fields, field (txt "category") fields with
      | Some val, Some cat => [new_setting key (typed cat).2 val]
      | _, _ => (λ f, new_setting f.1 key f.2) <$> fields
      end
  end.

Definition settings_of (request : list (text * entry)) : list Setting.t :=
  mjoin ((λ e, settings_of_entry e.1 e.2) <$> request).

(** What an update sets off. *)
Inductive effect := ReloadNotifications | ReloadHostMonitor | Publish (key value : text).

(** What the handler was given. *)
Record wiring := { has_notifications : bool; has_monitor : bool; has_sync : bool }.

Section handler.
Context (err_text : db_error → text).

Definition UpdateSettings (w : wiring) (request : option (list (text * entry)))
    : Http (list effect) :=
  match request with
  | None => raise (400, txt "Invalid request: ")
  | Some request =>
      let l := settings_of request in
      _ ← or_fail (λ e, (500, txt "Failed to update settings: " ++ err_text e)) (BatchUpsert l);
      let of_category c := keep (λ s, text_eqb (Setting.Category s) (txt c)) l in
      let notify := if negb (is_empty (of_category "notification"%string)) && has_notifications w
                    then [ReloadNotifications] else [] in
      let monitor :=
        if negb (is_empty (of_category "host_monitor"%string)) && has_monitor w then
          ReloadHostMonitor ::
          (if has_sync w then (λ s, Publish (Setting.Key s) (Setting.Value s)) <$> of_category "host_monitor"%string
           else [])
        else [] in
      mret (notify ++ monitor)
  end.

(** [UpdateSetting]: all three fields are required, the value not null. *)
Definition UpdateSetting (key category : text) (value : option scalar) : Http Setting.t :=
  match value with
  | Some value =>
      if is_empty key || is_empty category then raise (400, txt "Invalid request: ")
      else
        let setting := new_setting key category value in
        _ ← or_fail (λ e, (500, txt "Failed to update setting: " ++ err_text e)) (Upsert setting);
        mret setting
  | None => raise (400, txt "Invalid request: ")
  end.

Definition DeleteSetting (key : text) : Http unit :=
  or_fail (λ e, (500, txt "Failed to delete setting: " ++ err_text e)) (Delete key).

(** The answers are maps; a later row of the same key would win. *)
Definition in_category (m : gmap text (gmap text text)) (s : Setting.t) : gmap text (gmap text text) :=
  <[Setting.Category s := <[Setting.Key s := Setting.Value s]> (default ∅ (m !! Setting.Category s))]> m.
Definition GetAllSettings : Http (gmap text (gmap text text)) :=
  l ← or_fail (λ e, (500, txt "Failed to get settings: " ++ err_text e)) GetAll;
  mret (foldl in_category ∅ l).

Definition as_map (l : list Setting.t) : gmap text text :=
  foldl (λ m s, <[Setting.Key s := Setting.Value s]> m) ∅ l.
Definition GetSettingsByCategory (category : text) : Http (gmap text text) :=
  l ← or_fail (λ e, (500, txt "Failed to get settings: " ++ err_text e)) (GetByCategory category);
  mret (as_map l).

(** Without signing in. *)
Definition GetPublicSettings : Http (gmap text text) :=
  l ← or_fail (λ e, (500, txt "Failed to get public settings: " ++ err_text e))
        (GetByCategory (txt "system"));
  mret (as_map l).

Record auth_methods := { password : bool; ldap : bool; sso : bool; primary : text }.
Definition GetAuthMethods : Http auth_methods :=
  l ← attempt (GetByCategory (txt "auth"));
  let authMethod := match keep (λ s, text_eqb (Setting.Key s) (txt "authMethod")) (default [] l) with
                    | s :: _ => Setting.Value s
                    | [] => txt "password"
                    end in
  mret {| password := text_eqb authMethod (txt "password"); ldap := text_eqb authMethod (txt "ldap");
          sso := text_eqb authMethod (txt "sso"); primary := authMethod |}.
End handler.

(** ** The table as a map *)

(** What a key is set to: value, category, type. *)
Definition entry_of (s : Setting.t) : text * text * text :=
  (Setting.Value s, Setting.Category s, Setting.Type_ s).
Definition settings_map (db : Db) : gmap text (text * text * text) :=
  list_to_map ((λ s, (Setting.Key s, entry_of s)) <$> settings db).

(** Keys and ids are unique, no key is empty. *)
Record settings_ok (db : Db) : Prop := {
  ids_unique : NoDup (Setting.ID <$> settings db);
  keys_unique : NoDup (Setting.Key <$> settings db);
  ids_positive : Forall (λ s, 0 <= Setting.ID s) (settings db)
}.

Lemma next_id_above {A} (id : A → Z) l x : x ∈ l → id x < next_id id l.
Proof.
  intros Hx. unfold next_id. assert (id x <= foldr (λ x m, Z.max (id x) m) 0 l); [|lia].
  induction Hx as [x l|x y l _ IH]; simpl; lia.
Qed.

Lemma settings_map_elem db k v : settings_ok db →
  settings_map db !! k = Some v ↔ ∃ s, s ∈ settings db ∧ Setting.Key s = k ∧ entry_of s = v.
Proof.
  intros Hok. unfold settings_map. rewrite <- elem_of_list_to_map.
  - rewrite list_elem_of_fmap. split.
    + intros (s & [= -> ->] & Hs). eauto.
    + intros (s & Hs & <- & <-). eauto.
  - rewrite <- list_fmap_compose. apply Hok.
Qed.

Lemma same_row {A K} (key : A → K) (l : list A) a b : NoDup (key <$> l) → a ∈ l → b ∈ l → key a = key b → a = b.
Proof.
  intros Hn [i Hi]%list_elem_of_lookup [j Hj]%list_elem_of_lookup E.
  assert (i = j) as ->.
  { eapply (NoDup_lookup (key <$> l)); [done|rewrite list_lookup_fmap, Hi; reflexivity|].
    rewrite list_lookup_fmap, Hj, E. done. }
  congruence.
Qed.

(** An update of one row, and the creation of one. *)
Lemma overwrite_ok s old db : settings_ok db → old ∈ settings db → Setting.Key old = Setting.Key s →
  let db' := set_settings db
    (updated (λ q, Setting.ID q =? Setting.ID old) (overwrite s) <$> settings db) in
  settings_ok db' ∧ settings_map db' = <[Setting.Key s := entry_of s]> (settings_map db).
Proof.
  intros Hok Hold Hk db'.
  assert (∀ q, Setting.ID (updated (λ q, Setting.ID q =? Setting.ID old) (overwrite s) q) = Setting.ID q ∧
               Setting.Key (updated (λ q, Setting.ID q =? Setting.ID old) (overwrite s) q) = Setting.Key q) as Hu.
  { intros q. unfold updated. by destruct (_ =? _). }
  assert (settings_ok db') as Hok'.
  { destruct Hok as [Hi Hks Hp]. split; simpl; rewrite <- ?list_fmap_compose.
    - erewrite list_fmap_ext; [exact Hi|]. intros i q _. apply Hu.
    - erewrite list_fmap_ext; [exact Hks|]. intros i q _. apply Hu.
    - apply Forall_fmap. eapply Forall_impl; [exact Hp|]. intros q Hq. simpl. by rewrite (proj1 (Hu q)). }
  split; [done|]. apply map_eq. intros k. apply option_eq. intros v.
  rewrite (settings_map_elem _ _ _ Hok'), lookup_insert_Some, (settings_map_elem _ _ _ Hok). simpl. split.
  - intros (q' & (q & -> & Hq)%list_elem_of_fmap & Hkey & <-). rewrite (proj2 (Hu q)) in Hkey. subst k.
    unfold updated. destruct (Setting.ID q =? Setting.ID old) eqn:E.
    + apply Z.eqb_eq in E. assert (q = old) as -> by (by eapply (same_row Setting.ID); [apply Hok|done..]). by left.
    + right. split; [|eauto]. intros E'. apply Z.eqb_neq in E. destruct E. f_equal.
      eapply (same_row Setting.Key); [apply Hok|done..|congruence].
  - intros [ [<- <-] | (Hne & q & Hq & <- & <-)].
    + exists (overwrite s old). split; [|by rewrite <- Hk].
      apply list_elem_of_fmap. exists old. split; [|done]. unfold updated. by rewrite Z.eqb_refl.
    + exists q. split; [|done]. apply list_elem_of_fmap. exists q. split; [|done]. unfold updated.
      destruct (Setting.ID q =? Setting.ID old) eqn:E; [|done]. apply Z.eqb_eq in E.
      assert (q = old) as -> by (by eapply (same_row Setting.ID); [apply Hok|done..]). by rewrite Hk in Hne.
Qed.

Lemma create_ok s db db' : settings_ok db →
  (∀ q, q ∈ settings db → Setting.Key q ≠ Setting.Key s) →
  (let s' := {| Setting.ID := next_id Setting.ID (settings db); Setting.Key := Setting.Key s;
                Setting.Value := Setting.Value s; Setting.Category := Setting.Category s;
                Setting.Type_ := Setting.Type_ s |} in
   db' = set_settings db (settings db ++ [s'])) →
  settings_ok db' ∧ settings_map db' = <[Setting.Key s := entry_of s]> (settings_map db).
Proof.
  intros Hok Hnew ->. set (s' := {| Setting.ID := _ |}).
  assert (settings_ok (set_settings db (settings db ++ [s']))) as Hok'.
  { destruct Hok as [Hi Hk Hp]. split; simpl; rewrite ?fmap_app.
    - apply NoDup_app. split_and!; [done| |apply NoDup_singleton].
      intros i (q & -> & Hq)%list_elem_of_fmap Hs%list_elem_of_singleton.
      pose proof (next_id_above Setting.ID _ _ Hq) as Hlt. simpl in Hs. lia.
    - apply NoDup_app. split_and!; [done| |apply NoDup_singleton].
      intros k (q & -> & Hq)%list_elem_of_fmap Hs%list_elem_of_singleton. by apply (Hnew q).
    - apply Forall_app. split; [done|]. apply Forall_singleton. simpl. unfold next_id.
      assert (0 <= foldr (λ x m, Z.max (Setting.ID x) m) 0 (settings db)); [|lia].
      clear. induction (settings db); simpl; lia. }
  split; [done|]. apply map_eq. intros k. apply option_eq. intros v.
  rewrite (settings_map_elem _ _ _ Hok'), lookup_insert_Some, (settings_map_elem _ _ _ Hok). simpl. split.
  - intros (q & [Hq | ->%list_elem_of_singleton]%elem_of_app & <- & <-); [|by left].
    right. split; [|eauto]. intros E. by apply (Hnew q Hq).
  - intros [ [<- <-] | (_ & q & Hq & <- & <-)].
    + exists s'. split; [apply elem_of_app; right; by apply list_elem_of_singleton|done].
    + exists q. split; [apply elem_of_app; by left|done].
Qed.

(** *** Upsert *)

Lemma by_key_real key s : is_empty key = false → by_key key s = text_eqb (Setting.Key s) key.
Proof. intros Hk. unfold by_key. by rewrite Hk. Qed.

Lemma Upsert_Ok s db f db' f' : settings_ok db → is_empty (Setting.Key s) = false →
  Upsert s db f = (Ok (), db', f') →
  settings_ok db' ∧ settings_map db' = <[Setting.Key s := entry_of s]> (settings_map db).
Proof.
  intros Hok Hk. unfold Upsert. intros (r & db1 & f1 & Hr & Hrun)%bind_Ok. apply caught_Ok in Hr.
  destruct r as [old|[]]; [| |done..].
  - apply first_keep_Ok in Hr as (Hold & Hkey & ->). rewrite by_key_real in Hkey by done.
    apply text_eqb_true in Hkey. apply execute_Ok in Hrun. injection Hrun as <-. by apply overwrite_ok.
  - apply (f_equal (λ x, x.1.2)) in Hr as Hdb. simpl in Hdb. unfold first in Hdb.
    change ((query _ db f).1.2) with (after (query (λ db, match keep (by_key (Setting.Key s)) (settings db) with
      x :: _ => Ok x | [] => Err RecordNotFound end) db f)) in Hdb.
    rewrite query_same in Hdb. subst db1. apply execute_Ok in Hrun.
    destruct (existsb _ _) eqn:E; [done|]. injection Hrun as <-. apply create_ok; [done| |done].
    intros q Hq Eq. rewrite existsb_none in E. apply E in Hq. by rewrite Eq, text_eqb_refl in Hq.
Qed.

(** Without a failing statement. *)
Lemma Upsert_run s db : is_empty (Setting.Key s) = false → ∃ db', Upsert s db [] = (Ok (), db', []).
Proof.
  intros Hk. unfold Upsert. rewrite bind_run, caught_run. unfold first, query.
  destruct (keep _ (settings db)) as [|x l] eqn:E; [|eexists; reflexivity].
  unfold create_setting, execute. destruct (existsb _ _) eqn:Ex; [|eexists; reflexivity].
  apply existsb_elem in Ex as (q & Hq & Eq).
  assert (q ∈ keep (by_key (Setting.Key s)) (settings db)) as Hin
    by (apply elem_of_keep; by rewrite by_key_real). rewrite E in Hin. by apply not_elem_of_nil in Hin.
Qed.

Definition real_key (s : Setting.t) : Prop := is_empty (Setting.Key s) = false.
Definition set_all (m : gmap text (text * text * text)) (l : list Setting.t) : gmap text (text * text * text) :=
  foldl (λ m s, <[Setting.Key s := entry_of s]> m) m l.

Lemma upserts_Ok l db f db' f' : settings_ok db → Forall real_key l →
  for_each Upsert l db f = (Ok (), db', f') →
  settings_ok db' ∧ settings_map db' = set_all (settings_map db) l.
Proof.
  intros Hok HF. revert db f Hok. induction HF as [|s l Hs _ IH]; intros db f Hok; cbn [for_each].
  { by intros [= <- _]. }
  intros ([] & db1 & f1 & Hr & Hrun)%bind_Ok.
  apply Upsert_Ok in Hr as [Hok1 Hm1]; [|done..].
  destruct (IH _ _ Hok1 Hrun) as [Hok' Hm']. split; [done|]. by rewrite Hm', Hm1.
Qed.

Lemma upserts_run l db : settings_ok db → Forall real_key l →
  ∃ db', for_each Upsert l db [] = (Ok (), db', []).
Proof.
  intros Hok HF. revert db Hok. induction HF as [|s l Hs _ IH]; intros db Hok; cbn [for_each]; [by exists db|].
  destruct (Upsert_run s db Hs) as (db1 & Hr). rewrite bind_run, Hr. apply IH.
  by apply Upsert_Ok in Hr as [? _].
Qed.

(** *** With empty keys *)

(** An empty key is no condition: the setting goes to the row that is first in
    the table, and to a row of the empty key when there is none. *)
Definition first_key (db : Db) : option text := Setting.Key <$> head (settings db).
Definition put (st : option text * gmap text (text * text * text)) (s : Setting.t)
    : option text * gmap text (text * text * text) :=
  let key := if is_empty (Setting.Key s) then default [] st.1 else Setting.Key s in
  (Some (default key st.1), <[key := entry_of s]> st.2).
Definition put_all (st : option text * gmap text (text * text * text)) (l : list Setting.t)
    : option text * gmap text (text * text * text) := foldl put st l.

Lemma caught_first {A} (q : Db → list A) db f r db' f' :
  caught (F := db_error) (first q) db f = (Ok r, db', f') →
  match r with Ok x => head (q db) = Some x | Err _ => True end ∧ db' = db.
Proof.
  intros Hr%caught_Ok. assert (db' = db) as -> by (eapply reads_run; [|exact Hr]; apply preserves_first, _).
  split; [|done]. destruct r as [x|e]; [|done]. apply query_Ok in Hr as [Hq _].
  destruct (q db); [done|]. by injection Hq as ->.
Qed.

Lemma overwritten_head s old db : 
  Setting.Key <$> head (updated (λ q, Setting.ID q =? Setting.ID old) (overwrite s) <$> settings db) =
  Setting.Key <$> head (settings db).
Proof. destruct (settings db) as [|q l]; [done|]. simpl. f_equal. unfold updated. by destruct (_ =? _). Qed.

(** A statement that fails does not answer that there is no such row. *)
Definition honest (f : faults) : Prop := Some RecordNotFound ∉ f.
Lemma honest_tail (f : faults) : honest f → honest (tail f).
Proof. destruct f as [|x f]; [done|]. intros Hf Hin. apply Hf. by right. Qed.
Lemma query_tail {A} (q : Db → result db_error A) db f r db' f' : query q db f = (r, db', f') → f' = tail f.
Proof. unfold query. by destruct f as [|[e|] f]; intros [= _ _ <-]. Qed.
Lemma execute_tail (q : Db → result db_error Db) db f r db' f' : execute q db f = (r, db', f') → f' = tail f.
Proof.
  unfold execute. destruct f as [|[e|] f]; try by intros [= _ _ <-].
  - by destruct (q db); intros [= _ _ <-].
  - by destruct (q db); intros [= _ _ <-].
Qed.
Lemma Upsert_honest s db f r db' f' : Upsert s db f = (r, db', f') → honest f → honest f'.
Proof.
  unfold Upsert. rewrite bind_run, caught_run. destruct (first _ db f) as [[r1 db1] f1] eqn:E.
  apply query_tail in E as ->. intros Hr Hf%honest_tail.
  destruct r1 as [old|[]]; try (by injection Hr as _ _ <-);
    apply execute_tail in Hr as ->; by apply honest_tail.
Qed.

Lemma Upsert_put s db f db' f' : settings_ok db → Upsert s db f = (Ok (), db', f') →
  settings_ok db' ∧
  (honest f → (first_key db', settings_map db') = put (first_key db, settings_map db) s).
Proof.
  intros Hok. unfold Upsert. intros (r & db1 & f1 & Hr & Hrun)%bind_Ok.
  pose proof Hr as Hnf. apply caught_first in Hr as [Hr ->].
  unfold put, first_key. cbn [fst snd]. destruct r as [old|[]]; [| |done..].
  - apply head_Some in Hr as [rest Hk]. apply execute_Ok in Hrun. injection Hrun as <-.
    assert (old ∈ settings db ∧ by_key (Setting.Key s) old = true) as [Hold Hkey]
      by (apply elem_of_keep; rewrite Hk; left).
    cbn [settings set_settings]. rewrite overwritten_head.
    destruct (is_empty (Setting.Key s)) eqn:Es.
    + destruct (Setting.Key s) eqn:Eks; [|done]. unfold by_key in Hk. cbn [is_empty orb] in Hk.
      rewrite keep_id in Hk by (by apply Forall_true). rewrite Hk. cbn [head fmap option_fmap option_map default].
      pose proof (overwrite_ok {| Setting.ID := Setting.ID s; Setting.Key := Setting.Key old;
        Setting.Value := Setting.Value s; Setting.Category := Setting.Category s;
        Setting.Type_ := Setting.Type_ s |} old db Hok Hold eq_refl) as [Hok' Hm'].
      cbv zeta in Hok', Hm'. rewrite <- Hk. split; [exact Hok'|]. intros _. f_equal. exact Hm'.
    + rewrite by_key_real in Hkey by done. apply text_eqb_true in Hkey.
      destruct (overwrite_ok s old db Hok Hold Hkey) as [Hok' Hm']. split; [exact Hok'|]. intros _. rewrite Hm'.
      destruct (settings db); [by apply not_elem_of_nil in Hold|]. done.
  - apply execute_Ok in Hrun. destruct (existsb _ _) eqn:E; [done|]. injection Hrun as <-.
    rewrite existsb_none in E.
    assert (∀ q, q ∈ settings db → Setting.Key q ≠ Setting.Key s) as Hnew
      by (intros q Hq Eq; apply E in Hq; by rewrite Eq, text_eqb_refl in Hq).
    destruct (create_ok s db _ Hok Hnew eq_refl) as [Hok' Hm']. split; [exact Hok'|]. intros Hf. rewrite Hm'.
    apply caught_Ok in Hnf.
    assert (is_empty (Setting.Key s) = true → settings db = []) as Hempty.
    { intros Es. unfold first, query in Hnf. unfold by_key in Hnf. rewrite Es in Hnf. cbn [orb] in Hnf.
      rewrite keep_id in Hnf by (by apply Forall_true).
      destruct f as [|[e|] f0]; cbn in Hnf; destruct (settings db); try done.
      injection Hnf as -> _. destruct Hf. left. }
    destruct (is_empty (Setting.Key s)) eqn:Es.
    + rewrite Hempty by done. destruct (Setting.Key s) eqn:Eks; [|done]. done.
    + cbn [settings set_settings]. destruct (settings db); done.
Qed.

Lemma upserts_put l db f db' f' : settings_ok db → for_each Upsert l db f = (Ok (), db', f') →
  settings_ok db' ∧
  (honest f → (first_key db', settings_map db') = put_all (first_key db, settings_map db) l).
Proof.
  intros Hok. revert db f Hok. induction l as [|s l IH]; intros db f Hok; cbn [for_each].
  { by intros [= <- _]. }
  intros ([] & db1 & f1 & Hr & Hrun)%bind_Ok. pose proof (Upsert_honest _ _ _ _ _ _ Hr) as Hh.
  apply Upsert_put in Hr as [Hok1 Hm1]; [|done..].
  destruct (IH _ _ Hok1 Hrun) as [Hok' Hm']. split; [done|]. intros Hf. unfold put_all in *. cbn [foldl].
  rewrite Hm' by auto. by rewrite Hm1.
Qed.

Lemma Upsert_total s db : ∃ db', Upsert s db [] = (Ok (), db', []).
Proof.
  destruct (is_empty (Setting.Key s)) eqn:Es; [|by apply Upsert_run].
  unfold Upsert. rewrite bind_run, caught_run. unfold first, query.
  unfold by_key. rewrite Es. cbn [orb]. rewrite keep_id by (by apply Forall_true).
  destruct (settings db) as [|r rest] eqn:E; [|eexists; reflexivity].
  unfold create_setting, execute. rewrite E. eexists. reflexivity.
Qed.

Lemma upserts_total l db : ∃ db', for_each Upsert l db [] = (Ok (), db', []).
Proof.
  revert db. induction l as [|s l IH]; intros db; cbn [for_each]; [by exists db|].
  destruct (Upsert_total s db) as (db1 & Hr). rewrite bind_run, Hr. apply IH.
Qed.

(** C28: The table of settings is a map: a batch sets each key to its value,
    category and type, the last of a key winning, and keeps the keys and ids
    unique; a setting with an empty key, which the requests may have, is set
    under the key of the first row of the table instead, or makes a row of the
    empty key in an empty table (a statement that fails is taken not to answer
    that there is no such row). Or, when a statement fails, the batch changes
    nothing at all; and when none fails it succeeds. *)
Theorem batch_upsert_refines l db f : settings_ok db →
  (∃ db', BatchUpsert l db [] = (Ok (), db', [])) ∧
  ∀ r db' f', BatchUpsert l db f = (r, db', f') →
    match r with
    | Ok _ => settings_ok db' ∧
              (Some RecordNotFound ∉ f → settings_map db' = (put_all (first_key db, settings_map db) l).2) ∧
              (Forall real_key l → settings_map db' = set_all (settings_map db) l)
    | Err _ => db' = db
    end.
Proof.
  intros Hok. split.
  - destruct (upserts_total l db) as (db' & Hr). exists db'. unfold BatchUpsert, Transaction.
    by rewrite Hr.
  - intros r db' f' Hr. destruct r as [[]|e].
    + unfold BatchUpsert in Hr. apply (proj1 (Transaction_Ok _ _ _ _ _ _)) in Hr.
      destruct (upserts_put l db f db' f' Hok Hr) as [Hok' Hm]. split; [done|]. split; [intros Hf; by rewrite <- Hm|].
      intros HF. apply (upserts_Ok l db f db' f' Hok HF Hr).
    + unfold BatchUpsert, Transaction in Hr. by destruct (for_each _ _ _ _) as [[[[]|] ?] ?]; simplify_eq.
Qed.

(** *** What is read afterwards *)

Lemma GetSetting_map key db : settings_ok db →
  GetSetting key db [] = (Ok (from_option (λ v, v.1.1) [] (settings_map db !! key)), db, []).
Proof.
  intros Hok. unfold GetSetting, GetSettingByKey. rewrite bind_run, bind_run, caught_run.
  unfold first, query. destruct (keep _ (settings db)) as [|s l] eqn:E.
  - destruct (settings_map db !! key) as [v|] eqn:Em; [|done].
    apply settings_map_elem in Em as (s & Hs & Hk & _); [|done].
    assert (s ∈ keep (λ s, text_eqb (Setting.Key s) key) (settings db)) as Hin
      by (apply elem_of_keep; by rewrite Hk, text_eqb_refl). rewrite E in Hin. by apply not_elem_of_nil in Hin.
  - apply keep_head in E as [Hs Hk]. apply text_eqb_true in Hk.
    assert (settings_map db !! key = Some (entry_of s)) as ->; [|done].
    apply settings_map_elem; eauto.
Qed.

Section read_back.
Context (err_text : db_error → text).

Lemma in_categories l c k v : NoDup (Setting.Key <$> l) →
  (foldl in_category ∅ l : gmap text (gmap text text)) !! c ≫= (λ m, m !! k) = Some v ↔
  ∃ s, s ∈ l ∧ Setting.Category s = c ∧ Setting.Key s = k ∧ Setting.Value s = v.
Proof.
  induction l as [|s l IH] using rev_ind; intros Hn.
  { simpl. rewrite lookup_empty. split; [done|]. by intros (s & []%not_elem_of_nil & _). }
  rewrite fmap_app in Hn. apply NoDup_app in Hn as (Hn & Hd & _). specialize (IH Hn).
  rewrite foldl_app. cbn [foldl]. unfold in_category at 1.
  assert (∀ q, q ∈ l → Setting.Key q ≠ Setting.Key s) as Hne.
  { intros q Hq E. apply (Hd (Setting.Key q)); [by apply list_elem_of_fmap_2|].
    apply list_elem_of_singleton. done. }
  set (m := foldl in_category ∅ l) in *.
  assert ((<[Setting.Category s := <[Setting.Key s := Setting.Value s]> (default ∅ (m !! Setting.Category s))]> m
            !! c ≫= λ m, m !! k) = Some v ↔
          (Setting.Category s = c ∧ Setting.Key s = k ∧ Setting.Value s = v) ∨
          (¬ (Setting.Category s = c ∧ Setting.Key s = k) ∧ (m !! c ≫= λ m, m !! k) = Some v)) as ->.
  { destruct (decide (Setting.Category s = c)) as [->|Hc].
    - rewrite lookup_insert_eq. simpl. rewrite lookup_insert_Some.
      destruct (m !! c); simpl; rewrite ?lookup_empty; naive_solver.
    - rewrite lookup_insert_ne by done. naive_solver. }
  rewrite IH. split.
  - intros [H|[_ (q & Hq & H)]]; [exists s|exists q]; (split; [apply elem_of_app|done]); [right|by left].
    by apply list_elem_of_singleton.
  - intros (q & [Hq | ->%list_elem_of_singleton]%elem_of_app & <- & <- & <-); [|by left].
    right. split; [|eauto]. intros [_ E]. by apply (Hne q).
Qed.

(** A request that succeeds has written its settings. *)
Lemma UpdateSettings_Ok w request db f effects db' f' :
  settings_ok db → Forall real_key (settings_of request) →
  UpdateSettings err_text w (Some request) db f = (Ok effects, db', f') →
  settings_ok db' ∧ settings_map db' = set_all (settings_map db) (settings_of request).
Proof.
  intros Hok HF. unfold UpdateSettings. intros (u & db1 & f1 & Hr & Hrun)%bind_Ok.
  injection Hrun as _ <- <-. apply or_fail_Ok in Hr. destruct u.
  unfold BatchUpsert in Hr. apply (proj1 (Transaction_Ok _ _ _ _ _ _)) in Hr.
  exact (upserts_Ok _ _ _ _ _ Hok HF Hr).
Qed.

(** What an administrator saves is what the API shows: after an update that
    succeeds the listing holds, under its category, each key with the value the
    request gave it, and every other key as before. *)
Theorem settings_read_back w request db f effects db' f' :
  settings_ok db → Forall real_key (settings_of request) →
  UpdateSettings err_text w (Some request) db f = (Ok effects, db', f') →
  ∃ m, GetAllSettings err_text db' [] = (Ok m, db', []) ∧
    ∀ c k v, m !! c ≫= (λ m, m !! k) = Some v ↔
      ∃ ty, set_all (settings_map db) (settings_of request) !! k = Some (v, c, ty).
Proof.
  intros Hok HF Hr. destruct (UpdateSettings_Ok _ _ _ _ _ _ _ Hok HF Hr) as [Hok' Hm].
  eexists. split; [reflexivity|]. intros c k v. rewrite <- Hm.
  rewrite (in_categories _ _ _ _ (keys_unique _ Hok')). split.
  - intros (s & Hs & <- & <- & <-). exists (Setting.Type_ s). apply settings_map_elem; eauto.
  - intros (ty & (s & Hs & <- & [= <- <- _])%settings_map_elem); [|done]. eauto 6.
Qed.

(** *** What the host monitor makes of them *)

Definition value_of (m : gmap text (text * text * text)) (key : text) : text :=
  from_option (λ v, v.1.1) [] (m !! key).
Definition set_by (m : gmap text (text * text * text)) (key : text) (update : text → Monitor → Monitor)
    (c : Monitor) : Monitor :=
  let v := value_of m key in if is_empty v then c else update v c.

Definition configured (m : gmap text (text * text * text)) (c : Monitor) : Monitor :=
  set_by m (txt "host_monitor_concurrent") (if_positive set_concurrent)
  (set_by m (txt "host_monitor_timeout") (if_positive set_timeout)
  (set_by m (txt "host_monitor_method") (λ v c, set_method c v)
  (set_by m (txt "host_monitor_interval") (if_positive set_interval)
  (set_by m (txt "host_monitor_enabled") (λ v c, set_enabled c (text_eqb v (txt "true"))) c)))).

Lemma read_setting_map key update c db : settings_ok db →
  read_setting key update c db [] = (Ok (set_by (settings_map db) key update c), db, []).
Proof. intros Hok. unfold read_setting. rewrite bind_run. unfold attempt. by rewrite GetSetting_map. Qed.

Lemma loadConfig_map c db : settings_ok db →
  loadConfig c db [] = (Ok (configured (settings_map db) c), db, []).
Proof.
  intros Hok. unfold loadConfig, configured.
  do 4 (rewrite bind_run, read_setting_map by done). by apply read_setting_map.
Qed.

(** A saved setting of the host monitor takes effect: the handler asks the
    monitor to reload, the reload reads the map the request made, and the other
    instances are sent each key and value. *)
Theorem settings_reach_monitor w request db f effects db' f' s c :
  settings_ok db → Forall real_key (settings_of request) →
  has_monitor w = true → s ∈ settings_of request → Setting.Category s = txt "host_monitor" →
  UpdateSettings err_text w (Some request) db f = (Ok effects, db', f') →
  ReloadHostMonitor ∈ effects ∧
  loadConfig c db' [] = (Ok (configured (set_all (settings_map db) (settings_of request)) c), db', []) ∧
  (has_sync w = true → Publish (Setting.Key s) (Setting.Value s) ∈ effects).
Proof.
  intros Hok HF Hw Hs Hc Hr. destruct (UpdateSettings_Ok _ _ _ _ _ _ _ Hok HF Hr) as [Hok' Hm].
  unfold UpdateSettings in Hr. apply bind_Ok in Hr as (u & db1 & f1 & _ & Hrun).
  injection Hrun as <- _ _. rewrite Hw.
  assert (s ∈ keep (λ s, text_eqb (Setting.Category s) (txt "host_monitor")) (settings_of request)) as Hin
    by (apply elem_of_keep; by rewrite Hc, text_eqb_refl).
  destruct (keep (λ s, text_eqb (Setting.Category s) (txt "host_monitor")) (settings_of request))
    as [|x l] eqn:E; [by apply not_elem_of_nil in Hin|]. cbn [is_empty negb andb].
  split_and!.
  - apply elem_of_app. right. left.
  - rewrite <- Hm. by apply loadConfig_map.
  - intros ->. apply elem_of_app. right. right. apply list_elem_of_fmap. eauto.
Qed.
End read_back.

(** An empty key names no row: the first one is overwritten. *)
Lemma empty_key_overwrites s r rest db : settings db = r :: rest → Setting.Key s = [] →
  Upsert s db [] = (Ok (), set_settings db
    (updated (λ q, Setting.ID q =? Setting.ID r) (overwrite s) <$> settings db), []).
Proof.
  intros Hdb Hk. unfold Upsert. rewrite bind_run, caught_run. unfold first, query.
  rewrite Hk, keep_id by (by apply Forall_true).
  assert (match settings db with [] => Err RecordNotFound | x :: _ => Ok x end = Ok r) as -> by (by rewrite Hdb).
  done.
Qed.

(** ** Witnesses *)

Definition one_setting : Db := set_settings empty_db
  [{| Setting.ID := 1; Setting.Key := txt "host_monitor_interval"; Setting.Value := txt "10";
      Setting.Category := txt "host_monitor"; Setting.Type_ := txt "string" |}].

(** The new format for one key, the old one for a category. *)
Definition a_request : list (text * entry) :=
  [(txt "host_monitor_interval", Object [(txt "value", Num (txt "15")); (txt "category", Str (txt "host_monitor"))]);
   (txt "system", Object [(txt "siteName", Str (txt "zjump")); (txt "watermark", Bool true)])].

Definition all_wired : wiring := {| has_notifications := true; has_monitor := true; has_sync := true |}.

Lemma one_setting_ok : settings_ok one_setting.
Proof.
  split; [apply NoDup_singleton..|]. by apply Forall_singleton.
Defined.

Lemma a_request_real : Forall real_key (settings_of a_request).
Proof. repeat (apply Forall_cons; split); try apply Forall_nil; reflexivity. Defined.

Lemma batch_upsert_refines_witness :
  (∃ db', BatchUpsert (settings_of a_request) one_setting [] = (Ok (), db', [])) ∧
  Setting.Value <$> settings (after (BatchUpsert (settings_of a_request) one_setting [])) =
    [txt "15"; txt "zjump"; txt "true"].
Proof.
  split; [|vm_compute; reflexivity].
  apply (batch_upsert_refines (settings_of a_request) one_setting [] one_setting_ok).
Defined.

Lemma settings_read_back_witness :
  let db' := after (UpdateSettings plain_err all_wired (Some a_request) one_setting []) in
  ∃ m, GetAllSettings plain_err db' [] = (Ok m, db', []) ∧
       m !! txt "system" ≫= (λ m, m !! txt "siteName") = Some (txt "zjump").
Proof.
  intros db'.
  destruct (settings_read_back plain_err all_wired a_request one_setting []
    [ReloadHostMonitor; Publish (txt "host_monitor_interval") (txt "15")] db' [] one_setting_ok a_request_real)
    as (m & Hm & Hget).
  - vm_compute. reflexivity.
  - exists m. split; [exact Hm|]. apply Hget. exists (txt "string"). vm_compute. reflexivity.
Defined.

Lemma settings_reach_monitor_witness :
  let db' := after (UpdateSettings plain_err all_wired (Some a_request) one_setting []) in
  let c := {| config := {| Config.Enabled := true; Config.Interval := 5; Config.Method := MonitorMethodTCP;
                           Config.Timeout := 3; Config.Concurrent := 20 |}; interval := minutes 5 |} in
  loadConfig c db' [] =
    (Ok (configured (set_all (settings_map one_setting) (settings_of a_request)) c), db', []) ∧
  Config.Interval (config (configured (set_all (settings_map one_setting) (settings_of a_request)) c)) = 15.
Proof.
  intros db' c. split; [|vm_compute; reflexivity].
  destruct (settings_reach_monitor plain_err all_wired a_request one_setting []
    [ReloadHostMonitor; Publish (txt "host_monitor_interval") (txt "15")] db' []
    (new_setting (txt "host_monitor_interval") (txt "host_monitor") (Num (txt "15"))) c
    one_setting_ok a_request_real) as (_ & H & _).
  - reflexivity.
  - apply list_elem_of_In. vm_compute. left. reflexivity.
  - reflexivity.
  - vm_compute. reflexivity.
  - exact H.
Defined.
