(* ===== verification/Notifications.v ===== *)
(** * Alerts

    [internal/notification]: the channels the settings configure, and the
    messages they are sent when a command is blocked or a session changes.  A
    message is the JSON value that is marshalled; HMAC-SHA256 is a parameter, and
    so are the clock and the answers of the platforms.  The goroutines that send
    are independent of each other: a list of requests stands for them. *)

From stdpp Require Import base list strings gmap pretty.
From Stdlib Require Import ZArith Lia.
From S2P Require Import Prelude GoStrings Encodings Gorm Models Blacklist Database Accounts Settings.
Local Open Scope Z_scope.

Inductive json :=
  | JString (s : text)
  | JNumber (n : Z)
  | JBool (b : bool)
  | JArray (l : list json)
  | JObject (fields : list (text * json)).

(** ** The channels *)

Inductive Notifier :=
  | FeishuNotifier (WebhookURL Secret : text)
  | DingTalkNotifier (WebhookURL Secret : text)
  | WeChatNotifier (WebhookURL : text).

Record NotificationManager := { notifiers : list Notifier; enabled : bool }.

Definition NewNotificationManager : NotificationManager := {| notifiers := []; enabled := false |}.
Definition SetEnabled (m : NotificationManager) (b : bool) : NotificationManager :=
  {| notifiers := notifiers m; enabled := b |}.
Definition IsEnabled (m : NotificationManager) : bool := enabled m && negb (is_empty (notifiers m)).
Definition AddNotifier (m : NotificationManager) (n : Notifier) : NotificationManager :=
  {| notifiers := notifiers m ++ [n]; enabled := enabled m |}.

(** A channel that is switched on and has a webhook. *)
Definition configured_channel (settings : gmap text text) (switch webhook : string)
    (channel : text → Notifier) : list Notifier :=
  let get k := default [] (settings !! txt k) in
  if text_eqb (get switch) (txt "true") && negb (is_empty (get webhook)) then [channel (get webhook)] else [].

Definition configured_channels (settings : gmap text text) : list Notifier :=
  let get k := default [] (settings !! txt k) in
  configured_channel settings "enableFeishu" "feishuWebhook" (λ u, FeishuNotifier u (get "feishuSecret"%string)) ++
  configured_channel settings "enableDingTalk" "dingTalkWebhook" (λ u, DingTalkNotifier u (get "dingTalkSecret"%string)) ++
  configured_channel settings "enableWeChat" "wechatWebhookURL" WeChatNotifier.

(** [loadConfig]; a failed query leaves the manager as it is. *)
Definition loadConfig {E} (m : NotificationManager) : Eff E NotificationManager :=
  settings ← attempt (GetByCategory (txt "notification"));
  mret (match settings with
        | None => m
        | Some l =>
            let added := configured_channels (as_map l) in
            {| notifiers := added; enabled := negb (is_empty added) |}
        end).
Definition InitFromDatabase {E} : Eff E NotificationManager := loadConfig NewNotificationManager.
Definition ReloadFromDatabase {E} (m : NotificationManager) : Eff E NotificationManager := loadConfig m.

(** ** The messages *)

Section messages.
Context (hmac_sha256 : bytes → bytes → bytes).

(** The key, then the message. *)
Definition feishu_sign (secret : text) (timestamp : Z) : text :=
  if is_empty secret then []
  else b64_encode (hmac_sha256 (utf8_encode (txt (pretty timestamp) ++ [10] ++ secret)) []).
Definition dingtalk_sign (secret : text) (timestamp : Z) : text :=
  if is_empty secret then []
  else b64_encode (hmac_sha256 (utf8_encode secret) (utf8_encode (txt (pretty timestamp) ++ [10] ++ secret))).

Definition obj (fields : list (string * json)) : json := JObject ((λ f, (txt f.1, f.2)) <$> fields).
Definition str (s : string) : json := JString (txt s).
Definition plain (content : text) : json := obj [("tag", str "plain_text"); ("content", JString content)].
Definition lark_md (content : text) : json := obj [("content", JString content); ("tag", str "lark_md")].
Definition short (content : text) : json := obj [("is_short", JBool true);
  ("text", obj [("tag", str "lark_md"); ("content", JString content)])].
Definition rule : json := obj [("tag", str "hr")].

Definition feishu_message (secret : text) (unix : Z) (title : text) (template : string) (elements : list json)
    : json :=
  obj [("timestamp", JString (txt (pretty unix))); ("sign", JString (feishu_sign secret unix));
       ("msg_type", str "interactive");
       ("card", obj [("header", obj [("title", plain title); ("template", str template)]);
                     ("elements", JArray elements)])].

(** The clock: seconds, milliseconds, and the date as written. *)
Record clock := { unix : Z; millis : Z; date : text }.

Definition feishu_alert (secret : text) (c : clock) (title content : text) : json :=
  feishu_message secret (unix c) title "red"
    [obj [("tag", str "div"); ("text", lark_md content)]; rule;
     obj [("tag", str "note"); ("elements", JArray [plain (txt "告警时间: " ++ date c)])]].

Definition short_command (command : text) : bool := blen command <? 20.
Definition riskLevel (command : text) : text :=
  if short_command command then txt "🟠 中危" else txt " 高危".

Definition fence : text := txt "```".

Definition feishu_dangerous (secret : text) (c : clock) (username hostIP command reason : text) : json :=
  feishu_message secret (unix c) (txt "🚨 危险命令拦截告警")
    (if short_command command then "orange" else "red")
    [obj [("tag", str "div"); ("text", lark_md (txt "**检测到用户尝试执行危险命令，已被系统拦截！**"))]; rule;
     obj [("tag", str "div"); ("fields", JArray
       [short (txt "**👤 操作用户**" ++ [10] ++ username); short (txt "**🖥️ 目标主机**" ++ [10] ++ hostIP)])];
     obj [("tag", str "div"); ("fields", JArray
       [short (txt "** 危险等级**" ++ [10] ++ riskLevel command); short (txt "**🕐 告警时间**" ++ [10] ++ date c)])];
     rule;
     obj [("tag", str "div"); ("text", lark_md (txt "**💻 拦截命令**" ++ [10] ++ fence ++ [10] ++ command ++ [10] ++ fence))];
     obj [("tag", str "div"); ("text", lark_md (txt "**📋 拦截原因**" ++ [10] ++ reason))]; rule;
     obj [("tag", str "note"); ("elements", JArray [plain (txt "🛡️ 系统已自动拦截该命令，请及时核查用户操作意图")])]].

(** Lines ended by a line feed, except the last. *)
Definition lines (l : list text) : text := join_with 10 l.

Definition dingtalk_content (c : clock) (username hostIP command reason : text) : text := lines
  [txt "## 🚨 危险命令拦截告警"; []; txt "---"; [];
   txt "> **检测到用户尝试执行危险命令，已被系统拦截！**"; []; txt "---"; []; txt "### 📋 告警详情"; [];
   txt "- **👤 操作用户：** " ++ username; txt "- **🖥️ 目标主机：** " ++ hostIP;
   txt "- ** 危险等级：** " ++ riskLevel command; txt "- **🕐 告警时间：** " ++ date c; []; txt "---"; [];
   txt "### 💻 拦截命令"; []; fence; command; fence; []; txt "###  拦截原因"; []; txt "> " ++ reason; [];
   txt "---"; []; txt "### 🛡️ 安全建议"; []; txt "-  系统已自动拦截该命令"; txt "-  请及时核查用户操作意图";
   txt "- 📞 如有疑问请联系安全团队"; []; txt "---"; []; txt "*告警来源：ZJump 堡垒机系统*"].

Definition wechat_content (c : clock) (username hostIP command reason : text) : text := lines
  [txt "## 🚨 危险命令拦截告警"; []; txt "---"; [];
   quoted "> <font color=^warning^>**检测到用户尝试执行危险命令，已被系统拦截！**</font>"; []; txt "---"; [];
   txt "### 📋 告警详情"; []; txt "> **👤 操作用户：**" ++ username; txt "> **🖥️ 目标主机：**" ++ hostIP;
   txt "> ** 危险等级：**" ++ riskLevel command; txt "> **🕐 告警时间：**" ++ date c; []; txt "---"; [];
   txt "### 💻 拦截命令"; []; fence; command; fence; []; txt "###  拦截原因"; []; txt "> " ++ reason; [];
   txt "---"; []; txt "### 🛡️ 安全建议"; []; quoted "- <font color=^info^> 系统已自动拦截该命令</font>";
   quoted "- <font color=^warning^> 请及时核查用户操作意图</font>";
   quoted "- <font color=^comment^>📞 如有疑问请联系安全团队</font>"; []; txt "---"; [];
   txt "*告警来源：ZJump 堡垒机系统*"].

Definition dingtalk_message (secret : text) (c : clock) (title content : text) : json := JObject
  ([(txt "msgtype", str "markdown");
    (txt "markdown", obj [("title", JString title); ("text", JString content)]);
    (txt "at", obj [("isAtAll", JBool false)])] ++
   if is_empty secret then []
   else [(txt "timestamp", JNumber (millis c)); (txt "sign", JString (dingtalk_sign secret (millis c)))]).
Definition dingtalk_url (url secret : text) (c : clock) : text :=
  if is_empty secret then url
  else url ++ txt "&timestamp=" ++ txt (pretty (millis c)) ++ txt "&sign=" ++ dingtalk_sign secret (millis c).

Definition wechat_message (content : text) : json :=
  obj [("msgtype", str "markdown"); ("markdown", obj [("content", JString content)])].

(** What is posted, and where. *)
Record post := { url : text; body : json }.

(** [SendAlert] of each channel. *)
Definition SendAlert (n : Notifier) (c : clock) (title content : text) : post :=
  match n with
  | FeishuNotifier u secret => {| url := u; body := feishu_alert secret c title content |}
  | DingTalkNotifier u secret =>
      {| url := dingtalk_url u secret c; body := dingtalk_message secret c title content |}
  | WeChatNotifier u => {| url := u; body := wechat_message (txt "## " ++ title ++ [10; 10] ++ content) |}
  end.

(** [SendDangerousCommandAlert] of each channel. *)
Definition dangerous_alert (n : Notifier) (c : clock) (username hostIP command reason : text) : post :=
  match n with
  | FeishuNotifier u secret =>
      {| url := u; body := feishu_dangerous secret c username hostIP command reason |}
  | DingTalkNotifier u secret =>
      {| url := dingtalk_url u secret c;
         body := dingtalk_message secret c (txt "🚨 危险命令拦截告警")
                   (dingtalk_content c username hostIP command reason) |}
  | WeChatNotifier u =>
      {| url := u; body := wechat_message (wechat_content c username hostIP command reason) |}
  end.

(** The answer of the platform. *)
Definition sent (name : text) (answer : result text Z) : result text unit :=
  match answer with
  | Err e => Err (txt "send request failed: " ++ e)
  | Ok status => if status =? 200 then Ok ()
                 else Err (name ++ txt " returned non-200 status: " ++ txt (pretty status))
  end.

(** [SendDangerousCommandAlert] and [SendSessionAlert] of the manager. *)
Definition SendDangerousCommandAlert (m : NotificationManager) (c : clock)
    (username hostIP command reason : text) : list post :=
  if negb (enabled m) || is_empty (notifiers m) then []
  else (λ n, dangerous_alert n c username hostIP command reason) <$> notifiers m.

Definition SendSessionAlert (m : NotificationManager) (c : clock) (username hostIP action : text) : list post :=
  if negb (IsEnabled m) then []
  else (λ n, SendAlert n c (txt "ℹ️ 会话通知")
         (lines [txt "**用户**: " ++ username; txt "**目标主机**: " ++ hostIP; txt "**操作**: " ++ action;
                 txt "**时间**: " ++ date c])) <$> notifiers m.

(** What a check of the blacklist sends. *)
Definition alerts_of (m : NotificationManager) (c : clock) (a : option alert) : list post :=
  match a with
  | Some a => SendDangerousCommandAlert m c (alert_username a) (alert_host a) (alert_command a) (alert_reason a)
  | None => []
  end.
(** *** The tests of the settings page *)

(** What the page is told: whether it went well, and a text. *)
Record test_result := { success : bool; note : text }.

Definition test_content (n : Notifier) (c : clock) : text :=
  match n with
  | FeishuNotifier _ _ => lines
      [txt "**这是一条测试消息**"; []; txt "如果您收到此消息，说明飞书通知配置成功！"; []; txt "测试时间：" ++ date c]
  | DingTalkNotifier _ _ => lines
      [txt "##  ZJump 通知测试"; []; txt "---"; []; txt "**这是一条测试消息**"; [];
       txt "如果您收到此消息，说明钉钉通知配置成功！"; []; txt "---"; []; txt "- **测试时间：** " ++ date c;
       txt "- **系统：** ZJump 堡垒机"; txt "- **状态：**  配置正常"; []; txt "---"; []; txt "*测试消息来源：ZJump 系统设置*"]
  | WeChatNotifier _ => []
  end.

(** A message through the channel; an error of the platform is an answer too. *)
Definition test_channel (n : Notifier) (name group : text) (c : clock) (answer : post → result text Z)
    : test_result :=
  match sent name (answer (SendAlert n c (txt " ZJump 通知测试") (test_content n c))) with
  | Err e => {| success := false; note := txt "发送失败: " ++ e |}
  | Ok _ => {| success := true; note := txt " 测试消息已发送！请检查" ++ group ++ txt "群组是否收到消息。" |}
  end.

Definition TestFeishuNotification (webhook secret : text) (c : clock) (answer : post → result text Z)
    : result (Z * text) test_result :=
  if is_empty webhook then Err (400, txt "Invalid request: ")
  else Ok (test_channel (FeishuNotifier webhook secret) (txt "feishu") (txt "飞书") c answer).
Definition TestDingtalkNotification (webhook secret : text) (c : clock) (answer : post → result text Z)
    : result (Z * text) test_result :=
  if is_empty webhook then Err (400, txt "Invalid request: ")
  else Ok (test_channel (DingTalkNotifier webhook secret) (txt "dingtalk") (txt "钉钉") c answer).

(** These three ask no one; the required fields are only tested for presence. *)
Definition required (fields : list text) : bool := negb (existsb is_empty fields).
Definition TestLDAPConnection (Server BaseDN BindDN BindPassword : text) : result (Z * text) test_result :=
  if required [Server; BaseDN; BindDN; BindPassword]
  then Ok {| success := true; note := txt "Successfully connected to LDAP server" |}
  else Err (400, txt "Invalid request: ").
Definition TestSSOConnection (Provider ClientID ClientSecret AuthURL TokenURL : text)
    : result (Z * text) test_result :=
  if required [Provider; ClientID; ClientSecret; AuthURL; TokenURL]
  then Ok {| success := true; note := txt "SSO configuration is valid" |}
  else Err (400, txt "Invalid request: ").
Definition TestWechatNotification (CorpID AgentID Secret : text) : result (Z * text) bool :=
  if required [CorpID; AgentID; Secret] then Ok true else Err (400, txt "Invalid request: ").
End messages.

(** ** The channels follow the settings *)

(** What the category holds, as the manager reads it. *)
Definition in_notification (v : text * text * text) : option text :=
  if text_eqb v.1.2 (txt "notification") then Some v.1.1 else None.
Definition notification_settings (m : gmap text (text * text * text)) : gmap text text :=
  omap in_notification m.

Lemma as_map_elem l k v : NoDup (Setting.Key <$> l) →
  as_map l !! k = Some v ↔ ∃ s, s ∈ l ∧ Setting.Key s = k ∧ Setting.Value s = v.
Proof.
  induction l as [|s l IH] using rev_ind; intros Hn.
  { split; [done|]. by intros (s & []%not_elem_of_nil & _). }
  rewrite fmap_app in Hn. apply NoDup_app in Hn as (Hn & Hd & _).
  unfold as_map in *. rewrite foldl_app. cbn [foldl]. rewrite lookup_insert_Some, (IH Hn). split.
  - intros [ [<- <-] | (_ & q & Hq & <- & <-)]; [exists s|exists q]; (split; [apply elem_of_app|done]);
      [right; by apply list_elem_of_singleton|by left].
  - intros (q & [Hq | ->%list_elem_of_singleton]%elem_of_app & <- & <-); [|by left].
    right. split; [|eauto]. intros E. apply (Hd (Setting.Key q)); [by apply list_elem_of_fmap_2|].
    apply list_elem_of_singleton. done.
Qed.

Lemma keys_kept p l : NoDup (Setting.Key <$> l) → NoDup (Setting.Key <$> keep p l).
Proof.
  induction l as [|s l IH]; [done|]. cbn. intros [Hs Hn]%NoDup_cons. destruct (p s); [|by apply IH].
  cbn. apply NoDup_cons. split; [|by apply IH]. intros (q & E & Hq)%list_elem_of_fmap. apply Hs.
  apply list_elem_of_fmap. apply elem_of_keep in Hq as [Hq _]. eauto.
Qed.

Lemma notification_rows db : settings_ok db →
  as_map (keep (λ s, text_eqb (Setting.Category s) (txt "notification")) (settings db)) =
  notification_settings (settings_map db).
Proof.
  intros Hok. apply map_eq. intros k. apply option_eq. intros v.
  rewrite as_map_elem by (apply keys_kept, Hok). unfold notification_settings.
  rewrite lookup_omap, bind_Some. unfold in_notification. split.
  - intros (s & [Hs Hc]%elem_of_keep & <- & <-). exists (entry_of s).
    split; [apply settings_map_elem; eauto|]. cbn [entry_of fst snd]. by rewrite Hc.
  - intros (e & (s & Hs & Hk & <-)%settings_map_elem & Hv); [|done]. cbn [entry_of fst snd] in Hv.
    destruct (text_eqb _ _) eqn:Hc; [|done]. injection Hv as <-. exists s.
    split_and!; [|done..]. by apply elem_of_keep.
Qed.

(** The manager a map of settings makes. *)
Definition manager_of (m : gmap text (text * text * text)) : NotificationManager :=
  let l := configured_channels (notification_settings m) in
  {| notifiers := l; enabled := negb (is_empty l) |}.

Lemma loadConfig_manager {E} m db : settings_ok db →
  loadConfig (E := E) m db [] = (Ok (manager_of (settings_map db)), db, []).
Proof.
  intros Hok. unfold loadConfig. rewrite bind_run. unfold attempt, GetByCategory, find, query.
  rewrite notification_rows by done. done.
Qed.

(** Saved settings of the notifications take effect: the handler asks the
    manager to reload, and whatever it was before, it then has one channel for
    each platform that the saved settings switch on with a webhook, with the
    saved secret; it is enabled if there is any. *)
Theorem settings_reach_channels err_text w request db f effects db' f' s m :
  settings_ok db → Forall real_key (settings_of request) →
  has_notifications w = true → s ∈ settings_of request → Setting.Category s = txt "notification" →
  UpdateSettings err_text w (Some request) db f = (Ok effects, db', f') →
  ReloadNotifications ∈ effects ∧
  ReloadFromDatabase (E := db_error) m db' [] =
    (Ok (manager_of (set_all (settings_map db) (settings_of request))), db', []).
Proof.
  intros Hok HF Hw Hs Hc Hr. destruct (UpdateSettings_Ok err_text _ _ _ _ _ _ _ Hok HF Hr) as [Hok' Hm].
  unfold UpdateSettings in Hr. apply bind_Ok in Hr as (u & db1 & f1 & _ & Hrun).
  injection Hrun as <- _ _. rewrite Hw. split.
  - apply elem_of_app. left.
    assert (s ∈ keep (λ s, text_eqb (Setting.Category s) (txt "notification")) (settings_of request)) as Hin
      by (apply elem_of_keep; by rewrite Hc, text_eqb_refl).
    destruct (keep (λ s, text_eqb (Setting.Category s) (txt "notification")) (settings_of request)).
    + by apply not_elem_of_nil in Hin.
    + by left.
  - rewrite <- Hm. by apply loadConfig_manager.
Qed.

(** ** What the alerts say *)

Fixpoint leaves (j : json) : list text :=
  match j with
  | JString s => [s]
  | JNumber _ | JBool _ => []
  | JArray l => concat (List.map leaves l)
  | JObject fields => concat (List.map (λ f, leaves f.2) fields)
  end.

Definition says (j : json) (s : text) : Prop := Exists (λ leaf, contains leaf s = true) (leaves j).

(** The address of a channel, to which a signature may be added. *)
Definition webhook (n : Notifier) : text :=
  match n with FeishuNotifier u _ | DingTalkNotifier u _ | WeChatNotifier u => u end.

Lemma contains_lines l s : Exists (λ x, contains x s = true) l → contains (lines l) s = true.
Proof.
  unfold lines. induction 1 as [x l Hs|y l Hx IH].
  - destruct l; [done|]. cbn [join_with]. by apply contains_app_l.
  - destruct l as [|z l]; [by apply Exists_nil in Hx|].
    change (join_with 10 (y :: z :: l)) with (y ++ [10] ++ join_with 10 (z :: l)).
    do 2 apply contains_app_r. exact IH.
Qed.

Lemma contains_refl s : contains s s = true.
Proof. apply contains_spec. exists [], []. by rewrite app_nil_r. Qed.

Lemma says_string x s : contains x s = true → says (JString x) s.
Proof. intros H. by apply Exists_cons_hd. Qed.

Lemma leaves_in ls s : Exists (λ l, Exists (λ leaf, contains leaf s = true) l) ls →
  Exists (λ leaf, contains leaf s = true) (concat ls).
Proof. induction 1 as [l ls H|l ls _ IH]; cbn [concat]; apply Exists_app; [by left|by right]. Qed.

Lemma says_array l s : Exists (λ j, says j s) l → says (JArray l) s.
Proof. intros H. apply leaves_in. induction H; [by left|by right]. Qed.

Lemma says_obj fields s : Exists (λ f, says f.2 s) fields → says (obj fields) s.
Proof. intros H. apply leaves_in. induction H; [by left|by right]. Qed.

(** Looks for the place in the message where the text stands. *)
Ltac find_text :=
  match goal with
  | |- says (JString _) _ => apply says_string; find_text
  | |- says (JArray _) _ => apply says_array; find_text
  | |- says (obj _) _ => apply says_obj; find_text
  | |- Exists _ (_ :: _) => first [apply Exists_cons_hd; cbn [fst snd]; find_text | apply Exists_cons_tl; find_text]
  | |- contains ?s ?s = true => apply contains_refl
  | |- contains (lines ?l) ?s = true => apply contains_lines; find_text
  | |- contains (_ ++ _) _ = true => first [apply contains_app_r; find_text | apply contains_app_l; find_text]
  end.

Section alerts.
Context (hmac_sha256 : bytes → bytes → bytes).

Definition reports (n : Notifier) (p : post) (username host command reason : text) : Prop :=
  has_prefix (url p) (webhook n) = true ∧
  Forall (says (body p)) [username; host; command; reason].

Lemma dingtalk_url_prefix u secret c : has_prefix (dingtalk_url hmac_sha256 u secret c) u = true.
Proof.
  unfold dingtalk_url. destruct (is_empty secret); apply has_prefix_spec; [exists []; by rewrite app_nil_r|].
  by eexists.
Qed.

Lemma dingtalk_says secret c title content s : contains content s = true →
  says (dingtalk_message hmac_sha256 secret c title content) s.
Proof.
  intros H. apply leaves_in. apply Exists_cons_tl, Exists_cons_hd.
  change (says (obj [("title", JString title); ("text", JString content)]) s).
  apply says_obj, Exists_cons_tl, Exists_cons_hd. by apply says_string.
Qed.

Lemma alert_reports n c username host command reason :
  reports n (dangerous_alert hmac_sha256 n c username host command reason) username host command reason.
Proof.
  destruct n as [u secret|u secret|u]; split; cbn [dangerous_alert url body webhook].
  - apply has_prefix_spec. exists []. by rewrite app_nil_r.
  - repeat (apply Forall_cons; split); [..|apply Forall_nil; exact I];
      unfold feishu_dangerous, feishu_message, short, lark_md; find_text.
  - apply dingtalk_url_prefix.
  - repeat (apply Forall_cons; split); [..|apply Forall_nil; exact I];
      apply dingtalk_says; unfold dingtalk_content; find_text.
  - apply has_prefix_spec. exists []. by rewrite app_nil_r.
  - repeat (apply Forall_cons; split); [..|apply Forall_nil; exact I];
      unfold wechat_message, wechat_content; find_text.
Qed.

(** A blocked command is reported on every channel that is configured, and
    only a blocked one: each channel's webhook is sent one message, which says
    who ran which command on which host, and why it was blocked. *)
Theorem blocked_command_reported m nm c command username host :
  notificationMgr m = true → IsEnabled nm = true →
  let '(blocked, a) := IsBlockedWithNotify m command username host in
  let posts := alerts_of hmac_sha256 nm c a in
  if blocked
  then Forall2 (λ n p, reports n p username host command (checkBlocked m command username).2)
         (notifiers nm) posts
  else posts = [].
Proof.
  intros Hm Hnm. unfold IsBlockedWithNotify. destruct (checkBlocked m command username) as [b reason].
  rewrite Hm, andb_true_r. destruct b; [|done].
  cbn [alerts_of alert_username alert_host alert_command alert_reason snd].
  unfold SendDangerousCommandAlert. unfold IsEnabled in Hnm.
  apply andb_true_iff in Hnm as [-> Hn]. apply negb_true_iff in Hn. rewrite Hn. cbn [negb orb].
  apply Forall2_fmap_r. apply Forall_Forall2_diag, Forall_true. intros n. apply alert_reports.
Qed.
End alerts.

(** A test succeeds exactly when the platform answers 200. *)
Lemma test_channel_success hmac n name group c answer :
  success (test_channel hmac n name group c answer) = true ↔
  answer (SendAlert hmac n c (txt " ZJump 通知测试") (test_content n c)) = Ok 200.
Proof.
  unfold test_channel, sent. destruct (answer _) as [status|e]; [|done].
  destruct (status =? 200) eqn:E.
  - apply Z.eqb_eq in E as ->. done.
  - split; [done|]. intros [= ->]. done.
Qed.

(** The level of an alert is the length of the command. *)
Example rm_is_medium : riskLevel (txt "rm -rf /") = txt "🟠 中危".
Proof. vm_compute. reflexivity. Qed.

(** ** Witnesses *)

Definition feishu_request : list (text * entry) :=
  [(txt "notification", Object [(txt "enableFeishu", Bool true); (txt "feishuWebhook", Str (txt "https://f/x"))])].

Definition one_channel : NotificationManager :=
  {| notifiers := [FeishuNotifier (txt "https://f/x") []]; enabled := true |}.

Lemma feishu_request_real : Forall real_key (settings_of feishu_request).
Proof.
  assert (forallb (λ s, negb (is_empty (Setting.Key s))) (settings_of feishu_request) = true) as H
    by (vm_compute; reflexivity).
  apply Forall_forall. intros s Hs. apply negb_true_iff.
  by apply (proj1 (forallb_forall _ _) H), list_elem_of_In.
Defined.

Lemma settings_reach_channels_witness :
  let db' := after (UpdateSettings plain_err all_wired (Some feishu_request) one_setting []) in
  ReloadFromDatabase (E := db_error) NewNotificationManager db' [] = (Ok one_channel, db', []).
Proof.
  intros db'.
  assert (manager_of (set_all (settings_map one_setting) (settings_of feishu_request)) = one_channel) as Hm
    by (vm_compute; reflexivity).
  destruct (settings_reach_channels plain_err all_wired feishu_request one_setting [] [ReloadNotifications] db' []
    (new_setting (txt "enableFeishu") (txt "notification") (Bool true)) NewNotificationManager
    one_setting_ok feishu_request_real) as [_ H].
  - reflexivity.
  - apply list_elem_of_In. vm_compute. left. reflexivity.
  - reflexivity.
  - vm_compute. reflexivity.
  - rewrite H, Hm. reflexivity.
Defined.

Lemma blocked_command_reported_witness :
  let m := SetNotificationManager (Blacklist.set_rules emptyManager []
    [to_rule (sample_row (txt "vi") scope_user [txt "bob"])]) true in
  let posts := alerts_of (λ _ _, []) one_channel {| unix := 0; millis := 0; date := [] |}
    (IsBlockedWithNotify m (txt "vi x") (txt "bob") (txt "10.0.0.5")).2 in
  ∃ p, posts = [p] ∧ url p = txt "https://f/x" ∧ says (body p) (txt "10.0.0.5").
Proof.
  intros m posts.
  pose proof (blocked_command_reported (λ _ _, []) m one_channel {| unix := 0; millis := 0; date := [] |}
    (txt "vi x") (txt "bob") (txt "10.0.0.5") eq_refl eq_refl) as H.
  subst posts. destruct (IsBlockedWithNotify m (txt "vi x") (txt "bob") (txt "10.0.0.5")) as [b a] eqn:E.
  assert (b = true) as -> by (apply (f_equal fst) in E; vm_compute in E; by symmetry).
  apply Forall2_cons_inv_l in H as (p & l & [_ Hp] & Hnil & E'). apply Forall2_nil_inv_l in Hnil as ->.
  exists p. split; [exact E'|]. split.
  - apply (f_equal snd) in E. vm_compute in E. subst a. vm_compute in E'. by injection E' as <-.
  - apply Forall_cons in Hp as [_ Hp]. by apply Forall_cons in Hp as [Hp _].
Defined.
