(* ===== verification/Routes.v ===== *)
(** * The routes of the API

    [internal/api/router/router.go] and [internal/api/middleware]: the table of
    the routes in the order of the source, each with the middlewares it runs
    behind, and what it takes to get through them.  The match of a path is gin's;
    that it starts with this table, as its documentation has it, is proved. *)

From stdpp Require Import base list strings.
From Stdlib Require Import ZArith Lia.
From S2P Require Import Prelude GoStrings Gorm Models Accounts Auth.
Local Open Scope Z_scope.
Local Open Scope string_scope.

(** ** The table *)

Inductive middleware := CORS | AuthMiddleware | AdminMiddleware.
Record route := { method : string; path : string; chain : list middleware; handler : string }.

(** A group of routes: the prefix and the middlewares they share. *)
Record group := { base : string; uses : list middleware }.
Definition Group (g : group) (prefix : string) : group := {| base := base g +:+ prefix; uses := uses g |}.
Definition Use (g : group) (m : middleware) : group := {| base := base g; uses := uses g ++ [m] |}.

Definition entry (method path handler : string) : route :=
  {| method := method; path := path; chain := []; handler := handler |}.
Definition GET := entry "GET".
Definition POST := entry "POST".
Definition PUT := entry "PUT".
Definition PATCH := entry "PATCH".
Definition DELETE := entry "DELETE".
(** A route with the middleware of administrators in front of its handler. *)
Definition guarded (e : route) : route :=
  {| method := method e; path := path e; chain := [AdminMiddleware]; handler := handler e |}.
Definition on (g : group) (l : list route) : list route :=
  (λ e, {| method := method e; path := base g +:+ path e; chain := uses g ++ chain e; handler := handler e |}) <$> l.

Definition root_group : group := {| base := EmptyString; uses := [CORS] |}.
Definition api_group : group := Group root_group "/api".
Definition auth_group : group := Group api_group "/auth".
Definition proxy_group : group := Group api_group "/proxy".
Definition signed_in_group : group := Use (Group api_group EmptyString) AuthMiddleware.
Definition admin_group (prefix : string) : group := Use (Group signed_in_group prefix) AdminMiddleware.
Definition twoFactor_group : group := Group signed_in_group "/two-factor".
Definition dashboard_group : group := Group signed_in_group "/dashboard".
Definition hosts_group : group := Group signed_in_group "/hosts".
Definition hostGroups_group : group := Group signed_in_group "/host-groups".
Definition sessions_group : group := Group signed_in_group "/sessions".
Definition files_group : group := Group signed_in_group "/files".
Definition sessionManage_group : group := admin_group "/sessions".
Definition commands_group : group := admin_group "/commands".
Definition blacklist_group : group := admin_group "/proxy/blacklist".
Definition proxyManage_group : group := admin_group "/proxy".
Definition userSSHKey_group : group := Group signed_in_group "/user-management".
Definition userManage_group : group := admin_group "/user-management".
Definition settings_group : group := admin_group "/settings".
Definition adminTwoFactor_group : group := admin_group "/admin/two-factor".
Definition routing_group : group := Group signed_in_group "/routing".
Definition approvals_group : group := Group signed_in_group "/approvals".
Definition approvalConfig_group : group := admin_group "/approvals/config".
Definition assetSync_group : group := admin_group "/asset-sync".
Definition systemUsers_group : group := Group signed_in_group "/system-users".
Definition userGroups_group : group := Group signed_in_group "/user-groups".
Definition permissionRules_group : group := admin_group "/permission-rules".

Definition root_routes : list route := on root_group
  [GET "/ws/connect" "connectionHandler.HandleConnection"].
Definition auth_routes : list route := on auth_group
  [POST "/register" "authHandler.Register";
   POST "/login" "authHandler.Login";
   POST "/logout" "authHandler.Logout";
   GET "/method" "authHandler.GetAuthMethod";
   GET "/sso/config" "authHandler.GetSSOConfig";
   GET "/sso/initiate" "authHandler.InitiateSSO";
   GET "/sso/callback" "authHandler.SSOCallback"].
Definition api_routes : list route := on api_group
  [GET "/settings/public" "settingHandler.GetPublicSettings";
   GET "/auth/methods" "settingHandler.GetAuthMethods"].
Definition proxy_routes : list route := on proxy_group
  [POST "/register" "proxyHandler.RegisterProxy";
   POST "/unregister" "proxyHandler.Unregister";
   POST "/heartbeat" "proxyHandler.Heartbeat";
   POST "/sessions" "proxyHandler.ReportSession";
   POST "/sessions/:session_id/close" "proxyHandler.CloseSession";
   POST "/commands" "proxyHandler.ReportCommand";
   POST "/sessions/batch" "proxyHandler.SyncSessions";
   POST "/commands/batch" "proxyHandler.SyncCommands";
   GET "/blacklist" "blacklistHandler.GetActiveCommands";
   GET "/validate-token" "sessionHandler.ValidateToken"].
Definition signed_in_routes : list route := on signed_in_group
  [GET "/auth/me" "authHandler.GetCurrentUser";
   GET "/auth/login-records" "authHandler.GetPlatformLoginRecords";
   GET "/users" "authHandler.GetUsers"].
Definition twoFactor_routes : list route := on twoFactor_group
  [GET "/status" "twoFactorHandler.GetUserStatus";
   GET "/global-status" "twoFactorHandler.GetGlobalStatus";
   POST "/setup" "twoFactorHandler.SetupTwoFactor";
   POST "/verify" "twoFactorHandler.VerifyTwoFactor";
   POST "/disable" "twoFactorHandler.DisableTwoFactor";
   POST "/verify-code" "twoFactorHandler.VerifyCode";
   GET "/backup-codes" "twoFactorHandler.GetBackupCodes";
   POST "/regenerate-backup-codes" "twoFactorHandler.RegenerateBackupCodes"].
Definition dashboard_routes : list route := on dashboard_group
  [GET "/stats" "dashboardHandler.GetStats";
   GET "/recent-logins" "dashboardHandler.GetRecentLogins";
   GET "/frequent-hosts" "dashboardHandler.GetFrequentHosts"].
Definition hosts_routes : list route := on hosts_group
  [GET EmptyString "hostHandler.ListHosts";
   POST EmptyString "hostHandler.CreateHost";
   GET "/:id" "hostHandler.GetHost";
   PUT "/:id" "hostHandler.UpdateHost";
   DELETE "/:id" "hostHandler.DeleteHost";
   POST "/:id/test" "hostHandler.TestConnection";
   POST "/:id/check-status" "hostMonitorHandler.CheckHostStatus";
   POST "/check-all-status" "hostMonitorHandler.CheckAllHostsStatus";
   GET "/:id/groups" "hostGroupHandler.GetHostGroups"].
Definition hostGroups_routes : list route := on hostGroups_group
  [GET EmptyString "hostGroupHandler.ListGroups";
   POST EmptyString "hostGroupHandler.CreateGroup";
   GET "/:id" "hostGroupHandler.GetGroup";
   PUT "/:id" "hostGroupHandler.UpdateGroup";
   DELETE "/:id" "hostGroupHandler.DeleteGroup";
   GET "/:id/hosts" "hostGroupHandler.GetGroupHosts";
   POST "/:id/hosts" "hostGroupHandler.AddHostsToGroup";
   DELETE "/:id/hosts" "hostGroupHandler.RemoveHostsFromGroup";
   GET "/:id/statistics" "hostGroupHandler.GetGroupStatistics";
   GET "/:id/users" "hostGroupHandler.GetGroupUsers"].
Definition sessions_routes : list route := on sessions_group
  [POST EmptyString "sessionHandler.CreateSession";
   GET "/records" "sessionHandler.GetLoginRecords"].
Definition files_routes : list route := on files_group
  [GET "/list" "fileHandler.ListFiles";
   POST "/upload" "fileHandler.UploadFile";
   GET "/download" "fileHandler.DownloadFile";
   POST "/download" "fileHandler.DownloadFile";
   GET "/transfers" "fileHandler.GetFileTransfers"].
Definition sessionManage_routes : list route := on sessionManage_group
  [GET "/recordings" "sessionHandler.GetSessionRecordings";
   GET "/recordings/:sessionId" "sessionHandler.GetSessionRecording";
   POST "/recordings" "sessionHandler.CreateSessionRecording";
   DELETE "/:sessionId/terminate" "sessionHandler.TerminateSession"].
Definition commands_routes : list route := on commands_group
  [GET EmptyString "sessionHandler.GetCommandRecords";
   POST EmptyString "sessionHandler.CreateCommandRecord";
   GET "/session/:sessionId" "sessionHandler.GetCommandsBySession"].
Definition blacklist_routes : list route := on blacklist_group
  [GET "/commands" "blacklistHandler.GetCommands";
   POST "/commands" "blacklistHandler.CreateCommand";
   PATCH "/commands/:id" "blacklistHandler.UpdateCommand";
   DELETE "/commands/:id" "blacklistHandler.DeleteCommand"].
Definition proxyManage_routes : list route := on proxyManage_group
  [GET "/list" "proxyHandler.ListProxies";
   GET "/:proxy_id/stats" "proxyHandler.GetProxyStats"].
Definition userSSHKey_routes : list route := on userSSHKey_group
  [POST "/users/:id/ssh-key/generate" "authHandler.GenerateSSHKey";
   DELETE "/users/:id/ssh-key" "authHandler.DeleteSSHKey";
   GET "/users/:id/ssh-key/download" "authHandler.DownloadSSHPrivateKey";
   PUT "/users/:id/auth-method" "authHandler.UpdateUserAuthMethod"].
Definition userManage_routes : list route := on userManage_group
  [GET "/users" "authHandler.GetUsersWithPagination";
   GET "/users-with-groups" "authHandler.GetUsersWithGroups";
   GET "/users-with-user-groups" "authHandler.GetUsersWithUserGroups";
   POST "/users" "authHandler.CreateUserByAdmin";
   GET "/users/:id" "authHandler.GetUserWithGroups";
   PUT "/users/:id" "authHandler.UpdateUserByAdmin";
   PUT "/users/:id/role" "authHandler.UpdateUserRole";
   PUT "/users/:id/status" "authHandler.UpdateUserStatus";
   DELETE "/users/:id" "authHandler.DeleteUser";
   POST "/users/:id/reset-password" "authHandler.ResetUserPassword";
   GET "/users/:id/groups" "authHandler.GetUserGroups";
   POST "/users/:id/groups" "authHandler.AssignGroupsToUser";
   GET "/users/:id/hosts" "authHandler.GetUserHosts";
   POST "/users/:id/hosts" "authHandler.AssignHostsToUser";
   GET "/users/:id/permissions" "authHandler.GetUserWithGroupsAndHosts"].
Definition settings_routes : list route := on settings_group
  [GET EmptyString "settingHandler.GetAllSettings";
   GET "/:category" "settingHandler.GetSettingsByCategory";
   PUT EmptyString "settingHandler.UpdateSettings";
   PUT "/item" "settingHandler.UpdateSetting";
   DELETE "/:key" "settingHandler.DeleteSetting";
   POST "/test-ldap" "settingHandler.TestLDAPConnection";
   POST "/test-sso" "settingHandler.TestSSOConnection";
   POST "/test-feishu" "settingHandler.TestFeishuNotification";
   POST "/test-dingtalk" "settingHandler.TestDingtalkNotification";
   POST "/test-wechat" "settingHandler.TestWechatNotification"].
Definition adminTwoFactor_routes : list route := on adminTwoFactor_group
  [GET "/config" "twoFactorHandler.GetGlobalConfig";
   PUT "/config" "twoFactorHandler.UpdateGlobalConfig";
   POST "/reset/:userId" "twoFactorHandler.ResetUserTwoFactor"].
Definition routing_routes : list route := on routing_group
  [GET "/config" "routingHandler.GetRoutingConfig";
   PUT "/config" "routingHandler.UpdateRoutingConfig";
   GET "/proxies" "routingHandler.GetAvailableProxies";
   GET "/rules" "routingHandler.ListRoutingRules";
   GET "/rules/:id" "routingHandler.GetRoutingRule";
   POST "/rules" "routingHandler.CreateRoutingRule";
   PUT "/rules/:id" "routingHandler.UpdateRoutingRule";
   DELETE "/rules/:id" "routingHandler.DeleteRoutingRule";
   PATCH "/rules/:id/toggle" "routingHandler.ToggleRoutingRule"].
Definition signed_in_routes2 : list route := on signed_in_group
  [GET "/hosts/:id/route" "routingHandler.GetRoutingDecision"].
Definition approvals_routes : list route := on approvals_group
  [GET EmptyString "approvalHandler.ListApprovals";
   POST EmptyString "approvalHandler.CreateApproval";
   GET "/stats" "approvalHandler.GetApprovalStats";
   GET "/config" "approvalHandler.GetApprovalConfig";
   GET "/search/users" "approvalHandler.SearchUsers";
   GET "/search/hosts" "approvalHandler.SearchHosts";
   GET "/:id" "approvalHandler.GetApproval";
   POST "/:id/approve" "approvalHandler.ApproveApproval";
   POST "/:id/reject" "approvalHandler.RejectApproval";
   POST "/:id/cancel" "approvalHandler.CancelApproval";
   POST "/:id/comments" "approvalHandler.AddComment"].
Definition approvalConfig_routes : list route := on approvalConfig_group
  [POST EmptyString "approvalHandler.UpdateApprovalConfig";
   PUT "/:id" "approvalHandler.UpdateApprovalConfig";
   DELETE "/:id" "approvalHandler.DeleteApprovalConfig"].
Definition assetSync_routes : list route := on assetSync_group
  [GET "/configs" "assetSyncHandler.ListConfigs";
   POST "/configs" "assetSyncHandler.CreateConfig";
   PUT "/configs/:id" "assetSyncHandler.UpdateConfig";
   DELETE "/configs/:id" "assetSyncHandler.DeleteConfig";
   POST "/configs/:id/toggle" "assetSyncHandler.ToggleConfig";
   POST "/configs/:id/sync" "assetSyncHandler.SyncNow";
   GET "/logs" "assetSyncHandler.GetLogs"].
Definition systemUsers_routes : list route := on systemUsers_group
  [GET EmptyString "systemUserHandler.ListSystemUsers";
   GET "/available" "systemUserHandler.GetAvailableSystemUsers";
   GET "/check-permission" "systemUserHandler.CheckPermission";
   GET "/:id" "systemUserHandler.GetSystemUser";
   guarded (POST EmptyString "systemUserHandler.CreateSystemUser");
   guarded (PUT "/:id" "systemUserHandler.UpdateSystemUser");
   guarded (DELETE "/:id" "systemUserHandler.DeleteSystemUser")].
Definition userGroups_routes : list route := on userGroups_group
  [GET EmptyString "userGroupHandler.ListUserGroups";
   GET "/by-user" "userGroupHandler.GetUserGroups";
   GET "/:id" "userGroupHandler.GetUserGroup";
   GET "/:id/members" "userGroupHandler.GetUserGroupMembers";
   guarded (POST EmptyString "userGroupHandler.CreateUserGroup");
   guarded (PUT "/:id" "userGroupHandler.UpdateUserGroup");
   guarded (DELETE "/:id" "userGroupHandler.DeleteUserGroup");
   guarded (POST "/:id/members" "userGroupHandler.AddUserGroupMember");
   guarded (DELETE "/:id/members/:userId" "userGroupHandler.RemoveUserGroupMember");
   guarded (POST "/:id/members/batch" "userGroupHandler.BatchAddMembers")].
Definition permissionRules_routes : list route := on permissionRules_group
  [GET EmptyString "permissionRuleHandler.ListPermissionRules";
   GET "/:id" "permissionRuleHandler.GetPermissionRule";
   POST EmptyString "permissionRuleHandler.CreatePermissionRule";
   PUT "/:id" "permissionRuleHandler.UpdatePermissionRule";
   DELETE "/:id" "permissionRuleHandler.DeletePermissionRule";
   GET "/by-user-group" "permissionRuleHandler.GetPermissionRulesByUserGroup";
   GET "/by-host-group" "permissionRuleHandler.GetPermissionRulesByHostGroup"].
Definition api_routes2 : list route := on api_group
  [POST "/approvals/callback/feishu" "approvalCallbackHandler.HandleFeishuCallback";
   POST "/approvals/callback/dingtalk" "approvalCallbackHandler.HandleDingTalkCallback";
   POST "/approvals/callback/wechat" "approvalCallbackHandler.HandleWeChatCallback"].
Definition root_routes2 : list route := on root_group
  [GET "/metrics" "promhttp.Handler";
   GET "/health" "health";
   GET "/swagger/*any" "swaggerFiles.Handler"].
Definition routes : list route :=
  root_routes ++ auth_routes ++ api_routes ++ proxy_routes ++ signed_in_routes ++
  twoFactor_routes ++ dashboard_routes ++ hosts_routes ++ hostGroups_routes ++ sessions_routes ++
  files_routes ++ sessionManage_routes ++ commands_routes ++ blacklist_routes ++ proxyManage_routes ++
  userSSHKey_routes ++ userManage_routes ++ settings_routes ++ adminTwoFactor_routes ++ routing_routes ++
  signed_in_routes2 ++ approvals_routes ++ approvalConfig_routes ++ assetSync_routes ++ systemUsers_routes ++
  userGroups_routes ++ permissionRules_routes ++ api_routes2 ++ root_routes2.

(** ** Getting through *)

(** What the middlewares look at. *)
Record request := { verb : string; authorization : text; token : text }.

(** The handler runs, with the caller the middlewares found, or an answer is sent. *)
Inductive admission := Reached (caller : option Claims.t) | Refused (status : Z) (message : text).

(** The methods a browser may use from another origin. *)
Definition allow_methods : list string := ["POST"; "OPTIONS"; "GET"; "PUT"; "DELETE"].

Section middlewares.
Context `{Crypto} `{Unicode}.

Fixpoint run_chain (l : list middleware) (r : request) (now : Z) (caller : option Claims.t) : admission :=
  match l with
  | [] => Reached caller
  | CORS :: l => if decide (verb r = "OPTIONS") then Refused 204 [] else run_chain l r now caller
  | AuthMiddleware :: l =>
      match Auth.AuthMiddleware (authorization r) (token r) now with
      | Err e => Refused 401 e
      | Ok c => run_chain l r now (Some c)
      end
  | AdminMiddleware :: l =>
      match caller with
      | Some c => if Auth.AdminMiddleware c then run_chain l r now caller
                  else Refused 403 (txt "Administrator permissions required")
      | None => Refused 403 (txt "Administrator permissions required")
      end
  end.

Definition enter (e : route) (r : request) (now : Z) : admission := run_chain (chain e) r now None.
End middlewares.

(** ** Who may do what *)

(** Served without a token: signing in, the agents, the call-backs of the
    approval platforms and the pages about the server itself. *)
Definition anonymous : list string :=
  ["connectionHandler.HandleConnection"; "authHandler.Register"; "authHandler.Login"; "authHandler.Logout";
   "authHandler.GetAuthMethod"; "authHandler.GetSSOConfig"; "authHandler.InitiateSSO";
   "authHandler.SSOCallback"; "settingHandler.GetPublicSettings"; "settingHandler.GetAuthMethods";
   "proxyHandler.RegisterProxy"; "proxyHandler.Unregister"; "proxyHandler.Heartbeat";
   "proxyHandler.ReportSession"; "proxyHandler.CloseSession"; "proxyHandler.ReportCommand";
   "proxyHandler.SyncSessions"; "proxyHandler.SyncCommands"; "blacklistHandler.GetActiveCommands";
   "sessionHandler.ValidateToken"; "approvalCallbackHandler.HandleFeishuCallback";
   "approvalCallbackHandler.HandleDingTalkCallback"; "approvalCallbackHandler.HandleWeChatCallback";
   "promhttp.Handler"; "health"; "swaggerFiles.Handler"].

(** Only for a token issued to an administrator. *)
Definition administrators : list string :=
  ["sessionHandler.GetSessionRecordings"; "sessionHandler.GetSessionRecording";
   "sessionHandler.CreateSessionRecording"; "sessionHandler.TerminateSession";
   "sessionHandler.GetCommandRecords"; "sessionHandler.CreateCommandRecord";
   "sessionHandler.GetCommandsBySession"; "blacklistHandler.GetCommands"; "blacklistHandler.CreateCommand";
   "blacklistHandler.UpdateCommand"; "blacklistHandler.DeleteCommand"; "proxyHandler.ListProxies";
   "proxyHandler.GetProxyStats"; "authHandler.GetUsersWithPagination"; "authHandler.GetUsersWithGroups";
   "authHandler.GetUsersWithUserGroups"; "authHandler.CreateUserByAdmin"; "authHandler.GetUserWithGroups";
   "authHandler.UpdateUserByAdmin"; "authHandler.UpdateUserRole"; "authHandler.UpdateUserStatus";
   "authHandler.DeleteUser"; "authHandler.ResetUserPassword"; "authHandler.GetUserGroups";
   "authHandler.AssignGroupsToUser"; "authHandler.GetUserHosts"; "authHandler.AssignHostsToUser";
   "authHandler.GetUserWithGroupsAndHosts"; "settingHandler.GetAllSettings";
   "settingHandler.GetSettingsByCategory"; "settingHandler.UpdateSettings"; "settingHandler.UpdateSetting";
   "settingHandler.DeleteSetting"; "settingHandler.TestLDAPConnection"; "settingHandler.TestSSOConnection";
   "settingHandler.TestFeishuNotification"; "settingHandler.TestDingtalkNotification";
   "settingHandler.TestWechatNotification"; "twoFactorHandler.GetGlobalConfig";
   "twoFactorHandler.UpdateGlobalConfig"; "twoFactorHandler.ResetUserTwoFactor";
   "approvalHandler.UpdateApprovalConfig"; "approvalHandler.UpdateApprovalConfig";
   "approvalHandler.DeleteApprovalConfig"; "assetSyncHandler.ListConfigs"; "assetSyncHandler.CreateConfig";
   "assetSyncHandler.UpdateConfig"; "assetSyncHandler.DeleteConfig"; "assetSyncHandler.ToggleConfig";
   "assetSyncHandler.SyncNow"; "assetSyncHandler.GetLogs"; "systemUserHandler.CreateSystemUser";
   "systemUserHandler.UpdateSystemUser"; "systemUserHandler.DeleteSystemUser";
   "userGroupHandler.CreateUserGroup"; "userGroupHandler.UpdateUserGroup";
   "userGroupHandler.DeleteUserGroup"; "userGroupHandler.AddUserGroupMember";
   "userGroupHandler.RemoveUserGroupMember"; "userGroupHandler.BatchAddMembers";
   "permissionRuleHandler.ListPermissionRules"; "permissionRuleHandler.GetPermissionRule";
   "permissionRuleHandler.CreatePermissionRule"; "permissionRuleHandler.UpdatePermissionRule";
   "permissionRuleHandler.DeletePermissionRule"; "permissionRuleHandler.GetPermissionRulesByUserGroup";
   "permissionRuleHandler.GetPermissionRulesByHostGroup"].

Inductive access := Anyone | Users | Administrators.
Definition access_of (handler : string) : access :=
  if decide (handler ∈ anonymous) then Anyone
  else if decide (handler ∈ administrators) then Administrators else Users.

Definition chain_of (a : access) : list middleware :=
  match a with
  | Anyone => [CORS]
  | Users => [CORS; AuthMiddleware]
  | Administrators => [CORS; AuthMiddleware; AdminMiddleware]
  end.

#[global] Instance middleware_eq_dec : EqDecision middleware.
Proof. solve_decision. Defined.

Lemma chains_follow e : e ∈ routes → chain e = chain_of (access_of (handler e)).
Proof.
  assert (forallb (λ e, bool_decide (chain e = chain_of (access_of (handler e)))) routes = true) as Ha
    by (vm_compute; reflexivity).
  intros He%list_elem_of_In. by apply (proj1 (forallb_forall _ _) Ha), bool_decide_eq_true in He.
Qed.

Lemma methods_plain e : e ∈ routes → method e ≠ "OPTIONS".
Proof.
  assert (forallb (λ e, bool_decide (method e ≠ "OPTIONS")) routes = true) as Ha by (vm_compute; reflexivity).
  intros He%list_elem_of_In. by apply (proj1 (forallb_forall _ _) Ha), bool_decide_eq_true in He.
Qed.

Section access.
Context `{Crypto} `{Unicode}.

(** What the token of a request says. *)
Definition bearer (r : request) (now : Z) : result text Claims.t :=
  Auth.AuthMiddleware (authorization r) (token r) now.

Definition allowed (a : access) (r : request) (now : Z) (caller : option Claims.t) : Prop :=
  match a with
  | Anyone => caller = None
  | Users => ∃ c, caller = Some c ∧ bearer r now = Ok c
  | Administrators => ∃ c, caller = Some c ∧ bearer r now = Ok c ∧ Claims.Role c = admin
  end.

(** Running the middlewares of an access is having it. *)
Lemma chain_allows a r now caller : verb r ≠ "OPTIONS" →
  run_chain (chain_of a) r now None = Reached caller ↔ allowed a r now caller.
Proof.
  intros Hv. unfold allowed, bearer.
  destruct a; cbn [chain_of run_chain]; (destruct (decide (verb r = "OPTIONS")); [done|]).
  - by split; [intros [= <-]|intros ->].
  - destruct (Auth.AuthMiddleware _ _ _) as [c|m].
    + split; [intros [= <-]; eauto|by intros (c' & -> & [= ->])].
    + split; [done|by intros (c' & _ & ?)].
  - destruct (Auth.AuthMiddleware _ _ _) as [c|m]; [|split; [done|by intros (c' & _ & ? & _)] ].
    unfold Auth.AdminMiddleware. destruct (text_eqb (Claims.Role c) admin) eqn:E.
    + apply text_eqb_true in E. split; [intros [= <-]; eauto|by intros (c' & -> & [= ->] & _)].
    + split; [done|]. intros (c' & _ & [= <-] & Hr). by rewrite Hr, text_eqb_refl in E.
Qed.

(** Who reaches which handler: the ones of the first list anyone, without a
    caller; those of the second exactly the requests with a valid token issued to
    an administrator; every other one exactly those with a valid token, and the
    caller is who the token names. *)
Theorem who_reaches e r now caller : e ∈ routes → verb r ≠ "OPTIONS" →
  enter e r now = Reached caller ↔ allowed (access_of (handler e)) r now caller.
Proof. intros He Hv. unfold enter. rewrite (chains_follow e He). by apply chain_allows. Qed.
End access.

(** ** The table can be registered *)

Definition slash : Ascii.ascii := Ascii.ascii_of_nat 47.

Fixpoint segments (s : string) : list string :=
  match s with
  | EmptyString => [EmptyString]
  | String c s =>
      match segments s with
      | x :: l => if Ascii.eqb c slash then EmptyString :: x :: l else String c x :: l
      | [] => []
      end
  end.

Definition starts (c : string) (s : string) : bool := String.prefix c s.
Definition is_param (s : string) : bool := starts ":" s.
Definition catches_all (s : string) : bool := starts "*" s.

(** gin panics when a path is registered twice, when two parameters at the same
    place have different names, and when something stands beside a catch-all. *)
Fixpoint clash (a b : list string) : bool :=
  match a, b with
  | [], [] => true
  | x :: a, y :: b =>
      if decide (x = y) then clash a b
      else is_param x && is_param y || catches_all x || catches_all y
  | _, _ => false
  end.

Definition registered (e : route) : string * list string := (method e, segments (path e)).
Definition collide (a b : string * list string) : bool := bool_decide (a.1 = b.1) && clash a.2 b.2.

Fixpoint separate (l : list (string * list string)) : bool :=
  match l with
  | [] => true
  | a :: l => forallb (λ b, negb (collide a b)) l && separate l
  end.

Lemma separate_pairs l i j a b : separate l = true → l !! i = Some a → l !! j = Some b → (i < j)%nat →
  collide a b = false.
Proof.
  revert i j. induction l as [|x l IH]; [done|]. intros i j [Hx Hl]%andb_true_iff Hi Hj Hij.
  destruct j as [|j]; [lia|]. destruct i as [|i]; simpl in *; [|by eapply (IH i j); [..|lia] ].
  injection Hi as ->. apply negb_true_iff.
  apply list_elem_of_lookup_2, list_elem_of_In in Hj. exact (proj1 (forallb_forall _ _) Hx _ Hj).
Qed.

(** The server starts: no two routes of a method have the same path, or
    parameters of different names at the same place, or a catch-all beside
    another path, so gin accepts the whole table. *)
Theorem routes_register i j e e' : routes !! i = Some e → routes !! j = Some e' → (i < j)%nat →
  method e = method e' → clash (segments (path e)) (segments (path e')) = false.
Proof.
  intros Hi Hj Hij Hm.
  assert (separate (registered <$> routes) = true) as Hs by (vm_compute; reflexivity).
  assert (collide (registered e) (registered e') = false) as Hc.
  { eapply separate_pairs; [exact Hs|..|exact Hij]; by rewrite list_lookup_fmap, ?Hi, ?Hj. }
  unfold collide, registered in Hc. cbn [fst snd] in Hc.
  by rewrite Hm, bool_decide_eq_true_2 in Hc.
Qed.

(** Two routes are for PATCH, which a browser is not allowed from another origin. *)
Example patch_refused :
  (handler <$> base.filter (λ e, method e ∉ allow_methods) routes) =
    ["blacklistHandler.UpdateCommand"; "routingHandler.ToggleRoutingRule"].
Proof. vm_compute. reflexivity. Qed.

(** Nothing but a token is asked of who changes the hosts, their groups and the
    routing. *)
Example hosts_open_to_users :
  Forall (λ h, access_of h = Users)
    ["hostHandler.CreateHost"; "hostHandler.UpdateHost"; "hostHandler.DeleteHost"; "hostGroupHandler.CreateGroup";
     "hostGroupHandler.UpdateGroup"; "hostGroupHandler.DeleteGroup"; "hostGroupHandler.AddHostsToGroup";
     "hostGroupHandler.RemoveHostsFromGroup"; "routingHandler.UpdateRoutingConfig";
     "approvalHandler.ApproveApproval"].
Proof. repeat constructor. Qed.

(** ** Witnesses *)

Definition delete_user : route :=
  {| method := "DELETE"; path := "/api/user-management/users/:id"; chain := [CORS; AuthMiddleware; AdminMiddleware];
     handler := "authHandler.DeleteUser" |}.
Definition by_root : request :=
  {| verb := "DELETE"; authorization := (txt "Bearer " ++ claims_code (claims_of (User.set_role bob admin) 5))%list;
     token := [] |}.

Lemma who_reaches_witness :
  enter delete_user by_root 6 = Reached (Some (claims_of (User.set_role bob admin) 5)) ∧
  handler delete_user = "authHandler.DeleteUser".
Proof.
  split; [|reflexivity].
  apply (who_reaches delete_user by_root 6 (Some (claims_of (User.set_role bob admin) 5))).
  - apply list_elem_of_lookup. exists 85%nat. vm_compute. reflexivity.
  - done.
  - exists (claims_of (User.set_role bob admin) 5).
    split; [reflexivity|split; [vm_compute; reflexivity|reflexivity] ].
Defined.

Lemma routes_register_witness :
  clash (segments "/ws/connect") (segments "/api/auth/method") = false.
Proof.
  apply (routes_register 0 4
    {| method := "GET"; path := "/ws/connect"; chain := [CORS]; handler := "connectionHandler.HandleConnection" |}
    {| method := "GET"; path := "/api/auth/method"; chain := [CORS]; handler := "authHandler.GetAuthMethod" |}).
  - vm_compute. reflexivity.
  - vm_compute. reflexivity.
  - lia.
  - reflexivity.
Defined.
