(* ===== verification/AuthApi.v ===== *)
(** * The API of the accounts

    [internal/api/handler/auth_handler.go] over [AuthService]: signing in and
    out, the administration of users, single sign-on and the SSH keys, served
    through the routes of Routes.v.  A request is its decoded body; [None] is one
    that gin could not decode.  The hash, the tokens, the clock, the new ids and
    the providers of single sign-on are parameters, as in Auth.v. *)

From stdpp Require Import base list strings sorting.
From Stdlib Require Import ZArith Lia.
From S2P Require Import Prelude GoStrings Encodings Gorm Models Database Repositories Permissions Accounts Auth TwoFactor Settings Routes.
Local Open Scope Z_scope.

(** ** Listings of the repository *)

Module UserWithGroups.
Record t := { User_ : User.t; GroupIDs : list text; HostIDs : list text }.
End UserWithGroups.

Definition clamp_page (page : Z) : Z := if page <? 1 then 1 else page.
Definition clamp_size (pageSize : Z) : Z := if (pageSize <? 1) || (100 <? pageSize) then 10 else pageSize.

Section listings.
Context (like_user : text → User.t → bool).

(** [Select] reads these columns only. *)
Definition listed (u : User.t) : User.t :=
  {| User.ID := User.ID u; User.Username := User.Username u; User.Password := [];
     User.SSHPublicKey := []; User.SSHPrivateKeyEncrypted := []; User.AuthMethod := [];
     User.SSHKeyGeneratedAt := None; User.SSHKeyFingerprint := []; User.Email := User.Email u;
     User.FullName := User.FullName u; User.Role := User.Role u; User.Status := User.Status u;
     User.ExpiresAt := None; User.ExpirationWarningSent := false;
     User.AutoDisableOnExpiry := false; User.LastLoginTime := None; User.LastLoginIP := [];
     User.TwoFactorEnabled := false; User.TwoFactorSecret := []; User.TwoFactorBackupCodes := [];
     User.TwoFactorVerifiedAt := None |}.
Definition FindAllUsers : DB (list User.t) :=
  find (λ db, listed <$> keep (λ u, text_eqb (User.Status u) active) (users db)).

Definition FindAllUsersWithPagination (page pageSize : Z) (keyword : text) : DB (list User.t * Z) :=
  let rows db := if is_empty keyword then users db else keep (like_user keyword) (users db) in
  total ← query (λ db, Ok (Z.of_nat (length (rows db))));
  l ← find (λ db, page_of page pageSize (rows db));
  mret (l, total).

(** The body runs for each row in turn; the first error is the answer. *)
Fixpoint each {E A B} (body : A → Eff E B) (l : list A) : Eff E (list B) :=
  match l with
  | [] => mret []
  | x :: l => y ← body x; ys ← each body l; mret (y :: ys)
  end.

Definition with_groups (user : User.t) : DB UserWithGroups.t :=
  groupIDs ← GetUserGroups (User.ID user);
  mret {| UserWithGroups.User_ := user; UserWithGroups.GroupIDs := groupIDs; UserWithGroups.HostIDs := [] |}.
Definition with_groups_and_hosts (user : User.t) : DB UserWithGroups.t :=
  groupIDs ← GetUserGroups (User.ID user);
  hostIDs ← GetUserHosts (User.ID user);
  mret {| UserWithGroups.User_ := user; UserWithGroups.GroupIDs := groupIDs; UserWithGroups.HostIDs := hostIDs |}.

Definition GetUserWithGroups (userID : text) : DB UserWithGroups.t := FindUserByID userID ≫= with_groups.
Definition GetUserWithGroupsAndHosts (userID : text) : DB UserWithGroups.t :=
  FindUserByID userID ≫= with_groups_and_hosts.

Definition FindAllUsersWithGroups (page pageSize : Z) (keyword : text) : DB (list UserWithGroups.t * Z) :=
  r ← FindAllUsersWithPagination page pageSize keyword;
  l ← each with_groups r.1; mret (l, r.2).
Definition FindAllUsersWithGroupsAndHosts (page pageSize : Z) (keyword : text)
    : DB (list UserWithGroups.t * Z) :=
  r ← FindAllUsersWithPagination page pageSize keyword;
  l ← each with_groups_and_hosts r.1; mret (l, r.2).
End listings.

(** [AssignHostsToUser]: the old table is no longer written. *)
Definition repo_AssignHostsToUser (userID : text) (hostIDs : list text) (createdBy : text) : DB unit := mret ().

(** The active groups of a user: the join of groups with their members. *)
Definition GetGroupsByUserID (userID : text) : DB (list UserGroup.t) := find (λ db,
  mjoin ((λ g, (λ _, g) <$> keep (λ m, text_eqb (UserGroupMember.UserGroupID m) (UserGroup.ID g) &&
                                       text_eqb (UserGroupMember.UserID m) userID) (user_group_members db))
         <$> keep (λ g, text_eqb (UserGroup.Status g) active) (user_groups db))).

(** *** The records of the logins *)

Definition login_before (a b : PlatformLogin.t) : Prop := PlatformLogin.LoginTime b <= PlatformLogin.LoginTime a.
#[local] Instance login_before_dec : RelDecision login_before.
Proof. intros a b. unfold login_before. apply _. Defined.

Definition FindPlatformLoginRecords (page pageSize : Z) (userID : text) : DB (list PlatformLogin.t * Z) :=
  let rows db := keep (λ r, is_empty userID || text_eqb (PlatformLogin.UserID r) userID) (platform_logins (aux db)) in
  total ← query (λ db, Ok (Z.of_nat (length (rows db))));
  l ← find (λ db, page_of page pageSize (merge_sort login_before (rows db)));
  mret (l, total).

(** The last active record of the user. *)
Definition logged_out (r : PlatformLogin.t) : PlatformLogin.t :=
  {| PlatformLogin.ID := PlatformLogin.ID r; PlatformLogin.UserID := PlatformLogin.UserID r;
     PlatformLogin.Username := PlatformLogin.Username r; PlatformLogin.LoginIP := PlatformLogin.LoginIP r;
     PlatformLogin.UserAgent := PlatformLogin.UserAgent r; PlatformLogin.LoginTime := PlatformLogin.LoginTime r;
     PlatformLogin.Status := txt "logged_out" |}.
Definition UpdatePlatformLoginRecordLogoutByUser (userID : text) : DB unit := execute (λ db,
  Ok (match merge_sort login_before (keep (λ r, text_eqb (PlatformLogin.UserID r) userID &&
                                                text_eqb (PlatformLogin.Status r) active)
                                          (platform_logins (aux db))) with
      | [] => db
      | last :: _ => set_platform_logins db
          (updated (λ r, text_eqb (PlatformLogin.ID r) (PlatformLogin.ID last)) logged_out
             <$> platform_logins (aux db))
      end)).

(** ** The address of the provider *)

(** [url.QueryEscape], byte by byte. *)
Definition hex_digit (d : Z) : rune := if d <? 10 then 48 + d else 55 + d.
Definition unreserved (b : Z) : bool :=
  in_range 97 122 b || in_range 65 90 b || in_range 48 57 b || contains_rune b (txt "-_.~").
Definition escape_byte (b : Z) : text :=
  if unreserved b then [b] else if b =? 32 then [43] else [37; hex_digit (b / 16); hex_digit (b mod 16)].
Definition QueryEscape (s : text) : text := mjoin (escape_byte <$> utf8_encode s).

(** [url.Values.Encode]: the keys are sorted. *)
Definition Encode (params : list (text * text)) : text :=
  join_with 38 ((λ p, p.1 ++ [61] ++ QueryEscape p.2) <$> params).

(** The last value of a key wins in the loop over the rows. *)
Definition last_value (l : list Setting.t) (key : string) : text :=
  match keep (λ s, text_eqb (Setting.Key s) (txt key)) (rev l) with
  | s :: _ => Setting.Value s
  | [] => []
  end.
Definition first_value (l : list Setting.t) (key : string) (default : text) : text :=
  match keep (λ s, text_eqb (Setting.Key s) (txt key)) l with
  | s :: _ => Setting.Value s
  | [] => default
  end.

(** ** The handlers *)

Module AuthHandler.
Section handler.
Context `{Crypto} `{Unicode} (err_text : db_error → text) (parse_time : text → option Z)
  (encrypt decrypt : text → result text text) (like_user : text → User.t → bool) (is_email : text → bool)
  (exchange userInfo : text → result text text) (decode : text → result text SSOUserInfo.t)
  (binding_error : text).

(** The answers with an error. *)
Definition unbound {A} : Http A := raise (400, binding_error).
Definition refused {A} (m : Eff text A) : Http A := or_fail (λ e, (400, e)) m.
Definition broken {A} (m : Eff text A) : Http A := or_fail (λ e, (500, e)) m.
Definition unless_fails {E A} (status : Z) (message : text) (m : Eff E A) : Http A :=
  or_fail (λ _, (status, message)) m.

(** Lengths in characters, as the validator counts them. *)
Definition len (s : text) : Z := Z.of_nat (length s).
Definition valid_registration (req : RegisterRequest.t) : bool :=
  (3 <=? len (RegisterRequest.Username req)) && (len (RegisterRequest.Username req) <=? 50)
  && (6 <=? len (RegisterRequest.Password req)) && is_email (RegisterRequest.Email req).

Definition Register (req : option RegisterRequest.t) (id salt : text) : Http User.t :=
  match req with
  | Some req => if valid_registration req then refused (Accounts.Register err_text GenerateFromPassword req id salt)
                else unbound
  | None => unbound
  end.

Definition Login (req : option LoginRequest.t) (id clientIP userAgent : text) (now : Z) : Http LoginResponse.t :=
  match req with
  | Some req =>
      if is_empty (LoginRequest.Username req) || is_empty (LoginRequest.Password req) then unbound
      else or_fail (λ e, (401, e)) (Auth.Login err_text req id clientIP userAgent now)
  | None => unbound
  end.

Definition Logout (caller : option Claims.t) : Http unit :=
  match caller with
  | None => raise (401, txt "未登录")
  | Some c => or_fail (λ e, (500, err_text e)) (UpdatePlatformLoginRecordLogoutByUser (Claims.UserID c))
  end.

Definition GetCurrentUser (caller : option Claims.t) : Http User.t :=
  match caller with
  | None => raise (401, txt "未登录")
  | Some c => unless_fails 404 (txt "用户不存在") (FindUserByID (Claims.UserID c))
  end.

Definition GetPlatformLoginRecords (caller : Claims.t) (page pageSize : Z) (userId : text)
    : Http (list PlatformLogin.t * Z) :=
  let userID := if text_eqb (Claims.Role caller) admin then userId else Claims.UserID caller in
  or_fail (λ e, (500, err_text e)) (FindPlatformLoginRecords (clamp_page page) (clamp_size pageSize) userID).

Definition GetUsers : Http (list User.t) := unless_fails 500 (txt "获取用户列表失败") FindAllUsers.

Definition GetUsersWithPagination (page pageSize : Z) (keyword : text) : Http (list User.t * Z) :=
  unless_fails 500 (txt "获取用户列表失败")
    (FindAllUsersWithPagination like_user (clamp_page page) (clamp_size pageSize) keyword).

Definition GetUsersWithUserGroups (page pageSize : Z) (keyword : text)
    : Http (list (User.t * list UserGroup.t) * Z) :=
  r ← unless_fails 500 (txt "获取用户列表失败")
        (FindAllUsersWithPagination like_user (clamp_page page) (clamp_size pageSize) keyword);
  l ← each (λ user, groups ← attempt (GetGroupsByUserID (User.ID user)); mret (user, default [] groups)) r.1;
  mret (l, r.2).

Definition CreateUserByAdmin (req : option RegisterRequest.t) (role authMethod id salt : text) : Http User.t :=
  match req with
  | None => unbound
  | Some req =>
      if negb (valid_registration req) || is_empty role then unbound
      else
        let authMethod := if is_empty authMethod then password_method else authMethod in
        if negb (text_eqb authMethod password_method) && negb (text_eqb authMethod publickey)
        then raise (400, txt "认证方式必须是: password 或 publickey")
        else refused (CreateUser err_text GenerateFromPassword req role authMethod id salt)
  end.

(** Two operations, each with its own statements. *)
Definition UpdateUserByAdmin (userID fullName email : text) (expiresAt : option text)
    (autoDisableOnExpiry : option bool) : Http unit :=
  _ ← refused (UpdateUserInfo err_text userID fullName email);
  refused (UpdateUserExpiration err_text parse_time userID expiresAt autoDisableOnExpiry).

Definition UpdateUserRole (userID role : text) : Http unit :=
  if is_empty role then unbound else refused (Accounts.UpdateUserRole err_text userID role).
Definition UpdateUserStatus (userID status : text) : Http unit :=
  if is_empty status then unbound else refused (Accounts.UpdateUserStatus err_text userID status).

Definition DeleteUser (caller : Claims.t) (userID : text) : Http unit :=
  if text_eqb (Claims.UserID caller) userID then raise (400, txt "不能删除自己")
  else refused (Accounts.DeleteUser err_text userID).

Definition ResetUserPassword (userID password salt : text) : Http unit :=
  if len password <? 6 then unbound
  else refused (Accounts.ResetUserPassword err_text GenerateFromPassword userID password salt).

(** *** Single sign-on *)

(** The address to send the browser to, and the state, which is kept nowhere. *)
Definition InitiateSSO (state : text) : Http (text * text) :=
  authSettings ← unless_fails 500 (txt "获取SSO配置失败") (GetByCategory (txt "auth"));
  let get := last_value authSettings in
  let authUrl := get "ssoAuthUrl"%string in
  let clientId := get "ssoClientId"%string in
  if negb (text_eqb (get "ssoEnabled"%string) (txt "true")) then raise (400, txt "SSO 未启用")
  else if is_empty authUrl || is_empty clientId then raise (500, txt "SSO 配置不完整")
  else
    let scopes := let s := get "ssoScopes"%string in if is_empty s then txt "openid profile email" else s in
    let params := [(txt "client_id", clientId); (txt "redirect_uri", get "ssoRedirectUrl"%string);
                   (txt "response_type", txt "code"); (txt "scope", scopes); (txt "state", state)] in
    mret (authUrl ++ (if contains_rune 63 authUrl then [38] else [63]) ++ Encode params, state).

(** Every answer of the call-back is a redirection. *)
Definition SSOCallback (code state error error_description randomPassword salt newID id loginIP userAgent : text)
    (now : Z) : Http text :=
  if negb (is_empty error)
  then mret (txt "/?error=" ++ error ++ txt "&error_description=" ++ error_description)
  else if is_empty code then mret (txt "/?error=missing_code")
  else
    r ← caught (LoginWithSSO err_text exchange userInfo decode code randomPassword salt newID id loginIP
                  userAgent now);
    mret (match r with
          | Err e => txt "/?error=sso_login_failed&error_description=" ++ QueryEscape e
          | Ok resp => txt "/?sso_token=" ++ LoginResponse.Token resp
          end).

Definition GetSSOConfig : Http (bool * text) :=
  l ← unless_fails 500 (txt "获取配置失败") (GetByCategory (txt "auth"));
  let authMethod := first_value l "authMethod" [] in
  mret (text_eqb authMethod (txt "sso"), authMethod).
Definition GetAuthMethod : Http text :=
  l ← unless_fails 500 (txt "获取配置失败") (GetByCategory (txt "auth"));
  mret (first_value l "authMethod" (txt "password")).

(** *** Groups and hosts of a user *)

Definition AssignGroupsToUser (caller : Claims.t) (userID : text) (groupIDs : option (list text)) : Http unit :=
  match groupIDs with
  | None => unbound
  | Some groupIDs =>
      refused (_ ← existing_user userID;
               or_fail err_text (Permissions.AssignGroupsToUser userID groupIDs (Claims.UserID caller)))
  end.
Definition AssignHostsToUser (caller : Claims.t) (userID : text) (hostIDs : option (list text)) : Http unit :=
  match hostIDs with
  | None => unbound
  | Some hostIDs =>
      refused (_ ← existing_user userID;
               or_fail err_text (repo_AssignHostsToUser userID hostIDs (Claims.UserID caller)))
  end.

Definition GetUserGroups (userID : text) : Http (list text) :=
  unless_fails 500 (txt "获取用户分组失败") (Permissions.GetUserGroups userID).
Definition GetUserHosts (userID : text) : Http (list text) :=
  unless_fails 500 (txt "获取用户主机失败") (Repositories.GetUserHosts userID).
Definition GetUserWithGroups (userID : text) : Http UserWithGroups.t :=
  unless_fails 404 (txt "用户不存在") (AuthApi.GetUserWithGroups userID).
Definition GetUsersWithGroups (page pageSize : Z) (keyword : text) : Http (list UserWithGroups.t * Z) :=
  unless_fails 500 (txt "获取用户列表失败")
    (FindAllUsersWithGroups like_user (clamp_page page) (clamp_size pageSize) keyword).
Definition GetUserWithGroupsAndHosts (userID : text) : Http UserWithGroups.t :=
  unless_fails 404 (txt "用户不存在") (AuthApi.GetUserWithGroupsAndHosts userID).
Definition GetUsersWithGroupsAndHosts (page pageSize : Z) (keyword : text) : Http (list UserWithGroups.t * Z) :=
  unless_fails 500 (txt "获取用户列表失败")
    (FindAllUsersWithGroupsAndHosts like_user (clamp_page page) (clamp_size pageSize) keyword).

(** *** SSH keys: an administrator or the user *)

Definition own_or_admin {A} (caller : Claims.t) (userID : text) (m : Http A) : Http A :=
  if negb (text_eqb (Claims.Role caller) admin) && negb (text_eqb (Claims.UserID caller) userID)
  then raise (403, txt "无权操作") else m.

Definition GenerateSSHKey (caller : Claims.t) (userID : text) (generated : result text KeyPair) (now : Z)
    : Http User.t :=
  own_or_admin caller userID
    (_ ← broken (Accounts.GenerateSSHKey err_text encrypt userID generated now);
     unless_fails 500 (txt "获取用户信息失败") (FindUserByID userID)).
Definition DeleteSSHKey (caller : Claims.t) (userID : text) : Http unit :=
  own_or_admin caller userID (broken (Accounts.DeleteSSHKey err_text userID)).
Definition DownloadSSHPrivateKey (caller : Claims.t) (userID : text) : Http (text * text) :=
  own_or_admin caller userID
    (r ← broken (GetSSHPrivateKey err_text decrypt userID);
     mret (r.2 ++ txt "_zjump_ssh_key", r.1)).
Definition UpdateUserAuthMethod (caller : Claims.t) (userID authMethod : text) : Http unit :=
  own_or_admin caller userID
    (if negb (text_eqb authMethod password_method) && negb (text_eqb authMethod publickey)
     then raise (400, txt "认证方式必须是: password 或 publickey")
     else broken (Accounts.UpdateUserAuthMethod err_text userID authMethod)).

(** *** Requests through the routes *)

(** A decoded request, with what the server adds to it. *)
Inductive call :=
  | c_Register (req : option RegisterRequest.t) (id salt : text)
  | c_Login (req : option LoginRequest.t) (id clientIP userAgent : text)
  | c_Logout | c_GetCurrentUser
  | c_GetPlatformLoginRecords (page pageSize : Z) (userId : text)
  | c_GetUsers
  | c_GetUsersWithPagination (page pageSize : Z) (keyword : text)
  | c_GetUsersWithUserGroups (page pageSize : Z) (keyword : text)
  | c_CreateUserByAdmin (req : option RegisterRequest.t) (role authMethod id salt : text)
  | c_UpdateUserByAdmin (userID fullName email : text) (expiresAt : option text) (auto : option bool)
  | c_UpdateUserRole (userID role : text)
  | c_UpdateUserStatus (userID status : text)
  | c_DeleteUser (userID : text)
  | c_ResetUserPassword (userID password salt : text)
  | c_InitiateSSO (state : text)
  | c_SSOCallback (code state error error_description randomPassword salt newID id loginIP userAgent : text)
  | c_GetSSOConfig | c_GetAuthMethod
  | c_AssignGroupsToUser (userID : text) (groupIDs : option (list text))
  | c_AssignHostsToUser (userID : text) (hostIDs : option (list text))
  | c_GetUserGroups (userID : text) | c_GetUserHosts (userID : text)
  | c_GetUserWithGroups (userID : text) | c_GetUserWithGroupsAndHosts (userID : text)
  | c_GetUsersWithGroups (page pageSize : Z) (keyword : text)
  | c_GenerateSSHKey (userID : text) (generated : result text KeyPair)
  | c_DeleteSSHKey (userID : text) | c_DownloadSSHPrivateKey (userID : text)
  | c_UpdateUserAuthMethod (userID authMethod : text).

Definition handler_of (c : call) : string :=
  match c with
  | c_Register _ _ _ => "authHandler.Register"
  | c_Login _ _ _ _ => "authHandler.Login"
  | c_Logout => "authHandler.Logout"
  | c_GetCurrentUser => "authHandler.GetCurrentUser"
  | c_GetPlatformLoginRecords _ _ _ => "authHandler.GetPlatformLoginRecords"
  | c_GetUsers => "authHandler.GetUsers"
  | c_GetUsersWithPagination _ _ _ => "authHandler.GetUsersWithPagination"
  | c_GetUsersWithUserGroups _ _ _ => "authHandler.GetUsersWithUserGroups"
  | c_CreateUserByAdmin _ _ _ _ _ => "authHandler.CreateUserByAdmin"
  | c_UpdateUserByAdmin _ _ _ _ _ => "authHandler.UpdateUserByAdmin"
  | c_UpdateUserRole _ _ => "authHandler.UpdateUserRole"
  | c_UpdateUserStatus _ _ => "authHandler.UpdateUserStatus"
  | c_DeleteUser _ => "authHandler.DeleteUser"
  | c_ResetUserPassword _ _ _ => "authHandler.ResetUserPassword"
  | c_InitiateSSO _ => "authHandler.InitiateSSO"
  | c_SSOCallback _ _ _ _ _ _ _ _ _ _ => "authHandler.SSOCallback"
  | c_GetSSOConfig => "authHandler.GetSSOConfig"
  | c_GetAuthMethod => "authHandler.GetAuthMethod"
  | c_AssignGroupsToUser _ _ => "authHandler.AssignGroupsToUser"
  | c_AssignHostsToUser _ _ => "authHandler.AssignHostsToUser"
  | c_GetUserGroups _ => "authHandler.GetUserGroups"
  | c_GetUserHosts _ => "authHandler.GetUserHosts"
  | c_GetUserWithGroups _ => "authHandler.GetUserWithGroups"
  | c_GetUserWithGroupsAndHosts _ => "authHandler.GetUserWithGroupsAndHosts"
  | c_GetUsersWithGroups _ _ _ => "authHandler.GetUsersWithGroups"
  | c_GenerateSSHKey _ _ => "authHandler.GenerateSSHKey"
  | c_DeleteSSHKey _ => "authHandler.DeleteSSHKey"
  | c_DownloadSSHPrivateKey _ => "authHandler.DownloadSSHPrivateKey"
  | c_UpdateUserAuthMethod _ _ => "authHandler.UpdateUserAuthMethod"
  end.

Inductive answer :=
  | Nothing | AUser (u : User.t) | ALogin (r : LoginResponse.t) | Records (l : list PlatformLogin.t) (total : Z)
  | UserList (l : list User.t) (total : Z) | UserGroupList (l : list (User.t * list UserGroup.t)) (total : Z)
  | WithGroups (l : list UserWithGroups.t) (total : Z) | Ids (l : list text) | Texts (l : list text).

(** The handlers behind [AuthMiddleware] find a caller; they would panic without. *)
Definition with_caller (caller : option Claims.t) (k : Claims.t → Http answer) : Http answer :=
  match caller with Some c => k c | None => raise (500, []) end.

Definition reply {A} (f : A → answer) (m : Http A) : Http answer := a ← m; mret (f a).

Definition run (caller : option Claims.t) (now : Z) (c : call) : Http answer :=
  match c with
  | c_Register req id salt => reply AUser (Register req id salt)
  | c_Login req id ip ua => reply ALogin (Login req id ip ua now)
  | c_Logout => reply (λ _, Nothing) (Logout caller)
  | c_GetCurrentUser => reply AUser (GetCurrentUser caller)
  | c_GetPlatformLoginRecords page size user => with_caller caller (λ me,
      reply (λ r, Records r.1 r.2) (GetPlatformLoginRecords me page size user))
  | c_GetUsers => reply (λ l, UserList l (Z.of_nat (length l))) (GetUsers)
  | c_GetUsersWithPagination page size kw => reply (λ r, UserList r.1 r.2) (GetUsersWithPagination page size kw)
  | c_GetUsersWithUserGroups page size kw => reply (λ r, UserGroupList r.1 r.2) (GetUsersWithUserGroups page size kw)
  | c_CreateUserByAdmin req role auth id salt => reply AUser (CreateUserByAdmin req role auth id salt)
  | c_UpdateUserByAdmin id name email e auto => reply (λ _, Nothing) (UpdateUserByAdmin id name email e auto)
  | c_UpdateUserRole id role => reply (λ _, Nothing) (UpdateUserRole id role)
  | c_UpdateUserStatus id status => reply (λ _, Nothing) (UpdateUserStatus id status)
  | c_DeleteUser id => with_caller caller (λ me, reply (λ _, Nothing) (DeleteUser me id))
  | c_ResetUserPassword id pw salt => reply (λ _, Nothing) (ResetUserPassword id pw salt)
  | c_InitiateSSO state => reply (λ r, Texts [r.1; r.2]) (InitiateSSO state)
  | c_SSOCallback code state err desc pw salt newID id ip ua =>
      reply (λ t, Texts [t]) (SSOCallback code state err desc pw salt newID id ip ua now)
  | c_GetSSOConfig => reply (λ r, Texts [r.2]) (GetSSOConfig)
  | c_GetAuthMethod => reply (λ t, Texts [t]) (GetAuthMethod)
  | c_AssignGroupsToUser id l => with_caller caller (λ me, reply (λ _, Nothing) (AssignGroupsToUser me id l))
  | c_AssignHostsToUser id l => with_caller caller (λ me, reply (λ _, Nothing) (AssignHostsToUser me id l))
  | c_GetUserGroups id => reply Ids (GetUserGroups id)
  | c_GetUserHosts id => reply Ids (GetUserHosts id)
  | c_GetUserWithGroups id => reply (λ u, WithGroups [u] 1) (GetUserWithGroups id)
  | c_GetUserWithGroupsAndHosts id => reply (λ u, WithGroups [u] 1) (GetUserWithGroupsAndHosts id)
  | c_GetUsersWithGroups page size kw => reply (λ r, WithGroups r.1 r.2) (GetUsersWithGroups page size kw)
  | c_GenerateSSHKey id kp => with_caller caller (λ me, reply AUser (GenerateSSHKey me id kp now))
  | c_DeleteSSHKey id => with_caller caller (λ me, reply (λ _, Nothing) (DeleteSSHKey me id))
  | c_DownloadSSHPrivateKey id => with_caller caller (λ me,
      reply (λ r, Texts [r.1; r.2]) (DownloadSSHPrivateKey me id))
  | c_UpdateUserAuthMethod id m => with_caller caller (λ me, reply (λ _, Nothing) (UpdateUserAuthMethod me id m))
  end.

(** A request for the route of the handler. *)
Definition serve (authorization token : text) (now : Z) (c : call) : Http answer :=
  match keep (λ e, bool_decide (handler e = handler_of c)) routes with
  | e :: _ =>
      match enter e {| verb := method e; authorization := authorization; token := token |} now with
      | Reached caller => run caller now c
      | Refused status message => raise (status, message)
      end
  | [] => raise (404, [])
  end.
End handler.
End AuthHandler.

(** ** Who may change an account *)

(** What an account may do and how it is proved to be its owner's. *)
Definition standing (u : User.t) : text * text * text * text * option Z * bool * (bool * text * text) :=
  (User.Username u, User.Password u, User.Role u, User.Status u, User.ExpiresAt u, User.AutoDisableOnExpiry u,
   (User.TwoFactorEnabled u, User.TwoFactorSecret u, User.TwoFactorBackupCodes u)).
(** The keys and the way of signing in over SSH, which are the user's business. *)
Definition ssh_keys (u : User.t) : text * text * text :=
  (User.SSHPublicKey u, User.SSHPrivateKeyEncrypted u, User.AuthMethod u).

(** A row of an account that [me] may have changed. *)
Record same_account (me : option text) (u v : User.t) : Prop := {
  same_id : User.ID v = User.ID u;
  same_standing : standing v = standing u;
  same_keys : me ≠ Some (User.ID u) → ssh_keys v = ssh_keys u
}.
Definition plain_user (v : User.t) : Prop := User.Role v = txt "user" ∧ User.Status v = active.

(** Every row is that of an account as it was, up to what [me] may change, or a
    new plain user's; and no account is lost. *)
Record evolves (me : option text) (db db' : Db) : Prop := {
  rows_known v : v ∈ users db' →
    (∃ u, u ∈ users db ∧ same_account me u v) ∨
    ((∀ u, u ∈ users db → User.ID u ≠ User.ID v) ∧ plain_user v);
  rows_kept u : u ∈ users db → ∃ v, v ∈ users db' ∧ User.ID v = User.ID u
}.

#[global] Instance same_account_preorder me : PreOrder (same_account me).
Proof.
  split; [by intros u|]. intros u v w [Hi Hs Hk] [Hi' Hs' Hk'].
  split; [congruence..|]. intros Hne. rewrite Hk' by congruence. auto.
Qed.

Lemma plain_same me u v : same_account me u v → plain_user u → plain_user v.
Proof. intros [_ Hs _] [Hr Hst]. unfold standing in Hs. split; congruence. Qed.

#[global] Instance evolves_preorder me : PreOrder (evolves me).
Proof.
  split.
  { intros db. split; [intros v Hv; left|intros u Hu]; eauto. exists v. split; [done|reflexivity]. }
  intros db db1 db2 [H1 K1] [H2 K2]. split.
  - intros w Hw. destruct (H2 w Hw) as [(v & Hv & Hvw)|[Hn Hp]].
    + destruct (H1 v Hv) as [(u & Hu & Huv)|[Hn Hp]].
      * left. exists u. split; [done|]. by transitivity v.
      * right. split; [|by eapply plain_same]. intros u Hu. rewrite (same_id _ _ _ Hvw). auto.
    + right. split; [|done]. intros u Hu Hi. destruct (K1 u Hu) as (v & Hv & Hi'). apply (Hn v Hv). congruence.
  - intros u Hu. destruct (K1 u Hu) as (v & Hv & Hi). destruct (K2 v Hv) as (w & Hw & Hi'). exists w. split; [done|congruence].
Qed.

Lemma evolves_same me db db' : users db' = users db → evolves me db db'.
Proof. intros Hu. split; rewrite Hu; [|eauto]. intros v Hv. left. exists v. split; [done|reflexivity]. Qed.

(** Rows are rewritten where they stand. *)
Lemma evolves_rewritten me db db' p g : users db' = updated p g <$> users db →
  (∀ u, u ∈ users db → p u = true → same_account me u (g u)) → evolves me db db'.
Proof.
  intros Hu Hg. assert (∀ u, u ∈ users db → same_account me u (updated p g u)) as Hs.
  { intros u Hin. unfold updated. destruct (p u) eqn:E; [by apply Hg|reflexivity]. }
  split; rewrite Hu.
  - intros v (u & -> & Hin)%list_elem_of_fmap. left. eauto.
  - intros u Hin. exists (updated p g u). split; [by apply list_elem_of_fmap_2|]. by apply (same_id me), Hs.
Qed.

(** Nothing but that happens to the users, whatever the result. *)
Definition evolving {E A} (me : option text) (m : Eff E A) (db : Db) : Prop := wp m (λ _ db', evolves me db db') db.

Section evolution.
Context (me : option text).

Lemma evolving_reads {E A} (m : Eff E A) db : reads m → evolving me m db.
Proof. intros Hm f r db' f' Hr. rewrite (reads_run _ _ _ _ _ _ Hm Hr). reflexivity. Qed.

Lemma evolving_or_fail {E F A} (w : E → F) (m : Eff E A) db : evolving me m db → evolving me (or_fail w m) db.
Proof. intros Hm. apply wp_or_fail. exact Hm. Qed.

Lemma evolving_bind {E A B} (m : Eff E A) (k : A → Eff E B) db :
  evolving me m db → (∀ a db1, evolving me (k a) db1) → evolving me (m ≫= k) db.
Proof.
  intros Hm Hk. apply wp_bind. eapply wp_mono; [|exact Hm]. intros [a|e] db1 H1; [|done].
  eapply wp_mono; [|apply Hk]. intros r db2 H2. by transitivity db1.
Qed.

Lemma evolving_create u db : plain_user u → evolving me (create_user u) db.
Proof.
  intros Hp. apply wp_execute; [|intros; reflexivity]. intros db' Hs.
  destruct (existsb _ _) eqn:E; [done|]. injection Hs as <-. rewrite existsb_none in E. split.
  - intros v [Hv | ->%list_elem_of_singleton]%elem_of_app; [left; exists v; split; [done|reflexivity]|].
    right. split; [|done]. intros w Hw. specialize (E w Hw). apply orb_false_elim in E as [E _].
    by apply bool_decide_eq_false in E.
  - intros v Hv. exists v. split; [apply elem_of_app; by left|done].
Qed.

(** The row of a known account is saved. *)
Lemma evolving_save u w db : users_ok db → u ∈ users db → same_account me u w → evolving me (UpdateUser w) db.
Proof.
  intros Hdb Hu Hw. apply wp_execute; [|intros; reflexivity]. intros db' Hs.
  destruct (existsb _ _) in Hs; [done|]. destruct (existsb _ _) eqn:E in Hs; injection Hs as <-.
  - eapply evolves_rewritten; [reflexivity|]. intros x Hx Ex%text_eqb_true.
    assert (x = u) as -> by (eapply same_id_eq; [done..|]; by rewrite Ex, (same_id _ _ _ Hw)). done.
  - rewrite existsb_none in E. specialize (E u Hu). by rewrite (same_id _ _ _ Hw), text_eqb_refl in E.
Qed.

Lemma evolving_columns id g db : (∀ u, same_account me u (g u)) → evolving me (update_user id g) db.
Proof.
  intros Hg. apply wp_execute; [|intros; reflexivity]. intros db' [= <-].
  eapply evolves_rewritten; [reflexivity|]. intros; apply Hg.
Qed.

Lemma evolves_login user db db' : logged_in user db db' → evolves me db db'.
Proof.
  intros [[Hu|(t & ip & Hu)] _]; [by apply evolves_same|]. eapply evolves_rewritten; [exact Hu|].
  intros u _ _. by split.
Qed.
End evolution.

(** ** The handlers that are not the administrators' *)

Section handlers.
Context `{CryptoLaws} `{Unicode} (err_text : db_error → text) (parse_time : text → option Z)
  (encrypt decrypt : text → result text text) (like_user : text → User.t → bool) (is_email : text → bool)
  (exchange userInfo : text → result text text) (decode : text → result text SSOUserInfo.t)
  (binding_error : text).

Lemma evolving_insert me u db : plain_user u → evolving me (insert_user err_text u) db.
Proof.
  intros Hu. unfold insert_user. apply evolving_bind; [by apply evolving_or_fail, evolving_create|].
  intros [] db1. by apply wp_ret.
Qed.

Lemma new_user_plain id name pw email full m : plain_user (new_user id name pw email full (txt "user") m).
Proof. by split. Qed.

Lemma evolving_Register me req id salt db : users_ok db →
  evolving me (Accounts.Register err_text GenerateFromPassword req id salt) db.
Proof.
  intros Hdb. apply wp_bind, wp_check_free; [done| |reflexivity]. apply wp_bind, wp_hashed; [|reflexivity].
  intros h. apply evolving_insert, new_user_plain.
Qed.

Lemma evolving_Login me req id ip ua now db : evolving me (Auth.Login err_text req id ip ua now) db.
Proof.
  apply wp_Login; [|reflexivity]. intros user resp db' _ _ Hd.
  destruct (LoginResponse.RequiresTwoFactor resp); [by subst|]. by eapply evolves_login.
Qed.

(** The account of a single sign-on: its name and address may be filled in. *)
Lemma evolving_sso_save me info pw id salt o db : users_ok db → known db o →
  evolving me (sso_save err_text GenerateFromPassword info pw id salt o) db.
Proof.
  intros Hdb Ho. unfold sso_save. destruct o as [u|].
  - destruct (Ho u eq_refl) as [Hu _]. cbv zeta. apply evolving_bind.
    + apply evolving_or_fail. apply (evolving_save me u); [done..|]. by split.
    + intros [] db1. by apply wp_ret.
  - apply wp_bind, wp_hashed; [|reflexivity]. intros h. apply evolving_insert, new_user_plain.
Qed.

Lemma evolving_sso me info pw id salt db : users_ok db →
  evolving me (CreateOrUpdateSSOUser err_text GenerateFromPassword info pw id salt) db.
Proof.
  intros Hdb. unfold CreateOrUpdateSSOUser.
  assert (∀ o, known db o → evolving me (sso_by_name err_text info o ≫=
            sso_save err_text GenerateFromPassword info pw id salt) db) as Hnext.
  { intros [u|] Ho; unfold sso_by_name; [apply wp_bind, wp_ret; by apply evolving_sso_save|].
    destruct (is_empty (SSOUserInfo.Username info)); [apply wp_bind, wp_ret; by apply evolving_sso_save|].
    apply lookup_user_ok; [done|reflexivity|by apply evolving_sso_save|]. intros u Hu Hok.
    apply evolving_sso_save; [done|]. by intros ? [= <-]. }
  destruct (is_empty (SSOUserInfo.Email info)).
  - apply wp_bind, wp_ret. by apply Hnext.
  - apply lookup_user_ok; [done|reflexivity|by apply Hnext|]. intros u Hu Hok. apply Hnext.
    by intros ? [= <-].
Qed.

Lemma evolving_finish me user b id ip ua now db : evolving me (finish user b id ip ua now) db.
Proof. apply wp_finish; [|reflexivity]. intros. by eapply evolves_login. Qed.

Lemma evolving_LoginWithSSO me code pw salt newID id ip ua now db : users_ok db →
  evolving me (LoginWithSSO err_text exchange userInfo decode code pw salt newID id ip ua now) db.
Proof.
  intros Hdb. unfold LoginWithSSO. apply wp_bind, wp_or_fail, wp_find; [|intros e; cbn; reflexivity]. cbn [map_err].
  cbv zeta. destruct (_ || _); [by apply wp_raise|]. destruct (exchange code) as [tok|e]; [|by apply wp_raise].
  destruct (userInfo tok ≫= decode) as [info|e]; [|by apply wp_raise].
  apply evolving_bind; [by apply evolving_or_fail, evolving_sso|]. intros user db1.
  destruct (expired user now); [by apply wp_raise|]. apply evolving_finish.
Qed.

Lemma evolving_saved {A} me w id (g : User.t → Eff text A) db : users_ok db →
  (∀ u, u ∈ users db → User.ID u = id → evolving me (g u) db) →
  evolving me (or_fail w (FindUserByID id) ≫= g) db.
Proof.
  intros Hdb Hg. apply wp_bind, wp_or_fail, wp_FindUserByID; [done| |intros e; cbn; reflexivity].
  intros u Hu _ Hid. cbn. by apply Hg.
Qed.

(** The owner's changes of the keys. *)
Lemma evolving_GenerateSSHKey id kp now db : users_ok db →
  evolving (Some id) (Accounts.GenerateSSHKey err_text encrypt id kp now) db.
Proof.
  intros Hdb. apply evolving_saved; [done|]. intros u Hu Hid. destruct kp as [kp|e]; [|by apply wp_raise].
  destruct (encrypt _); [|by apply wp_raise]. apply evolving_or_fail, (evolving_save _ u); [done..|].
  split; [done..|]. by rewrite Hid.
Qed.

Lemma evolving_DeleteSSHKey id db : users_ok db → evolving (Some id) (Accounts.DeleteSSHKey err_text id) db.
Proof.
  intros Hdb. apply evolving_saved; [done|]. intros u Hu Hid. cbv zeta.
  apply evolving_or_fail, (evolving_save _ u); [done..|].
  destruct (text_eqb _ _); (split; [done..|]; by rewrite Hid).
Qed.

Lemma evolving_UpdateUserAuthMethod id m db : users_ok db →
  evolving (Some id) (Accounts.UpdateUserAuthMethod err_text id m) db.
Proof.
  intros Hdb. apply evolving_saved; [done|]. intros u Hu Hid. do 2 (destruct (_ && _); [by apply wp_raise|]).
  apply evolving_or_fail, (evolving_save _ u); [done..|]. split; [done..|]. by rewrite Hid.
Qed.

Lemma reads_page like page size kw : reads (FindAllUsersWithPagination like page size kw).
Proof. unfold FindAllUsersWithPagination. preserves_tac. Qed.

Lemma reads_GetSSHPrivateKey id : reads (GetSSHPrivateKey err_text decrypt id).
Proof. unfold GetSSHPrivateKey, known_user. preserves_tac. Qed.

Notation run := (AuthHandler.run err_text parse_time encrypt decrypt like_user is_email exchange userInfo decode
  binding_error).
Notation serve := (AuthHandler.serve err_text parse_time encrypt decrypt like_user is_email exchange userInfo
  decode binding_error).

Lemma evolving_logout me id db : evolving me (UpdatePlatformLoginRecordLogoutByUser id) db.
Proof.
  apply wp_execute; [|intros; reflexivity]. intros db' [= <-]. apply evolves_same.
  by destruct (merge_sort _ _).
Qed.

Lemma evolving_reply {A} me (g : A → AuthHandler.answer) m db : evolving me m db →
  evolving me (AuthHandler.reply g m) db.
Proof. intros Hm. apply evolving_bind; [done|]. intros a db1. by apply wp_ret. Qed.

Lemma evolving_own {A} cl id (m : Http A) db : Claims.Role cl ≠ admin → evolving (Some id) m db →
  evolving (Some (Claims.UserID cl)) (AuthHandler.own_or_admin cl id m) db.
Proof.
  intros Hr Hm. unfold AuthHandler.own_or_admin.
  destruct (text_eqb (Claims.Role cl) admin) eqn:E; [by apply text_eqb_true in E|]. cbn [negb andb].
  destruct (text_eqb (Claims.UserID cl) id) eqn:E'; cbn [negb]; [|by apply wp_raise].
  by apply text_eqb_true in E' as ->.
Qed.

(** What a handler does for a caller who is no administrator. *)
Lemma evolving_run caller now c db : users_ok db → access_of (AuthHandler.handler_of c) ≠ Administrators →
  (∀ cl, caller = Some cl → Claims.Role cl ≠ admin) →
  evolving (Claims.UserID <$> caller) (run caller now c) db.
Proof.
  intros Hdb Ha Hc.
  destruct c; cbn [AuthHandler.run]; try (exfalso; apply Ha; vm_compute; reflexivity); clear Ha;
    try (destruct caller as [cl|]; cbn [AuthHandler.with_caller fmap option_fmap option_map];
         [specialize (Hc cl eq_refl)|by apply wp_raise]);
    apply evolving_reply.
  - unfold AuthHandler.Register. destruct req as [req|]; [|by apply wp_raise].
    destruct (AuthHandler.valid_registration _ _); [|by apply wp_raise].
    by apply evolving_or_fail, evolving_Register.
  - unfold AuthHandler.Login. destruct req as [req|]; [|by apply wp_raise].
    destruct (_ || _); [by apply wp_raise|]. apply evolving_or_fail, evolving_Login.
  - apply evolving_or_fail, evolving_logout.
  - apply evolving_or_fail, evolving_reads. unfold FindUserByID. preserves_tac.
  - apply evolving_or_fail, evolving_reads. unfold FindPlatformLoginRecords. preserves_tac.
  - apply evolving_or_fail, evolving_reads. unfold FindAllUsers. preserves_tac.
  - apply evolving_reads. unfold AuthHandler.InitiateSSO, AuthHandler.unless_fails, GetByCategory. preserves_tac.
  - unfold AuthHandler.SSOCallback. do 2 (destruct (negb _) || destruct (is_empty _); [by apply wp_ret|]).
    apply evolving_bind; [|intros; by apply wp_ret]. by apply wp_caught, evolving_LoginWithSSO.
  - apply evolving_reads. unfold AuthHandler.GetSSOConfig, AuthHandler.unless_fails, GetByCategory. preserves_tac.
  - apply evolving_reads. unfold AuthHandler.GetAuthMethod, AuthHandler.unless_fails, GetByCategory. preserves_tac.
  - apply evolving_own; [done|]. apply evolving_bind; [by apply evolving_or_fail, evolving_GenerateSSHKey|].
    intros _ db1. apply evolving_or_fail, evolving_reads. unfold FindUserByID. preserves_tac.
  - apply evolving_own; [done|]. by apply evolving_or_fail, evolving_DeleteSSHKey.
  - apply evolving_own; [done|]. apply evolving_bind; [|intros; by apply wp_ret].
    apply evolving_or_fail, evolving_reads, reads_GetSSHPrivateKey.
  - apply evolving_own; [done|]. destruct (_ && _); [by apply wp_raise|].
    by apply evolving_or_fail, evolving_UpdateUserAuthMethod.
Qed.

(** A request is refused, or its handler runs for a caller who has the access. *)
Lemma wp_serve hdr tok now c (Q : result (Z * text) AuthHandler.answer → Db → Prop) db :
  (∀ caller, (∃ v, allowed (access_of (AuthHandler.handler_of c))
                 {| verb := v; authorization := hdr; token := tok |} now caller) →
             wp (run caller now c) Q db) →
  (∀ e, Q (Err e) db) → wp (serve hdr tok now c) Q db.
Proof.
  intros Hr He. unfold AuthHandler.serve.
  destruct (keep _ routes) as [|e l] eqn:E; [by apply wp_raise|].
  apply keep_head in E as [Hin Hh%bool_decide_eq_true].
  destruct (enter e _ now) as [caller|status m] eqn:Ea; [|by apply wp_raise].
  apply Hr. exists (method e). rewrite <- Hh. apply chain_allows; [by apply methods_plain|].
  rewrite <- (chains_follow e Hin). exact Ea.
Qed.

Definition administers (hdr tok : text) (now : Z) : Prop :=
  ∃ cl, Auth.AuthMiddleware hdr tok now = Ok cl ∧ Claims.Role cl = admin.
Definition owner (hdr tok : text) (now : Z) : option text :=
  match Auth.AuthMiddleware hdr tok now with Ok cl => Some (Claims.UserID cl) | Err _ => None end.

(** C9: Only an administrator changes somebody's account through the API:
    whatever a request without an administrator's token asks of these handlers,
    and whichever statements fail, no account is lost; every account keeps its
    name, password, role, status, expiry and second factor, and its keys and way
    of signing in too unless the token is its own; and an account that is new is a
    plain active user's. *)
Theorem accounts_guarded hdr tok now c db f r db' f' : users_ok db →
  ¬ administers hdr tok now → serve hdr tok now c db f = (r, db', f') →
  evolves (owner hdr tok now) db db'.
Proof.
  intros Hdb Hn Hs. unfold administers in Hn.
  refine (wp_serve hdr tok now c (λ _ db', evolves (owner hdr tok now) db db') db _ _ f r db' f' Hs);
    [|intros; reflexivity].
  intros caller [v Ha]. unfold allowed, bearer in Ha. cbn [authorization token] in Ha.
  assert (∀ cl, caller = Some cl → Claims.Role cl ≠ admin ∧ Auth.AuthMiddleware hdr tok now = Ok cl) as Hc.
  { intros cl ->. destruct (access_of _); [done|..].
    - destruct Ha as (c' & [= <-] & Hb). split; [|done]. intros Hr. apply Hn. eauto.
    - destruct Ha as (c' & [= <-] & Hb & Hr). destruct Hn. eauto. }
  assert (access_of (AuthHandler.handler_of c) ≠ Administrators) as Hacc.
  { intros E. rewrite E in Ha. destruct Ha as (c' & _ & Hb & Hr). apply Hn. eauto. }
  assert (evolving (Claims.UserID <$> caller) (run caller now c) db) as Hev.
  { apply evolving_run; [done..|]. intros cl E. by apply Hc. }
  destruct caller as [cl|]; cbn [fmap option_fmap option_map] in Hev.
  - destruct (Hc cl eq_refl) as [_ Hb]. unfold owner. rewrite Hb. exact Hev.
  - eapply wp_mono; [|exact Hev]. intros _ db1 [H1 H2]. split; [|done]. intros w Hw.
    destruct (H1 w Hw) as [(u & Hu & [Hi Hst Hk])|?]; [left; exists u|by right].
    split; [done|]. split; [done..|]. intros _. by apply Hk.
Qed.

(** Nobody can sign out: the route stands outside the group whose
    middleware sets the caller, so the handler refuses every request and no login
    record is ever closed. *)
Theorem logout_always_refused hdr tok now db f :
  serve hdr tok now AuthHandler.c_Logout db f = (Err (401, txt "未登录"), db, f).
Proof.
  unfold AuthHandler.serve. cbn [AuthHandler.handler_of].
  assert (∃ e l, keep (λ e, bool_decide (handler e = "authHandler.Logout")) routes = e :: l ∧
            chain e = [CORS] ∧ method e ≠ "OPTIONS") as (e & l & -> & Hc & Hm).
  { do 2 eexists. split; [vm_compute; reflexivity|]. by split. }
  unfold enter. rewrite Hc. cbn [run_chain verb]. destruct (decide (method e = "OPTIONS")); done.
Qed.

(** A user who is no administrator is shown the user's own logins only,
    whatever user is asked for, and never more than a hundred at a time. *)
Theorem own_logins_only cl page pageSize userId db f l total db' f' :
  Claims.Role cl ≠ admin → Claims.UserID cl ≠ [] →
  AuthHandler.GetPlatformLoginRecords err_text cl page pageSize userId db f = (Ok (l, total), db', f') →
  Forall (λ r, PlatformLogin.UserID r = Claims.UserID cl) l ∧ (length l ≤ 100)%nat ∧ db' = db.
Proof.
  intros Hr Hid Hrun. unfold AuthHandler.GetPlatformLoginRecords in Hrun. apply or_fail_Ok in Hrun.
  destruct (text_eqb (Claims.Role cl) admin) eqn:E in Hrun; [by apply text_eqb_true in E|].
  unfold FindPlatformLoginRecords in Hrun. apply bind_Ok in Hrun as (t & db1 & f1 & H1 & Hrun).
  apply bind_Ok in Hrun as (rows & db2 & f2 & H2 & Hrun). injection Hrun as <- _ <- _.
  apply find_Ok in H2 as [-> ->]. apply query_Ok in H1 as [_ ->]. split_and!; [..|done].
  - unfold page_of. apply Forall_take, Forall_drop. rewrite (merge_sort_Permutation login_before).
    apply Forall_forall. intros r [_ Hk]%elem_of_keep.
    destruct (Claims.UserID cl) as [|x id]; [done|]. cbn [is_empty orb] in Hk. by apply text_eqb_true.
  - unfold page_of. rewrite length_take. unfold clamp_size.
    destruct ((pageSize <? 1) || (100 <? pageSize)) eqn:Ep; [lia|]. apply orb_false_elim in Ep as [? ?%Z.ltb_ge]. lia.
Qed.
End handlers.

(** ** Witnesses *)

(** Bob asks for the keys to be dropped, with his own token. *)
Definition bob_bearer : text := txt "Bearer " ++ claims_code (claims_of bob2 5).
Definition sample_serve := AuthHandler.serve plain_err (λ _, None) (λ t, Ok t) (λ t, Ok t) (λ _ _, true)
  (λ _, true) (λ t, Ok t) (λ t, Ok t) (λ _, Err []) [].

Lemma accounts_guarded_witness :
  let db' := after (sample_serve bob_bearer [] 6 (AuthHandler.c_DeleteSSHKey (txt "u1")) bob2_db []) in
  owner bob_bearer [] 6 = Some (txt "u1") ∧ evolves (owner bob_bearer [] 6) bob2_db db'.
Proof.
  intros db'. split; [vm_compute; reflexivity|].
  apply (accounts_guarded plain_err (λ _, None) (λ t, Ok t) (λ t, Ok t) (λ _ _, true) (λ _, true) (λ t, Ok t)
    (λ t, Ok t) (λ _, Err []) [] bob_bearer [] 6 (AuthHandler.c_DeleteSSHKey (txt "u1")) bob2_db []
    (Ok AuthHandler.Nothing) db' [] bob2_db_ok).
  - intros (cl & Hcl & Hr). assert (Auth.AuthMiddleware bob_bearer [] 6 = Ok (claims_of bob2 5)) as E
      by (vm_compute; reflexivity). rewrite E in Hcl. injection Hcl as <-. vm_compute in Hr. discriminate Hr.
  - vm_compute. reflexivity.
Defined.

Lemma own_logins_only_witness :
  let cl := claims_of bob2 5 in
  let db := after (bob_login (txt "123456") [] 5 bob2_db) in
  ∃ l, AuthHandler.GetPlatformLoginRecords plain_err cl 1 10 (txt "u2") db [] = (Ok (l, 1), db, []) ∧
       Forall (λ r, PlatformLogin.UserID r = Claims.UserID cl) l.
Proof.
  intros cl db.
  set (l := match res (AuthHandler.GetPlatformLoginRecords plain_err cl 1 10 (txt "u2") db []) with
            | Ok r => r.1 | Err _ => [] end).
  assert (AuthHandler.GetPlatformLoginRecords plain_err cl 1 10 (txt "u2") db [] = (Ok (l, 1), db, [])) as E
    by (vm_compute; reflexivity).
  exists l. split; [exact E|].
  refine (proj1 (own_logins_only plain_err cl 1 10 (txt "u2") db [] l 1 db [] _ _ E)); vm_compute; discriminate.
Defined.
