(* ===== verification/Serving.v ===== *)
(** * Handlers behind the routes

    What the handlers of an API share: an instance of [Api] names the handler of
    each decoded request and runs it for the caller the middlewares found; [serve]
    sends a request through the route table of Routes.v.  The lemmas say what a
    request does by the access of its handler. *)

From stdpp Require Import base list strings.
From Stdlib Require Import ZArith.
From S2P Require Import Prelude GoStrings Gorm Models Database Accounts Auth TwoFactor Routes.
Local Open Scope Z_scope.

Class Api (call answer : Type) := {
  handler_of : call → string;
  run : option Claims.t → Z → call → Http answer
}.

(** A handler with a result, and one that answers with an error it chooses. *)
Definition reply {A B} (f : A → B) (m : Http A) : Http B := a ← m; mret (f a).
Definition answering {E A} (status : Z) (message : string) (m : Eff E A) : Http A :=
  or_fail (λ _, (status, txt message)) m.

(** The bearer has a token: the middleware has put the user in the context. *)
Definition caller_id (caller : option Claims.t) : text :=
  match caller with Some c => Claims.UserID c | None => [] end.

Lemma reads_reply {A B} (f : A → B) (m : Http A) : reads m → reads (reply f m).
Proof. intros Hm. unfold reply. preserves_tac. Qed.

Lemma reply_Ok {A B} (g : A → B) (m : Http A) db f b db' f' :
  reply g m db f = (Ok b, db', f') → ∃ a, b = g a ∧ m db f = (Ok a, db', f').
Proof. intros (a & db1 & f1 & Hm & [= <- <- <-])%bind_Ok. eauto. Qed.

Section serving.
Context {call answer : Type} `{A : Api call answer} `{Crypto} `{Unicode}.

Definition serve (authorization token : text) (now : Z) (c : call) : Http answer :=
  match keep (λ e, bool_decide (handler e = handler_of c)) routes with
  | e :: _ =>
      match enter e {| verb := method e; authorization := authorization; token := token |} now with
      | Reached caller => run caller now c
      | Refused status message => raise (status, message)
      end
  | [] => raise (404, [])
  end.

(** What the access of the handler asks of a token. *)
Definition permitted (hdr tok : text) (now : Z) (c : call) (caller : option Claims.t) : Prop :=
  allowed (access_of (handler_of c)) {| verb := "GET"; authorization := hdr; token := tok |} now caller.

(** The handler runs for a caller who may, or nothing happens. *)
Lemma serve_cases hdr tok now c :
  (∃ caller, permitted hdr tok now c caller ∧ serve hdr tok now c = run caller now c) ∨
  (∃ e, serve hdr tok now c = raise e ∧
        (handler_of c ∈ handler <$> routes → ∀ caller, ¬ permitted hdr tok now c caller)).
Proof.
  unfold serve. destruct (keep _ routes) as [|e l] eqn:E.
  - right. eexists. split; [done|]. intros (e & He & Hin)%list_elem_of_fmap.
    assert (e ∈ keep (λ e, bool_decide (handler e = handler_of c)) routes) as Hk
      by (apply elem_of_keep; split; [done|by apply bool_decide_eq_true]).
    rewrite E in Hk. by apply elem_of_nil in Hk.
  - apply keep_head in E as [Hin Hh%bool_decide_eq_true].
    destruct (enter e _ now) as [caller|status m] eqn:Ea.
    + left. exists caller. split; [|done]. unfold enter in Ea. rewrite (chains_follow e Hin) in Ea.
      apply chain_allows in Ea; [|by apply methods_plain]. rewrite Hh in Ea. exact Ea.
    + right. eexists. split; [done|]. intros _ caller Hp. unfold permitted in Hp. rewrite <- Hh in Hp.
      assert (enter e {| verb := method e; authorization := hdr; token := tok |} now = Reached caller) as Er.
      { unfold enter. rewrite (chains_follow e Hin). apply chain_allows; [by apply methods_plain|exact Hp]. }
      by rewrite Ea in Er.
Qed.

Lemma serve_permitted hdr tok now c caller : handler_of c ∈ handler <$> routes →
  permitted hdr tok now c caller → (∀ caller', permitted hdr tok now c caller' → caller' = caller) →
  serve hdr tok now c = run caller now c.
Proof.
  intros Hr Hp Hu. destruct (serve_cases hdr tok now c) as [(caller' & Hp' & ->)|(e & _ & Hn)].
  - by rewrite (Hu _ Hp').
  - by destruct (Hn Hr caller).
Qed.

(** A token of a user, and of an administrator. *)
Lemma permitted_unique hdr tok now c caller caller' :
  permitted hdr tok now c caller → permitted hdr tok now c caller' → caller' = caller.
Proof.
  unfold permitted. destruct (access_of (handler_of c)); cbn [allowed]; [congruence|..].
  - intros (x & -> & E) (y & -> & E'). congruence.
  - intros (x & -> & E & _) (y & -> & E' & _). congruence.
Qed.

Lemma serve_user hdr tok now c cl : handler_of c ∈ handler <$> routes →
  access_of (handler_of c) = Users → Auth.AuthMiddleware hdr tok now = Ok cl →
  serve hdr tok now c = run (Some cl) now c.
Proof.
  intros Hr Ha Hm. assert (permitted hdr tok now c (Some cl)) as Hp
    by (unfold permitted; rewrite Ha; by exists cl).
  apply serve_permitted; [done..|]. intros caller'. by apply permitted_unique.
Qed.

Lemma serve_admin hdr tok now c cl : handler_of c ∈ handler <$> routes →
  access_of (handler_of c) = Administrators → Auth.AuthMiddleware hdr tok now = Ok cl → Claims.Role cl = admin →
  serve hdr tok now c = run (Some cl) now c.
Proof.
  intros Hr Ha Hm Had. assert (permitted hdr tok now c (Some cl)) as Hp
    by (unfold permitted; rewrite Ha; by exists cl).
  apply serve_permitted; [done..|]. intros caller'. by apply permitted_unique.
Qed.

(** What every handler does that a caller may reach, a request does. *)
Lemma serve_wp hdr tok now c (Q : result (Z * text) answer → Db → Prop) db :
  (∀ caller, permitted hdr tok now c caller → wp (run caller now c) Q db) → (∀ e, Q (Err e) db) →
  wp (serve hdr tok now c) Q db.
Proof.
  intros Hr He. destruct (serve_cases hdr tok now c) as [(caller & Hp & ->)|(e & -> & _)]; [by apply Hr|].
  by apply wp_raise.
Qed.

(** Handlers that only read for everyone but the administrators. *)
Lemma serve_reads hdr tok now c :
  (access_of (handler_of c) ≠ Administrators → ∀ caller, reads (run caller now c)) →
  (∀ cl, Auth.AuthMiddleware hdr tok now = Ok cl → Claims.Role cl ≠ admin) →
  reads (serve hdr tok now c).
Proof.
  intros Hr Hn. destruct (serve_cases hdr tok now c) as [(caller & Hp & ->)|(e & -> & _)].
  - apply Hr. intros Ha. unfold permitted in Hp. rewrite Ha in Hp. destruct Hp as (cl & -> & Hb & Had).
    by apply (Hn cl).
  - apply (preserves_raise (=)); apply _.
Qed.

Lemma served_Ok hdr tok now c db f a db' f' : serve hdr tok now c db f = (Ok a, db', f') →
  ∃ caller, run caller now c db f = (Ok a, db', f').
Proof.
  intros Hs. destruct (serve_cases hdr tok now c) as [(caller & _ & E)|(e & E & _)];
    rewrite E in Hs; [by exists caller|done].
Qed.
End serving.
