(* ===== verification/AccessApi.v ===== *)
(** * The API of the access model

    The user groups with their members, the accounts of the hosts, and the
    permission rules: [user_group_handler.go], [system_user_handler.go] and
    [permission_rule_handler.go] of [internal/api/handler] with the rest of
    [user_group_repository.go] and [system_user_repository.go], served through the
    routes.  A request is its decoded body; [None] is one that gin could not
    decode.  What [Updates] makes of a row is a parameter, as in Permissions.v. *)

From stdpp Require Import base list strings sorting.
From Stdlib Require Import ZArith Lia.
From S2P Require Import Prelude GoStrings Gorm Models Database Repositories Permissions Accounts Auth TwoFactor Routes AuthApi Serving.
Local Open Scope Z_scope.

(** ** The repositories *)

(** [ORDER BY priority DESC, created_at DESC]: rows are created at the end. *)
Definition more_urgent {A} (priority : A → Z) (a b : A) : Prop := priority b <= priority a.
#[global] Instance more_urgent_dec {A} (priority : A → Z) : RelDecision (more_urgent priority).
Proof. intros a b. unfold more_urgent. apply _. Defined.
Definition by_priority {A} (priority : A → Z) (l : list A) : list A := merge_sort (more_urgent priority) (rev l).

(** [default:'active'] of a status that is left empty. *)
Definition or_default (s : text) (d : string) : text := if is_empty s then txt d else s.

Module UserGroupRepository.
Definition stored (g : UserGroup.t) : UserGroup.t :=
  {| UserGroup.ID := UserGroup.ID g; UserGroup.Name := UserGroup.Name g;
     UserGroup.Priority := UserGroup.Priority g; UserGroup.Status := or_default (UserGroup.Status g) "active" |}.
Definition of_id (id : text) (g : UserGroup.t) : bool := text_eqb (UserGroup.ID g) id.
Definition clash (g h : UserGroup.t) : bool :=
  text_eqb (UserGroup.ID g) (UserGroup.ID h) || text_eqb (UserGroup.Name g) (UserGroup.Name h).

Definition Create (group : UserGroup.t) : DB unit := execute (λ db,
  if existsb (clash group) (user_groups db) then Err DuplicatedKey
  else Ok (set_user_groups db (user_groups db ++ [stored group]))).

(** The name is unique. *)
Definition Update (assign : UserGroup.t → UserGroup.t → UserGroup.t) (group : UserGroup.t) : DB unit := execute (λ db,
  let rows := updated (of_id (UserGroup.ID group)) (assign group) <$> user_groups db in
  if existsb (of_id (UserGroup.ID group)) (user_groups db) &&
     existsb (λ g, negb (of_id (UserGroup.ID group) g) && text_eqb (UserGroup.Name g) (UserGroup.Name group))
             (user_groups db)
  then Err DuplicatedKey else Ok (set_user_groups db rows)).

(** The rules of the group stay. *)
Definition Delete (id : text) : DB unit := Transaction (
  execute (λ db, Ok (set_members db (keep (λ m, negb (text_eqb (UserGroupMember.UserGroupID m) id))
                                          (user_group_members db)))) ;;
  execute (λ db, Ok (set_user_groups db (keep (λ g, negb (of_id id g)) (user_groups db))))).

Definition FindByID (id : text) : DB UserGroup.t := first (λ db, keep (of_id id) (user_groups db)).
Definition FindAll : DB (list UserGroup.t) := find (λ db, by_priority UserGroup.Priority (user_groups db)).
Definition FindByStatus (status : text) : DB (list UserGroup.t) :=
  find (λ db, by_priority UserGroup.Priority (keep (λ g, text_eqb (UserGroup.Status g) status) (user_groups db))).

Definition members_of (db : Db) (id : text) : list UserGroupMember.t :=
  keep (λ m, text_eqb (UserGroupMember.UserGroupID m) id) (user_group_members db).
(** [COUNT(DISTINCT user_id)] *)
Definition FindAllWithMembers : DB (list (UserGroup.t * Z)) := find (λ db,
  (λ g, (g, Z.of_nat (length (remove_dups (UserGroupMember.UserID <$> members_of db (UserGroup.ID g))))))
    <$> by_priority UserGroup.Priority (user_groups db)).

(** The users joined with the members, a row for each membership. *)
Definition joined (db : Db) (id : text) : list User.t :=
  mjoin ((λ u, (λ _, u) <$> keep (λ m, text_eqb (UserGroupMember.UserID m) (User.ID u)) (members_of db id))
           <$> users db).

(** There is no index on the pair of group and user. *)
Definition member (groupID userID addedBy : text) (id : Z) : UserGroupMember.t :=
  {| UserGroupMember.ID := id; UserGroupMember.UserGroupID := groupID; UserGroupMember.UserID := userID;
     UserGroupMember.AddedBy := addedBy |}.
Definition AddMember (groupID userID addedBy : text) : DB unit := execute (λ db,
  Ok (set_members db (user_group_members db ++
    [member groupID userID addedBy (next_id UserGroupMember.ID (user_group_members db))]))).
Definition RemoveMember (groupID userID : text) : DB unit := execute (λ db,
  Ok (set_members db (keep (λ m, negb (text_eqb (UserGroupMember.UserGroupID m) groupID &&
                                      text_eqb (UserGroupMember.UserID m) userID)) (user_group_members db)))).
(** An error ends the transaction, unless its text is the one of SQLite. *)
Definition BatchAddMembers (err_text : db_error → text) (groupID : text) (userIDs : list text) (addedBy : text)
    : DB unit := Transaction (for_each (λ userID,
  r ← caught (AddMember groupID userID addedBy);
  match r with
  | Ok _ => mret ()
  | Err e => if text_eqb (err_text e) (txt "UNIQUE constraint failed") then mret () else raise e
  end) userIDs).
Definition BatchRemoveMembers (groupID : text) (userIDs : list text) : DB unit := execute (λ db,
  Ok (set_members db (keep (λ m, negb (text_eqb (UserGroupMember.UserGroupID m) groupID &&
    existsb (text_eqb (UserGroupMember.UserID m)) userIDs)) (user_group_members db)))).
Definition IsMember (groupID userID : text) : DB bool := query (λ db, Ok (is_member db userID groupID)).

Section ordered.
(** [ORDER BY users.username], in the collation of the table. *)
Context (by_username : list User.t → list User.t).
Definition GetMembersByGroupID (groupID : text) : DB (list User.t) := find (λ db, by_username (joined db groupID)).
Definition FindByIDWithMembers (id : text) : DB (UserGroup.t * list User.t * Z) :=
  group ← FindByID id;
  members ← GetMembersByGroupID id;
  mret (group, members, Z.of_nat (length members)).
End ordered.
End UserGroupRepository.

Module SystemUserRepository.
Definition stored (s : SystemUser.t) : SystemUser.t :=
  {| SystemUser.ID := SystemUser.ID s; SystemUser.Name := SystemUser.Name s;
     SystemUser.Username := SystemUser.Username s;
     SystemUser.AuthType := or_default (SystemUser.AuthType s) "password";
     SystemUser.Password := SystemUser.Password s; SystemUser.PrivateKey := SystemUser.PrivateKey s;
     SystemUser.Passphrase := SystemUser.Passphrase s;
     SystemUser.Protocol := or_default (SystemUser.Protocol s) "ssh";
     SystemUser.Priority := SystemUser.Priority s;
     SystemUser.Status := or_default (SystemUser.Status s) "active" |}.
Definition of_id (id : text) (s : SystemUser.t) : bool := text_eqb (SystemUser.ID s) id.

Definition Create (systemUser : SystemUser.t) : DB unit := execute (λ db,
  if existsb (of_id (SystemUser.ID systemUser)) (system_users db) then Err DuplicatedKey
  else Ok (set_system_users db (system_users db ++ [stored systemUser]))).
Definition Update (assign : SystemUser.t → SystemUser.t → SystemUser.t) (systemUser : SystemUser.t) : DB unit :=
  execute (λ db, Ok (set_system_users db
    (updated (of_id (SystemUser.ID systemUser)) (assign systemUser) <$> system_users db))).
Definition Delete (id : text) : DB unit := execute (λ db,
  Ok (set_system_users db (keep (λ s, negb (of_id id s)) (system_users db)))).
Definition FindAll : DB (list SystemUser.t) := find (λ db, by_priority SystemUser.Priority (system_users db)).
Definition FindByStatus (status : text) : DB (list SystemUser.t) := find (λ db,
  by_priority SystemUser.Priority (keep (λ s, text_eqb (SystemUser.Status s) status) (system_users db))).
Definition FindByProtocol (protocol : text) : DB (list SystemUser.t) := find (λ db,
  by_priority SystemUser.Priority (keep (λ s, text_eqb (SystemUser.Protocol s) protocol &&
                                             text_eqb (SystemUser.Status s) active) (system_users db))).
End SystemUserRepository.

Module PermissionRuleRepository.
Definition of_id (id : text) (r : PermissionRule.t) : bool := text_eqb (PermissionRule.ID r) id.
Definition FindByID (id : text) : DB PermissionRule.t := first (λ db, keep (of_id id) (permission_rules db)).
Definition FindByUserGroup (userGroupID : text) : DB (list PermissionRule.t) := find (λ db,
  by_priority PermissionRule.Priority
    (keep (λ r, text_eqb (PermissionRule.UserGroupID r) userGroupID) (permission_rules db))).
(** The old column, not the relation. *)
Definition FindByHostGroup (hostGroupID : text) : DB (list PermissionRule.t) := find (λ db,
  by_priority PermissionRule.Priority
    (keep (λ r, bool_decide (PermissionRule.HostGroupID r = Some hostGroupID)) (permission_rules db))).

(** [PermissionRuleDetail] *)
Record detail := {
  rule : PermissionRule.t; UserGroupName : text; HostGroupName : text; SystemUserName : text;
  SystemUsers : list SystemUser.t; HostGroups : list HostGroup.t; SystemUserIDs : list text;
  HostGroupIDs : list text; SystemUserNames : list text; HostGroupNames : list text }.

(** A lookup that fails adds nothing. *)
Definition found {A} (lookup : text → DB A) (ids : list text) : DB (list A) :=
  l ← each (λ id, attempt (lookup id)) ids; mret (omap id l).
(** The first name that is not empty. *)
Definition first_name (names : list text) : text := default [] (head (keep (λ n, negb (is_empty n)) names)).

Definition detail_of (rule : PermissionRule.t) : DB detail :=
  userGroup ← attempt (UserGroupRepository.FindByID (PermissionRule.UserGroupID rule));
  accountRelations ← attempt (find (λ db, RuleSystemUser.SystemUserID <$>
    keep (λ rel, text_eqb (RuleSystemUser.PermissionRuleID rel) (PermissionRule.ID rule)) (rule_system_users db)));
  systemUsers ← found FindSystemUserByID (default [] accountRelations);
  groupRelations ← attempt (find (λ db, RuleHostGroup.HostGroupID <$>
    keep (λ rel, text_eqb (RuleHostGroup.PermissionRuleID rel) (PermissionRule.ID rule)) (rule_host_groups db)));
  hostGroups ← found (λ id, first (λ db, keep (λ g, text_eqb (HostGroup.ID g) id) (host_groups db)))
                     (default [] groupRelations);
  mret {| rule := rule; UserGroupName := match userGroup with Some g => UserGroup.Name g | None => [] end;
          HostGroupName := first_name (HostGroup.Name <$> hostGroups);
          SystemUserName := first_name (SystemUser.Name <$> systemUsers);
          SystemUsers := systemUsers; HostGroups := hostGroups;
          SystemUserIDs := default [] accountRelations; HostGroupIDs := default [] groupRelations;
          SystemUserNames := SystemUser.Name <$> systemUsers; HostGroupNames := HostGroup.Name <$> hostGroups |}.
Definition FindAll : DB (list detail) :=
  rules ← find (λ db, by_priority PermissionRule.Priority (permission_rules db));
  each detail_of rules.
End PermissionRuleRepository.

(** ** The handlers *)

Definition invalid {A} : Http A := raise (400, txt "Invalid request body").

Module UserGroupHandler.
Definition with_id (g : UserGroup.t) (id : text) : UserGroup.t :=
  {| UserGroup.ID := id; UserGroup.Name := UserGroup.Name g; UserGroup.Priority := UserGroup.Priority g;
     UserGroup.Status := UserGroup.Status g |}.

Section handler.
Context (err_text : db_error → text) (by_username : list User.t → list User.t)
  (assign : UserGroup.t → UserGroup.t → UserGroup.t).

Definition ListUserGroups : Http (list UserGroup.t) :=
  answering 500 "Failed to fetch user groups" UserGroupRepository.FindAll.
Definition ListWithMembers : Http (list (UserGroup.t * Z)) :=
  answering 500 "Failed to fetch user groups" UserGroupRepository.FindAllWithMembers.
Definition GetUserGroup (id : text) : Http UserGroup.t :=
  answering 404 "User group not found" (UserGroupRepository.FindByID id).
Definition GetWithMembers (id : text) : Http (UserGroup.t * list User.t * Z) :=
  answering 404 "User group not found" (UserGroupRepository.FindByIDWithMembers by_username id).

Definition CreateUserGroup (group : option UserGroup.t) (newID : text) : Http UserGroup.t :=
  match group with
  | None => invalid
  | Some group =>
      let group := with_id group newID in
      _ ← answering 500 "Failed to create user group" (UserGroupRepository.Create group);
      mret (UserGroupRepository.stored group)
  end.
Definition UpdateUserGroup (id : text) (group : option UserGroup.t) : Http UserGroup.t :=
  match group with
  | None => invalid
  | Some group =>
      let group := with_id group id in
      _ ← answering 500 "Failed to update user group" (UserGroupRepository.Update assign group);
      mret group
  end.
Definition DeleteUserGroup (id : text) : Http unit :=
  answering 500 "Failed to delete user group" (UserGroupRepository.Delete id).

Definition GetUserGroupMembers (id : text) : Http (list User.t) :=
  answering 500 "Failed to fetch members" (UserGroupRepository.GetMembersByGroupID by_username id).
(** The id is required. *)
Definition AddUserGroupMember (caller : option Claims.t) (id userID : text) : Http unit :=
  if is_empty userID then invalid
  else answering 500 "Failed to add member" (UserGroupRepository.AddMember id userID (caller_id caller)).
Definition RemoveUserGroupMember (id userID : text) : Http unit :=
  answering 500 "Failed to remove member" (UserGroupRepository.RemoveMember id userID).
Definition BatchAddMembers (caller : option Claims.t) (id : text) (userIDs : option (list text)) : Http unit :=
  match userIDs with
  | None => invalid
  | Some userIDs => answering 500 "Failed to add members"
      (UserGroupRepository.BatchAddMembers err_text id userIDs (caller_id caller))
  end.
Definition GetUserGroups (userID : text) : Http (list UserGroup.t) :=
  if is_empty userID then raise (400, txt "Missing userId parameter")
  else answering 500 "Failed to fetch user groups" (GetGroupsByUserID userID).
End handler.
End UserGroupHandler.

Module SystemUserHandler.
Definition with_id (s : SystemUser.t) (id : text) : SystemUser.t :=
  {| SystemUser.ID := id; SystemUser.Name := SystemUser.Name s; SystemUser.Username := SystemUser.Username s;
     SystemUser.AuthType := SystemUser.AuthType s; SystemUser.Password := SystemUser.Password s;
     SystemUser.PrivateKey := SystemUser.PrivateKey s; SystemUser.Passphrase := SystemUser.Passphrase s;
     SystemUser.Protocol := SystemUser.Protocol s; SystemUser.Priority := SystemUser.Priority s;
     SystemUser.Status := SystemUser.Status s |}.

Section handler.
Context (JSON_CONTAINS : text → text → bool) (assign : SystemUser.t → SystemUser.t → SystemUser.t).

Definition ListSystemUsers (status : text) : Http (list SystemUser.t) :=
  answering 500 "Failed to fetch system users"
    (if negb (is_empty status) then SystemUserRepository.FindByStatus status else SystemUserRepository.FindAll).
Definition GetSystemUser (id : text) : Http SystemUser.t :=
  answering 404 "System user not found" (FindSystemUserByID id).

(** The credentials of the way of signing in are required. *)
Definition valid_account (s : SystemUser.t) : result (Z * text) unit :=
  let key := text_eqb (SystemUser.AuthType s) (txt "key") in
  let password := text_eqb (SystemUser.AuthType s) (txt "password") in
  if negb password && negb key then Err (400, txt "Invalid auth type. Must be 'password' or 'key'")
  else if password && is_empty (SystemUser.Password s)
  then Err (400, txt "Password is required when auth type is 'password'")
  else if key && is_empty (SystemUser.PrivateKey s)
  then Err (400, txt "Private key is required when auth type is 'key'")
  else Ok ().

Definition CreateSystemUser (systemUser : option SystemUser.t) (newID : text) : Http SystemUser.t :=
  match systemUser with
  | None => invalid
  | Some systemUser =>
      match valid_account systemUser with
      | Err e => raise e
      | Ok _ =>
          let systemUser := with_id systemUser newID in
          _ ← answering 500 "Failed to create system user" (SystemUserRepository.Create systemUser);
          mret (SystemUserRepository.stored systemUser)
      end
  end.
Definition UpdateSystemUser (id : text) (systemUser : option SystemUser.t) : Http SystemUser.t :=
  match systemUser with
  | None => invalid
  | Some systemUser =>
      match valid_account systemUser with
      | Err e => raise e
      | Ok _ =>
          let systemUser := with_id systemUser id in
          _ ← answering 500 "Failed to update system user" (SystemUserRepository.Update assign systemUser);
          mret systemUser
      end
  end.
Definition DeleteSystemUser (id : text) : Http unit :=
  answering 500 "Failed to delete system user" (SystemUserRepository.Delete id).

Definition GetAvailableSystemUsers (caller : option Claims.t) (now : Z) (hostID : text) : Http (list SystemUser.t) :=
  if is_empty hostID then raise (400, txt "Missing hostId parameter")
  else
    match caller with
    | None => raise (401, txt "Unauthorized")
    | Some c => answering 500 "Failed to fetch available system users"
                  (GetAvailableSystemUsersForUser JSON_CONTAINS now (Claims.UserID c) hostID)
    end.
Definition CheckPermission (caller : option Claims.t) (now : Z) (hostID systemUserID : text) : Http bool :=
  if is_empty hostID || is_empty systemUserID then raise (400, txt "Missing parameters")
  else
    match caller with
    | None => raise (401, txt "Unauthorized")
    | Some c => answering 500 "Failed to check permission"
                  (CheckUserHasPermission JSON_CONTAINS now (Claims.UserID c) hostID systemUserID)
    end.
End handler.
End SystemUserHandler.

Module PermissionRuleHandler.
(** A pointer to an empty string becomes a nil pointer. *)
Definition nil_if_empty (o : option text) : option text :=
  match o with Some s => if is_empty s then None else Some s | None => None end.
Definition bound (r : PermissionRule.t) (id : text) : PermissionRule.t :=
  {| PermissionRule.ID := id; PermissionRule.Name := PermissionRule.Name r;
     PermissionRule.UserGroupID := PermissionRule.UserGroupID r;
     PermissionRule.HostGroupID := nil_if_empty (PermissionRule.HostGroupID r);
     PermissionRule.HostIDs := PermissionRule.HostIDs r;
     PermissionRule.SystemUserID := nil_if_empty (PermissionRule.SystemUserID r);
     PermissionRule.ValidFrom := PermissionRule.ValidFrom r; PermissionRule.ValidTo := PermissionRule.ValidTo r;
     PermissionRule.Enabled := PermissionRule.Enabled r; PermissionRule.Priority := PermissionRule.Priority r |}.

(** [CreatePermissionRuleRequest] *)
Record request := { PermissionRule_ : PermissionRule.t; SystemUserIDs : list text; HostGroupIDs : list text }.

Section handler.
Context (assign : PermissionRule.t → PermissionRule.t → PermissionRule.t).

Definition ListPermissionRules : Http (list PermissionRuleRepository.detail) :=
  answering 500 "Failed to fetch permission rules" PermissionRuleRepository.FindAll.
Definition GetPermissionRule (id : text) : Http PermissionRule.t :=
  answering 404 "Permission rule not found" (PermissionRuleRepository.FindByID id).
Definition CreatePermissionRule (req : option request) (newID : text) : Http PermissionRule.t :=
  match req with
  | None => invalid
  | Some req =>
      let rule := bound (PermissionRule_ req) newID in
      _ ← answering 500 "Failed to create permission rule"
            (RuleRepository.CreateWithRelations rule (SystemUserIDs req) (HostGroupIDs req));
      mret (Permissions.stored rule)
  end.
Definition UpdatePermissionRule (id : text) (req : option request) : Http PermissionRule.t :=
  match req with
  | None => invalid
  | Some req =>
      let rule := bound (PermissionRule_ req) id in
      _ ← answering 500 "Failed to update permission rule"
            (RuleRepository.UpdateWithRelations assign rule (SystemUserIDs req) (HostGroupIDs req));
      mret rule
  end.
Definition DeletePermissionRule (id : text) : Http unit :=
  answering 500 "Failed to delete permission rule" (RuleRepository.Delete id).
Definition GetPermissionRulesByUserGroup (userGroupID : text) : Http (list PermissionRule.t) :=
  if is_empty userGroupID then raise (400, txt "Missing userGroupId parameter")
  else answering 500 "Failed to fetch permission rules" (PermissionRuleRepository.FindByUserGroup userGroupID).
Definition GetPermissionRulesByHostGroup (hostGroupID : text) : Http (list PermissionRule.t) :=
  if is_empty hostGroupID then raise (400, txt "Missing hostGroupId parameter")
  else answering 500 "Failed to fetch permission rules" (PermissionRuleRepository.FindByHostGroup hostGroupID).
End handler.
End PermissionRuleHandler.

(** ** Requests *)

Inductive call :=
  | c_ListUserGroups (withMembers : text)
  | c_GetUserGroup (id withMembers : text)
  | c_CreateUserGroup (group : option UserGroup.t) (newID : text)
  | c_UpdateUserGroup (id : text) (group : option UserGroup.t)
  | c_DeleteUserGroup (id : text)
  | c_GetUserGroupMembers (id : text)
  | c_AddUserGroupMember (id userID : text)
  | c_RemoveUserGroupMember (id userID : text)
  | c_BatchAddMembers (id : text) (userIDs : option (list text))
  | c_GetUserGroups (userID : text)
  | c_ListSystemUsers (status : text)
  | c_GetSystemUser (id : text)
  | c_CreateSystemUser (s : option SystemUser.t) (newID : text)
  | c_UpdateSystemUser (id : text) (s : option SystemUser.t)
  | c_DeleteSystemUser (id : text)
  | c_GetAvailableSystemUsers (hostID : text)
  | c_CheckPermission (hostID systemUserID : text)
  | c_ListPermissionRules
  | c_GetPermissionRule (id : text)
  | c_CreatePermissionRule (req : option PermissionRuleHandler.request) (newID : text)
  | c_UpdatePermissionRule (id : text) (req : option PermissionRuleHandler.request)
  | c_DeletePermissionRule (id : text)
  | c_GetPermissionRulesByUserGroup (userGroupID : text)
  | c_GetPermissionRulesByHostGroup (hostGroupID : text).

Definition handler_name (c : call) : string :=
  match c with
  | c_ListUserGroups _ => "userGroupHandler.ListUserGroups"
  | c_GetUserGroup _ _ => "userGroupHandler.GetUserGroup"
  | c_CreateUserGroup _ _ => "userGroupHandler.CreateUserGroup"
  | c_UpdateUserGroup _ _ => "userGroupHandler.UpdateUserGroup"
  | c_DeleteUserGroup _ => "userGroupHandler.DeleteUserGroup"
  | c_GetUserGroupMembers _ => "userGroupHandler.GetUserGroupMembers"
  | c_AddUserGroupMember _ _ => "userGroupHandler.AddUserGroupMember"
  | c_RemoveUserGroupMember _ _ => "userGroupHandler.RemoveUserGroupMember"
  | c_BatchAddMembers _ _ => "userGroupHandler.BatchAddMembers"
  | c_GetUserGroups _ => "userGroupHandler.GetUserGroups"
  | c_ListSystemUsers _ => "systemUserHandler.ListSystemUsers"
  | c_GetSystemUser _ => "systemUserHandler.GetSystemUser"
  | c_CreateSystemUser _ _ => "systemUserHandler.CreateSystemUser"
  | c_UpdateSystemUser _ _ => "systemUserHandler.UpdateSystemUser"
  | c_DeleteSystemUser _ => "systemUserHandler.DeleteSystemUser"
  | c_GetAvailableSystemUsers _ => "systemUserHandler.GetAvailableSystemUsers"
  | c_CheckPermission _ _ => "systemUserHandler.CheckPermission"
  | c_ListPermissionRules => "permissionRuleHandler.ListPermissionRules"
  | c_GetPermissionRule _ => "permissionRuleHandler.GetPermissionRule"
  | c_CreatePermissionRule _ _ => "permissionRuleHandler.CreatePermissionRule"
  | c_UpdatePermissionRule _ _ => "permissionRuleHandler.UpdatePermissionRule"
  | c_DeletePermissionRule _ => "permissionRuleHandler.DeletePermissionRule"
  | c_GetPermissionRulesByUserGroup _ => "permissionRuleHandler.GetPermissionRulesByUserGroup"
  | c_GetPermissionRulesByHostGroup _ => "permissionRuleHandler.GetPermissionRulesByHostGroup"
  end.

Inductive answer :=
  | Nothing | AGroup (g : UserGroup.t) | AGroups (l : list UserGroup.t) | ACounted (l : list (UserGroup.t * Z))
  | AMembers (l : list User.t) | AGroupMembers (g : UserGroup.t) (l : list User.t) (count : Z)
  | AAccount (s : SystemUser.t) | AAccounts (l : list SystemUser.t) | AVerdict (hasPermission : bool)
  | ARule (r : PermissionRule.t) | ARules (l : list PermissionRule.t)
  | ADetails (l : list PermissionRuleRepository.detail).

(** The third-party parts the handlers use. *)
Record library := {
  JSON_CONTAINS : text → text → bool; err_text : db_error → text;
  by_username : list User.t → list User.t;
  assign_group : UserGroup.t → UserGroup.t → UserGroup.t;
  assign_account : SystemUser.t → SystemUser.t → SystemUser.t;
  assign_rule : PermissionRule.t → PermissionRule.t → PermissionRule.t }.

Definition access_run (lib : library) (caller : option Claims.t) (now : Z) (c : call) : Http answer :=
  match c with
  | c_ListUserGroups w => if text_eqb w (txt "true") then reply ACounted UserGroupHandler.ListWithMembers
                          else reply AGroups UserGroupHandler.ListUserGroups
  | c_GetUserGroup id w =>
      if text_eqb w (txt "true")
      then reply (λ r, AGroupMembers r.1.1 r.1.2 r.2) (UserGroupHandler.GetWithMembers (by_username lib) id)
      else reply AGroup (UserGroupHandler.GetUserGroup id)
  | c_CreateUserGroup g newID => reply AGroup (UserGroupHandler.CreateUserGroup g newID)
  | c_UpdateUserGroup id g => reply AGroup (UserGroupHandler.UpdateUserGroup (assign_group lib) id g)
  | c_DeleteUserGroup id => reply (λ _, Nothing) (UserGroupHandler.DeleteUserGroup id)
  | c_GetUserGroupMembers id => reply AMembers (UserGroupHandler.GetUserGroupMembers (by_username lib) id)
  | c_AddUserGroupMember id u => reply (λ _, Nothing) (UserGroupHandler.AddUserGroupMember caller id u)
  | c_RemoveUserGroupMember id u => reply (λ _, Nothing) (UserGroupHandler.RemoveUserGroupMember id u)
  | c_BatchAddMembers id us => reply (λ _, Nothing) (UserGroupHandler.BatchAddMembers (err_text lib) caller id us)
  | c_GetUserGroups u => reply AGroups (UserGroupHandler.GetUserGroups u)
  | c_ListSystemUsers status => reply AAccounts (SystemUserHandler.ListSystemUsers status)
  | c_GetSystemUser id => reply AAccount (SystemUserHandler.GetSystemUser id)
  | c_CreateSystemUser s newID => reply AAccount (SystemUserHandler.CreateSystemUser s newID)
  | c_UpdateSystemUser id s => reply AAccount (SystemUserHandler.UpdateSystemUser (assign_account lib) id s)
  | c_DeleteSystemUser id => reply (λ _, Nothing) (SystemUserHandler.DeleteSystemUser id)
  | c_GetAvailableSystemUsers h =>
      reply AAccounts (SystemUserHandler.GetAvailableSystemUsers (JSON_CONTAINS lib) caller now h)
  | c_CheckPermission h s => reply AVerdict (SystemUserHandler.CheckPermission (JSON_CONTAINS lib) caller now h s)
  | c_ListPermissionRules => reply ADetails PermissionRuleHandler.ListPermissionRules
  | c_GetPermissionRule id => reply ARule (PermissionRuleHandler.GetPermissionRule id)
  | c_CreatePermissionRule req newID => reply ARule (PermissionRuleHandler.CreatePermissionRule req newID)
  | c_UpdatePermissionRule id req =>
      reply ARule (PermissionRuleHandler.UpdatePermissionRule (assign_rule lib) id req)
  | c_DeletePermissionRule id => reply (λ _, Nothing) (PermissionRuleHandler.DeletePermissionRule id)
  | c_GetPermissionRulesByUserGroup g => reply ARules (PermissionRuleHandler.GetPermissionRulesByUserGroup g)
  | c_GetPermissionRulesByHostGroup g => reply ARules (PermissionRuleHandler.GetPermissionRulesByHostGroup g)
  end.

Definition access_api (lib : library) : Api call answer := {| handler_of := handler_name; run := access_run lib |}.

(** ** Who may change the access model *)

Section facts.
Context `{Crypto} `{Unicode} (lib : library).
Notation serve := (Serving.serve (A := access_api lib)).
Notation grants := (Permissions.grants (JSON_CONTAINS lib)).

(** What is left to the users only reads. *)
Lemma access_reads caller now c : access_of (handler_name c) ≠ Administrators → reads (access_run lib caller now c).
Proof.
  intros Ha. destruct c; try (exfalso; apply Ha; vm_compute; reflexivity); clear Ha; cbn [access_run].
  - destruct (text_eqb _ _); apply reads_reply; unfold UserGroupHandler.ListWithMembers,
      UserGroupHandler.ListUserGroups, answering, UserGroupRepository.FindAllWithMembers,
      UserGroupRepository.FindAll; preserves_tac.
  - destruct (text_eqb _ _); apply reads_reply; unfold UserGroupHandler.GetWithMembers,
      UserGroupHandler.GetUserGroup, answering, UserGroupRepository.FindByIDWithMembers,
      UserGroupRepository.GetMembersByGroupID, UserGroupRepository.FindByID; preserves_tac.
  - apply reads_reply. unfold UserGroupHandler.GetUserGroupMembers, answering,
      UserGroupRepository.GetMembersByGroupID. preserves_tac.
  - apply reads_reply. unfold UserGroupHandler.GetUserGroups, answering, GetGroupsByUserID. preserves_tac.
  - apply reads_reply. unfold SystemUserHandler.ListSystemUsers, answering, SystemUserRepository.FindByStatus,
      SystemUserRepository.FindAll. preserves_tac.
  - apply reads_reply. unfold SystemUserHandler.GetSystemUser, answering, FindSystemUserByID. preserves_tac.
  - apply reads_reply. unfold SystemUserHandler.GetAvailableSystemUsers, answering,
      GetAvailableSystemUsersForUser. destruct caller; preserves_tac.
  - apply reads_reply. unfold SystemUserHandler.CheckPermission, answering, CheckUserHasPermission.
      destruct caller; preserves_tac.
Qed.

(** C8: Only administrators change the access model through its API: whatever a
    request asks of the handlers of user groups, accounts and rules, and whichever
    statements fail, without a token issued to an administrator every table is as
    before. *)
Theorem access_administered hdr tok now c db f r db' f' :
  (∀ cl, Auth.AuthMiddleware hdr tok now = Ok cl → Claims.Role cl ≠ admin) →
  serve hdr tok now c db f = (r, db', f') → db' = db.
Proof.
  intros Hn Hs. assert (reads (serve hdr tok now c)) as Hr.
  { apply serve_reads; [|done]. intros Ha caller. by apply access_reads. }
  symmetry. exact (preserves_run _ _ _ _ _ _ _ Hr Hs).
Qed.

(** Every handler has a route. *)
Lemma access_routed c : handler_name c ∈ handler <$> routes.
Proof.
  apply (bool_decide_eq_true_1 (handler_name c ∈ handler <$> routes)). by destruct c; vm_compute.
Qed.

(** The passwords and keys of all accounts go to every user who asks. *)
Theorem credentials_for_every_user hdr tok now cl db s : Auth.AuthMiddleware hdr tok now = Ok cl →
  s ∈ system_users db →
  ∃ l, serve hdr tok now (c_ListSystemUsers []) db [] = (Ok (AAccounts l), db, []) ∧ s ∈ l.
Proof.
  intros Hm Hs. exists (by_priority SystemUser.Priority (system_users db)). split.
  - rewrite (serve_user hdr tok now (c_ListSystemUsers []) cl); [done|apply access_routed|vm_compute; reflexivity|done].
  - unfold by_priority. rewrite merge_sort_Permutation. apply list_elem_of_In, in_rev. rewrite rev_involutive.
    by apply list_elem_of_In.
Qed.

(** ** What the administrators' changes do to the access relation *)

(** A rule that grants, of a group. *)
Definition grants_in (P : text → Prop) (db : Db) (now : Z) (uid hid sid : text) : Prop :=
  ∃ r, r ∈ permission_rules db ∧ P (PermissionRule.UserGroupID r) ∧ rule_has_account db r sid = true ∧
       rule_applies db now r uid = true ∧ rule_covers_host (JSON_CONTAINS lib) db r hid = true.

Lemma reaches_spec db r uid : rule_reaches_user db r uid = true ↔
  ∃ g, g ∈ user_groups db ∧ UserGroup.ID g = PermissionRule.UserGroupID r ∧
       is_member db uid (UserGroup.ID g) = true ∧ UserGroup.Status g = active.
Proof.
  unfold rule_reaches_user. rewrite existsb_elem. split.
  - intros (g & Hg & [ [E1%text_eqb_true E2]%andb_prop E3%text_eqb_true]%andb_prop). by exists g.
  - intros (g & Hg & E1 & E2 & E3). exists g. split; [done|]. by rewrite <- E1, E2, E3, !text_eqb_refl.
Qed.

Lemma applies_spec db now r uid : rule_applies db now r uid = true ↔
  PermissionRule.Enabled r = true ∧ in_time now r = true ∧ rule_reaches_user db r uid = true.
Proof. unfold rule_applies. rewrite !andb_true_iff. tauto. Qed.

(** What is left of the members when some go. *)
Lemma member_left db p uid gid : is_member (set_members db (keep p (user_group_members db))) uid gid = true ↔
  ∃ m, m ∈ user_group_members db ∧ p m = true ∧ UserGroupMember.UserGroupID m = gid ∧ UserGroupMember.UserID m = uid.
Proof.
  rewrite member_test. cbn [user_group_members set_members]. split.
  - intros (m & [Hm Hp]%elem_of_keep & H1 & H2). by exists m.
  - intros (m & Hm & Hp & H1 & H2). exists m. split; [by apply elem_of_keep|done].
Qed.

(** C12: A user who is taken out of a group loses exactly what the rules of that
    group gave: afterwards an account may be used when a rule of another group of
    the user's grants it, and nothing changes for anybody else. *)
Theorem removed_member_loses hdr tok now gid uid db f a db' f' :
  serve hdr tok now (c_RemoveUserGroupMember gid uid) db f = (Ok a, db', f') →
  ∀ at_ u hid sid, grants db' at_ u hid sid ↔ grants_in (λ g, u = uid → g ≠ gid) db at_ u hid sid.
Proof.
  intros (caller & Hr)%served_Ok at_ u hid sid. cbn [access_run] in Hr.
  apply reply_Ok in Hr as (x & _ & Hr). apply or_fail_Ok in Hr. destruct x. apply execute_Ok in Hr.
  injection Hr as <-. set (db' := set_members db _).
  assert (∀ r, rule_reaches_user db' r u = true ↔
    rule_reaches_user db r u = true ∧ (u = uid → PermissionRule.UserGroupID r ≠ gid)) as Hreach.
  { intros r. rewrite !reaches_spec. split.
    - intros (g & Hg & Hid & Hm & Hst). apply member_left in Hm as (m & Hm & Hp & H1 & H2). split.
      + exists g. split_and!; [done..| |done]. apply member_test. eauto.
      + intros -> E. by rewrite H1, Hid, E, H2, !text_eqb_refl in Hp.
    - intros [(g & Hg & Hid & Hm & Hst) Hne]. exists g. split_and!; [done..| |done].
      apply member_test in Hm as (m & Hm & H1 & H2). apply member_left. exists m. split_and!; try done.
      apply negb_true_iff, andb_false_iff. rewrite H1, H2, Hid.
      destruct (decide (u = uid)) as [->|]; [left|right]; apply bool_decide_eq_false; [by apply Hne|done]. }
  unfold Permissions.grants, grants_in. setoid_rewrite applies_spec. setoid_rewrite Hreach. split.
  - intros (r & H1 & H2 & (H3 & H4 & H5 & H6) & H7). exists r. by split_and!.
  - intros (r & H1 & H6 & H2 & (H3 & H4 & H5) & H7). exists r. by split_and!.
Qed.

(** Deleting a group takes away what its rules gave, from everybody; the rules
    themselves stay. *)
Theorem deleted_group_grants_nothing hdr tok now gid db f a db' f' :
  serve hdr tok now (c_DeleteUserGroup gid) db f = (Ok a, db', f') →
  (∀ at_ u hid sid, grants db' at_ u hid sid ↔ grants_in (λ g, g ≠ gid) db at_ u hid sid) ∧
  permission_rules db' = permission_rules db.
Proof.
  intros (caller & Hr)%served_Ok. cbn [access_run] in Hr. apply reply_Ok in Hr as (x & _ & Hr).
  apply or_fail_Ok in Hr. destruct x. apply Transaction_Ok, execute_bind in Hr as (db1 & f1 & [= <-] & Hr).
  apply execute_Ok in Hr. injection Hr as <-. split; [|done]. intros at_ u hid sid.
  set (db1 := set_members db _). set (db2 := set_user_groups db1 _).
  assert (∀ r, rule_reaches_user db2 r u = true ↔
    rule_reaches_user db r u = true ∧ PermissionRule.UserGroupID r ≠ gid) as Hreach.
  { intros r. rewrite !reaches_spec. split.
    - intros (g & [Hg Hne]%elem_of_keep & Hid & Hm & Hst). cbn [user_groups set_members] in Hg. split.
      + exists g. split_and!; [done..| |done].
        change (is_member db1 u (UserGroup.ID g) = true) in Hm.
        apply member_left in Hm as (m & Hm & _ & H1 & H2). apply member_test. eauto.
      + intros E. unfold UserGroupRepository.of_id in Hne. by rewrite Hid, E, text_eqb_refl in Hne.
    - intros [(g & Hg & Hid & Hm & Hst) Hne]. exists g. split_and!; [|done| |done].
      + apply elem_of_keep. split; [done|]. apply negb_true_iff, bool_decide_eq_false. by rewrite Hid.
      + change (is_member db1 u (UserGroup.ID g) = true). apply member_left.
        apply member_test in Hm as (m & Hm & H1 & H2). exists m. split_and!; try done.
        apply negb_true_iff, bool_decide_eq_false. by rewrite H1, Hid. }
  unfold Permissions.grants, grants_in. setoid_rewrite applies_spec. setoid_rewrite Hreach. split.
  - intros (r & H1 & H2 & (H3 & H4 & H5 & H6) & H7). exists r. by split_and!.
  - intros (r & H1 & H6 & H2 & (H3 & H4 & H5) & H7). exists r. by split_and!.
Qed.

(** C14: A rule that is created and deleted leaves the access relation as it was:
    whatever the request and its ids, if both requests succeed and the new id is
    used by no relation, then each user may use the same accounts on the same
    hosts as before. *)
Theorem rule_created_and_deleted hdr tok now req newID db f a db1 f1 hdr' tok' now' g a' db2 g' :
  Forall (λ rel, RuleSystemUser.PermissionRuleID rel ≠ newID) (rule_system_users db) →
  Forall (λ rel, RuleHostGroup.PermissionRuleID rel ≠ newID) (rule_host_groups db) →
  serve hdr tok now (c_CreatePermissionRule req newID) db f = (Ok a, db1, f1) →
  serve hdr' tok' now' (c_DeletePermissionRule newID) db1 g = (Ok a', db2, g') →
  ∀ at_ u hid sid, grants db2 at_ u hid sid ↔ grants db at_ u hid sid.
Proof.
  intros HA HG (caller & Hc)%served_Ok (caller' & Hd)%served_Ok at_ u hid sid. cbn [access_run] in Hc, Hd.
  apply reply_Ok in Hd as ([] & _ & Hd). apply or_fail_Ok, execute_Ok in Hd. injection Hd as <-.
  apply reply_Ok in Hc as (x & _ & Hc). destruct req as [req|]; [|done].
  apply bind_Ok in Hc as ([] & dbx & fx & Hc & [= _ -> _]). apply or_fail_Ok in Hc.
  apply Transaction_Ok, execute_bind in Hc as (dba & fa & Ha & Hc).
  destruct (existsb _ _) eqn:Ex in Ha; [done|]. injection Ha as <-.
  apply bind_Ok in Hc as ([] & dbb & fb & (newA & -> & HnA & HFA)%relate_accounts_Ok & Hc).
  apply relate_groups_Ok in Hc as (newG & -> & HnG & HFG). cbn [PermissionRule.ID PermissionRuleHandler.bound] in *.
  rewrite existsb_none in Ex.
  set (dba := set_rules db _). set (dbb := set_rule_system_users dba _). set (dbc := set_rule_host_groups dbb _).
  set (db2 := set_rules dbc _).
  assert (permission_rules db2 = permission_rules db) as Hrules.
  { cbn. rewrite keep_app. cbn [keep]. rewrite text_eqb_refl. cbn [negb]. rewrite app_nil_r.
    apply keep_id, Forall_forall. intros r Hr. by rewrite (Ex r Hr). }
  assert (∀ r, r ∈ permission_rules db → PermissionRule.ID r ≠ newID) as Hne.
  { intros r Hr E. specialize (Ex r Hr). by rewrite E, text_eqb_refl in Ex. }
  unfold Permissions.grants. rewrite Hrules. split; intros (r & Hr & H1 & H2 & H3); exists r.
  - split_and!; [done| |exact H2|].
    + apply (new_accounts dba (rule_system_users db) newA _ newID r sid HnA HFA) in H1 as [H1|[E _]]; [exact H1|].
      by destruct (Hne r Hr).
    + apply covers_spec in H3. apply covers_spec. destruct H3 as [H3|H3]; [left|by right].
      apply (new_groups dbb (rule_host_groups db) newG _ newID r hid HnG HFG) in H3 as [H3|[E _]]; [exact H3|].
      by destruct (Hne r Hr).
  - split_and!; [done| |exact H2|].
    + apply (new_accounts dba (rule_system_users db) newA _ newID r sid HnA HFA). by left.
    + apply covers_spec in H3. apply covers_spec. destruct H3 as [H3|H3]; [left|by right].
      apply (new_groups dbb (rule_host_groups db) newG _ newID r hid HnG HFG). by left.
Qed.

(** A deleted account is offered to nobody any more, but the check of a
    permission, which does not look for the account, still accepts it. *)
Theorem deleted_account_still_permitted hdr tok now sid db f a db' f' :
  serve hdr tok now (c_DeleteSystemUser sid) db f = (Ok a, db', f') →
  (∀ at_ u hid g l db2 g' s, GetAvailableSystemUsersForUser (JSON_CONTAINS lib) at_ u hid db' g = (Ok l, db2, g') →
     s ∈ l → SystemUser.ID s ≠ sid) ∧
  (∀ at_ u hid s, CheckUserHasPermission (JSON_CONTAINS lib) at_ u hid s db' [] =
     (res (CheckUserHasPermission (JSON_CONTAINS lib) at_ u hid s db []), db', [])).
Proof.
  intros (caller & Hr)%served_Ok. cbn [access_run] in Hr. apply reply_Ok in Hr as ([] & _ & Hr).
  apply or_fail_Ok, execute_Ok in Hr. injection Hr as <-. split; [|done].
  intros at_ u hid g l db2 g' s Hl Hs. apply (available_spec _ _ _ _ _ _ _ _ _ _ Hl) in Hs as (Hs & _).
  cbn in Hs. apply elem_of_keep in Hs as [_ Hne]. intros E. unfold SystemUserRepository.of_id in Hne.
  by rewrite E, text_eqb_refl in Hne.
Qed.

(** ** What the list of rules shows *)

(** The detail of a rule when no statement fails. *)
Definition accounts_of (db : Db) (r : PermissionRule.t) : list text := RuleSystemUser.SystemUserID <$>
  keep (λ rel, text_eqb (RuleSystemUser.PermissionRuleID rel) (PermissionRule.ID r)) (rule_system_users db).
Definition groups_of (db : Db) (r : PermissionRule.t) : list text := RuleHostGroup.HostGroupID <$>
  keep (λ rel, text_eqb (RuleHostGroup.PermissionRuleID rel) (PermissionRule.ID r)) (rule_host_groups db).

Lemma each_run {E A B} (body : A → Eff E B) (P : A → B → Prop) l db :
  (∀ x, ∃ y, body x db [] = (Ok y, db, []) ∧ P x y) →
  ∃ ys, each body l db [] = (Ok ys, db, []) ∧ Forall2 P l ys.
Proof.
  intros Hb. induction l as [|x l (ys & IH & HP)]; [by exists []|]. destruct (Hb x) as (y & Ey & Hy).
  exists (y :: ys). split; [|by constructor]. cbn [each]. by rewrite bind_run, Ey, bind_run, IH.
Qed.

Lemma attempt_first_run {E A} (q : Db → list A) db : ∃ o, attempt (F := E) (first q) db [] = (Ok o, db, []).
Proof. unfold attempt, first, query. destruct (q db); eauto. Qed.

Lemma found_run {A} (q : text → Db → list A) ids db :
  ∃ l, PermissionRuleRepository.found (λ id, first (q id)) ids db [] = (Ok l, db, []).
Proof.
  unfold PermissionRuleRepository.found.
  destruct (each_run (E := db_error) (λ id, attempt (first (q id))) (λ _ _, True) ids db) as (ys & E & _).
  { intros id. destruct (attempt_first_run (E := db_error) (q id) db) as (o & Eo). by exists o. }
  rewrite bind_run, E. by eexists.
Qed.

Lemma detail_run r db : ∃ d, PermissionRuleRepository.detail_of r db [] = (Ok d, db, []) ∧
  PermissionRuleRepository.rule d = r ∧ PermissionRuleRepository.SystemUserIDs d = accounts_of db r ∧
  PermissionRuleRepository.HostGroupIDs d = groups_of db r.
Proof.
  unfold PermissionRuleRepository.detail_of, UserGroupRepository.FindByID, FindSystemUserByID.
  destruct (attempt_first_run (E := db_error)
    (λ db, keep (UserGroupRepository.of_id (PermissionRule.UserGroupID r)) (user_groups db)) db) as (o & Eo).
  destruct (found_run (λ id db, keep (λ s, text_eqb (SystemUser.ID s) id) (system_users db)) (accounts_of db r) db)
    as (l1 & E1).
  destruct (found_run (λ id db, keep (λ g, text_eqb (HostGroup.ID g) id) (host_groups db)) (groups_of db r) db)
    as (l2 & E2).
  rewrite bind_run, Eo, !bind_run. cbn [attempt find query tail from_option id]. fold (accounts_of db r).
  rewrite bind_run, E1, !bind_run. cbn [attempt find query tail from_option id]. fold (groups_of db r).
  rewrite bind_run, E2. by eexists.
Qed.

(** C13: The list of rules shows what they grant: a user may use an account on a
    host exactly when a rule of the list is in force for the user, shows the
    account, and shows a group the host is in or lists the host itself. *)
Theorem listed_rules_grant hdr tok now cl db at_ u hid sid :
  Auth.AuthMiddleware hdr tok now = Ok cl → Claims.Role cl = admin →
  ∃ l, serve hdr tok now c_ListPermissionRules db [] = (Ok (ADetails l), db, []) ∧
    (grants db at_ u hid sid ↔ ∃ d, d ∈ l ∧
       let r := PermissionRuleRepository.rule d in
       rule_applies db at_ r u = true ∧ sid ∈ PermissionRuleRepository.SystemUserIDs d ∧
       ((∃ m, m ∈ host_group_members db ∧ HostGroupMember.HostID m = hid ∧
              HostGroupMember.GroupID m ∈ PermissionRuleRepository.HostGroupIDs d) ∨
        (PermissionRule.HostIDs r ≠ [] ∧ JSON_CONTAINS lib (PermissionRule.HostIDs r) hid = true))).
Proof.
  intros Hm Had.
  set (rows := by_priority PermissionRule.Priority (permission_rules db)).
  destruct (each_run PermissionRuleRepository.detail_of (λ r d, PermissionRuleRepository.rule d = r ∧
    PermissionRuleRepository.SystemUserIDs d = accounts_of db r ∧
    PermissionRuleRepository.HostGroupIDs d = groups_of db r) rows db) as (l & El & HF).
  { intros r. exact (detail_run r db). }
  exists l. split.
  { assert (permitted (A := access_api lib) hdr tok now c_ListPermissionRules (Some cl)) as Hp
      by (exists cl; by split_and!).
    rewrite (serve_permitted (A := access_api lib) hdr tok now c_ListPermissionRules (Some cl));
      [|apply access_routed|exact Hp|intros caller' Hp'; exact (permitted_unique _ _ _ _ _ _ Hp Hp')].
    change (access_run lib (Some cl) now c_ListPermissionRules db [] = (Ok (ADetails l), db, [])).
    cbn [access_run]. unfold reply. rewrite bind_run. unfold PermissionRuleHandler.ListPermissionRules, answering, or_fail.
    assert (PermissionRuleRepository.FindAll db [] = each PermissionRuleRepository.detail_of rows db []) as -> by done.
    by rewrite El. }
  assert (∀ r, r ∈ permission_rules db ↔ r ∈ rows) as Hrows.
  { intros r. unfold rows, by_priority. rewrite merge_sort_Permutation. rewrite !list_elem_of_In. apply in_rev. }
  assert (∀ r, sid ∈ accounts_of db r ↔ rule_has_account db r sid = true) as Hacc.
  { intros r. rewrite account_test. unfold accounts_of. rewrite list_elem_of_fmap. split.
    - intros (rel & -> & [Hr E%text_eqb_true]%elem_of_keep). by exists rel.
    - intros (rel & Hr & E & <-). exists rel. split; [done|]. apply elem_of_keep. by rewrite E, text_eqb_refl. }
  assert (∀ r, (∃ m, m ∈ host_group_members db ∧ HostGroupMember.HostID m = hid ∧
                     HostGroupMember.GroupID m ∈ groups_of db r) ↔ rule_groups_host db r hid = true) as Hgr.
  { intros r. rewrite groups_host_spec. unfold groups_of. setoid_rewrite list_elem_of_fmap. split.
    - intros (m & Hin & Hh & rel & Eg & [Hr E%text_eqb_true]%elem_of_keep). exists rel, m. by split_and!.
    - intros (rel & m & Hr & E & Hin & Eg & Hh). exists m. split_and!; [done..|]. exists rel. split; [done|].
      apply elem_of_keep. by rewrite E, text_eqb_refl. }
  unfold Permissions.grants. setoid_rewrite Hrows. split.
  - intros (r & Hr & H1 & H2 & H3%covers_spec).
    apply list_elem_of_lookup in Hr as (i & Hi). destruct (Forall2_lookup_l _ _ _ _ _ HF Hi) as (d & Hd & Er & Ea & Eg).
    exists d. split; [by eapply list_elem_of_lookup_2|]. cbv zeta. rewrite Er, Ea, Eg. split_and!; [done|by apply Hacc|].
    destruct H3 as [H3|H3]; [left; by apply Hgr|by right].
  - intros (d & Hd & H2 & H1 & H3). apply list_elem_of_lookup in Hd as (i & Hi).
    destruct (Forall2_lookup_r _ _ _ _ _ HF Hi) as (r & Hr & Er & Ea & Eg). cbv zeta in *. rewrite Er, Ea, Eg in *.
    exists r. split_and!; [by eapply list_elem_of_lookup_2|by apply Hacc|done|]. apply covers_spec.
    destruct H3 as [H3|H3]; [left; by apply Hgr|by right].
Qed.

(** ** Members in bulk *)

(** A batch of members is added as a whole or not at all, whatever fails; when
    it succeeds the group has its old members and those of the batch, and no other
    group has changed.  A user who is named twice is two members. *)
Theorem batch_all_or_nothing hdr tok now gid ids db f r db' f' :
  (∀ e, err_text lib e ≠ txt "UNIQUE constraint failed") →
  serve hdr tok now (c_BatchAddMembers gid (Some ids)) db f = (r, db', f') →
  match r with
  | Err _ => db' = db
  | Ok _ => ∃ new, user_group_members db' = user_group_members db ++ new ∧
      UserGroupMember.UserID <$> new = ids ∧ Forall (λ m, UserGroupMember.UserGroupID m = gid) new ∧
      db' = set_members db (user_group_members db')
  end.
Proof.
  intros Htext. destruct (serve_cases (A := access_api lib) hdr tok now (c_BatchAddMembers gid (Some ids)))
    as [(caller & _ & E)|(e & E & _)]; rewrite E; [|by intros [= <- <- <-] ].
  clear E. intros Hr. change (access_run lib caller now (c_BatchAddMembers gid (Some ids)) db f = (r, db', f')) in Hr.
  cbn [access_run] in Hr. unfold reply in Hr. rewrite bind_run in Hr.
  unfold UserGroupHandler.BatchAddMembers, answering, or_fail, UserGroupRepository.BatchAddMembers, Transaction in Hr.
  set (body := λ userID, _) in Hr.
  assert (∀ db f db2 f2, for_each body ids db f = (Ok (), db2, f2) →
    ∃ new, db2 = set_members db (user_group_members db ++ new) ∧ UserGroupMember.UserID <$> new = ids ∧
           Forall (λ m, UserGroupMember.UserGroupID m = gid) new) as Hloop.
  { clear Hr f db db' f'. induction ids as [|id ids IH]; intros db f db2 f2 Hr; simpl in Hr.
    - injection Hr as <- _. exists []. rewrite app_nil_r. by destruct db.
    - apply bind_Ok in Hr as ([] & db1 & f1 & H1 & (new & -> & Hn & HF)%IH).
      unfold body in H1. apply bind_Ok in H1 as (o & db0 & f0 & Hadd%caught_Ok & H1).
      destruct o as [[]|e];
        [|destruct (text_eqb _ _) eqn:Et; [apply text_eqb_true in Et; by destruct (Htext e)|done] ].
      injection H1 as <- <-. apply execute_Ok in Hadd. injection Hadd as <-.
      exists (UserGroupRepository.member gid id (caller_id caller)
                (next_id UserGroupMember.ID (user_group_members db)) :: new).
      split_and!; [|by cbn; rewrite Hn|by constructor]. cbn. by rewrite <- app_assoc. }
  destruct (for_each body ids db f) as [[[[]|e] db1] f1] eqn:El; cbn [map_err] in Hr; injection Hr as <- <- _; [|done].
  destruct (Hloop _ _ _ _ El) as (new & -> & Hn & HF). exists new. by split_and!.
Qed.
End facts.

(** ** Examples *)

Definition plain_library : library :=
  {| JSON_CONTAINS := no_json; err_text := plain_err; by_username := id; assign_group := λ _ r, r;
     assign_account := λ _ r, r; assign_rule := Permissions.assign_rule |}.
Definition root_claims : Claims.t := claims_of (User.set_role bob admin) 5.
Definition root_bearer : text := txt "Bearer " ++ claims_code root_claims.
Definition sample_request (c : call) (db : Db) := Serving.serve (A := access_api plain_library) root_bearer [] 6 c db [].

(** Bob asks for an account; nothing happens. *)
Lemma access_administered_witness :
  after (Serving.serve (A := access_api plain_library) bob_bearer [] 6
           (c_AddUserGroupMember (txt "ug1") (txt "u1")) bob2_db []) = bob2_db.
Proof.
  destruct (Serving.serve (A := access_api plain_library) bob_bearer [] 6
              (c_AddUserGroupMember (txt "ug1") (txt "u1")) bob2_db []) as [ [r db'] f'] eqn:E.
  eapply (access_administered plain_library bob_bearer [] 6); [|exact E].
  intros cl Hcl. assert (Auth.AuthMiddleware bob_bearer [] 6 = Ok (claims_of bob2 5)) as E'
    by (vm_compute; reflexivity). rewrite E' in Hcl. injection Hcl as <-. vm_compute. discriminate.
Defined.

Lemma credentials_for_every_user_witness :
  ∃ l, Serving.serve (A := access_api plain_library) bob_bearer [] 6 (c_ListSystemUsers []) (sample_db active active) [] =
       (Ok (AAccounts l), sample_db active active, []) ∧ sample_su active ∈ l.
Proof.
  apply (credentials_for_every_user plain_library bob_bearer [] 6 (claims_of bob2 5)).
  - vm_compute. reflexivity.
  - left.
Defined.

(** The user of the sample is taken out of the group, and has no account left. *)
Lemma removed_member_loses_witness :
  let db' := after (sample_request (c_RemoveUserGroupMember (txt "ug1") (txt "u1")) (sample_db active active)) in
  ¬ grants no_json db' 50 (txt "u1") (txt "h1") (txt "su1").
Proof.
  intros db' Hg.
  assert (sample_request (c_RemoveUserGroupMember (txt "ug1") (txt "u1")) (sample_db active active) =
          (Ok Nothing, db', [])) as E by (vm_compute; reflexivity).
  apply (removed_member_loses plain_library root_bearer [] 6 (txt "ug1") (txt "u1") _ _ _ _ _ E) in Hg
    as (r & Hr & Hne & _).
  apply list_elem_of_singleton in Hr as ->. by apply Hne.
Defined.

Lemma deleted_group_grants_nothing_witness :
  let db' := after (sample_request (c_DeleteUserGroup (txt "ug1")) (sample_db active active)) in
  permission_rules db' = [sample_rule].
Proof.
  intros db'.
  assert (sample_request (c_DeleteUserGroup (txt "ug1")) (sample_db active active) = (Ok Nothing, db', [])) as E
    by (vm_compute; reflexivity).
  apply (deleted_group_grants_nothing plain_library root_bearer [] 6 (txt "ug1") _ _ _ _ _ E).
Defined.

(** A rule that is asked for disabled is created enabled, and deleted again. *)
Definition new_rule_request : PermissionRuleHandler.request :=
  {| PermissionRuleHandler.PermissionRule_ := PermissionRule.set_enabled sample_rule false;
     PermissionRuleHandler.SystemUserIDs := [txt "su1"]; PermissionRuleHandler.HostGroupIDs := [txt "hg2"] |}.

Example created_rule_enabled :
  PermissionRule.Enabled <$>
    permission_rules (after (sample_request (c_CreatePermissionRule (Some new_rule_request) (txt "r2")) (sample_db active active))) =
  [true; true].
Proof. vm_compute. reflexivity. Qed.

Lemma rule_created_and_deleted_witness :
  let db1 := after (sample_request (c_CreatePermissionRule (Some new_rule_request) (txt "r2")) (sample_db active active)) in
  let db2 := after (sample_request (c_DeletePermissionRule (txt "r2")) db1) in
  length (rule_host_groups db2) = 2%nat ∧
  (grants no_json db2 50 (txt "u1") (txt "h1") (txt "su1") ↔
   grants no_json (sample_db active active) 50 (txt "u1") (txt "h1") (txt "su1")).
Proof.
  intros db1 db2. split; [vm_compute; reflexivity|].
  assert (sample_request (c_CreatePermissionRule (Some new_rule_request) (txt "r2")) (sample_db active active) =
          (Ok (ARule (Permissions.stored (PermissionRuleHandler.bound sample_rule (txt "r2")))), db1, [])) as E1
    by (vm_compute; reflexivity).
  assert (sample_request (c_DeletePermissionRule (txt "r2")) db1 = (Ok Nothing, db2, [])) as E2
    by (vm_compute; reflexivity).
  refine (rule_created_and_deleted plain_library root_bearer [] 6 (Some new_rule_request) (txt "r2") _ _ _ _ _
            root_bearer [] 6 _ _ _ _ _ _ E1 E2 50 (txt "u1") (txt "h1") (txt "su1")).
  - repeat constructor. vm_compute. discriminate.
  - repeat constructor. vm_compute. discriminate.
Defined.

(** Rules are listed by the old column, which the API leaves empty. *)
Example host_group_has_no_rules :
  res (sample_request (c_GetPermissionRulesByHostGroup (txt "hg1")) (sample_db active active)) = Ok (ARules []).
Proof. vm_compute. reflexivity. Qed.

Lemma listed_rules_grant_witness :
  ∃ l, sample_request c_ListPermissionRules (sample_db active active) = (Ok (ADetails l), sample_db active active, []) ∧
    grants no_json (sample_db active active) 50 (txt "u1") (txt "h1") (txt "su1").
Proof.
  destruct (listed_rules_grant plain_library root_bearer [] 6 root_claims (sample_db active active) 50 (txt "u1")
              (txt "h1") (txt "su1")) as (l & El & Hg).
  - vm_compute. reflexivity.
  - reflexivity.
  - exists l. split; [exact El|]. apply Hg.
    assert (sample_request c_ListPermissionRules (sample_db active active) = (Ok (ADetails
      [{| PermissionRuleRepository.rule := sample_rule; PermissionRuleRepository.UserGroupName := txt "ops";
          PermissionRuleRepository.HostGroupName := []; PermissionRuleRepository.SystemUserName := txt "root";
          PermissionRuleRepository.SystemUsers := [sample_su active]; PermissionRuleRepository.HostGroups := [];
          PermissionRuleRepository.SystemUserIDs := [txt "su1"]; PermissionRuleRepository.HostGroupIDs := [txt "hg1"];
          PermissionRuleRepository.SystemUserNames := [txt "root"];
          PermissionRuleRepository.HostGroupNames := [] |}]), sample_db active active, [])) as E
      by (vm_compute; reflexivity).
    change (sample_request c_ListPermissionRules (sample_db active active) = (Ok (ADetails l), sample_db active active, [])) in El.
    rewrite El in E. injection E as ->. eexists. split; [left|]. cbv zeta.
    split; [vm_compute; reflexivity|]. split; [left|]. left. eexists. split; [left|]. split; [reflexivity|left].
Defined.

Lemma batch_all_or_nothing_witness :
  let db' := after (sample_request (c_BatchAddMembers (txt "ug2") (Some [txt "u2"; txt "u2"])) (sample_db active active)) in
  ∃ new, user_group_members db' = user_group_members (sample_db active active) ++ new ∧
         UserGroupMember.UserID <$> new = [txt "u2"; txt "u2"].
Proof.
  intros db'.
  assert (sample_request (c_BatchAddMembers (txt "ug2") (Some [txt "u2"; txt "u2"])) (sample_db active active) =
          (Ok Nothing, db', [])) as E by (vm_compute; reflexivity).
  destruct (batch_all_or_nothing plain_library root_bearer [] 6 (txt "ug2") [txt "u2"; txt "u2"] _ _ _ _ _
    (λ e, ltac:(vm_compute; discriminate)) E) as (new & Hn & Hi & _). by exists new.
Defined.

Lemma deleted_account_still_permitted_witness :
  let db' := after (sample_request (c_DeleteSystemUser (txt "su1")) (sample_db active active)) in
  CheckUserHasPermission no_json 50 (txt "u1") (txt "h1") (txt "su1") db' [] = (Ok true, db', []).
Proof.
  intros db'.
  assert (sample_request (c_DeleteSystemUser (txt "su1")) (sample_db active active) = (Ok Nothing, db', [])) as E
    by (vm_compute; reflexivity).
  exact (proj2 (deleted_account_still_permitted plain_library root_bearer [] 6 (txt "su1") _ _ _ _ _ E)
           50 (txt "u1") (txt "h1") (txt "su1")).
Defined.
