(* ===== verification/Hosts.v ===== *)
(** * Hosts and host groups

    [internal/service/host_service.go] with the rest of [host_repository.go],
    [host_group_repository.go] and [HostRepository]'s use of the login records.
    [LIKE '%..%'] and the JSON functions of the database are parameters.  A page
    is cut from the newest row to the oldest; rows are created at the end. *)

From stdpp Require Import base list strings sorting.
From Stdlib Require Import ZArith Lia.
From S2P Require Import Prelude GoStrings Gorm Models Database Repositories Permissions Sessions Accounts Auth Gateway AuthApi.
Local Open Scope Z_scope.

(** [ORDER BY created_at DESC] *)
Definition newest_first {A} (l : list A) : list A := rev l.
Definition is_one_of (ids : list text) (id : text) : bool := existsb (text_eqb id) ids.

(** A count, then the page. *)
Definition page_counted {A} (rows : Db → list A) (page pageSize : Z) : DB (list A * Z) :=
  total ← query (λ db, Ok (Z.of_nat (length (rows db))));
  l ← find (λ db, page_of page pageSize (rows db));
  mret (l, total).
Definition count {A} (rows : Db → list A) : DB Z := query (λ db, Ok (Z.of_nat (length (rows db)))).

(** ** The repository of hosts *)

(** A row of the statistics of a user: the host, how often and when last. *)
Module LoginStat.
Record t := { HostID : text; LoginCount : Z; LastLoginTime : Z }.
End LoginStat.

Module HostRepository.
Definition of_id (id : text) (h : Host.t) : bool := text_eqb (Host.ID h) id.

(** The defaults of the columns, for fields left zero. *)
Definition stored (h : Host.t) : Host.t :=
  {| Host.ID := Host.ID h; Host.Name := Host.Name h; Host.IP := Host.IP h;
     Host.Port := if Host.Port h =? 0 then 22 else Host.Port h;
     Host.Status := if is_empty (Host.Status h) then txt "unknown" else Host.Status h;
     Host.OS := Host.OS h; Host.CPU := Host.CPU h; Host.Memory := Host.Memory h;
     Host.Tags := Host.Tags h; Host.Description := Host.Description h;
     Host.DeviceType := if is_empty (Host.DeviceType h) then txt "linux" else Host.DeviceType h;
     Host.ConnectionMode := if is_empty (Host.ConnectionMode h) then txt "auto" else Host.ConnectionMode h;
     Host.ProxyID := Host.ProxyID h; Host.NetworkZone := Host.NetworkZone h;
     Host.LastLoginTime := Host.LastLoginTime h; Host.LoginCount := Host.LoginCount h |}.

Definition Create (host : Host.t) : DB unit := execute (λ db,
  if existsb (of_id (Host.ID host)) (hosts db) then Err DuplicatedKey
  else Ok (set_hosts db (hosts db ++ [stored host]))).
(** [Save] *)
Definition Update (host : Host.t) : DB unit := execute (λ db, Ok (set_hosts db
  (if existsb (of_id (Host.ID host)) (hosts db)
   then updated (of_id (Host.ID host)) (λ _, host) <$> hosts db else hosts db ++ [stored host]))).
Definition Delete (id : text) : DB unit := execute (λ db,
  Ok (set_hosts db (keep (λ h, negb (of_id id h)) (hosts db)))).
Definition FindByIP (ip : text) : DB Host.t := first (λ db, keep (λ h, text_eqb (Host.IP h) ip) (hosts db)).

Definition of_status (status : string) (h : Host.t) : bool := text_eqb (Host.Status h) (txt status).
Definition CountByStatus : DB (Z * Z * Z) :=
  total ← count hosts;
  online ← count (λ db, keep (of_status "online") (hosts db));
  offline ← count (λ db, keep (of_status "offline") (hosts db));
  mret (total, online, offline).

(** The login records of a user, the latest first. *)
Definition later (a b : LoginRecord.t) : Prop := LoginRecord.LoginTime b <= LoginRecord.LoginTime a.
#[global] Instance later_dec : RelDecision later.
Proof. intros a b. apply Z_le_dec. Defined.
Definition of_user (userID : text) (r : LoginRecord.t) : bool := text_eqb (LoginRecord.UserID r) userID.
Definition on_host (hostID : text) (r : LoginRecord.t) : bool := text_eqb (LoginRecord.HostID r) hostID.
Definition logins (db : Db) (userID hostID : text) : list LoginRecord.t :=
  keep (λ r, of_user userID r && on_host hostID r) (login_records (aux db)).

(** [GROUP BY host_id], the hosts with most logins first. *)
Definition stat_of (db : Db) (userID hostID : text) : LoginStat.t :=
  {| LoginStat.HostID := hostID;
     LoginStat.LoginCount := Z.of_nat (length (logins db userID hostID));
     LoginStat.LastLoginTime := foldr (λ r m, Z.max (LoginRecord.LoginTime r) m)
       (default 0 (LoginRecord.LoginTime <$> head (logins db userID hostID))) (logins db userID hostID) |}.
Definition more_logins (a b : LoginStat.t) : Prop := LoginStat.LoginCount b <= LoginStat.LoginCount a.
#[global] Instance more_logins_dec : RelDecision more_logins.
Proof. intros a b. apply Z_le_dec. Defined.
Definition login_stats (db : Db) (userID : text) (hostIDs : list text) : list LoginStat.t :=
  merge_sort more_logins (stat_of db userID <$> remove_dups (LoginRecord.HostID <$>
    keep (λ r, of_user userID r && is_one_of hostIDs (LoginRecord.HostID r)) (login_records (aux db)))).

(** The two loops over the positions: [x] is at the first of them, [l] is what
    the second loop goes over; a host with more logins changes places with [x]. *)
Fixpoint scan (x : Host.t) (l : list Host.t) : Host.t * list Host.t :=
  match l with
  | [] => (x, [])
  | y :: l =>
      if Host.LoginCount x <? Host.LoginCount y
      then let (m, l) := scan y l in (m, x :: l)
      else let (m, l) := scan x l in (m, y :: l)
  end.
Fixpoint exchange_sort (n : nat) (l : list Host.t) : list Host.t :=
  match n, l with
  | S n, x :: l => let (m, l) := scan x l in m :: exchange_sort n l
  | _, _ => l
  end.

(** What the statistics say of a host. *)
Definition with_stat (stats : list LoginStat.t) (h : Host.t) : Host.t :=
  match keep (λ s, text_eqb (LoginStat.HostID s) (Host.ID h)) stats with
  | s :: _ => Host.set_logins h (Some (LoginStat.LastLoginTime s)) (LoginStat.LoginCount s)
  | [] => h
  end.

Section queries.
Context (like : text → text → bool) (JSON_EXTRACT : text → result db_error (list text)).

(** The search is for the name, the address or the system; every tag restricts. *)
Definition matches (search : text) (tags : list text) (h : Host.t) : bool :=
  (is_empty search || like (Host.Name h) search || like (Host.IP h) search || like (Host.OS h) search) &&
  forallb (like (Host.Tags h)) tags.
Definition among (ids : list text) (h : Host.t) : bool := is_one_of ids (Host.ID h).

Definition FindAll (page pageSize : Z) (search : text) (tags : list text) : DB (list Host.t * Z) :=
  page_counted (λ db, newest_first (keep (matches search tags) (hosts db))) page pageSize.

Definition find_among (ids : list text) (page pageSize : Z) (search : text) (tags : list text)
    : DB (list Host.t * Z) :=
  if is_empty ids then mret ([], 0)
  else page_counted (λ db, newest_first (keep (λ h, among ids h && matches search tags h) (hosts db))) page pageSize.
Definition FindByUser (page pageSize : Z) (search : text) (tags : list text) (userID : text)
    : DB (list Host.t * Z) :=
  hostIDs ← find (λ db, remove_dups (LoginRecord.HostID <$> keep (of_user userID) (login_records (aux db))));
  find_among hostIDs page pageSize search tags.
Definition FindByUserPermissions (now page pageSize : Z) (search : text) (tags : list text) (userID : text)
    : DB (list Host.t * Z) :=
  hostIDs ← GetAccessibleHostIDsForUser JSON_EXTRACT now userID;
  find_among hostIDs page pageSize search tags.

Definition CountByStatusForUser (now : Z) (userID : text) : DB (Z * Z * Z) :=
  hostIDs ← GetAccessibleHostIDsForUser JSON_EXTRACT now userID;
  if is_empty hostIDs then mret (0, 0, 0)
  else
    total ← count (λ db, keep (among hostIDs) (hosts db));
    online ← count (λ db, keep (λ h, among hostIDs h && of_status "online" h) (hosts db));
    offline ← count (λ db, keep (λ h, among hostIDs h && of_status "offline" h) (hosts db));
    mret (total, online, offline).

(** The errors of the statistics are ignored. *)
Definition count_for (userID : text) (h : Host.t) : DB Host.t :=
  loginCount ← attempt (count (λ db, logins db userID (Host.ID h)));
  record ← attempt (first (λ db, merge_sort later (logins db userID (Host.ID h))));
  mret (Host.set_logins h
          (match record with Some r => Some (LoginRecord.LoginTime r) | None => Host.LastLoginTime h end)
          (default 0 loginCount)).
Definition GetHostsWithUserLoginCount (page pageSize : Z) (search : text) (tags : list text) (userID : text)
    : DB (list Host.t * Z) :=
  r ← FindAll page pageSize search tags;
  let (l, total) := r : list Host.t * Z in
  l ← each (count_for userID) l;
  mret (l, total).

Definition limited {A} (limit : Z) (l : list A) : list A := take (Z.to_nat limit) l.
Definition GetUserFrequentHosts (now : Z) (userID : text) (limit : Z) : DB (list Host.t) :=
  accessibleHostIDs ← GetAccessibleHostIDsForUser JSON_EXTRACT now userID;
  if is_empty accessibleHostIDs then mret []
  else
    stats ← find (λ db, limited limit (login_stats db userID accessibleHostIDs));
    if is_empty stats
    then find (λ db, limited limit (newest_first (keep (among accessibleHostIDs) (hosts db))))
    else
      hosts ← find (λ db, keep (among (LoginStat.HostID <$> stats)) (hosts db));
      mret (exchange_sort (length hosts) (with_stat stats <$> hosts)).
End queries.
End HostRepository.

(** ** The repository of host groups *)

Module HostGroupRepository.
Definition of_id (id : text) (g : HostGroup.t) : bool := text_eqb (HostGroup.ID g) id.

(** The counts are not columns. *)
Definition Create (group : HostGroup.t) : DB unit := execute (λ db,
  if existsb (of_id (HostGroup.ID group)) (host_groups db) then Err DuplicatedKey
  else Ok (set_host_groups db (host_groups db ++ [set_counts group 0 0]))).
Definition FindByID (id : text) : DB HostGroup.t := first (λ db, keep (of_id id) (host_groups db)).
Definition FindByName (name : text) : DB HostGroup.t :=
  first (λ db, keep (λ g, text_eqb (HostGroup.Name g) name) (host_groups db)).
Definition FindAll : DB (list HostGroup.t) := find host_groups.
(** [Save] *)
Definition Update (group : HostGroup.t) : DB unit := execute (λ db,
  let row := set_counts group 0 0 in
  Ok (set_host_groups db
    (if existsb (of_id (HostGroup.ID group)) (host_groups db)
     then updated (of_id (HostGroup.ID group)) (λ _, row) <$> host_groups db else host_groups db ++ [row]))).
(** The members of the group and the rules that name it stay. *)
Definition Delete (id : text) : DB unit := execute (λ db,
  Ok (set_host_groups db (keep (λ g, negb (of_id id g)) (host_groups db)))).

(** There is no index on the pair of group and host. *)
Definition member (id : Z) (groupID addedBy hostID : text) : HostGroupMember.t :=
  {| HostGroupMember.ID := id; HostGroupMember.GroupID := groupID; HostGroupMember.HostID := hostID;
     HostGroupMember.AddedBy := addedBy |}.
Fixpoint members (id : Z) (groupID addedBy : text) (hostIDs : list text) : list HostGroupMember.t :=
  match hostIDs with
  | [] => []
  | hostID :: hostIDs => member id groupID addedBy hostID :: members (id + 1) groupID addedBy hostIDs
  end.
(** gorm refuses to create an empty slice. *)
Definition create_members (groupID addedBy : text) (hostIDs : list text) : DB unit := execute (λ db,
  if is_empty hostIDs then Err DBFailure
  else Ok (set_host_members db (host_group_members db ++
    members (next_id HostGroupMember.ID (host_group_members db)) groupID addedBy hostIDs))).
Definition in_group (groupID : text) (m : HostGroupMember.t) : bool :=
  text_eqb (HostGroupMember.GroupID m) groupID.
Definition delete_members (groupID : text) (hostIDs : list text) : DB unit := execute (λ db,
  Ok (set_host_members db (keep (λ m, negb (in_group groupID m && is_one_of hostIDs (HostGroupMember.HostID m)))
                                (host_group_members db)))).

Definition AddHostToGroup (groupID hostID addedBy : text) : DB unit := create_members groupID addedBy [hostID].
Definition RemoveHostFromGroup (groupID hostID : text) : DB unit := delete_members groupID [hostID].
Definition AddHostsToGroup (groupID : text) (hostIDs : list text) (addedBy : text) : DB unit :=
  create_members groupID addedBy hostIDs.
Definition RemoveHostsFromGroup (groupID : text) (hostIDs : list text) : DB unit := delete_members groupID hostIDs.
Definition MoveHostsBetweenGroups (fromGroupID toGroupID : text) (hostIDs : list text) (movedBy : text) : DB unit :=
  Transaction (delete_members fromGroupID hostIDs ;; create_members toGroupID movedBy hostIDs).

Definition GetHostsByGroupID (groupID : text) : DB (list Host.t) := find (λ db, group_hosts db groupID).
Definition GetGroupsByHostID (hostID : text) : DB (list HostGroup.t) := find (λ db,
  mjoin ((λ g, (λ _, g) <$> keep (λ m, in_group (HostGroup.ID g) m && text_eqb (HostGroupMember.HostID m) hostID)
                                 (host_group_members db)) <$> host_groups db)).
Definition IsHostInGroup (groupID hostID : text) : DB bool := query (λ db, Ok
  (existsb (λ m, in_group groupID m && text_eqb (HostGroupMember.HostID m) hostID) (host_group_members db))).

(** [HostGroupStatistics]; the errors of the counts are ignored. *)
Record statistics := { GroupID : text; GroupName : text; TotalHosts : Z; OnlineHosts : Z; OfflineHosts : Z }.
Definition GetGroupStatistics (groupID : text) : DB statistics :=
  group ← FindByID groupID;
  total ← attempt (count (λ db, keep (in_group groupID) (host_group_members db)));
  online ← attempt (count (λ db, keep (HostRepository.of_status "online") (group_hosts db groupID)));
  mret {| GroupID := groupID; GroupName := HostGroup.Name group; TotalHosts := default 0 total;
          OnlineHosts := default 0 online; OfflineHosts := default 0 total - default 0 online |}.

Definition SearchHostsInGroup (like : text → text → bool) (groupID keyword : text) : DB (list Host.t) :=
  find (λ db, keep (λ h, is_empty keyword || like (Host.Name h) keyword || like (Host.IP h) keyword)
                   (group_hosts db groupID)).

Definition with_order (g : HostGroup.t) (sortOrder : Z) : HostGroup.t :=
  {| HostGroup.ID := HostGroup.ID g; HostGroup.Name := HostGroup.Name g;
     HostGroup.Description := HostGroup.Description g; HostGroup.Color := HostGroup.Color g;
     HostGroup.Icon := HostGroup.Icon g; HostGroup.SortOrder := sortOrder;
     HostGroup.CreatedBy := HostGroup.CreatedBy g; HostGroup.HostCount := HostGroup.HostCount g;
     HostGroup.OnlineCount := HostGroup.OnlineCount g |}.
(** The entries of the map, in the order the loop meets them. *)
Definition BatchUpdateSortOrder (updates : list (text * Z)) : DB unit := Transaction (for_each (λ u,
  execute (λ db, Ok (set_host_groups db
    (updated (of_id u.1) (λ g, with_order g u.2) <$> host_groups db)))) updates).

(** [UserRepository.GetUsersInGroup]: the dates of the rules and the status of the
    user groups are not looked at. *)
Definition GetUsersInGroup (groupID : text) : DB (list User.t) := find (λ db, keep (λ u,
  existsb (λ ugm, text_eqb (UserGroupMember.UserID ugm) (User.ID u) &&
    existsb (λ pr, text_eqb (PermissionRule.UserGroupID pr) (UserGroupMember.UserGroupID ugm) &&
      PermissionRule.Enabled pr &&
      existsb (λ prhg, text_eqb (RuleHostGroup.PermissionRuleID prhg) (PermissionRule.ID pr) &&
                       text_eqb (RuleHostGroup.HostGroupID prhg) groupID) (rule_host_groups db))
      (permission_rules db)) (user_group_members db)) (users db)).
End HostGroupRepository.

(** ** The service of hosts *)

(** [model.DashboardStats] *)
Module DashboardStats.
Record t := { TotalHosts : Z; OnlineHosts : Z; OfflineHosts : Z; RecentLogins : Z }.
End DashboardStats.

Module HostService.
(** The host service takes pages of up to 10000. *)
Definition clamp_hosts (pageSize : Z) : Z := if (pageSize <? 1) || (10000 <? pageSize) then 10 else pageSize.
Definition with_id (h : Host.t) (id : text) : Host.t :=
  {| Host.ID := id; Host.Name := Host.Name h; Host.IP := Host.IP h; Host.Port := Host.Port h;
     Host.Status := Host.Status h; Host.OS := Host.OS h; Host.CPU := Host.CPU h; Host.Memory := Host.Memory h;
     Host.Tags := Host.Tags h; Host.Description := Host.Description h; Host.DeviceType := Host.DeviceType h;
     Host.ConnectionMode := Host.ConnectionMode h; Host.ProxyID := Host.ProxyID h;
     Host.NetworkZone := Host.NetworkZone h; Host.LastLoginTime := Host.LastLoginTime h;
     Host.LoginCount := Host.LoginCount h |}.
Definition CreateHost (host : Host.t) (newID : text) : DB unit := HostRepository.Create (with_id host newID).

(** A field that is left out stays as it is. *)
Definition or_old (new old : text) : text := if negb (is_empty new) then new else old.
Definition merged (existing host : Host.t) : Host.t :=
  {| Host.ID := Host.ID existing;
     Host.Name := or_old (Host.Name host) (Host.Name existing);
     Host.IP := or_old (Host.IP host) (Host.IP existing);
     Host.Port := if negb (Host.Port host =? 0) then Host.Port host else Host.Port existing;
     Host.Status := or_old (Host.Status host) (Host.Status existing);
     Host.OS := or_old (Host.OS host) (Host.OS existing);
     Host.CPU := or_old (Host.CPU host) (Host.CPU existing);
     Host.Memory := or_old (Host.Memory host) (Host.Memory existing);
     Host.Tags := or_old (Host.Tags host) (Host.Tags existing);
     Host.Description := or_old (Host.Description host) (Host.Description existing);
     Host.DeviceType := or_old (Host.DeviceType host) (Host.DeviceType existing);
     Host.ConnectionMode := or_old (Host.ConnectionMode host) (Host.ConnectionMode existing);
     Host.ProxyID := or_old (Host.ProxyID host) (Host.ProxyID existing);
     Host.NetworkZone := or_old (Host.NetworkZone host) (Host.NetworkZone existing);
     Host.LastLoginTime := Host.LastLoginTime existing; Host.LoginCount := Host.LoginCount existing |}.
Definition UpdateHost (id : text) (host : Host.t) : DB unit :=
  existing ← FindHostByID id;
  HostRepository.Update (merged existing host).
Definition DeleteHost (id : text) : DB unit := HostRepository.Delete id.
Definition GetHost (id : text) : DB Host.t := FindHostByID id.

(** Whatever the error of the lookup, the address counts as free. *)
Definition CheckIPDuplicate {E} (ip excludeID : text) : Eff E (option text) :=
  existingHost ← attempt (HostRepository.FindByIP ip);
  mret (match existingHost with
        | Some h => if negb (text_eqb (Host.ID h) excludeID)
                    then Some (txt "IP地址 " ++ ip ++ txt " 已被主机 '" ++ Host.Name h ++ txt "' 使用，请使用其他IP地址")
                    else None
        | None => None
        end).

Definition RecordLogin (now : Z) (id : text) : DB unit := IncrementLoginCount id ;; UpdateLastLoginTime now id.

Definition TestConnection (id : text) : bool * text :=
  (false, txt "请使用 TestConnectionWithSystemUser 方法，并提供系统用户ID进行连接测试").
Definition TestConnectionWithSystemUser (hostID systemUserID : text) : DB (bool * text) :=
  host ← attempt (FindHostByID hostID);
  mret (false, match host with
               | None => txt "主机不存在"
               | Some _ => txt "测试连接功能需要在handler层实现，请使用完整的系统用户认证信息"
               end).

Definition stats_of (c : Z * Z * Z) : DashboardStats.t :=
  {| DashboardStats.TotalHosts := c.1.1; DashboardStats.OnlineHosts := c.1.2;
     DashboardStats.OfflineHosts := c.2; DashboardStats.RecentLogins := 0 |}.
Definition GetDashboardStats : DB DashboardStats.t := c ← HostRepository.CountByStatus; mret (stats_of c).

Section queries.
Context (like : text → text → bool) (JSON_EXTRACT : text → result db_error (list text)).
Definition ListHosts (page pageSize : Z) := HostRepository.FindAll like (clamp_page page) (clamp_hosts pageSize).
Definition ListHostsByUser (page pageSize : Z) := HostRepository.FindByUser like (clamp_page page) (clamp_hosts pageSize).
Definition ListHostsByPermissions (now page pageSize : Z) :=
  HostRepository.FindByUserPermissions like JSON_EXTRACT now (clamp_page page) (clamp_hosts pageSize).
Definition GetHostsWithUserLoginCount (page pageSize : Z) :=
  HostRepository.GetHostsWithUserLoginCount like (clamp_page page) (clamp_hosts pageSize).
Definition GetUserDashboardStats (now : Z) (userID : text) : DB DashboardStats.t :=
  c ← HostRepository.CountByStatusForUser JSON_EXTRACT now userID; mret (stats_of c).
Definition GetUserFrequentHosts (now : Z) (userID : text) (limit : Z) : DB (list Host.t) :=
  HostRepository.GetUserFrequentHosts JSON_EXTRACT now userID (if limit <? 1 then 5 else limit).
End queries.
End HostService.

(** ** The hosts a user visits most *)

Definition visits (h : Host.t) : Z := Host.LoginCount h.
Definition busier (a b : Host.t) : Prop := visits b <= visits a.

Lemma scan_spec x l m r : HostRepository.scan x l = (m, r) →
  m :: r ≡ₚ x :: l ∧ Forall (busier m) (x :: l).
Proof.
  revert x m r. induction l as [|y l IH]; intros x m r; simpl.
  - intros [= <- <-]. split; [done|]. constructor; [unfold busier; lia|constructor].
  - destruct (Z.ltb_spec (Host.LoginCount x) (Host.LoginCount y)) as [Hlt|Hge].
    + destruct (HostRepository.scan y l) as [m' r'] eqn:E. intros [= <- <-].
      destruct (IH _ _ _ E) as [HP HF]. split.
      * rewrite (perm_swap x m' r'). by rewrite HP.
      * constructor; [|done]. apply Forall_cons in HF as [Hy _]. unfold busier, visits in *. lia.
    + destruct (HostRepository.scan x l) as [m' r'] eqn:E. intros [= <- <-].
      destruct (IH _ _ _ E) as [HP HF]. apply Forall_cons in HF as [Hx HF]. split.
      * rewrite (perm_swap y m' r'), HP. apply perm_swap.
      * repeat constructor; [done| |done]. unfold busier, visits in *. lia.
Qed.

(** The exchange of the source sorts. *)
Lemma exchange_sort_spec n l : (length l ≤ n)%nat →
  HostRepository.exchange_sort n l ≡ₚ l ∧ StronglySorted busier (HostRepository.exchange_sort n l).
Proof.
  revert l. induction n as [|n IH]; intros [|x l] Hn; simpl in *; try lia; try (split; [done|apply SSorted_nil]).
  destruct (HostRepository.scan x l) as [m r] eqn:E. apply scan_spec in E as [HP HF].
  assert (length r ≤ n)%nat as Hr.
  { apply Permutation_length in HP. simpl in HP. lia. }
  destruct (IH r Hr) as [HP' HS]. split; [by rewrite HP'|]. constructor; [done|].
  rewrite HP'. rewrite <- HP in HF. by apply Forall_cons in HF as [_ ?].
Qed.

#[global] Instance more_logins_trans : Transitive HostRepository.more_logins.
Proof. intros x y z. unfold HostRepository.more_logins. lia. Qed.
#[global] Instance more_logins_total : Total HostRepository.more_logins.
Proof. intros x y. unfold HostRepository.more_logins. lia. Qed.

(** The statistics: a row for each host the user has logged in to. *)
Lemma login_stats_elem db uid ids s : s ∈ HostRepository.login_stats db uid ids ↔
  s = HostRepository.stat_of db uid (LoginStat.HostID s) ∧ LoginStat.HostID s ∈ ids ∧
  HostRepository.logins db uid (LoginStat.HostID s) ≠ [].
Proof.
  unfold HostRepository.login_stats. rewrite (merge_sort_Permutation HostRepository.more_logins), list_elem_of_fmap.
  assert (∀ hid, hid ∈ remove_dups (LoginRecord.HostID <$> keep (λ r, HostRepository.of_user uid r &&
    is_one_of ids (LoginRecord.HostID r)) (login_records (aux db))) ↔
    hid ∈ ids ∧ HostRepository.logins db uid hid ≠ []) as Hh.
  { intros hid. rewrite elem_of_remove_dups, list_elem_of_fmap. split.
    - intros (r & -> & [Hr [Hu Hi]%andb_prop]%elem_of_keep). split.
      + apply existsb_elem in Hi as (i & Hi & ->%text_eqb_true). done.
      + intros E. assert (r ∈ HostRepository.logins db uid (LoginRecord.HostID r)) as Hin.
        { apply elem_of_keep. split; [done|]. rewrite Hu. apply text_eqb_refl. }
        rewrite E in Hin. by apply elem_of_nil in Hin.
    - intros [Hi Hne]. destruct (HostRepository.logins db uid hid) as [|r l] eqn:E; [done|].
      apply keep_head in E as [Hr [Hu Hh%text_eqb_true]%andb_prop]. exists r. split; [done|].
      apply elem_of_keep. split; [done|]. rewrite Hu. apply existsb_elem. exists hid. split; [done|].
      rewrite Hh. apply text_eqb_refl. }
  split.
  - intros (hid & -> & [H1 H2]%Hh). done.
  - intros (E & H1 & H2). exists (LoginStat.HostID s). split; [done|]. by apply Hh.
Qed.

Lemma with_stat_id stats h : Host.ID (HostRepository.with_stat stats h) = Host.ID h.
Proof. unfold HostRepository.with_stat. by destruct (keep _ stats). Qed.

Lemma with_stat_visits db uid ids n h :
  let stats := HostRepository.limited n (HostRepository.login_stats db uid ids) in
  Host.ID h ∈ LoginStat.HostID <$> stats →
  visits (HostRepository.with_stat stats h) = Z.of_nat (length (HostRepository.logins db uid (Host.ID h))).
Proof.
  intros stats (s & Hs & Hin)%list_elem_of_fmap. unfold HostRepository.with_stat.
  destruct (keep _ stats) as [|s' l] eqn:E.
  - assert (s ∈ keep (λ s, text_eqb (LoginStat.HostID s) (Host.ID h)) stats) as Hk.
    { apply elem_of_keep. split; [done|]. rewrite Hs. apply text_eqb_refl. }
    rewrite E in Hk. by apply elem_of_nil in Hk.
  - apply keep_head in E as [Hs' E%text_eqb_true]. unfold visits, Host.set_logins. cbn [Host.LoginCount].
    apply elem_of_take in Hs' as (i & Hi & _). apply list_elem_of_lookup_2, login_stats_elem in Hi as (-> & _).
    cbn [LoginStat.LoginCount HostRepository.stat_of LoginStat.HostID]. by rewrite E.
Qed.

Lemma with_stats_ids stats (l : list Host.t) : Host.ID <$> (HostRepository.with_stat stats <$> l) = Host.ID <$> l.
Proof. rewrite <- list_fmap_compose. apply list_fmap_ext. intros i x _. apply with_stat_id. Qed.

(** No more rows are found than there are distinct keys to look for. *)
Lemma among_length ids hs : NoDup (Host.ID <$> hs) →
  (length (keep (HostRepository.among ids) hs) ≤ length ids)%nat.
Proof.
  intros HN. rewrite <- (length_fmap Host.ID). apply submseteq_length, NoDup_submseteq; [by apply NoDup_keep|].
  intros i (h & -> & [_ Hin]%elem_of_keep)%list_elem_of_fmap.
  by apply existsb_elem in Hin as (j & Hj & ->%text_eqb_true).
Qed.

Lemma limited_elem {A} n (l : list A) x : x ∈ HostRepository.limited n l → x ∈ l.
Proof. intros (i & Hi & _)%elem_of_take. by apply list_elem_of_lookup_2 in Hi. Qed.

Section frequent.
Context (JSON_EXTRACT : text → result db_error (list text)).

(** What the lookup returns when the user has logged in to a host. *)
Definition frequent (db : Db) (uid : text) (ids : list text) (n : Z) : list Host.t :=
  let stats := HostRepository.limited n (HostRepository.login_stats db uid ids) in
  let found := keep (HostRepository.among (LoginStat.HostID <$> stats)) (hosts db) in
  HostRepository.exchange_sort (length found) (HostRepository.with_stat stats <$> found).

Lemma frequent_run now uid limit db ids r :
  GetAccessibleHostIDsForUser JSON_EXTRACT now uid db [] = (Ok ids, db, []) →
  r ∈ login_records (aux db) → LoginRecord.UserID r = uid → LoginRecord.HostID r ∈ ids → 0 < limit →
  HostRepository.GetUserFrequentHosts JSON_EXTRACT now uid limit db [] = (Ok (frequent db uid ids limit), db, []).
Proof.
  intros Ha Hr Hu Hi Hn. unfold HostRepository.GetUserFrequentHosts. rewrite bind_run, Ha.
  assert (is_empty ids = false) as -> by (by destruct ids; [apply elem_of_nil in Hi|]).
  rewrite bind_run. unfold find, query. cbn [list.tail].
  assert (HostRepository.stat_of db uid (LoginRecord.HostID r) ∈ HostRepository.login_stats db uid ids) as Hin.
  { apply login_stats_elem. split; [done|]. split; [done|]. cbn [LoginStat.HostID HostRepository.stat_of].
    intros E. assert (r ∈ HostRepository.logins db uid (LoginRecord.HostID r)) as H'.
    { apply elem_of_keep. split; [done|]. unfold HostRepository.of_user, HostRepository.on_host.
      by rewrite Hu, !text_eqb_refl. }
    rewrite E in H'. by apply elem_of_nil in H'. }
  assert (is_empty (HostRepository.limited limit (HostRepository.login_stats db uid ids)) = false) as ->.
  { unfold HostRepository.limited. destruct (HostRepository.login_stats db uid ids) as [|a l];
      [by apply elem_of_nil in Hin|]. replace (Z.to_nat limit) with (S (Z.to_nat limit - 1)) by lia. done. }
  done.
Qed.

(** The hosts that come back, before they are sorted. *)
Lemma frequent_elem db uid ids n h : h ∈ frequent db uid ids n →
  ∃ s, s ∈ HostRepository.limited n (HostRepository.login_stats db uid ids) ∧ LoginStat.HostID s = Host.ID h ∧
       Host.ID h ∈ ids ∧ Host.ID h ∈ Host.ID <$> hosts db ∧
       visits h = Z.of_nat (length (HostRepository.logins db uid (Host.ID h))).
Proof.
  unfold frequent. set (stats := HostRepository.limited _ _). set (found := keep _ _).
  destruct (exchange_sort_spec (length found) (HostRepository.with_stat stats <$> found)) as [HP _];
    [by rewrite length_fmap|]. rewrite HP.
  intros (h1 & -> & [Hh1 Hin]%elem_of_keep)%list_elem_of_fmap. rewrite with_stat_id.
  apply existsb_elem in Hin as (i & Hi%list_elem_of_fmap & E%text_eqb_true). destruct Hi as (s & -> & Hs).
  exists s. split; [done|]. split; [done|].
  pose proof (limited_elem _ _ _ Hs) as (_ & Hids & _)%login_stats_elem. rewrite E. split; [done|].
  split; [rewrite <- E; apply list_elem_of_fmap; eauto|]. rewrite <- E. apply with_stat_visits. rewrite E.
  apply list_elem_of_fmap. by exists s.
Qed.

Lemma frequent_ranked db uid ids n : NoDup (Host.ID <$> hosts db) → 0 < n →
  let logins hid := Z.of_nat (length (HostRepository.logins db uid hid)) in
  let l := frequent db uid ids n in
  StronglySorted busier l ∧ Z.of_nat (length l) <= n ∧
  (∀ h, h ∈ l → Host.ID h ∈ ids ∧ Host.ID h ∈ Host.ID <$> hosts db ∧ visits h = logins (Host.ID h)) ∧
  (∀ h0, h0 ∈ hosts db → Host.ID h0 ∈ ids → logins (Host.ID h0) ≠ 0 →
     Host.ID h0 ∈ Host.ID <$> l ∨ ∀ h, h ∈ l → logins (Host.ID h0) <= visits h).
Proof.
  intros HN Hn logins l.
  set (all := HostRepository.login_stats db uid ids). set (stats := HostRepository.limited n all).
  set (found := keep (HostRepository.among (LoginStat.HostID <$> stats)) (hosts db)).
  destruct (exchange_sort_spec (length found) (HostRepository.with_stat stats <$> found)) as [HP HS];
    [by rewrite length_fmap|].
  split; [exact HS|]. split; [|split].
  - unfold l, frequent. fold all stats found. rewrite HP, length_fmap.
    pose proof (among_length (LoginStat.HostID <$> stats) (hosts db) HN) as Hle. fold found in Hle.
    rewrite length_fmap in Hle. unfold stats, HostRepository.limited in Hle. rewrite length_take in Hle. lia.
  - intros h (s & _ & _ & H1 & H2 & H3)%frequent_elem. done.
  - intros h0 Hh0 Hi0 Hne. set (s0 := HostRepository.stat_of db uid (Host.ID h0)).
    assert (s0 ∈ all) as Hs0.
    { apply login_stats_elem. split; [done|]. split; [done|]. intros E. apply Hne. unfold logins.
      cbn [s0 LoginStat.HostID HostRepository.stat_of] in E. by rewrite E. }
    rewrite <- (take_drop (Z.to_nat n) all) in Hs0. apply elem_of_app in Hs0 as [Hs0|Hs0].
    + left. unfold l, frequent. fold all stats found. rewrite HP, with_stats_ids. apply list_elem_of_fmap.
      exists h0. split; [done|]. apply elem_of_keep. split; [done|]. apply existsb_elem. exists (Host.ID h0).
      split; [|apply text_eqb_refl]. apply list_elem_of_fmap. by exists s0.
    + right. intros h (s & Hs & Es & _ & _ & Hv)%frequent_elem. fold all in Hs.
      assert (HostRepository.more_logins s s0) as Hm.
      { apply (StronglySorted_app_1_elem_of HostRepository.more_logins (take (Z.to_nat n) all) (drop (Z.to_nat n) all));
          [|done..]. rewrite take_drop. apply StronglySorted_merge_sort; apply _. }
      apply limited_elem, login_stats_elem in Hs as (Es' & _).
      unfold HostRepository.more_logins in Hm. rewrite Es', Es in Hm. rewrite Hv. exact Hm.
Qed.

Lemma keep_sublist {A} (p : A → bool) l : keep p l `sublist_of` l.
Proof.
  induction l as [|x l IH]; [constructor|]. cbn [keep].
  destruct (p x); [by apply sublist_skip|by apply sublist_cons].
Qed.

(** Without a login to one of the hosts. *)
Lemma infrequent_run now uid limit db ids :
  GetAccessibleHostIDsForUser JSON_EXTRACT now uid db [] = (Ok ids, db, []) →
  (∀ r, r ∈ login_records (aux db) → LoginRecord.UserID r = uid → LoginRecord.HostID r ∉ ids) →
  HostRepository.GetUserFrequentHosts JSON_EXTRACT now uid limit db [] =
    (Ok (HostRepository.limited limit (newest_first (keep (HostRepository.among ids) (hosts db)))), db, []).
Proof.
  intros Ha Hno. unfold HostRepository.GetUserFrequentHosts. rewrite bind_run, Ha.
  destruct ids as [|i ids]; cbn [is_empty].
  - rewrite keep_none by done. unfold HostRepository.limited, newest_first. cbn [rev]. by rewrite take_nil.
  - rewrite bind_run. unfold find, query. cbn [list.tail].
    assert (HostRepository.login_stats db uid (i :: ids) = []) as ->.
    { destruct (HostRepository.login_stats db uid (i :: ids)) as [|s l] eqn:E; [done|].
      assert (s ∈ HostRepository.login_stats db uid (i :: ids)) as Hs by (rewrite E; left).
      apply login_stats_elem in Hs as (_ & Hi & Hne).
      destruct (HostRepository.logins db uid (LoginStat.HostID s)) as [|r rs] eqn:Er; [done|].
      assert (r ∈ HostRepository.logins db uid (LoginStat.HostID s)) as Hr by (rewrite Er; left).
      apply elem_of_keep in Hr as [Hr [Hu%text_eqb_true Hh%text_eqb_true]%andb_prop].
      destruct (Hno r Hr Hu). by rewrite Hh. }
    assert (HostRepository.limited limit (@nil LoginStat.t) = []) as -> by apply take_nil. reflexivity.
Qed.

End frequent.

(** ** Moving hosts between groups *)

Definition grouped (db : Db) (gid hid : text) : Prop :=
  ∃ m, m ∈ host_group_members db ∧ HostGroupMember.GroupID m = gid ∧ HostGroupMember.HostID m = hid.

Lemma members_elem m id gid by_ ids : m ∈ HostGroupRepository.members id gid by_ ids →
  HostGroupMember.GroupID m = gid ∧ HostGroupMember.HostID m ∈ ids.
Proof.
  revert id. induction ids as [|i ids IH]; intros id; simpl; [by intros ?%elem_of_nil|].
  intros [->|Hm]%elem_of_cons; [by split; [|left]|]. destruct (IH _ Hm) as [? ?]. split; [done|by right].
Qed.

Lemma elem_members i id gid by_ ids : i ∈ ids →
  ∃ m, m ∈ HostGroupRepository.members id gid by_ ids ∧ HostGroupMember.GroupID m = gid ∧ HostGroupMember.HostID m = i.
Proof.
  revert id. induction ids as [|j ids IH]; intros id; [by intros ?%elem_of_nil|].
  intros [->|Hi]%elem_of_cons; simpl.
  - eexists. split; [left|done].
  - destruct (IH (id + 1) Hi) as (m & Hm & ?). exists m. split; [by right|done].
Qed.

(** What the two statements on members do to the membership. *)
Lemma added_spec db gid by_ ids db' : 
  (if is_empty ids then Err DBFailure
   else Ok (set_host_members db (host_group_members db ++ HostGroupRepository.members
              (next_id HostGroupMember.ID (host_group_members db)) gid by_ ids))) = Ok db' →
  ids ≠ [] ∧ db' = set_host_members db (host_group_members db') ∧
  ∀ g h, grouped db' g h ↔ grouped db g h ∨ g = gid ∧ h ∈ ids.
Proof.
  destruct (is_empty ids) eqn:Ee; [done|]. intros [= <-]. split; [by destruct ids|]. split; [done|]. intros g h.
  unfold grouped. cbn [host_group_members set_host_members]. setoid_rewrite elem_of_app. split.
  - intros (m & [Hm|Hm] & <- & <-); [left; eauto|]. right. by apply members_elem in Hm.
  - intros [(m & Hm & E)|[-> Hh] ]; [exists m; split; [by left|done]|].
    destruct (elem_members h (next_id HostGroupMember.ID (host_group_members db)) gid by_ _ Hh) as (m & Hm & E).
    exists m. split; [by right|done].
Qed.

Lemma removed_spec db gid ids g h :
  grouped (set_host_members db (keep (λ m, negb (HostGroupRepository.in_group gid m &&
    is_one_of ids (HostGroupMember.HostID m))) (host_group_members db))) g h ↔
  grouped db g h ∧ ¬ (g = gid ∧ h ∈ ids).
Proof.
  unfold grouped. cbn [host_group_members set_host_members]. split.
  - intros (m & [Hm Hn%negb_true_iff]%elem_of_keep & <- & <-). split; [eauto|]. intros [E Hi].
    apply andb_false_iff in Hn as [Hn|Hn].
    + unfold HostGroupRepository.in_group in Hn. by rewrite E, text_eqb_refl in Hn.
    + pose proof (proj1 (existsb_none _ _) Hn _ Hi) as H'. by rewrite text_eqb_refl in H'.
  - intros [(m & Hm & <- & <-) Hn]. exists m. split; [|done]. apply elem_of_keep. split; [done|].
    apply negb_true_iff, not_true_iff_false. intros [E%text_eqb_true Hi]%andb_prop. apply Hn. split; [done|].
    apply existsb_elem in Hi as (i & Hi & ->%text_eqb_true). done.
Qed.

(** Hosts move between groups entirely or not at all, whichever statement
    fails: afterwards the hosts named are in the group they were moved to and not
    in the one they came from, unless it is the same, and every other membership
    is as before; with an error, or without a host, no table has changed. *)
Theorem hosts_move_together from to ids by_ db f r db' f' :
  HostGroupRepository.MoveHostsBetweenGroups from to ids by_ db f = (r, db', f') →
  match r with
  | Ok _ => ids ≠ [] ∧ ∀ g h, grouped db' g h ↔ (grouped db g h ∧ ¬ (g = from ∧ h ∈ ids)) ∨ (g = to ∧ h ∈ ids)
  | Err _ => db' = db
  end.
Proof.
  unfold HostGroupRepository.MoveHostsBetweenGroups. intros Hr. destruct r as [[]|e].
  - apply Transaction_Ok, execute_bind in Hr as (db1 & f1 & [= <-] & Hr).
    apply execute_Ok in Hr. apply added_spec in Hr as (Hne & _ & Hg). split; [done|]. intros g h.
    by rewrite Hg, removed_spec.
  - unfold Transaction in Hr.
    match type of Hr with (let (_, _) := ?x in _) = _ => destruct x as [ [ [[]|e'] ?] ?] end; [done|]. by injection Hr as _ <- _.
Qed.

(** ** Examples *)

(** The user of the sample tables may use three hosts, and has logged in to two. *)
Definition login_on (id hostID : string) (time : Z) : LoginRecord.t :=
  {| LoginRecord.ID := txt id; LoginRecord.UserID := txt "u1"; LoginRecord.HostID := txt hostID;
     LoginRecord.HostName := []; LoginRecord.HostIP := []; LoginRecord.Username := txt "bob";
     LoginRecord.LoginIP := []; LoginRecord.LoginTime := time; LoginRecord.LogoutTime := None;
     LoginRecord.Duration := None; LoginRecord.Status := txt "failed"; LoginRecord.SessionID := txt id |}.
Definition named (id ip : string) : Host.t :=
  {| Host.ID := txt id; Host.Name := txt id; Host.IP := txt ip; Host.Port := 22; Host.Status := online;
     Host.OS := []; Host.CPU := []; Host.Memory := []; Host.Tags := []; Host.Description := [];
     Host.DeviceType := txt "linux"; Host.ConnectionMode := txt "auto"; Host.ProxyID := [];
     Host.NetworkZone := []; Host.LastLoginTime := None; Host.LoginCount := 0 |}.
Definition three_hosts : Db :=
  let db := sample_db active active in
  set_login_records (set_host_members (set_hosts db [named "h1" "10.0.0.1"; named "h2" "10.0.0.2"; named "h3" "10.0.0.3"])
    (host_group_members db ++ HostGroupRepository.members 2 (txt "hg1") [] [txt "h2"; txt "h3"]))
    [login_on "l1" "h1" 10; login_on "l2" "h2" 20; login_on "l3" "h2" 30].
Definition no_ids (_ : text) : result db_error (list text) := Ok [].


Lemma hosts_move_together_witness :
  let db' := after (HostGroupRepository.MoveHostsBetweenGroups (txt "hg1") (txt "hg2") [txt "h2"] [] three_hosts []) in
  grouped db' (txt "hg2") (txt "h2") ∧ ¬ grouped db' (txt "hg1") (txt "h2").
Proof.
  intros db'.
  assert (HostGroupRepository.MoveHostsBetweenGroups (txt "hg1") (txt "hg2") [txt "h2"] [] three_hosts [] =
          (Ok (), db', [])) as E by (vm_compute; reflexivity).
  apply hosts_move_together in E as [_ Hg]. split.
  - apply Hg. right. split; [reflexivity|left].
  - intros [[_ Hn]|[Ht _]]%Hg; [apply Hn; split; [reflexivity|left]|by apply text_eqb_true in Ht].
Defined.

(** A host that is deleted stays in its groups, where it counts as offline. *)
Example deleted_host_counts_offline :
  let db := after (HostService.DeleteHost (txt "h3") (after (HostGroupRepository.Create
    {| HostGroup.ID := txt "hg1"; HostGroup.Name := []; HostGroup.Description := []; HostGroup.Color := [];
       HostGroup.Icon := []; HostGroup.SortOrder := 0; HostGroup.CreatedBy := []; HostGroup.HostCount := 0;
       HostGroup.OnlineCount := 0 |} three_hosts [])) []) in
  match res (HostGroupRepository.GetGroupStatistics (txt "hg1") db []) with
  | Ok s => HostGroupRepository.TotalHosts s = 3 ∧ HostGroupRepository.OfflineHosts s = 1
  | Err _ => False
  end.
Proof. vm_compute. done. Qed.
