(* ===== verification/HostsApi.v ===== *)
(** * The API of hosts and host groups

    [host_handler.go] and [host_group_handler.go] of [internal/api/handler], served
    through the routes: no route of them asks for an administrator.  A request is
    its decoded body and query; [None] is one that gin could not decode, and
    numbers are what [strconv.Atoi] returned, whatever its error. *)

From stdpp Require Import base list strings sorting.
From Stdlib Require Import ZArith Lia.
From S2P Require Import Prelude GoStrings Gorm Models Database Repositories Permissions Accounts Auth TwoFactor Routes Selector AuthApi Serving AccessApi Hosts.
Local Open Scope Z_scope.

(** The third-party parts the handlers use. *)
Record library := {
  like : text → text → bool;
  JSON_EXTRACT : text → result db_error (list text);
  JSON_CONTAINS : text → text → bool;
  err_text : db_error → text }.

Section handlers.
Context (lib : library).

(** [model.Error(status, err.Error())] *)
Definition or_status {A} (status : Z) (m : DB A) : Http A := or_fail (λ e, (status, err_text lib e)) m.
Definition undecoded {A} : Http A := raise (400, txt "Invalid request body").

(** ** The handlers of hosts *)

Definition check_ip (ip id : text) : Http unit :=
  r ← HostService.CheckIPDuplicate ip id;
  match r with Some message => raise (400, message) | None => mret () end.
Definition valid_device (host : Host.t) : Http Host.t :=
  match Host.ValidateDeviceType host with Ok host => mret host | Err message => raise (400, message) end.

Definition CreateHost (host : option Host.t) (newID : text) : Http Host.t :=
  match host with
  | None => undecoded
  | Some host =>
      _ ← check_ip (Host.IP host) [];
      host ← valid_device host;
      _ ← or_status 500 (HostService.CreateHost host newID);
      mret (HostRepository.stored (HostService.with_id host newID))
  end.
Definition UpdateHost (id : text) (host : option Host.t) : Http unit :=
  match host with
  | None => undecoded
  | Some host =>
      _ ← (if negb (is_empty (Host.IP host)) then check_ip (Host.IP host) id else mret ());
      host ← (if negb (is_empty (Host.DeviceType host)) then valid_device host else mret host);
      or_status 500 (HostService.UpdateHost id host)
  end.
Definition DeleteHost (id : text) : Http unit := or_status 500 (HostService.DeleteHost id).
Definition GetHost (id : text) : Http Host.t := answering 404 "主机不存在" (HostService.GetHost id).

(** An administrator sees every host; an assertion on a missing user panics, and
    the middleware of gin answers 500. *)
Definition ListHosts (caller : option Claims.t) (now page pageSize : Z) (search : text) (tags : list text)
    : Http (list Host.t * Z) :=
  match caller with
  | None => raise (500, [])
  | Some c =>
      or_status 500
        (if text_eqb (Claims.Role c) admin
         then HostService.ListHosts (like lib) page pageSize search tags
         else HostService.ListHostsByPermissions (like lib) (JSON_EXTRACT lib) now page pageSize search tags
                (Claims.UserID c))
  end.
Definition TestConnection (id systemUserID : text) : Http (bool * text) :=
  if is_empty systemUserID then raise (400, txt "需要提供系统用户ID (systemUserId) 进行连接测试")
  else mret (false, txt "测试连接功能需要配合系统用户实现。Host ID: " ++ id ++ txt ", System User ID: " ++ systemUserID).

(** ** The handlers of host groups *)

Definition ListGroups (stats : text) : Http (list HostGroup.t) :=
  answering 500 "Failed to list groups"
    (if text_eqb stats (txt "true") then FindAllWithStats else HostGroupRepository.FindAll).
(** The error of the statistics is ignored. *)
Definition GetGroup (groupID : text) : Http HostGroup.t :=
  group ← answering 404 "Group not found" (HostGroupRepository.FindByID groupID);
  stats ← attempt (HostGroupRepository.GetGroupStatistics groupID);
  mret (match stats with
        | Some s => set_counts group (HostGroupRepository.TotalHosts s) (HostGroupRepository.OnlineHosts s)
        | None => group
        end).
Definition created_by (g : HostGroup.t) (id userID : text) : HostGroup.t :=
  {| HostGroup.ID := id; HostGroup.Name := HostGroup.Name g; HostGroup.Description := HostGroup.Description g;
     HostGroup.Color := HostGroup.Color g; HostGroup.Icon := HostGroup.Icon g;
     HostGroup.SortOrder := HostGroup.SortOrder g; HostGroup.CreatedBy := userID;
     HostGroup.HostCount := HostGroup.HostCount g; HostGroup.OnlineCount := HostGroup.OnlineCount g |}.
Definition CreateGroup (caller : option Claims.t) (group : option HostGroup.t) (newID : text) : Http HostGroup.t :=
  match group with
  | None => undecoded
  | Some group =>
      let group := created_by group newID (match caller with Some c => Claims.UserID c
                                                           | None => HostGroup.CreatedBy group end) in
      _ ← answering 500 "Failed to create group" (HostGroupRepository.Create group);
      mret group
  end.
Definition group_update (existing updates : HostGroup.t) : HostGroup.t :=
  {| HostGroup.ID := HostGroup.ID existing; HostGroup.Name := HostGroup.Name updates;
     HostGroup.Description := HostGroup.Description updates; HostGroup.Color := HostGroup.Color updates;
     HostGroup.Icon := HostGroup.Icon updates; HostGroup.SortOrder := HostGroup.SortOrder updates;
     HostGroup.CreatedBy := HostGroup.CreatedBy existing; HostGroup.HostCount := HostGroup.HostCount existing;
     HostGroup.OnlineCount := HostGroup.OnlineCount existing |}.
Definition UpdateGroup (groupID : text) (updates : option HostGroup.t) : Http HostGroup.t :=
  match updates with
  | None => undecoded
  | Some updates =>
      existingGroup ← answering 404 "Group not found" (HostGroupRepository.FindByID groupID);
      let existingGroup := group_update existingGroup updates in
      _ ← answering 500 "Failed to update group" (HostGroupRepository.Update existingGroup);
      mret existingGroup
  end.
Definition DeleteGroup (groupID : text) : Http unit :=
  answering 500 "Failed to delete group" (HostGroupRepository.Delete groupID).

(** [hosts[start:end]], which panics when the bounds are out of order. *)
Definition slice {A} (l : list A) (first last : Z) : option (list A) :=
  if (0 <=? first) && (first <=? last) && (last <=? Z.of_nat (length l))
  then Some (take (Z.to_nat (last - first)) (drop (Z.to_nat first) l)) else None.
(** The page of a search, cut by hand with arithmetic that may overflow. *)
Definition search_page {A} (hosts : list A) (page pageSize : Z) : option (list A) :=
  let start := wrap64 ((page - 1) * pageSize) in
  let end_ := wrap64 (start + pageSize) in
  let n := Z.of_nat (length hosts) in
  if start <? n then slice hosts start (if n <? end_ then n else end_) else Some [].
Definition number_or (d : Z) (s : text) : Z :=
  match atoi s with Some n => if 0 <? n then n else d | None => d end.
Definition GetGroupHosts (groupID page pageSize search : text) : Http (list Host.t * Z * Z * Z) :=
  let page := number_or 1 page in
  let pageSize := number_or 20 pageSize in
  if negb (is_empty search) then
    found ← caught (HostGroupRepository.SearchHostsInGroup (like lib) groupID search);
    let hosts := match found with Ok hosts => hosts | Err _ => [] end in
    match search_page hosts page pageSize with
    | Some rows => if is_ok found then mret (rows, Z.of_nat (length hosts), page, pageSize)
                   else raise (500, txt "Failed to get hosts")
    | None => raise (500, [])
    end
  else
    r ← answering 500 "Failed to get hosts" (GetHostsByGroupIDWithPagination groupID page pageSize);
    mret (r.1, r.2, page, pageSize).

Definition AddHostsToGroup (caller : option Claims.t) (groupID : text) (hostIDs : option (list text)) : Http unit :=
  match hostIDs with
  | None => undecoded
  | Some hostIDs => answering 500 "Failed to add hosts to group" (HostGroupRepository.AddHostsToGroup groupID hostIDs
      (match caller with Some c => Claims.UserID c | None => txt "system" end))
  end.
Definition RemoveHostsFromGroup (groupID : text) (hostIDs : option (list text)) : Http unit :=
  match hostIDs with
  | None => undecoded
  | Some hostIDs => answering 500 "Failed to remove hosts from group"
                      (HostGroupRepository.RemoveHostsFromGroup groupID hostIDs)
  end.
Definition GetHostGroups (hostID : text) : Http (list HostGroup.t) :=
  answering 500 "Failed to get groups" (HostGroupRepository.GetGroupsByHostID hostID).
Definition GetGroupStatistics (groupID : text) : Http HostGroupRepository.statistics :=
  answering 500 "Failed to get statistics" (HostGroupRepository.GetGroupStatistics groupID).
Definition GetGroupUsers (groupID : text) : Http (list User.t) :=
  answering 500 "Failed to get users" (HostGroupRepository.GetUsersInGroup groupID).
End handlers.

(** ** Requests *)

Inductive call :=
  | c_ListHosts (page pageSize : Z) (search : text) (tags : list text)
  | c_CreateHost (host : option Host.t) (newID : text)
  | c_GetHost (id : text)
  | c_UpdateHost (id : text) (host : option Host.t)
  | c_DeleteHost (id : text)
  | c_TestConnection (id systemUserID : text)
  | c_GetHostGroups (id : text)
  | c_ListGroups (stats : text)
  | c_CreateGroup (group : option HostGroup.t) (newID : text)
  | c_GetGroup (id : text)
  | c_UpdateGroup (id : text) (group : option HostGroup.t)
  | c_DeleteGroup (id : text)
  | c_GetGroupHosts (id page pageSize search : text)
  | c_AddHostsToGroup (id : text) (hostIDs : option (list text))
  | c_RemoveHostsFromGroup (id : text) (hostIDs : option (list text))
  | c_GetGroupStatistics (id : text)
  | c_GetGroupUsers (id : text).

Definition handler_name (c : call) : string :=
  match c with
  | c_ListHosts _ _ _ _ => "hostHandler.ListHosts"
  | c_CreateHost _ _ => "hostHandler.CreateHost"
  | c_GetHost _ => "hostHandler.GetHost"
  | c_UpdateHost _ _ => "hostHandler.UpdateHost"
  | c_DeleteHost _ => "hostHandler.DeleteHost"
  | c_TestConnection _ _ => "hostHandler.TestConnection"
  | c_GetHostGroups _ => "hostGroupHandler.GetHostGroups"
  | c_ListGroups _ => "hostGroupHandler.ListGroups"
  | c_CreateGroup _ _ => "hostGroupHandler.CreateGroup"
  | c_GetGroup _ => "hostGroupHandler.GetGroup"
  | c_UpdateGroup _ _ => "hostGroupHandler.UpdateGroup"
  | c_DeleteGroup _ => "hostGroupHandler.DeleteGroup"
  | c_GetGroupHosts _ _ _ _ => "hostGroupHandler.GetGroupHosts"
  | c_AddHostsToGroup _ _ => "hostGroupHandler.AddHostsToGroup"
  | c_RemoveHostsFromGroup _ _ => "hostGroupHandler.RemoveHostsFromGroup"
  | c_GetGroupStatistics _ => "hostGroupHandler.GetGroupStatistics"
  | c_GetGroupUsers _ => "hostGroupHandler.GetGroupUsers"
  end.

Inductive answer :=
  | Nothing | AHost (h : Host.t) | AHosts (l : list Host.t) (total : Z) | ATest (ok : bool) (message : text)
  | AHostGroup (g : HostGroup.t) | AHostGroups (l : list HostGroup.t)
  | APage (l : list Host.t) (total page pageSize : Z)
  | AStatistics (s : HostGroupRepository.statistics) | AUsers (l : list User.t).

Definition hosts_run (lib : library) (caller : option Claims.t) (now : Z) (c : call) : Http answer :=
  match c with
  | c_ListHosts page size search tags =>
      reply (λ r, AHosts r.1 r.2) (ListHosts lib caller now page size search tags)
  | c_CreateHost h newID => reply AHost (CreateHost lib h newID)
  | c_GetHost id => reply AHost (GetHost id)
  | c_UpdateHost id h => reply (λ _, Nothing) (UpdateHost lib id h)
  | c_DeleteHost id => reply (λ _, Nothing) (DeleteHost lib id)
  | c_TestConnection id su => reply (λ r, ATest r.1 r.2) (TestConnection id su)
  | c_GetHostGroups id => reply AHostGroups (GetHostGroups id)
  | c_ListGroups stats => reply AHostGroups (ListGroups stats)
  | c_CreateGroup g newID => reply AHostGroup (CreateGroup caller g newID)
  | c_GetGroup id => reply AHostGroup (GetGroup id)
  | c_UpdateGroup id g => reply AHostGroup (UpdateGroup id g)
  | c_DeleteGroup id => reply (λ _, Nothing) (DeleteGroup id)
  | c_GetGroupHosts id page size search =>
      reply (λ r, APage r.1.1.1 r.1.1.2 r.1.2 r.2) (GetGroupHosts lib id page size search)
  | c_AddHostsToGroup id ids => reply (λ _, Nothing) (AddHostsToGroup caller id ids)
  | c_RemoveHostsFromGroup id ids => reply (λ _, Nothing) (RemoveHostsFromGroup id ids)
  | c_GetGroupStatistics id => reply AStatistics (GetGroupStatistics id)
  | c_GetGroupUsers id => reply AUsers (GetGroupUsers id)
  end.

Definition hosts_api (lib : library) : Api call answer := {| handler_of := handler_name; run := hosts_run lib |}.

(** ** Who may do what *)

Section facts.
Context `{Crypto} `{Unicode} (lib : library).
Notation serve := (Serving.serve (A := hosts_api lib)).
Notation grants := (Permissions.grants (JSON_CONTAINS lib)).

(** Every handler has a route, behind the middleware of users. *)
Lemma hosts_routed c : handler_name c ∈ handler <$> routes.
Proof.
  apply (bool_decide_eq_true_1 (handler_name c ∈ handler <$> routes)). by destruct c; vm_compute.
Qed.
Lemma hosts_for_users c : access_of (handler_name c) = Users.
Proof. by destruct c; vm_compute. Qed.

Lemma hosts_serve hdr tok now c cl : Auth.AuthMiddleware hdr tok now = Ok cl →
  serve hdr tok now c = hosts_run lib (Some cl) now c.
Proof.
  intros Hm. apply (serve_user (A := hosts_api lib)); [apply hosts_routed|apply hosts_for_users|done].
Qed.

(** ** What a group of hosts gives *)

(** A rule in force for the user, with the account, that covers a group. *)
Definition grants_group (db : Db) (now : Z) (uid gid sid : text) : Prop :=
  ∃ r, r ∈ permission_rules db ∧ rule_has_account db r sid = true ∧ rule_applies db now r uid = true ∧
       ∃ rel, rel ∈ rule_host_groups db ∧ RuleHostGroup.PermissionRuleID rel = PermissionRule.ID r ∧
              RuleHostGroup.HostGroupID rel = gid.

Lemma groups_host_grouped db r hid : rule_groups_host db r hid = true ↔
  ∃ rel, rel ∈ rule_host_groups db ∧ RuleHostGroup.PermissionRuleID rel = PermissionRule.ID r ∧
         grouped db (RuleHostGroup.HostGroupID rel) hid.
Proof.
  rewrite groups_host_spec. split.
  - intros (rel & m & Hrel & E & Hm & E1 & E2). exists rel. split; [done|]. split; [done|]. by exists m.
  - intros (rel & Hrel & E & m & Hm & E1 & E2). exists rel, m. by split_and!.
Qed.

Lemma covers_host db r hid : rule_covers_host (JSON_CONTAINS lib) db r hid = true ↔
  rule_groups_host db r hid = true ∨
  negb (is_empty (PermissionRule.HostIDs r)) && JSON_CONTAINS lib (PermissionRule.HostIDs r) hid = true.
Proof. apply orb_true_iff. Qed.

(** Any user who is signed in extends the access of everyone whose rules
    cover a group of hosts: a request that adds hosts to the group succeeds, and
    from then on the rules grant exactly what they did and, for each host added,
    the accounts they have for the group.  The user may be one of those. *)
Theorem anyone_extends_access hdr tok now cl gid ids db : Auth.AuthMiddleware hdr tok now = Ok cl → ids ≠ [] →
  ∃ db', serve hdr tok now (c_AddHostsToGroup gid (Some ids)) db [] = (Ok Nothing, db', []) ∧
    ∀ at_ u hid sid, grants db' at_ u hid sid ↔
      grants db at_ u hid sid ∨ (hid ∈ ids ∧ grants_group db at_ u gid sid).
Proof.
  intros Hm Hne. rewrite (hosts_serve _ _ _ _ _ Hm).
  set (row := (if is_empty ids then Err DBFailure
    else Ok (set_host_members db (host_group_members db ++ HostGroupRepository.members
           (next_id HostGroupMember.ID (host_group_members db)) gid (Claims.UserID cl) ids)))).
  assert (∃ db', row = Ok db') as (db' & Hrow) by (subst row; destruct ids; [done|eauto]).
  pose proof (added_spec _ _ _ _ _ Hrow) as (_ & Edb & Hg).
  exists db'. split.
  - cbn [hosts_run]. unfold reply, AddHostsToGroup, answering, or_fail, HostGroupRepository.AddHostsToGroup,
      HostGroupRepository.create_members, execute. rewrite bind_run. fold row. by rewrite Hrow.
  - intros at_ u hid sid. unfold Permissions.grants, grants_group.
    setoid_rewrite covers_host. setoid_rewrite groups_host_grouped. setoid_rewrite Hg. rewrite Edb.
    change (permission_rules (set_host_members db (host_group_members db'))) with (permission_rules db).
    change (rule_host_groups (set_host_members db (host_group_members db'))) with (rule_host_groups db).
    split.
    + intros (r & H1 & H2 & H3 & [(rel & H4 & H5 & [Hin|[E Hin] ])|H6]).
      * left. exists r. split_and!; [done..|]. left. by exists rel.
      * right. split; [done|]. exists r. split_and!; [done..|]. by exists rel.
      * left. exists r. split_and!; [done..|by right].
    + intros [(r & H1 & H2 & H3 & [(rel & H4 & H5 & Hin)|H6])|(Hin & r & H1 & H2 & H3 & rel & H4 & H5 & E)];
        exists r; split_and!; try done; [left|by right|left]; exists rel; split_and!; try done; [by left|by right].
Qed.

(** Deleting a host group takes nothing away: the memberships and the rules
    stay, and neither lookup asks for the group. *)
Theorem deleted_host_group_still_grants hdr tok now gid db f a db' f' :
  serve hdr tok now (c_DeleteGroup gid) db f = (Ok a, db', f') →
  ∀ at_ u hid sid, grants db' at_ u hid sid ↔ grants db at_ u hid sid.
Proof.
  intros (caller & Hr)%(served_Ok (A := hosts_api lib)) at_ u hid sid. cbn [run hosts_api hosts_run] in Hr.
  apply reply_Ok in Hr as (x & _ & Hr). apply or_fail_Ok in Hr. destruct x. apply execute_Ok in Hr.
  by injection Hr as <-.
Qed.

(** ** The addresses of the hosts *)

(** The keys and the addresses are distinct, and no key is empty. *)
Record distinct_hosts (db : Db) : Prop := {
  keys_distinct : NoDup (Host.ID <$> hosts db);
  addresses_distinct : NoDup (Host.IP <$> hosts db);
  no_empty_key : [] ∉ Host.ID <$> hosts db }.

Definition same_hosts (db db' : Db) : Prop := hosts db = hosts db'.
#[local] Instance same_hosts_pre : PreOrder same_hosts.
Proof. split; [done|]. intros x y z. unfold same_hosts. congruence. Qed.

Lemma distinct_same db db' : same_hosts db db' → distinct_hosts db → distinct_hosts db'.
Proof. intros E [H1 H2 H3]. by split; rewrite <- E. Qed.

(** The requests that do not write the table of hosts. *)
Definition writes_hosts (c : call) : bool :=
  match c with c_CreateHost _ _ | c_UpdateHost _ _ | c_DeleteHost _ => true | _ => false end.

Lemma keeps_hosts_reply {A B} (f : A → B) (m : Http A) : preserves same_hosts m → preserves same_hosts (reply f m).
Proof. intros Hm. unfold reply. preserves_tac; auto. Qed.

Lemma keeps_hosts_execute s : (∀ db db', s db = Ok db' → hosts db' = hosts db) → preserves same_hosts (execute s).
Proof. intros Hs. apply preserves_execute; [apply _|]. intros db db' E. symmetry. by apply Hs. Qed.

Lemma reads_stats groupID : preserves same_hosts (HostGroupRepository.GetGroupStatistics groupID).
Proof. unfold HostGroupRepository.GetGroupStatistics, HostGroupRepository.FindByID, count. preserves_tac. Qed.
Lemma reads_with_stats l : preserves same_hosts (with_stats l).
Proof. induction l as [|g l IH]; simpl; [preserves_tac|]. unfold group_stats. preserves_tac; auto. Qed.

Lemma list_hosts_keeps caller now page size search tags :
  preserves same_hosts (ListHosts lib caller now page size search tags).
Proof.
  unfold ListHosts, or_status, HostService.ListHosts, HostService.ListHostsByPermissions, HostRepository.FindAll,
    HostRepository.FindByUserPermissions, GetAccessibleHostIDsForUser, HostRepository.find_among, page_counted.
  preserves_tac.
Qed.

Ltac host_write := apply keeps_hosts_execute; intros ? ?; try destruct (existsb _ _); try destruct (is_empty _); by intros [= <-].

Lemma other_requests_keep caller now c : writes_hosts c = false → preserves same_hosts (hosts_run lib caller now c).
Proof.
  intros Hw. destruct c; try done; cbn [hosts_run]; apply keeps_hosts_reply.
  - apply list_hosts_keeps.
  - unfold GetHost, answering, HostService.GetHost, FindHostByID. preserves_tac.
  - unfold TestConnection. preserves_tac.
  - unfold GetHostGroups, answering, HostGroupRepository.GetGroupsByHostID. preserves_tac.
  - unfold ListGroups, answering, FindAllWithStats, HostGroupRepository.FindAll. preserves_tac. apply reads_with_stats.
  - unfold CreateGroup, undecoded, answering, HostGroupRepository.Create. preserves_tac. host_write.
  - unfold GetGroup, answering, HostGroupRepository.FindByID. preserves_tac. apply reads_stats.
  - unfold UpdateGroup, undecoded, answering, HostGroupRepository.FindByID, HostGroupRepository.Update. preserves_tac. host_write.
  - unfold DeleteGroup, answering, HostGroupRepository.Delete. preserves_tac. host_write.
  - unfold GetGroupHosts, answering, HostGroupRepository.SearchHostsInGroup, GetHostsByGroupIDWithPagination. preserves_tac.
  - unfold AddHostsToGroup, undecoded, answering, HostGroupRepository.AddHostsToGroup, HostGroupRepository.create_members.
    preserves_tac. host_write.
  - unfold RemoveHostsFromGroup, undecoded, answering, HostGroupRepository.RemoveHostsFromGroup, HostGroupRepository.delete_members.
    preserves_tac. host_write.
  - unfold GetGroupStatistics, answering. preserves_tac. apply reads_stats.
  - unfold GetGroupUsers, answering, HostGroupRepository.GetUsersInGroup. preserves_tac.
Qed.

(** The check of an address, when the lookup does not fail. *)
Lemma check_ip_reads ip id : reads (check_ip ip id).
Proof. unfold check_ip, HostService.CheckIPDuplicate, HostRepository.FindByIP. preserves_tac. Qed.

Lemma check_ip_Ok ip id db x db' f' : check_ip ip id db [] = (Ok x, db', f') → NoDup (Host.IP <$> hosts db) →
  f' = [] ∧ ∀ h, h ∈ hosts db → Host.IP h = ip → Host.ID h = id.
Proof.
  unfold check_ip, HostService.CheckIPDuplicate, HostRepository.FindByIP, first, query, attempt.
  rewrite !bind_run. cbn [list.tail]. intros E HN.
  destruct (keep _ (hosts db)) as [|h l] eqn:Ek.
  - injection E as _ _ <-. split; [done|]. intros h Hh <-. rewrite (keep_key Host.IP _ _ h HN Hh eq_refl) in Ek. done.
  - destruct (text_eqb (Host.ID h) id) eqn:Ei; cbn [negb] in E; [|by injection E].
    injection E as _ _ <-. split; [done|]. intros h' Hh' <-. apply text_eqb_true in Ei as <-.
    rewrite (keep_key Host.IP _ _ h' HN Hh' eq_refl) in Ek. by injection Ek as ->.
Qed.

Lemma valid_device_run host db f : ∃ r, valid_device host db f = (r, db, f) ∧
  ∀ host', r = Ok host' → Host.IP host' = Host.IP host.
Proof.
  unfold valid_device, Host.ValidateDeviceType. destruct (is_empty _); [|destruct (existsb _ _)].
  - eexists. split; [done|]. by intros host' [= <-].
  - eexists. split; [done|]. by intros host' [= <-].
  - eexists. split; [done|]. intros host' E. discriminate E.
Qed.

(** Rows that are replaced keep their keys. *)
Lemma replaced_keys row (l : list Host.t) : Host.ID <$> (updated (HostRepository.of_id (Host.ID row)) (λ _, row) <$> l) = Host.ID <$> l.
Proof.
  rewrite <- list_fmap_compose. apply list_fmap_ext. intros i h _. unfold compose, updated.
  destruct (HostRepository.of_id _ h) eqn:E; [|done]. by apply text_eqb_true in E.
Qed.

Lemma replaced_addresses row (l : list Host.t) : NoDup (Host.ID <$> l) → NoDup (Host.IP <$> l) →
  (∀ h, h ∈ l → Host.IP h = Host.IP row → Host.ID h = Host.ID row) →
  NoDup (Host.IP <$> (updated (HostRepository.of_id (Host.ID row)) (λ _, row) <$> l)).
Proof.
  induction l as [|h l IH]; intros HK HA Hr; [constructor|]. simpl in *.
  apply NoDup_cons in HK as [Hk HK], HA as [Ha HA].
  assert (∀ h', h' ∈ l → Host.IP h' = Host.IP row → Host.ID h' = Host.ID row) as Hr'
    by (intros h' Hh'; apply Hr; by right).
  apply NoDup_cons. split; [|by apply IH].
  intros (x & Ex & (h' & -> & Hh')%list_elem_of_fmap)%list_elem_of_fmap. unfold updated in Ex.
  destruct (HostRepository.of_id (Host.ID row) h) eqn:E1, (HostRepository.of_id (Host.ID row) h') eqn:E2;
    unfold HostRepository.of_id, text_eqb in E1, E2; prop_bools.
  - apply Hk. rewrite E1, <- E2. apply list_elem_of_fmap. eauto.
  - by destruct E2; apply Hr'.
  - apply E1, Hr; [left|]. done.
  - apply Ha. rewrite Ex. apply list_elem_of_fmap. eauto.
Qed.

Lemma create_distinct host newID db r db' f' : newID ≠ [] → distinct_hosts db →
  CreateHost lib (Some host) newID db [] = (r, db', f') → distinct_hosts db'.
Proof.
  intros Hne [H1 H2 H3]. unfold CreateHost. rewrite bind_run.
  destruct (check_ip (Host.IP host) [] db []) as [ [o db1] f1] eqn:Ec.
  pose proof (reads_run _ _ _ _ _ _ (check_ip_reads _ _) Ec) as ->. destruct o as [x|e]; [|by intros [= _ <- _]].
  apply check_ip_Ok in Ec as [-> Hfree]; [|done]. rewrite bind_run.
  destruct (valid_device_run host db []) as (rv & Ev & Hip). rewrite Ev. destruct rv as [host'|e]; [|by intros [= _ <- _]].
  specialize (Hip _ eq_refl). unfold or_status, HostService.CreateHost, HostRepository.Create, or_fail, execute.
  rewrite bind_run. destruct (existsb _ (hosts db)) eqn:Ee; [by intros [= _ <- _]|]. cbn [map_err].
  intros [= _ <- _]. cbn [Host.ID HostService.with_id] in Ee. split; cbn [hosts set_hosts]; rewrite fmap_app; simpl.
  - apply NoDup_app. split; [done|]. split; [|apply NoDup_singleton]. intros i (h & -> & Hh)%list_elem_of_fmap E.
    apply list_elem_of_singleton in E. pose proof (proj1 (existsb_none _ _) Ee h Hh) as E'.
    unfold HostRepository.of_id in E'. by rewrite E, text_eqb_refl in E'.
  - apply NoDup_app. split; [done|]. split; [|apply NoDup_singleton]. intros i (h & -> & Hh)%list_elem_of_fmap E.
    apply list_elem_of_singleton in E. apply H3. rewrite <- (Hfree h Hh); [apply list_elem_of_fmap; eauto|].
    by rewrite E, <- Hip.
  - intros [E|E]%elem_of_app; [done|]. apply list_elem_of_singleton in E. by apply Hne.
Qed.

Lemma update_distinct id host db r db' f' : distinct_hosts db →
  UpdateHost lib id (Some host) db [] = (r, db', f') → distinct_hosts db'.
Proof.
  intros [H1 H2 H3]. unfold UpdateHost. rewrite bind_run.
  destruct ((if negb (is_empty (Host.IP host)) then check_ip (Host.IP host) id else mret ()) db []) as [ [o db1] f1] eqn:Ec.
  assert (db1 = db ∧ (∀ x, o = Ok x → f1 = [] ∧ (is_empty (Host.IP host) = true ∨
    ∀ h, h ∈ hosts db → Host.IP h = Host.IP host → Host.ID h = id))) as [-> Hfree].
  { destruct (is_empty (Host.IP host)); cbn [negb] in Ec.
    - injection Ec as <- <- <-. by split; [|intros x _; split; [|left] ].
    - split; [exact (reads_run _ _ _ _ _ _ (check_ip_reads _ _) Ec)|]. intros x ->.
      apply check_ip_Ok in Ec as [-> Hf]; [|done]. by split; [|right]. }
  destruct o as [x|e]; [|by intros [= _ <- _]]. destruct (Hfree x eq_refl) as [-> Hf]. rewrite bind_run.
  assert (∃ rv, (if negb (is_empty (Host.DeviceType host)) then valid_device host else mret host) db [] = (rv, db, []) ∧
    ∀ host', rv = Ok host' → Host.IP host' = Host.IP host) as (rv & -> & Hip).
  { destruct (is_empty (Host.DeviceType host)); cbn [negb]; [|apply valid_device_run].
    eexists. split; [done|]. by intros host' [= <-]. }
  destruct rv as [host'|e]; [|by intros [= _ <- _]]. specialize (Hip _ eq_refl).
  unfold or_status, or_fail, HostService.UpdateHost. rewrite bind_run. unfold FindHostByID, first, query. cbn [list.tail].
  destruct (keep _ (hosts db)) as [|old l] eqn:Ek; [by intros [= _ <- _]|].
  apply keep_head in Ek as [Hold <-%text_eqb_true]. unfold HostRepository.Update, execute. cbn [list.tail map_err].
  set (row := HostService.merged old host'). change (Host.ID row) with (Host.ID old).
  assert (existsb (HostRepository.of_id (Host.ID old)) (hosts db) = true) as ->.
  { apply existsb_elem. exists old. split; [done|]. apply text_eqb_refl. }
  intros [= _ <- _]. change (Host.ID old) with (Host.ID row).
  split; cbn [hosts set_hosts]; rewrite ?replaced_keys; [done| |done].
  apply replaced_addresses; [done..|]. intros h Hh E. change (Host.ID row) with (Host.ID old).
  assert (Host.IP row = HostService.or_old (Host.IP host) (Host.IP old)) as Er by (unfold row; cbn; by rewrite Hip).
  rewrite Er in E. unfold HostService.or_old in E. destruct Hf as [Hf|Hf].
  - rewrite Hf in E. cbn [negb] in E. clear -H2 Hh Hold E.
    pose proof (keep_key Host.IP _ _ h H2 Hh eq_refl) as K1. rewrite E in K1.
    pose proof (keep_key Host.IP _ _ old H2 Hold eq_refl) as K2. rewrite K1 in K2. by injection K2 as ->.
  - destruct (is_empty (Host.IP host)) eqn:Ee; cbn [negb] in E; [|by apply Hf].
    pose proof (keep_key Host.IP _ _ h H2 Hh eq_refl) as K1. rewrite E in K1.
    pose proof (keep_key Host.IP _ _ old H2 Hold eq_refl) as K2. rewrite K1 in K2. by injection K2 as ->.
Qed.

Lemma delete_distinct id db r db' f' : distinct_hosts db → DeleteHost lib id db [] = (r, db', f') → distinct_hosts db'.
Proof.
  intros [H1 H2 H3] Hr. unfold DeleteHost, or_status, or_fail, HostService.DeleteHost, HostRepository.Delete, execute in Hr.
  injection Hr as _ <- _. split; cbn [hosts set_hosts]; [by apply NoDup_keep..|].
  intros (h & E & [Hh _]%elem_of_keep)%list_elem_of_fmap. apply H3, list_elem_of_fmap. eauto.
Qed.

(** A request, with the token it came with and the time. *)
Definition request : Type := text * text * Z * call.
Definition serve_all (db : Db) (l : list request) : Db :=
  foldl (λ db q, after (serve q.1.1.1 q.1.1.2 q.1.2 q.2 db [])) db l.
(** The keys that are made up for new hosts are not empty. *)
Definition keyed (q : request) : Prop := match q.2 with c_CreateHost _ newID => newID ≠ [] | _ => True end.

Lemma reply_run {A B} (g : A → B) (m : Http A) db f r db' f' : reply g m db f = (r, db', f') →
  ∃ r0, m db f = (r0, db', f').
Proof.
  unfold reply. rewrite bind_run. destruct (m db f) as [ [[a|e] db1] f1]; intros [= _ <- <-]; eauto.
Qed.

Lemma run_distinct caller now c db r db' f' : keyed ([], [], now, c) → distinct_hosts db →
  hosts_run lib caller now c db [] = (r, db', f') → distinct_hosts db'.
Proof.
  intros Hk Hd Hr. destruct (writes_hosts c) eqn:Hw.
  - destruct c as [|host newID| |id host|id| | | | | | | | | | | |]; try done; cbn [hosts_run] in Hr;
      apply reply_run in Hr as (r0 & Hr).
    + destruct host as [host|]; [exact (create_distinct host newID db r0 db' f' Hk Hd Hr)|]. by injection Hr as _ <- _.
    + destruct host as [host|]; [exact (update_distinct id host db r0 db' f' Hd Hr)|]. by injection Hr as _ <- _.
    + exact (delete_distinct id db r0 db' f' Hd Hr).
  - eapply distinct_same; [|exact Hd]. exact (preserves_run _ _ _ _ _ _ _ (other_requests_keep caller now c Hw) Hr).
Qed.

(** No two hosts have the same address, whatever the users do: requests that
    are served one after the other, whoever sends them, and while the database
    answers, keep the keys and the addresses of the hosts distinct. *)
Theorem addresses_stay_distinct l db : Forall keyed l → distinct_hosts db → distinct_hosts (serve_all db l).
Proof.
  intros HF. revert db. induction HF as [|q l Hq HF IH]; intros db Hd; [done|]. simpl. apply IH.
  destruct q as [[[hdr tok] now] c]. cbn [fst snd].
  destruct (serve_cases (A := hosts_api lib) hdr tok now c) as [(caller & _ & ->)|(e & -> & _)]; [|exact Hd].
  cbn [run hosts_api]. destruct (hosts_run lib caller now c db []) as [ [r db'] f'] eqn:E.
  exact (run_distinct caller now c db r db' f' Hq Hd E).
Qed.

(** ** What a user sees *)

Lemma accessible_run now uid db : ∃ ids, GetAccessibleHostIDsForUser (JSON_EXTRACT lib) now uid db [] = (Ok ids, db, []).
Proof.
  unfold GetAccessibleHostIDsForUser, find, query, attempt. eexists. rewrite !bind_run. cbn [list.tail]. reflexivity.
Qed.

Lemma page_elem {A} page size (l : list A) x : x ∈ page_of page size l → x ∈ l.
Proof.
  unfold page_of. intros (i & Hi & _)%elem_of_take. rewrite lookup_drop in Hi. by apply list_elem_of_lookup_2 in Hi.
Qed.

Lemma clamp_hosts_range size : 0 < HostService.clamp_hosts size <= 10000.
Proof.
  unfold HostService.clamp_hosts. destruct (Z.ltb_spec size 1), (Z.ltb_spec 10000 size); cbn [orb]; lia.
Qed.

Lemma keep_permutes {A} (p : A → bool) l : keep p l ++ keep (λ x, negb (p x)) l ≡ₚ l.
Proof.
  induction l as [|x l IH]; [done|]. cbn [keep]. destruct (p x); cbn [negb app]; [by rewrite IH|].
  rewrite <- Permutation_middle. by rewrite IH.
Qed.

(** The search is for the name, the address or the system, and every tag restricts. *)
Definition sought (search : text) (tags : list text) (h : Host.t) : Prop :=
  (search = [] ∨ like lib (Host.Name h) search = true ∨ like lib (Host.IP h) search = true ∨
   like lib (Host.OS h) search = true) ∧ ∀ t, t ∈ tags → like lib (Host.Tags h) t = true.
Lemma matches_sought search tags h : HostRepository.matches (like lib) search tags h = true ↔ sought search tags h.
Proof.
  unfold HostRepository.matches, sought. rewrite andb_true_iff, !orb_true_iff, forallb_forall.
  setoid_rewrite <- list_elem_of_In. destruct search; simpl; naive_solver.
Qed.

(** C10: A user who is no administrator is shown the hosts the rules reach and no
    others. A rule reaches a host for the user when it is enabled, its dates
    hold, its user group is active and has the user, and a host group it names
    has the host, or the query on the list of its own reads the host's id (which
    is up to the database: on MySQL it reads none). Every host of the table is
    either reached and sought, and then on a page, the newest first, or not
    reached or not sought, and then on none; the total counts those that are, and
    a page has no more than ten thousand. *)
Theorem shown_hosts_accessible hdr tok now cl page size search tags db :
  Auth.AuthMiddleware hdr tok now = Ok cl → Claims.Role cl ≠ admin →
  let shown h := reaches (JSON_EXTRACT lib) db now (Claims.UserID cl) (Host.ID h) ∧ sought search tags h in
  let n := if (size <? 1) || (10000 <? size) then 10 else size in
  ∃ all others,
    all ++ others ≡ₚ hosts db ∧ rev all `sublist_of` hosts db ∧
    (∀ h, h ∈ all → shown h) ∧ (∀ h, h ∈ others → ¬ shown h) ∧
    let l := page_of (if page <? 1 then 1 else page) n all in
    serve hdr tok now (c_ListHosts page size search tags) db [] = (Ok (AHosts l (Z.of_nat (length all))), db, []) ∧
    Z.of_nat (length l) <= 10000.
Proof.
  intros Hm Hrole shown n. rewrite (hosts_serve _ _ _ _ _ Hm). cbn [hosts_run]. unfold reply, ListHosts, or_status, or_fail.
  assert (text_eqb (Claims.Role cl) admin = false) as -> by by apply text_eqb_false.
  destruct (accessible_spec (JSON_EXTRACT lib) now (Claims.UserID cl) db) as (ids & Hids & Hspec).
  set (p := clamp_page page).
  set (test := λ h, HostRepository.among ids h && HostRepository.matches (like lib) search tags h).
  set (rows := newest_first (keep test (hosts db))).
  assert (∀ h, test h = true ↔ shown h) as Htest.
  { intros h. unfold test, shown. rewrite andb_true_iff, matches_sought, <- Hspec.
    unfold HostRepository.among, is_one_of. rewrite existsb_elem. split; intros [Hi Hs]; (split; [|done]).
    - destruct Hi as (i & Hi & ->%text_eqb_true). done.
    - exists (Host.ID h). split; [done|apply text_eqb_refl]. }
  assert (HostService.ListHostsByPermissions (like lib) (JSON_EXTRACT lib) now page size search tags (Claims.UserID cl) db [] =
    (Ok (page_of p n rows, Z.of_nat (length rows)), db, [])) as E.
  { unfold HostService.ListHostsByPermissions, HostRepository.FindByUserPermissions. rewrite bind_run, Hids.
    unfold HostRepository.find_among. destruct ids as [|i ids0] eqn:Ei; [|done]. cbn [is_empty].
    assert (rows = []) as ->; [|unfold page_of; by rewrite drop_nil, take_nil].
    unfold rows, newest_first. by rewrite keep_none. }
  exists rows, (keep (λ h, negb (test h)) (hosts db)). unfold rows, newest_first. split_and!.
  - rewrite <- Permutation_rev. apply keep_permutes.
  - rewrite rev_involutive. apply keep_sublist.
  - intros h Hh%list_elem_of_In. apply in_rev, list_elem_of_In, elem_of_keep in Hh as [_ Ht]. by apply Htest.
  - intros h [_ Ht%negb_true_iff]%elem_of_keep Hs%Htest. congruence.
  - rewrite bind_run, E. reflexivity.
  - unfold page_of. rewrite length_take. pose proof (clamp_hosts_range size) as Hn. change (HostService.clamp_hosts size) with n in Hn. lia.
Qed.

(** The handler of one host asks nothing of the rules. *)
Theorem every_host_readable hdr tok now cl db h : Auth.AuthMiddleware hdr tok now = Ok cl →
  NoDup (Host.ID <$> hosts db) → h ∈ hosts db →
  serve hdr tok now (c_GetHost (Host.ID h)) db [] = (Ok (AHost h), db, []).
Proof.
  intros Hm HN Hh. rewrite (hosts_serve _ _ _ _ _ Hm). cbn [hosts_run].
  unfold reply, GetHost, answering, or_fail, HostService.GetHost, FindHostByID, first, query. rewrite bind_run.
  by rewrite (keep_key Host.ID _ _ h HN Hh eq_refl).
Qed.
End facts.

(** ** Examples *)

Definition plain_library : library :=
  {| like := λ _ _, true; JSON_EXTRACT := no_ids; JSON_CONTAINS := no_json; err_text := plain_err |}.
Definition bob_asks (c : call) (db : Db) := Serving.serve (A := hosts_api plain_library) bob_bearer [] 6 c db [].

(** Bob is [u1]: he puts a host into a group of his, and may use it. *)
Lemma anyone_extends_access_witness :
  let db' := after (bob_asks (c_AddHostsToGroup (txt "hg1") (Some [txt "h9"])) (sample_db active active)) in
  ¬ grants no_json (sample_db active active) 50 (txt "u1") (txt "h9") (txt "su1") ∧
  grants no_json db' 50 (txt "u1") (txt "h9") (txt "su1").
Proof.
  intros db'. split; [rewrite <- grants_test; vm_compute; discriminate|].
  destruct (anyone_extends_access plain_library bob_bearer [] 6 (claims_of bob2 5) (txt "hg1") [txt "h9"]
              (sample_db active active)) as (db1 & E & Hg).
  - vm_compute. reflexivity.
  - discriminate.
  - unfold db', bob_asks. rewrite E. cbn [after fst snd]. apply Hg. right. split; [left|].
    exists sample_rule. split; [left|]. split; [vm_compute; reflexivity|]. split; [vm_compute; reflexivity|].
    eexists. split; [left|]. split; reflexivity.
Defined.

Lemma deleted_host_group_still_grants_witness :
  let db' := after (bob_asks (c_DeleteGroup (txt "hg1")) (sample_db active active)) in
  grants no_json db' 50 (txt "u1") (txt "h1") (txt "su1").
Proof.
  intros db'.
  assert (bob_asks (c_DeleteGroup (txt "hg1")) (sample_db active active) = (Ok Nothing, db', [])) as E
    by (vm_compute; reflexivity).
  apply (deleted_host_group_still_grants plain_library bob_bearer [] 6 (txt "hg1") _ _ _ _ _ E).
  rewrite <- grants_test. vm_compute. reflexivity.
Defined.

Lemma addresses_stay_distinct_witness :
  let l := [(bob_bearer, [], 6, c_CreateHost (Some (named "x" "10.0.0.9")) (txt "h9"));
            (bob_bearer, [], 6, c_CreateHost (Some (named "y" "10.0.0.9")) (txt "h10"));
            (bob_bearer, [], 6, c_UpdateHost (txt "h9") (Some (named "z" "10.0.0.1")))] in
  distinct_hosts (serve_all plain_library three_hosts l) ∧
  length (hosts (serve_all plain_library three_hosts l)) = 4%nat.
Proof.
  intros l. split; [|vm_compute; reflexivity]. apply (addresses_stay_distinct plain_library l).
  - repeat constructor; discriminate.
  - split.
    + apply (bool_decide_eq_true_1 (NoDup (Host.ID <$> hosts three_hosts))). vm_compute. reflexivity.
    + apply (bool_decide_eq_true_1 (NoDup (Host.IP <$> hosts three_hosts))). vm_compute. reflexivity.
    + apply (bool_decide_eq_true_1 ([] ∉ Host.ID <$> hosts three_hosts)). vm_compute. reflexivity.
Defined.

(** Requests that run side by side both pass the check, and so does one whose
    lookup fails. *)
Example addresses_race :
  let create h newID := or_status plain_library 500 (HostService.CreateHost h newID) in
  let both := _ ← check_ip (txt "10.0.0.9") []; _ ← check_ip (txt "10.0.0.9") [];
              _ ← create (named "x" "10.0.0.9") (txt "h8"); create (named "y" "10.0.0.9") (txt "h9") in
  Host.IP <$> hosts (after (both empty_db [])) = [txt "10.0.0.9"; txt "10.0.0.9"].
Proof. vm_compute. reflexivity. Qed.
Example failed_lookup_passes :
  let db := after (CreateHost plain_library (Some (named "x" "10.0.0.1")) (txt "h9") three_hosts [Some DBFailure]) in
  length (keep (λ h, text_eqb (Host.IP h) (txt "10.0.0.1")) (hosts db)) = 2%nat.
Proof. vm_compute. reflexivity. Qed.

Lemma shown_hosts_accessible_witness :
  ∃ l total, Serving.serve (A := hosts_api plain_library) bob_bearer [] 6 (c_ListHosts 1 10 [] []) three_hosts [] =
    (Ok (AHosts l total), three_hosts, []) ∧ total = 3 ∧ Host.ID <$> l = [txt "h3"; txt "h2"; txt "h1"].
Proof.
  destruct (shown_hosts_accessible plain_library bob_bearer [] 6 (claims_of bob2 5) 1 10 [] [] three_hosts)
    as (all & others & _ & _ & _ & _ & E & _).
  - vm_compute. reflexivity.
  - vm_compute. discriminate.
  - eexists _, _. split; [exact E|].
    assert (match res (Serving.serve (A := hosts_api plain_library) bob_bearer [] 6 (c_ListHosts 1 10 [] []) three_hosts []) with
            | Ok (AHosts l total) => total = 3 ∧ Host.ID <$> l = [txt "h3"; txt "h2"; txt "h1"]
            | _ => False
            end) as E' by (vm_compute; done).
    rewrite E in E'. exact E'.
Defined.

Lemma every_host_readable_witness :
  bob_asks (c_GetHost (txt "h3")) three_hosts = (Ok (AHost (named "h3" "10.0.0.3")), three_hosts, []).
Proof.
  refine (every_host_readable plain_library bob_bearer [] 6 (claims_of bob2 5) three_hosts (named "h3" "10.0.0.3") _ _ _).
  - vm_compute. reflexivity.
  - apply (bool_decide_eq_true_1 (NoDup (Host.ID <$> hosts three_hosts))). vm_compute. reflexivity.
  - right. right. left.
Defined.

(** A page far enough out makes the product overflow, and the handler panics. *)
Example search_page_panics :
  res (bob_asks (c_GetGroupHosts (txt "hg1") (txt "4611686018427387905") (txt "2") (txt "h")) three_hosts) = Err (500, []).
Proof. vm_compute. reflexivity. Qed.

(** A field cannot be emptied: an empty value reads as one that was left out. *)
Example description_cannot_be_cleared :
  let full := HostService.merged (named "h1" "10.0.0.1")
                {| Host.ID := []; Host.Name := []; Host.IP := []; Host.Port := 0; Host.Status := []; Host.OS := [];
                   Host.CPU := []; Host.Memory := []; Host.Tags := []; Host.Description := txt "old";
                   Host.DeviceType := []; Host.ConnectionMode := []; Host.ProxyID := []; Host.NetworkZone := [];
                   Host.LastLoginTime := None; Host.LoginCount := 0 |} in
  Host.Description (HostService.merged full (named "h1" "10.0.0.1")) = txt "old".
Proof. vm_compute. reflexivity. Qed.
