(* ===== verification/SessionsApi.v ===== *)
(** * The API of sessions and the dashboard

    [session_handler.go] and [dashboard_handler.go] of [internal/api/handler] over
    the rest of [session_service.go] and [session_repository.go]: who sees which
    logins, recordings and commands.  The tokens of Sessions.v are the state of the
    service; a request that issues one answers with the table that has it. *)

From stdpp Require Import base list strings sorting gmap.
From Stdlib Require Import ZArith Lia.
From S2P Require Import Prelude GoStrings Gorm Models Database Repositories Permissions Sessions Accounts Auth TwoFactor AuditTrail Routes AuthApi Serving AccessApi Hosts HostsApi.
Local Open Scope Z_scope.

Definition hour : Z := 3600.
(** A limit that may not be used, of the requests for recent logins. *)
Definition clamp_limit (limit : Z) : Z := if (limit <? 1) || (100 <? limit) then 10 else limit.

(** ** The repository *)

Module SessionRepository.
Notation later := HostRepository.later.
(** [host_id IS NOT NULL AND host_id != ''] *)
Definition on_a_host (r : LoginRecord.t) : bool := negb (is_empty (LoginRecord.HostID r)).
(** An empty key restricts nothing. *)
Definition if_given (given value : text) : bool := is_empty given || text_eqb value given.
Definition login_rows (db : Db) (hostID userID : text) : list LoginRecord.t :=
  keep (λ r, on_a_host r && if_given hostID (LoginRecord.HostID r) && if_given userID (LoginRecord.UserID r))
       (login_records (aux db)).

Definition UpdateLogoutTime (now : Z) (id : text) : DB unit := execute (λ db, Ok (set_login_records db
  (updated (λ r, text_eqb (LoginRecord.ID r) id) (λ r, LoginRecord.set_logout r now (txt "completed"))
     <$> login_records (aux db)))).
Definition with_duration (r : LoginRecord.t) (duration : Z) : LoginRecord.t :=
  {| LoginRecord.ID := LoginRecord.ID r; LoginRecord.UserID := LoginRecord.UserID r;
     LoginRecord.HostID := LoginRecord.HostID r; LoginRecord.HostName := LoginRecord.HostName r;
     LoginRecord.HostIP := LoginRecord.HostIP r; LoginRecord.Username := LoginRecord.Username r;
     LoginRecord.LoginIP := LoginRecord.LoginIP r; LoginRecord.LoginTime := LoginRecord.LoginTime r;
     LoginRecord.LogoutTime := LoginRecord.LogoutTime r; LoginRecord.Duration := Some duration;
     LoginRecord.Status := LoginRecord.Status r; LoginRecord.SessionID := LoginRecord.SessionID r |}.
Definition CalculateDuration (id : text) : DB unit :=
  record ← first (λ db, keep (λ r, text_eqb (LoginRecord.ID r) id) (login_records (aux db)));
  match LoginRecord.LogoutTime record with
  | Some logout => execute (λ db, Ok (set_login_records db
      (updated (λ r, text_eqb (LoginRecord.ID r) id) (λ r, with_duration r (logout - LoginRecord.LoginTime record))
         <$> login_records (aux db))))
  | None => mret ()
  end.

Definition FindLoginRecords (page pageSize : Z) (hostID : text) : DB (list LoginRecord.t * Z) :=
  page_counted (λ db, merge_sort later (login_rows db hostID [])) page pageSize.

(** [LEFT JOIN session_recordings]: a row for each recording of the session, and
    one of [webshell] when there is none. *)
Definition connection_types (db : Db) (r : LoginRecord.t) : list text :=
  match keep (λ s, text_eqb (SessionRecording.SessionID s) (LoginRecord.SessionID r)) (session_recordings (aux db)) with
  | [] => [txt "webshell"]
  | l => SessionRecording.ConnectionType <$> l
  end.
Definition with_types (db : Db) (rows : list LoginRecord.t) : list (LoginRecord.t * text) :=
  mjoin ((λ r, (λ c, (r, c)) <$> connection_types db r) <$> rows).
Definition FindLoginRecordsByUser (page pageSize : Z) (hostID userID : text) : DB (list (LoginRecord.t * text) * Z) :=
  total ← count (λ db, login_rows db hostID userID);
  results ← find (λ db, page_of page pageSize (with_types db (merge_sort later (login_rows db hostID userID))));
  mret (results, total).

Definition GetRecentLogins (limit : Z) : DB (list LoginRecord.t) :=
  find (λ db, HostRepository.limited limit (merge_sort later (login_rows db [] []))).
Definition GetRecentLoginsByUser (limit : Z) (userID : text) : DB (list LoginRecord.t) :=
  find (λ db, HostRepository.limited limit (merge_sort later (login_rows db [] userID))).
Definition since (cutoff : Z) (userID : text) (r : LoginRecord.t) : bool :=
  (cutoff <=? LoginRecord.LoginTime r) && if_given userID (LoginRecord.UserID r).
Definition CountRecentLoginsByUser (now hours : Z) (userID : text) : DB Z :=
  count (λ db, keep (since (now - hours * hour) userID) (login_records (aux db))).
Definition CountRecentLogins (now hours : Z) : DB Z := CountRecentLoginsByUser now hours [].

Definition started_after (a b : SessionRecording.t) : Prop := SessionRecording.StartTime b <= SessionRecording.StartTime a.
#[global] Instance started_after_dec : RelDecision started_after.
Proof. intros a b. apply Z_le_dec. Defined.
Definition CreateSessionRecording (r : SessionRecording.t) : DB unit := create_recording r.
Definition FindSessionRecordings (like : text → text → bool) (page pageSize : Z) (search : text)
    : DB (list SessionRecording.t * Z) :=
  page_counted (λ db, merge_sort started_after (keep (λ r,
    negb (text_eqb (SessionRecording.Status r) (txt "failed")) &&
    (is_empty search || like (SessionRecording.HostName r) search || like (SessionRecording.Username r) search ||
     like (SessionRecording.SessionID r) search)) (session_recordings (aux db)))) page pageSize.
Definition FindSessionRecordingByID (sessionID : text) : DB SessionRecording.t :=
  first (λ db, keep (recorded sessionID) (session_recordings (aux db))).
(** [Updates] with a map of columns, given as what it makes of a row. *)
Definition UpdateSessionRecording (sessionID : text) (updates : SessionRecording.t → SessionRecording.t) : DB unit :=
  update_recordings sessionID updates.

Definition with_key (c : CommandRecord.t) (id : Z) : CommandRecord.t :=
  {| CommandRecord.ID := id; CommandRecord.ProxyID := CommandRecord.ProxyID c;
     CommandRecord.SessionID := CommandRecord.SessionID c; CommandRecord.HostID := CommandRecord.HostID c;
     CommandRecord.UserID := CommandRecord.UserID c; CommandRecord.Username := CommandRecord.Username c;
     CommandRecord.HostIP := CommandRecord.HostIP c; CommandRecord.Command := CommandRecord.Command c;
     CommandRecord.Output := CommandRecord.Output c; CommandRecord.ExitCode := CommandRecord.ExitCode c;
     CommandRecord.ExecutedAt := CommandRecord.ExecutedAt c; CommandRecord.DurationMs := CommandRecord.DurationMs c |}.
(** The key is made up unless the row comes with one. *)
Definition CreateCommandRecord (record : CommandRecord.t) : DB CommandRecord.t := statement (λ db,
  let rows := command_records (logs (aux db)) in
  let row := if CommandRecord.ID record =? 0 then with_key record (next_id CommandRecord.ID rows) else record in
  if existsb (λ c, CommandRecord.ID c =? CommandRecord.ID row) rows then Err DuplicatedKey
  else Ok (set_command_records db (rows ++ [row]), row)).
Definition of_command_session (sessionID : text) (c : CommandRecord.t) : bool :=
  text_eqb (CommandRecord.SessionID c) sessionID.
Definition executed_before (a b : CommandRecord.t) : Prop := CommandRecord.ExecutedAt a <= CommandRecord.ExecutedAt b.
#[global] Instance executed_before_dec : RelDecision executed_before.
Proof. intros a b. apply Z_le_dec. Defined.
Definition executed_after (a b : CommandRecord.t) : Prop := executed_before b a.
#[global] Instance executed_after_dec : RelDecision executed_after.
Proof. intros a b. apply Z_le_dec. Defined.
Definition on_shown_host (hostFilter : text) (c : CommandRecord.t) : bool :=
  is_empty hostFilter || text_eqb hostFilter (txt "all") || text_eqb (CommandRecord.HostIP c) hostFilter.
Definition FindCommandsBySessionID (sessionID : text) : DB (list CommandRecord.t) :=
  find (λ db, merge_sort executed_before (keep (of_command_session sessionID) (command_records (logs (aux db))))).
Definition CountCommandsBySessionID (sessionID : text) : DB Z :=
  count (λ db, keep (of_command_session sessionID) (command_records (logs (aux db)))).
(** The table has no column [host_name]: a search is refused by the database. *)
Definition FindCommandRecords (page pageSize : Z) (search hostFilter : text) : DB (list CommandRecord.t * Z) :=
  if negb (is_empty search) then query (λ _, Err DBFailure)
  else page_counted (λ db, merge_sort executed_after
         (keep (on_shown_host hostFilter) (command_records (logs (aux db))))) page pageSize.
End SessionRepository.

(** ** The service *)

Module SessionService.
Import SessionRepository.

Definition with_name (r : SessionRecording.t) (name : text) : SessionRecording.t :=
  {| SessionRecording.ID := SessionRecording.ID r; SessionRecording.SessionID := SessionRecording.SessionID r;
     SessionRecording.ConnectionType := SessionRecording.ConnectionType r;
     SessionRecording.ProxyID := SessionRecording.ProxyID r; SessionRecording.UserID := SessionRecording.UserID r;
     SessionRecording.HostID := SessionRecording.HostID r; SessionRecording.HostName := name;
     SessionRecording.HostIP := SessionRecording.HostIP r; SessionRecording.Username := SessionRecording.Username r;
     SessionRecording.StartTime := SessionRecording.StartTime r; SessionRecording.EndTime := SessionRecording.EndTime r;
     SessionRecording.Duration := SessionRecording.Duration r; SessionRecording.Status := SessionRecording.Status r;
     SessionRecording.Recording := SessionRecording.Recording r;
     SessionRecording.CommandCount := SessionRecording.CommandCount r |}.
Definition with_new_id (r : SessionRecording.t) (id : text) : SessionRecording.t :=
  {| SessionRecording.ID := id; SessionRecording.SessionID := SessionRecording.SessionID r;
     SessionRecording.ConnectionType := or_default (SessionRecording.ConnectionType r) "webshell";
     SessionRecording.ProxyID := SessionRecording.ProxyID r; SessionRecording.UserID := SessionRecording.UserID r;
     SessionRecording.HostID := SessionRecording.HostID r; SessionRecording.HostName := SessionRecording.HostName r;
     SessionRecording.HostIP := SessionRecording.HostIP r; SessionRecording.Username := SessionRecording.Username r;
     SessionRecording.StartTime := SessionRecording.StartTime r; SessionRecording.EndTime := SessionRecording.EndTime r;
     SessionRecording.Duration := SessionRecording.Duration r;
     SessionRecording.Status := or_default (SessionRecording.Status r) "active";
     SessionRecording.Recording := SessionRecording.Recording r;
     SessionRecording.CommandCount := SessionRecording.CommandCount r |}.

Definition GetLoginRecords (page pageSize : Z) := FindLoginRecords (clamp_page page) (clamp_size pageSize).
Definition GetLoginRecordsByUser (page pageSize : Z) := FindLoginRecordsByUser (clamp_page page) (clamp_size pageSize).
Definition GetRecentLogins (limit : Z) (userID : text) : DB (list LoginRecord.t) :=
  GetRecentLoginsByUser (clamp_limit limit) userID.
Definition EndSession (sessionID : text) : DB unit := mret ().
Definition GetRecentLoginsCount (now hours : Z) (userID : text) : DB Z := CountRecentLoginsByUser now hours userID.

(** The hosts of a page of recordings; without one nothing is asked, and the
    error of the query is ignored. *)
Definition hosts_of (recordings : list SessionRecording.t) : DB (list Host.t) :=
  let hostIDs := remove_dups (keep (λ i, negb (is_empty i)) (SessionRecording.HostID <$> recordings)) in
  if is_empty hostIDs then mret []
  else l ← attempt (find (λ db, keep (HostRepository.among hostIDs) (hosts db))); mret (default [] l).
Definition nameless (r : SessionRecording.t) : bool :=
  is_empty (SessionRecording.HostName r) || text_eqb (SessionRecording.HostName r) (SessionRecording.HostIP r).
Definition named_host (hs : list Host.t) (r : SessionRecording.t) : SessionRecording.t :=
  if nameless r then
    match keep (HostRepository.of_id (SessionRecording.HostID r)) hs with h :: _ => with_name r (Host.Name h) | [] => r end
  else r.

(** [GROUP BY session_id]: the commands of the sessions; the error is ignored,
    and a session without a count has none. *)
Definition commands_of (recordings : list SessionRecording.t) : DB (list CommandRecord.t) :=
  if is_empty recordings then mret []
  else l ← attempt (find (λ db, keep (λ c, is_one_of (SessionRecording.SessionID <$> recordings) (CommandRecord.SessionID c))
                                    (command_records (logs (aux db)))));
       mret (default [] l).
Definition counted (commands : list CommandRecord.t) (r : SessionRecording.t) : SessionRecording.t :=
  SessionRecording.set_count r (Z.of_nat (length (keep (of_command_session (SessionRecording.SessionID r)) commands))).

Section queries.
Context (like : text → text → bool).
Definition GetSessionRecordings (page pageSize : Z) (search : text) : DB (list SessionRecording.t * Z) :=
  r ← page_counted (λ db, merge_sort started_after (keep (λ r,
        is_empty search || like (SessionRecording.SessionID r) search || like (SessionRecording.HostIP r) search ||
        like (SessionRecording.Username r) search) (session_recordings (aux db)))) (clamp_page page) (clamp_size pageSize);
  let recordings := fst (B := Z) r in
  hs ← hosts_of recordings;
  let recordings := named_host hs <$> recordings in
  commands ← commands_of recordings;
  mret (counted commands <$> recordings, snd r).

Definition GetSessionRecording (sessionID : text) : DB SessionRecording.t :=
  recording ← FindSessionRecordingByID sessionID;
  host ← (if is_empty (SessionRecording.HostName recording) && negb (is_empty (SessionRecording.HostID recording))
          then attempt (FindHostByID (SessionRecording.HostID recording)) else mret None);
  let recording := match host with Some h => with_name recording (Host.Name h) | None => recording end in
  n ← attempt (CountCommandsBySessionID sessionID);
  mret (SessionRecording.set_count recording (default 0 n)).
Definition CreateSessionRecording (recording : SessionRecording.t) (newID : text) : DB unit :=
  SessionRepository.CreateSessionRecording (with_new_id recording newID).
Definition UpdateSessionRecording := SessionRepository.UpdateSessionRecording.

Definition GetCommandRecords (page pageSize : Z) (search hostFilter : text) : DB (list CommandRecord.t * Z) :=
  page_counted (λ db, merge_sort executed_after (keep (λ c,
    (is_empty search || like (CommandRecord.Command c) search || like (CommandRecord.HostIP c) search) &&
    on_shown_host hostFilter c) (command_records (logs (aux db))))) (clamp_page page) (clamp_size pageSize).
Definition CreateCommandRecord (record : CommandRecord.t) : DB CommandRecord.t :=
  SessionRepository.CreateCommandRecord record.
Definition GetCommandsBySession (sessionID : text) : DB (list CommandRecord.t) := FindCommandsBySessionID sessionID.
End queries.
End SessionService.

(** ** The handlers *)

Section handlers.
Context (lib : library) (call_agent : Proxy.t → text → result text Z).

(** For the agents; it answers with what is left of the tokens. *)
Definition ValidateToken (tokens : Tokens) (now : Z) (token : text)
    : result (Z * text) SessionToken.t * Tokens :=
  if is_empty token then (Err (400, txt "Missing token"), tokens)
  else (map_err (λ e, (401, e)) (ValidateSessionToken tokens token now).1, (ValidateSessionToken tokens token now).2).

(** The host is required. *)
Definition CreateSession (caller : option Claims.t) (now : Z) (tokens : Tokens) (hostID sessionID recordID token : text)
    : Http (SessionResponse.t * Tokens) :=
  if is_empty hostID then undecoded
  else match caller with
       | None => raise (401, txt "未找到用户信息")
       | Some c => or_fail (λ e, (500, e)) (Sessions.CreateSession hostID (Claims.UserID c) sessionID recordID token now tokens)
       end.
(** An assertion on a missing user panics. *)
Definition GetLoginRecords (caller : option Claims.t) (page pageSize : Z) (hostID : text)
    : Http (list (LoginRecord.t * text) * Z) :=
  match caller with
  | None => raise (500, [])
  | Some c => or_status lib 500 (SessionService.GetLoginRecordsByUser page pageSize hostID (Claims.UserID c))
  end.

(** The role is asked for again. *)
Definition is_admin (caller : option Claims.t) : bool :=
  match caller with Some c => text_eqb (Claims.Role c) admin | None => false end.
Definition GetSessionRecordings (caller : option Claims.t) (page pageSize : Z) (search : text)
    : Http (list SessionRecording.t * Z) :=
  if is_admin caller then or_status lib 500 (SessionService.GetSessionRecordings (like lib) page pageSize search)
  else raise (403, txt "权限不足，仅管理员可访问会话审计").
Definition GetSessionRecording (sessionID : text) : Http SessionRecording.t :=
  answering 404 "会话录制不存在" (SessionService.GetSessionRecording sessionID).
Definition CreateSessionRecording (recording : option SessionRecording.t) (newID : text) : Http SessionRecording.t :=
  match recording with
  | None => undecoded
  | Some recording =>
      _ ← or_status lib 500 (SessionService.CreateSessionRecording recording newID);
      mret (SessionService.with_new_id recording newID)
  end.
Definition GetCommandRecords (caller : option Claims.t) (page pageSize : Z) (search hostFilter : text)
    : Http (list CommandRecord.t * Z) :=
  if is_admin caller then or_status lib 500 (SessionService.GetCommandRecords (like lib) page pageSize search hostFilter)
  else raise (403, txt "权限不足，仅管理员可访问命令审计").
Definition CreateCommandRecord (record : option CommandRecord.t) : Http CommandRecord.t :=
  match record with
  | None => undecoded
  | Some record => or_status lib 500 (SessionService.CreateCommandRecord record)
  end.
Definition GetCommandsBySession (sessionID : text) : Http (list CommandRecord.t) :=
  or_status lib 500 (SessionService.GetCommandsBySession sessionID).
Definition TerminateSession (now : Z) (sessionID : text) : Http unit :=
  or_fail (λ e, (500, e)) (Sessions.TerminateSession (err_text lib) call_agent sessionID now).

(** ** The dashboard *)

Definition GetFrequentHosts (caller : option Claims.t) (now limit : Z) : Http (list Host.t) :=
  match caller with
  | None => raise (401, txt "未授权")
  | Some c => or_status lib 500 (HostService.GetUserFrequentHosts (JSON_EXTRACT lib) now (Claims.UserID c) limit)
  end.
(** The logins of the last day are the caller's own, and their error leaves 0. *)
Definition GetStats (caller : option Claims.t) (now : Z) : Http DashboardStats.t :=
  match caller with
  | None => raise (500, [])
  | Some c =>
      stats ← or_status lib 500
        (if text_eqb (Claims.Role c) admin then HostService.GetDashboardStats
         else HostService.GetUserDashboardStats (JSON_EXTRACT lib) now (Claims.UserID c));
      recentLogins ← attempt (SessionService.GetRecentLoginsCount now 24 (Claims.UserID c));
      mret {| DashboardStats.TotalHosts := DashboardStats.TotalHosts stats;
              DashboardStats.OnlineHosts := DashboardStats.OnlineHosts stats;
              DashboardStats.OfflineHosts := DashboardStats.OfflineHosts stats;
              DashboardStats.RecentLogins := default (DashboardStats.RecentLogins stats) recentLogins |}
  end.
Definition GetRecentLogins (caller : option Claims.t) (limit : Z) : Http (list LoginRecord.t) :=
  match caller with
  | None => raise (500, [])
  | Some c => or_status lib 500 (SessionService.GetRecentLogins limit (Claims.UserID c))
  end.
End handlers.

(** ** Requests *)

Inductive call :=
  | c_CreateSession (hostID sessionID recordID token : text)
  | c_GetLoginRecords (page pageSize : Z) (hostID : text)
  | c_GetSessionRecordings (page pageSize : Z) (search : text)
  | c_GetSessionRecording (sessionID : text)
  | c_CreateSessionRecording (recording : option SessionRecording.t) (newID : text)
  | c_TerminateSession (sessionID : text)
  | c_GetCommandRecords (page pageSize : Z) (search hostFilter : text)
  | c_CreateCommandRecord (record : option CommandRecord.t)
  | c_GetCommandsBySession (sessionID : text)
  | c_GetStats | c_GetRecentLogins (limit : Z) | c_GetFrequentHosts (limit : Z).

Definition handler_name (c : call) : string :=
  match c with
  | c_CreateSession _ _ _ _ => "sessionHandler.CreateSession"
  | c_GetLoginRecords _ _ _ => "sessionHandler.GetLoginRecords"
  | c_GetSessionRecordings _ _ _ => "sessionHandler.GetSessionRecordings"
  | c_GetSessionRecording _ => "sessionHandler.GetSessionRecording"
  | c_CreateSessionRecording _ _ => "sessionHandler.CreateSessionRecording"
  | c_TerminateSession _ => "sessionHandler.TerminateSession"
  | c_GetCommandRecords _ _ _ _ => "sessionHandler.GetCommandRecords"
  | c_CreateCommandRecord _ => "sessionHandler.CreateCommandRecord"
  | c_GetCommandsBySession _ => "sessionHandler.GetCommandsBySession"
  | c_GetStats => "dashboardHandler.GetStats"
  | c_GetRecentLogins _ => "dashboardHandler.GetRecentLogins"
  | c_GetFrequentHosts _ => "dashboardHandler.GetFrequentHosts"
  end.

Inductive answer :=
  | Nothing | ASession (s : SessionResponse.t) (tokens : Tokens) | ALogins (l : list LoginRecord.t)
  | AMyLogins (l : list (LoginRecord.t * text)) (total : Z)
  | ARecordings (l : list SessionRecording.t) (total : Z) | ARecording (r : SessionRecording.t)
  | ACommands (l : list CommandRecord.t) (total : Z) | ACommand (c : CommandRecord.t)
  | AStats (s : DashboardStats.t) | AFrequent (l : list Host.t).

(** The state of the service besides the tables, and the agents. *)
Record service := { lib : library; tokens : Tokens; call_agent : Proxy.t → text → result text Z }.

Definition sessions_run (s : service) (caller : option Claims.t) (now : Z) (c : call) : Http answer :=
  match c with
  | c_CreateSession h sid rid tok => reply (λ r, ASession r.1 r.2) (CreateSession caller now (tokens s) h sid rid tok)
  | c_GetLoginRecords page size h => reply (λ r, AMyLogins r.1 r.2) (GetLoginRecords (lib s) caller page size h)
  | c_GetSessionRecordings page size search =>
      reply (λ r, ARecordings r.1 r.2) (GetSessionRecordings (lib s) caller page size search)
  | c_GetSessionRecording sid => reply ARecording (GetSessionRecording sid)
  | c_CreateSessionRecording r newID => reply ARecording (CreateSessionRecording (lib s) r newID)
  | c_TerminateSession sid => reply (λ _, Nothing) (TerminateSession (lib s) (call_agent s) now sid)
  | c_GetCommandRecords page size search host =>
      reply (λ r, ACommands r.1 r.2) (GetCommandRecords (lib s) caller page size search host)
  | c_CreateCommandRecord c => reply ACommand (CreateCommandRecord (lib s) c)
  | c_GetCommandsBySession sid => reply (λ l, ACommands l (Z.of_nat (length l))) (GetCommandsBySession (lib s) sid)
  | c_GetStats => reply AStats (GetStats (lib s) caller now)
  | c_GetRecentLogins limit => reply ALogins (GetRecentLogins (lib s) caller limit)
  | c_GetFrequentHosts limit => reply AFrequent (GetFrequentHosts (lib s) caller now limit)
  end.

Definition sessions_api (s : service) : Api call answer := {| handler_of := handler_name; run := sessions_run s |}.

(** ** Who sees what *)

Section facts.
Context `{Crypto} `{Unicode} (s : service).
Notation serve := (Serving.serve (A := sessions_api s)).

Lemma sessions_routed c : handler_name c ∈ handler <$> routes.
Proof.
  apply (bool_decide_eq_true_1 (handler_name c ∈ handler <$> routes)). by destruct c; vm_compute.
Qed.

(** The requests for users, and the others. *)
Definition for_users (c : call) : bool :=
  match c with
  | c_CreateSession _ _ _ _ | c_GetLoginRecords _ _ _ | c_GetStats | c_GetRecentLogins _ | c_GetFrequentHosts _ => true
  | _ => false
  end.
Lemma access_users c : access_of (handler_name c) = if for_users c then Users else Administrators.
Proof. by destruct c; vm_compute. Qed.

Lemma sessions_serve hdr tok now c cl : for_users c = true → Auth.AuthMiddleware hdr tok now = Ok cl →
  serve hdr tok now c = sessions_run s (Some cl) now c.
Proof.
  intros Hc Hm. apply (serve_user (A := sessions_api s)); [apply sessions_routed| |done].
  cbn [handler_of sessions_api]. by rewrite access_users, Hc.
Qed.

Lemma sessions_serve_admin hdr tok now c cl : for_users c = false → Auth.AuthMiddleware hdr tok now = Ok cl →
  Claims.Role cl = admin → serve hdr tok now c = sessions_run s (Some cl) now c.
Proof.
  intros Hc Hm Had. apply (serve_admin (A := sessions_api s)); [apply sessions_routed| |done..].
  cbn [handler_of sessions_api]. by rewrite access_users, Hc.
Qed.

(** *** The audit *)

Definition is_audit (a : answer) : Prop :=
  match a with Nothing | ARecordings _ _ | ARecording _ | ACommands _ _ | ACommand _ => True | _ => False end.
Definition same_audit (db db' : Db) : Prop :=
  session_recordings (aux db) = session_recordings (aux db') ∧ command_records (logs (aux db)) = command_records (logs (aux db')).
#[local] Instance same_audit_pre : PreOrder same_audit.
Proof. split; [done|]. intros x y z [] []. split; congruence. Qed.

Lemma audit_reply {A B} (f : A → B) (m : Http A) : preserves same_audit m → preserves same_audit (reply f m).
Proof. intros Hm. unfold reply. preserves_tac; auto. Qed.

Lemma users_keep_audit caller now c : for_users c = true → preserves same_audit (sessions_run s caller now c).
Proof.
  intros Hu. destruct c; try done; cbn [sessions_run]; apply audit_reply.
  - unfold CreateSession, undecoded, Sessions.CreateSession, FindHostByID, create_login_record. preserves_tac.
    apply preserves_execute; [apply _|]. intros db db'. destruct (existsb _ _); by intros [= <-].
  - unfold GetLoginRecords, or_status, SessionService.GetLoginRecordsByUser, SessionRepository.FindLoginRecordsByUser, count.
    preserves_tac.
  - unfold GetStats, or_status, HostService.GetDashboardStats, HostRepository.CountByStatus, HostService.GetUserDashboardStats,
      HostRepository.CountByStatusForUser, GetAccessibleHostIDsForUser, SessionService.GetRecentLoginsCount,
      SessionRepository.CountRecentLoginsByUser, count. preserves_tac.
  - unfold GetRecentLogins, or_status, SessionService.GetRecentLogins, SessionRepository.GetRecentLoginsByUser. preserves_tac.
  - unfold GetFrequentHosts, or_status, HostService.GetUserFrequentHosts, HostRepository.GetUserFrequentHosts,
      GetAccessibleHostIDsForUser. preserves_tac.
Qed.

Lemma users_no_audit caller now c db f a db' f' : for_users c = true →
  sessions_run s caller now c db f = (Ok a, db', f') → ¬ is_audit a.
Proof. intros Hu Hr. destruct c; try done; cbn [sessions_run] in Hr; apply reply_Ok in Hr as (x & -> & _); exact (λ H, H). Qed.

(** C11: The audit is the administrators': without a token issued to one, no
    request for sessions or for the dashboard is answered with recordings or
    commands or ends a session, and the recordings and the commands stay as they
    are, whichever statements fail. *)
Theorem audit_guarded hdr tok now c db f r db' f' :
  (∀ cl, Auth.AuthMiddleware hdr tok now = Ok cl → Claims.Role cl ≠ admin) →
  serve hdr tok now c db f = (r, db', f') →
  (∀ a, r = Ok a → ¬ is_audit a) ∧
  session_recordings (aux db') = session_recordings (aux db) ∧
  command_records (logs (aux db')) = command_records (logs (aux db)).
Proof.
  intros Hn Hs. destruct (serve_cases (A := sessions_api s) hdr tok now c) as [(caller & Hp & E)|(e & E & _)].
  - rewrite E in Hs. cbn [run sessions_api] in Hs. unfold permitted in Hp. cbn [handler_of sessions_api] in Hp.
    rewrite access_users in Hp. destruct (for_users c) eqn:Hu.
    + split.
      * intros a ->. by eapply users_no_audit.
      * pose proof (preserves_run _ _ _ _ _ _ _ (users_keep_audit caller now c Hu) Hs) as [H1 H2]. by split.
    + destruct Hp as (cl & -> & Hb & Had). by destruct (Hn cl).
  - rewrite E in Hs. injection Hs as <- <- _. by split.
Qed.

(** *** Their own logins *)

Lemma with_types_elem db rows p : p ∈ SessionRepository.with_types db rows →
  p.1 ∈ rows ∧ p.2 ∈ SessionRepository.connection_types db p.1.
Proof.
  unfold SessionRepository.with_types. intros (l & Hp & (r & -> & Hr)%list_elem_of_fmap)%list_elem_of_join.
  apply list_elem_of_fmap in Hp as (c & -> & Hc). done.
Qed.

(** A user, and an administrator too, is shown the user's own logins to hosts
    and nobody else's, each with the kind of connection of its recording, and the
    total counts all of them for the host that was asked for. *)
Theorem own_login_records hdr tok now cl page size hostID db :
  Auth.AuthMiddleware hdr tok now = Ok cl → Claims.UserID cl ≠ [] →
  ∃ l total, serve hdr tok now (c_GetLoginRecords page size hostID) db [] = (Ok (AMyLogins l total), db, []) ∧
    (∀ r kind, (r, kind) ∈ l → r ∈ login_records (aux db) ∧ LoginRecord.UserID r = Claims.UserID cl ∧
       LoginRecord.HostID r ≠ [] ∧ (hostID ≠ [] → LoginRecord.HostID r = hostID) ∧
       (kind = txt "webshell" ∨ ∃ rec, rec ∈ session_recordings (aux db) ∧
          SessionRecording.SessionID rec = LoginRecord.SessionID r ∧ SessionRecording.ConnectionType rec = kind)) ∧
    total = Z.of_nat (length (SessionRepository.login_rows db hostID (Claims.UserID cl))) ∧
    Z.of_nat (length l) <= 100.
Proof.
  intros Hm Hne. rewrite (sessions_serve _ _ _ _ _ (eq_refl : for_users (c_GetLoginRecords page size hostID) = true) Hm).
  eexists _, _. split; [reflexivity|]. cbn [fst snd]. split; [|split; [done|] ].
  - intros r kind Hr%page_elem%with_types_elem. destruct Hr as [Hr Hk]. cbn [fst snd] in *.
    rewrite (merge_sort_Permutation HostRepository.later) in Hr.
    apply elem_of_keep in Hr as [Hr [[Hh Hhost]%andb_prop Hu]%andb_prop].
    unfold SessionRepository.if_given in Hu, Hhost. split; [done|]. split; [|split; [|split]].
    + destruct (Claims.UserID cl); [done|]. by apply text_eqb_true in Hu.
    + intros E. unfold SessionRepository.on_a_host in Hh. by rewrite E in Hh.
    + intros Hg. destruct hostID; [done|]. by apply text_eqb_true in Hhost.
    + unfold SessionRepository.connection_types in Hk. destruct (keep _ _) as [|x l] eqn:Ek.
      * left. by apply list_elem_of_singleton in Hk.
      * right. rewrite <- Ek in Hk. apply list_elem_of_fmap in Hk as (rec & -> & [Hrec He%text_eqb_true]%elem_of_keep).
        by exists rec.
  - unfold page_of. rewrite length_take. unfold clamp_size.
    destruct (Z.ltb_spec size 1), (Z.ltb_spec 100 size); cbn [orb]; lia.
Qed.

(** *** The recordings *)

Lemma hosts_of_run l db : ∃ hs, SessionService.hosts_of l db [] = (Ok hs, db, []) ∧ ∀ h, h ∈ hs → h ∈ hosts db.
Proof.
  unfold SessionService.hosts_of. destruct (is_empty _); [by exists []; split; [|intros h ?%elem_of_nil]|].
  eexists. split; [done|]. by intros h [Hh _]%elem_of_keep.
Qed.

Lemma commands_of_run l db : SessionService.commands_of l db [] =
  (Ok (keep (λ c, is_one_of (SessionRecording.SessionID <$> l) (CommandRecord.SessionID c)) (command_records (logs (aux db)))), db, []).
Proof.
  unfold SessionService.commands_of. destruct l; [|done]. cbn [is_empty fmap list_fmap is_one_of existsb].
  by rewrite keep_none.
Qed.

Lemma keep_implied {A} (p q : A → bool) l : (∀ x, p x = true → q x = true) → keep p (keep q l) = keep p l.
Proof.
  intros H'. induction l as [|x l IH]; [done|]. simpl. destruct (q x) eqn:E; simpl; rewrite IH; [done|].
  destruct (p x) eqn:Ep; [|done]. apply H' in Ep. congruence.
Qed.

(** What the service shows of a row. *)
Definition shows_row (db : Db) (row r : SessionRecording.t) : Prop :=
  SessionRecording.SessionID r = SessionRecording.SessionID row ∧ SessionRecording.Recording r = SessionRecording.Recording row ∧
  SessionRecording.CommandCount r = Z.of_nat (length
    (keep (SessionRepository.of_command_session (SessionRecording.SessionID row)) (command_records (logs (aux db))))) ∧
  (SessionRecording.HostName r = SessionRecording.HostName row ∨
   SessionService.nameless row = true ∧ ∃ h, h ∈ hosts db ∧ Host.ID h = SessionRecording.HostID row ∧
     SessionRecording.HostName r = Host.Name h).

(** The recordings an administrator is shown are rows of the table with the
    number of commands that the log holds for their sessions, whatever the column
    says, and a missing name, or one that is the address, is the host's. *)
Theorem recordings_counted hdr tok now cl page size search db :
  Auth.AuthMiddleware hdr tok now = Ok cl → Claims.Role cl = admin →
  ∃ l total, serve hdr tok now (c_GetSessionRecordings page size search) db [] = (Ok (ARecordings l total), db, []) ∧
    Z.of_nat (length l) <= total ∧
    ∀ r, r ∈ l → ∃ row, row ∈ session_recordings (aux db) ∧ shows_row db row r.
Proof.
  intros Hm Had.
  rewrite (sessions_serve_admin _ _ _ (c_GetSessionRecordings page size search) _ eq_refl Hm Had).
  cbn [sessions_run]. unfold reply, GetSessionRecordings, is_admin. rewrite Had, text_eqb_refl.
  unfold or_status, or_fail, SessionService.GetSessionRecordings. set (rows := λ db : Db, merge_sort _ _).
  set (p := page_of (clamp_page page) (clamp_size size) (rows db)).
  assert (page_counted rows (clamp_page page) (clamp_size size) db [] = (Ok (p, Z.of_nat (length (rows db))), db, [])) as E by done.
  destruct (hosts_of_run p db) as (hs & Ehs & Hhs).
  rewrite bind_run, bind_run, E. cbv zeta. cbn [fst snd]. rewrite bind_run, Ehs, bind_run, commands_of_run. cbn [map_err].
  eexists _, _. split; [reflexivity|]. cbn [fst snd]. split.
  - rewrite !length_fmap. unfold p, page_of. rewrite length_take, length_drop. lia.
  - set (commands := keep _ _). intros r (r1 & -> & (row & -> & Hrow)%list_elem_of_fmap)%list_elem_of_fmap.
    exists row. split.
    { apply page_elem in Hrow. unfold rows in Hrow. rewrite (merge_sort_Permutation SessionRepository.started_after) in Hrow.
      by apply elem_of_keep in Hrow as [? _]. }
    assert (SessionRecording.SessionID (SessionService.named_host hs row) = SessionRecording.SessionID row) as Es.
    { unfold SessionService.named_host. destruct (SessionService.nameless row); [|done]. by destruct (keep _ hs). }
    split; [exact Es|]. split; [|split].
    + unfold SessionService.named_host. destruct (SessionService.nameless row); [|done]. by destruct (keep _ hs).
    + cbn [SessionRecording.CommandCount SessionService.counted SessionRecording.set_count]. rewrite Es. do 2 f_equal.
      apply keep_implied. intros c Hc%text_eqb_true. apply existsb_elem. exists (SessionRecording.SessionID row).
      split; [|by apply text_eqb_true]. apply list_elem_of_fmap. exists (SessionService.named_host hs row).
      split; [done|]. apply list_elem_of_fmap. eauto.
    + unfold SessionService.named_host. destruct (SessionService.nameless row) eqn:En; [|by left].
      destruct (keep _ hs) as [|h l] eqn:Ek; [by left|]. right. split; [done|].
      apply keep_head in Ek as [Hh He%text_eqb_true]. exists h. by split; [apply Hhs|].
Qed.

(** *** Ending a session *)

(** The recording the service would find is closed. *)
Definition closed_recording (db : Db) (sid : text) : Prop :=
  ∃ r l, keep (λ r, text_eqb (SessionRecording.SessionID r) sid) (session_recordings (aux db)) = r :: l ∧
         SessionRecording.Status r = txt "closed".

Lemma terminate_closes ag sid now db f db' f' :
  Sessions.TerminateSession (err_text (lib s)) ag sid now db f = (Ok (), db', f') → closed_recording db' sid.
Proof.
  unfold Sessions.TerminateSession. intros (rec & db1 & f1 & Hrec%or_fail_Ok & Hr)%bind_Ok.
  apply first_keep_Ok in Hrec as (Hrec & Hsid & ->). destruct (negb _); [done|].
  apply bind_Ok in Hr as (x & db2 & f2 & Hag & Hr). cbv zeta in Hr.
  assert (db2 = db) as ->.
  { eapply reads_run; [|exact Hag]. unfold FindProxyInfoByID. preserves_tac. }
  apply bind_Ok in Hr as ([] & db3 & f3 & Hup%or_fail_Ok & Hr). apply execute_Ok in Hup. injection Hup as <-.
  apply bind_Ok in Hr as (o & db4 & f4 & Hlog & Hr). injection Hr as <- _.
  set (db2 := set_session_recordings db _) in Hlog.
  assert (session_recordings (aux db2) = session_recordings (aux db4)) as E.
  { refine (preserves_run (λ a b, session_recordings (aux a) = session_recordings (aux b)) _ _ _ _ _ _ _ Hlog).
    assert (PreOrder (λ a b, session_recordings (aux a) = session_recordings (aux b))) by (split; [done|intros a b c; congruence]).
    apply preserves_attempt. apply preserves_execute; [apply _|]. by intros db5 db6 [= <-]. }
  unfold closed_recording. rewrite <- E. unfold db2. cbn [session_recordings aux set_session_recordings set_aux].
  rewrite keep_updated by done.
  destruct (keep _ (session_recordings (aux db))) as [|r l] eqn:Ek; [|by eexists _, _].
  assert (rec ∈ keep (λ r, text_eqb (SessionRecording.SessionID r) sid) (session_recordings (aux db))) as Hin
    by by apply elem_of_keep. rewrite Ek in Hin. by apply elem_of_nil in Hin.
Qed.

Lemma terminate_refused ag sid now db : closed_recording db sid →
  Sessions.TerminateSession (err_text (lib s)) ag sid now db [] = (Err (txt "会话已结束，无需终止"), db, []).
Proof.
  intros (r & l & E & Hst). unfold Sessions.TerminateSession, or_fail, first, query. rewrite bind_run, E. cbn [map_err].
  rewrite Hst. assert (text_eqb (txt "closed") (txt "active") = false) as -> by (vm_compute; reflexivity). done.
Qed.

(** A session is ended once: the request that ends it leaves its recording
    closed, whatever its agent answered before and whichever later statement
    failed, and the next request is refused and changes nothing. *)
Theorem terminated_once hdr tok now sid db f a db' f' hdr2 tok2 now2 cl :
  serve hdr tok now (c_TerminateSession sid) db f = (Ok a, db', f') →
  Auth.AuthMiddleware hdr2 tok2 now2 = Ok cl → Claims.Role cl = admin →
  closed_recording db' sid ∧
  serve hdr2 tok2 now2 (c_TerminateSession sid) db' [] = (Err (500, txt "会话已结束，无需终止"), db', []).
Proof.
  intros Hs Hm Had. apply (served_Ok (A := sessions_api s)) in Hs as (caller & Hr). cbn [run sessions_api sessions_run] in Hr.
  apply reply_Ok in Hr as ([] & _ & Hr). unfold TerminateSession in Hr. apply or_fail_Ok, terminate_closes in Hr.
  split; [exact Hr|]. rewrite (sessions_serve_admin _ _ _ (c_TerminateSession sid) _ eq_refl Hm Had). cbn [sessions_run].
  unfold reply, TerminateSession, or_fail. by rewrite bind_run, (terminate_refused _ _ _ _ Hr).
Qed.

(** *** Starting one *)

(** Any user may have a token for any host there is: no rule is asked for.  The
    token is good for five minutes and names the host and the user. *)
Theorem session_for_any_host hdr tok now cl hostID sid rid token db h t :
  Auth.AuthMiddleware hdr tok now = Ok cl → h ∈ hosts db → Host.ID h = hostID → hostID ≠ [] →
  (∀ r, r ∈ login_records (aux db) → LoginRecord.ID r ≠ rid) → t <= now + five_minutes →
  ∃ resp tokens' db', serve hdr tok now (c_CreateSession hostID sid rid token) db [] = (Ok (ASession resp tokens'), db', []) ∧
    ∃ info, (ValidateSessionToken tokens' token t).1 = Ok info ∧ SessionToken.HostID info = hostID ∧
      SessionToken.UserID info = Claims.UserID cl.
Proof.
  intros Hm Hh Hid Hne Hfresh Ht.
  rewrite (sessions_serve _ _ _ _ _ (eq_refl : for_users (c_CreateSession hostID sid rid token) = true) Hm).
  cbn [sessions_run]. unfold reply, CreateSession. assert (is_empty hostID = false) as -> by by destruct hostID.
  unfold Sessions.CreateSession, or_fail. rewrite bind_run, bind_run. unfold FindHostByID, first, query.
  destruct (keep (λ h, text_eqb (Host.ID h) hostID) (hosts db)) as [|h1 l] eqn:Ek.
  { assert (h ∈ keep (λ h, text_eqb (Host.ID h) hostID) (hosts db)) as Hin
      by (apply elem_of_keep; split; [done|]; rewrite Hid; apply text_eqb_refl).
    rewrite Ek in Hin. by apply elem_of_nil in Hin. }
  cbn [map_err list.tail]. rewrite bind_run. unfold create_login_record, execute. cbn [LoginRecord.ID].
  assert (existsb (λ q, text_eqb (LoginRecord.ID q) rid) (login_records (aux db)) = false) as ->.
  { apply existsb_none. intros r Hr. by apply text_eqb_false, Hfresh. }
  cbn [map_err]. eexists _, _, _. split; [reflexivity|]. cbn [snd]. unfold ValidateSessionToken.
  match goal with |- context [?m !! token] => assert (m !! token = Some (session_token hostID (Claims.UserID cl) token now))
    as -> by (apply lookup_insert_Some; by left) end.
  destruct (Z.ltb_spec (SessionToken.ExpiresAt (session_token hostID (Claims.UserID cl) token now)) t) as [Hlt|_].
  - cbn [SessionToken.ExpiresAt session_token] in Hlt. lia.
  - eexists. split; [reflexivity|]. by split.
Qed.

(** *** The dashboard *)

Lemma status_counts {A} (p : A → bool) (on off : A → bool) l :
  (∀ x, on x = true → off x = true → False) →
  (length (keep (λ x, p x && on x) l) + length (keep (λ x, p x && off x) l) ≤ length (keep p l))%nat.
Proof.
  intros Hd. induction l as [|x l IH]; simpl; [done|].
  specialize (Hd x). destruct (p x), (on x), (off x); simpl; lia.
Qed.

Lemma on_off (h : Host.t) : HostRepository.of_status "online" h = true → HostRepository.of_status "offline" h = true → False.
Proof.
  unfold HostRepository.of_status. intros E1%text_eqb_true E2%text_eqb_true. rewrite E1 in E2.
  assert (text_eqb (txt "online") (txt "offline") = false) as E by (vm_compute; reflexivity).
  rewrite E2, text_eqb_refl in E. done.
Qed.

Lemma stats_run now cl db ids : GetAccessibleHostIDsForUser (JSON_EXTRACT (lib s)) now (Claims.UserID cl) db [] = (Ok ids, db, []) →
  let of_all := λ h, text_eqb (Claims.Role cl) admin || HostRepository.among ids h in
  ∃ total on off, (if text_eqb (Claims.Role cl) admin then HostService.GetDashboardStats
      else HostService.GetUserDashboardStats (JSON_EXTRACT (lib s)) now (Claims.UserID cl)) db [] =
    (Ok (HostService.stats_of (total, on, off)), db, []) ∧
    total = Z.of_nat (length (keep of_all (hosts db))) ∧ 0 <= on ∧ 0 <= off ∧ on + off <= total.
Proof.
  intros Hids of_all. set (n p := Z.of_nat (length (keep p (hosts db)))).
  assert (n (λ h, of_all h && HostRepository.of_status "online" h) +
          n (λ h, of_all h && HostRepository.of_status "offline" h) <= n of_all) as Hle.
  { unfold n. pose proof (status_counts of_all _ _ (hosts db) on_off). lia. }
  unfold of_all in *. destruct (text_eqb (Claims.Role cl) admin); cbn [orb andb] in *.
  - exists (Z.of_nat (length (hosts db))), (n (λ h, HostRepository.of_status "online" h)),
      (n (λ h, HostRepository.of_status "offline" h)).
    unfold n in *. rewrite (keep_id (λ _ : Host.t, true) (hosts db)) in Hle |- * by by apply Forall_true. split; [reflexivity|]. split; [done|]. split_and!; lia.
  - unfold HostService.GetUserDashboardStats, HostRepository.CountByStatusForUser.
    exists (n (λ h, HostRepository.among ids h)), (n (λ h, HostRepository.among ids h && HostRepository.of_status "online" h)),
      (n (λ h, HostRepository.among ids h && HostRepository.of_status "offline" h)).
    unfold n in *. split; [|split_and!; lia]. rewrite bind_run, bind_run, Hids.
    destruct ids as [|i ids]; [|reflexivity]. cbn [is_empty]. by rewrite !keep_none.
Qed.

(** The dashboard of an administrator counts every host, that of a user the
    hosts the user may access; those that are up and those that are down are
    among them, and the logins of the last day are the caller's own. *)
Theorem dashboard_counts hdr tok now cl db : Auth.AuthMiddleware hdr tok now = Ok cl → Claims.UserID cl ≠ [] →
  ∃ st ids, serve hdr tok now c_GetStats db [] = (Ok (AStats st), db, []) ∧
    GetAccessibleHostIDsForUser (JSON_EXTRACT (lib s)) now (Claims.UserID cl) db [] = (Ok ids, db, []) ∧
    DashboardStats.TotalHosts st = Z.of_nat (length (keep (λ h, text_eqb (Claims.Role cl) admin || HostRepository.among ids h)
                                                          (hosts db))) ∧
    0 <= DashboardStats.OnlineHosts st ∧ 0 <= DashboardStats.OfflineHosts st ∧
    DashboardStats.OnlineHosts st + DashboardStats.OfflineHosts st <= DashboardStats.TotalHosts st ∧
    DashboardStats.RecentLogins st = Z.of_nat (length (keep (λ r, (now - 24 * hour <=? LoginRecord.LoginTime r) &&
      text_eqb (LoginRecord.UserID r) (Claims.UserID cl)) (login_records (aux db)))).
Proof.
  intros Hm Hne. rewrite (sessions_serve _ _ _ c_GetStats _ eq_refl Hm). cbn [sessions_run].
  destruct (accessible_run (lib s) now (Claims.UserID cl) db) as (ids & Hids).
  destruct (stats_run now cl db ids Hids) as (total & on & off & E & Ht & H1 & H2 & H3).
  unfold reply, GetStats, or_status, or_fail. rewrite bind_run, bind_run, E. cbn [map_err].
  eexists _, ids. split; [reflexivity|]. split; [exact Hids|]. cbn. split; [exact Ht|]. split_and!; [done..|].
  do 2 f_equal. apply keep_ext. intros r. unfold SessionRepository.since, SessionRepository.if_given.
  by destruct (Claims.UserID cl).
Qed.
End facts.

(** ** Examples *)

Definition plain_service : service :=
  {| lib := HostsApi.plain_library; tokens := ∅; call_agent := λ _ _, Ok 200 |}.
Definition user_asks (c : call) (db : Db) := Serving.serve (A := sessions_api plain_service) bob_bearer [] 6 c db [].
Definition root_asks (c : call) (db : Db) := Serving.serve (A := sessions_api plain_service) root_bearer [] 6 c db [].

(** The hosts of the sample tables with a session on the second. *)
Definition open_recording : SessionRecording.t :=
  {| SessionRecording.ID := txt "rec"; SessionRecording.SessionID := txt "l2";
     SessionRecording.ConnectionType := txt "ssh_gateway"; SessionRecording.ProxyID := [];
     SessionRecording.UserID := txt "u1"; SessionRecording.HostID := txt "h2"; SessionRecording.HostName := [];
     SessionRecording.HostIP := txt "10.0.0.2"; SessionRecording.Username := txt "bob"; SessionRecording.StartTime := 4;
     SessionRecording.EndTime := None; SessionRecording.Duration := []; SessionRecording.Status := txt "active";
     SessionRecording.Recording := []; SessionRecording.CommandCount := 7 |}.
Definition recorded_db : Db :=
  set_command_records (set_session_recordings three_hosts [open_recording])
    [{| CommandRecord.ID := 1; CommandRecord.ProxyID := []; CommandRecord.SessionID := txt "l2";
        CommandRecord.HostID := txt "h2"; CommandRecord.UserID := txt "u1"; CommandRecord.Username := txt "bob";
        CommandRecord.HostIP := txt "10.0.0.2"; CommandRecord.Command := txt "ls"; CommandRecord.Output := [];
        CommandRecord.ExitCode := 0; CommandRecord.ExecutedAt := 5; CommandRecord.DurationMs := 1 |}].

Lemma audit_guarded_witness :
  let db' := after (user_asks (c_TerminateSession (txt "l2")) recorded_db) in
  session_recordings (aux db') = session_recordings (aux recorded_db) ∧
  command_records (logs (aux db')) = command_records (logs (aux recorded_db)).
Proof.
  unfold after. destruct (user_asks (c_TerminateSession (txt "l2")) recorded_db) as [ [r db'] f'] eqn:E.
  refine (proj2 (audit_guarded plain_service bob_bearer [] 6 _ _ _ _ _ _ _ E)).
  intros cl Hcl. assert (Auth.AuthMiddleware bob_bearer [] 6 = Ok (claims_of bob2 5)) as E'
    by (vm_compute; reflexivity). rewrite E' in Hcl. injection Hcl as <-. vm_compute. discriminate.
Defined.

Lemma own_login_records_witness :
  ∃ l, user_asks (c_GetLoginRecords 1 10 (txt "h2")) recorded_db = (Ok (AMyLogins l 2), recorded_db, []) ∧
    snd <$> l = [txt "webshell"; txt "ssh_gateway"].
Proof.
  destruct (own_login_records plain_service bob_bearer [] 6 (claims_of bob2 5) 1 10 (txt "h2") recorded_db)
    as (l & total & E & _ & Ht & _).
  - vm_compute. reflexivity.
  - vm_compute. discriminate.
  - exists l. assert (total = 2) as -> by (rewrite Ht; vm_compute; reflexivity). split; [exact E|].
    assert (match res (user_asks (c_GetLoginRecords 1 10 (txt "h2")) recorded_db) with
            | Ok (AMyLogins l _) => snd <$> l = [txt "webshell"; txt "ssh_gateway"]
            | _ => False
            end) as E' by (vm_compute; reflexivity).
    unfold user_asks in E'. rewrite E in E'. exact E'.
Defined.

(** The column says seven commands, the log has one. *)
Lemma recordings_counted_witness :
  ∃ l total, root_asks (c_GetSessionRecordings 1 10 []) recorded_db = (Ok (ARecordings l total), recorded_db, []) ∧
    (λ r, (SessionRecording.HostName r, SessionRecording.CommandCount r)) <$> l = [(txt "h2", 1)].
Proof.
  destruct (recordings_counted plain_service root_bearer [] 6 root_claims 1 10 [] recorded_db) as (l & total & E & _).
  - vm_compute. reflexivity.
  - reflexivity.
  - exists l, total. split; [exact E|].
    assert (match res (root_asks (c_GetSessionRecordings 1 10 []) recorded_db) with
            | Ok (ARecordings l _) =>
                (λ r, (SessionRecording.HostName r, SessionRecording.CommandCount r)) <$> l = [(txt "h2", 1)]
            | _ => False
            end) as E' by (vm_compute; reflexivity).
    unfold root_asks in E'. rewrite E in E'. exact E'.
Defined.

Lemma terminated_once_witness :
  let db' := after (root_asks (c_TerminateSession (txt "l2")) recorded_db) in
  root_asks (c_TerminateSession (txt "l2")) db' = (Err (500, txt "会话已结束，无需终止"), db', []).
Proof.
  intros db'.
  assert (root_asks (c_TerminateSession (txt "l2")) recorded_db = (Ok Nothing, db', [])) as E by (vm_compute; reflexivity).
  refine (proj2 (terminated_once plain_service root_bearer [] 6 (txt "l2") _ _ _ _ _ root_bearer [] 6 root_claims E _ _)).
  - vm_compute. reflexivity.
  - reflexivity.
Defined.

(** The rules give the user nothing, and a token for the host is issued. *)
Lemma session_for_any_host_witness :
  ∃ resp tokens' db', user_asks (c_CreateSession (txt "h9") (txt "s") (txt "r") (txt "tok"))
    (set_hosts empty_db [named "h9" "10.0.0.9"]) = (Ok (ASession resp tokens'), db', []) ∧
    ∃ info, (ValidateSessionToken tokens' (txt "tok") 100).1 = Ok info ∧ SessionToken.HostID info = txt "h9" ∧
      SessionToken.UserID info = txt "u1".
Proof.
  apply (session_for_any_host plain_service bob_bearer [] 6 (claims_of bob2 5) (txt "h9") (txt "s") (txt "r") (txt "tok")
           (set_hosts empty_db [named "h9" "10.0.0.9"]) (named "h9" "10.0.0.9") 100).
  - vm_compute. reflexivity.
  - left.
  - reflexivity.
  - discriminate.
  - intros r []%elem_of_nil.
  - unfold five_minutes. lia.
Defined.

Lemma dashboard_counts_witness :
  ∃ st, user_asks c_GetStats recorded_db = (Ok (AStats st), recorded_db, []) ∧ DashboardStats.TotalHosts st = 3.
Proof.
  destruct (dashboard_counts plain_service bob_bearer [] 6 (claims_of bob2 5) recorded_db) as (st & ids & E & _).
  - vm_compute. reflexivity.
  - vm_compute. discriminate.
  - exists st. split; [exact E|].
    assert (match res (user_asks c_GetStats recorded_db) with Ok (AStats st) => DashboardStats.TotalHosts st = 3 | _ => False end)
      as E' by (vm_compute; reflexivity).
    unfold user_asks in E'. rewrite E in E'. exact E'.
Defined.
