(* ===== verification/AgentApi.v ===== *)
(** * What the agents report

    The handlers of [internal/api/handler/proxy_handler.go] that take the sessions
    and commands of the agents, one at a time and in batches, with the client of
    [internal/bastion/client/api_client.go].  Their routes ask for nothing.  An
    object of a batch is a map from names to JSON values; [time.Parse] is a
    parameter.  A lookup for [FirstOrCreate] is for the primary key too: gorm adds
    the key of the row it is given, unless it is empty. *)

From stdpp Require Import base list strings gmap sorting.
From Stdlib Require Import ZArith Lia.
From S2P Require Import Prelude GoStrings Gorm Models Database Repositories Sessions Accounts Auth TwoFactor Proxies AuditTrail Routes AuthApi Serving AccessApi Hosts HostsApi SessionsApi.
Local Open Scope Z_scope.

(** ** Rows that are created once *)

Definition FirstOrCreate {A} (rows : Db → list A) (same : A → bool) (create : DB unit) (row : A) : DB A :=
  found ← find (λ db, keep same (rows db));
  match found with x :: _ => mret x | [] => create ;; mret row end.

Definition recording_or_create (r : SessionRecording.t) : DB SessionRecording.t :=
  FirstOrCreate (λ db, session_recordings (aux db))
    (λ q, text_eqb (SessionRecording.SessionID q) (SessionRecording.SessionID r) &&
          (is_empty (SessionRecording.ID r) || text_eqb (SessionRecording.ID q) (SessionRecording.ID r)))
    (create_recording r) r.
Definition login_or_create (r : LoginRecord.t) : DB LoginRecord.t :=
  FirstOrCreate (λ db, login_records (aux db))
    (λ q, text_eqb (LoginRecord.SessionID q) (LoginRecord.SessionID r) &&
          text_eqb (LoginRecord.ID q) (LoginRecord.ID r))
    (create_login_record r) r.
Definition running : text := txt "进行中".

(** ** One at a time *)

Module SessionReport.
Record t := { SessionID : text; HostID : text; UserID : text; Username : text; HostIP : text; Status : text; StartTime : Z }.
End SessionReport.

Definition reported_recording (proxyID : text) (s : SessionReport.t) : SessionRecording.t :=
  {| SessionRecording.ID := SessionReport.SessionID s; SessionRecording.SessionID := SessionReport.SessionID s;
     SessionRecording.ConnectionType := txt "webshell"; SessionRecording.ProxyID := proxyID;
     SessionRecording.UserID := SessionReport.UserID s; SessionRecording.HostID := SessionReport.HostID s;
     SessionRecording.HostName := []; SessionRecording.HostIP := SessionReport.HostIP s;
     SessionRecording.Username := SessionReport.Username s; SessionRecording.StartTime := SessionReport.StartTime s;
     SessionRecording.EndTime := None; SessionRecording.Duration := running;
     SessionRecording.Status := or_default (SessionReport.Status s) "active"; SessionRecording.Recording := [];
     SessionRecording.CommandCount := 0 |}.
Definition login_key (sessionID : text) : text := sessionID ++ txt "-login".
(** What the row says, found or created; the user is the request's. *)
Definition reported_login (userID : text) (r : SessionRecording.t) : LoginRecord.t :=
  {| LoginRecord.ID := login_key (SessionRecording.SessionID r); LoginRecord.UserID := userID;
     LoginRecord.HostID := SessionRecording.HostID r; LoginRecord.HostName := SessionRecording.HostName r;
     LoginRecord.HostIP := SessionRecording.HostIP r; LoginRecord.Username := SessionRecording.Username r;
     LoginRecord.LoginIP := []; LoginRecord.LoginTime := SessionRecording.StartTime r; LoginRecord.LogoutTime := None;
     LoginRecord.Duration := None; LoginRecord.Status := txt "active"; LoginRecord.SessionID := SessionRecording.SessionID r |}.

(** The name of the agent is required; [None] is a body that does not decode. *)
Definition named_agent (proxyID : text) : bool := negb (is_empty proxyID).
Definition ReportSession (req : option (text * SessionReport.t)) : Http text :=
  match req with
  | Some (proxyID, s) =>
      if named_agent proxyID then
        recording ← answering 500 "Failed to save session" (recording_or_create (reported_recording proxyID s));
        _ ← attempt (login_or_create (reported_login (SessionReport.UserID s) recording));
        mret (SessionRecording.SessionID recording)
      else undecoded
  | None => undecoded
  end.

Definition closed_history (endTime : Z) (recording : text) (h : SessionHistory.t) : SessionHistory.t :=
  {| SessionHistory.ID := SessionHistory.ID h; SessionHistory.ProxyID := SessionHistory.ProxyID h;
     SessionHistory.SessionID := SessionHistory.SessionID h; SessionHistory.HostID := SessionHistory.HostID h;
     SessionHistory.UserID := SessionHistory.UserID h; SessionHistory.Username := SessionHistory.Username h;
     SessionHistory.HostIP := SessionHistory.HostIP h; SessionHistory.StartTime := SessionHistory.StartTime h;
     SessionHistory.EndTime := Some endTime; SessionHistory.Status := txt "closed"; SessionHistory.Recording := recording |}.
Definition CloseSession (sessionID : text) (req : option (text * text * Z)) : Http text :=
  match req with
  | Some (proxyID, recording, endTime) =>
      if named_agent proxyID then
        _ ← answering 500 "Failed to close session" (execute (λ db, Ok (set_session_histories db
              (updated (λ h, text_eqb (SessionHistory.SessionID h) sessionID && text_eqb (SessionHistory.ProxyID h) proxyID)
                 (closed_history endTime recording) <$> session_histories (logs (aux db))))));
        mret sessionID
      else undecoded
  | None => undecoded
  end.

Definition from_agent (proxyID : text) (c : CommandRecord.t) : CommandRecord.t :=
  {| CommandRecord.ID := 0; CommandRecord.ProxyID := proxyID; CommandRecord.SessionID := CommandRecord.SessionID c;
     CommandRecord.HostID := CommandRecord.HostID c; CommandRecord.UserID := CommandRecord.UserID c;
     CommandRecord.Username := CommandRecord.Username c; CommandRecord.HostIP := CommandRecord.HostIP c;
     CommandRecord.Command := CommandRecord.Command c; CommandRecord.Output := CommandRecord.Output c;
     CommandRecord.ExitCode := CommandRecord.ExitCode c; CommandRecord.ExecutedAt := CommandRecord.ExecutedAt c;
     CommandRecord.DurationMs := 0 |}.
(** [command_count + n] for the recordings of a session. *)
Definition count_commands (sessionID : text) (n : Z) : DB unit := update_recordings sessionID (λ r,
  SessionRecording.set_count r (SessionRecording.CommandCount r + n)).
Definition ReportCommand (req : option (text * CommandRecord.t)) : Http Z :=
  match req with
  | Some (proxyID, c) =>
      if named_agent proxyID then
        row ← answering 500 "Failed to save command" (SessionRepository.CreateCommandRecord (from_agent proxyID c));
        _ ← attempt (count_commands (CommandRecord.SessionID c) 1);
        mret (CommandRecord.ID row)
      else undecoded
  | None => undecoded
  end.

(** ** In batches *)

(** A JSON value: a text, a number as [int] truncates it, or another. *)
Inductive json := JText (s : text) | JNumber (n : Z) | JOther.
Definition item : Type := gmap string json.
Definition text_at (i : item) (name : string) : text := match i !! name with Some (JText s) => s | _ => [] end.
Definition number_at (i : item) (name : string) : Z := match i !! name with Some (JNumber n) => n | _ => 0 end.

Section batches.
Context (parse_time : string → text → option Z).

Definition formats : list string :=
  ["2006-01-02T15:04:05Z07:00"; "2006-01-02T15:04:05.999999999Z07:00"; "2006-01-02 15:04:05.999999-07:00";
   "2006-01-02 15:04:05-07:00"; "2006-01-02T15:04:05Z07:00"]%string.
(** The first format that fits. *)
Definition time_of (s : text) : option Z := head (omap (λ format, parse_time format s) formats).
(** A time that is not there is the zero time; one that does not parse ends the
    request. *)
Definition time_at (i : item) (name : string) (message : string) : result (Z * text) Z :=
  match i !! name with
  | Some (JText s) => match time_of s with Some t => Ok t | None => Err (400, txt message ++ s) end
  | _ => Ok WebShellStorageAdapter.zero_time
  end.

Definition end_time (i : item) : result (Z * text) (option Z) :=
  match i !! "end_time"%string with
  | Some (JText s) =>
      if is_empty s then Ok None
      else match time_of s with Some t => Ok (Some t) | None => Err (400, txt "Invalid end_time format: " ++ s) end
  | _ => Ok None
  end.
Definition parse_session (proxyID : text) (i : item) : result (Z * text) SessionRecording.t :=
  match time_at i "start_time" "Invalid start_time format: ", end_time i with
  | Err e, _ | _, Err e => Err e
  | Ok start, Ok finish => Ok
      {| SessionRecording.ID := text_at i "session_id"; SessionRecording.SessionID := text_at i "session_id";
         SessionRecording.ConnectionType := txt "webshell"; SessionRecording.ProxyID := proxyID;
         SessionRecording.UserID := text_at i "user_id"; SessionRecording.HostID := text_at i "host_id";
         SessionRecording.HostName := []; SessionRecording.HostIP := text_at i "host_ip";
         SessionRecording.Username := text_at i "username"; SessionRecording.StartTime := start;
         SessionRecording.EndTime := finish;
         SessionRecording.Duration := match finish with Some e => duration_text (e - start) | None => running end;
         SessionRecording.Status := text_at i "status"; SessionRecording.Recording := text_at i "recording";
         SessionRecording.CommandCount := 0 |}
  end.
Definition valid_session (r : SessionRecording.t) : bool :=
  negb (is_empty (SessionRecording.SessionID r)) && negb (SessionRecording.StartTime r =? WebShellStorageAdapter.zero_time).

(** The rows of a batch, in order; the first value that is refused ends it. *)
Fixpoint parse_all {A} (parse : item → result (Z * text) A) (valid : A → bool) (data : list item)
    : result (Z * text) (list A) :=
  match data with
  | [] => Ok []
  | i :: data =>
      match parse i with
      | Err e => Err e
      | Ok x => match parse_all parse valid data with
                | Err e => Err e
                | Ok l => Ok (if valid x then x :: l else l)
                end
      end
  end.

(** What is written of a row: an empty status gets its default. *)
Definition stored_recording (r : SessionRecording.t) : SessionRecording.t :=
  SessionRecording.set_status r (or_default (SessionRecording.Status r) "active").
Definition synced_login (r : SessionRecording.t) : LoginRecord.t :=
  {| LoginRecord.ID := login_key (SessionRecording.SessionID r); LoginRecord.UserID := SessionRecording.UserID r;
     LoginRecord.HostID := SessionRecording.HostID r; LoginRecord.HostName := SessionRecording.HostName r;
     LoginRecord.HostIP := SessionRecording.HostIP r; LoginRecord.Username := SessionRecording.Username r;
     LoginRecord.LoginIP := []; LoginRecord.LoginTime := SessionRecording.StartTime r;
     LoginRecord.LogoutTime := SessionRecording.EndTime r;
     LoginRecord.Duration := (λ e, e - SessionRecording.StartTime r) <$> SessionRecording.EndTime r;
     LoginRecord.Status := or_default (SessionRecording.Status r) "active"; LoginRecord.SessionID := SessionRecording.SessionID r |}.
(** The errors are ignored. *)
Definition ignoring {A} (m : DB A) : Http unit := _ ← attempt m; mret ().
Definition SyncSessions (req : option (text * list item)) : Http Z :=
  match req with
  | Some (proxyID, data) =>
      if named_agent proxyID then
        match parse_all (parse_session proxyID) valid_session data with
        | Err e => raise e
        | Ok sessions =>
            _ ← for_each (λ s, ignoring (recording_or_create (stored_recording s))) sessions;
            _ ← for_each (λ s, ignoring (login_or_create (synced_login s))) sessions;
            mret (Z.of_nat (length sessions))
        end
      else undecoded
  | None => undecoded
  end.

Definition parse_command (i : item) : result (Z * text) CommandRecord.t :=
  match time_at i "executed_at" "Invalid executed_at format: " with
  | Err e => Err e
  | Ok t => Ok
      {| CommandRecord.ID := 0; CommandRecord.ProxyID := text_at i "proxy_id";
         CommandRecord.SessionID := text_at i "session_id"; CommandRecord.HostID := text_at i "host_id";
         CommandRecord.UserID := text_at i "user_id"; CommandRecord.Username := text_at i "username";
         CommandRecord.HostIP := text_at i "host_ip"; CommandRecord.Command := text_at i "command";
         CommandRecord.Output := text_at i "output"; CommandRecord.ExitCode := number_at i "exit_code";
         CommandRecord.ExecutedAt := t; CommandRecord.DurationMs := number_at i "duration_ms" |}
  end.
Definition valid_command (c : CommandRecord.t) : bool := negb (CommandRecord.ExecutedAt c =? WebShellStorageAdapter.zero_time).

(** [CreateInBatches]: one statement for a hundred rows, all in a transaction. *)
Fixpoint numbered (id : Z) (l : list CommandRecord.t) : list CommandRecord.t :=
  match l with [] => [] | c :: l => SessionRepository.with_key c id :: numbered (id + 1) l end.
Definition insert_commands (l : list CommandRecord.t) : DB unit := execute (λ db,
  let rows := command_records (logs (aux db)) in
  Ok (set_command_records db (rows ++ numbered (next_id CommandRecord.ID rows) l))).
Fixpoint chunks {A} (fuel size : nat) (l : list A) : list (list A) :=
  match fuel, l with
  | S fuel, _ :: _ => take size l :: chunks fuel size (drop size l)
  | _, _ => []
  end.
Definition CreateInBatches (l : list CommandRecord.t) (size : nat) : DB unit :=
  Transaction (for_each insert_commands (chunks (length l) size l)).
Definition of_session_count (l : list CommandRecord.t) (sessionID : text) : Z :=
  Z.of_nat (length (keep (SessionRepository.of_command_session sessionID) l)).
Definition SyncCommands (req : option (text * list item)) : Http Z :=
  match req with
  | Some (proxyID, data) =>
      if named_agent proxyID then
        match parse_all parse_command valid_command data with
        | Err e => raise e
        | Ok commands =>
            if is_empty commands then mret 0
            else
              _ ← answering 500 "Failed to sync commands" (CreateInBatches commands 100);
              _ ← for_each (λ sid, ignoring (count_commands sid (of_session_count commands sid)))
                    (remove_dups (CommandRecord.SessionID <$> commands));
              mret (Z.of_nat (length commands))
        end
      else undecoded
  | None => undecoded
  end.
End batches.

(** ** For the administrators *)

(** [ORDER BY created_at DESC]: rows are created at the end. *)
Definition ListProxies : Http (list Proxy.t) := answering 500 "Failed to list proxies" (find (λ db, newest_first (proxies db))).
Module ProxyStats.
Record t := { TotalSessions : Z; ActiveSessions : Z; TotalCommands : Z }.
End ProxyStats.
Definition GetProxyStats (proxyID : text) : Http ProxyStats.t :=
  total ← attempt (count (λ db, keep (λ h, text_eqb (SessionHistory.ProxyID h) proxyID) (session_histories (logs (aux db)))));
  act ← attempt (count (λ db, keep (λ h, text_eqb (SessionHistory.ProxyID h) proxyID &&
                                         text_eqb (SessionHistory.Status h) (txt "active"))
                                   (session_histories (logs (aux db)))));
  commands ← attempt (count (λ db, keep (λ c, text_eqb (CommandRecord.ProxyID c) proxyID) (command_records (logs (aux db)))));
  mret {| ProxyStats.TotalSessions := default 0 total; ProxyStats.ActiveSessions := default 0 act;
          ProxyStats.TotalCommands := default 0 commands |}.

(** ** The client of the agent *)

Module ApiClient.
(** [post]: an error unless the answer arrives and is 200. *)
Definition post {A} (d : delivery) (request : Http A) : Http bool :=
  match d with
  | RequestLost => mret false
  | ResponseLost => _ ← attempt request; mret false
  | Delivered => r ← attempt request; mret (match r with Some _ => true | None => false end)
  end.
End ApiClient.
Definition client_ReportSession (d : delivery) (proxyID : text) (s : SessionReport.t) : Http bool :=
  ApiClient.post d (ReportSession (Some (proxyID, s))).
Definition client_CloseSession (d : delivery) (proxyID sessionID recording : text) (now : Z) : Http bool :=
  ApiClient.post d (CloseSession sessionID (Some (proxyID, recording, now))).
Definition client_ReportCommand (d : delivery) (proxyID : text) (c : CommandRecord.t) : Http bool :=
  ApiClient.post d (ReportCommand (Some (proxyID, c))).

(** ** Requests *)

Inductive call :=
  | c_ReportSession (req : option (text * SessionReport.t))
  | c_CloseSession (sessionID : text) (req : option (text * text * Z))
  | c_ReportCommand (req : option (text * CommandRecord.t))
  | c_SyncSessions (req : option (text * list item))
  | c_SyncCommands (req : option (text * list item))
  | c_ListProxies
  | c_GetProxyStats (proxyID : text).

Definition handler_name (c : call) : string :=
  match c with
  | c_ReportSession _ => "proxyHandler.ReportSession"
  | c_CloseSession _ _ => "proxyHandler.CloseSession"
  | c_ReportCommand _ => "proxyHandler.ReportCommand"
  | c_SyncSessions _ => "proxyHandler.SyncSessions"
  | c_SyncCommands _ => "proxyHandler.SyncCommands"
  | c_ListProxies => "proxyHandler.ListProxies"
  | c_GetProxyStats _ => "proxyHandler.GetProxyStats"
  end.

Inductive answer :=
  | ASessionID (sessionID : text) | ACommandID (id : Z) | ACount (n : Z) | AProxies (l : list Proxy.t)
  | AProxyStats (s : ProxyStats.t).

Definition agents_run (parse_time : string → text → option Z) (c : call) : Http answer :=
  match c with
  | c_ReportSession req => reply ASessionID (ReportSession req)
  | c_CloseSession sid req => reply ASessionID (CloseSession sid req)
  | c_ReportCommand req => reply ACommandID (ReportCommand req)
  | c_SyncSessions req => reply ACount (SyncSessions parse_time req)
  | c_SyncCommands req => reply ACount (SyncCommands parse_time req)
  | c_ListProxies => reply AProxies ListProxies
  | c_GetProxyStats p => reply AProxyStats (GetProxyStats p)
  end.
Definition agents_api (parse_time : string → text → option Z) : Api call answer :=
  {| handler_of := handler_name; run := λ _ _, agents_run parse_time |}.

(** ** Facts *)

Section facts.
Context `{Crypto} `{Unicode} (parse_time : string → text → option Z).
Notation serve := (Serving.serve (A := agents_api parse_time)).

Lemma agents_routed c : handler_name c ∈ handler <$> routes.
Proof.
  apply (bool_decide_eq_true_1 (handler_name c ∈ handler <$> routes)). by destruct c; vm_compute.
Qed.
Definition for_agents (c : call) : bool := match c with c_ListProxies | c_GetProxyStats _ => false | _ => true end.
Lemma access_agents c : access_of (handler_name c) = if for_agents c then Anyone else Administrators.
Proof. by destruct c; vm_compute. Qed.

(** Whoever asks, with whatever token. *)
Lemma agents_serve hdr tok now c : for_agents c = true → serve hdr tok now c = agents_run parse_time c.
Proof.
  intros Hc. apply (serve_permitted (A := agents_api parse_time) hdr tok now c None); [apply agents_routed|..].
  - unfold permitted. cbn [handler_of agents_api]. by rewrite access_agents, Hc.
  - intros caller'. apply (permitted_unique (A := agents_api parse_time)).
    unfold permitted. cbn [handler_of agents_api]. by rewrite access_agents, Hc.
Qed.

(** *** One session *)

(** No row of the tables is in the way of a session. *)
Definition unused (db : Db) (sid : text) : Prop :=
  (∀ r, r ∈ session_recordings (aux db) → SessionRecording.SessionID r ≠ sid ∧ SessionRecording.ID r ≠ sid) ∧
  (∀ r, r ∈ login_records (aux db) → LoginRecord.ID r ≠ login_key sid).

Lemma create_first {A} (rows : Db → list A) same clash set_rows (row : A) db :
  (∀ x, same x = true → clash x = true) → existsb clash (rows db) = false →
  FirstOrCreate rows same (execute (λ db, if existsb clash (rows db) then Err DuplicatedKey else Ok (set_rows db (rows db ++ [row]))))
    row db [] = (Ok row, set_rows db (rows db ++ [row]), []).
Proof.
  intros Hs Hc. unfold FirstOrCreate, find, query. rewrite bind_run. cbn [list.tail].
  rewrite keep_none.
  - unfold execute. rewrite bind_run, Hc. done.
  - intros y Hy. destruct (same y) eqn:E; [|done]. apply Hs in E. by rewrite (proj1 (existsb_none _ _) Hc y Hy) in E.
Qed.

(** Anyone writes the audit: whoever sends it, with whatever token or none, a
    report of a session that is not used yet is answered and leaves a recording
    and a login of the user and on the host it names; to say that the session is
    closed then changes neither. *)
Theorem anyone_reports_sessions hdr tok now proxyID s db close :
  proxyID ≠ [] → unused db (SessionReport.SessionID s) →
  ∃ db', serve hdr tok now (c_ReportSession (Some (proxyID, s))) db [] = (Ok (ASessionID (SessionReport.SessionID s)), db', []) ∧
    let r := reported_recording proxyID s in
    session_recordings (aux db') = session_recordings (aux db) ++ [r] ∧
    login_records (aux db') = login_records (aux db) ++ [reported_login (SessionReport.UserID s) r] ∧
    ∀ f a db2 f2, serve hdr tok now (c_CloseSession (SessionReport.SessionID s) close) db' f = (a, db2, f2) →
      session_recordings (aux db2) = session_recordings (aux db') ∧ login_records (aux db2) = login_records (aux db').
Proof.
  intros Hp [Hr Hl]. rewrite !agents_serve by done. set (r := reported_recording proxyID s).
  set (db1 := set_session_recordings db (session_recordings (aux db) ++ [r])).
  set (db2 := set_login_records db1 (login_records (aux db1) ++ [reported_login (SessionReport.UserID s) r])).
  exists db2. split.
  - cbn [agents_run]. unfold reply, ReportSession. assert (named_agent proxyID = true) as -> by by destruct proxyID.
    rewrite bind_run. unfold answering, or_fail. rewrite bind_run. unfold recording_or_create, create_recording.
    rewrite create_first.
    + fold r. cbn [map_err]. fold db1. rewrite bind_run. unfold attempt, login_or_create, create_login_record.
      rewrite create_first.
      * fold db2. done.
      * intros x [_ E]%andb_prop. exact E.
      * apply existsb_none. intros q Hq. apply text_eqb_false, Hl. exact Hq.
    + intros x [E1 _]%andb_prop. by rewrite E1, orb_true_r.
    + apply existsb_none. intros q Hq. destruct (Hr q Hq) as [H1 H2]. apply orb_false_iff.
      split; by apply text_eqb_false.
  - split; [done|]. split; [done|]. intros f a db3 f3 Hc.
    assert (preserves (λ x y, session_recordings (aux x) = session_recordings (aux y) ∧ login_records (aux x) = login_records (aux y))
      (agents_run parse_time (c_CloseSession (SessionReport.SessionID s) close))) as Hk.
    { assert (PreOrder (λ x y, session_recordings (aux x) = session_recordings (aux y) ∧ login_records (aux x) = login_records (aux y)))
        by (split; [done|intros x y z [] []; split; congruence]).
      cbn [agents_run]. unfold reply, CloseSession, answering, undecoded. preserves_tac.
      apply preserves_execute; [apply _|]. by intros x y [= <-]. }
    destruct (preserves_run _ _ _ _ _ _ _ Hk Hc) as [E1 E2]. by split.
Qed.

(** *** A batch of sessions *)

(** What the loop over a batch does to a table: a row goes in when none is in its
    way, and then stands in its own way. *)
Definition added {A} (clash : A → A → bool) (rows : list A) (x : A) : list A :=
  if existsb (clash x) rows then rows else rows ++ [x].

Lemma added_blocks {A} (clash : A → A → bool) l rows :
  (∀ x, clash x x = true) → ∀ x, x ∈ l ∨ existsb (clash x) rows = true → existsb (clash x) (foldl (added clash) rows l) = true.
Proof.
  intros Hrefl. revert rows. induction l as [|y l IH]; intros rows x Hx; simpl.
  - destruct Hx as [Hx|Hx]; [by apply elem_of_nil in Hx|done].
  - apply IH. destruct Hx as [[->|Hx]%elem_of_cons|Hx]; [right|by left|right]; unfold added.
    + destruct (existsb (clash y) rows) eqn:E; [done|]. rewrite existsb_app, E. simpl. by rewrite Hrefl.
    + destruct (existsb (clash y) rows); [done|]. by rewrite existsb_app, Hx.
Qed.

Lemma added_blocked {A} (clash : A → A → bool) l rows :
  (∀ x, x ∈ l → existsb (clash x) rows = true) → foldl (added clash) rows l = rows.
Proof.
  induction l as [|y l IH]; intros Hb; [done|]. simpl. unfold added at 2. rewrite (Hb y) by left.
  apply IH. intros x Hx. apply Hb. by right.
Qed.

Lemma added_again {A} (clash : A → A → bool) l rows : (∀ x, clash x x = true) →
  foldl (added clash) (foldl (added clash) rows l) l = foldl (added clash) rows l.
Proof. intros Hrefl. apply added_blocked. intros x Hx. apply added_blocks; auto. Qed.

Definition recording_clash (r q : SessionRecording.t) : bool :=
  text_eqb (SessionRecording.ID q) (SessionRecording.ID r) || text_eqb (SessionRecording.SessionID q) (SessionRecording.SessionID r).
Definition login_clash (r q : LoginRecord.t) : bool := text_eqb (LoginRecord.ID q) (LoginRecord.ID r).

Lemma ignored_create {A} (rows : Db → list A) same clash set_rows (row : A) db :
  (∀ x, same x = true → clash x = true) → (∀ db, set_rows db (rows db) = db) →
  ignoring (FirstOrCreate rows same
    (execute (λ db, if existsb clash (rows db) then Err DuplicatedKey else Ok (set_rows db (rows db ++ [row])))) row) db [] =
  (Ok (), if existsb clash (rows db) then db else set_rows db (rows db ++ [row]), []).
Proof.
  intros Hs Hid. destruct (existsb clash (rows db)) eqn:E.
  - unfold ignoring, attempt, FirstOrCreate, find, query, execute. rewrite !bind_run. cbn [list.tail].
    destruct (keep same (rows db)); [|done]. by rewrite bind_run, E.
  - unfold ignoring, attempt. rewrite bind_run, create_first by done. done.
Qed.

Lemma set_recordings_id db : set_session_recordings db (session_recordings (aux db)) = db.
Proof. destruct db as [? ? ? ? ? ? ? ? ? ? ? ? a]. by destruct a. Qed.
Lemma set_logins_id db : set_login_records db (login_records (aux db)) = db.
Proof. destruct db as [? ? ? ? ? ? ? ? ? ? ? ? a]. by destruct a. Qed.

(** The two loops. *)
Lemma recordings_loop l db : for_each (λ r, ignoring (recording_or_create r)) l db [] =
  (Ok (), set_session_recordings db (foldl (added recording_clash) (session_recordings (aux db)) l), []).
Proof.
  revert db. induction l as [|r l IH]; intros db; [cbn [for_each foldl]; by rewrite set_recordings_id|]. cbn [for_each].
  rewrite bind_run. unfold recording_or_create at 1, create_recording.
  rewrite (ignored_create (λ db, session_recordings (aux db)) _ (recording_clash r) set_session_recordings).
  - rewrite IH. cbn [foldl]. unfold added at 3. by destruct (existsb (recording_clash r) (session_recordings (aux db))).
  - intros x [E1 _]%andb_prop. unfold recording_clash. by rewrite E1, orb_true_r.
  - exact set_recordings_id.
Qed.

Lemma logins_loop l db : for_each (λ r, ignoring (login_or_create r)) l db [] =
  (Ok (), set_login_records db (foldl (added login_clash) (login_records (aux db)) l), []).
Proof.
  revert db. induction l as [|r l IH]; intros db; [cbn [for_each foldl]; by rewrite set_logins_id|]. cbn [for_each].
  rewrite bind_run. unfold login_or_create at 1, create_login_record.
  rewrite (ignored_create (λ db, login_records (aux db)) _ (login_clash r) set_login_records).
  - rewrite IH. cbn [foldl]. unfold added at 3. by destruct (existsb (login_clash r) (login_records (aux db))).
  - intros x [E1 E2]%andb_prop. exact E2.
  - exact set_logins_id.
Qed.
Lemma for_each_map {A B} (g : A → B) (body : B → Http unit) l : for_each (λ x, body (g x)) l = for_each body (g <$> l).
Proof. induction l as [|x l IH]; [done|]. simpl. by rewrite IH. Qed.

Lemma sync_run proxyID data l db : named_agent proxyID = true → parse_all (parse_session parse_time proxyID) valid_session data = Ok l →
  SyncSessions parse_time (Some (proxyID, data)) db [] =
  (Ok (Z.of_nat (length l)),
   set_login_records
     (set_session_recordings db (foldl (added recording_clash) (session_recordings (aux db)) (stored_recording <$> l)))
     (foldl (added login_clash) (login_records (aux db)) (synced_login <$> l)), []).
Proof.
  intros Hp Hl. unfold SyncSessions. rewrite Hp, Hl.
  rewrite (for_each_map stored_recording (λ r, ignoring (recording_or_create r))), bind_run, recordings_loop.
  rewrite (for_each_map synced_login (λ r, ignoring (login_or_create r))), bind_run, logins_loop. done.
Qed.

Lemma recording_clash_refl r : recording_clash r r = true.
Proof. unfold recording_clash. by rewrite text_eqb_refl. Qed.
Lemma login_clash_refl r : login_clash r r = true.
Proof. apply text_eqb_refl. Qed.

Lemma added_prefix {A} (clash : A → A → bool) l rows : ∃ k, foldl (added clash) rows l = rows ++ k ∧ k ⊆ l.
Proof.
  revert rows. induction l as [|x l IH]; intros rows; simpl.
  - exists []. by rewrite app_nil_r.
  - destruct (IH (added clash rows x)) as (k & -> & Hk). unfold added. destruct (existsb (clash x) rows).
    + exists k. split; [done|]. intros y Hy. right. auto.
    + exists (x :: k). rewrite <- app_assoc. split; [done|]. intros y [->|Hy]%elem_of_cons; [left|right; auto].
Qed.

Lemma sync_cases req :
  (∃ e, ∀ db, SyncSessions parse_time req db [] = (Err e, db, [])) ∨
  ∃ proxyID data l, req = Some (proxyID, data) ∧ named_agent proxyID = true ∧
    parse_all (parse_session parse_time proxyID) valid_session data = Ok l.
Proof.
  destruct req as [[proxyID data]|]; [|left; by eexists]. unfold SyncSessions.
  destruct (named_agent proxyID) eqn:Hp; [|left; by eexists].
  destruct (parse_all (parse_session parse_time proxyID) valid_session data) as [l|e] eqn:Hl; [right|left; by eexists].
  by exists proxyID, data, l.
Qed.

(** C22: A batch of sessions may be sent again: a second run of a batch, whoever sends
    it, gets the first run's answer and changes nothing.  A first run takes no
    row away, and every row it adds has a session that the batch names. *)
Theorem sync_sessions_idempotent hdr tok now hdr' tok' now' req db a db' :
  serve hdr tok now (c_SyncSessions req) db [] = (a, db', []) →
  serve hdr' tok' now' (c_SyncSessions req) db' [] = (a, db', []) ∧
  ∃ rs ls, session_recordings (aux db') = session_recordings (aux db) ++ rs ∧
    login_records (aux db') = login_records (aux db) ++ ls ∧
    ∀ proxyID data, req = Some (proxyID, data) →
      ∀ sid, sid ∈ (SessionRecording.SessionID <$> rs) ++ (LoginRecord.SessionID <$> ls) →
      ∃ l r, parse_all (parse_session parse_time proxyID) valid_session data = Ok l ∧ r ∈ l ∧ SessionRecording.SessionID r = sid.
Proof.
  rewrite !agents_serve by done. cbn [agents_run]. unfold reply. intros E.
  destruct (sync_cases req) as [[e He]|(proxyID & data & l & -> & Hp & Hl)].
  - rewrite bind_run, He in E. injection E as <- <-. rewrite bind_run, He. split; [done|].
    exists [], []. rewrite !app_nil_r. split; [done|]. split; [done|]. by intros ? ? _ ? []%elem_of_nil.
  - rewrite bind_run, (sync_run proxyID data l db Hp Hl) in E. injection E as <- <-. split.
    + rewrite bind_run, (sync_run proxyID data l _ Hp Hl).
      cbn [session_recordings login_records aux set_login_records set_session_recordings set_aux].
      by rewrite (added_again _ _ _ recording_clash_refl), (added_again _ _ _ login_clash_refl).
    + destruct (added_prefix recording_clash (stored_recording <$> l) (session_recordings (aux db))) as (rs & Ers & Hrs).
      destruct (added_prefix login_clash (synced_login <$> l) (login_records (aux db))) as (ls & Els & Hls).
      exists rs, ls. split; [exact Ers|]. split; [exact Els|].
      intros p d [= <- <-] sid [(x & -> & Hx)%list_elem_of_fmap|(x & -> & Hx)%list_elem_of_fmap]%elem_of_app.
      * apply Hrs, list_elem_of_fmap in Hx as (r & -> & Hr). by exists l, r.
      * apply Hls, list_elem_of_fmap in Hx as (r & -> & Hr). by exists l, r.
Qed.

(** *** A batch of commands *)

Lemma next_id_numbered l rows :
  next_id CommandRecord.ID (rows ++ numbered (next_id CommandRecord.ID rows) l) =
  next_id CommandRecord.ID rows + Z.of_nat (length l).
Proof.
  revert rows. induction l as [|c l IH]; intros rows; cbn [numbered length].
  - rewrite app_nil_r. lia.
  - replace (rows ++ SessionRepository.with_key c (next_id CommandRecord.ID rows) :: numbered (next_id CommandRecord.ID rows + 1) l)
      with ((rows ++ [SessionRepository.with_key c (next_id CommandRecord.ID rows)]) ++ numbered (next_id CommandRecord.ID rows + 1) l)
      by by rewrite <- app_assoc.
    assert (next_id CommandRecord.ID (rows ++ [SessionRepository.with_key c (next_id CommandRecord.ID rows)]) =
            next_id CommandRecord.ID rows + 1) as Hn.
    { set (n := next_id CommandRecord.ID rows). assert (n = next_id CommandRecord.ID rows) as E by done. clearbody n.
      revert E. unfold next_id. rewrite foldr_app. cbn [foldr SessionRepository.with_key CommandRecord.ID]. intros E.
      assert (∀ m, 0 <= m → foldr (λ x k, Z.max (CommandRecord.ID x) k) m rows =
                Z.max m (foldr (λ x k, Z.max (CommandRecord.ID x) k) 0 rows)) as Hm.
      { intros m Hm. clear E. induction rows as [|r rows IHr]; simpl; [lia|]. rewrite IHr. lia. }
      assert (0 <= foldr (λ x k, Z.max (CommandRecord.ID x) k) 0 rows) by (clear; induction rows; simpl; lia).
      rewrite Hm; lia. }
    rewrite <- Hn, IH, Hn. lia.
Qed.

Lemma numbered_app l k n : numbered n (l ++ k) = numbered n l ++ numbered (n + Z.of_nat (length l)) k.
Proof.
  revert n. induction l as [|c l IH]; intros n; cbn [numbered app length].
  - by rewrite Z.add_0_r.
  - rewrite IH. do 3 f_equal. lia.
Qed.

Lemma chunks_concat {A} size (l : list A) fuel : (0 < size)%nat → (length l <= fuel)%nat → concat (chunks fuel size l) = l.
Proof.
  intros Hs. revert l. induction fuel as [|fuel IH]; intros [|x l] Hf; cbn [chunks length] in *; [done|lia|done|].
  cbn [concat]. rewrite IH; [by rewrite take_drop|]. rewrite length_drop. cbn [length]. lia.
Qed.

Lemma set_commands_id db : set_command_records db (command_records (logs (aux db))) = db.
Proof. destruct db as [? ? ? ? ? ? ? ? ? ? ? ? a]. destruct a as [? ? ? ? ? ? ? ? b]. by destruct b. Qed.

Lemma insert_chunks ls db : for_each insert_commands ls db [] =
  (Ok (), set_command_records db (command_records (logs (aux db)) ++
            numbered (next_id CommandRecord.ID (command_records (logs (aux db)))) (concat ls)), []).
Proof.
  revert db. induction ls as [|l ls IH]; intros db; cbn [for_each concat].
  - cbn [numbered]. by rewrite app_nil_r, set_commands_id.
  - rewrite bind_run. unfold insert_commands at 1, execute. rewrite IH.
    cbn [command_records logs aux set_command_records set_logs set_aux].
    by rewrite next_id_numbered, numbered_app, app_assoc.
Qed.

(** The count of each session goes up by its commands. *)
Definition counted (l : list CommandRecord.t) (r : SessionRecording.t) : SessionRecording.t :=
  SessionRecording.set_count r (SessionRecording.CommandCount r + of_session_count l (SessionRecording.SessionID r)).

Lemma counted_none l r : SessionRecording.SessionID r ∉ CommandRecord.SessionID <$> l → counted l r = r.
Proof.
  intros Hr. unfold counted, of_session_count. rewrite keep_none.
  - cbn [length Z.of_nat]. rewrite Z.add_0_r. by destruct r.
  - intros c Hc. apply text_eqb_false. intros E. apply Hr. rewrite <- E. by apply list_elem_of_fmap_2.
Qed.

Lemma counts_loop l sids db : NoDup sids →
  for_each (λ sid, ignoring (count_commands sid (of_session_count l sid))) sids db [] =
  (Ok (), set_session_recordings db
     ((λ r, if bool_decide (SessionRecording.SessionID r ∈ sids) then counted l r else r) <$> session_recordings (aux db)), []).
Proof.
  intros Hnd. revert db. induction Hnd as [|sid sids Hsid Hnd IH]; intros db; cbn [for_each].
  - rewrite (list_fmap_ext _ id); [by rewrite list_fmap_id, set_recordings_id|]. intros i r _. by rewrite bool_decide_eq_false_2 by apply not_elem_of_nil.
  - rewrite bind_run. unfold ignoring at 1, attempt, count_commands at 1, update_recordings, execute. rewrite bind_run.
    cbn [list.tail mret db_ret]. rewrite IH. cbn [session_recordings aux set_session_recordings set_aux]. f_equal. f_equal.
    unfold set_session_recordings, set_aux. cbn. f_equal. f_equal. rewrite <- list_fmap_compose. apply list_fmap_ext. intros i r _.
    cbn [compose]. unfold updated. destruct (text_eqb (SessionRecording.SessionID r) sid) eqn:E.
    + apply text_eqb_true in E. cbn [SessionRecording.set_count SessionRecording.SessionID].
      rewrite (bool_decide_eq_false_2 _) by by rewrite E. rewrite bool_decide_eq_true_2 by (rewrite E; left).
      unfold counted. by rewrite E.
    + destruct (decide (SessionRecording.SessionID r ∈ sids)) as [Hin|Hout].
      * rewrite !bool_decide_eq_true_2; [done|by right|done].
      * rewrite !bool_decide_eq_false_2; [done| |done]. intros [E'|]%elem_of_cons; [|done].
        rewrite E', text_eqb_refl in E. done.
Qed.

Lemma counts_all l db :
  for_each (λ sid, ignoring (count_commands sid (of_session_count l sid))) (remove_dups (CommandRecord.SessionID <$> l)) db [] =
  (Ok (), set_session_recordings db (counted l <$> session_recordings (aux db)), []).
Proof.
  rewrite counts_loop by apply NoDup_remove_dups. do 3 f_equal. apply list_fmap_ext. intros i r _.
  case_bool_decide as Hr; [done|]. symmetry. apply counted_none. by rewrite <- elem_of_remove_dups.
Qed.

(** *** What a batch says *)

(** The first of the formats that fits a text gives the time; or none does. *)
Definition fits (s : text) (t : Z) : Prop :=
  ∃ before format after, formats = before ++ format :: after ∧
    (∀ f, f ∈ before → parse_time f s = None) ∧ parse_time format s = Some t.
Definition unfit (s : text) : Prop := ∀ format, format ∈ formats → parse_time format s = None.
Definition refused (i : item) (s : text) : Prop := i !! "executed_at"%string = Some (JText s) ∧ unfit s.

(** The rows of the items in order: one for an item with a time, none for an item
    without one or with the zero time. *)
Inductive logged : list item → list CommandRecord.t → Prop :=
  | logged_end : logged [] []
  | logged_skip i data l :
      (∀ s, i !! "executed_at"%string = Some (JText s) → fits s WebShellStorageAdapter.zero_time) →
      logged data l → logged (i :: data) l
  | logged_row i data l s t :
      i !! "executed_at"%string = Some (JText s) → fits s t → t ≠ WebShellStorageAdapter.zero_time →
      logged data l →
      logged (i :: data)
        ({| CommandRecord.ID := 0; CommandRecord.ProxyID := text_at i "proxy_id";
            CommandRecord.SessionID := text_at i "session_id"; CommandRecord.HostID := text_at i "host_id";
            CommandRecord.UserID := text_at i "user_id"; CommandRecord.Username := text_at i "username";
            CommandRecord.HostIP := text_at i "host_ip"; CommandRecord.Command := text_at i "command";
            CommandRecord.Output := text_at i "output"; CommandRecord.ExitCode := number_at i "exit_code";
            CommandRecord.ExecutedAt := t; CommandRecord.DurationMs := number_at i "duration_ms" |} :: l).

Lemma first_of_formats {A} (parse : A → option Z) (l : list A) :
  match head (omap parse l) with
  | Some t => ∃ before x after, l = before ++ x :: after ∧ (∀ y, y ∈ before → parse y = None) ∧ parse x = Some t
  | None => ∀ x, x ∈ l → parse x = None
  end.
Proof.
  induction l as [|x l IH]; [by intros x ?%elem_of_nil|]. simpl. destruct (parse x) as [t|] eqn:E; simpl.
  - exists [], x, l. split_and!; [done| |done]. by intros y ?%elem_of_nil.
  - change (list_omap) with (@omap list list_omap) in *. simpl.
    destruct (head (omap parse l)) as [t|].
    + destruct IH as (before & y & after & -> & Hb & Hy). exists (x :: before), y, after.
      split_and!; [done| |done]. intros z [->|Hz]%elem_of_cons; [done|by apply Hb].
    + intros y [->|Hy]%elem_of_cons; [done|by apply IH].
Qed.

Lemma time_of_spec s : match time_of parse_time s with Some t => fits s t | None => unfit s end.
Proof. apply (first_of_formats (λ format, parse_time format s) formats). Qed.

Lemma fits_not_unfit s t : fits s t → ¬ unfit s.
Proof.
  intros (before & f & after & E & _ & Hf) Hu. rewrite (Hu f) in Hf; [done|]. rewrite E.
  apply elem_of_app. right. left.
Qed.

Lemma parse_all_spec data :
  match parse_all (parse_command parse_time) valid_command data with
  | Ok l => logged data l ∧ ∀ i s, i ∈ data → ¬ refused i s
  | Err e => ∃ before i after s, data = before ++ i :: after ∧ refused i s ∧
               (∀ j s', j ∈ before → ¬ refused j s') ∧ e = (400, txt "Invalid executed_at format: " ++ s)
  end.
Proof.
  induction data as [|i data IH]; [split; [constructor|by intros i s ?%elem_of_nil]|].
  cbn [parse_all]. unfold parse_command at 1, time_at.
  assert (∀ t, (∀ s, i !! "executed_at"%string = Some (JText s) → fits s t) →
    ((∃ s, i !! "executed_at"%string = Some (JText s)) ∨ t = WebShellStorageAdapter.zero_time) →
    match (match parse_all (parse_command parse_time) valid_command data with
           | Ok l => Ok (E := Z * text) (if valid_command (CommandRecord.Build_t 0 (text_at i "proxy_id")
               (text_at i "session_id") (text_at i "host_id") (text_at i "user_id") (text_at i "username")
               (text_at i "host_ip") (text_at i "command") (text_at i "output") (number_at i "exit_code") t
               (number_at i "duration_ms")) then CommandRecord.Build_t 0 (text_at i "proxy_id")
               (text_at i "session_id") (text_at i "host_id") (text_at i "user_id") (text_at i "username")
               (text_at i "host_ip") (text_at i "command") (text_at i "output") (number_at i "exit_code") t
               (number_at i "duration_ms") :: l else l)
           | Err e => Err e end) with
    | Ok l => logged (i :: data) l ∧ ∀ j s, j ∈ i :: data → ¬ refused j s
    | Err e => ∃ before j after s, i :: data = before ++ j :: after ∧ refused j s ∧
                 (∀ k s', k ∈ before → ¬ refused k s') ∧ e = (400, txt "Invalid executed_at format: " ++ s)
    end) as Hstep.
  { intros t Ht Hs. assert (∀ s, ¬ refused i s) as Hi.
    { intros s [Ei Hu]. by apply (fits_not_unfit s t); [apply Ht|]. }
    destruct (parse_all _ _ data) as [l|e].
    - destruct IH as [Hl Hn]. split; [|intros j s [->|Hj]%elem_of_cons; [apply Hi|by apply Hn] ].
      unfold valid_command. cbn [CommandRecord.ExecutedAt].
      destruct (Z.eqb_spec t WebShellStorageAdapter.zero_time) as [->|Hne]; cbn [negb].
      + by apply logged_skip.
      + destruct Hs as [[s Es]|]; [|done]. apply logged_row with s; auto.
    - destruct IH as (before & j & after & s & -> & Hj & Hb & ->). exists (i :: before), j, after, s.
      split_and!; [done|done| |done]. intros k s' [->|Hk]%elem_of_cons; [apply Hi|by apply Hb]. }
  destruct (i !! "executed_at"%string) as [[s|n|]|] eqn:Ei; cbv iota.
  - pose proof (time_of_spec s) as Ht. destruct (time_of parse_time s) as [t|]; cbv iota.
    + apply Hstep; [by intros s' [= <-]|left; by exists s].
    + exists [], i, data, s. split_and!; [done|by split|by intros j s' ?%elem_of_nil|done].
  - by apply Hstep; [|right].
  - by apply Hstep; [|right].
  - by apply Hstep; [|right].
Qed.

(** C23: A batch of commands, whoever sends it, when no statement fails. Either an
    item has a time that none of the formats fits: then the batch is refused with
    the first such time, and nothing is written. Or there is none: then the items
    with a time, read with the first format that fits (those without one or with
    the zero time are left out), are at the end of the table with their fields,
    in the order of the batch and under keys of their own, and the count of every
    recording goes up by the commands of its session.  So the agent that sends a
    batch again, its answer lost, doubles the log. *)
Theorem commands_synced hdr tok now proxyID data db : proxyID ≠ [] →
  (∃ before i after s, data = before ++ i :: after ∧ refused i s ∧ (∀ j s', j ∈ before → ¬ refused j s') ∧
     serve hdr tok now (c_SyncCommands (Some (proxyID, data))) db [] =
       (Err (400, txt "Invalid executed_at format: " ++ s), db, [])) ∨
  ((∀ i s, i ∈ data → ¬ refused i s) ∧
   ∃ l db', logged data l ∧
      serve hdr tok now (c_SyncCommands (Some (proxyID, data))) db [] = (Ok (ACount (Z.of_nat (length l))), db', []) ∧
      command_records (logs (aux db')) = command_records (logs (aux db)) ++
        numbered (next_id CommandRecord.ID (command_records (logs (aux db)))) l ∧
      session_recordings (aux db') = counted l <$> session_recordings (aux db)).
Proof.
  intros Hp. pose proof (parse_all_spec data) as Hd.
  rewrite !agents_serve by done. cbn [agents_run]. unfold reply, SyncCommands.
  assert (named_agent proxyID = true) as -> by by destruct proxyID.
  destruct (parse_all (parse_command parse_time) valid_command data) as [l|e].
  2: { destruct Hd as (before & i & after & s & E & Hr & Hb & ->). left. by exists before, i, after, s. }
  destruct Hd as [Hl Hn]. right. split; [exact Hn|]. exists l.
  destruct (is_empty l) eqn:El.
  - destruct l; [|done]. exists db. split; [done|]. split; [done|]. cbn [numbered]. rewrite app_nil_r. split; [done|].
    symmetry. rewrite <- (list_fmap_id (session_recordings (aux db))) at 2. apply list_fmap_ext. intros i r _.
    apply counted_none. intros []%elem_of_nil.
  - eexists. split; [exact Hl|]. rewrite bind_run. unfold answering at 1, or_fail, CreateInBatches, Transaction.
    rewrite !bind_run. rewrite insert_chunks, (chunks_concat 100 l) by lia. rewrite bind_run, counts_all.
    split; [reflexivity|]. split; reflexivity.
Qed.
End facts.

(** *** Witnesses *)

Definition clock : string → text → option Z := λ format s,
  if String.eqb format "2006-01-02T15:04:05Z07:00" && negb (text_eqb s (txt "soon")) then Some 7 else None.
Definition agent_asks (c : call) (db : Db) := Serving.serve (A := agents_api clock) [] [] 6 c db [].
Definition web_session : SessionReport.t :=
  {| SessionReport.SessionID := txt "s1"; SessionReport.HostID := txt "h2"; SessionReport.UserID := txt "u1";
     SessionReport.Username := txt "root"; SessionReport.HostIP := txt "10.0.0.2"; SessionReport.Status := [];
     SessionReport.StartTime := 5 |}.
Definition session_item (sid : string) : item :=
  {["session_id" := JText (txt sid); "start_time" := JText (txt "then"); "user_id" := JText (txt "u1")]}%string.
Definition command_item (command time : string) : item :=
  {["session_id" := JText (txt "l2"); "command" := JText (txt command); "executed_at" := JText (txt time)]}%string.

Lemma anyone_reports_sessions_witness :
  ∃ db', agent_asks (c_ReportSession (Some (txt "p", web_session))) recorded_db = (Ok (ASessionID (txt "s1")), db', []).
Proof.
  destruct (anyone_reports_sessions clock [] [] 6 (txt "p") web_session recorded_db None) as (db' & E & _).
  - done.
  - split.
    + intros r [->|[]%elem_of_nil]%elem_of_cons. split; vm_compute; discriminate.
    + intros r Hr. apply (proj1 (Forall_forall (λ r, LoginRecord.ID r ≠ login_key (SessionReport.SessionID web_session))
        (login_records (aux recorded_db)))); [|exact Hr].
      repeat constructor; vm_compute; discriminate.
  - exists db'. exact E.
Defined.

Lemma sync_sessions_idempotent_witness :
  let c := c_SyncSessions (Some (txt "p", [session_item "s1"; session_item "l2"; session_item "s1"])) in
  let db' := after (agent_asks c recorded_db) in
  agent_asks c recorded_db = (Ok (ACount 3), db', []) ∧ agent_asks c db' = (Ok (ACount 3), db', []) ∧
  SessionRecording.SessionID <$> session_recordings (aux db') = [txt "l2"; txt "s1"].
Proof.
  intros c db'. assert (agent_asks c recorded_db = (Ok (ACount 3), db', [])) as E by (vm_compute; reflexivity).
  split; [exact E|]. split.
  - exact (proj1 (sync_sessions_idempotent clock [] [] 6 [] [] 6 _ _ _ _ E)).
  - vm_compute. reflexivity.
Defined.

Definition pwd_row : CommandRecord.t :=
  {| CommandRecord.ID := 0; CommandRecord.ProxyID := []; CommandRecord.SessionID := txt "l2";
     CommandRecord.HostID := []; CommandRecord.UserID := []; CommandRecord.Username := [];
     CommandRecord.HostIP := []; CommandRecord.Command := txt "pwd"; CommandRecord.Output := [];
     CommandRecord.ExitCode := 0; CommandRecord.ExecutedAt := 7; CommandRecord.DurationMs := 0 |}.
Lemma clock_fits s t : fits clock s t → t = 7.
Proof.
  intros (before & f & after & _ & _ & Hf). unfold clock in Hf.
  destruct (String.eqb f _ && _); [by injection Hf as <-|discriminate Hf].
Qed.
Lemma pwd_time : command_item "pwd" "then" !! "executed_at"%string = Some (JText (txt "then")).
Proof. vm_compute. reflexivity. Qed.
Lemma pwd_logged l : logged clock [command_item "pwd" "then"] l → l = [pwd_row].
Proof.
  inversion 1 as [|i data l' Hz Hl|i data l' s t Hs Hf Ht Hl]; subst.
  - specialize (Hz _ pwd_time). apply clock_fits in Hz. discriminate Hz.
  - apply clock_fits in Hf as ->. inversion Hl. vm_compute. reflexivity.
Qed.
Lemma pwd_not_refused i s : i ∈ [command_item "pwd" "then"] → ¬ refused clock i s.
Proof.
  intros ->%list_elem_of_singleton [Hs Hu]. rewrite pwd_time in Hs. injection Hs as <-.
  specialize (Hu "2006-01-02T15:04:05Z07:00"%string ltac:(left)). vm_compute in Hu. discriminate Hu.
Qed.

(** The answer of the first run is lost; the log has each command twice. *)
Lemma commands_synced_witness :
  ∃ db' db'', let c := c_SyncCommands (Some (txt "p", [command_item "pwd" "then"])) in
    agent_asks c recorded_db = (Ok (ACount 1), db', []) ∧ agent_asks c db' = (Ok (ACount 1), db'', []) ∧
    CommandRecord.Command <$> command_records (logs (aux db'')) = [txt "ls"; txt "pwd"; txt "pwd"] ∧
    SessionRecording.CommandCount <$> session_recordings (aux db'') = (λ r, SessionRecording.CommandCount r + 2) <$> [open_recording].
Proof.
  destruct (commands_synced clock [] [] 6 (txt "p") [command_item "pwd" "then"] recorded_db)
    as [(before & i & after & s & Hd & Hr & _)|(_ & l & db' & Hl & E & Ec & Er)]; [done| |].
  { destruct (pwd_not_refused i s); [rewrite Hd; apply elem_of_app; right; left|exact Hr]. }
  destruct (commands_synced clock [] [] 6 (txt "p") [command_item "pwd" "then"] db')
    as [(before & i & after & s & Hd & Hr & _)|(_ & l' & db'' & Hl' & E' & Ec' & Er')]; [done| |].
  { destruct (pwd_not_refused i s); [rewrite Hd; apply elem_of_app; right; left|exact Hr]. }
  apply pwd_logged in Hl, Hl'. subst l l'.
  exists db', db''. split; [exact E|]. split; [exact E'|]. rewrite Ec', Er', Ec, Er. split; vm_compute; reflexivity.
Defined.

Example refused_batch : agent_asks (c_SyncCommands (Some (txt "p", [command_item "pwd" "then"; command_item "ls" "soon"]))) recorded_db =
  (Err (400, txt "Invalid executed_at format: soon"), recorded_db, []).
Proof. vm_compute. reflexivity. Qed.
