(* ===== verification/AssetSync.v ===== *)
(** * Asset synchronisation

    [internal/service/asset_sync_service.go] with its repository and its handlers:
    hosts that come from a Prometheus server or an inventory, started by the
    scheduler or by an administrator, each in a goroutine of its own with the
    copy of the configuration it was started with.  What the HTTP client and the
    JSON decoder answer are parameters, and so is the order in which Go goes over
    a map.  Times are in nanoseconds. *)

From stdpp Require Import base list strings gmap sorting relations pretty.
From Stdlib Require Import ZArith Lia.
From S2P Require Import Prelude GoStrings Gorm Models Database Repositories Accounts Auth TwoFactor RedisLock HostMonitor Recorder AuditTrail Routes AuthApi Serving AccessApi Hosts HostsApi.
Local Open Scope Z_scope.

(** ** The repository *)

Module AssetSyncRepository.

Definition of_id (id : text) (c : AssetSyncConfig.t) : bool := text_eqb (AssetSyncConfig.ID c) id.
Definition zero_instant : Z := WebShellStorageAdapter.zero_time * second.
(** What [Create] stores: [enabled] has the default true, which takes the place of
    a zero field, and an empty [created_at] is now. *)
Definition stored (now : Z) (c : AssetSyncConfig.t) : AssetSyncConfig.t :=
  let c := AssetSyncConfig.set_enabled c true in
  if AssetSyncConfig.Created c =? zero_instant then AssetSyncConfig.set_created c now else c.

Definition created_later (a b : AssetSyncConfig.t) : Prop := AssetSyncConfig.Created b <= AssetSyncConfig.Created a.
#[global] Instance created_later_dec : RelDecision created_later.
Proof. intros a b. apply Z_le_dec. Defined.
Definition GetAll : DB (list AssetSyncConfig.t) := find (λ db, merge_sort created_later (sync_configs (logs (aux db)))).
Definition GetByID (id : text) : DB AssetSyncConfig.t := first (λ db, keep (of_id id) (sync_configs (logs (aux db)))).
Definition GetEnabledConfigs : DB (list AssetSyncConfig.t) :=
  find (λ db, keep AssetSyncConfig.Enabled (sync_configs (logs (aux db)))).
Definition Create (now : Z) (c : AssetSyncConfig.t) : DB AssetSyncConfig.t := statement (λ db,
  if existsb (of_id (AssetSyncConfig.ID c)) (sync_configs (logs (aux db))) then Err DuplicatedKey
  else Ok (set_sync_configs db (sync_configs (logs (aux db)) ++ [stored now c]), stored now c)).
(** [Save]: every column of the row, which is created when there is none. *)
Definition Update (now : Z) (c : AssetSyncConfig.t) : DB AssetSyncConfig.t := statement (λ db,
  let rows := sync_configs (logs (aux db)) in
  if existsb (of_id (AssetSyncConfig.ID c)) rows
  then Ok (set_sync_configs db (updated (of_id (AssetSyncConfig.ID c)) (λ _, c) <$> rows), c)
  else Ok (set_sync_configs db (rows ++ [stored now c]), stored now c)).
Definition Delete (id : text) : DB unit := execute (λ db,
  Ok (set_sync_configs db (keep (λ c, negb (of_id id c)) (sync_configs (logs (aux db)))))).
Definition with_status (status : text) (n : Z) (message : text) (c : AssetSyncConfig.t) : AssetSyncConfig.t :=
  {| AssetSyncConfig.ID := AssetSyncConfig.ID c; AssetSyncConfig.Name := AssetSyncConfig.Name c;
     AssetSyncConfig.Type_ := AssetSyncConfig.Type_ c; AssetSyncConfig.Enabled := AssetSyncConfig.Enabled c;
     AssetSyncConfig.URL := AssetSyncConfig.URL c; AssetSyncConfig.AuthType := AssetSyncConfig.AuthType c;
     AssetSyncConfig.Username := AssetSyncConfig.Username c; AssetSyncConfig.Password := AssetSyncConfig.Password c;
     AssetSyncConfig.Token := AssetSyncConfig.Token c; AssetSyncConfig.SyncInterval := AssetSyncConfig.SyncInterval c;
     AssetSyncConfig.LastSyncTime := AssetSyncConfig.LastSyncTime c; AssetSyncConfig.LastSyncStatus := status;
     AssetSyncConfig.SyncedCount := n; AssetSyncConfig.ErrorMessage := message;
     AssetSyncConfig.Config := AssetSyncConfig.Config c; AssetSyncConfig.Created := AssetSyncConfig.Created c |}.
Definition UpdateSyncStatus (id status : text) (n : Z) (message : text) : DB unit := execute (λ db,
  Ok (set_sync_configs db (updated (of_id id) (with_status status n message) <$> sync_configs (logs (aux db))))).

Definition logged_later (a b : AssetSyncLog.t) : Prop := AssetSyncLog.Created b <= AssetSyncLog.Created a.
#[global] Instance logged_later_dec : RelDecision logged_later.
Proof. intros a b. apply Z_le_dec. Defined.
Definition CreateLog (l : AssetSyncLog.t) : DB unit := execute (λ db,
  if existsb (λ r, text_eqb (AssetSyncLog.ID r) (AssetSyncLog.ID l)) (sync_logs (logs (aux db))) then Err DuplicatedKey
  else Ok (set_sync_logs db (sync_logs (logs (aux db)) ++ [l]))).
Definition GetLogs (configID : text) (limit : Z) : DB (list AssetSyncLog.t) := find (λ db,
  let rows := merge_sort logged_later
    (keep (λ l, is_empty configID || text_eqb (AssetSyncLog.ConfigID l) configID) (sync_logs (logs (aux db)))) in
  if 0 <? limit then take (Z.to_nat limit) rows else rows).
End AssetSyncRepository.

(** ** What comes over the network *)

(** The credentials of a request. *)
Inductive credentials := Anonymous | BasicAuth (username password : text) | Bearer (token : text).
(** One sample of a query: its labels and its value, a time and a text. *)
Inductive json_value := VText (s : text) | VOther.
Module Sample.
Record t := { Metric : gmap text text; Value : list json_value }.
End Sample.
Module CmdbHost.
Record t := { Hostname : text; IP : text; Port : Z; OS : text; Tags : list text }.
End CmdbHost.

(** The requests that can be made, the response with its status and, if it can be
    read, its body, and the decoders of the bodies and of the column [config]. *)
Class Outside := {
  NewRequest : text → result text unit;
  Do : text → credentials → result text (Z * result text text);
  read_samples : text → result text (list Sample.t);
  read_hosts : text → result text (list CmdbHost.t);
  read_query : text → option text;
  (** [net.ParseIP] of a text with a colon, when the address has four bytes. *)
  mapped_address : text → bool;
}.

(** [range] over a map: every entry once, in any order. *)
Definition ranges {A} (range : gmap text A → list (text * A)) : Prop := ∀ m, range m ≡ₚ map_to_list m.

(** ** Addresses *)

Definition extractIP (instance : text) : text :=
  if contains_rune 58 instance then default [] (head (split_on 58 instance)) else instance.

(** [net.ParseIP] of a text without colons: four numbers up to 255, without
    superfluous zeros. *)
Definition octet (s : text) : bool :=
  match s with
  | [] => false
  | [d] => is_digit d
  | 48 :: _ => false
  | _ => forallb is_digit s && (length s <=? 3)%nat && (foldl (λ n d, n * 10 + (d - 48)) 0 s <=? 255)
  end.
Definition dotted (ip : text) : bool :=
  let parts := split_on 46 ip in (length parts =? 4)%nat && forallb octet parts.

(** ** The synchronisation *)

(** What is kept of the samples of an address. *)
Module Info.
Record t := { job : text; status : text }.
End Info.

Definition online_info (i : Info.t) : bool := text_eqb (Info.status i) (txt "online").
(** The first sample of an address, or the first one that is online. *)
Definition collected (m : gmap text Info.t) (e : text * Info.t) : gmap text Info.t :=
  match m !! e.1 with
  | Some existing => if online_info e.2 && text_eqb (Info.status existing) (txt "offline") then <[e.1 := e.2]> m else m
  | None => <[e.1 := e.2]> m
  end.

Definition prometheus_host (id ip : text) (i : Info.t) : Host.t :=
  {| Host.ID := id; Host.Name := txt "prometheus-" ++ Info.job i ++ txt "-" ++ ip; Host.IP := ip; Host.Port := 22;
     Host.Status := Info.status i; Host.OS := []; Host.CPU := []; Host.Memory := [];
     Host.Tags := quoted "[^prometheus^,^" ++ Info.job i ++ quoted "^]"; Host.Description := [];
     Host.DeviceType := txt "server"; Host.ConnectionMode := txt "auto"; Host.ProxyID := []; Host.NetworkZone := [];
     Host.LastLoginTime := None; Host.LoginCount := 0 |}.
Definition json_array (l : list text) : text := [91] ++ join_with 44 (json_string <$> l) ++ [93].
Definition cmdb_host (id : text) (h : CmdbHost.t) : Host.t :=
  {| Host.ID := id; Host.Name := CmdbHost.Hostname h; Host.IP := CmdbHost.IP h; Host.Port := CmdbHost.Port h;
     Host.Status := []; Host.OS := CmdbHost.OS h; Host.CPU := []; Host.Memory := [];
     Host.Tags := json_array (CmdbHost.Tags h ++ [txt "cmdb"]); Host.Description := [];
     Host.DeviceType := txt "linux"; Host.ConnectionMode := []; Host.ProxyID := []; Host.NetworkZone := [];
     Host.LastLoginTime := None; Host.LoginCount := 0 |}.

(** One address: its host gets the status, or is created; the errors are logged.
    The answer says whether something was written. *)
Definition done_ok {A} (r : option A) : Z := match r with Some _ => 1 | None => 0 end.
Definition sync_address (id ip : text) (i : Info.t) : Eff text Z :=
  existing ← attempt (HostRepository.FindByIP ip);
  match existing with
  | Some h =>
      if text_eqb (Host.Status h) (Info.status i) then mret 0
      else r ← attempt (HostMonitor.UpdateStatus (Host.ID h) (Info.status i)); mret (done_ok r)
  | None => r ← attempt (HostRepository.Create (prometheus_host id ip i)); mret (done_ok r)
  end.
Definition sync_row (id : text) (h : CmdbHost.t) : Eff text Z :=
  existing ← attempt (HostRepository.FindByIP (CmdbHost.IP h));
  match existing with
  | Some _ => mret 0
  | None => r ← attempt (HostRepository.Create (cmdb_host id h)); mret (done_ok r)
  end.
(** [uuid n] is the key made up for the n-th of the loop. *)
Fixpoint sync_each {A} (body : text → A → Eff text Z) (uuid : nat → text) (n : nat) (l : list A) : Eff text Z :=
  match l with
  | [] => mret 0
  | x :: l => c ← body (uuid n) x; k ← sync_each body uuid (S n) l; mret (c + k)
  end.

Section service.
Context `{Outside} (range : gmap text Info.t → list (text * Info.t)) (err_text : db_error → text).

Definition isValidIP (ip : text) : bool := if contains_rune 58 ip then mapped_address ip else dotted ip.

Definition label (s : Sample.t) (name : string) : text := default [] (Sample.Metric s !! txt name).
Definition value_status (v : list json_value) : text :=
  match v with
  | _ :: VText s :: _ => if text_eqb s (txt "1") then txt "online" else txt "offline"
  | _ => txt "offline"
  end.
(** The samples of an address; the others are skipped. *)
Definition usable (s : Sample.t) : option (text * Info.t) :=
  let instance := label s "instance" in
  if is_empty instance then None
  else
    let ip := extractIP instance in
    if is_empty ip then None
    else if negb (isValidIP ip) then None
    else Some (ip, {| Info.job := if is_empty (label s "job") then txt "unknown" else label s "job";
                      Info.status := value_status (Sample.Value s) |}).
Definition collect (l : list Sample.t) : gmap text Info.t := foldl collected ∅ (omap usable l).

(** The body of the answer to a request. *)
Definition fetch (failed : text → text) (refused : Z → text) (url : text) (c : credentials) : result text text :=
  match NewRequest url with
  | Err e => Err e
  | Ok _ =>
      match Do url c with
      | Err e => Err (failed e)
      | Ok (status, body) => if status =? 200 then body else Err (refused status)
      end
  end.
Definition with_token (c : AssetSyncConfig.t) : credentials :=
  if text_eqb (AssetSyncConfig.AuthType c) (txt "token") then Bearer (AssetSyncConfig.Token c) else Anonymous.
Definition with_auth (c : AssetSyncConfig.t) : credentials :=
  if text_eqb (AssetSyncConfig.AuthType c) (txt "basic")
  then BasicAuth (AssetSyncConfig.Username c) (AssetSyncConfig.Password c) else with_token c.
Definition promQL (c : AssetSyncConfig.t) : text :=
  if is_empty (AssetSyncConfig.Config c) then txt "up"
  else match read_query (AssetSyncConfig.Config c) with
       | Some q => if is_empty q then txt "up" else q
       | None => txt "up"
       end.
Definition query_samples (c : AssetSyncConfig.t) : result text (list Sample.t) :=
  match fetch (λ e, txt "failed to query Prometheus: " ++ e)
          (λ s, txt "Prometheus returned status: " ++ txt (pretty s))
          (AssetSyncConfig.URL c ++ txt "/api/v1/query?query=" ++ QueryEscape (promQL c)) (with_auth c) with
  | Err e => Err e
  | Ok body => map_err (λ e, txt "failed to parse response: " ++ e) (read_samples body)
  end.
Definition cmdb_rows (c : AssetSyncConfig.t) : result text (list CmdbHost.t) :=
  match fetch (λ e, e) (λ s, txt "CMDB returned status: " ++ txt (pretty s)) (AssetSyncConfig.URL c) (with_token c) with
  | Err e => Err e
  | Ok body => read_hosts body
  end.

Definition syncFromPrometheus (c : AssetSyncConfig.t) (uuid : nat → text) : Eff text Z :=
  match query_samples c with
  | Err e => raise e
  | Ok l => sync_each (λ id e, sync_address id e.1 e.2) uuid 0 (range (collect l))
  end.
Definition syncFromZabbix : Eff text Z := raise (txt "Zabbix integration not fully implemented yet").
Definition syncFromCMDB (c : AssetSyncConfig.t) (uuid : nat → text) : Eff text Z :=
  match cmdb_rows c with Err e => raise e | Ok l => sync_each sync_row uuid 0 l end.
Definition syncFromCustomAPI (c : AssetSyncConfig.t) : Eff text Z :=
  match NewRequest (AssetSyncConfig.URL c) with
  | Err e => raise e
  | Ok _ => match Do (AssetSyncConfig.URL c) (with_token c) with
            | Err e => raise e
            | Ok _ => raise (txt "Custom API integration requires specific implementation")
            end
  end.

Definition sync_hosts (c : AssetSyncConfig.t) (uuid : nat → text) : Eff text Z :=
  let type := AssetSyncConfig.Type_ c in
  if text_eqb type (txt "prometheus") then syncFromPrometheus c uuid
  else if text_eqb type (txt "zabbix") then syncFromZabbix
  else if text_eqb type (txt "cmdb") then syncFromCMDB c uuid
  else if text_eqb type (txt "custom") then syncFromCustomAPI c
  else raise (txt "unsupported sync type: " ++ type).

(** The configuration it was started with is saved with the outcome, which is
    logged; the errors of both are ignored. *)
Definition sync_log (c : AssetSyncConfig.t) (r : result text Z) (logID : text) (started now : Z) : AssetSyncLog.t :=
  {| AssetSyncLog.ID := logID; AssetSyncLog.ConfigID := AssetSyncConfig.ID c;
     AssetSyncLog.Status := if is_ok r then txt "success" else txt "failed";
     AssetSyncLog.SyncedCount := match r with Ok n => n | Err _ => 0 end;
     AssetSyncLog.ErrorMessage := match r with Ok _ => [] | Err e => e end;
     AssetSyncLog.Duration := Z.quot (now - started) second; AssetSyncLog.Created := now |}.
Definition executeSync (c : AssetSyncConfig.t) (uuid : nat → text) (logID : text) (started now : Z) : Eff text unit :=
  r ← caught (sync_hosts c uuid);
  let l := sync_log c r logID started now in
  _ ← attempt (AssetSyncRepository.Update now (AssetSyncConfig.set_outcome c now (AssetSyncLog.Status l)
                (AssetSyncLog.SyncedCount l) (AssetSyncLog.ErrorMessage l)));
  _ ← attempt (AssetSyncRepository.CreateLog l);
  match r with Ok _ => mret () | Err e => raise e end.

(** [SyncNow] up to [executeSync]: the configuration it starts with. *)
Definition startSync (configID : text) : Eff text AssetSyncConfig.t :=
  config ← or_fail (λ e, txt "配置不存在: " ++ err_text e) (AssetSyncRepository.GetByID configID);
  if negb (AssetSyncConfig.Enabled config) then raise (txt "同步配置已禁用") else mret config.
Definition SyncNow (configID : text) (uuid : nat → text) (logID : text) (started now : Z) : Eff text unit :=
  config ← startSync configID; executeSync config uuid logID started now.

(** The scheduler: the configurations a goroutine is started for. *)
Definition due (now : Z) (c : AssetSyncConfig.t) : bool :=
  match AssetSyncConfig.LastSyncTime c with
  | Some t => negb (now <? t + minutes (AssetSyncConfig.SyncInterval c))
  | None => true
  end.
Definition checkAndSync {E} (now : Z) : Eff E (list AssetSyncConfig.t) :=
  configs ← attempt AssetSyncRepository.GetEnabledConfigs;
  mret (keep (due now) (default [] configs)).

(** ** The handlers *)

Definition or_500 {A} (m : DB A) : Http A := or_fail (λ e, (500, err_text e)) m.
Definition ListConfigs : Http (list AssetSyncConfig.t) := or_500 AssetSyncRepository.GetAll.
Definition CreateConfig (now : Z) (req : option AssetSyncConfig.t) (newID : text) : Http AssetSyncConfig.t :=
  match req with
  | None => undecoded
  | Some req => or_500 (AssetSyncRepository.Create now (AssetSyncConfig.set_id req newID))
  end.
Definition UpdateConfig (now : Z) (id : text) (req : option AssetSyncConfig.t) : Http AssetSyncConfig.t :=
  match req with
  | None => undecoded
  | Some req => or_500 (AssetSyncRepository.Update now (AssetSyncConfig.set_id req id))
  end.
Definition DeleteConfig (id : text) : Http unit := or_500 (AssetSyncRepository.Delete id).
Definition ToggleConfig (now : Z) (id : text) : Http AssetSyncConfig.t :=
  config ← answering 404 "配置不存在" (AssetSyncRepository.GetByID id);
  or_500 (AssetSyncRepository.Update now (AssetSyncConfig.set_enabled config (negb (AssetSyncConfig.Enabled config)))).
(** The synchronisation itself runs in a goroutine. *)
Definition SyncNow_handler (id : text) : Http text := mret (txt "同步任务已启动").
Definition GetLogs (configID : text) : Http (list AssetSyncLog.t) := or_500 (AssetSyncRepository.GetLogs configID 50).

Inductive call :=
  | c_ListConfigs
  | c_CreateConfig (req : option AssetSyncConfig.t) (newID : text)
  | c_UpdateConfig (id : text) (req : option AssetSyncConfig.t)
  | c_DeleteConfig (id : text)
  | c_ToggleConfig (id : text)
  | c_SyncNow (id : text)
  | c_GetLogs (configID : text).
Definition handler_name (c : call) : string :=
  match c with
  | c_ListConfigs => "assetSyncHandler.ListConfigs"
  | c_CreateConfig _ _ => "assetSyncHandler.CreateConfig"
  | c_UpdateConfig _ _ => "assetSyncHandler.UpdateConfig"
  | c_DeleteConfig _ => "assetSyncHandler.DeleteConfig"
  | c_ToggleConfig _ => "assetSyncHandler.ToggleConfig"
  | c_SyncNow _ => "assetSyncHandler.SyncNow"
  | c_GetLogs _ => "assetSyncHandler.GetLogs"
  end.
Inductive answer :=
  | AConfigs (l : list AssetSyncConfig.t) | AConfig (c : AssetSyncConfig.t) | AMessage (s : text)
  | ALogs (l : list AssetSyncLog.t) | Nothing.
Definition sync_run (now : Z) (c : call) : Http answer :=
  match c with
  | c_ListConfigs => reply AConfigs ListConfigs
  | c_CreateConfig req newID => reply AConfig (CreateConfig now req newID)
  | c_UpdateConfig id req => reply AConfig (UpdateConfig now id req)
  | c_DeleteConfig id => reply (λ _, Nothing) (DeleteConfig id)
  | c_ToggleConfig id => reply AConfig (ToggleConfig now id)
  | c_SyncNow id => reply AMessage (SyncNow_handler id)
  | c_GetLogs id => reply ALogs (GetLogs id)
  end.
Definition sync_api : Api call answer := {| handler_of := handler_name; run := λ _, sync_run |}.
End service.

(** ** Facts *)

(** *** What is kept of the samples *)

Definition samples_of (ip : text) (l : list (text * Info.t)) : list Info.t := snd <$> keep (λ e, text_eqb e.1 ip) l.
(** The first that is online, or the first. *)
Definition best (l : list Info.t) : option Info.t :=
  match keep online_info l with i :: _ => Some i | [] => head l end.
Definition plain_info (e : text * Info.t) : Prop := Info.status e.2 = if online_info e.2 then txt "online" else txt "offline".

Lemma best_app l i : best (l ++ [i]) =
  match best l with
  | Some b => if online_info i && negb (online_info b) then Some i else Some b
  | None => Some i
  end.
Proof.
  unfold best. rewrite keep_app. destruct (keep online_info l) as [|b k] eqn:Ek.
  - cbn [app keep]. destruct l as [|b l]; cbn [app head].
    + by destruct (online_info i).
    + destruct (online_info b) eqn:Eb; [by cbn in Ek; rewrite Eb in Ek|]. by destruct (online_info i).
  - destruct (keep_head _ _ _ _ Ek) as [_ Eb]. cbn [app]. rewrite Eb. by destruct (online_info i).
Qed.

Lemma samples_of_app ip l e : samples_of ip (l ++ [e]) =
  if text_eqb e.1 ip then samples_of ip l ++ [e.2] else samples_of ip l.
Proof.
  unfold samples_of. rewrite keep_app, fmap_app. cbn [keep]. destruct (text_eqb e.1 ip); cbn; [done|]. by rewrite app_nil_r.
Qed.

Lemma best_elem l i : best l = Some i → i ∈ l.
Proof.
  unfold best. destruct (keep online_info l) as [|b k] eqn:Ek.
  - destruct l; cbn; [done|]. intros [= ->]. left.
  - intros [= <-]. by destruct (keep_head _ _ _ _ Ek).
Qed.

Lemma collected_best l ip : Forall plain_info l → foldl collected ∅ l !! ip = best (samples_of ip l).
Proof.
  revert ip. induction l as [|e l IH] using rev_ind; intros ip HF; [done|].
  apply Forall_app in HF as [HF He]. apply Forall_singleton in He. specialize (IH e.1 HF) as IHe. specialize (IH ip HF).
  rewrite foldl_app, samples_of_app. cbn [foldl]. unfold collected at 1. rewrite IHe.
  destruct (text_eqb e.1 ip) eqn:E.
  - apply text_eqb_true in E. subst ip. rewrite best_app. destruct (best (samples_of e.1 l)) as [b|] eqn:Eb; [|by rewrite lookup_insert_eq].
    assert (text_eqb (Info.status b) (txt "offline") = negb (online_info b)) as ->.
    { apply best_elem in Eb. apply list_elem_of_fmap in Eb as ([k x] & -> & [Hin _]%elem_of_keep).
      apply (proj1 (Forall_forall _ _) HF) in Hin. unfold plain_info in Hin. cbn [snd] in *. rewrite Hin.
      destruct (online_info x); by vm_compute. }
    destruct (online_info e.2 && negb (online_info b)); [by rewrite lookup_insert_eq|done].
  - assert (e.1 ≠ ip) as Hne by (intros Hx; rewrite Hx, text_eqb_refl in E; done).
    destruct (best (samples_of e.1 l)) as [b|]; [|by rewrite lookup_insert_ne].
    destruct (_ && _); [by rewrite lookup_insert_ne|done].
Qed.

(** *** The addresses one by one *)

(** What a host becomes, and whether that is another. *)
Definition refreshed (m : gmap text Info.t) (h : Host.t) : Host.t :=
  match m !! Host.IP h with Some i => with_status h (Info.status i) | None => h end.
Definition stale (m : gmap text Info.t) (h : Host.t) : bool :=
  match m !! Host.IP h with Some i => negb (text_eqb (Host.Status h) (Info.status i)) | None => false end.
Definition at_address (ip : text) (h : Host.t) : bool := text_eqb (Host.IP h) ip.
(** The rows for the addresses that no host has. *)
Fixpoint new_hosts (uuid : nat → text) (n : nat) (hs : list Host.t) (l : list (text * Info.t)) : list Host.t :=
  match l with
  | [] => []
  | (ip, i) :: l =>
      if existsb (at_address ip) hs then new_hosts uuid (S n) hs l
      else HostRepository.stored (prometheus_host (uuid n) ip i) :: new_hosts uuid (S n) hs l
  end.

Lemma host_status_same h : with_status h (Host.Status h) = h.
Proof. by destruct h. Qed.

Lemma refreshed_empty (hs : list Host.t) : refreshed ∅ <$> hs = hs.
Proof. rewrite <- (list_fmap_id hs) at 2. by apply list_fmap_ext. Qed.

Lemma no_address ip (hs : list Host.t) : existsb (at_address ip) hs = false → ip ∉ Host.IP <$> hs.
Proof.
  intros He (h & -> & Hh)%list_elem_of_fmap. apply (proj1 (existsb_none _ _)) with (x := h) in He; [|done].
  unfold at_address in He. by rewrite text_eqb_refl in He.
Qed.

Lemma refreshed_other ip i m (hs : list Host.t) : ip ∉ Host.IP <$> hs → refreshed (<[ip := i]> m) <$> hs = refreshed m <$> hs.
Proof.
  intros Hip. apply list_fmap_ext. intros k h Hk. unfold refreshed. rewrite lookup_insert_ne; [done|].
  intros ->. apply Hip, list_elem_of_fmap_2. by apply list_elem_of_lookup_2 in Hk.
Qed.
Lemma stale_other ip i m (hs : list Host.t) : ip ∉ Host.IP <$> hs → keep (stale (<[ip := i]> m)) hs = keep (stale m) hs.
Proof.
  induction hs as [|h hs IH]; intros Hip; [done|]. cbn [fmap list_fmap] in Hip. apply not_elem_of_cons in Hip as [Hh Hip].
  cbn [keep]. rewrite IH by done. unfold stale. by rewrite lookup_insert_ne.
Qed.

(** The hosts around the one with an address. *)
Lemma address_split ip (hs : list Host.t) : NoDup (Host.IP <$> hs) → existsb (at_address ip) hs = true →
  ∃ a h b, hs = a ++ h :: b ∧ Host.IP h = ip ∧ ip ∉ Host.IP <$> a ∧ ip ∉ Host.IP <$> b.
Proof.
  intros HN (h & Hh & E%text_eqb_true)%existsb_elem. apply list_elem_of_split in Hh as (a & b & ->).
  exists a, h, b. split; [done|]. split; [done|]. rewrite fmap_app in HN. cbn [fmap list_fmap] in HN.
  apply NoDup_app in HN as (_ & Ha & [Hb _]%NoDup_cons). rewrite E in *. split; [|done].
  intros Hin. apply (Ha _ Hin). left.
Qed.

Lemma keep_address ip (a : list Host.t) h b : Host.IP h = ip → ip ∉ Host.IP <$> a → ip ∉ Host.IP <$> b →
  keep (at_address ip) (a ++ h :: b) = [h].
Proof.
  intros E Ha Hb. assert (∀ l : list Host.t, ip ∉ Host.IP <$> l → keep (at_address ip) l = []) as Hn.
  { intros l Hl. apply keep_none. intros y Hy. apply text_eqb_false. intros <-. apply Hl. by apply list_elem_of_fmap_2. }
  rewrite keep_app, (Hn a) by done. cbn [keep app]. rewrite (Hn b) by done. unfold at_address. by rewrite E, text_eqb_refl.
Qed.

Lemma host_updated_one (a b : list Host.t) h f : NoDup (Host.ID <$> a ++ h :: b) →
  updated (has_host_id (Host.ID h)) f <$> a ++ h :: b = a ++ f h :: b.
Proof.
  intros HN. rewrite fmap_app in HN. cbn [fmap list_fmap] in HN. apply NoDup_app in HN as (_ & Ha & [Hb _]%NoDup_cons).
  assert (∀ l : list Host.t, Host.ID h ∉ Host.ID <$> l → updated (has_host_id (Host.ID h)) f <$> l = l) as Hn.
  { intros l Hl. rewrite <- (list_fmap_id l) at 2. apply list_fmap_ext. intros k x Hx. unfold updated, has_host_id.
    rewrite text_eqb_false; [done|]. intros E. apply Hl. rewrite <- E. apply list_elem_of_fmap_2.
    by apply list_elem_of_lookup_2 in Hx. }
  rewrite fmap_app, fmap_cons, (Hn b), (Hn a); [|intros Hin; apply (Ha _ Hin); left|done].
  unfold updated, has_host_id. by rewrite text_eqb_refl.
Qed.
Lemma set_hosts_id db : set_hosts db (hosts db) = db.
Proof. by destruct db. Qed.

Lemma address_known id ip i db a h b : NoDup (Host.ID <$> hosts db) →
  hosts db = a ++ h :: b → Host.IP h = ip → ip ∉ Host.IP <$> a → ip ∉ Host.IP <$> b →
  sync_address id ip i db [] =
  (Ok (if text_eqb (Host.Status h) (Info.status i) then 0 else 1), set_hosts db (a ++ with_status h (Info.status i) :: b), []).
Proof.
  intros HN Eh Hip Ha Hb. unfold sync_address, HostRepository.FindByIP, first, query. rewrite bind_run. unfold attempt.
  cbn [list.tail]. fold (at_address ip). change (λ h0 : Host.t, text_eqb (Host.IP h0) ip) with (at_address ip).
  rewrite Eh, (keep_address ip a h b) by done. destruct (text_eqb (Host.Status h) (Info.status i)) eqn:Es.
  - apply text_eqb_true in Es. by rewrite <- Es, host_status_same, <- Eh, set_hosts_id.
  - unfold HostMonitor.UpdateStatus, execute, set_host_status. rewrite bind_run. cbn [list.tail done_ok].
    rewrite Eh in HN |- *. by rewrite (host_updated_one a b h (λ h, with_status h (Info.status i)) HN).
Qed.

Lemma address_new id ip i db : existsb (at_address ip) (hosts db) = false → id ∉ Host.ID <$> hosts db →
  sync_address id ip i db [] = (Ok 1, set_hosts db (hosts db ++ [HostRepository.stored (prometheus_host id ip i)]), []).
Proof.
  intros He Hid. unfold sync_address, HostRepository.FindByIP, first, query. rewrite bind_run. unfold attempt.
  cbn [list.tail]. change (λ h0 : Host.t, text_eqb (Host.IP h0) ip) with (at_address ip).
  rewrite keep_none by by apply existsb_none. unfold HostRepository.Create, execute. rewrite bind_run. cbn [list.tail].
  assert (existsb (HostRepository.of_id (Host.ID (prometheus_host id ip i))) (hosts db) = false) as ->; [|done].
  apply existsb_none. intros h Hh. apply text_eqb_false. intros E. apply Hid. cbn [Host.ID prometheus_host] in E. rewrite <- E.
  by apply list_elem_of_fmap_2.
Qed.

Lemma ret_same (z z' : Z) (db db' : Db) : z = z' → db = db' →
  (mret z : Eff text Z) db [] = (Ok z', db', []).
Proof. by intros -> ->. Qed.

(** The new rows depend on the addresses alone, and are not at those. *)
Lemma new_hosts_ext uuid n hs hs' l : Host.IP <$> hs = Host.IP <$> hs' → new_hosts uuid n hs l = new_hosts uuid n hs' l.
Proof.
  intros E. assert (∀ ip, existsb (at_address ip) hs = existsb (at_address ip) hs') as Hx.
  { intros ip. revert hs' E. induction hs as [|h hs IH]; intros [|h' hs'] E; try done.
    injection E as E1 E2. simpl. rewrite (IH hs' E2). unfold at_address. by rewrite E1. }
  revert n. induction l as [|[ip i] l IH]; intros n; [done|]. cbn [new_hosts]. by rewrite Hx, !IH.
Qed.
Lemma new_hosts_app uuid n hs p l : Host.IP p ∉ l.*1 → new_hosts uuid n (hs ++ [p]) l = new_hosts uuid n hs l.
Proof.
  revert n. induction l as [|[ip i] l IH]; intros n Hp; [done|]. cbn [fmap list_fmap fst] in Hp.
  apply not_elem_of_cons in Hp as [Hne Hp]. cbn [new_hosts]. rewrite existsb_app. cbn [existsb]. unfold at_address at 2.
  rewrite text_eqb_false by done. by rewrite !orb_false_r, !IH.
Qed.

Lemma addresses_run uuid n l db : NoDup (Host.ID <$> hosts db) → NoDup (Host.IP <$> hosts db) → NoDup l.*1 →
  (∀ i j, uuid i = uuid j → i = j) → (∀ k, (n ≤ k)%nat → uuid k ∉ Host.ID <$> hosts db) →
  let m := list_to_map l : gmap text Info.t in
  let new := new_hosts uuid n (hosts db) l in
  sync_each (λ id e, sync_address id e.1 e.2) uuid n l db [] =
  (Ok (Z.of_nat (length (keep (stale m) (hosts db)) + length new)), set_hosts db ((refreshed m <$> hosts db) ++ new), []).
Proof.
  intros HI HA Hl Hu. revert n db HI HA. induction l as [|[ip i] l IH]; intros n db HI HA Hn m new.
  - unfold m, new. cbn [list_to_map new_hosts sync_each foldr fmap list_fmap]. rewrite app_nil_r, refreshed_empty, set_hosts_id.
    rewrite keep_none; [done|]. intros h _. unfold stale. by rewrite lookup_empty.
  - cbn [fmap list_fmap fst] in Hl. apply NoDup_cons in Hl as [Hip Hl]. specialize (IH Hl).
    assert ((list_to_map l : gmap text Info.t) !! ip = None) as Hm by by apply not_elem_of_list_to_map_1.
    unfold m, new. cbn [list_to_map new_hosts sync_each foldr fst snd]. rewrite bind_run.
    destruct (existsb (at_address ip) (hosts db)) eqn:He.
    + destruct (address_split ip (hosts db) HA He) as (a & h & b & Eh & Eip & Ha & Hb).
      rewrite (address_known (uuid n) ip i db a h b) by done. rewrite bind_run.
      set (h' := with_status h (Info.status i)). set (db1 := set_hosts db (a ++ h' :: b)).
      assert (Host.ID <$> hosts db1 = Host.ID <$> hosts db) as EI by (rewrite Eh; cbn [db1 hosts set_hosts]; by rewrite !fmap_app).
      assert (Host.IP <$> hosts db1 = Host.IP <$> hosts db) as EA by (rewrite Eh; cbn [db1 hosts set_hosts]; by rewrite !fmap_app).
      rewrite IH; [|by rewrite EI|by rewrite EA|intros k Hk; rewrite EI; apply Hn; lia].
      rewrite (new_hosts_ext uuid (S n) (hosts db1) (hosts db) l) by done.
      apply ret_same.
      * rewrite Eh. cbn [db1 hosts set_hosts]. rewrite !keep_app, !length_app. cbn [keep].
        rewrite !stale_other by done.
        assert (stale (list_to_map l) h' = false) as -> by (unfold stale; change (Host.IP h') with (Host.IP h); by rewrite Eip, Hm).
        assert (stale (<[ip := i]> (list_to_map l)) h = negb (text_eqb (Host.Status h) (Info.status i))) as ->
          by (unfold stale; by rewrite Eip, lookup_insert_eq).
        destruct (text_eqb _ _); cbn [negb length]; lia.
      * unfold set_hosts. cbn. f_equal. f_equal. rewrite Eh, !fmap_app, !fmap_cons, !refreshed_other by done.
        assert (refreshed (list_to_map l) h' = h') as ->
          by (unfold refreshed; change (Host.IP h') with (Host.IP h); by rewrite Eip, Hm).
        unfold refreshed at 4. by rewrite Eip, lookup_insert_eq.
    + pose proof (no_address ip _ He) as Hout. rewrite (address_new (uuid n) ip i db) by (done || apply Hn; lia). rewrite bind_run.
      set (p := HostRepository.stored (prometheus_host (uuid n) ip i)). set (db1 := set_hosts db (hosts db ++ [p])).
      rewrite (IH (S n) db1); cycle 1.
      * cbn [db1 hosts set_hosts]. rewrite fmap_app. apply NoDup_app. split; [done|]. split; [|apply NoDup_singleton].
        intros x Hx ->%list_elem_of_singleton. by apply (Hn n).
      * cbn [db1 hosts set_hosts]. rewrite fmap_app. apply NoDup_app. split; [done|]. split; [|apply NoDup_singleton].
        intros x Hx ->%list_elem_of_singleton. by apply Hout.
      * intros k Hk. cbn [db1 hosts set_hosts]. rewrite fmap_app. intros [Hin|Hin]%elem_of_app; [apply (Hn k); [lia|done]|].
        apply list_elem_of_singleton in Hin. change (Host.ID p) with (uuid n) in Hin. apply Hu in Hin. lia.
      * cbn [db1 hosts set_hosts]. rewrite (new_hosts_app uuid (S n) (hosts db) p l) by done.
        assert (stale (list_to_map l) p = false) as Es by (unfold stale; change (Host.IP p) with ip; by rewrite Hm).
        assert (refreshed (list_to_map l) p = p) as Er by (unfold refreshed; change (Host.IP p) with ip; by rewrite Hm).
        rewrite keep_app, stale_other, refreshed_other, fmap_app by done. cbn [keep fmap list_fmap]. rewrite Es, Er, app_nil_r.
        rewrite <- app_assoc. apply ret_same; [cbn [length]; lia|done].
Qed.

Section facts.
Context `{Outside} (range : gmap text Info.t → list (text * Info.t)) (err_text : db_error → text).

Lemma usable_plain l : Forall plain_info (omap usable l).
Proof.
  apply Forall_forall. intros e (s & _ & Hs)%list_elem_of_omap. unfold usable in Hs.
  destruct (is_empty _); [done|]. destruct (is_empty _); [done|]. destruct (negb _); [done|]. injection Hs as <-.
  unfold plain_info, online_info. cbn [snd Info.status]. unfold value_status.
  destruct (Sample.Value s) as [|x [|[v|] ] ]; try by vm_compute. destruct (text_eqb v (txt "1")); by vm_compute.
Qed.

(** The address of an instance has no colon, and is four numbers. *)
Lemma extractIP_colon s : contains_rune 58 (extractIP s) = false.
Proof.
  unfold extractIP. destruct (contains_rune 58 s) eqn:E; [|done]. clear E. unfold contains_rune. apply existsb_none.
  induction s as [|r s IH]; cbn [split_on].
  - intros x Hx. by apply elem_of_nil in Hx.
  - destruct (Z.eqb_spec r 58) as [->|Hr]; [intros x Hx; by apply elem_of_nil in Hx|].
    destruct (split_on 58 s) as [|w ws]; cbn [head default] in *; intros x [->|Hx]%elem_of_cons; try (apply Z.eqb_neq; congruence).
    + by apply elem_of_nil in Hx.
    + by apply IH.
Qed.
Lemma usable_dotted s e : usable s = Some e → dotted e.1 = true.
Proof.
  unfold usable. destruct (is_empty _); [done|]. destruct (is_empty _); [done|].
  destruct (isValidIP _) eqn:E; [|done]. intros [= <-]. unfold isValidIP in E. by rewrite extractIP_colon in E.
Qed.

(** *** A synchronisation from Prometheus *)

Lemma range_keys m : ranges range → NoDup (range m).*1 ∧ list_to_map (range m) = m.
Proof.
  intros Hr. assert (NoDup (range m).*1) as HN by (rewrite (Hr m); apply NoDup_fst_map_to_list). split; [done|].
  rewrite (list_to_map_proper _ (map_to_list m)) by done. apply list_to_map_to_list.
Qed.

Lemma new_hosts_of uuid n hs l h : h ∈ new_hosts uuid n hs l →
  ∃ k i, (n ≤ k)%nat ∧ (Host.IP h, i) ∈ l ∧ Host.IP h ∉ Host.IP <$> hs ∧
    h = HostRepository.stored (prometheus_host (uuid k) (Host.IP h) i).
Proof.
  revert n. induction l as [|[ip i] l IH]; intros n; cbn [new_hosts]; [by intros []%elem_of_nil|].
  assert (h ∈ new_hosts uuid (S n) hs l → ∃ k j, (n ≤ k)%nat ∧ (Host.IP h, j) ∈ (ip, i) :: l ∧ Host.IP h ∉ Host.IP <$> hs ∧
    h = HostRepository.stored (prometheus_host (uuid k) (Host.IP h) j)) as Htl.
  { intros (k & j & Hk & Hj & Hr)%IH. exists k, j. split; [lia|]. split; [by right|done]. }
  destruct (existsb (at_address ip) hs) eqn:He; [done|]. intros [->|Hh]%elem_of_cons; [|by apply Htl].
  exists n, i. split; [done|]. split; [left|]. split; [by apply no_address|done].
Qed.
Lemma new_hosts_cover uuid n hs l ip : ip ∈ l.*1 → ip ∈ Host.IP <$> (hs ++ new_hosts uuid n hs l).
Proof.
  intros Hin. rewrite fmap_app. apply elem_of_app. revert n. induction l as [|[ip' i] l IH]; intros n; [by apply elem_of_nil in Hin|].
  cbn [new_hosts]. cbn [fmap list_fmap fst] in Hin. apply elem_of_cons in Hin as [<-|Hin].
  - destruct (existsb (at_address ip) hs) eqn:He; [left|right; left].
    apply existsb_elem in He as (h & Hh & <-%text_eqb_true). by apply list_elem_of_fmap_2.
  - destruct (IH Hin (S n)) as [Hl|Hr]; [by left|right]. destruct (existsb _ hs); [done|]. by right.
Qed.

Lemma new_hosts_distinct uuid n hs l : NoDup l.*1 → (∀ i j, uuid i = uuid j → i = j) →
  NoDup (Host.IP <$> new_hosts uuid n hs l) ∧ NoDup (Host.ID <$> new_hosts uuid n hs l).
Proof.
  intros Hl Hu. revert n. induction l as [|[ip i] l IH]; intros n; [split; constructor|]. cbn [new_hosts].
  cbn [fmap list_fmap fst] in Hl. apply NoDup_cons in Hl as [Hip Hl]. destruct (IH Hl (S n)) as [HA HI].
  destruct (existsb (at_address ip) hs); [done|]. rewrite !fmap_cons. split; apply NoDup_cons; split; try done.
  - intros (h & E & (k & j & _ & Hj & _)%new_hosts_of)%list_elem_of_fmap. apply Hip. change (ip = Host.IP h) in E. rewrite E.
    by apply (list_elem_of_fmap_2 fst) in Hj.
  - intros (h & E & (k & j & Hk & _ & _ & Eh)%new_hosts_of)%list_elem_of_fmap. rewrite Eh in E.
    change (uuid n = uuid k) in E. apply Hu in E. lia.
Qed.

Lemma refreshed_keys m (hs : list Host.t) :
  Host.ID <$> (refreshed m <$> hs) = Host.ID <$> hs ∧ Host.IP <$> (refreshed m <$> hs) = Host.IP <$> hs.
Proof.
  rewrite <- !list_fmap_compose. split; apply list_fmap_ext; intros k h _; cbn [compose]; unfold refreshed; by destruct (_ !! _).
Qed.

(** The keys that are made up are new, distinct and not empty. *)
Record fresh_keys (uuid : nat → text) (db : Db) : Prop := {
  keys_differ : ∀ i j, uuid i = uuid j → i = j;
  keys_unused : ∀ k, uuid k ∉ Host.ID <$> hosts db;
  keys_given : ∀ k, uuid k ≠ [] }.

Lemma after_distinct uuid m db : ranges range → distinct_hosts db → fresh_keys uuid db →
  distinct_hosts (set_hosts db ((refreshed m <$> hosts db) ++ new_hosts uuid 0 (hosts db) (range m))).
Proof.
  intros Hr [HI HA HE] [Hu Hn Hg]. destruct (range_keys m Hr) as [HN _].
  destruct (new_hosts_distinct uuid 0 (hosts db) (range m) HN Hu) as [HA' HI'].
  destruct (refreshed_keys m (hosts db)) as [EI EA].
  split; cbn [hosts set_hosts]; rewrite fmap_app, ?EI, ?EA.
  - apply NoDup_app. split; [done|]. split; [|done]. intros x Hx (h & -> & (k & j & _ & _ & _ & Eh)%new_hosts_of)%list_elem_of_fmap.
    apply (Hn k). rewrite Eh in Hx. exact Hx.
  - apply NoDup_app. split; [done|]. split; [|done]. by intros x Hx (h & -> & (k & j & _ & _ & Ho & _)%new_hosts_of)%list_elem_of_fmap.
  - intros [Hx|Hx]%elem_of_app; [done|]. apply list_elem_of_fmap in Hx as (h & E & (k & j & _ & _ & _ & Eh)%new_hosts_of).
    apply (Hg k). rewrite Eh in E. by rewrite E.
Qed.

(** After the hosts the outcome is saved, and nothing else of them changes. *)
Definition has_outcome (c : AssetSyncConfig.t) (r : result text Z) (now : Z) (row : AssetSyncConfig.t) : Prop :=
  AssetSyncConfig.ID row = AssetSyncConfig.ID c ∧ AssetSyncConfig.LastSyncTime row = Some now ∧
  AssetSyncConfig.LastSyncStatus row = (if is_ok r then txt "success" else txt "failed") ∧
  AssetSyncConfig.SyncedCount row = (match r with Ok n => n | Err _ => 0 end) ∧
  AssetSyncConfig.ErrorMessage row = (match r with Ok _ => [] | Err e => e end).

Lemma update_saves now c db : ∃ row db', AssetSyncRepository.Update now c db [] = (Ok row, db', []) ∧ hosts db' = hosts db ∧
  row ∈ sync_configs (logs (aux db')) ∧ sync_logs (logs (aux db')) = sync_logs (logs (aux db)) ∧ (row = c ∨ row = AssetSyncRepository.stored now c).
Proof.
  unfold AssetSyncRepository.Update, statement. cbn [list.tail].
  destruct (existsb _ (sync_configs (logs (aux db)))) eqn:E; do 2 eexists; (split; [reflexivity|]); (split; [done|]); cbn [sync_configs logs aux set_sync_configs set_logs set_aux].
  - split; [|by split; [|left] ]. apply existsb_elem in E as (x & Hx & Ex). apply list_elem_of_fmap. exists x.
    unfold updated. by rewrite Ex.
  - split; [|by split; [|right] ]. apply elem_of_app. right. left.
Qed.

Lemma stored_fields now c : let s := AssetSyncRepository.stored now c in
  AssetSyncConfig.ID s = AssetSyncConfig.ID c ∧ AssetSyncConfig.LastSyncTime s = AssetSyncConfig.LastSyncTime c ∧
  AssetSyncConfig.LastSyncStatus s = AssetSyncConfig.LastSyncStatus c ∧ AssetSyncConfig.SyncedCount s = AssetSyncConfig.SyncedCount c ∧
  AssetSyncConfig.ErrorMessage s = AssetSyncConfig.ErrorMessage c ∧ AssetSyncConfig.Enabled s = true.
Proof. unfold AssetSyncRepository.stored. cbn zeta. by destruct (_ =? _). Qed.

Lemma execute_run c uuid logID started now db r db1 : sync_hosts range c uuid db [] = (r, db1, []) →
  ∃ db2 row, executeSync range c uuid logID started now db [] =
      (match r with Ok _ => Ok () | Err e => Err e end, db2, []) ∧ hosts db2 = hosts db1 ∧
    row ∈ sync_configs (logs (aux db2)) ∧ has_outcome c r now row ∧
    (AssetSyncConfig.Enabled c = true → AssetSyncConfig.Enabled row = true) ∧
    ((∀ x, x ∈ sync_logs (logs (aux db1)) → AssetSyncLog.ID x ≠ logID) →
     sync_logs (logs (aux db2)) = sync_logs (logs (aux db1)) ++ [sync_log c r logID started now]).
Proof.
  intros Hs. unfold executeSync. rewrite bind_run. unfold caught at 1. rewrite Hs. cbv zeta. rewrite bind_run. unfold attempt at 1.
  set (c' := AssetSyncConfig.set_outcome c now _ _ _).
  destruct (update_saves now c' db1) as (row & db2 & E & Eh & Hin & El & Hrow). rewrite E.
  assert (has_outcome c r now row ∧ (AssetSyncConfig.Enabled c = true → AssetSyncConfig.Enabled row = true)) as [Ho Hen].
  { destruct (stored_fields now c') as (S1 & S2 & S3 & S4 & S5 & S6).
    destruct Hrow as [->| ->]; unfold has_outcome; rewrite ?S1, ?S2, ?S3, ?S4, ?S5, ?S6; by repeat split. }
  rewrite bind_run. unfold attempt, AssetSyncRepository.CreateLog, execute. cbn [list.tail].
  destruct (existsb _ (sync_logs (logs (aux db2)))) eqn:Ec.
  - exists db2, row. split; [by destruct r|]. split; [done|]. split; [done|]. split; [done|]. split; [done|]. intros Hf.
    apply existsb_elem in Ec as (x & Hx & Ex%text_eqb_true). rewrite El in Hx. by destruct (Hf x Hx).
  - eexists _, row. split; [by destruct r|]. split; [done|]. split; [done|]. split; [done|]. split; [done|]. intros _.
    cbn [sync_logs logs aux set_sync_logs set_logs set_aux]. by rewrite El.
Qed.

Lemma prometheus_run c uuid db l : distinct_hosts db → ranges range → fresh_keys uuid db →
  AssetSyncConfig.Type_ c = txt "prometheus" → query_samples c = Ok l →
  sync_hosts range c uuid db [] =
  (Ok (Z.of_nat (length (keep (stale (collect l)) (hosts db)) + length (new_hosts uuid 0 (hosts db) (range (collect l))))),
   set_hosts db ((refreshed (collect l) <$> hosts db) ++ new_hosts uuid 0 (hosts db) (range (collect l))), []).
Proof.
  intros [HI HA _] Hr [Hu Hn _] Ht Hl. unfold sync_hosts. rewrite Ht, text_eqb_refl. unfold syncFromPrometheus. rewrite Hl.
  destruct (range_keys (collect l) Hr) as [HN Hm].
  rewrite (addresses_run uuid 0 (range (collect l)) db HI HA HN Hu) by (intros; apply Hn). cbv zeta. by rewrite Hm.
Qed.

Lemma collect_status l ip i : collect l !! ip = Some i → is_empty (Info.status i) = false.
Proof.
  unfold collect. rewrite collected_best by apply usable_plain. intros Hb%best_elem.
  apply list_elem_of_fmap in Hb as ([k x] & -> & [Hin _]%elem_of_keep).
  apply (proj1 (Forall_forall _ _) (usable_plain l)) in Hin. unfold plain_info in Hin. cbn [snd] in *. rewrite Hin.
  by destruct (online_info x).
Qed.

(** C16: A synchronisation from Prometheus brings the table of hosts in line with
    the samples, in whatever order Go goes over its map: a host whose address
    has a sample gets its status, online if one of the samples of the address
    says so, every other column and every other host stays, an address without a
    host gets one, and no two hosts have one address afterwards.  The saved
    configuration counts the hosts that changed or are new. *)
Theorem prometheus_sync c uuid logID started now db l : distinct_hosts db → ranges range → fresh_keys uuid db →
  AssetSyncConfig.Type_ c = txt "prometheus" → query_samples c = Ok l →
  let m := collect l in
  (∀ ip, m !! ip = best (samples_of ip (omap usable l))) ∧
  ∃ db' new row, executeSync range c uuid logID started now db [] = (Ok (), db', []) ∧
    hosts db' = (refreshed m <$> hosts db) ++ new ∧
    (∀ h, h ∈ new → Host.IP h ∉ Host.IP <$> hosts db ∧ ∃ i, m !! Host.IP h = Some i ∧ Host.Status h = Info.status i) ∧
    (∀ ip, is_Some (m !! ip) → ip ∈ Host.IP <$> hosts db') ∧ distinct_hosts db' ∧
    row ∈ sync_configs (logs (aux db')) ∧
    has_outcome c (Ok (Z.of_nat (length (keep (stale m) (hosts db)) + length new))) now row.
Proof.
  intros Hd Hr Hf Ht Hl m. split; [intros ip; unfold m, collect; apply collected_best, usable_plain|].
  set (new := new_hosts uuid 0 (hosts db) (range m)).
  destruct (execute_run c uuid logID started now db _ _ (prometheus_run c uuid db l Hd Hr Hf Ht Hl))
    as (db2 & row & E & Eh & Hin & Ho & _). fold m in Eh, Ho. fold new in Eh, Ho.
  exists db2, new, row. split; [exact E|]. split; [exact Eh|]. split; [|split; [|split; [|by split] ] ].
  - intros h (k & i & _ & Hi & Hout & Es)%new_hosts_of. split; [done|]. exists i.
    rewrite (Hr m) in Hi. apply elem_of_map_to_list in Hi. split; [done|]. rewrite Es. cbn [Host.Status HostRepository.stored prometheus_host].
    by rewrite (collect_status l _ _ Hi).
  - intros ip [i Hi]. rewrite Eh. cbn [hosts set_hosts]. destruct (refreshed_keys m (hosts db)) as [_ EA].
    rewrite fmap_app, EA, <- fmap_app. apply new_hosts_cover. rewrite (Hr m). apply list_elem_of_fmap. exists (ip, i).
    split; [done|]. by apply elem_of_map_to_list.
  - apply (distinct_same (set_hosts db ((refreshed m <$> hosts db) ++ new))); [by unfold same_hosts; rewrite Eh|].
    by apply after_distinct.
Qed.

(** A synchronisation that is repeated with the same samples changes no host
    and says so: the count it saves is zero. *)
Theorem prometheus_sync_settles c uuid logID started now db db' l c' uuid' logID' started' now' : distinct_hosts db → ranges range →
  fresh_keys uuid db → AssetSyncConfig.Type_ c = txt "prometheus" → query_samples c = Ok l →
  executeSync range c uuid logID started now db [] = (Ok (), db', []) →
  fresh_keys uuid' db' → AssetSyncConfig.Type_ c' = txt "prometheus" → query_samples c' = Ok l →
  ∃ db'' row, executeSync range c' uuid' logID' started' now' db' [] = (Ok (), db'', []) ∧
    hosts db'' = hosts db' ∧ row ∈ sync_configs (logs (aux db'')) ∧ has_outcome c' (Ok 0) now' row.
Proof.
  intros Hd Hr Hf Ht Hl E Hf' Ht' Hl'. set (m := collect l). set (new := new_hosts uuid 0 (hosts db) (range m)).
  destruct (execute_run c uuid logID started now db _ _ (prometheus_run c uuid db l Hd Hr Hf Ht Hl)) as (db2 & row & E' & Eh & _).
  rewrite E in E'. injection E' as <-. fold m in Eh. fold new in Eh. cbn [hosts set_hosts] in Eh.
  assert (distinct_hosts db') as Hd'.
  { apply (distinct_same (set_hosts db ((refreshed m <$> hosts db) ++ new))); [by unfold same_hosts; rewrite Eh|]. by apply after_distinct. }
  assert (∀ h, h ∈ hosts db' → ∀ i, m !! Host.IP h = Some i → Host.Status h = Info.status i) as Hst.
  { intros h. rewrite Eh. intros [Hh|Hh]%elem_of_app i Hi.
    - apply list_elem_of_fmap in Hh as (h0 & -> & _). unfold refreshed in *. destruct (m !! Host.IP h0) as [j|] eqn:Ej; [|congruence].
      change (Host.IP (with_status h0 (Info.status j))) with (Host.IP h0) in Hi. rewrite Ej in Hi. by injection Hi as <-.
    - apply new_hosts_of in Hh as (k & j & _ & Hj & _ & ->). rewrite (Hr m) in Hj. apply elem_of_map_to_list in Hj.
      cbn [Host.IP HostRepository.stored prometheus_host] in Hi. rewrite Hj in Hi. injection Hi as <-.
      cbn [Host.Status HostRepository.stored prometheus_host]. by rewrite (collect_status l _ _ Hj). }
  assert (new_hosts uuid' 0 (hosts db') (range m) = []) as En.
  { destruct (new_hosts uuid' 0 (hosts db') (range m)) as [|h k] eqn:Ek; [done|].
    assert (h ∈ new_hosts uuid' 0 (hosts db') (range m)) as Hh by (rewrite Ek; left).
    apply new_hosts_of in Hh as (_ & i & _ & Hi & Hout & _). destruct Hout. rewrite Eh, fmap_app.
    destruct (refreshed_keys m (hosts db)) as [_ ->]. rewrite <- fmap_app. apply new_hosts_cover.
    by apply (list_elem_of_fmap_2 fst) in Hi. }
  assert (refreshed m <$> hosts db' = hosts db') as Ef.
  { rewrite <- (list_fmap_id (hosts db')) at 2. apply list_fmap_ext. intros k h Hk. unfold refreshed.
    destruct (m !! Host.IP h) as [i|] eqn:Ei; [|done]. apply list_elem_of_lookup_2 in Hk. rewrite <- (Hst h Hk i Ei). apply host_status_same. }
  assert (keep (stale m) (hosts db') = []) as Es.
  { apply keep_none. intros h Hh. unfold stale. destruct (m !! Host.IP h) as [i|] eqn:Ei; [|done].
    by rewrite (Hst h Hh i Ei), text_eqb_refl. }
  destruct (execute_run c' uuid' logID' started' now' db' _ _ (prometheus_run c' uuid' db' l Hd' Hr Hf' Ht' Hl')) as (db2 & row' & E2 & Eh2 & Hin & Ho & _).
  fold m in Eh2, Ho. rewrite En, Es in Ho. rewrite En, Ef, app_nil_r in Eh2. exists db2, row'. by split.
Qed.
End facts.

(** ** Several at once *)

(** The tables and the configurations that goroutines are at work on, each as it
    was when its goroutine started.  A goroutine goes over its hosts and saves in
    one step here: what the theorems need is that the start is another. *)
Record World := { tables : Db; running : list AssetSyncConfig.t }.

Section several.
Context `{Outside} `{Crypto} `{Unicode} (range : gmap text Info.t → list (text * Info.t)) (err_text : db_error → text) (lib : library).
Notation serve := (Serving.serve (A := sync_api err_text)).

Inductive sync_step : World → World → Prop :=
  | step_tick now w cs db' :
      checkAndSync (E := text) now (tables w) [] = (Ok cs, db', []) →
      sync_step w {| tables := db'; running := running w ++ cs |}
  | step_start id w c db' :
      startSync err_text id (tables w) [] = (Ok c, db', []) →
      sync_step w {| tables := db'; running := running w ++ [c] |}
  | step_finish w a c b uuid logID started now r db' :
      running w = a ++ c :: b → (∀ k, uuid k ≠ []) →
      executeSync range c uuid logID started now (tables w) [] = (r, db', []) →
      sync_step w {| tables := db'; running := a ++ b |}
  | step_sync_request hdr tok now c w r db' :
      serve hdr tok now c (tables w) [] = (r, db', []) →
      sync_step w {| tables := db'; running := running w |}
  | step_host_request q w r db' :
      keyed q →
      Serving.serve (A := hosts_api lib) q.1.1.1 q.1.1.2 q.1.2 q.2 (tables w) [] = (r, db', []) →
      sync_step w {| tables := db'; running := running w |}.

Lemma sync_routed c : handler_name c ∈ handler <$> routes.
Proof. apply (bool_decide_eq_true_1 (handler_name c ∈ handler <$> routes)). by destruct c; vm_compute. Qed.
Lemma access_sync c : access_of (handler_name c) = Administrators.
Proof. by destruct c; vm_compute. Qed.

(** *** Addresses *)

Lemma appended_distinct db h : distinct_hosts db → Host.ID h ∉ Host.ID <$> hosts db → Host.IP h ∉ Host.IP <$> hosts db →
  Host.ID h ≠ [] → distinct_hosts (set_hosts db (hosts db ++ [h])).
Proof.
  intros [HI HA HE] Hid Hip Hne. split; cbn [hosts set_hosts]; rewrite fmap_app.
  - apply NoDup_app. split; [done|]. split; [|apply NoDup_singleton]. by intros x Hx ->%list_elem_of_singleton.
  - apply NoDup_app. split; [done|]. split; [|apply NoDup_singleton]. by intros x Hx ->%list_elem_of_singleton.
  - intros [Hx|Hx%list_elem_of_singleton]%elem_of_app; [done|]. by apply Hne.
Qed.

(** A row for an address that no host has, under whatever key. *)
Lemma create_keeps h db : distinct_hosts db → Host.IP h ∉ Host.IP <$> hosts db → Host.ID h ≠ [] →
  ∃ r db', attempt (F := text) (HostRepository.Create h) db [] = (Ok r, db', []) ∧ distinct_hosts db'.
Proof.
  intros Hd Hip Hid. unfold attempt, HostRepository.Create, execute. cbn [list.tail].
  destruct (existsb (HostRepository.of_id (Host.ID h)) (hosts db)) eqn:E; [by do 2 eexists|].
  do 2 eexists. split; [reflexivity|]. apply (appended_distinct db (HostRepository.stored h)); try done.
  intros (x & Ex & Hx)%list_elem_of_fmap. apply (proj1 (existsb_none _ _)) with (x := x) in E; [|done].
  unfold HostRepository.of_id in E. change (Host.ID (HostRepository.stored h)) with (Host.ID h) in Ex.
  by rewrite <- Ex, text_eqb_refl in E.
Qed.

Lemma by_address ip db : (∃ h k, keep (at_address ip) (hosts db) = h :: k ∧
    attempt (F := text) (HostRepository.FindByIP ip) db [] = (Ok (Some h), db, [])) ∨
  (ip ∉ Host.IP <$> hosts db ∧ attempt (F := text) (HostRepository.FindByIP ip) db [] = (Ok None, db, [])).
Proof.
  unfold attempt, HostRepository.FindByIP, first, query. cbn [list.tail].
  change (λ h : Host.t, text_eqb (Host.IP h) ip) with (at_address ip).
  destruct (keep (at_address ip) (hosts db)) as [|h k] eqn:Ek; [right|left; by exists h, k].
  split; [|done]. intros (h & -> & Hh)%list_elem_of_fmap.
  assert (h ∈ keep (at_address (Host.IP h)) (hosts db)) as Hin by (apply elem_of_keep; split; [done|apply text_eqb_refl]).
  rewrite Ek in Hin. by apply elem_of_nil in Hin.
Qed.

Lemma sync_address_keeps id ip i db : id ≠ [] → distinct_hosts db →
  ∃ n db', sync_address id ip i db [] = (Ok n, db', []) ∧ distinct_hosts db'.
Proof.
  intros Hid Hd. unfold sync_address. rewrite bind_run.
  destruct (by_address ip db) as [(h & k & _ & ->)|[Hip ->] ].
  - destruct (text_eqb _ _); [by do 2 eexists|]. rewrite bind_run. unfold attempt, HostMonitor.UpdateStatus, execute. cbn [list.tail].
    do 2 eexists. split; [reflexivity|]. destruct Hd as [HI HA HE]. unfold set_host_status.
    assert (∀ key : Host.t → text, (∀ x st, key (with_status x st) = key x) →
      key <$> (updated (has_host_id (Host.ID h)) (λ h, with_status h (Info.status i)) <$> hosts db) = key <$> hosts db) as Hk.
    { intros key Hkey. rewrite <- list_fmap_compose. apply list_fmap_ext. intros j x _. cbn [compose]. unfold updated.
      destruct (has_host_id _ x); [apply Hkey|done]. }
    by split; cbn [hosts set_hosts]; rewrite Hk.
  - rewrite bind_run. destruct (create_keeps (prometheus_host id ip i) db Hd Hip Hid) as (r & db' & -> & Hd').
    by do 2 eexists.
Qed.
Lemma sync_row_keeps id h db : id ≠ [] → distinct_hosts db →
  ∃ n db', sync_row id h db [] = (Ok n, db', []) ∧ distinct_hosts db'.
Proof.
  intros Hid Hd. unfold sync_row. rewrite bind_run. destruct (by_address (CmdbHost.IP h) db) as [(x & k & _ & ->)|[Hip ->] ].
  - by do 2 eexists.
  - rewrite bind_run. destruct (create_keeps (cmdb_host id h) db Hd Hip Hid) as (r & db' & -> & Hd'). by do 2 eexists.
Qed.

Lemma sync_each_keeps {A} (body : text → A → Eff text Z) uuid n l db :
  (∀ id x db, id ≠ [] → distinct_hosts db → ∃ k db', body id x db [] = (Ok k, db', []) ∧ distinct_hosts db') →
  (∀ k, uuid k ≠ []) → distinct_hosts db →
  ∃ k db', sync_each body uuid n l db [] = (Ok k, db', []) ∧ distinct_hosts db'.
Proof.
  intros Hb Hu. revert n db. induction l as [|x l IH]; intros n db Hd; cbn [sync_each]; [by do 2 eexists|].
  rewrite bind_run. destruct (Hb (uuid n) x db (Hu n) Hd) as (k & db1 & -> & Hd1). rewrite bind_run.
  destruct (IH (S n) db1 Hd1) as (k' & db2 & -> & Hd2). by do 2 eexists.
Qed.

Lemma sync_hosts_keeps c uuid db : (∀ k, uuid k ≠ []) → distinct_hosts db →
  ∃ r db', sync_hosts range c uuid db [] = (r, db', []) ∧ distinct_hosts db'.
Proof.
  intros Hu Hd. unfold sync_hosts, syncFromPrometheus, syncFromZabbix, syncFromCMDB, syncFromCustomAPI.
  destruct (text_eqb _ _).
  { destruct (query_samples c); [|by do 2 eexists].
    destruct (sync_each_keeps (λ id e, sync_address id e.1 e.2) uuid 0 (range (collect a)) db) as (k & db' & -> & Hd'); try done; [|by do 2 eexists].
    intros id x db0. apply sync_address_keeps. }
  destruct (text_eqb _ _); [by do 2 eexists|]. destruct (text_eqb _ _).
  { destruct (cmdb_rows c); [|by do 2 eexists].
    destruct (sync_each_keeps sync_row uuid 0 a db) as (k & db' & -> & Hd'); try done; [|by do 2 eexists].
    intros id x db0. apply sync_row_keeps. }
  destruct (text_eqb _ _); [|by do 2 eexists]. destruct (NewRequest _); [|by do 2 eexists]. by destruct (Do _ _); do 2 eexists.
Qed.

Lemma checkAndSync_run now db : checkAndSync (E := text) now db [] =
  (Ok (keep (due now) (keep AssetSyncConfig.Enabled (sync_configs (logs (aux db))))), db, []).
Proof. done. Qed.
Lemma startSync_reads id : reads (startSync err_text id).
Proof. unfold startSync, AssetSyncRepository.GetByID. preserves_tac. Qed.

#[local] Instance same_hosts_preorder : PreOrder same_hosts.
Proof. split; [done|]. intros x y z. unfold same_hosts. congruence. Qed.

Lemma requests_keep_hosts now c : preserves same_hosts (sync_run err_text now c).
Proof.
  destruct c; cbn [sync_run]; apply keeps_hosts_reply;
    unfold ListConfigs, CreateConfig, UpdateConfig, DeleteConfig, ToggleConfig, SyncNow_handler, GetLogs, or_500, answering, undecoded,
      AssetSyncRepository.GetAll, AssetSyncRepository.GetByID, AssetSyncRepository.GetLogs; try destruct req; preserves_tac;
    unfold AssetSyncRepository.Create, AssetSyncRepository.Update, AssetSyncRepository.Delete.
  all: first [apply preserves_statement; [apply _|intros x y z] | apply preserves_execute; [apply _|intros x y] ].
  all: repeat case_match; intros E; try discriminate E; injection E as <-; done.
Qed.

Lemma step_keeps_addresses w w' : sync_step w w' → distinct_hosts (tables w) → distinct_hosts (tables w').
Proof.
  intros [now w0 cs db' Hs|id w0 c db' Hs|w0 a c b uuid logID started now r db' _ Hu Hs|hdr tok now c w0 r db' Hs|q w0 r db' Hq Hs] Hd;
    cbn [tables].
  - rewrite checkAndSync_run in Hs. by injection Hs as _ <-.
  - by rewrite (reads_run _ _ _ _ _ _ (startSync_reads id) Hs).
  - destruct (sync_hosts_keeps c uuid (tables w0) Hu Hd) as (r1 & db1 & E & Hd1).
    destruct (execute_run range c uuid logID started now (tables w0) r1 db1 E) as (db2 & row & E2 & Eh & _).
    rewrite Hs in E2. injection E2 as _ ->. apply (distinct_same db1); [by unfold same_hosts|done].
  - destruct (serve_cases (A := sync_api err_text) hdr tok now c) as [(caller & _ & E)|(e & E & _)]; rewrite E in Hs.
    + eapply distinct_same; [|exact Hd]. exact (preserves_run _ _ _ _ _ _ _ (requests_keep_hosts now c) Hs).
    + by injection Hs as _ <-.
  - destruct q as [[[hdr tok] now] c]. cbn [fst snd] in Hs.
    destruct (serve_cases (A := hosts_api lib) hdr tok now c) as [(caller & _ & E)|(e & E & _)]; rewrite E in Hs.
    + exact (run_distinct lib caller now c _ r db' [] Hq Hd Hs).
    + by injection Hs as _ <-.
Qed.

(** C15: However many synchronisations are started, by the scheduler or by hand,
    with whatever the servers answer and in whatever order they end among the
    requests for hosts and for configurations, each run as a whole: no two hosts
    ever have one address or one key. *)
Theorem syncs_keep_addresses w w' : rtc sync_step w w' → distinct_hosts (tables w) → distinct_hosts (tables w').
Proof. intros Hs. induction Hs as [|w w1 w' Hs _ IH]; [done|]. intros Hd. eapply IH, step_keeps_addresses; eauto. Qed.

(** *** A configuration and its goroutine *)

(** A synchronisation ends by saving the whole row it started with: when an
    administrator deletes the configuration while it runs, the row is gone and
    comes back, enabled, so that the scheduler goes on with it. *)
Theorem stale_sync_resurrects hdr tok now cl w a c b uuid logID started now' :
  Auth.AuthMiddleware hdr tok now = Ok cl → Claims.Role cl = admin → distinct_hosts (tables w) →
  running w = a ++ c :: b → AssetSyncConfig.Enabled c = true → (∀ k, uuid k ≠ []) →
  ∃ w1 w2, sync_step w w1 ∧ sync_step w1 w2 ∧
    serve hdr tok now (c_DeleteConfig (AssetSyncConfig.ID c)) (tables w) [] = (Ok Nothing, tables w1, []) ∧
    (∀ row, row ∈ sync_configs (logs (aux (tables w1))) → AssetSyncConfig.ID row ≠ AssetSyncConfig.ID c) ∧
    (executeSync range c uuid logID started now' (tables w1) []).1.2 = tables w2 ∧ running w2 = a ++ b ∧
    ∃ row, row ∈ sync_configs (logs (aux (tables w2))) ∧ AssetSyncConfig.ID row = AssetSyncConfig.ID c ∧
      AssetSyncConfig.Enabled row = true.
Proof.
  intros Hm Had Hd Hrun Hen Hu.
  set (db1 := set_sync_configs (tables w) (keep (λ x, negb (AssetSyncRepository.of_id (AssetSyncConfig.ID c) x)) (sync_configs (logs (aux (tables w)))))).
  assert (serve hdr tok now (c_DeleteConfig (AssetSyncConfig.ID c)) (tables w) [] = (Ok Nothing, db1, [])) as Es.
  { rewrite (serve_admin (A := sync_api err_text) hdr tok now _ cl) by (apply sync_routed || apply access_sync || done). done. }
  assert (distinct_hosts db1) as Hd1 by (by apply (distinct_same (tables w))).
  destruct (sync_hosts_keeps c uuid db1 Hu Hd1) as (r & db2 & E & _).
  destruct (execute_run range c uuid logID started now' db1 r db2 E) as (db3 & row & E3 & _ & Hin & [Hid _] & Hen' & _).
  exists {| tables := db1; running := running w |}, {| tables := db3; running := a ++ b |}.
  split; [exact (step_sync_request hdr tok now _ w _ db1 Es)|].
  split; [exact (step_finish {| tables := db1; running := running w |} a c b uuid logID started now' _ db3 Hrun Hu E3)|].
  split; [exact Es|]. cbn [tables running]. split; [|split; [by rewrite E3|split; [done|exists row; auto] ] ].
  intros x [_ Hx]%elem_of_keep Hix. unfold AssetSyncRepository.of_id in Hx. by rewrite Hix, text_eqb_refl in Hx.
Qed.

(** The scheduler starts the configurations that are enabled and due and no
    others; one that has not ended yet is due again, for its time is saved at
    the end, and is started a second time. *)
Theorem scheduler_starts_due now now' w : now <= now' →
  let started := keep (due now) (keep AssetSyncConfig.Enabled (sync_configs (logs (aux (tables w))))) in
  ∃ w1 w2, sync_step w w1 ∧ sync_step w1 w2 ∧ tables w2 = tables w ∧ running w1 = running w ++ started ∧
    ∃ again, running w2 = running w1 ++ again ∧ started ⊆ again.
Proof.
  intros Hn started.
  set (w1 := {| tables := tables w; running := running w ++ started |}).
  set (again := keep (due now') (keep AssetSyncConfig.Enabled (sync_configs (logs (aux (tables w)))))).
  exists w1, {| tables := tables w; running := running w1 ++ again |}.
  split; [apply (step_tick now w started), checkAndSync_run|]. split; [apply (step_tick now' w1 again (tables w)), (checkAndSync_run now')|].
  split; [done|]. split; [done|]. exists again. split; [done|].
  intros c [Hin Hdue]%elem_of_keep. apply elem_of_keep. split; [done|]. unfold due in *.
  destruct (AssetSyncConfig.LastSyncTime c); [|done]. prop_bools. lia.
Qed.
End several.

(** *** Witnesses *)

Definition sample (instance value : string) : Sample.t :=
  {| Sample.Metric := {[txt "instance" := txt instance; txt "job" := txt "node"]}; Sample.Value := [VOther; VText (txt value)] |}.
(** A server with four samples, two of them of one address, and one of a name. *)
Definition four_samples : list Sample.t :=
  [sample "10.0.0.2:9100" "0"; sample "10.0.0.9:9100" "0"; sample "db.example:9100" "1"; sample "10.0.0.9:9187" "1"].
#[local] Instance small_net : Outside :=
  {| NewRequest := λ _, Ok (); Do := λ _ _, Ok (200, Ok []); read_samples := λ _, Ok four_samples;
     read_hosts := λ _, Ok [ {| CmdbHost.Hostname := txt "db"; CmdbHost.IP := txt "10.0.0.7"; CmdbHost.Port := 22;
                               CmdbHost.OS := []; CmdbHost.Tags := [] |} ];
     read_query := λ _, None; mapped_address := λ _, false |}.
Definition in_order (m : gmap text Info.t) : list (text * Info.t) := map_to_list m.
Definition counter (t : Z) (k : nat) : text := [t; Z.of_nat k].
Definition source (type : string) : AssetSyncConfig.t :=
  {| AssetSyncConfig.ID := txt "src"; AssetSyncConfig.Name := txt "lab"; AssetSyncConfig.Type_ := txt type;
     AssetSyncConfig.Enabled := true; AssetSyncConfig.URL := txt "http://p"; AssetSyncConfig.AuthType := [];
     AssetSyncConfig.Username := []; AssetSyncConfig.Password := []; AssetSyncConfig.Token := [];
     AssetSyncConfig.SyncInterval := 60; AssetSyncConfig.LastSyncTime := None; AssetSyncConfig.LastSyncStatus := [];
     AssetSyncConfig.SyncedCount := 0; AssetSyncConfig.ErrorMessage := []; AssetSyncConfig.Config := [];
     AssetSyncConfig.Created := 5 |}.
Definition with_source : Db := set_sync_configs three_hosts [source "prometheus"].
Definition sync_once (now : Z) (db : Db) : Db := after (executeSync in_order (source "prometheus") (counter 0) (txt "log") 0 now db []).

Lemma in_order_ranges : ranges in_order.
Proof. by intros m. Qed.
Lemma with_source_distinct : distinct_hosts with_source.
Proof.
  split.
  - apply (bool_decide_eq_true_1 (NoDup (Host.ID <$> hosts with_source))). vm_compute. reflexivity.
  - apply (bool_decide_eq_true_1 (NoDup (Host.IP <$> hosts with_source))). vm_compute. reflexivity.
  - apply (bool_decide_eq_true_1 ([] ∉ Host.ID <$> hosts with_source)). vm_compute. reflexivity.
Qed.
Lemma counter_fresh t db : forallb (λ h, negb (bool_decide (head (Host.ID h) = Some t))) (hosts db) = true → fresh_keys (counter t) db.
Proof.
  intros Hf. split.
  - intros i j [= E]. lia.
  - intros k (h & E & Hh)%list_elem_of_fmap. rewrite forallb_forall in Hf. specialize (Hf h). rewrite <- list_elem_of_In in Hf.
    specialize (Hf Hh). rewrite <- E in Hf. cbn [counter head] in Hf. by rewrite bool_decide_eq_true_2 in Hf.
  - discriminate.
Qed.

Lemma prometheus_sync_witness :
  ∃ db' new row, executeSync in_order (source "prometheus") (counter 0) (txt "log") 0 10 with_source [] = (Ok (), db', []) ∧
    (λ h, (Host.IP h, Host.Status h)) <$> hosts db' =
      [(txt "10.0.0.1", online); (txt "10.0.0.2", txt "offline"); (txt "10.0.0.3", online)] ++ new ∧
    new = [(txt "10.0.0.9", txt "online")] ∧ row ∈ sync_configs (logs (aux db')) ∧ AssetSyncConfig.SyncedCount row = 2.
Proof.
  destruct (prometheus_sync in_order (source "prometheus") (counter 0) (txt "log") 0 10 with_source four_samples
              with_source_distinct in_order_ranges) as (_ & db' & new & row & E & Eh & _ & _ & _ & Hin & _ & _ & _ & Hc & _).
  - apply counter_fresh. vm_compute. reflexivity.
  - reflexivity.
  - reflexivity.
  - exists db', ((λ h, (Host.IP h, Host.Status h)) <$> new), row.
    assert (db' = sync_once 10 with_source) as -> by (unfold sync_once, after; by rewrite E).
    assert ((λ h, (Host.IP h, Host.Status h)) <$> hosts (sync_once 10 with_source) =
      [(txt "10.0.0.1", online); (txt "10.0.0.2", txt "offline"); (txt "10.0.0.3", online); (txt "10.0.0.9", txt "online")]) as Ef
      by (vm_compute; reflexivity).
    assert ((λ h, (Host.IP h, Host.Status h)) <$> new = [(txt "10.0.0.9", txt "online")]) as En.
    { rewrite Eh, fmap_app in Ef.
      assert ((λ h, (Host.IP h, Host.Status h)) <$> (refreshed (collect four_samples) <$> hosts with_source) =
        [(txt "10.0.0.1", online); (txt "10.0.0.2", txt "offline"); (txt "10.0.0.3", online)]) as E0 by (vm_compute; reflexivity).
      rewrite E0 in Ef. by apply (app_inv_head [(txt "10.0.0.1", online); (txt "10.0.0.2", txt "offline"); (txt "10.0.0.3", online)]) in Ef. }
    split; [exact E|]. split; [by rewrite En, Ef|]. split; [exact En|]. split; [exact Hin|]. rewrite Hc.
    assert (length new = 1%nat) as -> by (rewrite <- (length_fmap (λ h, (Host.IP h, Host.Status h))), En; reflexivity).
    vm_compute. reflexivity.
Defined.

Lemma prometheus_sync_settles_witness :
  ∃ db'' row, executeSync in_order (source "prometheus") (counter 1) (txt "log2") 0 20 (sync_once 10 with_source) [] = (Ok (), db'', []) ∧
    hosts db'' = hosts (sync_once 10 with_source) ∧ row ∈ sync_configs (logs (aux db'')) ∧ AssetSyncConfig.SyncedCount row = 0.
Proof.
  destruct (prometheus_sync_settles in_order (source "prometheus") (counter 0) (txt "log") 0 10 with_source (sync_once 10 with_source)
              four_samples (source "prometheus") (counter 1) (txt "log2") 0 20 with_source_distinct in_order_ranges)
    as (db'' & row & E & Eh & Hin & _ & _ & _ & Hc & _).
  - apply counter_fresh. vm_compute. reflexivity.
  - reflexivity.
  - reflexivity.
  - vm_compute. reflexivity.
  - apply counter_fresh. vm_compute. reflexivity.
  - reflexivity.
  - reflexivity.
  - exists db'', row. split; [exact E|]. split; [exact Eh|]. split; [exact Hin|exact Hc].
Defined.

Definition busy : World := {| tables := with_source; running := [source "prometheus"] |}.

(** A tick, and the synchronisation it started. *)
Lemma syncs_keep_addresses_witness :
  ∃ w, rtc (sync_step in_order plain_err HostsApi.plain_library) {| tables := with_source; running := [] |} w ∧
    length (hosts (tables w)) = 4%nat ∧ distinct_hosts (tables w).
Proof.
  set (w0 := {| tables := with_source; running := [] |}). set (w2 := {| tables := sync_once 10 with_source; running := [] |}).
  assert (rtc (sync_step in_order plain_err HostsApi.plain_library) w0 w2) as Hs.
  { eapply rtc_l; [apply (step_tick _ _ _ 0 w0 [source "prometheus"] with_source); vm_compute; reflexivity|].
    eapply rtc_l; [|apply rtc_refl].
    apply (step_finish _ _ _ {| tables := with_source; running := [source "prometheus"] |} [] (source "prometheus") [] (counter 0) (txt "log") 0 10 (Ok ()) (sync_once 10 with_source));
      [reflexivity|discriminate|vm_compute; reflexivity]. }
  exists w2. split; [exact Hs|]. split; [vm_compute; reflexivity|].
  exact (syncs_keep_addresses in_order plain_err HostsApi.plain_library w0 w2 Hs with_source_distinct).
Defined.

Lemma stale_sync_resurrects_witness :
  ∃ w1 w2, sync_step in_order plain_err HostsApi.plain_library busy w1 ∧ sync_step in_order plain_err HostsApi.plain_library w1 w2 ∧
    ∃ row, row ∈ sync_configs (logs (aux (tables w2))) ∧ AssetSyncConfig.ID row = txt "src" ∧ AssetSyncConfig.Enabled row = true.
Proof.
  destruct (stale_sync_resurrects in_order plain_err HostsApi.plain_library root_bearer [] 6 root_claims busy [] (source "prometheus") []
              (counter 0) (txt "log") 0 10) as (w1 & w2 & H1 & H2 & _ & _ & _ & _ & Hrow).
  - vm_compute. reflexivity.
  - reflexivity.
  - exact with_source_distinct.
  - reflexivity.
  - reflexivity.
  - discriminate.
  - exists w1, w2. split; [exact H1|]. split; [exact H2|exact Hrow].
Defined.

Lemma scheduler_starts_due_witness :
  ∃ w1 w2, sync_step in_order plain_err HostsApi.plain_library {| tables := with_source; running := [] |} w1 ∧
    sync_step in_order plain_err HostsApi.plain_library w1 w2 ∧ running w1 = [source "prometheus"] ∧
    ∃ again, running w2 = running w1 ++ again ∧ source "prometheus" ∈ again.
Proof.
  destruct (scheduler_starts_due in_order plain_err HostsApi.plain_library 0 (5 * minute) {| tables := with_source; running := [] |})
    as (w1 & w2 & H1 & H2 & _ & E1 & again & E2 & Hsub); [by vm_compute|].
  exists w1, w2. split; [exact H1|]. split; [exact H2|]. split; [rewrite E1; vm_compute; reflexivity|]. exists again. split; [exact E2|].
  apply Hsub. vm_compute. left.
Defined.

(** Two synchronisations that run side by side both find the address free. *)
Example syncs_race :
  let create id := attempt (E := db_error) (F := text) (HostRepository.Create (cmdb_host id {| CmdbHost.Hostname := txt "db"; CmdbHost.IP := txt "10.0.0.7";
                      CmdbHost.Port := 22; CmdbHost.OS := []; CmdbHost.Tags := [] |})) in
  let both := a ← attempt (F := text) (HostRepository.FindByIP (txt "10.0.0.7")); b ← attempt (F := text) (HostRepository.FindByIP (txt "10.0.0.7"));
              match a, b with None, None => _ ← create (txt "x"); create (txt "y") | _, _ => mret None end in
  Host.IP <$> hosts (after (both empty_db [])) = [txt "10.0.0.7"; txt "10.0.0.7"].
Proof. vm_compute. reflexivity. Qed.

(** A configuration that is created disabled is enabled. *)
Example disabled_source_enabled :
  AssetSyncConfig.Enabled <$> sync_configs (logs (aux (after (CreateConfig plain_err 7
    (Some (AssetSyncConfig.set_enabled (source "cmdb") false)) (txt "new") empty_db [])))) = [true].
Proof. vm_compute. reflexivity. Qed.

(** The job of a sample goes into the tags as it is. *)
Example tags_not_json :
  Host.Tags (prometheus_host (txt "x") (txt "10.0.0.9") {| Info.job := quoted "a^b"; Info.status := txt "online" |}) =
  quoted "[^prometheus^,^a^b^]".
Proof. vm_compute. reflexivity. Qed.
