(* ===== verification/AgentTerminal.v ===== *)
(** * The terminal of the agent

    [internal/bastion/websocket]: the handler of a terminal on an agent with the
    client of [pkg/sshclient] that it uses, the sessions it knows, and the
    handler for several protocols with [internal/bastion/protocol].  The agent
    routes none of them: its only route for connections answers 501
    ([cmd/proxy-agent/main.go]).  The SSH library is a class, the storage an
    instance of [Storage]; the two goroutines of a session are one list of events
    in the order in which they happen. *)

From stdpp Require Import base list strings gmap pretty.
From Stdlib Require Import ZArith Lia.
From S2P Require Import Prelude GoStrings Gorm Detector Blacklist CommandExtractor Models InputFilter WebTerminal HostSession Database Repositories Accounts Auth AuditTrail TwoFactor Routes AuthApi Serving AccessApi Hosts AgentApi.
Local Open Scope Z_scope.

(** ** The SSH client *)

Module SSHConfig.
Record t := { Host : text; Port : Z; Username : text; Password : text; PrivateKey : text; Passphrase : text; AuthType : text }.
End SSHConfig.

Section client.
Context `{SshLib}.

Definition parsed_key (c : SSHConfig.t) : result text (list auth_method) :=
  match (if is_empty (SSHConfig.Passphrase c) then ParsePrivateKey (SSHConfig.PrivateKey c)
         else ParsePrivateKeyWithPassphrase (SSHConfig.PrivateKey c) (SSHConfig.Passphrase c)) with
  | Ok signer => Ok [KeyMethod signer]
  | Err e => Err (txt "failed to parse private key: " ++ e)
  end.
Definition auth_methods (c : SSHConfig.t) : result text (list auth_method) :=
  if text_eqb (SSHConfig.AuthType c) (txt "key") then
    if is_empty (SSHConfig.PrivateKey c) then Err (txt "private key is required for key authentication") else parsed_key c
  else if text_eqb (SSHConfig.AuthType c) (txt "password") then
    if is_empty (SSHConfig.Password c) then Err (txt "password is required for password authentication")
    else Ok [PasswordMethod (SSHConfig.Password c)]
  else if negb (is_empty (SSHConfig.PrivateKey c)) then parsed_key c
  else if negb (is_empty (SSHConfig.Password c)) then Ok [PasswordMethod (SSHConfig.Password c)]
  else Ok [].
Definition NewSSHClient (c : SSHConfig.t) : result text unit :=
  match auth_methods c with
  | Err e => Err e
  | Ok [] => Err (txt "no authentication method provided")
  | Ok methods => map_err (λ e, txt "failed to dial: " ++ e)
      (Dial (host_port (SSHConfig.Host c) (SSHConfig.Port c)) (SSHConfig.Username c) methods)
  end.
End client.

(** ** The sessions of the agent *)

(** The table from sessions to their connections, which have numbers here. *)
Definition SessionManager : Type := gmap text nat.
Definition AddSession (sm : SessionManager) (sessionID : text) (conn : nat) : SessionManager := <[sessionID := conn]> sm.
Definition RemoveSession (sm : SessionManager) (sessionID : text) : SessionManager := delete sessionID sm.
Definition GetSession (sm : SessionManager) (sessionID : text) : option nat := sm !! sessionID.
(** The connection that is told and closed, with the error of closing it. *)
Definition TerminateSession (close : nat → option text) (sm : SessionManager) (sessionID : text)
    : SessionManager * list nat * option text :=
  match GetSession sm sessionID with
  | None => (sm, [], None)
  | Some conn => (RemoveSession sm sessionID, [conn], close conn)
  end.
Definition GetActiveSessions (sm : SessionManager) : list text := (map_to_list sm).*1.
Definition GetActiveSessionCount (sm : SessionManager) : nat := length (map_to_list sm).

(** ** What happens in a session *)

(** A message of the browser, output of the host with the manager that is asked
    about its commands, and what the host writes to its error stream. *)
Inductive agent_event :=
  | FromBrowser (ev : ws_event)
  | FromHost (data : text) (mgr : option Manager) (now : Z)
  | FromStderr (data : text).
Inductive agent_effect :=
  | Terminal (e : ws_effect)
  | SaveOutput (data : text)
  | SaveExtracted (c : CommandInfo.t).

Section session.
Context `{Unicode} (proxyID sessionID : text) (host : Host.t).
Let hostIP := Host.IP host.

(** One round of the input loop; the user is the empty name. *)
Definition agent_block (ev : ws_event) (command : text) : list ws_effect :=
  web_alert [] hostIP ev command ++
  [ToBrowser ([13; 10] ++ esc ++ txt "[1;31m🛡️ [安全策略阻止] " ++ GetBlockReason (whyMgr ev) command [] ++ esc ++ txt "[0m" ++ [13; 10])].
Definition agent_message (buf : bytes) (ev : ws_event) : bytes * list ws_effect :=
  match msg ev with
  | NotJSON message => (buf, [ToStdin message])
  | NoType | OtherType | Resize None | Input None => (buf, [])
  | Resize (Some (cols, rows)) => (buf, [WindowChange rows cols])
  | Input (Some data) =>
      let '(buf, out) :=
        if text_eqb data [13] || text_eqb data [10] then
          let command := utf8_decode buf in
          if web_intercepts [] hostIP ev command then ([], agent_block ev command)
          else ([], [ToStdin (utf8_encode data)])
        else if text_eqb data [3] then ([], [ToStdin (utf8_encode data)])
        else if text_eqb data [127] || text_eqb data [8] then
          (if is_empty buf then buf else take (length buf - 1) buf, [ToStdin (utf8_encode data)])
        else (buf ++ utf8_encode data, [ToStdin (utf8_encode data)]) in
      (buf, RecordInput data :: out)
  end.

(** The row of a command that the extractor found in the output. *)
Definition extracted (mgr : option Manager) (now : Z) (cmd : text) : CommandInfo.t :=
  let blocked := match mgr with Some m => IsBlocked m cmd [] | None => false end in
  {| CommandInfo.SessionID := sessionID; CommandInfo.ProxyID := proxyID; CommandInfo.HostID := Host.ID host;
     CommandInfo.HostIP := Host.IP host; CommandInfo.UserID := txt "system"; CommandInfo.Username := [];
     CommandInfo.Command := cmd;
     CommandInfo.Output := match mgr with
                           | Some m => if blocked then txt "[BLOCKED] " ++ GetBlockReason m cmd [] else []
                           | None => []
                           end;
     CommandInfo.ExitCode := if blocked then -1 else 0; CommandInfo.ExecutedAt := now; CommandInfo.DurationMs := 0 |}.

Definition agent_step (st : bytes * CommandExtractor) (ev : agent_event) : (bytes * CommandExtractor) * list agent_effect :=
  let '(buf, ex) := st in
  match ev with
  | FromBrowser ev => let '(buf, out) := agent_message buf ev in ((buf, ex), Terminal <$> out)
  | FromHost data mgr now =>
      let '(ex, cmds) := Feed ex data in
      ((buf, ex), SaveOutput data :: (SaveExtracted ∘ extracted mgr now <$> cmds) ++ [Terminal (ToBrowser data)])
  | FromStderr data => ((buf, ex), [SaveOutput data; Terminal (ToBrowser data)])
  end.
Fixpoint agent_loop (st : bytes * CommandExtractor) (evs : list agent_event) : list agent_effect :=
  match evs with
  | [] => []
  | ev :: evs => let '(st, out) := agent_step st ev in out ++ agent_loop st evs
  end.
End session.

(** ** One connection *)

(** What the library answers to each request for a part of the terminal. *)
Record Answers := {
  new_session : result text unit; request_pty : result text unit; stdin_pipe : result text unit;
  stdout_pipe : result text unit; stderr_pipe : result text unit; start_shell : result text unit }.
(** The answers, what happens until one of the goroutines fails, and its error. *)
Record Shell := { answers : Answers; events : list agent_event; first_error : text }.

Module TokenInfo.
Record t := { HostID : text; UserID : text; Username : text }.
End TokenInfo.

Section handler.
Context `{SshLib} `{Unicode} `{Storage} (proxyID : text).

Definition wrapped (message : string) (r : result text unit) : result text unit := map_err (λ e, txt message ++ e) r.
Definition agent_config (host : Host.t) : SSHConfig.t :=
  {| SSHConfig.Host := Host.IP host; SSHConfig.Port := Host.Port host; SSHConfig.Username := []; SSHConfig.Password := [];
     SSHConfig.PrivateKey := []; SSHConfig.Passphrase := []; SSHConfig.AuthType := [] |}.
Fixpoint all_ok (l : list (result text unit)) : result text unit :=
  match l with [] => Ok () | Ok _ :: l => all_ok l | Err e :: _ => Err e end.
(** The error it ends with, and what it did before; a shell that runs ends with
    the error of reading a message or the output. *)
Definition proxySSHConnection (host : Host.t) (sessionID : text) (sh : Shell) : result text unit * list agent_effect :=
  match all_ok [wrapped "failed to connect to host: " (NewSSHClient (agent_config host));
                wrapped "failed to create session: " (new_session (answers sh));
                wrapped "failed to request pty: " (request_pty (answers sh)); wrapped "failed to get stdin: " (stdin_pipe (answers sh));
                wrapped "failed to get stdout: " (stdout_pipe (answers sh)); wrapped "failed to get stderr: " (stderr_pipe (answers sh));
                wrapped "failed to start shell: " (start_shell (answers sh))] with
  | Err e => (Err e, [])
  | Ok _ => (Err (first_error sh), agent_loop proxyID sessionID host ([], NewCommandExtractor true) (events sh))
  end.

(** The answer of the API server: an error, or its field [data]. *)
Definition validateToken (resp : result text (option item)) : result text TokenInfo.t :=
  match resp with
  | Err e => Err e
  | Ok None => Err (txt "invalid response format")
  | Ok (Some data) => Ok {| TokenInfo.HostID := text_at data "hostId"; TokenInfo.UserID := text_at data "userId";
                            TokenInfo.Username := text_at data "username" |}
  end.

Definition login_attempt (sessionID : text) (t : TokenInfo.t) (host : Host.t) (now : Z) : LoginAttempt.t :=
  {| LoginAttempt.SessionID := sessionID; LoginAttempt.UserID := TokenInfo.UserID t; LoginAttempt.HostID := Host.ID host;
     LoginAttempt.HostName := Host.Name host; LoginAttempt.HostIP := Host.IP host; LoginAttempt.Username := TokenInfo.Username t;
     LoginAttempt.LoginTime := now; LoginAttempt.Status := txt "connecting" |}.
Definition session_record (sessionID : text) (t : TokenInfo.t) (host : Host.t) (now : Z) : SessionRecord.t :=
  {| SessionRecord.ProxyID := proxyID; SessionRecord.SessionID := sessionID; SessionRecord.HostID := Host.ID host;
     SessionRecord.HostName := Host.Name host; SessionRecord.UserID := TokenInfo.UserID t;
     SessionRecord.Username := TokenInfo.Username t; SessionRecord.HostIP := Host.IP host; SessionRecord.StartTime := now;
     SessionRecord.EndTime := None; SessionRecord.Status := txt "active"; SessionRecord.Recording := [] |}.

(** A call of the storage whose error is logged. *)
Definition stored_call (m : DB unit) : Http unit := _ ← attempt m; mret ().
Definition save_commands (out : list agent_effect) : Http unit :=
  for_each (λ e, match e with SaveExtracted c => stored_call (SaveCommand c) | _ => mret () end) out.
Definition connecting_to (host : Host.t) : text :=
  txt "正在连接到 " ++ Host.Name host ++ txt " (" ++ Host.IP host ++ txt ":" ++ txt (pretty (Host.Port host)) ++ txt ")...".
Definition connection_failed (e : text) : text :=
  txt "SSH 连接失败: " ++ e ++ [13; 10] ++ txt "请检查主机地址、端口、用户名和密码是否正确".
(** [conn] is the connection that is upgraded, [ended] the time the session ends,
    [cast] the recording that is exported.  It answers the sessions after the
    deferred calls, and what reached the browser and the host. *)
Definition HandleSSH (token : text) (resp : result text (option item)) (upgraded : option nat) (sm : SessionManager)
    (sessionID rowID : text) (now ended : Z) (cast : text) (sh : Shell) : Http (SessionManager * list agent_effect) :=
  if is_empty token then raise (401, txt "Missing token")
  else match validateToken resp with
       | Err _ => raise (401, txt "Invalid or expired token")
       | Ok t =>
           host ← or_fail (λ _, (404, txt "Host not found")) (FindHostByID (TokenInfo.HostID t));
           match upgraded with
           | None => mret (sm, [])
           | Some conn =>
               let sm := AddSession sm sessionID conn in
               _ ← stored_call (SaveLoginRecord (login_attempt sessionID t host now));
               let '(r, out) := proxySSHConnection host sessionID sh in
               let out := Terminal (ToBrowser (connecting_to host)) :: out in
               _ ← save_commands out;
               match r with
               | Err e =>
                   _ ← stored_call (UpdateLoginRecordStatus sessionID (txt "failed") None);
                   mret (RemoveSession sm sessionID, out ++ [Terminal (ToBrowser (connection_failed e))])
               | Ok _ =>
                   _ ← stored_call (SaveSession rowID (session_record sessionID t host now));
                   _ ← stored_call (AuditTrail.CloseSession ended sessionID cast);
                   _ ← stored_call (UpdateLoginRecordStatus sessionID (txt "completed") (Some ended));
                   mret (RemoveSession sm sessionID, out)
               end
           end
       end.
End handler.

(** ** The client authenticates as it is told *)

Section client_facts.
Context `{SshLib}.

(** What the authentication type asks for. *)
Definition told (c : SSHConfig.t) (m : auth_method) : Prop :=
  match m with
  | PasswordMethod p => p = SSHConfig.Password c ∧ p ≠ [] ∧ SSHConfig.AuthType c ≠ txt "key" ∧
      (SSHConfig.AuthType c = txt "password" ∨ SSHConfig.PrivateKey c = [])
  | KeyMethod s => SSHConfig.PrivateKey c ≠ [] ∧ SSHConfig.AuthType c ≠ txt "password" ∧
      (if is_empty (SSHConfig.Passphrase c) then ParsePrivateKey (SSHConfig.PrivateKey c)
       else ParsePrivateKeyWithPassphrase (SSHConfig.PrivateKey c) (SSHConfig.Passphrase c)) = Ok s
  end.

Lemma parsed_key_one c l : parsed_key c = Ok l → ∃ s, l = [KeyMethod s] ∧
  (if is_empty (SSHConfig.Passphrase c) then ParsePrivateKey (SSHConfig.PrivateKey c)
   else ParsePrivateKeyWithPassphrase (SSHConfig.PrivateKey c) (SSHConfig.Passphrase c)) = Ok s.
Proof. unfold parsed_key. destruct (if is_empty _ then _ else _) as [s|e]; [|done]. intros [= <-]. by exists s. Qed.

Lemma text_neq a b : text_eqb a b = false → a ≠ b.
Proof. intros E ->. by rewrite text_eqb_refl in E. Qed.

Lemma not_empty {A} (l : list A) : is_empty l = false → l ≠ [].
Proof. by destruct l. Qed.

Lemma key_not_password : txt "key" ≠ txt "password".
Proof. vm_compute. discriminate. Qed.

(** The SSH client offers the host exactly one method, the one its
    authentication type asks for, and with no type the key before the password;
    what the library parsed is the key that is offered; and it never dials with
    no method. *)
Theorem client_authenticates_as_told c :
  (∀ l, auth_methods c = Ok l → l = [] ∨ ∃ m, l = [m] ∧ told c m) ∧
  (auth_methods c = Ok [] → NewSSHClient c = Err (txt "no authentication method provided")) ∧
  (NewSSHClient c = Ok () → ∃ m, told c m ∧
     Dial (host_port (SSHConfig.Host c) (SSHConfig.Port c)) (SSHConfig.Username c) [m] = Ok ()).
Proof.
  assert (∀ l, auth_methods c = Ok l → l = [] ∨ ∃ m, l = [m] ∧ told c m) as Hone.
  { intros l. unfold auth_methods.
    destruct (text_eqb _ (txt "key")) eqn:Ek.
    { apply text_eqb_true in Ek. destruct (is_empty (SSHConfig.PrivateKey c)) eqn:Ep; [done|].
      intros (s & -> & Hs)%parsed_key_one. right. exists (KeyMethod s). split; [done|]. split_and!; [by apply not_empty| |done].
      rewrite Ek. apply key_not_password. }
    apply text_neq in Ek. destruct (text_eqb _ (txt "password")) eqn:Ew.
    { apply text_eqb_true in Ew. destruct (is_empty (SSHConfig.Password c)) eqn:Ep; [done|]. intros [= <-]. right.
      exists (PasswordMethod (SSHConfig.Password c)). split; [done|]. split_and!; [done|by apply not_empty|done|by left]. }
    apply text_neq in Ew. destruct (is_empty (SSHConfig.PrivateKey c)) eqn:Ep; cbn [negb].
    - destruct (is_empty (SSHConfig.Password c)) eqn:Eq; cbn [negb]; intros [= <-]; [by left|]. right.
      exists (PasswordMethod (SSHConfig.Password c)). split; [done|]. split_and!; [done|by apply not_empty|done|].
      right. by destruct (SSHConfig.PrivateKey c).
    - intros (s & -> & Hs)%parsed_key_one. right. exists (KeyMethod s). split; [done|]. split_and!; [by apply not_empty|done|done]. }
  split; [exact Hone|]. unfold NewSSHClient. split; [by intros ->|].
  destruct (auth_methods c) as [l|e]; [|done]. destruct (Hone l eq_refl) as [->|(m & -> & Hm)]; [done|].
  intros Hd. exists m. split; [exact Hm|]. by destruct (Dial _ _ _) as [[]|e].
Qed.
End client_facts.

(** ** A session of the agent *)

(** What reaches the host of a list of effects. *)
Definition agent_stdin (out : list agent_effect) : bytes :=
  stdin_bytes (omap (λ e, match e with Terminal e => Some e | _ => None end) out).

Section agent_facts.
Context `{UL : UnicodeLaws} (proxyID sessionID : text) (host : Host.t).
Local Notation loop := (agent_loop proxyID sessionID host).

Lemma agent_stdin_app a b : agent_stdin (a ++ b) = agent_stdin a ++ agent_stdin b.
Proof. unfold agent_stdin. by rewrite omap_app, stdin_bytes_app. Qed.

Lemma agent_stdin_terminal l : agent_stdin (Terminal <$> l) = stdin_bytes l.
Proof. unfold agent_stdin. f_equal. induction l as [|x l IH]; [done|]. cbn. by rewrite IH. Qed.

(** A key: Enter of a blocked line is swallowed, the rest goes to the host. *)
Lemma agent_key buf ev ch : key_message ch ev → Forall (λ b, b < 128) buf →
  (agent_message host buf ev).1 = next_line ch buf ∧
  stdin_bytes (agent_message host buf ev).2 =
    (if is_newline ch && web_intercepts [] (Host.IP host) ev buf then [] else [ch]) ∧
  Forall (λ b, b < 128) (next_line ch buf).
Proof.
  intros [Hmsg Hk] Hbuf. unfold agent_message. rewrite Hmsg.
  pose proof (plain_key_small _ Hk) as Hsmall. pose proof (plain_key_encode _ Hk) as Henc.
  assert (∀ k, text_eqb [ch] [k] = (ch =? k)) as Heq.
  { intros k. unfold text_eqb. destruct (Z.eqb_spec ch k) as [->|Hne]; [by rewrite bool_decide_eq_true_2|].
    apply bool_decide_eq_false_2. congruence. }
  rewrite !Heq, decode_ascii by done. fold (is_newline ch). fold (is_backspace ch).
  assert (Forall (λ b, b < 128) (removelast buf)) as Hrem.
  { destruct buf as [|x buf _] using rev_ind; [done|]. rewrite removelast_last. by apply Forall_app in Hbuf as [? _]. }
  unfold next_line. destruct (is_newline ch) eqn:En; cbn [andb].
  - destruct (web_intercepts _ _ _ _) eqn:Ei; cbn [fst snd].
    + split_and!; [done| |done]. unfold agent_block.
      change (stdin_bytes (RecordInput [ch] :: ?x)) with (stdin_bytes x). rewrite stdin_bytes_app.
      unfold web_alert. destruct (checkMgr ev) as [m|]; [|done]. by destruct (IsBlockedWithNotify m buf [] _).2.
    + rewrite Henc. done.
  - destruct (ch =? 3) eqn:E3; cbn [fst snd]; [by rewrite Henc|].
    destruct (is_backspace ch) eqn:Eb; cbn [fst snd]; [by rewrite Henc, take_removelast|].
    assert (is_printable ch = true) as Hp.
    { unfold plain_key in Hk. by rewrite En, E3, Eb in Hk. }
    rewrite Hp, Henc. split_and!; [done..|]. apply Forall_app. split; [done|]. by constructor.
Qed.

Lemma printable_small c : Forall (λ b, is_printable b = true) c → Forall (λ b, b < 128) c.
Proof.
  intros Hc. eapply Forall_impl; [exact Hc|]. intros b Hb. apply plain_key_small. unfold plain_key. by rewrite Hb, !orb_true_r.
Qed.

Lemma printable_line b l : is_printable b = true → next_line b l = l ++ [b] ∧ is_newline b = false.
Proof.
  intros Hb. unfold next_line, is_newline, is_backspace. rewrite Hb. unfold is_printable in Hb. prop_bools.
  rewrite !(proj2 (Z.eqb_neq _ _)) by lia. done.
Qed.

(** What is typed reaches the host and the buffers. *)
Lemma typed_keys c evs : Forall2 key_message c evs → Forall (λ b, is_printable b = true) c → ∀ buf ex rest,
  Forall (λ b, b < 128) buf →
  agent_stdin (loop (buf, ex) ((FromBrowser <$> evs) ++ rest)) = c ++ agent_stdin (loop (buf ++ c, ex) rest).
Proof.
  induction 1 as [|ch ev c evs Hk Hks IH]; intros Hp buf ex rest Hbuf; [by rewrite app_nil_r|].
  apply Forall_cons in Hp as [Hch Hp]. destruct (agent_key buf ev ch Hk Hbuf) as (H1 & H2 & H3).
  cbn [fmap list_fmap app agent_loop agent_step]. destruct (agent_message host buf ev) as [buf1 out]. cbn [fst snd] in *.
  destruct (printable_line ch buf Hch) as [Hl Hn]. rewrite Hn in H2. cbn [andb] in H2. rewrite Hl in H1, H3.
  rewrite agent_stdin_app, agent_stdin_terminal, H2, H1, (IH Hp _ _ _ H3). cbn [app]. by rewrite <- app_assoc.
Qed.

Lemma web_typed_keys c evs : Forall2 key_message c evs → Forall (λ b, is_printable b = true) c → ∀ buf rest,
  Forall (λ b, b < 128) buf →
  stdin_bytes (web_loop [] (Host.IP host) buf (evs ++ rest)).2 =
    c ++ stdin_bytes (web_loop [] (Host.IP host) (buf ++ c) rest).2.
Proof.
  induction 1 as [|ch ev c evs Hk Hks IH]; intros Hp buf rest Hbuf; [by rewrite app_nil_r|].
  apply Forall_cons in Hp as [Hch Hp]. destruct (web_key [] (Host.IP host) buf ev ch Hk Hbuf) as (H1 & H2 & H3).
  cbn [app web_loop]. destruct (web_message _ _ buf ev) as [buf1 out]. cbn [fst snd] in *.
  destruct (printable_line ch buf Hch) as [Hl Hn]. rewrite Hn in H2. cbn [andb] in H2. rewrite Hl in H1, H3. subst buf1.
  specialize (IH Hp _ rest H3). destruct (web_loop _ _ _ (evs ++ rest)) as [buf2 out2]. cbn [snd] in *.
  rewrite stdin_bytes_app, H2, IH. cbn [app]. by rewrite <- app_assoc.
Qed.

Lemma submitted_printable c : Forall (λ b, is_printable b = true) c → ∀ l rest,
  submitted [] l (c ++ rest) = submitted [] (l ++ c) rest.
Proof.
  induction 1 as [|b c Hb Hc IH]; intros l rest; [by rewrite app_nil_r|].
  destruct (printable_line b l Hb) as [Hl Hn]. cbn [app].
  assert (plain_key b = true) as Hk by (unfold plain_key; by rewrite Hb, !orb_true_r).
  rewrite submitted_key, Hl, IH by done. by rewrite <- app_assoc.
Qed.

(** A blocked command that is typed key by key is not submitted by its Enter,
    but unlike the terminal of the API server the agent leaves it on the line of
    the host and forgets it: a second Enter submits it.  The web terminal on the
    same keys submits two empty lines. *)
Theorem agent_blocked_runs c evs enter1 enter2 m ex :
  Forall2 key_message c evs → Forall (λ b, is_printable b = true) c →
  key_message 13 enter1 → key_message 13 enter2 →
  checkMgr enter1 = Some m → IsBlocked m c [] = true →
  let typed := evs ++ [enter1] in
  submitted [] [] (agent_stdin (loop ([], ex) (FromBrowser <$> typed))) = [] ∧
  submitted [] [] (agent_stdin (loop ([], ex) (FromBrowser <$> typed ++ [enter2]))) = [c] ∧
  submitted [] [] (stdin_bytes (web_loop [] (Host.IP host) [] (typed ++ [enter2])).2) = [[]; []].
Proof.
  intros Hks Hp He1 He2 Hm Hb typed. pose proof (printable_small c Hp) as Hsm.
  assert (web_intercepts [] (Host.IP host) enter1 c = true) as Hi.
  { unfold web_intercepts. rewrite Hm, IsBlockedWithNotify_fst, Hb. apply IsBlocked_cause in Hb as [Hne _].
    destruct c; [by rewrite trim_space_nil in Hne|done]. }
  assert (∀ rest, agent_stdin (loop ([], ex) ((FromBrowser <$> evs) ++ FromBrowser enter1 :: rest)) =
                  c ++ agent_stdin (loop ([], ex) rest)) as Hswallow.
  { intros rest. rewrite (typed_keys c evs Hks Hp [] ex _) by done. f_equal.
    cbn [app agent_loop agent_step]. destruct (agent_key c enter1 13 He1 Hsm) as (H1 & H2 & _).
    destruct (agent_message host c enter1) as [b out]. cbn [fst snd] in *. change (is_newline 13) with true in H2.
    rewrite Hi in H2. cbn [andb] in H2. rewrite agent_stdin_app, agent_stdin_terminal, H2, H1. done. }
  unfold typed. split_and!.
  - rewrite fmap_app. change (FromBrowser <$> [enter1]) with [FromBrowser enter1]. rewrite (Hswallow []). rewrite submitted_printable by done. done.
  - rewrite <- app_assoc, fmap_app. change (FromBrowser <$> [enter1] ++ [enter2]) with [FromBrowser enter1; FromBrowser enter2].
    rewrite (Hswallow [FromBrowser enter2]), submitted_printable by done.
    cbn [app agent_loop agent_step]. destruct (agent_key [] enter2 13 He2) as (H1 & H2 & _); [done|].
    destruct (agent_message host [] enter2) as [b out]. cbn [fst snd] in *. change (is_newline 13) with true in H2.
    rewrite agent_stdin_app, agent_stdin_terminal, H2. done.
  - rewrite <- app_assoc, (web_typed_keys c evs Hks Hp []) by done. cbn [app web_loop].
    destruct (web_key [] (Host.IP host) c enter1 13 He1 Hsm) as (H1 & H2 & _).
    rewrite (web_intercepts_blocked [] (Host.IP host) enter1 m c c Hm Hb eq_refl) in H2.
    destruct (web_message _ _ c enter1) as [b out]. cbn [fst snd] in *. change (is_newline 13) with true in H1, H2. subst b.
    destruct (web_key [] (Host.IP host) [] enter2 13 He2) as (H3 & H4 & _); [done|].
    change (next_line 13 c) with (@nil Z). destruct (web_message _ _ [] enter2) as [b out2]. cbn [fst snd] in *.
    rewrite !stdin_bytes_app, H2, H4, submitted_printable by done. cbn [app andb].
    rewrite <- app_assoc, submitted_erase. unfold web_intercepts. rewrite trim_space_nil. cbn. done.
Qed.
End agent_facts.

(** ** What a session leaves *)

Section session_facts.
Context `{SshLib} `{Unicode} `{Storage} (proxyID : text).

Lemma agent_no_method (host : Host.t) : NewSSHClient (agent_config host) = Err (txt "no authentication method provided").
Proof. unfold NewSSHClient, auth_methods, agent_config. cbn [SSHConfig.AuthType SSHConfig.PrivateKey SSHConfig.Password].
  rewrite !text_eqb_false; [done|vm_compute; discriminate..]. Qed.

(** Whatever the shell would have done. *)
Lemma agent_no_shell (host : Host.t) sid sh : proxySSHConnection proxyID host sid sh =
  (Err (txt "failed to connect to host: " ++ txt "no authentication method provided"), []).
Proof. unfold proxySSHConnection. rewrite agent_no_method. done. Qed.

(** Even a shell that runs ends with an error. *)
Lemma shell_ends_badly (host : Host.t) sid sh : ∃ e, (proxySSHConnection proxyID host sid sh).1 = Err e.
Proof. unfold proxySSHConnection. destruct (all_ok _) as [[]|e]; eauto. Qed.

Lemma session_forgotten sm sid conn : RemoveSession (AddSession sm sid conn) sid = delete sid sm.
Proof. apply (delete_insert_eq (M := gmap text)). Qed.

(** The agent never reaches a host: whatever host the token names and
    whatever the SSH library would do, the handler has no credentials for it, the
    browser is told of a wrong user name or password, and the login is recorded
    and marked failed, with no session; the table of sessions is as it was but
    for the new name. *)
Theorem agent_session_never_connects token resp t conn sm sid rid now ended cast sh host db db1 f f1 :
  token ≠ [] → validateToken resp = Ok t →
  or_fail (λ _, (404, txt "Host not found")) (FindHostByID (TokenInfo.HostID t)) db f = (Ok host, db1, f1) →
  HandleSSH proxyID token resp (Some conn) sm sid rid now ended cast sh db f =
    (_ ← stored_call (SaveLoginRecord (login_attempt sid t host now));
     _ ← stored_call (UpdateLoginRecordStatus sid (txt "failed") None);
     mret (delete sid sm,
           [Terminal (ToBrowser (connecting_to host));
            Terminal (ToBrowser (connection_failed
              (txt "failed to connect to host: " ++ txt "no authentication method provided")))])) db1 f1.
Proof.
  intros Ht Hv Hf. unfold HandleSSH. destruct token as [|x token]; [done|]. cbn [is_empty]. rewrite Hv, bind_run, Hf.
  rewrite agent_no_shell, !bind_run. destruct (stored_call (SaveLoginRecord _) db1 f1) as [[[?|?] db2] f2]; [|done].
  rewrite !bind_run. unfold save_commands. cbn [for_each]. rewrite bind_run. cbn [app].
  rewrite session_forgotten. done.
Qed.
End session_facts.

(** ** Concrete sessions *)

(** A library that reads a key by its name and reaches every host. *)
Definition easy_ssh : SshLib := {|
  ParsePrivateKey := λ k, if text_eqb k (txt "bad") then Err (txt "no key found") else Ok k;
  ParsePrivateKeyWithPassphrase := λ k p, Ok (k ++ p);
  Dial := λ _ _ _, Ok () |}.
Definition config_with (password key passphrase type : string) : SSHConfig.t :=
  {| SSHConfig.Host := txt "10.0.0.5"; SSHConfig.Port := 22; SSHConfig.Username := txt "root"; SSHConfig.Password := txt password;
     SSHConfig.PrivateKey := txt key; SSHConfig.Passphrase := txt passphrase; SSHConfig.AuthType := txt type |}.

(** A type never falls back on the other method. *)
Example no_fallback :
  auth_methods (H := easy_ssh) (config_with "secret" "k" "" "") = Ok [KeyMethod (txt "k")] ∧
  auth_methods (H := easy_ssh) (config_with "secret" "k" "" "password") = Ok [PasswordMethod (txt "secret")] ∧
  auth_methods (H := easy_ssh) (config_with "secret" "" "" "key") = Err (txt "private key is required for key authentication") ∧
  auth_methods (H := easy_ssh) (config_with "secret" "bad" "" "") = Err (txt "failed to parse private key: no key found") ∧
  NewSSHClient (H := easy_ssh) (config_with "" "" "" "") = Err (txt "no authentication method provided").
Proof. vm_compute. split_and!; reflexivity. Qed.

Lemma client_authenticates_as_told_witness :
  ∃ m, told (H := easy_ssh) (config_with "secret" "k" "pw" "key") m ∧ m = KeyMethod (txt "kpw").
Proof.
  destruct (client_authenticates_as_told (H := easy_ssh) (config_with "secret" "k" "pw" "key")) as [Hone _].
  destruct (Hone [KeyMethod (txt "kpw")]) as [Hx|(m & Hm & Ht)]; [vm_compute; reflexivity|discriminate|].
  injection Hm as <-. eexists. split; [exact Ht|reflexivity].
Defined.

Definition agent_host : Host.t := named "h1" "10.0.0.5".
Lemma agent_blocked_runs_witness :
  let typed := (web_key_press <$> txt "reboot") ++ [web_key_press 13] in
  let run evs := submitted [] [] (agent_stdin (agent_loop (txt "p1") (txt "s1") agent_host ([], NewCommandExtractor true) (FromBrowser <$> evs))) in
  IsBlocked strict_manager (txt "reboot") [] = true ∧ run typed = [] ∧ run (typed ++ [web_key_press 13]) = [txt "reboot"].
Proof.
  intros typed run. split; [vm_compute; reflexivity|].
  destruct (agent_blocked_runs (txt "p1") (txt "s1") agent_host (txt "reboot") (web_key_press <$> txt "reboot")
    (web_key_press 13) (web_key_press 13) strict_manager (NewCommandExtractor true)) as (H1 & H2 & _).
  - apply Forall2_fmap_r, Forall_Forall2_diag, (Forall_impl (λ ch, plain_key ch = true)).
    + apply (bool_decide_unpack _). vm_compute. exact I.
    + intros ch Hch. split; [reflexivity|exact Hch].
  - apply (bool_decide_unpack _). vm_compute. exact I.
  - split; reflexivity.
  - split; reflexivity.
  - reflexivity.
  - vm_compute. reflexivity.
  - split; [exact H1|exact H2].
Defined.

Definition agent_db : Db := set_hosts empty_db [agent_host].
Definition agent_token : item := {["hostId"%string := JText (txt "h1"); "userId"%string := JText (txt "u1"); "username"%string := JText (txt "bob")]}.
Definition ready : Answers :=
  {| new_session := Ok (); request_pty := Ok (); stdin_pipe := Ok (); stdout_pipe := Ok (); stderr_pipe := Ok (); start_shell := Ok () |}.
Definition agent_shell : Shell := {| answers := ready; events := [FromBrowser (web_key_press 97)]; first_error := txt "EOF" |}.

(** The host would take anybody, and still the login is marked failed. *)
Lemma agent_session_never_connects_witness :
  ∃ db', HandleSSH (H := easy_ssh) (H1 := webshell_storage) (txt "p1") (txt "tok") (Ok (Some agent_token)) (Some 7%nat) ∅ (txt "s1") (txt "r1") 10 20 []
           agent_shell agent_db [] =
    (Ok (delete (txt "s1") ∅, [Terminal (ToBrowser (connecting_to agent_host));
         Terminal (ToBrowser (connection_failed (txt "failed to connect to host: " ++ txt "no authentication method provided")))]), db', []) ∧
    LoginRecord.Status <$> login_records (aux db') = [txt "failed"] ∧ session_recordings (aux db') = [].
Proof.
  eexists. split; [|split].
  - rewrite (agent_session_never_connects (H := easy_ssh) (H1 := webshell_storage) (txt "p1") (txt "tok") (Ok (Some agent_token))
      {| TokenInfo.HostID := txt "h1"; TokenInfo.UserID := txt "u1"; TokenInfo.Username := txt "bob" |} 7%nat ∅ (txt "s1") (txt "r1") 10 20 []
      agent_shell agent_host agent_db agent_db [] []).
    + vm_compute. reflexivity.
    + discriminate.
    + vm_compute. reflexivity.
    + vm_compute. reflexivity.
  - vm_compute. reflexivity.
  - vm_compute. reflexivity.
Defined.
