(* ===== verification/Protocols.v ===== *)
(** * Connections by protocol

    [internal/bastion/protocol]: the factory of the protocols, the handlers for
    SSH and for RDP, and the handler of [internal/bastion/websocket] that serves a
    connection of any of them.  Only SSH is in the factory, and no route leads to
    the handler.  The goroutines of a connection are one list of events in the
    order in which they happen; what reaches the recorder goes through the adapter
    of Recorder.v.  A counter of bytes does not reach [2^63]. *)

From stdpp Require Import base list strings gmap pretty.
From Stdlib Require Import ZArith Lia.
From S2P Require Import Prelude GoStrings Gorm Models Database Repositories AuditTrail TwoFactor AccessApi Hosts HostSession AgentTerminal.
Local Open Scope Z_scope.

(** ** A handler *)

Definition ProtocolType : Type := text.
Module ConnectionConfig.
Record t := {
  HostID : text; HostIP : text; HostPort : Z; Username : text; Password : text; PrivateKey : text;
  Protocol : ProtocolType; SessionID : text; UserID : text; ProxyID : text }.
End ConnectionConfig.
Module SessionInfo.
Record t := {
  SessionID : text; ProxyID : text; UserID : text; Username : text; HostID : text; HostIP : text; HostPort : Z;
  Protocol : ProtocolType; Status : text; StartTime : Z; EndTime : option Z; BytesIn : Z; BytesOut : Z }.
Definition set_status (i : t) (status : text) (at_end : option Z) : t :=
  {| SessionID := SessionID i; ProxyID := ProxyID i; UserID := UserID i; Username := Username i; HostID := HostID i;
     HostIP := HostIP i; HostPort := HostPort i; Protocol := Protocol i; Status := status; StartTime := StartTime i;
     EndTime := at_end; BytesIn := BytesIn i; BytesOut := BytesOut i |}.
Definition set_bytes (i : t) (n_in n_out : Z) : t :=
  {| SessionID := SessionID i; ProxyID := ProxyID i; UserID := UserID i; Username := Username i; HostID := HostID i;
     HostIP := HostIP i; HostPort := HostPort i; Protocol := Protocol i; Status := Status i; StartTime := StartTime i;
     EndTime := EndTime i; BytesIn := n_in; BytesOut := n_out |}.
End SessionInfo.

(** The two implementations of the interface [ProtocolHandler]. *)
Inductive kind := SSHHandler | RDPHandler.
Module Handler.
(** [live] is the context: none before [Connect], cancelled by [Close]. *)
Record t := { type : kind; config : option ConnectionConfig.t; sessionInfo : option SessionInfo.t; live : option bool;
              sshClient : bool; sshSession : bool; connected : bool }.
Definition set_info (h : t) (i : option SessionInfo.t) : t :=
  {| type := type h; config := config h; sessionInfo := i; live := live h; sshClient := sshClient h;
     sshSession := sshSession h; connected := connected h |}.
Definition set_session (h : t) (b : bool) : t :=
  {| type := type h; config := config h; sessionInfo := sessionInfo h; live := live h; sshClient := sshClient h;
     sshSession := b; connected := connected h |}.
End Handler.

(** What a handler does to the outside: the recorder, the host and the browser.
    The recorder is told of input and output; the stream of an output is kept
    here. *)
Inductive source := ClientInput | HostOutput (stderr : bool).
Inductive effect :=
  | RecordStart (i : SessionInfo.t)
  | RecordEnd (sessionID : text) (at_end : Z)
  | RecordData (sessionID : text) (source : source) (data : bytes)
  | RecordError (sessionID : text) (e : text)
  | ToHost (data : bytes)
  | ToClient (data : text)
  | Output (stderr : bool) (data : bytes)
  | WindowChanged (height width : Z).

Definition new_handler (k : kind) : Handler.t :=
  {| Handler.type := k; Handler.config := None; Handler.sessionInfo := None; Handler.live := None;
     Handler.sshClient := false; Handler.sshSession := false; Handler.connected := false |}.
Definition NewSSHHandler : Handler.t := new_handler SSHHandler.
Definition NewRDPHandler : Handler.t := new_handler RDPHandler.
Definition GetProtocolType (h : Handler.t) : ProtocolType :=
  match Handler.type h with SSHHandler => txt "ssh" | RDPHandler => txt "rdp" end.
Definition IsAlive (h : Handler.t) : bool :=
  Handler.connected h && match Handler.live h with Some b => b | None => false end.

Section handlers.
Context `{SshLib}.

Definition connecting (h : Handler.t) (c : ConnectionConfig.t) (now : Z) : SessionInfo.t :=
  {| SessionInfo.SessionID := ConnectionConfig.SessionID c; SessionInfo.ProxyID := ConnectionConfig.ProxyID c;
     SessionInfo.UserID := ConnectionConfig.UserID c; SessionInfo.Username := ConnectionConfig.Username c;
     SessionInfo.HostID := ConnectionConfig.HostID c; SessionInfo.HostIP := ConnectionConfig.HostIP c;
     SessionInfo.HostPort := ConnectionConfig.HostPort c; SessionInfo.Protocol := GetProtocolType h;
     SessionInfo.Status := txt "connecting"; SessionInfo.StartTime := now; SessionInfo.EndTime := None;
     SessionInfo.BytesIn := 0; SessionInfo.BytesOut := 0 |}.
(** The methods a connection offers: the password and the key that it has. *)
Definition offered (c : ConnectionConfig.t) : result text (list auth_method) :=
  let password := if is_empty (ConnectionConfig.Password c) then [] else [PasswordMethod (ConnectionConfig.Password c)] in
  if is_empty (ConnectionConfig.PrivateKey c) then Ok password
  else match ParsePrivateKey (ConnectionConfig.PrivateKey c) with
       | Ok signer => Ok (password ++ [KeyMethod signer])
       | Err e => Err (txt "failed to parse private key: " ++ e)
       end.
Definition started (h : Handler.t) (c : ConnectionConfig.t) (i : SessionInfo.t) (ok : bool) : Handler.t :=
  {| Handler.type := Handler.type h; Handler.config := Some c; Handler.sessionInfo := Some i; Handler.live := Some true;
     Handler.sshClient := match Handler.type h with SSHHandler => ok || Handler.sshClient h | RDPHandler => false end;
     Handler.sshSession := Handler.sshSession h; Handler.connected := ok || Handler.connected h |}.
Definition Connect (h : Handler.t) (c : ConnectionConfig.t) (now : Z) : Handler.t * list effect * result text unit :=
  let i := connecting h c now in
  let active := SessionInfo.set_status i (txt "active") None in
  match Handler.type h with
  | RDPHandler => (started h c active true, [RecordStart active], Ok ())
  | SSHHandler =>
      match offered c with
      | Err e => (started h c i false, [], Err e)
      | Ok methods =>
          match Dial (host_port (ConnectionConfig.HostIP c) (ConnectionConfig.HostPort c)) (ConnectionConfig.Username c) methods with
          | Ok _ => (started h c active true, [RecordStart active], Ok ())
          | Err e => (started h c (SessionInfo.set_status i (txt "error") None) false,
                      [RecordError (ConnectionConfig.SessionID c) e], Err (txt "failed to connect to SSH server: " ++ e))
          end
      end
  end.

(** ** The terminal of a connection *)

(** A text or binary message of the browser and whether the host takes it; the
    browser goes; an output of the host is read, and whether the browser takes it;
    its goroutine reads the counter, which nothing protects, and writes it back;
    an output ends. *)
Inductive event :=
  | FromClient (data : bytes) (failed : option nat)
  | CountsInput
  | RecordsInput
  | ClientGone
  | FromServer (stderr : bool) (data : bytes) (taken : bool)
  | LoadsCounter (stderr : bool)
  | StoresCounter (stderr : bool)
  | RecordsOutput (stderr : bool)
  | ServerEnds (stderr : bool).
(** Where the goroutine of the input is, which ends with the part of a message the
    host got before a write failed, and where that of an output is. *)
Inductive writer := Waiting | Sent (data : bytes) | Counted (data : bytes) | Stopped (lost : bytes).
Inductive reader := Reading | Written (data : bytes) | Loaded (data : bytes) (v : Z) | Stored (data : bytes) | Ended.
Record Pump := { input : writer; stdout : reader; stderr : reader; info : SessionInfo.t }.

Definition reader_of (p : Pump) (err : bool) : reader := if err then stderr p else stdout p.
Definition set_reader (p : Pump) (err : bool) (r : reader) : Pump :=
  {| input := input p; stdout := if err then stdout p else r; stderr := if err then r else stderr p; info := info p |}.
Definition set_input (p : Pump) (w : writer) : Pump :=
  {| input := w; stdout := stdout p; stderr := stderr p; info := info p |}.
Definition with_counters (p : Pump) (n_in n_out : Z) : Pump :=
  {| input := input p; stdout := stdout p; stderr := stderr p; info := SessionInfo.set_bytes (info p) n_in n_out |}.
(** A message that begins with a brace is taken for a control message, which is
    only logged. *)
Definition is_control (data : bytes) : bool := match data with b :: _ => b =? 123 | [] => false end.
Definition handleControlMessage (data : bytes) : list effect := [].

(** An event that does not meet its goroutine where it waits for it is no step. *)
Definition pump_step (sessionID : text) (p : Pump) (ev : event) : Pump * list effect :=
  let n_in := SessionInfo.BytesIn (info p) in
  let n_out := SessionInfo.BytesOut (info p) in
  match ev with
  | FromClient data failed =>
      match input p with
      | Waiting =>
          if is_control data then (p, handleControlMessage data)
          else match failed with
               | None => (set_input p (Sent data), [ToHost data])
               | Some k => (set_input p (Stopped (take k data)), [ToHost (take k data)])
               end
      | _ => (p, [])
      end
  | CountsInput =>
      match input p with
      | Sent data => (with_counters (set_input p (Counted data)) (n_in + Z.of_nat (length data)) n_out, [])
      | _ => (p, [])
      end
  | RecordsInput =>
      match input p with
      | Counted data => (set_input p Waiting, [RecordData sessionID ClientInput data])
      | _ => (p, [])
      end
  | ClientGone => match input p with Waiting => (set_input p (Stopped []), []) | _ => (p, []) end
  | FromServer err data taken =>
      match reader_of p err with
      | Reading => if is_empty data then (p, [])
                   else if taken then (set_reader p err (Written data), [Output err data]) else (set_reader p err Ended, [])
      | _ => (p, [])
      end
  | LoadsCounter err =>
      match reader_of p err with Written data => (set_reader p err (Loaded data n_out), []) | _ => (p, []) end
  | StoresCounter err =>
      match reader_of p err with
      | Loaded data v => (with_counters (set_reader p err (Stored data)) n_in (v + Z.of_nat (length data)), [])
      | _ => (p, [])
      end
  | RecordsOutput err =>
      match reader_of p err with
      | Stored data => (set_reader p err Reading, [RecordData sessionID (HostOutput err) data])
      | _ => (p, [])
      end
  | ServerEnds err => match reader_of p err with Reading => (set_reader p err Ended, []) | _ => (p, []) end
  end.
Fixpoint pump_run (sessionID : text) (p : Pump) (evs : list event) : Pump * list effect :=
  match evs with
  | [] => (p, [])
  | ev :: evs =>
      let '(p, out) := pump_step sessionID p ev in
      let '(p, out') := pump_run sessionID p evs in
      (p, out ++ out')
  end.

(** [waited] is the result of [session.Wait].  Without an answer the call does not
    return: RDP waits for a cancellation that only [Close] would bring. *)
Definition HandleWebSocket (a : Answers) (evs : list event) (waited : result text unit) (h : Handler.t)
    : Handler.t * list effect * option (result text unit) :=
  match Handler.type h, Handler.config h, Handler.sessionInfo h with
  | SSHHandler, Some c, Some i =>
      if negb (IsAlive h) then (h, [], Some (Err (txt "SSH connection not established")))
      else match wrapped "failed to create SSH session: " (new_session a) with
           | Err e => (h, [], Some (Err e))
           | Ok _ =>
               let h := Handler.set_session h true in
               match all_ok [wrapped "failed to request PTY: " (request_pty a); wrapped "failed to get stdin: " (stdin_pipe a);
                             wrapped "failed to get stdout: " (stdout_pipe a); wrapped "failed to get stderr: " (stderr_pipe a);
                             wrapped "failed to start shell: " (start_shell a)] with
               | Err e => (h, [], Some (Err e))
               | Ok _ =>
                   let '(p, out) := pump_run (ConnectionConfig.SessionID c)
                     {| input := Waiting; stdout := Reading; stderr := Reading; info := i |} evs in
                   (Handler.set_info h (Some (info p)), out, Some waited)
               end
           end
  | RDPHandler, Some c, Some _ =>
      if negb (IsAlive h) then (h, [], Some (Err (txt "RDP connection not established")))
      else (h, [ToClient (txt "RDP connection to " ++ host_port (ConnectionConfig.HostIP c) (ConnectionConfig.HostPort c) ++ [10] ++
                          txt "Note: Full RDP support requires integration with Guacamole or FreeRDP" ++ [10])], None)
  | SSHHandler, _, _ => (h, [], Some (Err (txt "SSH connection not established")))
  | RDPHandler, _, _ => (h, [], Some (Err (txt "RDP connection not established")))
  end.

Definition Resize (h : Handler.t) (width height : Z) : result text (list effect) :=
  if Handler.sshSession h then Ok [WindowChanged height width] else Err (txt "no active SSH session").
(** Nothing when it panics: before [Connect] there is no session to close. *)
Definition Close (h : Handler.t) (now : Z) : option (Handler.t * list effect) :=
  match Handler.config h, Handler.sessionInfo h with
  | Some c, Some i => Some
      ({| Handler.type := Handler.type h; Handler.config := Some c;
          Handler.sessionInfo := Some (SessionInfo.set_status i (txt "closed") (Some now));
          Handler.live := (λ _, false) <$> Handler.live h; Handler.sshClient := false; Handler.sshSession := false;
          Handler.connected := false |}, [RecordEnd (ConnectionConfig.SessionID c) now])
  | _, _ => None
  end.
End handlers.

(** ** The factory *)

Module Factory.
Definition t : Type := gmap text kind.
Definition NewFactory : t := ∅.
Definition Register (f : t) (protocol : ProtocolType) (creator : kind) : t := <[protocol := creator]> f.
Definition creator_of (f : t) (protocol : ProtocolType) : option kind := f !! protocol.
Definition Create (f : t) (protocol : ProtocolType) : result text Handler.t :=
  match creator_of f protocol with
  | Some creator => Ok (new_handler creator)
  | None => Err (txt "unsupported protocol: " ++ protocol)
  end.
Definition SupportedProtocols (f : t) : list ProtocolType := (map_to_list f).*1.
Definition IsSupported (f : t) (protocol : ProtocolType) : bool := bool_decide (is_Some (creator_of f protocol)).
(** What the package registers when it is loaded. *)
Definition GetFactory : t := Register NewFactory (txt "ssh") SSHHandler.
End Factory.

(** ** A connection of the agent *)

(** The parameters of the request: it carries no token. *)
Module Query.
Record t := { protocol : text; hostId : text; ip : text; hostname : text; userId : text; username : text }.
End Query.

Section connection.
Context `{SshLib} `{Storage} (err_text : db_error → text) (like : text → text → bool) (proxyID : text).

Definition getHostInfo (q : Query.t) : Http Host.t :=
  if negb (is_empty (Query.hostId q)) then or_fail (λ e, (404, err_text e)) (FindHostByID (Query.hostId q))
  else if negb (is_empty (Query.ip q)) then or_fail (λ e, (404, err_text e)) (HostRepository.FindByIP (Query.ip q))
  else if negb (is_empty (Query.hostname q)) then
    r ← attempt (HostRepository.FindAll like 1 1 (Query.hostname q) []);
    match r with
    | Some (h :: _, _) => mret h
    | _ => raise (404, txt "host not found: " ++ Query.hostname q)
    end
  else raise (404, txt "hostId, ip or hostname is required").

Definition connection_config (q : Query.t) (protocol : ProtocolType) (host : Host.t) (sessionID : text) : ConnectionConfig.t :=
  {| ConnectionConfig.HostID := Host.ID host; ConnectionConfig.HostIP := Host.IP host; ConnectionConfig.HostPort := Host.Port host;
     ConnectionConfig.Username := []; ConnectionConfig.Password := []; ConnectionConfig.PrivateKey := [];
     ConnectionConfig.Protocol := protocol; ConnectionConfig.SessionID := sessionID;
     ConnectionConfig.UserID := Query.userId q; ConnectionConfig.ProxyID := proxyID |}.
(** Who connects, as the request says. *)
Definition said (q : Query.t) : TokenInfo.t :=
  {| TokenInfo.HostID := Query.hostId q; TokenInfo.UserID := Query.userId q; TokenInfo.Username := Query.username q |}.

(** The deferred calls, the last one deferred first. *)
Definition finish (sm : SessionManager) (sessionID : text) (ok : bool) (cast : text) (now : Z) (h : Handler.t) (out : list effect)
    : Http (SessionManager * list effect) :=
  _ ← (if ok then _ ← stored_call (AuditTrail.CloseSession now sessionID cast);
                  stored_call (UpdateLoginRecordStatus sessionID (txt "completed") (Some now))
       else stored_call (UpdateLoginRecordStatus sessionID (txt "failed") None));
  mret (RemoveSession sm sessionID, out ++ match Close h now with Some (_, closing) => closing | None => [] end).

(** It answers the sessions and the effects, and whether it returned at all. *)
Definition HandleConnection (f : Factory.t) (q : Query.t) (upgraded : option nat) (sm : SessionManager)
    (sessionID rowID : text) (now ended : Z) (cast : text) (a : Answers) (evs : list event) (waited : result text unit)
    : Http (SessionManager * list effect * bool) :=
  let protocol := or_default (Query.protocol q) "ssh" in
  if negb (Factory.IsSupported f protocol) then raise (400, txt "Unsupported protocol: " ++ protocol)
  else
    host ← getHostInfo q;
    match upgraded with
    | None => mret (sm, [], true)
    | Some conn =>
        match Factory.Create f protocol with
        | Err e => mret (sm, [ToClient e], true)
        | Ok h =>
            let sm := AddSession sm sessionID conn in
            _ ← stored_call (SaveLoginRecord (login_attempt sessionID (said q) host now));
            match Connect h (connection_config q protocol host sessionID) now with
            | (h, out, Err e) =>
                r ← finish sm sessionID false cast ended h (out ++ [ToClient e]);
                mret (r.1, r.2, true)
            | (h, out, Ok _) =>
                _ ← stored_call (SaveSession rowID (session_record proxyID sessionID (said q) host now));
                match HandleWebSocket a evs waited h with
                | (h, out', Some _) =>
                    r ← finish sm sessionID true cast ended h (out ++ out');
                    mret (r.1, r.2, true)
                | (h, out', None) => mret (sm, out ++ out', false)
                end
            end
        end
    end.
(** [HandleSSH] adds a parameter at the end; the first one of a name counts. *)
Definition HandleSSH (f : Factory.t) (q : Query.t) :=
  HandleConnection f (if is_empty (Query.protocol q) then
    {| Query.protocol := txt "ssh"; Query.hostId := Query.hostId q; Query.ip := Query.ip q; Query.hostname := Query.hostname q;
       Query.userId := Query.userId q; Query.username := Query.username q |} else q).
End connection.

(** ** What is recorded of a connection *)

Definition to_host (out : list effect) : bytes := mjoin ((λ e, match e with ToHost b => b | _ => [] end) <$> out).
Definition to_client (err : bool) (out : list effect) : bytes :=
  mjoin ((λ e, match e with Output b data => if Bool.eqb b err then data else [] | _ => [] end) <$> out).
Definition input_recorded (out : list effect) : bytes :=
  mjoin ((λ e, match e with RecordData _ ClientInput b => b | _ => [] end) <$> out).
Definition output_recorded (err : bool) (out : list effect) : bytes :=
  mjoin ((λ e, match e with RecordData _ (HostOutput b) data => if Bool.eqb b err then data else [] | _ => [] end) <$> out).
Definition total_sent (out : list effect) : Z :=
  Z.of_nat (length (to_client false out)) + Z.of_nat (length (to_client true out)).

(** What the goroutine of the input has sent and not recorded, and of that what it
    has counted already. *)
Definition unsaid (w : writer) : bytes :=
  match w with Sent data | Counted data | Stopped data => data | Waiting => [] end.
Definition counted_ahead (w : writer) : Z := match w with Counted data => Z.of_nat (length data) | _ => 0 end.
(** What that of an output has sent and not recorded, and of that what it has still
    to count. *)
Definition unrecorded (r : reader) : bytes :=
  match r with Written data | Loaded data _ | Stored data => data | Reading | Ended => [] end.
Definition uncounted (r : reader) : Z :=
  match r with Written data | Loaded data _ => Z.of_nat (length data) | _ => 0 end.

Lemma joined_app {A} (f : effect → list A) a b : mjoin (f <$> a ++ b) = mjoin (f <$> a) ++ mjoin (f <$> b).
Proof. by rewrite fmap_app, join_app. Qed.

Lemma total_app a b : total_sent (a ++ b) = total_sent a + total_sent b.
Proof. unfold total_sent, to_client. rewrite !joined_app, !length_app. lia. Qed.

(** What each piece of a run keeps, so that a run keeps it. *)
Record faithful (p p' : Pump) (out : list effect) : Prop := {
  faithful_in : unsaid (input p) ++ to_host out = input_recorded out ++ unsaid (input p');
  faithful_count : SessionInfo.BytesIn (info p') - counted_ahead (input p') =
    SessionInfo.BytesIn (info p) - counted_ahead (input p) + Z.of_nat (length (input_recorded out));
  faithful_out : ∀ err, unrecorded (reader_of p err) ++ to_client err out = output_recorded err out ++ unrecorded (reader_of p' err);
  faithful_brace : Forall (λ e, match e with ToHost b => is_control b = false | _ => True end) out
}.

Lemma faithful_same p p' : unsaid (input p') = unsaid (input p) →
  SessionInfo.BytesIn (info p') - counted_ahead (input p') = SessionInfo.BytesIn (info p) - counted_ahead (input p) →
  (∀ err, unrecorded (reader_of p' err) = unrecorded (reader_of p err)) → faithful p p' [].
Proof. intros Hi Hc Hu. split; [|cbn; lia| |constructor]; [|intros err]; cbn; by rewrite ?Hi, ?Hu, app_nil_r. Qed.

Lemma faithful_app p p1 p2 a b : faithful p p1 a → faithful p1 p2 b → faithful p p2 (a ++ b).
Proof.
  intros [R1 I1 O1 F1] [R2 I2 O2 F2].
  split; unfold input_recorded, to_host, to_client, output_recorded in *; rewrite ?joined_app, ?length_app.
  - rewrite app_assoc, R1, <- !app_assoc. by rewrite R2.
  - lia.
  - intros err. rewrite !joined_app, app_assoc, O1, <- !app_assoc. by rewrite O2.
  - by apply Forall_app.
Qed.

Lemma reader_set p e r e' : reader_of (set_reader p e r) e' = if Bool.eqb e e' then r else reader_of p e'.
Proof. by destruct e, e'. Qed.

Lemma reader_counters p n m e : reader_of (with_counters p n m) e = reader_of p e.
Proof. done. Qed.

Lemma prefix_control data k : is_control data = false → is_control (take k data) = false.
Proof. by destruct data, k. Qed.

(** A step of the input leaves the outputs, and a step of an output the input. *)
Lemma input_faithful p p' out :
  (∀ e, reader_of p' e = reader_of p e) → (∀ e, to_client e out = []) → (∀ e, output_recorded e out = []) →
  unsaid (input p) ++ to_host out = input_recorded out ++ unsaid (input p') →
  SessionInfo.BytesIn (info p') - counted_ahead (input p') =
    SessionInfo.BytesIn (info p) - counted_ahead (input p) + Z.of_nat (length (input_recorded out)) →
  Forall (λ e, match e with ToHost b => is_control b = false | _ => True end) out → faithful p p' out.
Proof. intros Hr Hc Ho Hi Hn Hb. split; [done..| |done]. intros e. by rewrite Hr, Hc, Ho, app_nil_r. Qed.

Lemma output_faithful p e r out n :
  unrecorded (reader_of p e) ++ to_client e out = output_recorded e out ++ unrecorded r →
  to_client (negb e) out = [] → output_recorded (negb e) out = [] → to_host out = [] → input_recorded out = [] →
  Forall (λ e, match e with ToHost b => is_control b = false | _ => True end) out →
  faithful p (with_counters (set_reader p e r) (SessionInfo.BytesIn (info p)) n) out.
Proof.
  intros Hr Hc Ho Hh Hi Hb. split; [|rewrite Hi; cbn; lia| |done].
  - rewrite Hh, Hi. by rewrite app_nil_r.
  - intros e'. rewrite reader_counters, reader_set. destruct (Bool.eqb e e') eqn:E.
    + by apply Bool.eqb_prop in E as <-.
    + assert (e' = negb e) as -> by (by destruct e, e'). by rewrite Hc, Ho, app_nil_r.
Qed.

(** A step that leaves the counters. *)
Lemma reader_faithful p e r out :
  unrecorded (reader_of p e) ++ to_client e out = output_recorded e out ++ unrecorded r →
  to_client (negb e) out = [] → output_recorded (negb e) out = [] → to_host out = [] → input_recorded out = [] →
  Forall (λ e, match e with ToHost b => is_control b = false | _ => True end) out →
  faithful p (set_reader p e r) out.
Proof.
  intros. apply (output_faithful p e r out (SessionInfo.BytesOut (info p))) in H; [|done..].
  destruct H as [Hi Hn Ho Hb]. by split.
Qed.

Lemma pump_step_faithful sid p ev : let '(p', out) := pump_step sid p ev in faithful p p' out.
Proof.
  destruct ev as [data failed| | | |e data taken|e|e|e|e]; cbn [pump_step].
  - destruct (input p) eqn:Ei; try by apply faithful_same. destruct (is_control data) eqn:Ec; [by apply faithful_same|].
    destruct failed as [k|]; apply input_faithful; rewrite ?Ei; unfold to_host, input_recorded; cbn;
      rewrite ?app_nil_r; try done; repeat constructor; try done; [lia|by apply prefix_control|lia].
  - destruct (input p) eqn:Ei; try by apply faithful_same. apply faithful_same; rewrite ?Ei; cbn; [done|lia|done].
  - destruct (input p) eqn:Ei; try by apply faithful_same.
    apply input_faithful; rewrite ?Ei; unfold to_host, input_recorded; cbn; rewrite ?app_nil_r; try done; [lia|by repeat constructor].
  - destruct (input p) eqn:Ei; try by apply faithful_same. apply faithful_same; rewrite ?Ei; done.
  - destruct (reader_of p e) eqn:Er; try by apply faithful_same. destruct (is_empty data); [by apply faithful_same|].
    destruct taken; apply reader_faithful; rewrite ?Er; unfold to_client; cbn; rewrite ?Bool.eqb_reflx, ?app_nil_r; try done;
      [by destruct e|by repeat constructor].
  - destruct (reader_of p e) eqn:Er; try by apply faithful_same. apply reader_faithful; rewrite ?Er; cbn; by rewrite ?app_nil_r.
  - destruct (reader_of p e) eqn:Er; try by apply faithful_same. apply output_faithful; rewrite ?Er; cbn; by rewrite ?app_nil_r.
  - destruct (reader_of p e) eqn:Er; try by apply faithful_same.
    apply reader_faithful; rewrite ?Er; unfold output_recorded; cbn; rewrite ?Bool.eqb_reflx, ?app_nil_r; try done;
      [by destruct e|by repeat constructor].
  - destruct (reader_of p e) eqn:Er; try by apply faithful_same. apply reader_faithful; rewrite ?Er; cbn; by rewrite ?app_nil_r.
Qed.

(** The counter of output against the bytes sent: with what is still to count it is
    never more, whatever value a goroutine has loaded. *)
Definition to_count (p : Pump) : Z := uncounted (stdout p) + uncounted (stderr p).
Definition bounded (p : Pump) (total : Z) : Prop :=
  SessionInfo.BytesOut (info p) + to_count p <= total ∧
  ∀ e data v, reader_of p e = Loaded data v → v + to_count p <= total.

Lemma to_count_at p e : to_count p = uncounted (reader_of p e) + uncounted (reader_of p (negb e)).
Proof. unfold to_count. destruct e; cbn; lia. Qed.
Lemma to_count_set p e r : to_count (set_reader p e r) = uncounted r + uncounted (reader_of p (negb e)).
Proof. unfold to_count. destruct e; cbn; lia. Qed.

(** A step of the goroutine of the output [e], which leaves [n] in the counter. *)
Lemma bounded_set p e r n_in n total total' : bounded p total →
  uncounted r - total' <= uncounted (reader_of p e) - total →
  n + (uncounted r + uncounted (reader_of p (negb e))) <= total' →
  (∀ data v, r = Loaded data v → v + (uncounted r + uncounted (reader_of p (negb e))) <= total') →
  bounded (with_counters (set_reader p e r) n_in n) total'.
Proof.
  intros [Hb Hl] Ht Hn Hr. rewrite (to_count_at p e) in Hl.
  split; change (to_count (with_counters ?q _ _)) with (to_count q); rewrite to_count_set; [exact Hn|].
  intros e' data v. rewrite reader_counters, reader_set. destruct (Bool.eqb e e') eqn:E; [by apply Hr|].
  intros Hv. specialize (Hl _ _ _ Hv). lia.
Qed.

Lemma bounded_keep p e r total total' : bounded p total →
  uncounted r - total' <= uncounted (reader_of p e) - total →
  (∀ data v, r = Loaded data v → v <= SessionInfo.BytesOut (info p)) →
  bounded (set_reader p e r) total'.
Proof.
  intros Hb Ht Hr. pose proof (proj1 Hb) as Hn. rewrite (to_count_at p e) in Hn.
  apply (bounded_set p e r 0 (SessionInfo.BytesOut (info p)) total total' Hb Ht); [lia|].
  intros data v Hv. specialize (Hr _ _ Hv). lia.
Qed.

Lemma sent_one e data : total_sent [Output e data] = Z.of_nat (length data).
Proof. unfold total_sent, to_client. destruct e; cbn; rewrite app_nil_r; lia. Qed.

Lemma sent_none : total_sent [] = 0.
Proof. reflexivity. Qed.
Lemma sent_record sid src data : total_sent [RecordData sid src data] = 0.
Proof. reflexivity. Qed.

Lemma pump_step_bounded sid p ev total : bounded p total →
  let '(p', out) := pump_step sid p ev in bounded p' (total + total_sent out).
Proof.
  intros Hb. assert (bounded p (total + 0)) as Hsame by (by rewrite Z.add_0_r).
  assert (∀ w n, bounded (with_counters (set_input p w) n (SessionInfo.BytesOut (info p))) (total + 0)) as Hin
    by (intros w n; rewrite Z.add_0_r; exact Hb).
  assert (∀ w, bounded (set_input p w) (total + 0)) as Hwr by (intros w; rewrite Z.add_0_r; exact Hb).
  destruct ev as [data failed| | | |e data taken|e|e|e|e]; cbn [pump_step].
  - destruct (input p); try done. destruct (is_control data); [done|]. destruct failed; first [done|apply Hwr].
  - destruct (input p); first [done|apply Hin].
  - destruct (input p); first [done|apply Hwr].
  - destruct (input p); first [done|apply Hwr].
  - destruct (reader_of p e) eqn:Er; try done. destruct (is_empty data); [done|].
    destruct taken; [rewrite sent_one|rewrite ?sent_record, ?sent_none]; (apply (bounded_keep _ _ _ total); [done|rewrite Er; cbn; lia|done]).
  - destruct (reader_of p e) eqn:Er; try done.
    rewrite ?sent_record, ?sent_none. apply (bounded_keep _ _ _ total); [done|rewrite Er; cbn; lia|]. intros d v [= _ <-]. lia.
  - destruct (reader_of p e) as [|data|data v|data|] eqn:Er; try done.
    pose proof (proj2 Hb e data v Er) as Hv. rewrite (to_count_at p e), Er in Hv. cbn [uncounted] in Hv.
    rewrite ?sent_record, ?sent_none. apply (bounded_set _ _ _ _ _ total); [done|rewrite Er; cbn; lia|cbn; lia|done].
  - destruct (reader_of p e) eqn:Er; try done. rewrite ?sent_record, ?sent_none. apply (bounded_keep _ _ _ total); [done|rewrite Er; cbn; lia|done].
  - destruct (reader_of p e) eqn:Er; try done. rewrite ?sent_record, ?sent_none. apply (bounded_keep _ _ _ total); [done|rewrite Er; cbn; lia|done].
Qed.

(** And exactly that when only one of the goroutines has something to write. *)
Definition exact (e : bool) (p : Pump) (total : Z) : Prop :=
  SessionInfo.BytesOut (info p) + uncounted (reader_of p e) = total ∧
  (∀ data v, reader_of p e = Loaded data v → v = SessionInfo.BytesOut (info p)) ∧
  (reader_of p (negb e) = Reading ∨ reader_of p (negb e) = Ended).

(** An event of another source than the output of a stream. *)
Definition not_output (e : bool) (ev : event) : Prop :=
  match ev with FromServer e' _ _ => e' ≠ e | _ => True end.

Lemma reader_set_same p e r : reader_of (set_reader p e r) e = r.
Proof. by destruct e. Qed.
Lemma reader_set_other p e r : reader_of (set_reader p e r) (negb e) = reader_of p (negb e).
Proof. by destruct e. Qed.

Lemma exact_set e p r n_in n total total' : exact e p total →
  n + uncounted r = total' → (∀ data v, r = Loaded data v → v = n) →
  exact e (with_counters (set_reader p e r) n_in n) total'.
Proof.
  intros (_ & _ & Ho) Hn Hr. unfold exact. by rewrite !reader_counters, reader_set_same, reader_set_other.
Qed.

Lemma exact_other e p total : exact e p total → exact e (set_reader p (negb e) Ended) total.
Proof.
  intros (Hn & Hl & Ho). unfold exact. rewrite reader_set_same.
  pose proof (reader_set_other p (negb e) Ended) as Hr. rewrite negb_involutive in Hr. rewrite Hr. auto.
Qed.

Lemma pump_step_exact sid p ev e total : not_output (negb e) ev → exact e p total →
  let '(p', out) := pump_step sid p ev in exact e p' (total + total_sent out).
Proof.
  intros Hn He. assert (exact e p (total + 0)) as Hsame by (by rewrite Z.add_0_r).
  assert (∀ w n, exact e (with_counters (set_input p w) n (SessionInfo.BytesOut (info p))) (total + 0)) as Hin
    by (intros w n; rewrite Z.add_0_r; exact He).
  assert (∀ w, exact e (set_input p w) (total + 0)) as Hwr by (intros w; rewrite Z.add_0_r; exact He).
  assert (∀ r total', SessionInfo.BytesOut (info p) + uncounted r = total' →
    (∀ data v, r = Loaded data v → v = SessionInfo.BytesOut (info p)) → exact e (set_reader p e r) total') as Hset
    by (intros r total'; exact (exact_set e p r 0 (SessionInfo.BytesOut (info p)) total total' He)).
  pose proof He as (Hc & Hl & Ho).
  assert (∀ e', e' = e ∨ e' = negb e) as Hwhich by (intros e'; destruct e, e'; auto).
  destruct ev as [data failed| | | |e' data taken|e'|e'|e'|e']; cbn [pump_step not_output] in *.
  - destruct (input p); try done. destruct (is_control data); [done|]. destruct failed; first [done|apply Hwr].
  - destruct (input p); first [done|apply Hin].
  - destruct (input p); first [done|apply Hwr].
  - destruct (input p); first [done|apply Hwr].
  - destruct (Hwhich e') as [-> | ->]; [|done].
    destruct (reader_of p e) eqn:Er; try done. destruct (is_empty data); [done|].
    destruct taken; [rewrite sent_one|rewrite ?sent_record, ?sent_none]; apply Hset; cbn in *; try lia; done.
  - destruct (Hwhich e') as [-> | ->]; [|by destruct Ho as [-> | ->]].
    destruct (reader_of p e) eqn:Er; try done. rewrite ?sent_record, ?sent_none. apply Hset; [cbn in *; lia|by intros d v [= _ <-]].
  - destruct (Hwhich e') as [-> | ->]; [|by destruct Ho as [-> | ->]].
    destruct (reader_of p e) as [|data|data v|data|] eqn:Er; try done. rewrite (Hl data v eq_refl).
    rewrite ?sent_record, ?sent_none. apply (exact_set e p _ _ _ total); [done|cbn in *; lia|done].
  - destruct (Hwhich e') as [-> | ->]; [|by destruct Ho as [-> | ->]].
    destruct (reader_of p e) eqn:Er; try done. rewrite ?sent_record, ?sent_none. apply Hset; [cbn in *; lia|done].
  - destruct (Hwhich e') as [-> | ->].
    + destruct (reader_of p e) eqn:Er; try done. rewrite ?sent_record, ?sent_none. apply Hset; [cbn in *; lia|done].
    + destruct Ho as [-> | ->]; [rewrite ?sent_none, Z.add_0_r; by apply exact_other|done].
Qed.

Lemma pump_run_faithful sid p evs : let '(p', out) := pump_run sid p evs in faithful p p' out.
Proof.
  revert p. induction evs as [|ev evs IH]; intros p; cbn [pump_run]; [by apply faithful_same|].
  pose proof (pump_step_faithful sid p ev) as Hs. destruct (pump_step sid p ev) as [p1 out1].
  specialize (IH p1). destruct (pump_run sid p1 evs) as [p2 out2]. by eapply faithful_app.
Qed.

Lemma pump_run_bounded sid p evs total : bounded p total →
  let '(p', out) := pump_run sid p evs in bounded p' (total + total_sent out).
Proof.
  revert p total. induction evs as [|ev evs IH]; intros p total Hp; cbn [pump_run]; [by rewrite Z.add_0_r|].
  pose proof (pump_step_bounded sid p ev total Hp) as Hs. destruct (pump_step sid p ev) as [p1 out1].
  specialize (IH p1 _ Hs). destruct (pump_run sid p1 evs) as [p2 out2]. by rewrite total_app, Z.add_assoc.
Qed.

Lemma pump_run_exact sid p evs e total : Forall (not_output (negb e)) evs → exact e p total →
  let '(p', out) := pump_run sid p evs in exact e p' (total + total_sent out).
Proof.
  intros Hf. revert p total. induction Hf as [|ev evs Hn _ IH]; intros p total Hp; cbn [pump_run]; [by rewrite Z.add_0_r|].
  pose proof (pump_step_exact sid p ev e total Hn Hp) as Hs. destruct (pump_step sid p ev) as [p1 out1].
  specialize (IH p1 _ Hs). destruct (pump_run sid p1 evs) as [p2 out2]. by rewrite total_app, Z.add_assoc.
Qed.

(** The state in which the goroutines start. *)
Definition fresh_pump (i : SessionInfo.t) : Pump := {| input := Waiting; stdout := Reading; stderr := Reading; info := i |}.


(** ** Its life *)

Section life.
Context `{SshLib}.

(** A handler is alive exactly between a [Connect] that succeeds and [Close]:
    a new one is not, serves nothing and cannot even be closed; a connection that
    fails is not alive, and after [Close] nothing is served and the terminal
    cannot be resized, whatever the handler was. *)
Theorem handler_lifecycle k c now a evs waited :
  let h := new_handler k in
  IsAlive h = false ∧ Close h now = None ∧ (HandleWebSocket a evs waited h).1.2 = [] ∧
  (∀ h1 out r, Connect h c now = (h1, out, r) →
     (IsAlive h1 = true ↔ r = Ok ()) ∧ is_Some (Close h1 now) ∧
     SessionInfo.Status <$> Handler.sessionInfo h1 =
       Some (match r, offered c with
             | Ok _, _ => txt "active" | Err _, Ok _ => txt "error" | Err _, Err _ => txt "connecting" end)) ∧
  (∀ h1 h2 out, Close h1 now = Some (h2, out) →
     IsAlive h2 = false ∧ out = RecordEnd (default [] (ConnectionConfig.SessionID <$> Handler.config h1)) now :: [] ∧
     (HandleWebSocket a evs waited h2).1 = (h2, []) ∧ (∀ w l, Resize h2 w l = Err (txt "no active SSH session"))).
Proof.
  intros h. split_and!.
  - done.
  - done.
  - by destruct k.
  - intros h1 out r. unfold Connect. destruct k; cbn [Handler.type new_handler h].
    + destruct (offered c) as [l|e]; [destruct (Dial _ _ _) as [[]|e]|]; intros [= <- <- <-];
        (split; [split; intros Hx; first [reflexivity|discriminate Hx]|split; [eexists; reflexivity|reflexivity]]).
    + intros [= <- <- <-]. split; [split; intros Hx; reflexivity|split; [eexists; reflexivity|reflexivity]].
  - intros h1 h2 out. unfold Close. destruct (Handler.config h1) as [c1|]; [|done]. destruct (Handler.sessionInfo h1) as [i|]; [|done].
    intros [= <- <-]. split; [reflexivity|]. split; [reflexivity|]. split; [|intros w l; reflexivity].
    unfold HandleWebSocket. cbn [Handler.type Handler.config Handler.sessionInfo]. destruct (Handler.type h1); reflexivity.
Qed.
End life.

(** ** Whom it serves *)

Lemma factory_ssh : Factory.creator_of Factory.GetFactory (txt "ssh") = Some SSHHandler.
Proof. apply (lookup_insert_eq (M := gmap text)). Qed.

Lemma factory_other (protocol : ProtocolType) : protocol ≠ txt "ssh" → Factory.creator_of Factory.GetFactory protocol = None.
Proof.
  intros Hp. etrans; [apply (lookup_insert_ne (M := gmap text)); congruence|]. apply (lookup_empty (M := gmap text)).
Qed.

Lemma only_ssh (protocol : ProtocolType) : Factory.IsSupported Factory.GetFactory protocol = text_eqb protocol (txt "ssh").
Proof.
  unfold Factory.IsSupported. destruct (text_eqb protocol (txt "ssh")) eqn:E.
  - apply text_eqb_true in E as ->. rewrite factory_ssh. by apply bool_decide_eq_true_2.
  - apply text_neq in E. rewrite factory_other by exact E. apply bool_decide_eq_false_2. by intros [? ?].
Qed.

(** What is supported can be created, and the other way round. *)
Lemma created_supported f protocol : Factory.IsSupported f protocol = true ↔ ∃ h, Factory.Create f protocol = Ok h.
Proof.
  unfold Factory.IsSupported, Factory.Create. rewrite bool_decide_eq_true. destruct (Factory.creator_of f protocol) as [k|].
  - split; [|by eexists]. intros _. eexists. reflexivity.
  - split; [by intros [? ?]|by intros [? ?]].
Qed.

Section served.
Context `{SshLib} `{Storage} (err_text : db_error → text) (like : text → text → bool) (proxyID : text).

Lemma finish_connection sm conn sid ok cast now h c i out : Handler.config h = Some c → Handler.sessionInfo h = Some i →
  finish (AddSession sm sid conn) sid ok cast now h out =
    (_ ← (if ok then _ ← stored_call (AuditTrail.CloseSession now sid cast);
                     stored_call (UpdateLoginRecordStatus sid (txt "completed") (Some now))
          else stored_call (UpdateLoginRecordStatus sid (txt "failed") None));
     mret (delete sid sm, out ++ [RecordEnd (ConnectionConfig.SessionID c) now])).
Proof. intros Hc Hi. unfold finish, Close. by rewrite Hc, Hi, session_forgotten. Qed.

(** Nobody is dialled for, with nothing. *)
Lemma connect_run q protocol host sid now :
  let c := connection_config proxyID q protocol host sid in
  let i := connecting NewSSHHandler c now in
  Connect NewSSHHandler c now =
    match Dial (host_port (Host.IP host) (Host.Port host)) [] [] with
    | Ok _ => (started NewSSHHandler c (SessionInfo.set_status i (txt "active") None) true,
               [RecordStart (SessionInfo.set_status i (txt "active") None)], Ok ())
    | Err e => (started NewSSHHandler c (SessionInfo.set_status i (txt "error") None) false,
                [RecordError sid e], Err (txt "failed to connect to SSH server: " ++ e))
    end.
Proof. reflexivity. Qed.

(** The terminal leaves the handler with what [Connect] gave it. *)
Lemma served_config a evs waited h c i : Handler.type h = SSHHandler → Handler.config h = Some c → Handler.sessionInfo h = Some i →
  let '(h', _, r) := HandleWebSocket a evs waited h in
  Handler.config h' = Some c ∧ is_Some (Handler.sessionInfo h') ∧ is_Some r.
Proof.
  intros Ht Hc Hi. unfold HandleWebSocket. rewrite Ht, Hc, Hi.
  destruct (negb _); [split; [exact Hc|]; rewrite Hi; split; eexists; reflexivity|].
  destruct (wrapped "failed to create SSH session: " (new_session a)) as [u|e]; [|split; [exact Hc|]; rewrite Hi; split; eexists; reflexivity].
  destruct (all_ok _) as [u'|e]; [|split; [exact Hc|]; cbn [Handler.set_session Handler.sessionInfo]; rewrite Hi; split; eexists; reflexivity].
  destruct (pump_run _ _ _) as [p out]. split; [exact Hc|split; eexists; reflexivity].
Qed.

(** A connection of the agent's handler for any protocol is served to whoever
    asks: the login and the session are stored for the user the request names,
    with no token and no permission, and the host is dialled as nobody with no
    method.  When it is reached the login ends completed, even if the terminal
    never starts; otherwise failed, without a session; the recorder is closed
    last and once.  Another protocol than SSH is refused before the host is looked
    for. *)
Theorem connection_as_said q conn sm sid rid now ended cast a evs waited db f :
  let protocol := or_default (Query.protocol q) "ssh" in
  let run := HandleConnection err_text like proxyID Factory.GetFactory q (Some conn) sm sid rid now ended cast a evs waited db f in
  (protocol ≠ txt "ssh" → run = (Err (400, txt "Unsupported protocol: " ++ protocol), db, f)) ∧
  (protocol = txt "ssh" → ∀ host db1 f1, getHostInfo err_text like q db f = (Ok host, db1, f1) →
   let c := connection_config proxyID q (txt "ssh") host sid in
   let h := (Connect NewSSHHandler c now).1.1 in
   run = (_ ← stored_call (SaveLoginRecord (login_attempt sid (said q) host now));
          match Dial (host_port (Host.IP host) (Host.Port host)) [] [] with
          | Err e =>
              _ ← stored_call (UpdateLoginRecordStatus sid (txt "failed") None);
              mret (delete sid sm, [RecordError sid e; ToClient (txt "failed to connect to SSH server: " ++ e); RecordEnd sid ended], true)
          | Ok _ =>
              _ ← stored_call (SaveSession rid (session_record proxyID sid (said q) host now));
              _ ← stored_call (AuditTrail.CloseSession ended sid cast);
              _ ← stored_call (UpdateLoginRecordStatus sid (txt "completed") (Some ended));
              mret (delete sid sm, RecordStart (SessionInfo.set_status (connecting NewSSHHandler c now) (txt "active") None) ::
                                   (HandleWebSocket a evs waited h).1.2 ++ [RecordEnd sid ended], true)
          end) db1 f1).
Proof.
  intros protocol run. split.
  - intros Hp. subst run. unfold HandleConnection. fold protocol. rewrite only_ssh, text_eqb_false by exact Hp. reflexivity.
  - intros Hp host db1 f1 Hg c h. subst run. unfold HandleConnection. fold protocol.
    rewrite only_ssh, Hp, text_eqb_refl. cbn [negb]. rewrite bind_run, Hg.
    unfold Factory.Create. rewrite factory_ssh.
    rewrite !bind_run. destruct (stored_call (SaveLoginRecord _) db1 f1) as [[[u|e] db2] f2]; [|reflexivity].
    subst h. change (new_handler SSHHandler) with NewSSHHandler. unfold c at 2. rewrite (connect_run q (txt "ssh") host sid now). fold c.
    destruct (Dial _ _ _) as [d|e].
    + rewrite !bind_run. destruct (stored_call (SaveSession _ _) db2 f2) as [[[u3|e3] db3] f3]; [|reflexivity].
      pose proof (served_config a evs waited (started NewSSHHandler c
        (SessionInfo.set_status (connecting NewSSHHandler c now) (txt "active") None) true) c _ eq_refl eq_refl eq_refl) as Hs.
      cbn [fst snd]. destruct (HandleWebSocket _ _ _ _) as [[h' out'] o]. destruct Hs as (Hc & [i' Hi] & [r' ->]).
      rewrite bind_run, (finish_connection _ _ _ _ _ _ _ _ _ _ Hc Hi). cbn [fst snd]. rewrite !bind_run.
      destruct (stored_call (AuditTrail.CloseSession _ _ _) db3 f3) as [[[u4|e4] db4] f4]; [|reflexivity]. rewrite !bind_run.
      destruct (stored_call (UpdateLoginRecordStatus _ _ _) db4 f4) as [[[u5|e5] db5] f5]; reflexivity.
    + rewrite !bind_run.
      rewrite (finish_connection _ _ _ _ _ _ (started NewSSHHandler c
        (SessionInfo.set_status (connecting NewSSHHandler c now) (txt "error") None) false) c _ _ eq_refl eq_refl), !bind_run.
      destruct (stored_call (UpdateLoginRecordStatus _ _ _) db2 f2) as [[[u3|e3] db3] f3]; reflexivity.
Qed.
End served.

(** ** Concrete connections *)

Definition a_query (protocol ip : string) : Query.t :=
  {| Query.protocol := txt protocol; Query.hostId := []; Query.ip := txt ip; Query.hostname := []; Query.userId := txt "admin";
     Query.username := txt "root" |}.
Definition connected_to (protocol : string) (evs : list event) :=
  HandleConnection (H := easy_ssh) (H0 := webshell_storage) (λ _, txt "record not found") (λ _ _, false) (txt "p1") Factory.GetFactory
    (a_query protocol "10.0.0.5") (Some 7%nat) ∅ (txt "s1") (txt "r1") 10 20 [] ready evs (Ok ()) agent_db [].

(** Both goroutines load the counter before either stores: three bytes of five are
    counted. *)
Definition a_session : SessionInfo.t :=
  connecting NewSSHHandler (connection_config (txt "p1") (a_query "" "10.0.0.5") (txt "ssh") agent_host (txt "s1")) 0.

Example update_lost :
  let r := pump_run (txt "s1") (fresh_pump a_session)
    [FromServer false (txt "ab") true; FromServer true (txt "cde") true; LoadsCounter false; LoadsCounter true; StoresCounter false;
     StoresCounter true; RecordsOutput false; RecordsOutput true] in
  SessionInfo.BytesOut (info r.1) = 3 ∧ total_sent r.2 = 5.
Proof. vm_compute. split; reflexivity. Qed.

(** The part of a message the host got before the write failed is not recorded. *)
Example part_unrecorded :
  let r := pump_run (txt "s1") (fresh_pump a_session) [FromClient (txt "reboot") (Some 3%nat); CountsInput; RecordsInput] in
  to_host r.2 = txt "reb" ∧ input_recorded r.2 = [] ∧ SessionInfo.BytesIn (info r.1) = 0.
Proof. vm_compute. split_and!; reflexivity. Qed.

Definition a_dialogue : list event :=
  [FromClient (txt "ls") None; CountsInput; FromServer false (txt "abc") true; RecordsInput; LoadsCounter false;
   StoresCounter false; RecordsOutput false].


(** The brace of a pasted object is lost with its line; what follows is not. *)
Example brace_lost :
  to_host (pump_run (txt "s1") (fresh_pump a_session)
    [FromClient (txt "ls") None; CountsInput; RecordsInput; FromClient (txt "{a,b}") None; FromClient [13] None]).2 = txt "ls" ++ [13].
Proof. vm_compute. reflexivity. Qed.

Lemma connection_as_said_witness :
  (∃ db', connected_to "" [FromClient (txt "ls") None; CountsInput; RecordsInput; ServerEnds false; ServerEnds true] =
     (Ok (∅, RecordStart (SessionInfo.set_status (connecting NewSSHHandler
               (connection_config (txt "p1") (a_query "" "10.0.0.5") (txt "ssh") agent_host (txt "s1")) 10) (txt "active") None) ::
             [ToHost (txt "ls"); RecordData (txt "s1") ClientInput (txt "ls"); RecordEnd (txt "s1") 20], true), db', []) ∧
     SessionRecording.UserID <$> session_recordings (aux db') = [txt "admin"]) ∧
  connected_to "rdp" [] = (Err (400, txt "Unsupported protocol: rdp"), agent_db, []).
Proof.
  split.
  - eexists. split.
    + unfold connected_to.
      rewrite (proj2 (connection_as_said (H := easy_ssh) (H0 := webshell_storage) (λ _, txt "record not found") (λ _ _, false) (txt "p1")
        (a_query "" "10.0.0.5") 7%nat ∅ (txt "s1") (txt "r1") 10 20 [] ready
        [FromClient (txt "ls") None; CountsInput; RecordsInput; ServerEnds false; ServerEnds true] (Ok ()) agent_db []) eq_refl agent_host agent_db []).
      * vm_compute. reflexivity.
      * vm_compute. reflexivity.
    + vm_compute. reflexivity.
  - apply (proj1 (connection_as_said (H := easy_ssh) (H0 := webshell_storage) (λ _, txt "record not found") (λ _ _, false) (txt "p1")
      (a_query "rdp" "10.0.0.5") 7%nat ∅ (txt "s1") (txt "r1") 10 20 [] ready [] (Ok ()) agent_db [])). vm_compute. discriminate.
Defined.

Lemma handler_lifecycle_witness :
  let c := connection_config (txt "p1") (a_query "" "10.0.0.5") (txt "ssh") agent_host (txt "s1") in
  let h := (Connect (H := easy_ssh) NewSSHHandler c 10).1.1 in
  IsAlive h = true ∧ ∃ h2 out, Close h 20 = Some (h2, out) ∧ IsAlive h2 = false.
Proof.
  intros c h. destruct (handler_lifecycle (H := easy_ssh) SSHHandler c 10 ready [] (Ok ())) as (_ & _ & _ & Hc & _).
  destruct (Hc h _ _ eq_refl) as (Ha & _ & _). split; [apply Ha; reflexivity|].
  destruct (handler_lifecycle (H := easy_ssh) SSHHandler c 20 ready [] (Ok ())) as (_ & _ & _ & _ & He).
  eexists _, _. split; [reflexivity|]. exact (proj1 (He h _ _ eq_refl)).
Defined.
