(* ===== verification/HostKeys.v ===== *)
(** * The host key of the gateway

    [pkg/sshkey] and the part of [internal/sshserver/server/server.go] that finds
    the key the gateway shows to its clients: shared by all instances through a
    table, else from a file, else for this run only.  The instances start at the
    same time, each with its statements in between those of the others.  What is
    drawn at random, PEM and the SSH library are parameters; a key of the library
    is known by a text.  The case of a type or a name does not matter to the
    collation of the table; the gateway only ever asks for one. *)

From stdpp Require Import base list strings gmap relations.
From Stdlib Require Import ZArith Lia.
From S2P Require Import Prelude GoStrings Gorm Models Database Repositories TwoFactor AccessApi HostSession AgentTerminal.
Local Open Scope Z_scope.

(** A private key as text, and the key of the library that it parses to. *)
Class KeyLib := {
  pem_of : text → text;
  MarshalAuthorizedKey : text → text;
  FingerprintSHA256 : text → text;
  MarshalPrivateKey : text → result text text;
  NewPublicKey : text → result text text;
  ParseAuthorizedKey : text → result text text;
}.

(** ** Pairs for users *)

Module KeyPair.
Record t := { PrivateKey : text; PublicKey : text; Fingerprint : text }.
End KeyPair.

Section generator.
Context `{KeyLib}.

(** [draw] is [rsa.GenerateKey] of a size. *)
Definition key_bits (bitSize : Z) : Z := if bitSize <? 2048 then 2048 else bitSize.
Definition GenerateRSAKeyPair (draw : Z → result text text) (bitSize : Z) : result text KeyPair.t :=
  match draw (key_bits bitSize) with
  | Err e => Err (txt "failed to generate private key: " ++ e)
  | Ok key =>
      match MarshalPrivateKey key with
      | Err e => Err (txt "failed to marshal private key: " ++ e)
      | Ok pem =>
          match NewPublicKey key with
          | Err e => Err (txt "failed to generate public key: " ++ e)
          | Ok pub => Ok {| KeyPair.PrivateKey := pem; KeyPair.PublicKey := MarshalAuthorizedKey pub;
                            KeyPair.Fingerprint := FingerprintSHA256 pub |}
          end
      end
  end.
Definition ParsePublicKey (s : text) : result text text := map_err (λ e, txt "failed to parse public key: " ++ e) (ParseAuthorizedKey s).
Definition GetFingerprint (s : text) : result text text :=
  match ParsePublicKey s with Ok pub => Ok (FingerprintSHA256 pub) | Err e => Err e end.
End generator.

(** What of the configuration of the gateway says where its key is. *)
Module Config.
Record t := { UseSharedHostKey : bool; HasDB : bool; HostKeyPath : text }.
End Config.

(** ** The table *)

Definition named_key (keyType keyName : text) (k : SSHHostKey.t) : bool :=
  text_eqb (SSHHostKey.KeyType k) keyType && text_eqb (SSHHostKey.KeyName k) keyName.
Definition keys_named (keyType keyName : text) (db : Db) : list SSHHostKey.t :=
  keep (named_key keyType keyName) (host_keys (logs (aux db))).
Definition nil_db {A} : Eff text A := raise (txt "database connection is nil").

Section table.
Context `{SshLib} `{KeyLib} (err_text : db_error → text).

(** [drawn] is what [rsa.GenerateKey] answered. *)
Definition generateSSHKeyPair (drawn : result text text) (keyType : text) : result text (text * (text * text * text)) :=
  if negb (text_eqb keyType (txt "rsa")) then
    Err (txt "unsupported key type: " ++ keyType ++ txt " (currently only 'rsa' is supported)")
  else match drawn with
       | Err e => Err (txt "failed to generate RSA key: " ++ e)
       | Ok key =>
           match ParsePrivateKey (pem_of key) with
           | Err e => Err (txt "failed to parse private key: " ++ e)
           | Ok signer => Ok (signer, (pem_of key, MarshalAuthorizedKey signer, FingerprintSHA256 signer))
           end
       end.

(** The first access: the key that is there, or none. *)
Definition load_key (keyType keyName : text) : Eff text (option text) :=
  r ← caught (first (keys_named keyType keyName));
  match r with
  | Ok row => match ParsePrivateKey (SSHHostKey.PrivateKey row) with
              | Ok signer => mret (Some signer)
              | Err e => raise (txt "failed to parse shared host key from database: " ++ e)
              end
  | Err RecordNotFound => mret None
  | Err e => raise (txt "failed to query host key from database: " ++ err_text e)
  end.
(** The second: a new one.  Type and name are unique together. *)
Definition insert_key (row : SSHHostKey.t) : DB unit := execute (λ db,
  let rows := host_keys (logs (aux db)) in
  if existsb (named_key (SSHHostKey.KeyType row) (SSHHostKey.KeyName row)) rows then Err DuplicatedKey
  else Ok (set_host_keys db (rows ++ [SSHHostKey.set_id row (next_id SSHHostKey.ID rows)]))).
Definition make_key (drawn : result text text) (keyType keyName : text) : Eff text text :=
  match generateSSHKeyPair drawn keyType with
  | Err e => raise (txt "failed to generate SSH key pair: " ++ e)
  | Ok (signer, (pem, public, fingerprint)) =>
      _ ← or_fail (λ e, txt "failed to save host key to database: " ++ err_text e) (insert_key
            {| SSHHostKey.ID := 0; SSHHostKey.KeyType := keyType; SSHHostKey.KeyName := keyName; SSHHostKey.PrivateKey := pem;
               SSHHostKey.PublicKey := public; SSHHostKey.Fingerprint := fingerprint; SSHHostKey.KeySize := 2048 |});
      mret signer
  end.
Definition GetOrGenerateSharedHostKey (has_db : bool) (drawn : result text text) (keyType keyName : text) : Eff text text :=
  if negb has_db then nil_db
  else
    let keyType := or_default keyType "rsa" in
    let keyName := or_default keyName "default" in
    r ← load_key keyType keyName;
    match r with Some signer => mret signer | None => make_key drawn keyType keyName end.

Definition DeleteHostKey (has_db : bool) (keyType keyName : text) : Eff text unit :=
  if negb has_db then nil_db
  else
    n ← or_fail (λ e, txt "failed to delete host key: " ++ err_text e) (statement (λ db,
          Ok (set_host_keys db (keep (λ k, negb (named_key keyType keyName k)) (host_keys (logs (aux db)))),
              Z.of_nat (length (keys_named keyType keyName db)))));
    if n =? 0 then raise (txt "host key not found") else mret ().
Definition ListHostKeys (has_db : bool) : Eff text (list SSHHostKey.t) :=
  if negb has_db then nil_db
  else
    keys ← or_fail (λ e, txt "failed to list host keys: " ++ err_text e) (find (λ db, host_keys (logs (aux db))));
    mret (SSHHostKey.redacted <$> keys).
Definition GetHostKeyFingerprint (has_db : bool) (keyType keyName : text) : Eff text text :=
  if negb has_db then nil_db
  else
    k ← or_fail (λ e, txt "failed to get host key fingerprint: " ++ err_text e) (first (keys_named keyType keyName));
    mret (SSHHostKey.Fingerprint k).

(** ** The key of an instance *)

(** The files, and the errors of reading, of making the directory of a path and
    of writing. *)
Record Disk := { files : gmap text text; read_error : option text; mkdir_error : text → option text; write_error : option text }.
Definition with_file (d : Disk) (path content : text) : Disk :=
  {| files := <[path := content]> (files d); read_error := read_error d; mkdir_error := mkdir_error d; write_error := write_error d |}.

Definition loadOrGenerateHostKey (drawn : result text text) (path : text) (d : Disk) : Disk * result text text :=
  match files d !! path with
  | Some content =>
      (d, match read_error d with
          | Some e => Err (txt "failed to read host key file " ++ path ++ txt ": " ++ e)
          | None => map_err (λ e, txt "failed to parse private key from " ++ path ++ txt ": " ++ e) (ParsePrivateKey content)
          end)
  | None =>
      match drawn with
      | Err e => (d, Err (txt "failed to generate RSA key: " ++ e))
      | Ok key =>
          match mkdir_error d path, write_error d with
          | Some e, _ => (d, Err (txt "failed to create directory: " ++ e))
          | None, Some e => (d, Err (txt "failed to save host key to " ++ path ++ txt ": " ++ e))
          | None, None =>
              (with_file d path (pem_of key), map_err (λ e, txt "failed to parse private key: " ++ e) (ParsePrivateKey (pem_of key)))
          end
      end
  end.

Definition no_fallback (e : text) : text := txt "failed to get shared host key from database and no fallback path configured: " ++ e.
(** [NewSignerFromKey] is a third draw; the keys that are added, in order: one of
    the same kind takes the place of the one before. *)
Definition setupHostKey (c : Config.t) (drawn from_file temporary : result text text) (signer_of : text → result text text) (d : Disk)
    : Eff text (Disk * result text (list text)) :=
  let from_path d added :=
    if negb (is_empty (Config.HostKeyPath c)) then
      let '(d, r) := loadOrGenerateHostKey from_file (Config.HostKeyPath c) d in
      (d, match r with Ok s => Ok (added ++ [s]) | Err e => Err e end)
    else (d, match temporary with
             | Err e => Err (txt "failed to generate private key: " ++ e)
             | Ok key => match signer_of key with
                         | Ok s => Ok (added ++ [s])
                         | Err e => Err (txt "failed to create signer: " ++ e)
                         end
             end) in
  if Config.UseSharedHostKey c && Config.HasDB c then
    r ← caught (GetOrGenerateSharedHostKey true drawn (txt "rsa") (txt "default"));
    mret (match r with
          | Ok signer => (d, Ok [signer])
          | Err e =>
              if is_empty (Config.HostKeyPath c) then (d, Err (no_fallback e))
              else match loadOrGenerateHostKey from_file (Config.HostKeyPath c) d with
                   | (d, Err e) => (d, Err (no_fallback e))
                   | (d, Ok signer) => from_path d [signer]
                   end
          end)
  else mret (from_path d []).
End table.

(** ** Instances that start together *)

Inductive phase := Starting | Missed | Serving (signer : text) | Failed (e : text).
Record World := { shared : Db; phases : list phase }.

Section instances.
Context `{SshLib} `{KeyLib} (err_text : db_error → text) (keyType keyName : text) (drawn : nat → result text text)
  (may : faults → Prop).

(** An instance looks, with faults of the connection that [may] be; one that found nothing
    creates; or something else happens to other tables. *)
Definition looked (r : result text (option text)) : phase :=
  match r with Ok (Some s) => Serving s | Ok None => Missed | Err e => Failed e end.
Definition made (r : result text text) : phase := match r with Ok s => Serving s | Err e => Failed e end.
Inductive key_step : World → World → Prop :=
  | step_look w i f r db f' :
      phases w !! i = Some Starting → may f → load_key err_text keyType keyName (shared w) f = (r, db, f') →
      key_step w {| shared := db; phases := <[i := looked r]> (phases w) |}
  | step_make w i f r db f' :
      phases w !! i = Some Missed → may f → make_key err_text (drawn i) keyType keyName (shared w) f = (r, db, f') →
      key_step w {| shared := db; phases := <[i := made r]> (phases w) |}
  | step_other w db :
      host_keys (logs (aux db)) = host_keys (logs (aux (shared w))) →
      key_step w {| shared := db; phases := phases w |}.
End instances.

Section instance_facts.
Context `{SshLib} `{KeyLib} (err_text : db_error → text) (keyType keyName : text) (drawn : nat → result text text)
  (may : faults → Prop).
Local Notation step := (key_step err_text keyType keyName drawn may).
Local Notation named db := (keys_named keyType keyName db).

(** A row of the table is the key of a signer. *)
Definition key_of (row : SSHHostKey.t) (s : text) : Prop := ParsePrivateKey (SSHHostKey.PrivateKey row) = Ok s.

Lemma first_head {A} (q : Db → list A) db f x db' f' : first q db f = (Ok x, db', f') → x ∈ q db ∧ db' = db.
Proof.
  intros [Hq ->]%query_Ok. split; [|done]. destruct (q db) as [|y l]; [done|]. injection Hq as ->. left.
Qed.

Lemma load_key_run db f r db' f' : load_key err_text keyType keyName db f = (r, db', f') →
  db' = db ∧ (∀ s, r = Ok (Some s) → ∃ row, row ∈ named db ∧ key_of row s).
Proof.
  unfold load_key. rewrite bind_run, caught_run. intros Hl.
  pose proof (query_same (λ db, match named db with x :: _ => Ok x | [] => Err RecordNotFound end) db f) as Hs.
  unfold first in Hl. destruct (query _ db f) as [[q db1] f1] eqn:Eq. unfold after in Hs. cbn [fst snd] in Hs. subst db1.
  destruct q as [row|e].
  - apply query_Ok in Eq as [Hq _]. destruct (named db) as [|x l] eqn:En; [done|]. injection Hq as ->.
    destruct (ParsePrivateKey (SSHHostKey.PrivateKey row)) as [s|e] eqn:Ep; injection Hl as <- <- <-; (split; [done|]); intros s' Hs'.
    + injection Hs' as ->. exists row. split; [left|exact Ep].
    + discriminate Hs'.
  - destruct e; injection Hl as <- <- <-; (split; [done|]); intros s' Hs'; discriminate Hs'.
Qed.

Lemma make_key_run i db f r db' f' : make_key err_text (drawn i) keyType keyName db f = (r, db', f') →
  match r with
  | Ok s => named db = [] ∧ ∃ row, named db' = [row] ∧ key_of row s ∧ SSHHostKey.Fingerprint row = FingerprintSHA256 s
  | Err _ => db' = db
  end.
Proof.
  unfold make_key, generateSSHKeyPair. destruct (negb _); [by intros [= <- <- <-]|].
  destruct (drawn i) as [key|e]; [|by intros [= <- <- <-]].
  destruct (ParsePrivateKey (pem_of key)) as [s|e] eqn:Ep; [|by intros [= <- <- <-]].
  rewrite bind_run. unfold or_fail, insert_key, execute. cbn [SSHHostKey.KeyType SSHHostKey.KeyName].
  destruct f as [|[e|] f]; cbn [map_err]; [|by intros [= <- <- <-]|];
    (destruct (existsb _ _) eqn:Ee; cbn [map_err]; [by intros [= <- <- <-]|]; intros [= <- <- <-];
     split; [by apply keep_none, existsb_none|]; eexists; split;
       [apply (keep_last (named_key keyType keyName)); [by apply existsb_none|]; unfold named_key; cbn; by rewrite !text_eqb_refl
       |split; [exact Ep|reflexivity]]).
Qed.

(** At most one key of the name, and whoever serves has it. *)
Record agreed (w : World) : Prop := {
  one_key : (length (named (shared w)) <= 1)%nat;
  serves_it : ∀ i s, phases w !! i = Some (Serving s) → ∃ row, row ∈ named (shared w) ∧ key_of row s }.

Lemma step_agreed w w' : step w w' → agreed w → agreed w'.
Proof.
  intros Hst [H1 H2]. destruct Hst as [w i f r db f' Hi _ Hl|w i f r db f' Hi _ Hm|w db Hk].
  - apply load_key_run in Hl as [-> Hs]. split; [exact H1|]. cbn [phases shared]. intros j s [(-> & Hj & _)|(_ & Hj)]%list_lookup_insert_Some; [|by apply (H2 j)].
    apply Hs. destruct r as [[s'|]|e]; [|done..]. by injection Hj as ->.
  - apply make_key_run in Hm. destruct r as [s|e].
    + destruct Hm as (He & row & Hr & Hk & _). split; cbn [phases shared]; rewrite Hr; [cbn; lia|].
      intros j s' [(-> & Hj & _)|(_ & Hj)]%list_lookup_insert_Some.
      * injection Hj as ->. exists row. split; [left|exact Hk].
      * destruct (H2 j s' Hj) as (r' & Hr' & _). rewrite He in Hr'. by apply not_elem_of_nil in Hr'.
    + subst db. split; [exact H1|]. cbn [phases shared]. intros j s [(-> & Hj & _)|(_ & Hj)]%list_lookup_insert_Some; [done|by apply (H2 j)].
  - assert (named db = named (shared w)) as Hn by (unfold keys_named; by rewrite Hk).
    split; cbn [phases shared]; rewrite Hn; [exact H1|exact H2].
Qed.

Lemma reached_agreed w w' : rtc step w w' → agreed w → agreed w'.
Proof. intros Hst. induction Hst as [w|w w1 w2 H1 _ IH]; [done|]. intros Ha. by apply IH, (step_agreed w). Qed.

Lemma all_starting w i p : Forall (eq Starting) (phases w) → phases w !! i = Some p → p = Starting.
Proof. intros Hf Hi. symmetry. by apply (Forall_lookup_1 _ _ _ _ Hf Hi). Qed.

(** C18: However the instances that start together interleave their statements and
    whatever fails, those that serve from the table show the same key, which is
    the one the table has: two of them cannot both create one. *)
Theorem shared_key_agreed w w' :
  (length (named (shared w)) <= 1)%nat → Forall (eq Starting) (phases w) → rtc step w w' →
  ∀ i j s t, phases w' !! i = Some (Serving s) → phases w' !! j = Some (Serving t) →
  s = t ∧ ∃ row, named (shared w') = [row] ∧ key_of row s.
Proof.
  intros Ho Hf Hst i j s t Hi Hj.
  assert (agreed w) as Ha by (split; [exact Ho|intros k u Hk; by apply (all_starting w k _ Hf) in Hk]).
  apply (reached_agreed _ _ Hst) in Ha as [H1 H2].
  destruct (H2 i s Hi) as (r1 & Hr1 & Hk1), (H2 j t Hj) as (r2 & Hr2 & Hk2).
  destruct (named (shared w')) as [|row [|]]; [by apply not_elem_of_nil in Hr1| |cbn in H1; lia].
  apply list_elem_of_singleton in Hr1 as ->. apply list_elem_of_singleton in Hr2 as ->.
  unfold key_of in *. split; [congruence|]. by exists row.
Qed.
End instance_facts.

(** ** Somebody serves *)

Definition finished (p : phase) : Prop := p ≠ Starting ∧ p ≠ Missed.

Section settled.
Context `{SshLib} `{KeyLib} (err_text : db_error → text) (keyName : text) (drawn : nat → result text text).
Local Notation step := (key_step err_text (txt "rsa") keyName drawn (λ f, f = [])).
Local Notation named db := (keys_named (txt "rsa") keyName db).
Context (Hdrawn : ∀ i, ∃ key s, drawn i = Ok key ∧ ParsePrivateKey (pem_of key) = Ok s).

Lemma load_nothing db : named db = [] → load_key err_text (txt "rsa") keyName db [] = (Ok None, db, []).
Proof. intros Hn. unfold load_key. rewrite bind_run, caught_run. unfold first, query. by rewrite Hn. Qed.

Lemma make_first i db : named db = [] → ∃ s db', make_key err_text (drawn i) (txt "rsa") keyName db [] = (Ok s, db', []).
Proof.
  intros Hn. unfold make_key, generateSSHKeyPair. rewrite text_eqb_refl. cbn [negb].
  destruct (Hdrawn i) as (key & s & -> & ->). rewrite bind_run. unfold or_fail, insert_key, execute.
  cbn [SSHHostKey.KeyType SSHHostKey.KeyName].
  assert (existsb (named_key (txt "rsa") keyName) (host_keys (logs (aux db))) = false) as ->; [|by eexists _, _].
  apply existsb_none. intros x Hx. destruct (named_key _ _ x) eqn:Ex; [|done].
  assert (x ∈ named db) as Hin by (by apply elem_of_keep). rewrite Hn in Hin. by apply not_elem_of_nil in Hin.
Qed.

Definition hopeful (w : World) : Prop :=
  (named (shared w) = [] ∧ Forall (λ p, p = Starting ∨ p = Missed) (phases w)) ∨ ∃ i s, phases w !! i = Some (Serving s).

Lemma still_served w i p q db : phases w !! i = Some p → (∀ s, p ≠ Serving s) → (∃ j s, phases w !! j = Some (Serving s)) →
  hopeful {| shared := db; phases := <[i := q]> (phases w) |}.
Proof.
  intros Hi Hp (j & s & Hj). right. exists j, s. cbn [phases]. rewrite list_lookup_insert_ne; [done|].
  intros ->. rewrite Hi in Hj. injection Hj as ->. by apply (Hp s).
Qed.

Lemma step_hopeful w w' : step w w' → hopeful w → hopeful w'.
Proof.
  intros Hst Hh. destruct Hst as [w i f r db f' Hi -> Hl|w i f r db f' Hi -> Hm|w db Hk].
  - destruct Hh as [[Hn Hf]|Hs]; [|by eapply still_served].
    rewrite load_nothing in Hl by done. injection Hl as <- <- <-. left. split; [done|]. cbn [phases looked].
    apply Forall_insert; [done|by right].
  - destruct Hh as [[Hn Hf]|Hs]; [|by eapply still_served].
    destruct (make_first i _ Hn) as (s & db' & Hm'). rewrite Hm' in Hm. injection Hm as <- <- <-. right. exists i, s.
    cbn [phases made]. apply list_lookup_insert_eq. by eapply lookup_lt_Some.
  - destruct Hh as [[Hn Hf]|Hs]; [left; split; [|done]|by right]. cbn [shared]. unfold keys_named in *. by rewrite Hk.
Qed.

(** One instance runs to its end. *)
Lemma instance_ends w i p : phases w !! i = Some p →
  ∃ w' q, rtc step w w' ∧ phases w' = <[i := q]> (phases w) ∧ finished q.
Proof.
  intros Hi. assert (∀ w, phases w !! i = Some Missed → ∃ w' q, rtc step w w' ∧ phases w' = <[i := q]> (phases w) ∧ finished q) as Hmiss.
  { intros v Hv. destruct (make_key err_text (drawn i) (txt "rsa") keyName (shared v) []) as [[r db] f'] eqn:Em.
    eexists _, (made r). split; [by apply rtc_once, (step_make _ _ _ _ _ v i [] r db f')|]. split; [done|]. by destruct r. }
  destruct p as [| |s|e].
  - destruct (load_key err_text (txt "rsa") keyName (shared w) []) as [[r db] f'] eqn:El.
    pose proof (step_look err_text (txt "rsa") keyName drawn (λ f, f = []) w i [] r db f' Hi eq_refl El) as Hs.
    assert (i < length (phases w))%nat as Hlt by (by eapply lookup_lt_Some).
    destruct r as [[s|]|e]; [by eexists _, _; split; [by apply rtc_once|]| |by eexists _, _; split; [by apply rtc_once|]].
    destruct (Hmiss {| shared := db; phases := <[i := Missed]> (phases w) |} (list_lookup_insert_eq (phases w) i Missed Hlt)) as (w' & q & Hw & Hp & Hq).
    exists w', q. split; [by eapply rtc_l|]. split; [|done]. rewrite Hp. cbn [phases]. apply list_insert_insert_eq.
  - by apply Hmiss.
  - exists w, (Serving s). split; [done|]. split; [by rewrite list_insert_id|done].
  - exists w, (Failed e). split; [done|]. split; [by rewrite list_insert_id|done].
Qed.

Lemma first_end n w : (n <= length (phases w))%nat →
  ∃ w', rtc step w w' ∧ length (phases w') = length (phases w) ∧ ∀ i, (i < n)%nat → ∀ p, phases w' !! i = Some p → finished p.
Proof.
  induction n as [|n IH]; intros Hn; [exists w; split_and!; [done|done|lia]|].
  destruct IH as (w1 & H1 & Hl1 & Hf1); [lia|].
  destruct (lookup_lt_is_Some_2 (phases w1) n) as [p Hp]; [lia|]. destruct (instance_ends w1 n p Hp) as (w2 & q & H2 & Hq & Hf).
  exists w2. split; [by etrans|]. split; [by rewrite Hq, length_insert|]. intros i Hi p' Hp'. rewrite Hq in Hp'.
  apply list_lookup_insert_Some in Hp' as [(-> & <- & _)|(Hne & Hi')]; [exact Hf|]. apply (Hf1 i); [lia|exact Hi'].
Qed.

(** When the table has no key and the statements do not fail, every start of
    the instances can be completed, and however it was, when it is complete some
    instance serves: not all of them can find the table empty and then lose. *)
Theorem some_instance_serves w w' :
  named (shared w) = [] → Forall (eq Starting) (phases w) → phases w ≠ [] → rtc step w w' →
  (∃ w'', rtc step w' w'' ∧ Forall finished (phases w'')) ∧
  (Forall finished (phases w') → ∃ i s, phases w' !! i = Some (Serving s)).
Proof.
  intros Hn Hf Hne Hst. split.
  - destruct (first_end (length (phases w')) w') as (w2 & H2 & Hl & Hall); [done|]. exists w2. split; [exact H2|].
    apply Forall_lookup. intros i p Hp. apply (Hall i); [|exact Hp]. rewrite <- Hl. by eapply lookup_lt_Some.
  - assert (hopeful w' ∧ length (phases w') = length (phases w)) as [[[_ Hs]|Hs] Hl]; [| |by intros _].
    { clear Hne. assert (hopeful w) as Hw by (left; split; [done|]; eapply Forall_impl; [exact Hf|]; intros p <-; by left).
      clear Hn Hf. induction Hst as [w|w w1 w2 H1 _ IH]; [done|]. destruct IH as [Hh Hl]; [by eapply step_hopeful|].
      split; [done|]. rewrite Hl. destruct H1; cbn [phases]; by rewrite ?length_insert. }
    intros Hfin. destruct (phases w') as [|p l]; [by destruct (phases w)|]. apply Forall_cons in Hs as [Hp _].
    apply Forall_cons in Hfin as [[] _]. by destruct Hp.
Qed.
End settled.

(** ** One instance after another *)

Section restarted.
Context `{SshLib} `{KeyLib} (err_text : db_error → text).

Lemma load_there keyType keyName db row s : keys_named keyType keyName db = [row] → key_of row s →
  load_key err_text keyType keyName db [] = (Ok (Some s), db, []).
Proof. intros Hn Hk. unfold load_key. rewrite bind_run, caught_run. unfold first, query. rewrite Hn. cbv beta iota.
  unfold key_of in Hk. rewrite Hk. reflexivity. Qed.

(** An instance that is started later shows the key of the one before, whatever
    it would have drawn, and so does one that restarts; the table keeps at most
    one key of the name. *)
Theorem later_start_same_key keyType keyName drawn drawn' db f s db' f' :
  let named db := keys_named (or_default keyType "rsa") (or_default keyName "default") db in
  (length (named db) <= 1)%nat →
  GetOrGenerateSharedHostKey err_text true drawn keyType keyName db f = (Ok s, db', f') →
  (length (named db') <= 1)%nat ∧
  GetOrGenerateSharedHostKey err_text true drawn' keyType keyName db' [] = (Ok s, db', []).
Proof.
  intros named Ho Hg.
  assert (∃ row, named db' = [row] ∧ key_of row s) as (row & Hr & Hk).
  { unfold GetOrGenerateSharedHostKey in Hg. cbn [negb] in Hg. rewrite bind_run in Hg.
    destruct (load_key _ _ _ db f) as [[[r|e] db1] f1] eqn:El; [|done]. apply load_key_run in El as [-> Hs].
    destruct r as [t|].
    - injection Hg as <- <- <-. destruct (Hs t eq_refl) as (row & Hr & Hk). exists row. split; [|exact Hk].
      fold (named db) in Hr. destruct (named db) as [|x [|]]; [by apply not_elem_of_nil in Hr| |cbn in Ho; lia].
      by apply list_elem_of_singleton in Hr as ->.
    - apply (make_key_run err_text _ _ (λ _, drawn) 0%nat) in Hg as (_ & row & Hr & Hk & _). by exists row. }
  split; [rewrite Hr; cbn; lia|].
  unfold GetOrGenerateSharedHostKey. cbn [negb]. rewrite bind_run, (load_there _ _ _ _ _ Hr Hk). reflexivity.
Qed.

(** What is listed holds no private key. *)
Lemma listed_redacted db keys db' f : ListHostKeys err_text true db f = (Ok keys, db', []) →
  Forall (λ k, SSHHostKey.PrivateKey k = txt "[REDACTED]") keys.
Proof.
  unfold ListHostKeys. cbn [negb]. rewrite bind_run. destruct (or_fail _ _ db f) as [[[l|e] db1] f1]; [|done].
  intros [= <- <- _]. apply Forall_fmap, Forall_forall. intros k _. reflexivity.
Qed.
End restarted.

(** ** Two instances *)

Definition plain_keys : KeyLib := {|
  pem_of := λ k, txt "PEM " ++ k; MarshalAuthorizedKey := λ s, txt "ssh-rsa " ++ s; FingerprintSHA256 := λ s, txt "SHA256:" ++ s;
  MarshalPrivateKey := Ok; NewPublicKey := Ok; ParseAuthorizedKey := Ok |}.
#[local] Existing Instance easy_ssh.
#[local] Existing Instance plain_keys.
Definition draw (i : nat) : result text text := Ok (if (i =? 0)%nat then txt "a" else txt "b").
Definition two_starting : World := {| shared := empty_db; phases := [Starting; Starting] |}.
Definition quiet (f : faults) : Prop := f = [].
Local Notation quiet_step := (key_step (λ _, txt "duplicate") (txt "rsa") (txt "default") draw quiet).
Definition keyed (i : nat) (w : World) : World :=
  match make_key (λ _, txt "duplicate") (draw i) (txt "rsa") (txt "default") (shared w) [] with
  | (r, db, _) => {| shared := db; phases := <[i := made r]> (phases w) |}
  end.

(** Both look before either creates: the second loses, and has no key. *)
Definition both_missed : World := {| shared := empty_db; phases := [Missed; Missed] |}.
Lemma both_miss : rtc quiet_step two_starting both_missed.
Proof.
  eapply rtc_l; [|apply rtc_once].
  - exact (step_look (λ _, txt "duplicate") (txt "rsa") (txt "default") draw quiet two_starting 0 [] (Ok None) empty_db []
             eq_refl eq_refl eq_refl).
  - exact (step_look (λ _, txt "duplicate") (txt "rsa") (txt "default") draw quiet
             {| shared := empty_db; phases := [Missed; Starting] |} 1 [] (Ok None) empty_db [] eq_refl eq_refl eq_refl).
Qed.
Lemma makes i w : phases w !! i = Some Missed → quiet_step w (keyed i w).
Proof.
  intros Hi. unfold keyed. destruct (make_key _ _ _ _ _ []) as [[r db] f] eqn:E.
  by apply (step_make _ _ _ draw quiet w i [] r db f).
Qed.
Example race_lost : ∃ w, rtc quiet_step two_starting w ∧
  phases w = [Serving (txt "PEM a"); Failed (txt "failed to save host key to database: duplicate")].
Proof.
  exists (keyed 1 (keyed 0 both_missed)). split; [|vm_compute; reflexivity].
  etrans; [exact both_miss|]. eapply rtc_l; [|apply rtc_once]; apply makes; vm_compute; reflexivity.
Qed.

Lemma shared_key_agreed_witness : ∃ w s, rtc quiet_step two_starting w ∧ phases w !! 0%nat = Some (Serving s) ∧
  ∃ row, keys_named (txt "rsa") (txt "default") (shared w) = [row] ∧ key_of row s.
Proof.
  assert (rtc quiet_step two_starting (keyed 0 both_missed)) as Hr.
  { etrans; [exact both_miss|]. apply rtc_once, makes. reflexivity. }
  exists (keyed 0 both_missed), (txt "PEM a"). split; [exact Hr|]. split; [vm_compute; reflexivity|].
  refine (proj2 (shared_key_agreed (λ _, txt "duplicate") (txt "rsa") (txt "default") draw quiet two_starting _ _ _ Hr
    0%nat 0%nat (txt "PEM a") (txt "PEM a") _ _)).
  - cbn. lia.
  - repeat constructor.
  - vm_compute. reflexivity.
  - vm_compute. reflexivity.
Defined.

Lemma some_instance_serves_witness : rtc quiet_step two_starting both_missed ∧
  ∃ w, rtc quiet_step both_missed w ∧ Forall finished (phases w).
Proof.
  split; [exact both_miss|].
  refine (proj1 (some_instance_serves (λ _, txt "duplicate") (txt "default") draw _ two_starting both_missed _ _ _ both_miss)).
  - intros i. exists (if (i =? 0)%nat then txt "a" else txt "b"), (txt "PEM " ++ (if (i =? 0)%nat then txt "a" else txt "b")).
    split; [reflexivity|]. destruct (i =? 0)%nat; vm_compute; reflexivity.
  - reflexivity.
  - repeat constructor.
  - discriminate.
Defined.

Lemma later_start_same_key_witness :
  let run draw db := GetOrGenerateSharedHostKey (λ _, []) true draw [] [] db [] in
  let db := after (run (Ok (txt "a")) empty_db) in
  run (Ok (txt "b")) db = (Ok (txt "PEM a"), db, []).
Proof.
  intros run db.
  refine (proj2 (later_start_same_key (λ _, []) [] [] (Ok (txt "a")) (Ok (txt "b")) empty_db [] (txt "PEM a") db [] _ _)).
  - cbn. lia.
  - vm_compute. reflexivity.
Defined.

(** With no path to fall back on the gateway of the one that lost does not start. *)
Example gateway_without_key : let c := {| Config.UseSharedHostKey := true; Config.HasDB := true; Config.HostKeyPath := [] |} in
  let disk := {| files := ∅; read_error := None; mkdir_error := λ _, None; write_error := None |} in
  (setupHostKey (λ _, txt "duplicate") c (Ok (txt "b")) (Ok (txt "c")) (Ok (txt "d")) Ok disk empty_db [None; Some DuplicatedKey]).1.1 =
  Ok (disk, Err (no_fallback (txt "failed to save host key to database: duplicate"))).
Proof. vm_compute. reflexivity. Qed.
