(* ===== verification/SshWire.v ===== *)
(** * The wire format of the custom SSH server

    The encoders and readers of [internal/sshserver/protocol]: big-endian
    integers, strings with a length, booleans, and messages framed by their
    length.  A type that can be sent is an instance of [Wire]; its law is that
    what is encoded is read back.  [bytes.Reader.Read] may read less than it is
    asked for without an error, and the rest of the buffer stays zero; at the end
    it fails even when asked for nothing. *)

From stdpp Require Import base list.
From Stdlib Require Import ZArith Lia.
From S2P Require Import Prelude GoStrings.
Local Open Scope Z_scope.

(** ** Integers *)

Definition is_byte (b : Z) : Prop := 0 <= b < 256.
Definition u32 (v : Z) : Z := v mod 2 ^ 32.

(** [binary.BigEndian.PutUint32] and [Uint32]. *)
Definition PutUint32 (v : Z) : bytes :=
  [Z.land (Z.shiftr v 24) 255; Z.land (Z.shiftr v 16) 255; Z.land (Z.shiftr v 8) 255; Z.land v 255].
Definition Uint32 (b : bytes) : Z :=
  match b with
  | [b0; b1; b2; b3] => Z.lor b3 (Z.lor (Z.shiftl b2 8) (Z.lor (Z.shiftl b1 16) (Z.shiftl b0 24)))
  | _ => 0
  end.

Lemma land_255 v : Z.land v 255 = v mod 256.
Proof. change 255 with (Z.ones 8). by rewrite Z.land_ones by lia. Qed.

Lemma PutUint32_bytes v : Forall is_byte (PutUint32 v).
Proof.
  unfold PutUint32, is_byte. rewrite !land_255.
  repeat constructor; apply Z.mod_pos_bound; lia.
Qed.

(** Disjoint bits are added. *)
Lemma lor_shift a b n : 0 <= n → 0 <= a < 2 ^ n → Z.lor a (Z.shiftl b n) = a + b * 2 ^ n.
Proof.
  intros Hn Ha. rewrite <- Z.shiftl_mul_pow2 by lia. pose proof (Z.add_lor_land a (Z.shiftl b n)) as E.
  assert (Z.land a (Z.shiftl b n) = 0) as El; [|lia].
  apply Z.bits_inj'. intros i Hi. rewrite Z.land_spec, Z.shiftl_spec, Z.bits_0 by lia.
  destruct (Z.lt_ge_cases i n).
  - by rewrite (Z.testbit_neg_r _ (i - n)), andb_false_r by lia.
  - rewrite <- (Z.mod_small a (2 ^ n)), Z.mod_pow2_bits_high by lia. done.
Qed.

Lemma Uint32_sum b0 b1 b2 b3 : Forall is_byte [b0; b1; b2; b3] →
  Uint32 [b0; b1; b2; b3] = b3 + 2 ^ 8 * b2 + 2 ^ 16 * b1 + 2 ^ 24 * b0.
Proof.
  unfold is_byte. rewrite !Forall_cons. intros (H0 & H1 & H2 & H3 & _). unfold Uint32.
  rewrite Z.lor_assoc, Z.lor_assoc.
  rewrite (lor_shift b3 b2 8), (lor_shift _ b1 16), (lor_shift _ b0 24) by lia. lia.
Qed.

(** An integer is read back, modulo its width; so are four bytes. *)
Lemma Uint32_Put v : Uint32 (PutUint32 v) = u32 v.
Proof.
  pose proof (PutUint32_bytes v) as Hb. unfold PutUint32 in *. rewrite Uint32_sum by done.
  rewrite !land_255, !Z.shiftr_div_pow2 by lia. unfold u32.
  change (2 ^ 24) with 16777216. change (2 ^ 16) with 65536. change (2 ^ 8) with 256. change (2 ^ 32) with 4294967296.
  pose proof (Z.div_mod v 256). pose proof (Z.div_mod (v / 256) 256). pose proof (Z.div_mod (v / 65536) 256).
  Z.to_euclidean_division_equations. lia.
Qed.

(** ** Reading *)

(** [reader.Read] into a buffer of [n] bytes. *)
Definition Read (n : Z) (r : bytes) : option (bytes * bytes) :=
  if is_empty r then None
  else Some (take (Z.to_nat n) r ++ replicate (Z.to_nat n - length r) 0, drop (Z.to_nat n) r).

Lemma Read_app n s r : n = Z.of_nat (length s) → s ≠ [] ∨ r ≠ [] → Read n (s ++ r) = Some (s, r).
Proof.
  intros -> Hne. unfold Read. destruct (is_empty (s ++ r)) eqn:E.
  - destruct s, r; by destruct Hne.
  - rewrite Nat2Z.id, take_app_length, drop_app_length, length_app.
    replace (length s - (length s + length r))%nat with 0%nat by lia. by rewrite app_nil_r.
Qed.

(** What can be sent: the encoding, the reader, the values that fit, and
    whether the last thing read is at least a byte. *)
Class Wire (A : Type) := {
  enc : A → bytes;
  dec : bytes → option (A * bytes);
  fits : A → Prop;
  ends : A → bool
}.

Class WireLaws A `{Wire A} : Prop := {
  enc_some (a : A) : enc a ≠ [];
  dec_enc (a : A) r : fits a → ends a = true ∨ r ≠ [] → dec (enc a ++ r) = Some (a, r);
  dec_suffix r (a : A) r' : dec r = Some (a, r') → r' `suffix_of` r
}.

Lemma Read_suffix n r b r' : Read n r = Some (b, r') → r' `suffix_of` r.
Proof. unfold Read. destruct (is_empty r); [done|]. intros [= _ <-]. apply suffix_drop. Qed.

Definition encodeUint32 (value : Z) : bytes := PutUint32 value.
Definition readUint32 (r : bytes) : option (Z * bytes) :=
  match Read 4 r with Some (b, r) => Some (Uint32 b, r) | None => None end.
Definition encodeString (str : bytes) : bytes := PutUint32 (u32 (Z.of_nat (length str))) ++ str.
Definition readString (r : bytes) : option (bytes * bytes) :=
  match readUint32 r with Some (l, r) => Read l r | None => None end.
Definition encodeBool (value : bool) : bytes := if value then [1] else [0].
Definition readBool (r : bytes) : option (bool * bytes) :=
  match Read 1 r with Some (b, r) => Some (negb (bool_decide (b = [0])), r) | None => None end.

#[export] Instance wire_u32 : Wire Z :=
  {| enc := encodeUint32;
     dec := readUint32;
     fits v := 0 <= v < 2 ^ 32;
     ends _ := true |}.

#[export] Instance wire_string : Wire bytes :=
  {| enc := encodeString;
     dec := readString;
     fits s := Z.of_nat (length s) < 2 ^ 32;
     ends s := negb (is_empty s) |}.

#[export] Instance wire_bool : Wire bool :=
  {| enc := encodeBool;
     dec := readBool;
     fits _ := True;
     ends _ := true |}.

(** One after the other. *)
#[export] Instance wire_pair {A B} `{Wire A} `{Wire B} : Wire (A * B) :=
  {| enc p := enc p.1 ++ enc p.2;
     dec r := match dec r with
              | Some (a, r) => match dec r with Some (b, r) => Some ((a, b), r) | None => None end
              | None => None
              end;
     fits p := fits p.1 ∧ fits p.2;
     ends p := ends p.2 |}.

#[export] Instance wire_u32_laws : WireLaws Z.
Proof.
  split; cbn [enc dec fits ends wire_u32]; unfold encodeUint32, readUint32; [done| |].
  - intros v r Hv _. rewrite (Read_app 4 (PutUint32 v)) by (done || by left).
    rewrite Uint32_Put. unfold u32. by rewrite Z.mod_small.
  - intros r a r'. destruct (Read 4 r) as [[b s]|] eqn:E; [|done]. intros [= _ <-]. by eapply Read_suffix.
Qed.

#[export] Instance wire_string_laws : WireLaws bytes.
Proof.
  split; cbn [enc dec fits ends wire_string]; unfold encodeString, readString; [done| |].
  2:{ intros r a r'. unfold readUint32. destruct (Read 4 r) as [[b s]|] eqn:E; [|done].
      intros Ha%Read_suffix. etrans; [exact Ha|]. by eapply Read_suffix. }
  intros s r Hs Hne. unfold u32. rewrite Z.mod_small, <- app_assoc by lia.
  assert (dec (enc (Z.of_nat (length s)) ++ (s ++ r)) = Some (Z.of_nat (length s), s ++ r)) as E
    by (apply dec_enc; [cbn; lia|by left]).
  cbn [enc dec wire_u32] in E. unfold encodeUint32 in E. rewrite E. apply Read_app; [done|].
  destruct Hne as [Hs'|]; [left|by right]. by destruct s.
Qed.

#[export] Instance wire_bool_laws : WireLaws bool.
Proof.
  split; [by intros []| |]; cbn [enc dec wire_bool]; unfold encodeBool, readBool.
  - intros b r _ _. by destruct b.
  - intros r b r'. destruct (Read 1 r) as [[x s]|] eqn:E; [|done]. intros [= _ <-]. by eapply Read_suffix.
Qed.

#[export] Instance wire_pair_laws {A B} `{WireLaws A} `{WireLaws B} : WireLaws (A * B).
Proof.
  split; cbn [enc dec fits ends wire_pair].
  - intros [a b]. cbn [fst snd]. intros E%app_eq_nil. by destruct (enc_some a), E.
  - intros [a b] r [Ha Hb] Hne. cbn [fst snd] in *. rewrite <- app_assoc, dec_enc; [|done|].
    + by rewrite dec_enc.
    + right. intros E%app_eq_nil. by destruct (enc_some b), E.
  - intros r [a b] r'. destruct (dec r) as [[a' s]|] eqn:Ea; [|done].
    destruct (dec s) as [[b' s']|] eqn:Eb; [|done]. intros [= _ _ <-].
    transitivity s; [exact (dec_suffix s b' s' Eb)|exact (dec_suffix r a' s Ea)].
Qed.

(** A string that claims more than there is comes padded with zeros. *)
Lemma short_string l s : 0 <= l < 2 ^ 32 → s ≠ [] → Z.of_nat (length s) <= l →
  dec (A := bytes) (PutUint32 l ++ s) = Some (s ++ replicate (Z.to_nat l - length s) 0, []).
Proof.
  intros Hl Hs Hlen. cbn [dec wire_string].
  assert (dec (enc l ++ s) = Some (l, s)) as E by (apply dec_enc; [done|by left]).
  cbn [enc dec wire_u32] in E. unfold encodeUint32 in E. unfold readString. rewrite E. unfold Read.
  destruct (is_empty s) eqn:Es; [by destruct s|]. by rewrite take_ge, drop_ge by lia.
Qed.

(** ** Messages *)

Record Message := { Type_ : Z; Payload : bytes }.

(** [io.ReadFull]: everything asked for, or an error at the end of the stream. *)
Definition ReadFull (n : Z) (s : bytes) : option (bytes * bytes) :=
  if Z.of_nat (length s) <? n then None else Some (take (Z.to_nat n) s, drop (Z.to_nat n) s).

Definition max_message : Z := 32768.

(** The message, or an error with what is left of the stream. *)
Inductive receipt := Received (m : Message) (rest : bytes) | Broken (rest : bytes).

Definition readSSHMessage (s : bytes) : receipt :=
  match ReadFull 4 s with
  | None => Broken []
  | Some (lengthBytes, s) =>
      let length := Uint32 lengthBytes in
      if max_message <? length then Broken s
      else
        match ReadFull 1 s with
        | None => Broken []
        | Some (typeByte, s) =>
            (* an unsigned subtraction *)
            match ReadFull (u32 (length - 1)) s with
            | None => Broken []
            | Some (payload, s) => Received {| Type_ := default 0 (head typeByte); Payload := payload |} s
            end
        end
  end.

Definition frame (msgType : Z) (payload : bytes) : bytes :=
  PutUint32 (u32 (1 + Z.of_nat (length payload))) ++ [msgType] ++ payload.

(** A message that is small enough is received as it was sent. *)
Lemma ReadFull_app s r : ReadFull (Z.of_nat (length s)) (s ++ r) = Some (s, r).
Proof.
  unfold ReadFull. rewrite length_app, Nat2Z.id, take_app_length, drop_app_length.
  by rewrite (proj2 (Z.ltb_ge _ _)) by lia.
Qed.

Lemma frame_received t p r : 1 + Z.of_nat (length p) <= max_message →
  readSSHMessage (frame t p ++ r) = Received {| Type_ := t; Payload := p |} r.
Proof.
  unfold max_message. intros Hp. unfold frame. rewrite <- !app_assoc. unfold readSSHMessage.
  assert (ReadFull 4 (PutUint32 (u32 (1 + Z.of_nat (length p))) ++ [t] ++ p ++ r) =
          Some (PutUint32 (u32 (1 + Z.of_nat (length p))), [t] ++ p ++ r)) as -> by apply (ReadFull_app (PutUint32 _)).
  rewrite Uint32_Put. unfold u32 at 1 2. rewrite !Z.mod_mod, Z.mod_small by lia.
  unfold max_message. rewrite (proj2 (Z.ltb_ge _ _)) by lia.
  assert (ReadFull 1 ([t] ++ p ++ r) = Some ([t], p ++ r)) as -> by apply (ReadFull_app [t]).
  unfold u32. rewrite !(Z.mod_small (1 + _)) by lia.
  replace (1 + Z.of_nat (length p) - 1) with (Z.of_nat (length p)) by lia.
  rewrite Z.mod_small by lia. by rewrite ReadFull_app.
Qed.

(** What is received is bounded, and takes at least five bytes, all from the
    front of the stream. *)
Lemma received_split s m r : readSSHMessage s = Received m r →
  ∃ l t, s = l ++ [t] ++ Payload m ++ r ∧ length l = 4%nat ∧ Type_ m = t ∧
    (Uint32 l <= max_message) ∧ Z.of_nat (length (Payload m)) = u32 (Uint32 l - 1).
Proof.
  unfold readSSHMessage, ReadFull.
  destruct (Z.ltb_spec (Z.of_nat (length s)) 4) as [|H4]; [done|].
  set (l := take (Z.to_nat 4) s). set (s1 := drop (Z.to_nat 4) s).
  assert (s = l ++ s1) as Hs by (symmetry; apply take_drop).
  assert (length l = 4%nat) as Hl by (unfold l; rewrite length_take; lia).
  destruct (Z.ltb_spec max_message (Uint32 l)) as [|Hmax]; [done|].
  destruct (Z.ltb_spec (Z.of_nat (length s1)) 1) as [|H1]; [done|].
  destruct s1 as [|t s2]; [simpl in H1; lia|]. change (Z.to_nat 1) with 1%nat. cbn [take drop].
  rewrite !take_0, !drop_0 || idtac.
  destruct (Z.ltb_spec (Z.of_nat (length s2)) (u32 (Uint32 l - 1))) as [|Hp]; [done|].
  intros [= <- <-]. exists l, t. cbn [Type_ Payload head default from_option].
  split_and!; [|done..|].
  - rewrite Hs at 1. cbn [app]. by rewrite take_drop.
  - rewrite length_take. unfold u32 in *. assert (0 <= (Uint32 l - 1) mod 2 ^ 32) by (apply Z.mod_pos_bound; lia). lia.
Qed.

Lemma received_shorter s m r : readSSHMessage s = Received m r → (length r < length s)%nat.
Proof.
  intros (l & t & -> & Hl & _)%received_split. rewrite !length_app. simpl. lia.
Qed.

Lemma broken_shorter s r : readSSHMessage s = Broken r → (length r ≤ length s)%nat.
Proof.
  unfold readSSHMessage, ReadFull. repeat (case_match; simplify_eq; try (simpl; lia)).
  all: intros [= <-]; rewrite ?length_drop; simpl; lia.
Qed.

Fixpoint receive_all (n : nat) (s : bytes) : option (list Message * bytes) :=
  match n with
  | O => Some ([], s)
  | S n =>
      match readSSHMessage s with
      | Received m s => match receive_all n s with Some (l, s) => Some (m :: l, s) | None => None end
      | Broken _ => None
      end
  end.
Definition small (m : Message) : Prop := 1 + Z.of_nat (length (Payload m)) <= max_message.

(** C21: What one side sends the other receives: a stream of messages of at most
    32 KiB is taken apart into the same messages in the same order, whatever
    follows them. *)
Theorem messages_roundtrip l r : Forall small l →
  receive_all (length l) (mjoin ((λ m, frame (Type_ m) (Payload m)) <$> l) ++ r) = Some (l, r).
Proof.
  induction 1 as [|m l Hm _ IH]; [done|]. set (F := λ m, frame (Type_ m) (Payload m)) in *.
  change (mjoin (F <$> m :: l)) with (F m ++ mjoin (F <$> l)). cbn [length receive_all].
  rewrite <- app_assoc. unfold F at 1. rewrite frame_received by done. rewrite IH. by destruct m.
Qed.

(** No message is longer than 32767 bytes, except that a length of zero wraps
    around: such a message takes the next four gigabytes of the stream, and the
    session waits for them. *)
Theorem zero_length_swallows s : Z.of_nat (length s) < 2 ^ 32 →
  readSSHMessage (PutUint32 0 ++ s) = Broken [] ∧
  ∀ l s' m r, 0 < l < 2 ^ 32 → readSSHMessage (PutUint32 l ++ s') = Received m r →
    Z.of_nat (length (Payload m)) <= 32767.
Proof.
  intros Hs. split.
  - unfold readSSHMessage. rewrite (ReadFull_app (PutUint32 0)). cbn beta iota.
    change (Uint32 (PutUint32 0)) with 0. change (max_message <? 0) with false. cbn beta iota.
    unfold ReadFull. destruct (_ <? 1) eqn:E; [done|]. destruct s as [|t s]; [done|].
    change (Z.to_nat 1) with 1%nat. cbn [take drop]. change (u32 (0 - 1)) with (2 ^ 32 - 1).
    rewrite drop_0. cbn [length] in Hs. by rewrite (proj2 (Z.ltb_lt _ _)) by lia.
  - intros l s' m r Hl (h & t & E & Hh & _ & Hmax & Hp)%received_split.
    assert (h = PutUint32 l) as ->.
    { apply (f_equal (take 4)) in E. rewrite (take_app_length' (PutUint32 l)) in E by done.
      by rewrite (take_app_length' h) in E by done. }
    rewrite Uint32_Put in *. unfold u32 in *. unfold max_message in Hmax. rewrite (Z.mod_small l) in * by lia.
    rewrite Z.mod_small in Hp by lia. lia.
Qed.

Lemma messages_roundtrip_witness :
  receive_all 2 (mjoin ((λ m, frame (Type_ m) (Payload m)) <$>
    [{| Type_ := 98; Payload := [1; 2] |}; {| Type_ := 97; Payload := [] |}]) ++ [7]) =
  Some ([{| Type_ := 98; Payload := [1; 2] |}; {| Type_ := 97; Payload := [] |}], [7]).
Proof.
  apply (messages_roundtrip [{| Type_ := 98; Payload := [1; 2] |}; {| Type_ := 97; Payload := [] |}] [7]).
  repeat constructor; vm_compute; discriminate.
Defined.

Lemma zero_length_swallows_witness : readSSHMessage (PutUint32 0 ++ [97]) = Broken [].
Proof. apply (zero_length_swallows [97]). vm_compute. reflexivity. Defined.
