(* ===== verification/CustomSsh.v ===== *)
(** * The custom SSH server: connecting, signing in, and the table of sessions

    [internal/sshserver/protocol/custom_ssh.go] but for the message loop, which is
    in SshChannels.v; no other file of the program starts this server.  A
    conversation is a computation on the session, the stream of the client and
    what has been written; its error is [None], since every caller drops the text
    of an error.  A session is cancelled together with its connection, so the end
    of the stream stands for the cancellation. *)

From stdpp Require Import base list strings gmap relations.
From Stdlib Require Import ZArith Lia.
From S2P Require Import Prelude GoStrings Gorm Models Database Repositories Permissions Accounts Auth SshWire.
Local Open Scope Z_scope.

(** ** The session and its connection *)

Module Session.
Record t := {
  username : text; userID : text; versionNegotiated : bool; authenticated : bool; encrypted : bool;
  (* of [SessionInfo] *)
  info_UserID : text; info_Username : text; Status : text; TerminalCols : Z; TerminalRows : Z }.
Definition set_username (s : t) (u : text) : t :=
  {| username := u; userID := userID s; versionNegotiated := versionNegotiated s;
     authenticated := authenticated s; encrypted := encrypted s; info_UserID := info_UserID s;
     info_Username := info_Username s; Status := Status s; TerminalCols := TerminalCols s;
     TerminalRows := TerminalRows s |}.
Definition set_user (s : t) (id : text) : t :=
  {| username := username s; userID := id; versionNegotiated := versionNegotiated s;
     authenticated := authenticated s; encrypted := encrypted s; info_UserID := id;
     info_Username := username s; Status := txt "authenticated"; TerminalCols := TerminalCols s;
     TerminalRows := TerminalRows s |}.
Definition set_flags (s : t) (v a e : bool) : t :=
  {| username := username s; userID := userID s; versionNegotiated := v; authenticated := a; encrypted := e;
     info_UserID := info_UserID s; info_Username := info_Username s; Status := Status s;
     TerminalCols := TerminalCols s; TerminalRows := TerminalRows s |}.
Definition set_size (s : t) (cols rows : Z) : t :=
  {| username := username s; userID := userID s; versionNegotiated := versionNegotiated s;
     authenticated := authenticated s; encrypted := encrypted s; info_UserID := info_UserID s;
     info_Username := info_Username s; Status := Status s; TerminalCols := cols; TerminalRows := rows |}.
End Session.

Definition new_session : Session.t :=
  {| Session.username := []; Session.userID := []; Session.versionNegotiated := false;
     Session.authenticated := false; Session.encrypted := false; Session.info_UserID := [];
     Session.info_Username := []; Session.Status := txt "connecting"; Session.TerminalCols := 0;
     Session.TerminalRows := 0 |}.

(** Writes fail when the connection is [broken]. *)
Record Conn := { session : Session.t; input : bytes; output : bytes; broken : bool }.
Definition with_session (s : Session.t) (c : Conn) : Conn :=
  {| session := s; input := input c; output := output c; broken := broken c |}.
Definition with_input (i : bytes) (c : Conn) : Conn :=
  {| session := session c; input := i; output := output c; broken := broken c |}.
Definition with_output (o : bytes) (c : Conn) : Conn :=
  {| session := session c; input := input c; output := o; broken := broken c |}.

(** ** Conversations *)

Definition Conv (A : Type) : Type := Conn → Eff text (option A * Conn).
#[global] Instance conv_ret : MRet Conv := λ A a c, mret (Some a, c).
#[global] Instance conv_bind : MBind Conv := λ A B k m c,
  r ← m c; match r.1 with Some a => k a r.2 | None => mret (None, r.2) end.
Definition fails {A} : Conv A := λ c, mret (None, c).
Definition ask {A} (m : Eff text A) : Conv A := λ c, a ← m; mret (Some a, c).
Definition the_session : Conv Session.t := λ c, mret (Some (session c), c).
Definition update (g : Session.t → Session.t) : Conv unit := λ c, mret (Some (), with_session (g (session c)) c).
Definition on_conn {A} (k : Conn → Conv A) : Conv A := λ c, k c c.
(** The error is an answer. *)
Definition tried {A} (m : Conv A) : Conv (option A) := λ c, r ← m c; mret (Some r.1, r.2).

(** [Conn.Write], [sendSSHMessage] and [readSSHMessage]. *)
Definition put (b : bytes) (c : Conn) : option unit * Conn :=
  if broken c then (None, c) else (Some (), with_output (output c ++ b) c).
Definition send_message (msgType : Z) (payload : bytes) : Conn → option unit * Conn := put (frame msgType payload).
Definition next_message (c : Conn) : option Message * Conn :=
  match readSSHMessage (input c) with
  | Received m rest => (Some m, with_input rest c)
  | Broken rest => (None, with_input rest c)
  end.

Definition write (b : bytes) : Conv unit := λ c, mret (put b c).
Definition sendSSHMessage (msgType : Z) (payload : bytes) : Conv unit := write (frame msgType payload).
Definition receive : Conv Message := λ c, mret (next_message c).

Definition SSH_MSG_USERAUTH_REQUEST : Z := 50.
Definition SSH_MSG_USERAUTH_FAILURE : Z := 51.
Definition SSH_MSG_USERAUTH_SUCCESS : Z := 52.
Definition SSH_MSG_USERAUTH_BANNER : Z := 53.
Definition SSH_MSG_USERAUTH_INFO_REQUEST : Z := 60.
Definition SSH_MSG_USERAUTH_INFO_RESPONSE : Z := 61.

(** A literal, as its bytes. *)
Definition lit (s : string) : bytes := utf8_encode (txt s).

Record Config := { MaxSessions : Z; SessionTimeout : Z; IdleTimeout : Z; BannerMessage : text;
                   ServerVersion : text; CustomDomain : text }.

Section server.
Context `{Crypto} (config : Config).

Definition sendUserAuthBanner (banner : text) : Conv unit :=
  sendSSHMessage SSH_MSG_USERAUTH_BANNER (enc (utf8_encode banner, lit "en")).
Definition sendUserAuthFailure : Conv unit :=
  sendSSHMessage SSH_MSG_USERAUTH_FAILURE (enc (lit "password,keyboard-interactive", false)).
Definition sendUserAuthSuccess : Conv unit := sendSSHMessage SSH_MSG_USERAUTH_SUCCESS [].
Definition sendUserAuthInfoRequest (name instruction : text) : Conv unit :=
  sendSSHMessage SSH_MSG_USERAUTH_INFO_REQUEST
    (enc (utf8_encode name, (utf8_encode instruction, (@nil Z, (1, (@nil Z, false)))))).

(** ** Signing in *)

Definition getSystemDomain : Eff text text :=
  if negb (is_empty (CustomDomain config)) then mret (CustomDomain config)
  else
    domain ← attempt (GetSetting (txt "domain"));
    mret (match domain with
          | Some domain => if is_empty domain then txt "jump.xx.com" else domain
          | None => txt "jump.xx.com"
          end).

Definition prompt (domain : text) (what : string) : Conv text :=
  s ← the_session;
  mret (Session.username s ++ txt "@" ++ domain ++ txt what).

(** One answer, read as a number of answers and a string. *)
Definition one_answer : Conv text :=
  msg ← receive;
  if negb (Type_ msg =? SSH_MSG_USERAUTH_INFO_RESPONSE) then fails
  else match dec (A := Z * bytes) (Payload msg) with
       | Some ((numResponses, s), _) => if numResponses =? 1 then mret (utf8_decode s) else fails
       | None => fails
       end.

(** The domain is looked up when it is needed and not known yet. *)
Definition check_mfa (known : option text) (user : User.t) (now : Z) : Conv unit :=
  if User.TwoFactorEnabled user then
    domain ← match known with Some domain => mret domain | None => ask getSystemDomain end;
    mfaPrompt ← prompt domain "'s MFA code: ";
    _ ← sendUserAuthInfoRequest (txt "MFA Verification") mfaPrompt;
    mfaCode ← one_answer;
    if validateTwoFactorCode user mfaCode [] now then mret () else fails
  else mret ().

(** The user of the session, whose password this is. *)
Definition known_user : Conv User.t :=
  s ← the_session;
  user ← ask (attempt (FindUserByUsername (Session.username s)));
  match user with Some user => mret user | None => fails end.
Definition check_password (user : User.t) (password : text) : Conv unit :=
  match ValidatePassword user password with Ok _ => mret () | Err _ => fails end.

(** The session is the user's. *)
Definition signs (user : User.t) : Conv unit := update (λ s, Session.set_user s (User.ID user)).

Definition handlePasswordAuth (has_service : bool) (reader : bytes) (now : Z) : Conv unit :=
  match dec (A := bytes) reader with
  | None => fails
  | Some (password, _) =>
      if negb has_service then fails
      else
        user ← known_user;
        _ ← check_password user (utf8_decode password);
        _ ← check_mfa None user now;
        signs user
  end.

Definition handleKeyboardInteractiveAuth (has_service : bool) (now : Z) : Conv unit :=
  if negb has_service then fails
  else
    user ← known_user;
    domain ← ask getSystemDomain;
    passwordPrompt ← prompt domain "'s password: ";
    _ ← sendUserAuthInfoRequest (txt "Password Authentication") passwordPrompt;
    password ← one_answer;
    _ ← check_password user password;
    _ ← check_mfa (Some domain) user now;
    signs user.

Definition handleUserAuthRequest (has_service : bool) (msg : Message) (now : Z) : Conv unit :=
  match dec (A := bytes * (bytes * bytes)) (Payload msg) with
  | None => fails
  | Some ((username, (_, method)), reader) =>
      _ ← update (λ s, Session.set_username s (utf8_decode username));
      let method := utf8_decode method in
      if text_eqb method (txt "password") then handlePasswordAuth has_service reader now
      else if text_eqb method (txt "keyboard-interactive") then handleKeyboardInteractiveAuth has_service now
      else fails
  end.

(** The loop over the requests; the fuel is explained below. *)
Fixpoint auth_loop (fuel : nat) (has_service : bool) (now : Z) : Conv unit :=
  match fuel with
  | O => fails
  | S fuel =>
      msg ← receive;
      if Type_ msg =? SSH_MSG_USERAUTH_REQUEST then
        ok ← tried (handleUserAuthRequest has_service msg now);
        match ok with
        | Some _ =>
            _ ← tried sendUserAuthSuccess;
            update (λ s, Session.set_flags s (Session.versionNegotiated s) true (Session.encrypted s))
        | None => _ ← tried sendUserAuthFailure; auth_loop fuel has_service now
        end
      else auth_loop fuel has_service now
  end.

Definition handleAuthentication (has_service : bool) (now : Z) : Conv unit :=
  _ ← (if is_empty (BannerMessage config) then mret ()
       else let banner := BannerMessage config in
            sendUserAuthBanner (if has_suffix banner [10] then banner else banner ++ [10]));
  on_conn (λ c, auth_loop (S (length (input c))) has_service now).

(** ** Connecting *)

(** [bufio.NewReader(conn).ReadString('\n')]: the reader of the line takes all
    that has arrived, and what follows the line is lost with it.  [arrived] is how
    much each fill of its buffer takes. *)
Fixpoint read_line (arrived : list nat) (line stream : bytes) : option (bytes * bytes) :=
  match arrived with
  | [] => None
  | n :: arrived =>
      let chunk := take n stream in
      if decide (10 ∈ chunk)
      then Some (line ++ take_while (λ b, negb (b =? 10)) chunk ++ [10], drop (length chunk) stream)
      else read_line arrived (line ++ chunk) (drop (length chunk) stream)
  end.

Definition version_line (arrived : list nat) : Conv bytes := λ c,
  match read_line arrived [] (input c) with
  | Some (line, rest) => mret (Some line, with_input rest c)
  | None => mret (None, with_input [] c)
  end.

Definition handleVersionNegotiation (arrived : list nat) : Conv unit :=
  _ ← write (lit "SSH-2.0-" ++ utf8_encode (ServerVersion config) ++ [13; 10]);
  line ← version_line arrived;
  if has_prefix (trim_space (utf8_decode line)) (txt "SSH-2.0")
  then update (λ s, Session.set_flags s true (Session.authenticated s) (Session.encrypted s))
  else fails.

(** Both directions are given the same random bytes, which nothing uses. *)
Definition handleKeyExchange (random : option bytes) : Conv unit :=
  match random with
  | None => fails
  | Some _ => update (λ s, Session.set_flags s (Session.versionNegotiated s) (Session.authenticated s) true)
  end.

Definition handleSSHHandshake (arrived : list nat) (random : option bytes) (has_service : bool) (now : Z)
    : Conv unit :=
  _ ← handleVersionNegotiation arrived;
  _ ← handleKeyExchange random;
  handleAuthentication has_service now.
End server.

(** ** Reasoning about a conversation

    [talks m Q c db f]: the conversation ends, changes no table, and its error or
    result and the connection satisfy [Q]. *)
Definition talks {A} (m : Conv A) (Q : option A → Conn → Prop) (c : Conn) (db : Db) (f : faults) : Prop :=
  ∃ o c' f', m c db f = (Ok (o, c'), db, f') ∧ Q o c'.

(** A computation that reads the tables and does not fail. *)
Definition answers {E A} (m : Eff E A) (P : A → Prop) (db : Db) (f : faults) : Prop :=
  ∃ a f', m db f = (Ok a, db, f') ∧ P a.

Section talks.
Context {A : Type}.
Implicit Types (Q : option A → Conn → Prop).

Lemma talks_ret (a : A) Q c db f : Q (Some a) c → talks (mret a) Q c db f.
Proof. intros HQ. by exists (Some a), c, f. Qed.

Lemma talks_fails Q c db f : Q None c → talks fails Q c db f.
Proof. intros HQ. by exists None, c, f. Qed.

Lemma talks_mono (m : Conv A) Q Q' c db f :
  talks m Q c db f → (∀ o c', Q o c' → Q' o c') → talks m Q' c db f.
Proof. intros (o & c' & f' & E & HQ) H. exists o, c', f'. auto. Qed.

Lemma talks_bind {B} (m : Conv B) (k : B → Conv A) Q c db f :
  talks m (λ o c', match o with Some b => ∀ f, talks (k b) Q c' db f | None => Q None c' end) c db f →
  talks (m ≫= k) Q c db f.
Proof.
  intros (o & c1 & f1 & E & H). unfold talks. unfold mbind at 1, conv_bind. setoid_rewrite bind_run.
  rewrite E. cbn [fst snd]. destruct o as [b|]; [by apply H|]. by exists None, c1, f1.
Qed.

Lemma talks_ask (m : Eff text A) (P : A → Prop) Q c db f :
  answers m P db f → (∀ a, P a → Q (Some a) c) → talks (ask m) Q c db f.
Proof.
  intros (a & f' & E & Ha) HQ. exists (Some a), c, f'. split; [|by apply HQ].
  unfold ask. by rewrite bind_run, E.
Qed.
End talks.

Lemma talks_tried {A} (m : Conv A) Q c db f :
  talks m (λ o c', Q (Some o) c') c db f → talks (tried m) Q c db f.
Proof.
  intros (o & c' & f' & E & HQ). exists (Some o), c', f'. split; [|done]. unfold tried. by rewrite bind_run, E.
Qed.

Lemma talks_update g Q c db f : Q (Some ()) (with_session (g (session c)) c) → talks (update g) Q c db f.
Proof. intros HQ. by exists (Some ()), (with_session (g (session c)) c), f. Qed.

Lemma talks_session Q c db f : Q (Some (session c)) c → talks the_session Q c db f.
Proof. intros HQ. by exists (Some (session c)), c, f. Qed.

Lemma talks_write b Q c db f :
  (∀ o, Q (Some ()) (with_output o c)) → Q None c → talks (write b) Q c db f.
Proof.
  intros HS HN. unfold talks, write, put. destruct (broken c).
  - by exists None, c, f.
  - by eexists (Some ()), _, f.
Qed.

Lemma talks_receive Q c db f :
  (∀ m rest, readSSHMessage (input c) = Received m rest → Q (Some m) (with_input rest c)) →
  (∀ rest, readSSHMessage (input c) = Broken rest → Q None (with_input rest c)) →
  talks receive Q c db f.
Proof.
  intros HS HN. unfold talks, receive, next_message. destruct (readSSHMessage (input c)) as [m rest|rest] eqn:E.
  - exists (Some m), (with_input rest c), f. auto.
  - exists None, (with_input rest c), f. auto.
Qed.

(** A read of the tables, whatever fails. *)
Lemma answers_attempt {E F A} (m : Eff E A) (P : A → Prop) db f : reads m →
  (∀ f a db' f', m db f = (Ok a, db', f') → P a) →
  answers (attempt (F := F) m) (λ o, ∀ a, o = Some a → P a) db f.
Proof.
  intros Hm HP. unfold answers, attempt. destruct (m db f) as [[r db'] f'] eqn:Em.
  pose proof (reads_run _ _ _ _ _ _ Hm Em) as ->. destruct r as [a|e].
  - exists (Some a), f'. split; [done|]. intros ? [= <-]. eauto.
  - by exists None, f'.
Qed.

(** ** What a client has said *)

Definition within (a s : bytes) : Prop := ∃ x y, s = x ++ a ++ y.

(** A string read somewhere in the stream. *)
Definition heard (stream : bytes) (t : text) : Prop :=
  ∃ reader s rest, within reader stream ∧ dec (A := bytes) reader = Some (s, rest) ∧ t = utf8_decode s.

Lemma within_suffix a b s : a `suffix_of` b → within b s → within a s.
Proof.
  intros [k ->] (x & y & ->). exists (x ++ k), y. by rewrite <- !app_assoc.
Qed.

Lemma suffix_within a s : a `suffix_of` s → within a s.
Proof. intros [k ->]. exists k, []. by rewrite app_nil_r. Qed.

Lemma payload_within s m r : readSSHMessage s = Received m r → within (Payload m) s ∧ r `suffix_of` s.
Proof.
  intros (l & t & -> & _)%received_split. split.
  - exists (l ++ [t]), r. by rewrite <- !app_assoc.
  - exists (l ++ [t] ++ Payload m). by rewrite <- !app_assoc.
Qed.

Lemma broken_suffix s r : readSSHMessage s = Broken r → r `suffix_of` s.
Proof.
  unfold readSSHMessage, ReadFull. repeat (case_match; simplify_eq; try (intros [= <-]; apply suffix_nil)).
  intros [= <-]. apply suffix_drop.
Qed.

(** A pair is read one after the other. *)
Lemma dec_pair {A B} `{Wire A} `{Wire B} r (a : A) (b : B) r' : dec (A := A * B) r = Some ((a, b), r') →
  ∃ r1, dec r = Some (a, r1) ∧ dec r1 = Some (b, r').
Proof.
  cbn [dec wire_pair]. destruct (dec r) as [[a1 r1]|]; [|done].
  destruct (dec r1) as [[b1 r2]|] eqn:E; [|done]. intros [= <- <- <-]. eauto.
Qed.

Section sign_in.
Context `{Crypto} (config : Config).

(** What a step of signing in leaves alone. *)
Record follows (c c' : Conn) : Prop := {
  rest_of : input c' `suffix_of` input c;
  same_session : session c' = session c
}.
#[local] Instance follows_preorder : PreOrder follows.
Proof.
  split; [by intros c|]. intros c1 c2 c3 [H1 H2] [H3 H4]. split; [by transitivity (input c2)|congruence].
Qed.

Lemma heard_before (a b : bytes) t : a `suffix_of` b → heard a t → heard b t.
Proof.
  intros Hs (r & s & rest & Hw & Hd & ->). exists r, s, rest. split; [|done].
  destruct Hs as [k ->], Hw as (x & y & ->). exists (k ++ x), y. by rewrite <- !app_assoc.
Qed.

Lemma talks_domain Q c db f : (∀ p, Q (Some p) c) → talks (ask (getSystemDomain config)) Q c db f.
Proof.
  intros HQ. apply (talks_ask _ (λ _, True)); [|auto].
  unfold getSystemDomain. destruct (negb _); [by exists (CustomDomain config), f|].
  assert (reads (GetSetting (txt "domain"))) as Hr by (unfold GetSetting; preserves_tac).
  destruct (answers_attempt (F := text) (GetSetting (txt "domain")) (λ _, True) db f Hr) as (o & f' & E & _); [done|].
  exists (match o with Some domain => if is_empty domain then txt "jump.xx.com" else domain
                     | None => txt "jump.xx.com" end), f'. split; [|done].
  rewrite bind_run, E. done.
Qed.

Lemma talks_prompt domain what Q c db f : (∀ p, Q (Some p) c) → talks (prompt domain what) Q c db f.
Proof. intros HQ. unfold prompt. apply talks_bind, talks_session. intros f2. by apply talks_ret. Qed.

Lemma talks_one_answer c db f :
  talks one_answer (λ o c', follows c c' ∧ ∀ t, o = Some t → heard (input c) t) c db f.
Proof.
  unfold one_answer. apply talks_bind, talks_receive.
  - intros m rest E f1. destruct (payload_within _ _ _ E) as [Hw Hs].
    assert (follows c (with_input rest c)) as Hf by by split.
    destruct (negb _); [by apply talks_fails|].
    destruct (dec (Payload m)) as [[[n s] r]|] eqn:Ed; [|by apply talks_fails].
    destruct (n =? 1); [|by apply talks_fails]. apply talks_ret. split; [done|]. intros t [= <-].
    apply dec_pair in Ed as (r1 & E1 & E2). exists r1, s, r. split; [|done].
    eapply within_suffix; [exact (dec_suffix _ _ _ E1)|done].
  - intros rest E. split; [split; [by apply broken_suffix|done]|done].
Qed.

Definition accepts_code (user : User.t) (stream : bytes) (now : Z) : Prop :=
  User.TwoFactorEnabled user = true → ∃ code, heard stream code ∧ totp_Validate code (User.TwoFactorSecret user) now = true.

Lemma talks_check_mfa known user now c db f :
  talks (check_mfa config known user now) (λ o c', follows c c' ∧ (o = Some () → accepts_code user (input c) now)) c db f.
Proof.
  unfold check_mfa, accepts_code. destruct (User.TwoFactorEnabled user); [|by apply talks_ret].
  apply talks_bind.
  assert (∀ domain f, talks (mfaPrompt ← prompt domain "'s MFA code: ";
    _ ← sendUserAuthInfoRequest (txt "MFA Verification") mfaPrompt; mfaCode ← one_answer;
    if validateTwoFactorCode user mfaCode [] now then mret () else fails)
    (λ o c', follows c c' ∧ (o = Some () → true = true → ∃ code, heard (input c) code ∧
       totp_Validate code (User.TwoFactorSecret user) now = true)) c db f) as Hask;
    [|destruct known; [apply talks_ret|apply talks_domain]; apply Hask].
  clear f. intros domain f. apply talks_bind, talks_prompt. intros p f1. apply talks_bind, talks_write; [|done].
  intros o f2. apply talks_bind. eapply talks_mono; [apply talks_one_answer|].
  intros [code|] c' [[Hs Hsame] Hh]; [|split; [by split|done] ]. intros f3.
  destruct (validateTwoFactorCode user code [] now) eqn:E; [|apply talks_fails; split; [by split|done] ].
  apply talks_ret. split; [by split|]. intros _ _. exists code. split; [by apply Hh|].
  unfold validateTwoFactorCode in E. cbn [is_empty negb andb] in E. rewrite orb_false_r in E.
  by apply andb_true_iff in E as [_ ?].
Qed.

Lemma talks_known_user Q c db f :
  (∀ user, user ∈ users db → User.Username user = Session.username (session c) → Q (Some user) c) → Q None c →
  talks known_user Q c db f.
Proof.
  intros HS HN. unfold known_user. apply talks_bind, talks_session. intros f1.
  apply talks_bind.
  assert (reads (FindUserByUsername (Session.username (session c)))) as Hr
    by (unfold FindUserByUsername, first_of; preserves_tac).
  eapply (talks_ask _ (λ o, ∀ u, o = Some u → u ∈ users db ∧ User.Username u = Session.username (session c))).
  - apply answers_attempt; [done|]. intros f2 u db' f3 Hu. apply find_user_Ok in Hu as (Hu & Hn & _).
    split; [done|by apply text_eqb_true].
  - intros [user|] Hu f2; [|by apply talks_fails]. apply talks_ret. destruct (Hu user eq_refl). auto.
Qed.

Lemma talks_check_password user pw Q c db f :
  (User.Status user = active → CompareHashAndPassword (User.Password user) pw = true → Q (Some ()) c) → Q None c →
  talks (check_password user pw) Q c db f.
Proof.
  intros HS HN. unfold check_password, ValidatePassword. destruct (text_eqb (User.Status user) active) eqn:E;
    cbn [negb]; [|by apply talks_fails]. apply text_eqb_true in E.
  destruct (CompareHashAndPassword _ _); cbn [negb]; [|by apply talks_fails]. apply talks_ret. auto.
Qed.

(** Who the session belongs to, by what the client has said in [stream]. *)
Definition signed_in (stream : bytes) (now : Z) (db : Db) (s : Session.t) : Prop :=
  ∃ user, user ∈ users db ∧ User.Username user = Session.username s ∧ User.ID user = Session.userID s ∧
    User.Status user = active ∧
    (∃ pw, heard stream pw ∧ CompareHashAndPassword (User.Password user) pw = true) ∧
    accepts_code user stream now.

Lemma accepts_before user a b now : a `suffix_of` b → accepts_code user a now → accepts_code user b now.
Proof. intros Hs Ha Ht. destruct (Ha Ht) as (code & Hc & Hv). exists code. split; [by eapply heard_before|done]. Qed.

(** A request is answered from the stream, and accepted only for a user. *)
Definition request_post (stream : bytes) (now : Z) (db : Db) (c : Conn) (o : option unit) (c' : Conn) : Prop :=
  input c' `suffix_of` input c ∧ (o = Some () → signed_in stream now db (session c')).

(** The last steps are shared by both methods. *)
Lemma talks_finish known stream now user pw c db f : user ∈ users db → User.Username user = Session.username (session c) →
  heard stream pw → input c `suffix_of` stream →
  talks (_ ← check_password user pw; _ ← check_mfa config known user now; signs user)
    (request_post stream now db c) c db f.
Proof.
  intros Hu Hn Hpw Hs. apply talks_bind, talks_check_password; [|by split].
  intros Hst Hp f1. apply talks_bind. eapply talks_mono; [apply talks_check_mfa|].
  intros [[]|] c' [[Hi Hsame] Ha]; [|by split]. intros f2. unfold signs. apply talks_update. split; [done|].
  intros _. exists user. cbn [session with_session Session.set_user Session.username Session.userID].
  split_and!; [done|by rewrite Hsame|done|done|eauto|]. eapply accepts_before; [exact Hs|by apply Ha].
Qed.

Lemma talks_password stream has_service reader now c db f :
  within reader stream → input c `suffix_of` stream →
  talks (handlePasswordAuth config has_service reader now) (request_post stream now db c) c db f.
Proof.
  intros Hw Hs. unfold handlePasswordAuth. destruct (dec reader) as [[pw rest]|] eqn:Ed; [|by apply talks_fails].
  destruct has_service; [|by apply talks_fails]. apply talks_bind, talks_known_user; [|by split].
  intros user Hu Hn f1. apply talks_finish; [done..| |done]. by exists reader, pw, rest.
Qed.

Lemma talks_keyboard stream has_service now c db f : input c `suffix_of` stream →
  talks (handleKeyboardInteractiveAuth config has_service now) (request_post stream now db c) c db f.
Proof.
  intros Hs. unfold handleKeyboardInteractiveAuth. destruct has_service; [|by apply talks_fails].
  apply talks_bind, talks_known_user; [|by split]. intros user Hu Hn f1. apply talks_bind, talks_domain.
  intros domain f2. apply talks_bind, talks_prompt. intros p f5. apply talks_bind, talks_write; [|by split]. intros o f3.
  apply talks_bind. eapply talks_mono; [apply talks_one_answer|].
  intros [pw|] c' [[Hi Hsame] Hh]; [|by split]. intros f4. cbn [input with_output session] in *.
  eapply talks_mono; [apply (talks_finish _ stream now user pw); [done|by rewrite Hsame|..]|].
  - eapply heard_before; [exact Hs|by apply Hh].
  - by transitivity (input c).
  - intros r c2 [Hi2 Hr]. split; [by transitivity (input c')|done].
Qed.

Lemma talks_request stream has_service msg now c db f :
  within (Payload msg) stream → input c `suffix_of` stream →
  talks (handleUserAuthRequest config has_service msg now) (request_post stream now db c) c db f.
Proof.
  intros Hw Hs. unfold handleUserAuthRequest.
  destruct (dec (Payload msg)) as [[[u [sv m]] reader]|] eqn:Ed; [|by apply talks_fails].
  apply talks_bind, talks_update. intros f1. cbv zeta.
  assert (within reader stream) as Hr by (eapply within_suffix; [exact (dec_suffix _ _ _ Ed)|done]).
  destruct (text_eqb _ (txt "password")).
  { eapply talks_mono; [by apply talks_password|]. intros o c' [Hi Ho]. by split. }
  destruct (text_eqb _ (txt "keyboard-interactive")); [|by apply talks_fails].
  eapply talks_mono; [by apply talks_keyboard|]. intros o c' [Hi Ho]. by split.
Qed.

Lemma talks_tried_write m b Q c db f : m = write b →
  (∀ r o, Q (Some r) (with_output o c)) → Q (Some None) c → talks (tried m) Q c db f.
Proof. intros -> HS HN. apply talks_tried, talks_write; auto. Qed.

(** The loop ends for want of fuel never: every round takes a message. *)
Lemma talks_loop stream fuel has_service now c db f : input c `suffix_of` stream →
  talks (auth_loop config fuel has_service now) (request_post stream now db c) c db f.
Proof.
  revert c f. induction fuel as [|fuel IH]; intros c f Hs; cbn [auth_loop]; [by apply talks_fails|].
  apply talks_bind, talks_receive; [|intros rest E; split; [by apply broken_suffix|done] ].
  intros m rest E f1. destruct (payload_within _ _ _ E) as [Hw Hr].
  assert (rest `suffix_of` stream) as Hrs by (by transitivity (input c)).
  assert (∀ c' f', input c' `suffix_of` rest → talks (auth_loop config fuel has_service now)
            (request_post stream now db c) c' db f') as Hagain.
  { intros c' f' Hc'. eapply talks_mono; [apply IH; by transitivity rest|].
    intros o c2 [Hi Ho]. split; [|done]. etrans; [exact Hi|]. by transitivity rest. }
  destruct (Type_ m =? _); [|by apply Hagain].
  apply talks_bind, talks_tried. eapply talks_mono.
  { apply (talks_request stream); [|exact Hrs]. destruct Hw as (x & y & E'), Hs as [k Hk].
    exists (k ++ x), y. by rewrite Hk, E', <- !app_assoc. }
  intros [[]|] c' [Hi Ho] f2; cbn [input with_input] in Hi.
  - apply talks_bind. eapply (talks_tried_write _ _ _ _ _ _ eq_refl).
    + intros r o f3. apply talks_update. split; [cbn; by transitivity rest|]. intros _. by apply Ho.
    + intros f3. apply talks_update. split; [cbn; by transitivity rest|]. intros _. by apply Ho.
  - apply talks_bind. eapply (talks_tried_write _ _ _ _ _ _ eq_refl).
    + intros r o f3. by apply Hagain.
    + intros f3. by apply Hagain.
Qed.

(** C20: Who gets past the custom server's sign-in: whatever the client sends and
    whichever queries fail, the sign-in ends, changes no table, and succeeds only
    for a user of the table who is active, one of whose passwords the client has
    sent, and, if the second factor is set up, a valid code of it too; the session
    is then that user's. *)
Theorem custom_sign_in has_service now c db f :
  ∃ o c' f', handleAuthentication config has_service now c db f = (Ok (o, c'), db, f') ∧
    (o = Some () → signed_in (input c) now db (session c')).
Proof.
  assert (talks (handleAuthentication config has_service now) (request_post (input c) now db c) c db f)
    as (o & c' & f' & E & _ & Ho); [|by exists o, c', f'].
  unfold handleAuthentication. apply talks_bind.
  assert (∀ c', input c' = input c → ∀ f, talks (on_conn (λ c, auth_loop config (S (length (input c))) has_service now))
            (request_post (input c) now db c) c' db f) as Hloop.
  { intros c' Hc' f'. unfold talks, on_conn. rewrite <- Hc'.
    destruct (talks_loop (input c') (S (length (input c'))) has_service now c' db f') as (o & c2 & f2 & E & Hi & Ho);
      [done|]. exists o, c2, f2. split; [exact E|]. split; [by rewrite <- Hc'|done]. }
  destruct (is_empty _); [apply talks_ret; by apply Hloop|].
  apply talks_write; [|by split]. intros o f1. by apply Hloop.
Qed.

(** ** The fuel is enough *)

Lemma receive_run c db f : receive c db f =
  (Ok (match readSSHMessage (input c) with
       | Received m rest => (Some m, with_input rest c)
       | Broken rest => (None, with_input rest c) end), db, f).
Proof. done. Qed.

Lemma conv_bind_run {A B} (m : Conv A) (k : A → Conv B) c db f :
  (m ≫= k) c db f = match m c db f with
                    | (Ok (Some a, c'), db', f') => k a c' db' f'
                    | (Ok (None, c'), db', f') => (Ok (None, c'), db', f')
                    | (Err e, db', f') => (Err e, db', f')
                    end.
Proof.
  unfold mbind at 1, conv_bind. rewrite bind_run. by destruct (m c db f) as [[[[[a|] c'] | ] ?] ?].
Qed.

Lemma tried_run {A} (m : Conv A) c db f o c' db' f' : m c db f = (Ok (o, c'), db', f') →
  tried m c db f = (Ok (Some o, c'), db', f').
Proof. intros E. unfold tried. by rewrite bind_run, E. Qed.

Lemma failure_run c db f : ∃ o c', tried sendUserAuthFailure c db f = (Ok (Some o, c'), db, f) ∧ input c' = input c.
Proof.
  unfold sendUserAuthFailure, sendSSHMessage. set (p := frame _ _). clearbody p.
  destruct (broken c) eqn:Eb.
  - exists None, c. split; [|done]. apply tried_run. unfold write, put. by rewrite Eb.
  - exists (Some ()), (with_output (output c ++ p) c). split; [|done]. apply tried_run. unfold write, put. by rewrite Eb.
Qed.

(** Every round of the loop takes a message off the stream. *)
Lemma auth_loop_fuel n m has_service now c db f :
  (length (input c) < n)%nat → (length (input c) < m)%nat →
  auth_loop config n has_service now c db f = auth_loop config m has_service now c db f.
Proof.
  revert m c db f. induction n as [|n IH]; intros [|m] c db f Hn Hm; try lia. cbn [auth_loop].
  rewrite !conv_bind_run, receive_run. destruct (readSSHMessage (input c)) as [msg rest|rest] eqn:E; [|done].
  pose proof (received_shorter _ _ _ E) as Hl.
  destruct (Type_ msg =? SSH_MSG_USERAUTH_REQUEST); [|apply IH; cbn; lia].
  destruct (payload_within _ _ _ E) as [Hw Hr].
  destruct (talks_request (input c) has_service msg now (with_input rest c) db f Hw Hr) as (o & c1 & f1 & Eq & Hs & _).
  apply suffix_length in Hs. cbn [input with_input] in Hs.
  rewrite !conv_bind_run, (tried_run _ _ _ _ _ _ _ _ Eq). destruct o as [[]|]; [done|].
  destruct (failure_run c1 db f1) as (o2 & c2 & E2 & Hi). rewrite !conv_bind_run, E2.
  apply IH; rewrite Hi; lia.
Qed.

(** ** What a standard client is answered *)

(** The request of the password method, as RFC 4252 (section 8) has it. *)
Definition rfc_password_request (user service password : bytes) : Message :=
  {| Type_ := SSH_MSG_USERAUTH_REQUEST;
     Payload := enc (user, (service, lit "password")) ++ enc (false, password) |}.

(** The standard password request carries a boolean before the password,
    which the server takes for the first byte of its length: a password of less
    than 256 bytes is read as the empty one, so the answer is the same whatever
    the password. *)
Theorem standard_password_unread has_service user service pw pw' now c db f :
  fits user → fits service → Z.of_nat (length pw) < 256 → Z.of_nat (length pw') < 256 →
  handleUserAuthRequest config has_service (rfc_password_request user service pw) now c db f =
  handleUserAuthRequest config has_service (rfc_password_request user service pw') now c db f.
Proof.
  intros Hu Hv Hp Hp'. unfold handleUserAuthRequest.
  assert (∀ p, Z.of_nat (length p) < 256 → ∃ rest, dec (A := bytes) (enc (false, p)) = Some ([], rest)) as Hread.
  { intros p Hl. exists (Z.of_nat (length p) :: p). cbn [enc wire_pair wire_bool wire_string app fst snd].
    unfold encodeBool, encodeString, u32. rewrite (Z.mod_small (Z.of_nat (length p))) by lia.
    unfold PutUint32. rewrite !land_255, !Z.shiftr_div_pow2 by lia.
    rewrite !(Z.div_small (Z.of_nat (length p))) by lia. rewrite (Z.mod_small (Z.of_nat (length p))) by lia. done. }
  assert (∀ p, dec (A := bytes * (bytes * bytes)) (Payload (rfc_password_request user service p)) =
    Some ((user, (service, lit "password")), enc (false, p))) as Hd.
  { intros p. cbn [Payload rfc_password_request]. apply dec_enc; [|right; apply enc_some]. split; [done|]. split; [done|]. vm_compute. reflexivity. }
  rewrite !Hd, !conv_bind_run.
  assert (text_eqb (utf8_decode (lit "password")) (txt "password") = true) as Em by (vm_compute; reflexivity).
  unfold update. unfold mret, db_ret. cbv zeta. rewrite Em. unfold handlePasswordAuth.
  destruct (Hread pw Hp) as [r ->], (Hread pw' Hp') as [r' ->]. done.
Qed.

End sign_in.

(** ** The table of sessions *)

Module Server.

(** A [Session] that the table or its handler refers to. *)
Record entry := { StartTime : Z; LastActive : Z; cancelled : bool; conn_closed : bool }.
Definition ended (e : entry) : entry :=
  {| StartTime := StartTime e; LastActive := LastActive e; cancelled := true; conn_closed := true |}.

(** [starting] counts the connections accepted and not registered yet. *)
Record t := { objects : gmap text entry; sessions : gset text; starting : nat; listening : bool }.
Definition set_objects (s : t) (o : gmap text entry) : t :=
  {| objects := o; sessions := sessions s; starting := starting s; listening := listening s |}.
Definition set_sessions (s : t) (ids : gset text) : t :=
  {| objects := objects s; sessions := ids; starting := starting s; listening := listening s |}.

Definition NewCustomSSHServer : t :=
  {| objects := ∅; sessions := ∅; starting := 0; listening := true |}.
Definition getSessionCount (s : t) : Z := Z.of_nat (size (sessions s)).

(** One round of [acceptConnections] with a connection. *)
Definition accept (config : Config) (s : t) : t :=
  if MaxSessions config <=? getSessionCount s then s
  else {| objects := objects s; sessions := sessions s; starting := S (starting s); listening := listening s |}.

Definition registerSession (id : text) (e : entry) (s : t) : t :=
  {| objects := <[id := e]> (objects s); sessions := {[id]} ∪ sessions s; starting := pred (starting s);
     listening := listening s |}.
Definition unregisterSession (id : text) (s : t) : t :=
  if decide (id ∈ sessions s)
  then set_sessions (set_objects s (alter (λ e, {| StartTime := StartTime e; LastActive := LastActive e;
         cancelled := true; conn_closed := conn_closed e |}) id (objects s))) (sessions s ∖ {[id]})
  else s.

(** [now.Sub(t)], which is clamped to an [int64]. *)
Definition Sub (now t : Z) : Z := Z.max (- 2 ^ 63) (Z.min (2 ^ 63 - 1) (now - t)).

Definition end_session (id : text) (s : t) : t :=
  set_sessions (set_objects s (alter ended id (objects s))) (sessions s ∖ {[id]}).
Definition overstays (limit now since : Z) : bool := (0 <? limit) && (limit <? Sub now since).
Definition check_session (config : Config) (now : Z) (id : text) (s : t) : t :=
  match objects s !! id with
  | None => s
  | Some e =>
      let s := if overstays (IdleTimeout config) now (LastActive e) then end_session id s else s in
      if overstays (SessionTimeout config) now (StartTime e) then end_session id s else s
  end.
Definition checkIdleSessions (config : Config) (now : Z) (s : t) : t :=
  foldr (check_session config now) s (elements (sessions s)).

(** The sessions stay in the table until their handlers return, or until
    [forceCloseAllSessions], five seconds later. *)
Definition closeAllSessions (s : t) : t :=
  set_objects s (foldr (alter ended) (objects s) (elements (sessions s))).
Definition forceCloseAllSessions (s : t) : t := set_sessions (closeAllSessions s) ∅.
Definition close_listener (s : t) : t :=
  {| objects := objects s; sessions := sessions s; starting := starting s; listening := false |}.

Inductive step (config : Config) : t → t → Prop :=
  | step_accept s : listening s = true → step config s (accept config s)
  | step_register s id e : (0 < starting s)%nat → objects s !! id = None → StartTime e <= LastActive e →
      step config s (registerSession id e s)
  | step_unregister s id : step config s (unregisterSession id s)
  | step_check s now : step config s (checkIdleSessions config now s)
  | step_stop s : step config s (closeAllSessions (close_listener s))
  | step_force s : listening s = false → step config s (forceCloseAllSessions s).

(** What never registers a session does not make the table larger. *)
Lemma check_session_subset config now id s : sessions (check_session config now id s) ⊆ sessions s ∧
  starting (check_session config now id s) = starting s.
Proof.
  unfold check_session. destruct (objects s !! id) as [e|]; [|done].
  destruct (overstays (IdleTimeout config) _ _), (overstays (SessionTimeout config) _ _); cbn;
    split; first [done|set_solver].
Qed.

Lemma check_subset config now s : sessions (checkIdleSessions config now s) ⊆ sessions s ∧
  starting (checkIdleSessions config now s) = starting s.
Proof.
  unfold checkIdleSessions. induction (elements (sessions s)) as [|id l [IH1 IH2]]; [done|]. cbn [foldr].
  destruct (check_session_subset config now id (foldr (check_session config now) s l)) as [H1 H2].
  split; [by etrans|by rewrite H2].
Qed.

(** When connections are accepted one at a time the limit holds. *)
Definition prompt_step (config : Config) (s s' : t) : Prop :=
  step config s s' ∧ (starting s = 0 ∨ starting s' ≤ starting s)%nat.

Lemma prompt_limit config s s' : prompt_step config s s' →
  0 <= MaxSessions config → getSessionCount s + Z.of_nat (starting s) <= MaxSessions config →
  getSessionCount s' + Z.of_nat (starting s') <= MaxSessions config.
Proof.
  unfold getSessionCount. intros [Hs Hp] Hm Hl. inversion Hs as
    [? Ha|? id e Hst Hid Ht|? id|? now|?|?]; subst; clear Hs.
  - unfold accept in *. destruct (Z.leb_spec (MaxSessions config) (getSessionCount s)) as [|Hlt]; [done|].
    cbn in Hp |- *. unfold getSessionCount in Hlt. lia.
  - cbn. assert (size ({[id]} ∪ sessions s) ≤ size ({[id]} : gset text) + size (sessions s))%nat.
    { rewrite size_union_alt. apply Nat.add_le_mono_l, subseteq_size. set_solver. }
    rewrite size_singleton in *. lia.
  - unfold unregisterSession. case_decide; [|done]. cbn.
    assert (size (sessions s ∖ {[id]}) ≤ size (sessions s))%nat by (apply subseteq_size; set_solver). lia.
  - destruct (check_subset config now s) as [H1%subseteq_size ->]. lia.
  - done.
  - cbn. rewrite size_empty. lia.
Qed.

(** The limit on sessions holds as long as every accepted connection is
    registered before the next one is accepted, whatever else happens. *)
Theorem sessions_limited config s : 0 <= MaxSessions config →
  rtc (prompt_step config) NewCustomSSHServer s →
  getSessionCount s <= MaxSessions config.
Proof.
  intros Hm Hr. assert (getSessionCount s + Z.of_nat (starting s) <= MaxSessions config); [|lia].
  remember NewCustomSSHServer as s0 eqn:E0.
  assert (getSessionCount s0 + Z.of_nat (starting s0) <= MaxSessions config) as H0 by (subst; done).
  clear E0. induction Hr as [s|s1 s2 s3 H12 _ IH]; [done|]. apply IH. by eapply prompt_limit.
Qed.

(** [n] connections accepted at once. *)
Definition accepted (n : nat) : t := {| objects := ∅; sessions := ∅; starting := n; listening := true |}.

Lemma accept_many config n : 0 < MaxSessions config →
  rtc (step config) NewCustomSSHServer (accepted n).
Proof.
  intros Hm. induction n as [|n IH]; [done|]. eapply rtc_r; [exact IH|].
  assert (accepted (S n) = accept config (accepted n)) as ->; [|by constructor].
  unfold accept, getSessionCount, accepted. cbn [sessions]. rewrite size_empty.
  by rewrite (proj2 (Z.leb_gt _ _)) by (cbn; lia).
Qed.

Lemma register_all config ids s : NoDup ids → (∀ id, id ∈ ids → objects s !! id = None) →
  (length ids ≤ starting s)%nat →
  ∃ s', rtc (step config) s s' ∧ sessions s' = list_to_set ids ∪ sessions s.
Proof.
  revert s. induction ids as [|id ids IH]; intros s Hd Hf Hl.
  { exists s. split; [done|]. set_solver. }
  apply NoDup_cons in Hd as [Hid Hd].
  set (e := {| StartTime := 0; LastActive := 0; cancelled := false; conn_closed := false |}).
  destruct (IH (registerSession id e s)) as (s' & Hr & Hs); [done|..].
  - intros i Hi. cbn. rewrite lookup_insert_ne by (intros ->; done). apply Hf. by right.
  - cbn in *. lia.
  - exists s'. split; [|rewrite Hs; cbn; set_solver]. eapply rtc_l; [|exact Hr].
    apply step_register; [cbn in Hl; lia|apply Hf; by left|cbn; lia].
Qed.

(** The count is checked before the session is registered, by another
    goroutine: connections that arrive together are all accepted, so any number
    of sessions can be open whatever the limit. *)
Theorem sessions_over_limit config ids : 0 < MaxSessions config → NoDup ids →
  ∃ s, rtc (step config) NewCustomSSHServer s ∧ sessions s = list_to_set ids ∧
    getSessionCount s = Z.of_nat (length ids).
Proof.
  intros Hm Hd.
  destruct (register_all config ids (accepted (length ids)))
    as (s & Hr & Hs); [done|done|done|].
  exists s. cbn [sessions accepted] in Hs. assert (sessions s = list_to_set ids) as Es by (rewrite Hs; set_solver).
  split_and!; [|done|].
  - etrans; [by apply accept_many|exact Hr].
  - unfold getSessionCount. by rewrite Es, size_list_to_set.
Qed.

(** What the monitor leaves in the table has started within both limits: nothing
    a session does afterwards counts. *)
Lemma check_session_other config now id s i : i ≠ id →
  objects (check_session config now id s) !! i = objects s !! i.
Proof.
  intros Hne. unfold check_session. destruct (objects s !! id) as [e'|]; [|done].
  destruct (overstays (IdleTimeout config) _ _), (overstays (SessionTimeout config) _ _); cbn;
    by rewrite ?lookup_alter_ne by done.
Qed.

Lemma check_session_ends config now id s e : objects s !! id = Some e →
  overstays (IdleTimeout config) now (LastActive e) || overstays (SessionTimeout config) now (StartTime e) = true →
  id ∉ sessions (check_session config now id s) ∧ objects (check_session config now id s) !! id = Some (ended e).
Proof.
  intros He Ho. unfold check_session. rewrite He.
  destruct (overstays (IdleTimeout config) _ _), (overstays (SessionTimeout config) _ _); try done;
    cbn [sessions objects end_session set_sessions set_objects]; rewrite ?lookup_alter_eq, ?He;
    (split; [set_solver|done]).
Qed.

Lemma overstayers_ended config now s id e : objects s !! id = Some e → id ∈ sessions s →
  overstays (IdleTimeout config) now (LastActive e) || overstays (SessionTimeout config) now (StartTime e) = true →
  id ∉ sessions (checkIdleSessions config now s) ∧
  objects (checkIdleSessions config now s) !! id = Some (ended e).
Proof.
  intros He Hin Ho. unfold checkIdleSessions.
  assert (id ∈ elements (sessions s)) as Hl by (by apply elem_of_elements).
  pose proof (NoDup_elements (sessions s)) as Hd. revert Hl Hd.
  induction (elements (sessions s)) as [|i l IH]; intros Hl Hd; [by apply elem_of_nil in Hl|].
  apply NoDup_cons in Hd as [Hi Hd]. cbn [foldr]. apply elem_of_cons in Hl as [<-|Hl].
  - assert (objects (foldr (check_session config now) s l) !! id = Some e) as He'.
    { clear IH Hd. induction l as [|j l IH]; [done|]. cbn [foldr]. apply not_elem_of_cons in Hi as [Hij Hi].
      rewrite check_session_other by done. by apply IH. }
    by apply check_session_ends.
  - destruct (IH Hl Hd) as [H1 H2]. assert (id ≠ i) as Hne by (intros ->; done). split.
    + intros Hc. apply H1. by apply (check_session_subset config now i).
    + by rewrite check_session_other.
Qed.
End Server.

(** ** Examples *)

Definition sample_config : Config :=
  {| MaxSessions := 1; SessionTimeout := 0; IdleTimeout := 0; BannerMessage := txt "Hi";
     ServerVersion := txt "zjump"; CustomDomain := txt "x" |}.
Definition conn_of (input : bytes) : Conn :=
  {| session := new_session; input := input; output := []; broken := false |}.

(** Bob's password in the place the server reads it, then his code. *)
Definition password_then_code : bytes :=
  frame SSH_MSG_USERAUTH_REQUEST (enc (lit "bob", (lit "ssh-connection", (lit "password", lit "saltpw")))) ++
  frame SSH_MSG_USERAUTH_INFO_RESPONSE (enc (1, lit "123456")).

Lemma custom_sign_in_witness :
  ∃ c', handleAuthentication sample_config true 5 (conn_of password_then_code) bob2_db [] =
          (Ok (Some (), c'), bob2_db, []) ∧
        signed_in password_then_code 5 bob2_db (session c').
Proof.
  destruct (custom_sign_in sample_config true 5 (conn_of password_then_code) bob2_db []) as (o & c' & f' & E & Ho).
  assert (match handleAuthentication sample_config true 5 (conn_of password_then_code) bob2_db [] with
          | (Ok (Some _, _), _, []) => true | _ => false end = true) as Er by (vm_compute; reflexivity).
  rewrite E in Er. destruct o as [[]|]; [|done]. destruct f'; [|done].
  exists c'. split; [exact E|by apply Ho].
Defined.

(** The right password and a wrong one get the same answer in the standard form. *)
Lemma standard_password_unread_witness :
  handleUserAuthRequest sample_config true (rfc_password_request (lit "bob") (lit "ssh-connection") (lit "saltpw")) 5
    (conn_of []) bob2_db [] =
  handleUserAuthRequest sample_config true (rfc_password_request (lit "bob") (lit "ssh-connection") (lit "guess")) 5
    (conn_of []) bob2_db [].
Proof. apply standard_password_unread; vm_compute; reflexivity. Defined.

(** A client that does not wait for the server's version loses its first request. *)
Example eager_request_lost :
  read_line [1000%nat] [] (lit "SSH-2.0-x" ++ [13; 10] ++ password_then_code) = Some (lit "SSH-2.0-x" ++ [13; 10], []) ∧
  read_line [11%nat] [] (lit "SSH-2.0-x" ++ [13; 10] ++ password_then_code) =
    Some (lit "SSH-2.0-x" ++ [13; 10], password_then_code).
Proof. vm_compute. done. Qed.

Lemma sessions_limited_witness : Server.getSessionCount Server.NewCustomSSHServer <= 1.
Proof. by apply (Server.sessions_limited sample_config). Defined.

Lemma sessions_over_limit_witness :
  ∃ s, rtc (Server.step sample_config) Server.NewCustomSSHServer s ∧ Server.getSessionCount s = 2.
Proof.
  destruct (Server.sessions_over_limit sample_config [txt "a"; txt "b"]) as (s & Hr & _ & Hc).
  - reflexivity.
  - apply (bool_decide_eq_true_1 (NoDup [txt "a"; txt "b"])). vm_compute. reflexivity.
  - by exists s.
Defined.
