(* ===== verification/SshChannels.v ===== *)
(** * The channels of the custom SSH server

    [internal/sshserver/protocol/channel_handler.go] and the message loop of
    [custom_ssh.go].  A channel is an object, kept in a heap, that the table of
    the session, the loop and the goroutine of its shell refer to.  The handlers
    are functions; [step] interleaves the loop with the shells.  A panic of the
    loop ends the session, one of a shell the process: only the goroutine of a
    connection recovers. *)

From stdpp Require Import base list strings gmap relations.
From Stdlib Require Import ZArith Lia.
From S2P Require Import Prelude GoStrings GoChan SshWire CustomSsh.
Local Open Scope Z_scope.

Definition SSH_MSG_UNIMPLEMENTED : Z := 3.
Definition SSH_MSG_GLOBAL_REQUEST : Z := 80.
Definition SSH_MSG_REQUEST_FAILURE : Z := 82.
Definition SSH_MSG_CHANNEL_OPEN : Z := 90.
Definition SSH_MSG_CHANNEL_OPEN_CONFIRMATION : Z := 91.
Definition SSH_MSG_CHANNEL_OPEN_FAILURE : Z := 92.
Definition SSH_MSG_CHANNEL_DATA : Z := 94.
Definition SSH_MSG_CHANNEL_CLOSE : Z := 97.
Definition SSH_MSG_CHANNEL_REQUEST : Z := 98.
Definition SSH_MSG_CHANNEL_SUCCESS : Z := 99.
Definition SSH_MSG_CHANNEL_FAILURE : Z := 100.
Definition SSH_OPEN_UNKNOWN_CHANNEL_TYPE : Z := 3.

(** ** The state *)

Module Channel.
Record t := {
  ID : Z; Type_ : bytes; WindowSize : Z; PacketSize : Z; LocalWindow : Z; RemoteWindow : Z;
  Data : chan bytes; CloseChan : chan bool; Closed : bool }.
Definition set_chans (c : t) (d : chan bytes) (cl : chan bool) (closed : bool) : t :=
  {| ID := ID c; Type_ := Type_ c; WindowSize := WindowSize c; PacketSize := PacketSize c;
     LocalWindow := LocalWindow c; RemoteWindow := RemoteWindow c; Data := d; CloseChan := cl;
     Closed := closed |}.
Definition set_data (c : t) (d : chan bytes) : t := set_chans c d (CloseChan c) (Closed c).
Definition set_close (c : t) (cl : chan bool) : t := set_chans c (Data c) cl (Closed c).
End Channel.

Definition data_cap : nat := 100.
Definition close_cap : nat := 1.

(** The goroutine of [handleShell]: in the terminal handler, inside the [Close]
    of its channel, before its last send, before [closeChannel], and returned. *)
Inductive phase := InTerminal | Closing | Returning | Removing | Gone.
Record shell := Shell { its : nat; at_ : phase }.

Record Mux := { conn : Conn; heap : list Channel.t; channels : gmap Z nat; shells : list shell }.
Definition set_conn (m : Mux) (c : Conn) : Mux :=
  {| conn := c; heap := heap m; channels := channels m; shells := shells m |}.
Definition set_heap (m : Mux) (h : list Channel.t) : Mux :=
  {| conn := conn m; heap := h; channels := channels m; shells := shells m |}.
Definition set_channels (m : Mux) (cs : gmap Z nat) : Mux :=
  {| conn := conn m; heap := heap m; channels := cs; shells := shells m |}.
Definition set_shells (m : Mux) (l : list shell) : Mux :=
  {| conn := conn m; heap := heap m; channels := channels m; shells := l |}.

(** ** Handlers: they return, with or without an error, or panic *)

Inductive outcome (A : Type) := Did (a : A) | Failed | Panics.
Arguments Did {A} a. Arguments Failed {A}. Arguments Panics {A}.

Definition Mu (A : Type) : Type := Mux → outcome A * Mux.
#[global] Instance mu_ret : MRet Mu := λ A a m, (Did a, m).
#[global] Instance mu_bind : MBind Mu := λ A B k x m,
  match x m with (Did a, m) => k a m | (Failed, m) => (Failed, m) | (Panics, m) => (Panics, m) end.
Definition failed {A} : Mu A := λ m, (Failed, m).
Definition panics {A} : Mu A := λ m, (Panics, m).
(** The error is dropped. *)
Definition ignoring {A} (x : Mu A) : Mu unit := λ m,
  match x m with (Panics, m) => (Panics, m) | (_, m) => (Did (), m) end.

Definition send (msgType : Z) (payload : bytes) : Mu unit := λ m,
  match send_message msgType payload (conn m) with
  | (Some _, c) => (Did (), set_conn m c)
  | (None, c) => (Failed, set_conn m c)
  end.
Definition parse {A} `{Wire A} (reader : bytes) : Mu (A * bytes) :=
  match dec reader with Some r => mret r | None => failed end.
Definition on_session (g : Session.t → Session.t) : Mu unit := λ m,
  (Did (), set_conn m (with_session (g (session (conn m))) (conn m))).
(** The channel at an address, and the address of the channel with an ID. *)
Definition load (l : nat) : Mu Channel.t := λ m,
  match heap m !! l with Some c => (Did c, m) | None => (Panics, m) end.
Definition store (l : nat) (c : Channel.t) : Mu unit := λ m, (Did (), set_heap m (<[l := c]> (heap m))).
Definition registered (id : Z) : Mu (option nat) := λ m, (Did (channels m !! id), m).

Definition sendChannelOpenConfirmation (recipient sender window packet : Z) : Mu unit :=
  send SSH_MSG_CHANNEL_OPEN_CONFIRMATION (enc (recipient, (sender, (window, packet)))).
Definition sendChannelOpenFailure (recipient reasonCode : Z) (reason : bytes) : Mu unit :=
  send SSH_MSG_CHANNEL_OPEN_FAILURE (enc (recipient, (reasonCode, (reason, @nil Z)))).
Definition sendChannelSuccess (channelID : Z) : Mu unit := send SSH_MSG_CHANNEL_SUCCESS (enc channelID).
Definition sendChannelFailure (channelID : Z) : Mu unit := send SSH_MSG_CHANNEL_FAILURE (enc channelID).

Definition new_channel (id : Z) (channelType : bytes) (window packet : Z) : Channel.t :=
  {| Channel.ID := id; Channel.Type_ := channelType; Channel.WindowSize := window;
     Channel.PacketSize := packet; Channel.LocalWindow := window; Channel.RemoteWindow := 32768;
     Channel.Data := make_chan; Channel.CloseChan := make_chan; Channel.Closed := false |}.
(** Nothing is asked about a channel that has the number already. *)
Definition register (c : Channel.t) : Mu unit := λ m,
  (Did (), set_channels (set_heap m (heap m ++ [c])) (<[Channel.ID c := length (heap m)]> (channels m))).

Definition handleChannelOpen (payload : bytes) : Mu unit :=
  p ← parse (A := bytes * (Z * (Z * Z))) payload;
  let '((channelType, (sender, (window, packet))), _) := p in
  if negb (bool_decide (channelType = lit "session"))
  then sendChannelOpenFailure sender SSH_OPEN_UNKNOWN_CHANNEL_TYPE (lit "unsupported channel type")
  else
    _ ← register (new_channel sender channelType window packet);
    sendChannelOpenConfirmation sender sender window packet.

Definition handlePtyRequest (channelID : Z) (reader : bytes) (wantReply : bool) : Mu unit :=
  p ← parse (A := bytes * (Z * (Z * (Z * Z)))) reader;
  let '((_, (cols, (rows, _))), _) := p in
  _ ← on_session (λ s, Session.set_size s cols rows);
  if wantReply then sendChannelSuccess channelID else mret ().

Definition handleWindowChange (reader : bytes) : Mu unit :=
  p ← parse (A := Z * (Z * (Z * Z))) reader;
  let '((cols, (rows, _)), _) := p in
  on_session (λ s, Session.set_size s cols rows).

Definition start_shell (l : nat) : Mu unit := λ m, (Did (), set_shells m (shells m ++ [Shell l InTerminal])).
Definition handleShellRequest (l : nat) (channelID : Z) (wantReply : bool) : Mu unit :=
  _ ← (if wantReply then sendChannelSuccess channelID else mret ());
  start_shell l.

Definition handleChannelRequest (payload : bytes) : Mu unit :=
  p ← parse (A := Z * (bytes * bool)) payload;
  let '((recipient, (requestType, wantReply)), reader) := p : (Z * (bytes * bool)) * bytes in
  let refuse : Mu unit := if wantReply then ignoring (sendChannelFailure recipient) else mret () in
  a ← registered recipient;
  match a with
  | None => _ ← refuse; failed
  | Some l =>
      channel ← load l;
      if bool_decide (requestType = lit "pty-req") then handlePtyRequest (Channel.ID channel) reader wantReply
      else if bool_decide (requestType = lit "shell") then handleShellRequest l (Channel.ID channel) wantReply
      else if bool_decide (requestType = lit "window-change") then handleWindowChange reader
      else refuse
  end.

Definition unregister (id : Z) : Mu unit := λ m, (Did (), set_channels m (delete id (channels m))).

(** [closeChannel] and the body of [handleChannelClose]. *)
Definition closeChannel (channelID : Z) : Mu unit :=
  a ← registered channelID;
  match a with
  | None => mret ()
  | Some l =>
      channel ← load l;
      match close_chan (Channel.Data channel) with
      | None => panics
      | Some d =>
          _ ← store l (Channel.set_chans channel d (Channel.CloseChan channel) true);
          match close_chan (Channel.CloseChan channel) with
          | None => panics
          | Some cl =>
              _ ← store l (Channel.set_chans channel d cl true);
              unregister channelID
          end
      end
  end.
Definition handleChannelClose (payload : bytes) : Mu unit :=
  p ← parse (A := Z) payload;
  closeChannel p.1.

Definition handleGlobalRequest : Mu unit := ignoring (send SSH_MSG_REQUEST_FAILURE []).

(** [handleChannelData] looks the channel up under the lock and sends outside it. *)
Definition data_for (payload : bytes) : Mu (option (nat * bytes)) :=
  p ← parse (A := Z) payload;
  a ← registered p.1;
  mret (match a with
        | Some l => if is_empty p.2 then None else Some (l, p.2)
        | None => None
        end).
Definition push (l : nat) (data : bytes) : Mu bool :=
  channel ← load l;
  match try_send data_cap data (Channel.Data channel) with
  | Sent d => _ ← store l (Channel.set_data channel d); mret true
  | Full => mret false
  | SendPanics => panics
  end.

(** The error is an answer without a result. *)
Definition or_nothing {A} (x : Mu (option A)) : Mu (option A) := λ m,
  match x m with (Failed, m) => (Did None, m) | r => r end.

(** One message, up to the send of [handleChannelData]. *)
Definition handle (msg : Message) : Mu (option (nat * bytes)) :=
  let t := Type_ msg in
  if t =? SSH_MSG_CHANNEL_OPEN then _ ← ignoring (handleChannelOpen (Payload msg)); mret None
  else if t =? SSH_MSG_CHANNEL_REQUEST then _ ← ignoring (handleChannelRequest (Payload msg)); mret None
  else if t =? SSH_MSG_GLOBAL_REQUEST then _ ← handleGlobalRequest; mret None
  else if t =? SSH_MSG_CHANNEL_DATA then or_nothing (data_for (Payload msg))
  else if t =? SSH_MSG_CHANNEL_CLOSE then _ ← ignoring (handleChannelClose (Payload msg)); mret None
  else _ ← ignoring (send SSH_MSG_UNIMPLEMENTED []); mret None.

(** The terminal's side of a channel: [Write], and the message of [Close]. *)
Definition Write (channelID : Z) (p : bytes) : Mu unit := send SSH_MSG_CHANNEL_DATA (enc channelID ++ p).
Definition send_close (channelID : Z) : Mu unit := ignoring (send SSH_MSG_CHANNEL_CLOSE (enc channelID)).

(** ** The session at work *)

(** The loop reads, sends what it has read to a channel, or has ended; then the
    connection is closed and the session cancelled. *)
Inductive at_work := Reading | Pushing (l : nat) (data : bytes) | Over.
Inductive state := Alive (m : Mux) (w : at_work) | Crashed.
Definition hang_up (c : Conn) : Conn :=
  {| session := session c; input := []; output := output c; broken := true |}.
Definition over (m : Mux) : state := Alive (set_conn m (hang_up (conn m))) Over.
Definition in_phase (m : Mux) (i : nat) (l : nat) (p : phase) : Mux := set_shells m (<[i := Shell l p]> (shells m)).

(** What happens: the loop gets a message of the client; the data it was to send to
    a channel is kept by it, or dropped; the terminal takes the next data of its
    channel, of which [Read] returns what fits its buffer, and the rest is lost; the
    shell of a channel ends; and what is neither. *)
Inductive event := Tau | Got (msg : Message) | Kept | Dropped | Took (l : nat) (data : bytes) | Ended (l : nat).

(** [CloseChan <- true] panics. *)
Definition signal_panics (m : Mux) (l : nat) : Prop :=
  ∃ ch, heap m !! l = Some ch ∧ try_send close_cap true (Channel.CloseChan ch) = SendPanics.

Inductive step : state → event → state → Prop :=
  (* the loop *)
  | loop_message m msg c o m' : next_message (conn m) = (Some msg, c) →
      handle msg (set_conn m c) = (o, m') →
      step (Alive m Reading) (Got msg) (match o with
                                  | Did (Some (l, data)) => Alive m' (Pushing l data)
                                  | Panics => over m'
                                  | _ => Alive m' Reading
                                  end)
  | loop_ends m c : next_message (conn m) = (None, c) → step (Alive m Reading) Tau (over (set_conn m c))
  | loop_cut m : step (Alive m Reading) Tau (Alive (set_conn m (hang_up (conn m))) Reading)
  | loop_push m l data o m' : push l data m = (o, m') →
      step (Alive m (Pushing l data)) (match o with Did true => Kept | _ => Dropped end)
           (match o with Did _ => Alive m' Reading | _ => over m' end)
  (* a shell: the terminal handler reads, writes, closes its channel, and returns *)
  | shell_read m w i l ch data d : shells m !! i = Some (Shell l InTerminal) → heap m !! l = Some ch →
      recv (Channel.Data ch) = Some (data, d) →
      step (Alive m w) (Took l data) (Alive (set_heap m (<[l := Channel.set_data ch d]> (heap m))) w)
  | shell_eof m w i l ch b c : shells m !! i = Some (Shell l InTerminal) → heap m !! l = Some ch →
      recv (Channel.CloseChan ch) = Some (b, c) →
      step (Alive m w) Tau (Alive (set_heap m (<[l := Channel.set_close ch c]> (heap m))) w)
  | shell_write m w i l ch p : shells m !! i = Some (Shell l InTerminal) → heap m !! l = Some ch →
      step (Alive m w) Tau (Alive (Write (Channel.ID ch) p m).2 w)
  | shell_close m w i l ch : shells m !! i = Some (Shell l InTerminal) → heap m !! l = Some ch →
      step (Alive m w) Tau (Alive (in_phase (send_close (Channel.ID ch) m).2 i l Closing) w)
  | shell_closed m w i l ch c : shells m !! i = Some (Shell l Closing) → heap m !! l = Some ch →
      try_send close_cap true (Channel.CloseChan ch) = Sent c →
      step (Alive m w) Tau (Alive (in_phase (set_heap m (<[l := Channel.set_close ch c]> (heap m))) i l InTerminal) w)
  | shell_close_panics m w i l : shells m !! i = Some (Shell l Closing) → signal_panics m l →
      (* recovered by the terminal handler, or not *)
      step (Alive m w) Tau (Alive (in_phase m i l Returning) w)
  | shell_close_crashes m w i l : shells m !! i = Some (Shell l Closing) → signal_panics m l →
      step (Alive m w) Tau Crashed
  | shell_returns m w i l : shells m !! i = Some (Shell l InTerminal) →
      step (Alive m w) Tau (Alive (in_phase m i l Returning) w)
  (* the deferred function of [handleShell] *)
  | shell_signals m w i l ch c : shells m !! i = Some (Shell l Returning) → heap m !! l = Some ch →
      try_send close_cap true (Channel.CloseChan ch) = Sent c →
      step (Alive m w) Tau (Alive (in_phase (set_heap m (<[l := Channel.set_close ch c]> (heap m))) i l Removing) w)
  | shell_crashes m w i l : shells m !! i = Some (Shell l Returning) → signal_panics m l →
      step (Alive m w) Tau Crashed
  | shell_removes m w i l ch o m' : shells m !! i = Some (Shell l Removing) → heap m !! l = Some ch →
      closeChannel (Channel.ID ch) m = (o, m') →
      step (Alive m w) (Ended l) (match o with Panics => Crashed | _ => Alive (in_phase m' i l Gone) w end).

(** ** What the handlers keep

    A registered channel is the one with that number, and neither of its Go
    channels is closed. *)
Definition valid (l : nat) (m : Mux) : Prop := is_Some (heap m !! l).
Definition small_chans (c : Channel.t) : Prop :=
  (length (buf (Channel.Data c)) ≤ data_cap ∧ length (buf (Channel.CloseChan c)) ≤ close_cap)%nat.

Record mux_ok (m : Mux) : Prop := {
  ok_registered id l : channels m !! id = Some l → ∃ c, heap m !! l = Some c ∧ Channel.ID c = id ∧
    shut (Channel.Data c) = false ∧ shut (Channel.CloseChan c) = false;
  ok_shells i s : shells m !! i = Some s → valid (its s) m;
  ok_small l c : heap m !! l = Some c → small_chans c
}.

(** A channel keeps its number and its data, and stays closed. *)
Definition kept (c c' : Channel.t) : Prop :=
  Channel.ID c' = Channel.ID c ∧ buf (Channel.Data c') = buf (Channel.Data c) ∧
  (shut (Channel.CloseChan c) = true → shut (Channel.CloseChan c') = true).

Record calm (m m' : Mux) : Prop := {
  calm_heap l c : heap m !! l = Some c → ∃ c', heap m' !! l = Some c' ∧ kept c c';
  calm_fresh l c : heap m !! l = None → heap m' !! l = Some c → buf (Channel.Data c) = [];
  calm_shells : shells m `prefix_of` shells m'
}.

#[export] Instance kept_preorder : PreOrder kept.
Proof.
  split; [done|]. intros c1 c2 c3 (H1 & H2 & H3) (H4 & H5 & H6).
  split_and!; [by rewrite H4|by rewrite H5|auto].
Qed.

#[export] Instance calm_preorder : PreOrder calm.
Proof.
  split.
  - intros m. split; [|by intros l c ->|done]. intros l c E. by exists c.
  - intros m1 m2 m3 [H1 H2 H3] [H4 H5 H6]. split; [| |by etrans].
    + intros l c (c2 & E2 & K2)%H1. apply H4 in E2 as (c3 & E3 & K3). exists c3. split; [done|by etrans].
    + intros l c E1 E3. destruct (heap m2 !! l) as [c2|] eqn:E2; [|by eapply H5].
      apply H4 in E2 as E4. destruct E4 as (c' & E4 & _ & Hb & _). simplify_eq. rewrite Hb. by eapply H2.
Qed.

Lemma calm_valid l m m' : calm m m' → valid l m → valid l m'.
Proof. intros Hc [c E]. apply (calm_heap _ _ Hc) in E as (c' & E' & _). by exists c'. Qed.

(** No panic, and then [Q]. *)
Definition wpm {A} (x : Mu A) (m : Mux) (Q : option A → Mux → Prop) : Prop :=
  match x m with (Did a, m') => Q (Some a) m' | (Failed, m') => Q None m' | (Panics, _) => False end.

Section wpm.
Context {A B : Type}.

Lemma wpm_bind (x : Mu A) (k : A → Mu B) m (Q : option B → Mux → Prop) :
  wpm x m (λ o m', match o with Some a => wpm (k a) m' Q | None => Q None m' end) → wpm (x ≫= k) m Q.
Proof. unfold wpm, mbind, mu_bind. by destruct (x m) as [[a| |] m']. Qed.

Lemma wpm_mono (x : Mu A) m (Q Q' : option A → Mux → Prop) :
  wpm x m Q → (∀ o m', Q o m' → Q' o m') → wpm x m Q'.
Proof. unfold wpm. destruct (x m) as [[a| |] m']; auto. Qed.

Lemma wpm_ignoring (x : Mu A) m (Q : option unit → Mux → Prop) :
  wpm x m (λ _ m', Q (Some ()) m') → wpm (ignoring x) m Q.
Proof. unfold wpm, ignoring. by destruct (x m) as [[a| |] m']. Qed.
End wpm.

Definition quiet {A} (x : Mu A) : Prop := ∀ m, mux_ok m → wpm x m (λ _ m', mux_ok m' ∧ calm m m').

Lemma quiet_bind {A B} (x : Mu A) (k : A → Mu B) : quiet x → (∀ a, quiet (k a)) → quiet (x ≫= k).
Proof.
  intros Hx Hk m Hm. apply wpm_bind. eapply wpm_mono; [by apply Hx|]. intros [a|] m1 [H1 Hc1]; [|done].
  eapply wpm_mono; [by apply Hk|]. intros o m2 [H2 Hc2]. split; [done|by etrans].
Qed.

Lemma quiet_ignoring {A} (x : Mu A) : quiet x → quiet (ignoring x).
Proof. intros Hx m Hm. by apply wpm_ignoring, Hx. Qed.

Lemma quiet_or_nothing {A} (x : Mu (option A)) : quiet x → quiet (or_nothing x).
Proof. intros Hx m Hm. specialize (Hx m Hm). unfold wpm, or_nothing in *. by destruct (x m) as [[a| |] m']. Qed.

Lemma quiet_ret {A} (a : A) : quiet (mret a).
Proof. intros m Hm. by split. Qed.

Lemma quiet_failed {A} : quiet (@failed A).
Proof. intros m Hm. by split. Qed.

(** The connection does not matter to the channels. *)
Lemma mux_ok_conn m c : mux_ok m → mux_ok (set_conn m c).
Proof. by intros [H1 H2 H3]. Qed.
Lemma calm_conn m c : calm m (set_conn m c).
Proof. split; cbn; [|by intros l c' ->|done]. intros l c' E. by exists c'. Qed.

Lemma quiet_send t p : quiet (send t p).
Proof.
  intros m Hm. unfold wpm, send. destruct (send_message t p (conn m)) as [[[]|] c];
    (split; [by apply mux_ok_conn|by apply calm_conn]).
Qed.

Lemma quiet_on_session g : quiet (on_session g).
Proof. intros m Hm. split; [by apply mux_ok_conn|by apply calm_conn]. Qed.

Lemma quiet_parse {A} `{Wire A} r : quiet (parse (A := A) r).
Proof. intros m Hm. unfold parse. destruct (dec r); by split. Qed.

Lemma quiet_registered id : quiet (registered id).
Proof. intros m Hm. by split. Qed.

Lemma quiet_register c : small_chans c → shut (Channel.Data c) = false → shut (Channel.CloseChan c) = false →
  buf (Channel.Data c) = [] → quiet (register c).
Proof.
  intros Hsm Hd Hcl Hb m [H1 H2 H3]. unfold wpm, register. cbn [set_channels set_heap channels heap shells].
  assert (∀ l x, heap m !! l = Some x → (heap m ++ [c]) !! l = Some x) as Hold by (intros; by apply lookup_app_l_Some).
  assert (∀ l x, (heap m ++ [c]) !! l = Some x → heap m !! l = Some x ∨ x = c) as Hnew.
  { intros l x [E|[_ E]]%lookup_app_Some; [by left|right]. by apply list_lookup_singleton_Some in E as [_ <-]. }
  split; split; cbn [set_channels set_heap channels heap shells].
  - intros id l. destruct (decide (id = Channel.ID c)) as [->|Hne].
    + rewrite lookup_insert_eq. intros [= <-]. exists c.
      split_and!; [|done..]. rewrite lookup_app_r, Nat.sub_diag by lia. done.
    + rewrite lookup_insert_ne by done. intros (x & E & Hx)%H1. exists x. auto.
  - intros i s [x E]%H2. exists x. auto.
  - intros l x [E| ->]%Hnew; [by eapply H3|done].
  - intros l x E. exists x. split; [by apply Hold|done].
  - intros l x E [E'| ->]%Hnew; [congruence|done].
  - done.
Qed.

Lemma quiet_open payload : quiet (handleChannelOpen payload).
Proof.
  apply quiet_bind; [apply quiet_parse|]. intros [(ty & s & w & p) r].
  destruct (negb _); [apply quiet_send|]. apply quiet_bind; [|intros _; apply quiet_send].
  apply quiet_register; [|done..]. split; cbn; unfold data_cap, close_cap; lia.
Qed.

(** What is found under a number. *)
Lemma wpm_lookup {A} id (k : nat → Channel.t → Mu A) (n : Mu A) m (Q : option A → Mux → Prop) : mux_ok m →
  wpm n m Q →
  (∀ l c, channels m !! id = Some l → heap m !! l = Some c → Channel.ID c = id → shut (Channel.Data c) = false →
     shut (Channel.CloseChan c) = false → wpm (k l c) m Q) →
  wpm (a ← registered id; match a with None => n | Some l => c ← load l; k l c end) m Q.
Proof.
  intros Hm Hn Hk. apply wpm_bind. unfold wpm at 1. cbn [registered].
  destruct (channels m !! id) as [l|] eqn:E; [|done].
  destruct (ok_registered _ Hm _ _ E) as (c & Ec & Hid & Hd & Hcl).
  apply wpm_bind. unfold wpm at 1, load. rewrite Ec. by apply Hk.
Qed.

Lemma quiet_start l m : mux_ok m → valid l m → wpm (start_shell l) m (λ _ m', mux_ok m' ∧ calm m m').
Proof.
  intros [H1 H2 H3] Hv. split; split; cbn; [done| |done|eauto|by intros ? ? ->|by apply prefix_app_r].
  - intros i s [E|[_ E]]%lookup_app_Some; [by eapply H2|].
    by apply list_lookup_singleton_Some in E as [_ <-].
  - intros l' c E. by exists c.
Qed.

Lemma quiet_request payload : quiet (handleChannelRequest payload).
Proof.
  apply quiet_bind; [apply quiet_parse|]. intros [(id & ty & reply) r]. cbv zeta.
  assert (quiet (if reply then ignoring (sendChannelFailure id) else mret ())) as Hrefuse
    by (destruct reply; [apply quiet_ignoring, quiet_send|apply quiet_ret]).
  intros m Hm. apply (wpm_lookup id (λ l channel, if bool_decide (ty = lit "pty-req") then
      handlePtyRequest (Channel.ID channel) r reply
      else if bool_decide (ty = lit "shell") then handleShellRequest l (Channel.ID channel) reply
      else if bool_decide (ty = lit "window-change") then handleWindowChange r
      else if reply then ignoring (sendChannelFailure id) else mret ())); [done| |].
  { revert m Hm. apply quiet_bind; [done|]. intros _. apply quiet_failed. }
  intros l c El Ec _ _ _. repeat case_bool_decide.
  - revert m Hm El Ec. intros m Hm _ _. revert m Hm. apply quiet_bind; [apply quiet_parse|].
    intros [(? & cols & rows & ?) ?]. apply quiet_bind; [apply quiet_on_session|]. intros _.
    destruct reply; [apply quiet_send|apply quiet_ret].
  - apply wpm_bind. assert (quiet (if reply then sendChannelSuccess (Channel.ID c) else mret ())) as Hs
      by (destruct reply; [apply quiet_send|apply quiet_ret]).
    eapply wpm_mono; [by apply Hs|]. intros [[]|] m1 [H1 Hc1]; [|done].
    eapply wpm_mono; [apply quiet_start; [done|]|].
    + eapply calm_valid; [exact Hc1|]. by exists c.
    + intros o m2 [H2 Hc2]. split; [done|by etrans].
  - assert (quiet (handleWindowChange r)) as Hw; [|by apply Hw].
    apply quiet_bind; [apply quiet_parse|]. intros [(cols & rows & ?) ?]. apply quiet_on_session.
  - by apply Hrefuse.
Qed.

(** An update of the channel at an address. *)
Definition put_at (m : Mux) (l : nat) (c : Channel.t) : Mux := set_heap m (<[l := c]> (heap m)).

Lemma put_at_lookup m l c c0 l' x : heap m !! l = Some c0 → heap (put_at m l c) !! l' = Some x →
  (l' = l ∧ x = c) ∨ (l' ≠ l ∧ heap m !! l' = Some x).
Proof.
  intros E. cbn. intros [(-> & <- & _)|[Hne Hx] ]%list_lookup_insert_Some; [by left|right]. by split.
Qed.

Lemma put_at_here m l c c0 : heap m !! l = Some c0 → heap (put_at m l c) !! l = Some c.
Proof. intros E. cbn. apply list_lookup_insert_eq. by eapply lookup_lt_Some. Qed.

Lemma put_at_there m l c l' : l' ≠ l → heap (put_at m l c) !! l' = heap m !! l'.
Proof. intros Hne. cbn. by apply list_lookup_insert_ne. Qed.

Lemma put_at_valid m l c l' : valid l' m → valid l' (put_at m l c).
Proof.
  intros [x Ex]. destruct (decide (l' = l)) as [->|Hne].
  - exists c. by eapply put_at_here.
  - exists x. by rewrite put_at_there.
Qed.

Lemma put_at_ok m l c c' : heap m !! l = Some c → Channel.ID c' = Channel.ID c →
  shut (Channel.Data c') = shut (Channel.Data c) → shut (Channel.CloseChan c') = shut (Channel.CloseChan c) →
  small_chans c' → mux_ok m → mux_ok (put_at m l c').
Proof.
  intros Ec Hid Hd Hcl Hsm [H1 H2 H3]. split.
  - intros id l' (x & Ex & Hx & Hxd & Hxc)%H1. destruct (decide (l' = l)) as [->|Hne].
    + simplify_eq. exists c'. split; [by eapply put_at_here|]. by rewrite Hid, Hd, Hcl.
    + exists x. by rewrite put_at_there.
  - intros i s Hs%H2. by apply put_at_valid.
  - intros l' x [ [-> ->]|[_ Ex] ]%(put_at_lookup _ _ _ _ _ _ Ec); [done|by eapply H3].
Qed.

Lemma put_at_calm m l c c' : heap m !! l = Some c → kept c c' → calm m (put_at m l c').
Proof.
  intros Ec Hk. split; [| |done].
  - intros l' x Ex. destruct (decide (l' = l)) as [->|Hne].
    + simplify_eq. exists c'. split; [by eapply put_at_here|done].
    + exists x. by rewrite put_at_there.
  - intros l' x En [ [-> ->]|[_ Ex] ]%(put_at_lookup _ _ _ _ _ _ Ec); congruence.
Qed.

(** ** Closing *)

Definition shut_channel (c : Channel.t) : Channel.t :=
  Channel.set_chans c (Chan (buf (Channel.Data c)) true) (Chan (buf (Channel.CloseChan c)) true) true.
Definition removed (m : Mux) (id : Z) (l : nat) (c : Channel.t) : Mux :=
  set_channels (put_at m l (shut_channel c)) (delete id (channels m)).

Lemma channel_close_run m id : mux_ok m →
  match channels m !! id with
  | None => closeChannel id m = (Did (), m)
  | Some l => ∃ c, heap m !! l = Some c ∧ Channel.ID c = id ∧ closeChannel id m = (Did (), removed m id l c)
  end.
Proof.
  intros Hm. destruct (channels m !! id) as [l|] eqn:El.
  - destruct (ok_registered _ Hm _ _ El) as (c & Ec & Hid & Hd & Hcl). exists c. split_and!; [done..|].
    unfold closeChannel, mbind, mu_bind, registered, load. rewrite El, Ec. unfold close_chan. rewrite Hd, Hcl.
    cbn [store unregister]. f_equal. unfold removed, put_at, shut_channel. cbn. by rewrite list_insert_insert_eq.
  - unfold closeChannel, mbind, mu_bind, registered. by rewrite El.
Qed.

Lemma removed_ok m id l c : heap m !! l = Some c → Channel.ID c = id → mux_ok m → mux_ok (removed m id l c).
Proof.
  intros Ec Hid Hm. split.
  - intros id' l'. cbn [removed set_channels channels]. intros [Hne El]%lookup_delete_Some.
    destruct (ok_registered _ Hm _ _ El) as (x & Ex & Hx & Hrest). exists x. split; [|done].
    change (heap (put_at m l (shut_channel c)) !! l' = Some x). rewrite put_at_there; [done|].
    intros ->. simplify_eq.
  - intros i s Hs%(ok_shells _ Hm). by apply (put_at_valid m l (shut_channel c)).
  - intros l' x [ [-> ->]|[_ Ex] ]%(put_at_lookup _ _ _ _ _ _ Ec); [|by eapply ok_small].
    apply (ok_small _ Hm _ _ Ec).
Qed.

Lemma removed_calm m id l c : heap m !! l = Some c → calm m (removed m id l c).
Proof.
  intros Ec. assert (kept c (shut_channel c)) as Hk by done.
  destruct (put_at_calm m l c (shut_channel c) Ec Hk) as [H1 H2 H3]. by split.
Qed.

Lemma quiet_close id : quiet (closeChannel id).
Proof.
  intros m Hm. pose proof (channel_close_run m id Hm) as Hr. unfold wpm. destruct (channels m !! id) as [l|].
  - destruct Hr as (c & Ec & Hid & ->). split; [by apply removed_ok|by apply removed_calm].
  - by rewrite Hr.
Qed.

(** What a message leaves behind; its data is for a channel that is there. *)
Definition handled (m : Mux) (o : option (option (nat * bytes))) (m' : Mux) : Prop :=
  mux_ok m' ∧ calm m m' ∧ ∀ l data, o = Some (Some (l, data)) → valid l m'.

Lemma handled_none (x : Mu unit) m : quiet x → mux_ok m → wpm (_ ← x; mret None) m (handled m).
Proof.
  intros Hx Hm. apply wpm_bind. eapply wpm_mono; [by apply Hx|]. intros [[]|] m' [H1 H2]; by split_and!.
Qed.

Lemma data_for_handled payload m : mux_ok m → wpm (or_nothing (data_for payload)) m (handled m).
Proof.
  intros Hm. unfold or_nothing, data_for, wpm, mbind, mu_bind, parse, registered.
  destruct (dec payload) as [[id r]|]; [|by split_and!]. cbn. split_and!; [done..|].
  intros l data [= E]. destruct (channels m !! id) as [l'|] eqn:El; [|done].
  destruct (is_empty r); [done|]. simplify_eq. destruct (ok_registered _ Hm _ _ El) as (c & Ec & _). by exists c.
Qed.

Lemma handle_handled msg m : mux_ok m → wpm (handle msg) m (handled m).
Proof.
  intros Hm. unfold handle. cbv zeta. repeat case_match; try (apply handled_none; [|done]; try apply quiet_ignoring).
  - apply quiet_open.
  - apply quiet_request.
  - apply quiet_send.
  - by apply data_for_handled.
  - apply quiet_bind; [apply quiet_parse|]. intros p. apply quiet_close.
  - apply quiet_send.
Qed.

(** The loop itself cannot panic: whatever message arrives, it is handled,
    with an error at most, and the table of channels stays consistent: every
    registered channel is the one with its number and none of its Go channels is
    closed, so closing it closes nothing twice. *)
Theorem messages_handled msg m : mux_ok m →
  ∃ o m', handle msg m = (o, m') ∧ o ≠ Panics ∧ mux_ok m' ∧ calm m m'.
Proof.
  intros Hm. pose proof (handle_handled msg m Hm) as Hq. unfold wpm in Hq.
  destruct (handle msg m) as [[a| |] m'] eqn:E; [| |done]; destruct Hq as (H1 & H2 & _); by eexists _, m'.
Qed.

(** ** Any interleaving *)

Definition state_ok (s : state) : Prop :=
  match s with
  | Alive m w => mux_ok m ∧ match w with Pushing l _ => valid l m | _ => True end
  | Crashed => True
  end.

Lemma push_run l data m c : heap m !! l = Some c →
  push l data m = match try_send data_cap data (Channel.Data c) with
                  | Sent d => (Did true, put_at m l (Channel.set_data c d))
                  | Full => (Did false, m)
                  | SendPanics => (Panics, m)
                  end.
Proof. intros Ec. unfold push, mbind, mu_bind, load. rewrite Ec. by destruct (try_send _ _ _). Qed.

Lemma sent_inv {A} cap (x : A) c d : try_send cap x c = Sent d →
  d = Chan (buf c ++ [x]) false ∧ shut c = false ∧ (length (buf c) < cap)%nat.
Proof. unfold try_send. destruct (shut c); [done|]. case_decide; [|done]. by intros [= <-]. Qed.

Lemma recv_inv {A} (c : chan A) x d : recv c = Some (x, d) → buf c = x :: buf d ∧ shut d = shut c.
Proof. unfold recv. destruct (buf c); [done|]. by intros [= -> <-]. Qed.

(** A change of one channel that a step makes, and what it leaves. *)
Lemma change_ok m w l c c' : heap m !! l = Some c → Channel.ID c' = Channel.ID c →
  shut (Channel.Data c') = shut (Channel.Data c) → shut (Channel.CloseChan c') = shut (Channel.CloseChan c) →
  small_chans c' → state_ok (Alive m w) → state_ok (Alive (put_at m l c') w).
Proof.
  intros Ec H1 H2 H3 H4 [Hm Hw]. split; [by eapply put_at_ok|]. destruct w as [|l' d|]; [done| |done].
  by apply put_at_valid.
Qed.

Lemma sent_data_ok m w l c x d : heap m !! l = Some c → try_send data_cap x (Channel.Data c) = Sent d →
  state_ok (Alive m w) → state_ok (Alive (put_at m l (Channel.set_data c d)) w).
Proof.
  intros Ec (-> & Hsh & Hl)%sent_inv Hok. pose proof (ok_small _ (proj1 Hok) _ _ Ec) as [_ Hs].
  apply (change_ok m w l c _ Ec); [done|cbn; congruence|cbn; congruence| |done]. split; cbn; [rewrite length_app; cbn; lia|done].
Qed.

Lemma sent_close_ok m w l c d : heap m !! l = Some c → try_send close_cap true (Channel.CloseChan c) = Sent d →
  state_ok (Alive m w) → state_ok (Alive (put_at m l (Channel.set_close c d)) w).
Proof.
  intros Ec (-> & Hsh & Hl)%sent_inv Hok. pose proof (ok_small _ (proj1 Hok) _ _ Ec) as [Hs _].
  apply (change_ok m w l c _ Ec); [done|cbn; congruence|cbn; congruence| |done]. split; cbn; [done|rewrite length_app; cbn; lia].
Qed.

Lemma taken_data_ok m w l c x d : heap m !! l = Some c → recv (Channel.Data c) = Some (x, d) →
  state_ok (Alive m w) → state_ok (Alive (put_at m l (Channel.set_data c d)) w).
Proof.
  intros Ec (Hb & Hsh)%recv_inv Hok. pose proof (ok_small _ (proj1 Hok) _ _ Ec) as [Hs1 Hs2].
  rewrite Hb in Hs1. cbn in Hs1. apply (change_ok m w l c _ Ec); [done|cbn; congruence|cbn; congruence| |done]. split; cbn; [lia|done].
Qed.

Lemma taken_close_ok m w l c x d : heap m !! l = Some c → recv (Channel.CloseChan c) = Some (x, d) →
  state_ok (Alive m w) → state_ok (Alive (put_at m l (Channel.set_close c d)) w).
Proof.
  intros Ec (Hb & Hsh)%recv_inv Hok. pose proof (ok_small _ (proj1 Hok) _ _ Ec) as [Hs1 Hs2].
  rewrite Hb in Hs2. cbn in Hs2. apply (change_ok m w l c _ Ec); [done|cbn; congruence|cbn; congruence| |done]. split; cbn; [done|lia].
Qed.

Lemma in_phase_ok m w i l p : valid l m → state_ok (Alive m w) → state_ok (Alive (in_phase m i l p) w).
Proof.
  intros Hv [ [H1 H2 H3] Hw]. split; [|done]. split; [done| |done].
  intros j s [(_ & <- & _)|[_ Hs] ]%list_lookup_insert_Some; [done|by eapply H2].
Qed.

Lemma sent_ok m w t p : state_ok (Alive m w) → state_ok (Alive (send t p m).2 w).
Proof. unfold send. destruct (send_message t p (conn m)) as [[[]|] c]; intros [Hm Hw]; (split; [by apply mux_ok_conn|done]). Qed.

Lemma sent_valid t p l m : valid l m → valid l (send t p m).2.
Proof. unfold send. by destruct (send_message t p (conn m)) as [[[]|] c]. Qed.

Lemma send_close_run id m : (send_close id m).2 = (send SSH_MSG_CHANNEL_CLOSE (enc id) m).2.
Proof. unfold send_close, ignoring. by destruct (send _ _ m) as [[[]| |] ?]. Qed.

Lemma step_ok s e s' : state_ok s → step s e s' → state_ok s'.
Proof.
  intros Hok Hs. destruct Hs as
    [m msg c o m' Hn Hh|m c Hn|m|m l data o m' Hp|m w i l ch data d Hi Hc Hr|m w i l ch b c Hi Hc Hr
    |m w i l ch p Hi Hc|m w i l ch Hi Hc|m w i l ch c Hi Hc Hr|m w i l Hi Hr|m w i l Hi Hr|m w i l Hi
    |m w i l ch c Hi Hc Hr|m w i l Hi Hr|m w i l ch o m' Hi Hc Hr]; try done.
  - destruct Hok as [Hm _]. pose proof (handle_handled msg _ (mux_ok_conn m c Hm)) as Hq. unfold wpm in Hq.
    rewrite Hh in Hq. destruct o as [[[l data]|]| |]; [..|done]; destruct Hq as (H1 & _ & H2); (split; [done|]).
    + by eapply H2.
    + done.
    + done.
  - destruct Hok as [Hm _]. by split; [repeat apply mux_ok_conn|].
  - destruct Hok as [Hm _]. by split; [repeat apply mux_ok_conn|].
  - destruct Hok as [Hm [ch Hc] ]. rewrite (push_run l data m ch Hc) in Hp.
    destruct (try_send _ _ _) as [d| |] eqn:Et; injection Hp as <- <-; [|by split|by split; [apply mux_ok_conn|] ].
    by eapply (sent_data_ok m Reading).
  - by eapply (taken_data_ok m w).
  - by eapply (taken_close_ok m w).
  - by apply sent_ok.
  - rewrite send_close_run. apply in_phase_ok; [|by apply sent_ok].
    apply sent_valid. by exists ch.
  - apply (in_phase_ok (put_at m l (Channel.set_close ch c)));
      [apply put_at_valid; by exists ch|by eapply (sent_close_ok m w)].
  - apply in_phase_ok; [|done]. destruct Hr as (ch & Hc & _). by exists ch.
  - apply in_phase_ok; [|done]. exact (ok_shells _ (proj1 Hok) _ _ Hi).
  - apply (in_phase_ok (put_at m l (Channel.set_close ch c)));
      [apply put_at_valid; by exists ch|by eapply (sent_close_ok m w)].
  - pose proof (quiet_close (Channel.ID ch) m (proj1 Hok)) as Hq. unfold wpm in Hq. rewrite Hr in Hq.
    destruct o as [a| |]; [..|done]; destruct Hq as [Hm' Hcalm];
      (apply in_phase_ok; [eapply calm_valid; [exact Hcalm|by exists ch]|]);
      (split; [done|]; destruct Hok as [_ Hw]; destruct w as [|l' d'|]; [done| |done]; by eapply calm_valid).
Qed.

(** The steps of a session, with their events. *)
Inductive trace (s : state) : list event → state → Prop :=
  | trace_nil : trace s [] s
  | trace_snoc tr s' e s'' : trace s tr s' → step s' e s'' → trace s (tr ++ [e]) s''.

Lemma trace_ok s tr s' : state_ok s → trace s tr s' → state_ok s'.
Proof. intros Hok Ht. induction Ht as [|tr s' e s'' _ IH Hs]; [done|]. by eapply step_ok. Qed.

(** ** The data of a channel *)

(** What the client asks with a message: a session channel under a number of its
    own, the end of the channel with a number, or data for it. *)
Definition opens (msg : Message) : option Z :=
  if Type_ msg =? SSH_MSG_CHANNEL_OPEN then
    match dec (A := bytes * (Z * (Z * Z))) (Payload msg) with
    | Some ((kind, (number, _)), _) => if decide (kind = lit "session") then Some number else None
    | None => None
    end
  else None.
Definition closes (msg : Message) : option Z :=
  if Type_ msg =? SSH_MSG_CHANNEL_CLOSE then fst <$> dec (A := Z) (Payload msg) else None.
Definition carries (msg : Message) : option (Z * bytes) :=
  if Type_ msg =? SSH_MSG_CHANNEL_DATA then
    match dec (A := Z) (Payload msg) with
    | Some (number, data) => if is_empty data then None else Some (number, data)
    | None => None
    end
  else None.

(** The client's account of a session, from what happened alone: the numbers of the
    channels in the order they were opened, the channel a number stands for now,
    the data that is on its way, all the data sent to a channel and what was kept
    of it. *)
Record ledger := Ledger {
  numbers : list Z; named : gmap Z nat; due : option (nat * bytes);
  addressed : list (nat * bytes); accepted : list (nat * bytes) }.
Definition empty_ledger : ledger := Ledger [] ∅ None [] [].

Definition renamed (names : gmap Z nat) (fresh : nat) (msg : Message) : gmap Z nat :=
  match opens msg, closes msg with
  | Some n, _ => <[n := fresh]> names
  | None, Some n => delete n names
  | None, None => names
  end.
Definition addressee (names : gmap Z nat) (msg : Message) : option (nat * bytes) :=
  match carries msg with
  | Some (n, data) => match names !! n with Some l => Some (l, data) | None => None end
  | None => None
  end.

Definition note (v : ledger) (e : event) : ledger :=
  match e with
  | Got msg =>
      let data := addressee (named v) msg in
      Ledger (numbers v ++ option_list (opens msg)) (renamed (named v) (length (numbers v)) msg) data
        (addressed v ++ option_list data) (accepted v)
  | Kept => Ledger (numbers v) (named v) None (addressed v) (accepted v ++ option_list (due v))
  | Dropped => Ledger (numbers v) (named v) None (addressed v) (accepted v)
  | Ended l =>
      Ledger (numbers v) (match numbers v !! l with Some n => delete n (named v) | None => named v end)
        (due v) (addressed v) (accepted v)
  | Tau | Took _ _ => v
  end.
Definition ledger_of (tr : list event) : ledger := foldl note empty_ledger tr.

Definition for_channel (l : nat) (p : nat * bytes) : option bytes := if decide (p.1 = l) then Some p.2 else None.
Definition data_for_channel (l : nat) : list (nat * bytes) → list bytes := omap (for_channel l).
Definition taken_from (l : nat) (e : event) : option bytes :=
  match e with Took l' d => for_channel l (l', d) | _ => None end.
Definition buffered (l : nat) (m : Mux) : list bytes :=
  match heap m !! l with Some c => buf (Channel.Data c) | None => [] end.

Lemma calm_buffered m m' l : calm m m' → buffered l m' = buffered l m.
Proof.
  intros [H1 H2 _]. unfold buffered. destruct (heap m !! l) as [c|] eqn:E.
  - destruct (H1 _ _ E) as (c' & -> & _ & Hb & _). done.
  - destruct (heap m' !! l) as [c|] eqn:E'; [|done]. by eapply H2.
Qed.

Lemma put_at_buffered m l c c' l' : heap m !! l = Some c →
  buffered l' (put_at m l c') = if decide (l = l') then buf (Channel.Data c') else buffered l' m.
Proof.
  intros Ec. unfold buffered. case_decide as Hl.
  - subst. by rewrite (put_at_here m l' c' c).
  - by rewrite put_at_there.
Qed.

Lemma close_chan_same m l l' c d : heap m !! l = Some c →
  buffered l' (put_at m l (Channel.set_close c d)) = buffered l' m.
Proof.
  intros Ec. rewrite (put_at_buffered m l c) by done. case_decide; [|done]. subst. unfold buffered. by rewrite Ec.
Qed.

Lemma sent_buffered l t p m : buffered l (send t p m).2 = buffered l m.
Proof. unfold send. by destruct (send_message t p (conn m)) as [[[]|] c]. Qed.

(** *** What the handlers do to the numbers *)

Definition ids (m : Mux) : list Z := Channel.ID <$> heap m.

Lemma ids_put m l c c' : heap m !! l = Some c → Channel.ID c' = Channel.ID c → ids (put_at m l c') = ids m.
Proof.
  intros Ec Hid. unfold ids, put_at. cbn [set_heap heap]. rewrite list_fmap_insert, Hid. apply list_insert_id.
  by rewrite list_lookup_fmap, Ec.
Qed.

(** Handlers that leave the numbers as they are. *)
Definition still {A} (x : Mu A) : Prop := ∀ m, ids (x m).2 = ids m ∧ channels (x m).2 = channels m.

Lemma still_bind {A B} (x : Mu A) (k : A → Mu B) : still x → (∀ a, still (k a)) → still (x ≫= k).
Proof.
  intros Hx Hk m. specialize (Hx m). unfold mbind, mu_bind. destruct (x m) as [[a| |] m1]; [|done..].
  destruct (Hk a m1) as [H1 H2]. destruct Hx as [H3 H4]. cbn in *. by rewrite H1, H2.
Qed.
Lemma still_ignoring {A} (x : Mu A) : still x → still (ignoring x).
Proof. intros Hx m. specialize (Hx m). unfold ignoring. by destruct (x m) as [[a| |] m1]. Qed.
Lemma still_ret {A} (a : A) : still (mret a).
Proof. by intros m. Qed.
Lemma still_failed {A} : still (@failed A).
Proof. by intros m. Qed.
Lemma still_send t p : still (send t p).
Proof. intros m. unfold send. by destruct (send_message t p (conn m)) as [[[]|] c]. Qed.
Lemma still_parse {A} `{Wire A} r : still (parse (A := A) r).
Proof. intros m. unfold parse. by destruct (dec r). Qed.
Lemma still_load l : still (load l).
Proof. intros m. unfold load. by destruct (heap m !! l). Qed.

Create HintDb still.
#[local] Hint Resolve still_bind still_ignoring still_ret still_failed still_send still_parse still_load : still.

Lemma still_request payload : still (handleChannelRequest payload).
Proof.
  unfold handleChannelRequest. apply still_bind; [apply still_parse|]. intros [(id & ty & reply) r]. cbv zeta.
  assert (still (if reply then ignoring (sendChannelFailure id) else mret ())) as Hrefuse
    by (destruct reply; [apply still_ignoring, still_send|apply still_ret]).
  apply still_bind; [by intros m|]. intros [l|]; [|apply still_bind; [done|intros _; apply still_failed] ].
  apply still_bind; [apply still_load|]. intros c. repeat case_bool_decide; [| | |done].
  - apply still_bind; [apply still_parse|]. intros [(? & cols & rows & ?) ?].
    apply still_bind; [by intros m|]. intros _. destruct reply; [apply still_send|apply still_ret].
  - apply still_bind; [destruct reply; [apply still_send|apply still_ret] |]. intros _. by intros m.
  - apply still_bind; [apply still_parse|]. intros [(cols & rows & ?) ?]. by intros m.
Qed.

Lemma open_ids payload m : let m' := (handleChannelOpen payload m).2 in
  let number := opens {| Type_ := SSH_MSG_CHANNEL_OPEN; Payload := payload |} in
  ids m' = ids m ++ option_list number ∧
  channels m' = match number with Some n => <[n := length (heap m)]> (channels m) | None => channels m end.
Proof.
  cbv zeta. unfold handleChannelOpen, opens. cbn [Type_ Payload]. rewrite Z.eqb_refl.
  unfold mbind, mu_bind, parse. destruct (dec payload) as [ [(kind & n & w & pk) r]|]; [|by rewrite app_nil_r].
  cbn [mret mu_ret]. destruct (decide (kind = lit "session")) as [Hk|Hk].
  - rewrite bool_decide_eq_true_2 by done. cbn [negb register].
    unfold sendChannelOpenConfirmation.
    match goal with |- context [send ?t ?p ?x] => destruct (still_send t p x) as [H1 H2] end.
    rewrite H1, H2. split; [|done]. unfold ids. cbn. by rewrite fmap_app.
  - rewrite bool_decide_eq_false_2 by done. cbn [negb].
    unfold sendChannelOpenFailure.
    match goal with |- context [send ?t ?p ?x] => destruct (still_send t p x) as [H1 H2] end.
    by rewrite H1, H2, app_nil_r.
Qed.

Lemma close_ids id m : mux_ok m →
  ids (closeChannel id m).2 = ids m ∧ channels (closeChannel id m).2 = delete id (channels m).
Proof.
  intros Hm. pose proof (channel_close_run m id Hm) as Hr. destruct (channels m !! id) as [l|] eqn:El.
  - destruct Hr as (c & Ec & _ & ->). split; [|done]. by apply (ids_put m l c).
  - rewrite Hr. split; [done|]. symmetry. by apply delete_id.
Qed.

Lemma ignoring_then (x : Mu unit) m :
  (_ ← ignoring x; mret (None : option (nat * bytes))) m =
    (match (x m).1 with Panics => Panics | _ => Did None end, (x m).2).
Proof. unfold mbind, mu_bind, ignoring. by destruct (x m) as [[[]| |] m']. Qed.

(** A message does to the numbers what the client asks, and its data is for the
    channel the number stands for, whole. *)
Lemma handle_noted msg m o m' : mux_ok m → handle msg m = (o, m') →
  o = Did (addressee (channels m) msg) ∧ ids m' = ids m ++ option_list (opens msg) ∧
  channels m' = renamed (channels m) (length (ids m)) msg.
Proof.
  intros Hm Hh. destruct (messages_handled msg m Hm) as (o' & m1 & Hh' & Hno & _). rewrite Hh in Hh'. injection Hh' as <- <-.
  unfold ids at 3. rewrite length_fmap.
  destruct msg as [t payload]. unfold addressee, renamed, closes, carries. cbn [Type_ Payload].
  assert (∀ x : Mu unit, (_ ← ignoring x; mret None) m = (o, m') → o = Did None ∧ m' = (x m).2) as Hrun.
  { intros x. rewrite ignoring_then. intros [= <- <-]. split; [|done]. by destruct (x m).1. }
  assert (∀ x : Mu unit, still x → m' = (x m).2 → ids m' = ids m ++ [] ∧ channels m' = channels m) as Hstill
    by (intros x Hx ->; rewrite app_nil_r; apply Hx).
  unfold handle in Hh. cbv zeta in Hh. cbn [Type_ Payload] in Hh.
  destruct (t =? SSH_MSG_CHANNEL_OPEN) eqn:T1; [apply Z.eqb_eq in T1 as -> |].
  { apply Hrun in Hh as [-> ->]. cbn -[opens handleChannelOpen]. split; [done|]. destruct (open_ids payload m) as [H1 H2].
    rewrite H1, H2. split; [done|]. by destruct (opens _). }
  assert (opens {| Type_ := t; Payload := payload |} = None) as -> by (unfold opens; cbn [Type_]; by rewrite T1).
  cbn [option_list].
  destruct (t =? SSH_MSG_CHANNEL_REQUEST) eqn:T2; [apply Z.eqb_eq in T2 as -> |].
  { apply Hrun in Hh as [-> Hm']. split; [done|]. exact (Hstill _ (still_request payload) Hm'). }
  destruct (t =? SSH_MSG_GLOBAL_REQUEST) eqn:T3; [apply Z.eqb_eq in T3 as -> |].
  { apply Hrun in Hh as [-> Hm']. split; [done|]. exact (Hstill _ (still_send _ _) Hm'). }
  destruct (t =? SSH_MSG_CHANNEL_DATA) eqn:T4; [apply Z.eqb_eq in T4 as -> |].
  { unfold or_nothing, data_for, mbind, mu_bind, parse, registered in Hh.
    cbn -[dec]. destruct (dec payload) as [ [id r]|]; cbn in Hh.
    - injection Hh as <- <-. rewrite app_nil_r. split; [|done]. f_equal. destruct (is_empty r).
      + by destruct (channels m !! id).
      + done.
    - injection Hh as <- <-. by rewrite app_nil_r. }
  destruct (t =? SSH_MSG_CHANNEL_CLOSE) eqn:T5.
  { apply Hrun in Hh as [-> ->]. split; [done|]. rewrite app_nil_r. unfold handleChannelClose, mbind, mu_bind, parse.
    destruct (dec payload) as [ [id r]|]; [|done]. cbn -[closeChannel]. by apply close_ids. }
  apply Hrun in Hh as [-> Hm']. split; [done|]. exact (Hstill _ (still_send _ _) Hm').
Qed.

(** *** The ledger agrees with the session *)

Definition pending (w : at_work) : option (nat * bytes) :=
  match w with Pushing l data => Some (l, data) | _ => None end.

Record agrees (v : ledger) (taken : nat → list bytes) (m : Mux) (w : at_work) : Prop := {
  agrees_numbers : numbers v = ids m;
  agrees_named : named v = channels m;
  agrees_due : due v = pending w;
  agrees_order : accepted v ++ option_list (due v) `sublist_of` addressed v;
  agrees_data l : taken l ++ buffered l m = data_for_channel l (accepted v)
}.

Lemma agrees_kept v taken m w m' w' : agrees v taken m w → ids m' = ids m → channels m' = channels m →
  pending w' = pending w → (∀ l, buffered l m' = buffered l m) → agrees v taken m' w'.
Proof.
  intros [H1 H2 H3 H4 H5] Hi Hc Hw Hb. split; [by rewrite Hi|by rewrite Hc|by rewrite Hw|done|].
  intros l. by rewrite Hb.
Qed.

Lemma agrees_taken v taken taken' m w : (∀ l, taken' l = taken l) → agrees v taken m w → agrees v taken' m w.
Proof. intros Ht [H1 H2 H3 H4 H5]. split; [done..|]. intros l. by rewrite Ht. Qed.

Definition take_note (taken : nat → list bytes) (e : event) (l : nat) : list bytes :=
  taken l ++ option_list (taken_from l e).

Lemma data_snoc l p q : data_for_channel l (p ++ [q]) = data_for_channel l p ++ option_list (for_channel l q).
Proof. unfold data_for_channel. by rewrite omap_app. Qed.

Definition follows (v : ledger) (taken : nat → list bytes) (e : event) (s : state) : Prop :=
  match s with
  | Alive m w => agrees (note v e) (take_note taken e) m w
  | Crashed => e = Tau
  end.

(** A step that is no event. *)
Lemma follows_tau v taken m w m' w' : agrees v taken m w → ids m' = ids m → channels m' = channels m →
  pending w' = pending w → (∀ l, buffered l m' = buffered l m) → follows v taken Tau (Alive m' w').
Proof.
  intros. cbn. apply (agrees_taken _ taken); [|by eapply agrees_kept]. intros l. unfold take_note. by rewrite app_nil_r.
Qed.

Lemma follows_message v taken m msg c o m' : mux_ok m → agrees v taken m Reading →
  handle msg (set_conn m c) = (o, m') →
  follows v taken (Got msg) (match o with
                             | Did (Some (l, data)) => Alive m' (Pushing l data)
                             | Panics => over m'
                             | _ => Alive m' Reading
                             end).
Proof.
  intros Hm [H1 H2 H3 H4 H5] Hh. pose proof (mux_ok_conn m c Hm) as Hmc.
  pose proof (handle_handled msg _ Hmc) as Hq. unfold wpm in Hq. rewrite Hh in Hq.
  destruct (handle_noted msg _ _ _ Hmc Hh) as (-> & Hi & Hc). destruct Hq as (_ & Hcalm & _).
  cbn [set_conn channels] in Hc. change (ids (set_conn m c)) with (ids m) in *.
  cbn [set_conn channels] in *.
  assert (∀ w, pending w = addressee (channels m) msg → agrees (note v (Got msg)) (take_note taken (Got msg)) m' w) as Hall.
  { intros w Hw. split; cbn [note numbers named due addressed accepted]; rewrite ?H1, ?H2.
    - done.
    - done.
    - done.
    - rewrite H3 in H4. cbn [pending option_list] in H4. rewrite app_nil_r in H4. by apply sublist_app.
    - intros l. unfold take_note. cbn [taken_from option_list]. rewrite app_nil_r, (calm_buffered _ _ l Hcalm). apply H5. }
  destruct (addressee (channels m) msg) as [ [l data]|] eqn:Ea; by apply Hall.
Qed.

Lemma follows_push v taken m l data o m' : state_ok (Alive m (Pushing l data)) → agrees v taken m (Pushing l data) →
  push l data m = (o, m') →
  follows v taken (match o with Did true => Kept | _ => Dropped end)
    (match o with Did _ => Alive m' Reading | _ => over m' end).
Proof.
  intros [Hm [ch Hc] ] Hv Hp. pose proof Hv as [H1 H2 H3 H4 H5]. rewrite (push_run l data m ch Hc) in Hp.
  cbn [pending] in H3. rewrite H3 in H4. cbn [option_list] in H4.
  destruct (try_send _ _ _) as [d| |] eqn:Et; injection Hp as <- <-.
  - apply sent_inv in Et as (-> & _). split; cbn [note numbers named due addressed accepted].
    + by rewrite (ids_put m l ch).
    + done.
    + done.
    + rewrite H3. cbn [option_list]. by rewrite app_nil_r.
    + intros l'. unfold take_note. cbn [taken_from option_list]. rewrite H3, app_nil_r.
      change (option_list (Some (l, data))) with [(l, data)]. rewrite data_snoc, <- H5.
      rewrite (put_at_buffered m l ch) by done. unfold for_channel. cbn [fst snd].
      case_decide as Hl; [subst; unfold buffered; rewrite Hc; cbn; by rewrite app_assoc|]. by rewrite app_nil_r.
  - split; cbn [note numbers named due addressed accepted]; [done..| |].
    + cbn. rewrite app_nil_r. etrans; [|exact H4]. apply sublist_inserts_r. done.
    + intros l'. unfold take_note. cbn. by rewrite app_nil_r.
  - split; cbn [note numbers named due addressed accepted]; [done..| |].
    + cbn. rewrite app_nil_r. etrans; [|exact H4]. apply sublist_inserts_r. done.
    + intros l'. unfold take_note. cbn. by rewrite app_nil_r.
Qed.

Lemma follows_read v taken m w l ch data d : heap m !! l = Some ch → recv (Channel.Data ch) = Some (data, d) →
  agrees v taken m w → follows v taken (Took l data) (Alive (put_at m l (Channel.set_data ch d)) w).
Proof.
  intros Hc [Hb _]%recv_inv [H1 H2 H3 H4 H5]. split; cbn [note]; [by rewrite (ids_put m l ch)|done..|].
  intros l'. rewrite <- H5. unfold take_note. rewrite (put_at_buffered m l ch) by done. cbn [taken_from].
  unfold for_channel. cbn [fst snd]. case_decide as Hl; [|by rewrite app_nil_r].
  subst l'. unfold buffered. rewrite Hc, Hb. cbn. by rewrite <- app_assoc.
Qed.

Lemma follows_ended v taken m w i l ch m' o : mux_ok m → heap m !! l = Some ch →
  closeChannel (Channel.ID ch) m = (o, m') → agrees v taken m w →
  follows v taken (Ended l) (match o with Panics => Crashed | _ => Alive (in_phase m' i l Gone) w end).
Proof.
  intros Hm Hc Hr [H1 H2 H3 H4 H5]. pose proof (quiet_close (Channel.ID ch) m Hm) as Hq. unfold wpm in Hq. rewrite Hr in Hq.
  destruct (close_ids (Channel.ID ch) m Hm) as [Hi Hd]. rewrite Hr in Hi, Hd. cbn [snd] in Hi, Hd.
  assert (numbers v !! l = Some (Channel.ID ch)) as Hn by (rewrite H1; unfold ids; by rewrite list_lookup_fmap, Hc).
  destruct o as [a| |]; [..|done]; destruct Hq as [_ Hcalm]; split; cbn [note numbers named due addressed accepted];
    rewrite ?Hn; try done; try (by rewrite H1; symmetry; exact Hi); try (by rewrite H2; symmetry; exact Hd);
    intros l'; unfold take_note; cbn [taken_from option_list]; rewrite app_nil_r;
    change (buffered l' (in_phase m' i l Gone)) with (buffered l' m'); rewrite (calm_buffered _ _ l' Hcalm); apply H5.
Qed.

Lemma step_follows v taken m w e s' : state_ok (Alive m w) → agrees v taken m w →
  step (Alive m w) e s' → follows v taken e s'.
Proof.
  intros Hok Hv Hs. remember (Alive m w) as s eqn:Es. destruct Hs as
    [? msg c o m' Hn Hh|? c Hn|?|? l0 data o m' Hp|? ? i l0 ch data d Hi Hc Hr|? ? i l0 ch b c Hi Hc Hr
    |? ? i l0 ch p Hi Hc|? ? i l0 ch Hi Hc|? ? i l0 ch c Hi Hc Hr|? ? i l0 Hi Hr|? ? i l0 Hi Hr|? ? i l0 Hi
    |? ? i l0 ch c Hi Hc Hr|? ? i l0 Hi Hr|? ? i l0 ch o m' Hi Hc Hr]; simplify_eq; try done;
    try (by apply (follows_tau v taken m w)).
  - eapply follows_message; [apply Hok|done..].
  - by apply (follows_tau v taken m Reading).
  - by apply (follows_tau v taken m Reading).
  - by eapply follows_push.
  - by apply (follows_read v taken m w l0 ch).
  - apply (follows_tau v taken m w); [done|by apply (ids_put m l0 ch)|done..|]. intros l. by apply close_chan_same.
  - destruct (still_send SSH_MSG_CHANNEL_DATA (enc (Channel.ID ch) ++ p) m) as [H1 H2].
    apply (follows_tau v taken m w); [done..|]. intros l. apply sent_buffered.
  - rewrite send_close_run. destruct (still_send SSH_MSG_CHANNEL_CLOSE (enc (Channel.ID ch)) m) as [H1 H2].
    apply (follows_tau v taken m w); [done..|]. intros l. apply (sent_buffered l _ _ m).
  - apply (follows_tau v taken m w); [done|by apply (ids_put m l0 ch)|done..|]. intros l. by apply (close_chan_same m l0 l ch).
  - apply (follows_tau v taken m w); [done|by apply (ids_put m l0 ch)|done..|]. intros l. by apply (close_chan_same m l0 l ch).
  - eapply follows_ended; [apply Hok|done..].
Qed.

Lemma trace_ledger m tr s : mux_ok m → heap m = [] → trace (Alive m Reading) tr s →
  match s with
  | Alive m' w => agrees (ledger_of tr) (λ l, omap (taken_from l) tr) m' w
  | Crashed => ∃ m' w, state_ok (Alive m' w) ∧ agrees (ledger_of tr) (λ l, omap (taken_from l) tr) m' w
  end.
Proof.
  intros Hm Hnew Ht. assert (state_ok (Alive m Reading)) as Hok by done.
  induction Ht as [|tr s' e s'' Htr IH Hs].
  - assert (channels m = ∅) as Hch.
    { apply map_empty. intros id. destruct (channels m !! id) as [l|] eqn:El; [|done].
      destruct (ok_registered m Hm id l El) as (c & Hc & _). by rewrite Hnew in Hc. }
    split; cbn; [unfold ids; by rewrite Hnew|done|done|done|]. intros l. unfold buffered. by rewrite Hnew.
  - pose proof (trace_ok _ _ _ Hok Htr) as Hok'. destruct s' as [m' w|]; [|by inversion Hs].
    pose proof (step_follows _ _ _ _ _ _ Hok' IH Hs) as Hf. unfold ledger_of in *. rewrite foldl_app. cbn [foldl].
    assert (∀ l, omap (taken_from l) (tr ++ [e]) = take_note (λ l, omap (taken_from l) tr) e l) as Ht
      by (intros l; unfold take_note; by rewrite omap_app).
    destruct s'' as [m'' w''|]; cbn [follows] in Hf.
    + exact (agrees_taken _ _ _ _ _ Ht Hf).
    + subst e. exists m', w. split; [done|]. apply (agrees_taken _ (λ l, omap (taken_from l) tr)); [|done].
      intros l. rewrite Ht. unfold take_note. by rewrite app_nil_r.
Qed.

(** Nothing is lost between a message and the send it ends in. *)
Lemma trace_lossless m tr s : mux_ok m → heap m = [] → trace (Alive m Reading) tr s → Dropped ∉ tr →
  addressed (ledger_of tr) = accepted (ledger_of tr) ++ option_list (due (ledger_of tr)).
Proof.
  intros Hm Hnew Ht. induction Ht as [|tr s' e s'' Htr IH Hs]; intros Hd; [done|].
  rewrite not_elem_of_app, list_elem_of_singleton in Hd. destruct Hd as [Hd He].
  specialize (IH Hd). pose proof (trace_ledger m tr s' Hm Hnew Htr) as Hv.
  unfold ledger_of in *. rewrite foldl_app. cbn [foldl]. set (v := foldl note empty_ledger tr) in *.
  destruct e as [|msg| | |l data|l]; cbn [note numbers named due addressed accepted]; try done.
  - assert (due v = None) as Hn.
    { remember (Got msg) as e eqn:Ee. destruct Hs as [m0 msg' c o m' _ _| | |m0 l data o m' _| | | | | | | | | | |];
        try done; [by rewrite (agrees_due _ _ _ _ Hv)|by destruct o as [ []| |] ]. }
    rewrite IH, Hn. cbn [option_list]. by rewrite app_nil_r.
  - rewrite IH. cbn [option_list]. by rewrite app_nil_r.
Qed.

Lemma sublist_omap {A B} (f : A → option B) l k : l `sublist_of` k → omap f l `sublist_of` omap f k.
Proof.
  induction 1 as [|x l k _ IH|x l k _ IH]; [done|..]; cbn; destruct (f x); [by apply sublist_skip|done| |done].
  by apply sublist_cons.
Qed.

(** Data is dropped when a hundred messages wait, or the session ends on it. *)
Lemma dropped_full s s' : step s Dropped s' →
  ∃ m l data, s = Alive m (Pushing l data) ∧
    ((data_cap ≤ length (buffered l m))%nat ∨ ∃ m', s' = Alive m' Over).
Proof.
  intros Hs. remember Dropped as e eqn:Ee. destruct Hs as [| | |m l data o m' Hp| | | | | | | | | | |]; try done.
  exists m, l, data. split; [done|]. unfold push, mbind, mu_bind, load in Hp. unfold buffered.
  destruct (heap m !! l) as [ch|] eqn:Ec; [|injection Hp as <- <-; right; by eexists].
  unfold try_send in Hp. destruct (shut (Channel.Data ch)); [injection Hp as <- <-; right; by eexists|].
  case_decide as Hl; [by injection Hp as <- <-|]. left. lia.
Qed.

(** C40: From the start of a session the terminal of a channel takes what the client
    sent to that channel, and nothing else: by the client's own account of the session - which message opened
    a channel under which number, which closed it, and whose number a message of
    data bore when it came - what is taken is, in that order and each whole and
    once, the data that was kept, and at most a hundred messages of it still wait.
    What is kept of what the client sent keeps its order, and data is dropped only
    when a hundred messages wait, or when the session ends. *)
Theorem data_in_order m tr s l : mux_ok m → heap m = [] → trace (Alive m Reading) tr s →
  let account := ledger_of tr in
  omap (taken_from l) tr `prefix_of` data_for_channel l (accepted account) ∧
  data_for_channel l (accepted account) `sublist_of` data_for_channel l (addressed account) ∧
  (Dropped ∉ tr → addressed account = accepted account ++ option_list (due account)) ∧
  match s with
  | Alive m' _ =>
      omap (taken_from l) tr ++ buffered l m' = data_for_channel l (accepted account) ∧
      (length (buffered l m') ≤ data_cap)%nat
  | Crashed => True
  end ∧
  ∀ s', step s Dropped s' →
    ∃ m' l' data, s = Alive m' (Pushing l' data) ∧ ((data_cap ≤ length (buffered l' m'))%nat ∨ ∃ m'', s' = Alive m'' Over).
Proof.
  intros Hm Hnew Ht account. pose proof (trace_ok (Alive m Reading) tr s (conj Hm I) Ht) as Hok.
  pose proof (trace_ledger m tr s Hm Hnew Ht) as Hv. fold account in Hv.
  assert (∃ m' w, state_ok (Alive m' w) ∧ agrees account (λ l, omap (taken_from l) tr) m' w ∧ (∀ m0 w0, s = Alive m0 w0 → m0 = m'))
    as (m' & w & Hok' & [H1 H2 H3 H4 H5] & Hs).
  { destruct s as [m' w|]; [exists m', w; split_and!; [done..|by intros ?? [= -> _] ]|].
    destruct Hv as (m' & w & ? & ?). by exists m', w. }
  split_and!.
  - rewrite <- H5. by apply prefix_app_r.
  - etrans; [|apply (sublist_omap (for_channel l)), H4]. unfold data_for_channel. rewrite omap_app. by apply sublist_inserts_r.
  - by apply trace_lossless with (s := s) (m := m).
  - destruct s as [m0 w0|]; [|done]. rewrite (Hs m0 w0 eq_refl). split; [apply H5|]. unfold buffered.
    destruct (heap m' !! l) as [c|] eqn:Ec; [|cbn; lia]. by apply (ok_small _ (proj1 Hok') _ _ Ec).
  - intros s'. apply dropped_full.
Qed.

(** ** The end of a shell *)

(** The shell at [l] runs, and the client has closed its channel. *)
Definition orphaned (i l : nat) (s : state) : Prop :=
  match s with
  | Alive m _ => ∃ p c, shells m !! i = Some (Shell l p) ∧ p ≠ Removing ∧ p ≠ Gone ∧
                   heap m !! l = Some c ∧ shut (Channel.CloseChan c) = true
  | Crashed => True
  end.

Lemma calm_orphaned i l m m' w w' : calm m m' → orphaned i l (Alive m w) → orphaned i l (Alive m' w').
Proof.
  intros [H1 _ [k Hk] ] (p & c & Hi & H2 & H3 & Hc & Hsh). destruct (H1 _ _ Hc) as (c' & Hc' & _ & _ & Hsh').
  exists p, c'. split_and!; [|done..|by apply Hsh']. rewrite Hk. by apply lookup_app_l_Some.
Qed.

Lemma phase_orphaned i l m w j l' p p' : shells m !! j = Some (Shell l' p) → p' ≠ Removing → p' ≠ Gone →
  orphaned i l (Alive m w) → orphaned i l (Alive (in_phase m j l' p') w).
Proof.
  intros Hj H1 H2 (q & c & Hi & Hq1 & Hq2 & Hc & Hsh). destruct (decide (i = j)) as [->|Hne].
  - simplify_eq. exists p', c. split_and!; try done. cbn. apply list_lookup_insert_eq. by eapply lookup_lt_Some.
  - exists q, c. split_and!; try done. cbn. by rewrite list_lookup_insert_ne.
Qed.

Lemma gone_orphaned i l m w j l' p' : j ≠ i → orphaned i l (Alive m w) → orphaned i l (Alive (in_phase m j l' p') w).
Proof.
  intros Hne (q & c & Hi & Hq). exists q, c. split; [|done]. cbn. by rewrite list_lookup_insert_ne.
Qed.

Lemma put_at_close_calm m l c d : heap m !! l = Some c → shut d = shut (Channel.CloseChan c) →
  calm m (put_at m l (Channel.set_close c d)).
Proof. intros Ec Hd. apply (put_at_calm m l c); [done|]. split_and!; [done..|]. cbn. by rewrite Hd. Qed.

Lemma put_at_data_orphaned i l m w l' c d : heap m !! l' = Some c →
  orphaned i l (Alive m w) → orphaned i l (Alive (put_at m l' (Channel.set_data c d)) w).
Proof.
  intros Ec (q & x & Hi & H1 & H2 & Hx & Hsh). destruct (decide (l = l')) as [->|Hne].
  - rewrite Hx in Ec. injection Ec as ->. exists q, (Channel.set_data c d). split_and!; try done.
    by eapply put_at_here.
  - exists q, x. split_and!; try done. by rewrite put_at_there.
Qed.

Lemma sent_calm t p m : calm m (send t p m).2.
Proof. unfold send. destruct (send_message t p (conn m)) as [[[]|] c]; apply calm_conn. Qed.

Lemma step_orphaned i l s e s' : state_ok s → orphaned i l s → step s e s' → orphaned i l s'.
Proof.
  intros Hok Ho Hs. destruct Hs as
    [m msg c o m' Hn Hh|m c Hn|m|m l0 data o m' Hp|m w j l0 ch data d Hj Hc Hr|m w j l0 ch b c Hj Hc Hr
    |m w j l0 ch p Hj Hc|m w j l0 ch Hj Hc|m w j l0 ch c Hj Hc Hr|m w j l0 Hj Hr|m w j l0 Hj Hr|m w j l0 Hj
    |m w j l0 ch c Hj Hc Hr|m w j l0 Hj Hr|m w j l0 ch o m' Hj Hc Hr]; try done.
  - destruct Hok as [Hm _]. pose proof (handle_handled msg _ (mux_ok_conn m c Hm)) as Hq. unfold wpm in Hq.
    rewrite Hh in Hq.
    destruct o as [[[l' data]|]| |]; [..|done]; destruct Hq as (_ & Hcalm & _);
      exact (calm_orphaned i l _ _ Reading _ Hcalm Ho).
  - destruct Hok as [Hm [ch Hc] ]. rewrite (push_run l0 data m ch Hc) in Hp.
    destruct (try_send _ _ _) as [d| |] eqn:Et; injection Hp as <- <-; [|done..].
    by apply (put_at_data_orphaned i l m Reading).
  - by apply (put_at_data_orphaned i l m w).
  - apply recv_inv in Hr as [_ Hsh]. eapply calm_orphaned; [by apply (put_at_close_calm m l0 ch c)|exact Ho].
  - eapply calm_orphaned; [apply sent_calm|exact Ho].
  - rewrite send_close_run. eapply (phase_orphaned i l _ w j l0 InTerminal); [|done..|].
    + destruct (sent_calm SSH_MSG_CHANNEL_CLOSE (enc (Channel.ID ch)) m) as [_ _ [k ->] ].
      by apply lookup_app_l_Some.
    + eapply calm_orphaned; [apply sent_calm|exact Ho].
  - apply sent_inv in Hr as (-> & Hsh & _). eapply (phase_orphaned i l (put_at m l0 _) w j l0 Closing); [done..|].
    eapply calm_orphaned; [by apply (put_at_close_calm m l0 ch)|exact Ho].
  - by eapply phase_orphaned.
  - by eapply phase_orphaned.
  - apply sent_inv in Hr as (-> & Hsh & _). destruct (decide (j = i)) as [->|Hne].
    + destruct Ho as (q & x & Hi & _ & _ & Hx & Hsh'). simplify_eq. by rewrite Hsh' in Hsh.
    + apply (gone_orphaned i l (put_at m l0 _)); [done|].
      eapply calm_orphaned; [by apply (put_at_close_calm m l0 ch)|exact Ho].
  - pose proof (quiet_close (Channel.ID ch) m (proj1 Hok)) as Hq. unfold wpm in Hq. rewrite Hr in Hq.
    assert (j ≠ i) as Hne by (intros ->; destruct Ho as (q & x & Hi & ? & _); simplify_eq).
    destruct o as [a| |]; [..|done]; destruct Hq as [_ Hcalm]; (apply gone_orphaned; [done|]);
      exact (calm_orphaned i l _ _ w _ Hcalm Ho).
Qed.

(** A client that closes a channel while its shell runs brings the process
    down: the shell can go on for a while, but its only way to end is to send on
    the Go channel that has been closed, in a goroutine that does not recover. *)
Theorem closed_shell_crashes m tr s i l : mux_ok m → orphaned i l (Alive m Reading) →
  trace (Alive m Reading) tr s →
  orphaned i l s ∧
  ∀ m' w, s = Alive m' w → shells m' !! i = Some (Shell l Returning) →
    step s Tau Crashed ∧ ∀ m'' w' e, step s e (Alive m'' w') → ∃ p, shells m'' !! i = Some (Shell l p) ∧ p ≠ Gone.
Proof.
  intros Hm Ho Ht. assert (state_ok (Alive m Reading)) as Hok by done.
  assert (state_ok s ∧ orphaned i l s) as [Hok' Ho'].
  { induction Ht as [|tr s' e s'' _ [IH1 IH2] Hs]; [done|].
    split; [by eapply step_ok|by eapply step_orphaned]. }
  split; [done|]. intros m' w -> Hi. split.
  - destruct Ho' as (p & c & Hi' & _ & _ & Hc & Hsh). eapply shell_crashes; [exact Hi|]. exists c.
    split; [done|]. unfold try_send. by rewrite Hsh.
  - intros m'' w' e Hs. destruct (step_orphaned _ _ _ _ _ Hok' Ho' Hs) as (p & c & Hi' & _ & Hp & _). eauto.
Qed.

(** ** Examples *)

(** The loop alone, over messages without data. *)
Fixpoint deliver (l : list Message) (m : Mux) : Mux :=
  match l with [] => m | msg :: l => deliver l (handle msg m).2 end.

Lemma deliver_ok l m : mux_ok m → mux_ok (deliver l m).
Proof.
  revert m. induction l as [|msg l IH]; intros m Hm; [done|]. apply IH.
  pose proof (handle_handled msg m Hm) as Hq. unfold wpm in Hq.
  destruct (handle msg m) as [[a| |] m']; [..|done]; by destruct Hq.
Qed.

Definition new_mux : Mux := {| conn := conn_of []; heap := []; channels := ∅; shells := [] |}.
Lemma new_mux_ok : mux_ok new_mux.
Proof. split; cbn; [by intros id l ?%lookup_empty_Some|done|done]. Qed.

Definition open_msg (id : Z) : Message :=
  {| Type_ := SSH_MSG_CHANNEL_OPEN; Payload := enc (lit "session", (id, (1000, 2000))) |}.
Definition shell_msg (id : Z) : Message :=
  {| Type_ := SSH_MSG_CHANNEL_REQUEST; Payload := enc (id, (lit "shell", false)) |}.
Definition close_msg (id : Z) : Message := {| Type_ := SSH_MSG_CHANNEL_CLOSE; Payload := enc id |}.
Definition data_msg (id : Z) (p : bytes) : Message :=
  {| Type_ := SSH_MSG_CHANNEL_DATA; Payload := enc id ++ p |}.

Lemma messages_handled_witness : ∃ o m', handle (open_msg 7) new_mux = (o, m') ∧ o ≠ Panics ∧ mux_ok m'.
Proof. destruct (messages_handled (open_msg 7) new_mux new_mux_ok) as (o & m' & E & H1 & H2 & _). by exists o, m'. Defined.

Definition closed_early : Mux := deliver [open_msg 7; shell_msg 7; close_msg 7] new_mux.

Lemma closed_early_orphaned : orphaned 0 0 (Alive closed_early Reading).
Proof.
  exists InTerminal, (Channel.set_chans (new_channel 7 (lit "session") 1000 2000) (Chan [] true) (Chan [] true) true).
  split_and!; [vm_compute; reflexivity|done|done|vm_compute; reflexivity|reflexivity].
Qed.

(** The terminal returns, and the process is gone. *)
Lemma closed_shell_crashes_witness :
  step (Alive (in_phase closed_early 0 0 Returning) Reading) Tau Crashed.
Proof.
  assert (mux_ok closed_early) as Hok by (apply deliver_ok, new_mux_ok).
  assert (shells closed_early !! 0%nat = Some (Shell 0 InTerminal)) as Hi by (vm_compute; reflexivity).
  destruct (closed_shell_crashes closed_early [Tau] (Alive (in_phase closed_early 0 0 Returning) Reading) 0 0
           Hok closed_early_orphaned (trace_snoc _ [] _ _ _ (trace_nil _) (shell_returns _ _ _ _ Hi))) as [_ Hend].
  apply (Hend _ _ eq_refl). vm_compute. reflexivity.
Defined.

(** A shell that ends first ends well, and its channel goes. *)
Example orderly_end :
  let m := deliver [open_msg 7; shell_msg 7] new_mux in
  ∃ c m', rtc (λ s s', ∃ e, step s e s') (Alive m Reading) (Alive m' Reading) ∧
    heap m' !! 0%nat = Some c ∧ shells m' = [Shell 0 Gone] ∧ Channel.Closed c = true ∧ channels m' = ∅.
Proof.
  intros m. set (c0 := new_channel 7 (lit "session") 1000 2000).
  set (c1 := Channel.set_close c0 (Chan [true] false)).
  set (m1 := in_phase m 0 0 Returning). set (m2 := in_phase (put_at m1 0 c1) 0 0 Removing).
  exists (shut_channel c1), (in_phase (removed m2 7 0 c1) 0 0 Gone). split; [|vm_compute; done].
  eapply rtc_l; [exists Tau; apply (shell_returns m Reading 0 0); vm_compute; reflexivity|].
  eapply rtc_l; [exists Tau; apply (shell_signals m1 Reading 0 0 c0 (Chan [true] false)); vm_compute; reflexivity|].
  eapply rtc_l; [exists (Ended 0); apply (shell_removes m2 Reading 0 0 c1 (Did ()) (removed m2 7 0 c1));
    vm_compute; reflexivity|]. done.
Qed.

(** The client opens a channel, starts a shell and types. *)
Definition typed : list Message := [open_msg 7; shell_msg 7; data_msg 7 (lit "ls")].
Definition typing (n : nat) : Mux :=
  let m := deliver (take n typed) new_mux in
  set_conn m (with_input (mjoin ((λ m, frame (Type_ m) (Payload m)) <$> drop n typed)) (conn m)).
Definition arriving (n : nat) : Conn := with_input (input (conn (typing (S n)))) (conn (typing n)).
Definition typed_data : Channel.t :=
  Channel.set_data (new_channel 7 (lit "session") 1000 2000) (Chan [lit "ls"] false).

Definition a_trace : list event :=
  [Got (open_msg 7); Got (shell_msg 7); Got (data_msg 7 (lit "ls")); Kept; Took 0 (lit "ls")].

(** By the client's account [ls] was sent to the first channel, and kept. *)
Example a_account :
  let account := ledger_of a_trace in
  numbers account = [7] ∧ named account !! 7 = Some 0%nat ∧ addressed account = [(0%nat, lit "ls")] ∧
  accepted account = [(0%nat, lit "ls")].
Proof. vm_compute. done. Qed.

Lemma data_in_order_witness : ∃ s, trace (Alive (typing 0) Reading) a_trace s ∧
  omap (taken_from 0) a_trace = [lit "ls"] ∧
  omap (taken_from 0) a_trace `prefix_of` data_for_channel 0 (accepted (ledger_of a_trace)).
Proof.
  set (m3 := typing 3). set (m4 := put_at m3 0 typed_data).
  assert (trace (Alive (typing 0) Reading) a_trace
            (Alive (put_at m4 0 (Channel.set_data typed_data make_chan)) Reading)) as T.
  { apply (trace_snoc _ (take 4 a_trace) (Alive m4 Reading)).
    2:{ apply (shell_read m4 Reading 0 0 typed_data (lit "ls") make_chan); vm_compute; reflexivity. }
    apply (trace_snoc _ (take 3 a_trace) (Alive m3 (Pushing 0 (lit "ls")))).
    2:{ apply (loop_push m3 0 (lit "ls") (Did true) m4); vm_compute; reflexivity. }
    apply (trace_snoc _ (take 2 a_trace) (Alive (typing 2) Reading)).
    2:{ apply (loop_message (typing 2) (data_msg 7 (lit "ls")) (arriving 2) (Did (Some (0%nat, lit "ls"))) m3);
        vm_compute; reflexivity. }
    apply (trace_snoc _ (take 1 a_trace) (Alive (typing 1) Reading)).
    2:{ apply (loop_message (typing 1) (shell_msg 7) (arriving 1) (Did None) (typing 2)); vm_compute; reflexivity. }
    apply (trace_snoc _ [] (Alive (typing 0) Reading)); [constructor|].
    apply (loop_message (typing 0) (open_msg 7) (arriving 0) (Did None) (typing 1)); vm_compute; reflexivity. }
  assert (mux_ok (typing 0)) as Hok by (apply mux_ok_conn, deliver_ok, new_mux_ok).
  exists (Alive (put_at m4 0 (Channel.set_data typed_data make_chan)) Reading).
  split; [exact T|]. split; [vm_compute; reflexivity|].
  apply (data_in_order (typing 0) a_trace _ 0 Hok eq_refl T).
Defined.
